(* ===== verification/_CoqProject ===== *)
-Q . S2P
Prelude.v
Primitives.v
Gas.v
EvmStack.v
EvmMemory.v
I256.v
Opcode.v
Analysis.v
Interpreter.v
Instructions.v
Natural.v
Safety.v
Execution.v
Semantics.v
Precompile.v
PrecompileSpec.v
Journal.v
JournalRevert.v
JournalSafe.v
EvmImpl.v
CacheDB.v
NodeDb.v
BlockStates.v
BlockStatesSpec.v
EvmSafety.v
EvmTable.v
TransactSpec.v
CacheDBSpec.v
NodeDbSpec.v
ChainSpec.v
EthTransaction.v
EthRequest.v
Fees.v
FeesSpec.v
TxPool.v
Miner.v
Codec.v
RlpCrate.v
Calls.v
Api.v
Queries.v
Filters.v
NodeApi.v
NodeConfig.v
Fork.v
TxReady.v
TxPoolSpec.v
NodePool.v
MinerSpec.v
CallsSpec.v
NodeSpec.v
HistorySpec.v
CodecSpec.v
ApiSpec.v
QueriesSpec.v
FiltersSpec.v
NodeApiSpec.v
NodeConfigSpec.v
ForkSpec.v
