(* ===== verification/Prelude.v ===== *)
(** * A verification library for the enterprise-blockchain node

    The program is the node of the enterprise blockchain: its EVM under
    [src/enterprise-blockchain/revm/crates], a fork of revm with an
    administrator's precompile added, and the node proper, anvil, under
    [src/enterprise-blockchain/foundry/anvil], which keeps a pool of
    transactions, builds blocks of them with the EVM and stores chain and
    state.  The library models both and proves what makes them correct.  File
    names below are relative to [crates] and, for the node, to
    [foundry]; a definition has the name of the Rust item it translates.

    ** The parts, from the bottom up

    - [Prelude] (this file): the result type [rust] of Rust code (a value, a
      panic, undefined behaviour, or out of fuel), its monad and its weakest
      precondition [wp], machine integers as [Z] with their wrap-around
      written out, vectors and slices with their bounds, and the lemmas and
      tactics the other files share.
    - [Primitives]: [primitives/src] ([specification], [env], [state],
      [bytecode], [log], [result], [utilities]) and the interpreter's
      [inner_models.rs] and [instruction_result.rs].
    - [Gas]: [interpreter/src/gas.rs], [gas/calc.rs], [gas/constants.rs].
    - [EvmStack], [EvmMemory]: [interpreter/src/interpreter/stack.rs] and
      [memory.rs]; [unsafe] accesses are undefined behaviour out of bounds.
    - [I256]: [instructions/i256.rs] and the word functions of
      [arithmetic.rs] and [bitwise.rs].
    - [Opcode]: [instructions/opcode.rs], the numbers, names and gas table.
    - [Analysis]: [interpreter/analysis.rs], the jump destinations.
    - [Interpreter]: [interpreter.rs], [interpreter/contract.rs], [host.rs] (the
      class [Host]), [host/dummy_host.rs] and [instructions/macros.rs] as a
      monad with early exit.
    - [Instructions]: [instructions/*.rs], one module per file, the dispatcher
      [eval], [step] and [run].
    - [Precompile]: [precompile/src], with the administrator's precompile and
      its [static mut] variables as explicit state.
    - [Journal]: [revm/src/journaled_state.rs] over the class [Database] of
      [primitives/src/db.rs].
    - [EvmImpl]: [revm/src/evm_impl.rs] and [revm/src/evm.rs], a transaction
      from its checks to what is to be committed; [evm_host] makes the driver
      the host of the frames it runs.
    - [CacheDB]: [revm/src/db/in_memory_db.rs], the other traits of
      [primitives/src/db.rs] and [primitives/src/db/components].

    The node:

    - [EthTransaction]: [anvil/core/src/eth/transaction/mod.rs], signed
      transactions and the environment of the EVM made of them.
    - [EthRequest]: the requests of the same file, and how [src/eth/sign.rs]
      and the API make transactions of them.
    - [Codec]: the RLP of transactions, requests, receipts, headers, blocks
      and accounts of [anvil/core/src/eth], the hashes taken of it and the
      recovery of senders.  [RlpCrate] has what this relies on of the crate
      [rlp] ([RlpSpec]) and the encoding of the yellow paper, which does it.
    - [TxPool]: [anvil/src/eth/pool], the queues of waiting and of ready
      transactions, the iterator the block builder draws from, the pool.
    - [Fees]: [anvil/src/eth/fees.rs] and [anvil/src/eth/backend/time.rs].
    - [NodeDb]: [anvil/src/eth/backend/db.rs], [mem/in_memory_db.rs],
      [mem/state.rs] and the snapshots of [evm/src/executor].
    - [BlockStates]: the history of states of [mem/storage.rs], with the
      configuration that prunes it, and the files of [mem/cache.rs] that old
      states go to.
    - [Miner]: [anvil/src/eth/backend/executor.rs], [do_mine_block] and the
      snapshots of [backend/mem/mod.rs], the storage of blocks, and the steps
      of [anvil/src/eth/miner.rs] and [anvil/src/service.rs]; [handle] is one
      event at the node, the pool's requests included, [run_node] any
      interleaving of them.
    - [Calls]: the requests of [anvil/src/eth/api.rs] that read: the database
      and block they are about ([with_database_at] of [backend/mem/mod.rs]),
      [eth_call] with state overrides, [eth_estimateGas], and the queries of
      code, balance and nonce.
    - [Api]: the requests that send: signers and impersonation
      ([src/eth/sign.rs], [backend/cheats.rs]), and how a request or raw bytes
      become a transaction of the pool.
    - [Queries]: what the API answers about the chain, blocks, transactions,
      receipts and logs, with the conversions of
      [anvil/core/src/eth/transaction/ethers_compat.rs] and the filter of logs.
    - [Filters]: [anvil/src/filter.rs] and [anvil/src/pubsub.rs], installed
      filters with their deadlines and the streams of subscriptions.
    - [NodeApi]: the requests that set the node up ([anvil_*], [evm_*]) and
      those about chain and pool together; [execute] dispatches requests as
      [EthApi::execute] does, [node_run] interleaves them with the service.
    - [NodeConfig]: hard forks, genesis files, the configuration and the
      command line ([anvil/src/hardfork.rs], [genesis.rs], [config.rs],
      [cmd.rs]), and [spawn] of [lib.rs], which makes a node of them.
    - [Fork]: the remote chain that a forking node reads
      ([foundry/evm/src/executor/fork/backend.rs], [cache.rs], [database.rs]
      and [anvil/src/eth/backend/mem/fork_db.rs]): the handler that fetches
      each account, slot and block once for everyone who asks, as a state
      with a log of what it sends, polled with what the provider answers; its
      cache; and the forked database with its snapshots.

    The pool hands transactions to the miner, the miner batches to the block
    producer, whose [do_mine_block] runs [TransactionExecutor] on the
    database through the class [Evm] (the EVM above, [node_evm]), updates
    storage, history, fees and time, and tells the pool what was mined.

    ** What is proved

    - [Safety] is a program logic for instructions, with the interface
      [HostSpec] that a host must implement; [Execution] draws from it that
      an instruction preserves the machine invariant, that arbitrary bytes
      run to completion, and that static frames change nothing.
      [Semantics] has the results of word instructions and jumps.
    - [JournalRevert]: reverting a checkpoint restores the state, for the
      operations that journal what they change.  [JournalSafe]: whatever the
      operations, a revert finds all it unwraps.
    - [PrecompileSpec]: precompiles return, [MODEXP] is the modular power at
      its EIPs' price, the administrator's precompile obeys only the multisig.
    - [EvmSafety]: the driver implements [HostSpec] at every depth, given the
      interface [DatabaseSpec] of its database and precompiles that return.
      [TransactSpec]: a transaction returns within its gas limit, and what it
      charges and pays.
    - [Natural] and [EvmTable] are about the one precompile that need not
      return, the administrator's dump command: a run with the program's table
      either is the run with the table [tame], in which that command reports
      an error, or does not return.  What is proved of answers with the tame
      table so holds of the program, and a transaction that does not get to
      run (a transfer) returns.
    - [CacheDBSpec]: the cache implements the plain world it shows; commits do
      not depend on the order of a hash map; the cache implements
      [DatabaseSpec] and [CommitSpec].  [ChainSpec]: sequences of transactions,
      with the tables of the program.
    - [Analysis], [EvmStack], [EvmMemory], [Gas] and [I256] have the properties
      of their own operations next to them.
    - [TxReady], [TxPoolSpec], [NodePool]: the invariant of the pool; whatever
      the node submits, its operations end without panic and the iterator
      yields every ready transaction once.
    - [FeesSpec]: the base fee is that of EIP-1559, block times increase, and
      which of them have dates ([ChronoSpec]).
    - [BlockStatesSpec]: the history answers like a list cut to its limits,
      for any file system ([FileSystemSpec]), whose writes may be late or
      fail, and states ([SnapshotLaws]).
    - [NodeDbSpec]: the database implements these interfaces and [CommitSpec];
      snapshots, dumps and setters.
    - [MinerSpec]: what a block is made of and what mining does to the
      backend, for any EVM whose answers are in order ([EvmSpec]), as those of
      the driver are with the program's tables ([node_evm_spec]).  That the EVM
      returns is a condition on the transactions ([minable]), which transfers
      meet, and all well-formed ones with precompiles that return; that the
      block has a date is one on the time ([dated_block]).  Both come with
      every theorem about mining.
    - [NodeSpec]: the node keeps running under any interleaving of
      submissions and service steps and its chain stays linked; a snapshot
      undoes the blocks after it.

    - [CallsSpec]: gas estimation returns, and its answer is the limit from
      which the call goes through.  [HistorySpec]: requests about old blocks
      see the state of then.
    - [CodecSpec]: what is encoded is read back.  [ApiSpec]: the bytes of a
      transaction are decoded to it, and a transaction that an account of the
      node signed is recorded as that account's.
    - [QueriesSpec]: queries of logs answer with the logs of the chain, what
      was mined is found with its receipt, and the two ways to match logs
      agree.  [FiltersSpec]: a filter tells everything once, in order.
    - [NodeApiSpec]: the node under control: requests that set it up, mining
      on request, submissions and the service in any order keep it running
      (reverts, calls, sending and queries are not among these requests);
      the next block is as planned; what is written is read.
    - [NodeConfigSpec]: a node that starts has the state its genesis says, and
      from any command line within its bounds it keeps running; the tables of
      hard forks compared with EIP-2124 and with each other.
    - [ForkSpec]: for any requests and polls there is one request to the
      provider for each key at a time, everyone is answered once, and while
      the fork stays at one block each answer is true of the remote chain.

    Some theorems establish that the code does what it should not: a code
    installation survives a revert, the dump command never returns and takes
    the node down, the numbering of precompiles is wrong, destroyed accounts
    get their storage back, a dropped transaction can be yielded twice, a block
    may use more gas than its limit, pruning to zero states never returns, and
    reverting to a snapshot that was itself reverted breaks the chain, an
    [eth_call] can change the settings of the administrator's precompile, and
    access lists of requests are dropped,
    receipts place logs wrongly, a subscription can stall, numbers of a
    request that are too large take the node down, the settings of a
    genesis file contradict those of the command line, a timestamp beyond the
    calendar is accepted and takes the node down with the next block, a state
    that was moved to disk is not answered until a task has written it, and a
    fork that is
    moved to another block can keep an account of the old one.

    ** Bounds and fuel

    The node is compiled in release mode: integer overflow wraps and a panic
    aborts; the model has both.  Loops that are not structural take fuel and
    yield [Diverge] without it.  [run] is given one iteration per unit of gas
    and one more, enough because every instruction that continues spends gas
    ([Execution.raw_contract_runs_to_completion]).  Frames nest by the fuel
    [EVMImpl.nesting], 1025: the depth guard stops at 1024
    ([TransactSpec.driver_implements_host]).  [analyze] has one more than the
    length of the code.  Calldata and memory are at most [mem_max] = 2^62
    bytes, which the node's memory limit keeps; no other bound is assumed.
    The loops of the pool have one round per transaction in it
    ([NodePool.node_pool_keeps_running]), those that prune the history one per
    state present ([BlockStatesSpec.block_states_history]).  A run of the node
    is bounded by what its numbers hold: 2^64 events, heights and block gas
    limit times transactions.  The search for a gas limit has 258 rounds: it
    halves what is at most 2^64 ([CallsSpec.estimate_gas_returns]).  A poll of
    the handler of a fork has two rounds: what has arrived is read in the
    first and handled in the second ([ForkSpec.poll_returns]); the wait of a
    caller for its answer has a list of polls, which [ForkSpec.poll_ready]
    makes short.

    ** Not modelled

    - Code outside the repository is a parameter with named hypotheses: keccak
      and RLP ([Crypto], [CryptoSpec]), the other hash functions and
      signature recovery ([HashCrates]), the bn128 curve ([Bn]), the operating
      system calls of the administrator's precompile ([Os]).
    - Hash maps are [gmap]s; where code iterates over one, the order is that of
      [map_to_list].
    - [Inspector]s, tracing and the [inspect] entry points; the interpreter's
      loop with hooks is [run_inspect].
    - [revm/src/db/ethersdb.rs] (network queries), serialisation, formatting,
      [bits.rs] (addresses and hashes are integers of their width), the
      command-line programs of [revm/bins].
    - Of forks: the provider (an argument of each poll), the requests that a
      forking node passes on ([backend/fork.rs]), several forks at once
      ([fork/multi.rs]) and the file of the cache; the forked database reads
      through a handle whose answers are given.
    - Of the node: traces and otterscan, proofs, access lists and typed data,
      fee-history percentiles (floating point), the second codec
      (open-fastrlp), the transport of requests.  The crates for RLP and
      signatures are classes ([Rlp], [Signatures]), as are tries, blooms, the
      file system of old states with the tasks that write to it, and chrono
      ([Tries], [Blooms], [FileSystem], [Chrono]) and, for block production,
      the hashes that [Codec] defines ([BlockHashing], with its instance
      [rlp_block_hashing]); the clock is an argument.  Lines that are logged
      are left out, but for what composing them needs (the date of a block).
      Locks are taken for a whole operation, so operations interleave but do
      not overlap.
    - The other tools of [src/enterprise-blockchain/foundry] (forge, cast,
      chisel, the formatter, generated bindings), and the launchers of the
      other challenges. *)

From stdpp Require Import base option list numbers.
From Stdlib Require Import ZArith Lia.

#[global] Open Scope Z_scope.

(** ** Results of Rust code

    [rust A] is what evaluating a Rust expression of type [A] does in the
    release build the node ships (overflow checks off, [panic = "abort"]):
    it yields a value, panics, runs into undefined behaviour (an [unsafe]
    access whose precondition does not hold), or runs out of the fuel a
    loop of the model is given. *)

Inductive rust (A : Type) : Type :=
| Val (a : A)
| Panic
| Undef
| Diverge.

Arguments Val {_} _.
Arguments Panic {_}.
Arguments Undef {_}.
Arguments Diverge {_}.

#[export] Instance rust_ret : MRet rust := fun A a => Val a.
#[export] Instance rust_bind : MBind rust := fun A B f m =>
  match m with
  | Val a => f a
  | Panic => Panic
  | Undef => Undef
  | Diverge => Diverge
  end.
#[export] Instance rust_map : FMap rust := fun A B f m =>
  match m with
  | Val a => Val (f a)
  | Panic => Panic
  | Undef => Undef
  | Diverge => Diverge
  end.

(** [wp D m Q]: [m] neither panics nor is undefined, its value satisfies
    [Q], and it runs out of fuel only if [D] says that it may. *)
Definition wp {A : Type} (D : Prop) (m : rust A) (Q : A -> Prop) : Prop :=
  match m with
  | Val a => Q a
  | Panic | Undef => False
  | Diverge => D
  end.

(** [Option::unwrap] and [Option::expect]. *)
Definition unwrap {A : Type} (o : option A) : rust A :=
  match o with Some a => Val a | None => Panic end.

(** [get_unchecked] and raw-pointer reads: undefined when absent. *)
Definition get_unchecked {A : Type} (l : list A) (i : Z) : rust A :=
  if i <? 0 then Undef
  else match l !! Z.to_nat i with Some a => Val a | None => Undef end.

(** Writing through [get_unchecked_mut]. *)
Definition set_unchecked {A : Type} (l : list A) (i : Z) (a : A) : rust (list A) :=
  if (0 <=? i) && (i <? Z.of_nat (length l)) then Val (<[Z.to_nat i := a]> l) else Undef.

(** ** Machine-width integers *)

Abbreviation u64_modulus := 18446744073709551616 (only parsing).
Abbreviation u64_max := 18446744073709551615 (only parsing).
Abbreviation isize_max := 9223372036854775807 (only parsing).
(** A bound on memory limits, 2^62, that leaves room for the padding of code;
    the default limit is 2^32 - 1. *)
Abbreviation mem_max := 4611686018427387904 (only parsing).
Abbreviation u256_modulus :=
  115792089237316195423570985008687907853269984665640564039457584007913129639936
  (only parsing).
Abbreviation i256_bound :=
  57896044618658097711785492504343953926634992332820282019728792003956564819968
  (only parsing).
Abbreviation b160_modulus := 1461501637330902918203684832716283019655932542976 (only parsing).

Definition is_u8 (x : Z) : Prop := 0 <= x < 256.
Definition is_u64 (x : Z) : Prop := 0 <= x < u64_modulus.
Definition is_u256 (x : Z) : Prop := 0 <= x < u256_modulus.
Definition is_b160 (x : Z) : Prop := 0 <= x < b160_modulus.

Definition wrap64 (x : Z) : Z := x mod u64_modulus.
Definition wrap256 (x : Z) : Z := x mod u256_modulus.

(** [i64] arithmetic in two's complement. *)
Definition wrap_i64 (x : Z) : Z := (x + 9223372036854775808) mod u64_modulus - 9223372036854775808.

Definition u64_checked_add (a b : Z) : option Z :=
  if a + b <? u64_modulus then Some (a + b) else None.
Definition u64_checked_mul (a b : Z) : option Z :=
  if a * b <? u64_modulus then Some (a * b) else None.
Definition u64_saturating_add (a b : Z) : Z := Z.min (a + b) u64_max.
Definition u64_saturating_mul (a b : Z) : Z := Z.min (a * b) u64_max.
Definition u64_overflowing_add (a b : Z) : Z * bool :=
  (wrap64 (a + b), u64_modulus <=? a + b).

Definition u256_checked_add (a b : Z) : option Z :=
  if a + b <? u256_modulus then Some (a + b) else None.
Definition u256_checked_sub (a b : Z) : option Z :=
  if b <=? a then Some (a - b) else None.
Definition u256_checked_mul (a b : Z) : option Z :=
  if a * b <? u256_modulus then Some (a * b) else None.
Definition u256_saturating_add (a b : Z) : Z := Z.min (a + b) (u256_modulus - 1).
Definition u256_saturating_sub (a b : Z) : Z := Z.max (a - b) 0.

(** The [i]-th little-endian 64-bit limb of a [U256]. *)
Definition limb (x : Z) (i : Z) : Z := (x / 2 ^ (64 * i)) mod u64_modulus.

(** [U256] shifts: a shift of 256 or more gives zero. *)
Definition u256_shl (x n : Z) : Z := if 256 <=? n then 0 else wrap256 (Z.shiftl x n).
Definition u256_shr (x n : Z) : Z := if 256 <=? n then 0 else Z.shiftr x n.
Definition u256_not (x : Z) : Z := u256_modulus - 1 - x.

(** ** Slices and byte strings *)

Definition zlen {A : Type} (l : list A) : Z := Z.of_nat (length l).

(** [&l[from..to]], which panics unless [from <= to <= l.len()]. *)
Definition slice {A : Type} (l : list A) (from to : Z) : rust (list A) :=
  if (0 <=? from) && (from <=? to) && (to <=? zlen l)
  then Val (take (Z.to_nat (to - from)) (drop (Z.to_nat from) l))
  else Panic.

(** [l[from..to].copy_from_slice(src)]: the range must be in bounds and as
    long as the source. *)
Definition copy_from_slice {A : Type} (l : list A) (from to : Z) (src : list A) :
  rust (list A) :=
  if (0 <=? from) && (from <=? to) && (to <=? zlen l) && (to - from =? zlen src)
  then Val (take (Z.to_nat from) l ++ src ++ drop (Z.to_nat to) l)
  else Panic.

(** [Vec::resize(n, v)]: panics on capacity overflow. *)
Definition vec_resize {A : Type} (l : list A) (n : Z) (v : A) : rust (list A) :=
  if n <=? isize_max then Val (resize (Z.to_nat n) v l) else Panic.

Definition from_be_bytes (l : list Z) : Z := foldl (fun acc b => acc * 256 + b) 0 l.

Fixpoint to_be_bytes (n : nat) (x : Z) : list Z :=
  match n with
  | O => []
  | S m => (x / 256 ^ Z.of_nat m) mod 256 :: to_be_bytes m x
  end.

(** ** Automation *)

Create HintDb rust_db.
Create HintDb range_db.
Create Rewrite HintDb zlen.

(** Unfold the width predicates and wrap-arounds, then decide. *)
Ltac range_unfold :=
  unfold is_u8, is_u64, is_u256, is_b160, zlen in *.
Ltac zlia := range_unfold; Z.to_euclidean_division_equations; lia.
Ltac rlia := range_unfold; lia.

(** Close a goal whose hypotheses contradict each other arithmetically. *)
Ltac absurd_lia :=
  exfalso; range_unfold;
  repeat match goal with H : _ \/ _ |- _ => destruct H end;
  repeat match goal with
  | H : (_ <? _) = false |- _ => apply Z.ltb_ge in H
  | H : (_ <=? _) = false |- _ => apply Z.leb_gt in H
  | H : (_ =? _) = false |- _ => apply Z.eqb_neq in H
  end; lia.

(** Case split on the boolean conditions of the code, turning comparisons
    into propositions. *)
Ltac bool_to_prop :=
  repeat match goal with
  | H : _ && _ = true |- _ => apply andb_true_iff in H; destruct H
  | H : _ && _ = false |- _ => apply andb_false_iff in H
  | H : _ || _ = false |- _ => apply orb_false_iff in H; destruct H
  | H : _ || _ = true |- _ => apply orb_true_iff in H
  | H : negb _ = true |- _ => apply negb_true_iff in H
  | H : negb _ = false |- _ => apply negb_false_iff in H
  | H : (_ <? _) = true |- _ => apply Z.ltb_lt in H
  | H : (_ <? _) = false |- _ => apply Z.ltb_ge in H
  | H : (_ <=? _) = true |- _ => apply Z.leb_le in H
  | H : (_ <=? _) = false |- _ => apply Z.leb_gt in H
  | H : (_ =? _) = true |- _ => apply Z.eqb_eq in H
  | H : (_ =? _) = false |- _ => apply Z.eqb_neq in H
  end.

Ltac case_if :=
  match goal with
  | |- context [if ?b then _ else _] =>
      lazymatch b with
      | context [if _ then _ else _] => fail
      | _ => let E := fresh "E" in destruct b eqn:E; bool_to_prop
      end
  end.
Ltac case_if_in H :=
  match type of H with
  | context [if ?b then _ else _] =>
      lazymatch b with
      | context [if _ then _ else _] => fail
      | _ => let E := fresh "E" in destruct b eqn:E; bool_to_prop
      end
  end.

(** ** The outcome monad *)

Lemma wp_mono {A : Type} (D : Prop) (m : rust A) (P Q : A -> Prop) :
  (forall a, P a -> Q a) -> wp D m P -> wp D m Q.
Proof. destruct m; simpl; auto. Qed.

Lemma wp_bind {A B : Type} (D : Prop) (m : rust A) (f : A -> rust B) (Q : B -> Prop) :
  wp D (m ≫= f) Q <-> wp D m (fun a => wp D (f a) Q).
Proof. by destruct m. Qed.

Lemma wp_val {A : Type} (D : Prop) (a : A) (Q : A -> Prop) : wp D (Val a) Q <-> Q a.
Proof. done. Qed.

Lemma wp_conj {A : Type} (D : Prop) (m : rust A) (P Q : A -> Prop) :
  wp D m P -> wp D m Q -> wp D m (fun a => P a /\ Q a).
Proof. destruct m; simpl; auto. Qed.

Lemma bind_assoc {A B C : Type} (m : rust A) (f : A -> rust B) (g : B -> rust C) :
  (m ≫= f) ≫= g = m ≫= (fun a => f a ≫= g).
Proof. by destruct m. Qed.

Lemma bind_val {A B : Type} (m : rust A) (f : A -> rust B) (b : B) :
  m ≫= f = Val b -> exists a, m = Val a /\ f a = Val b.
Proof. destruct m; simpl; intros; simplify_eq; eauto. Qed.

Lemma get_unchecked_val {A : Type} (l : list A) (i : Z) (a : A) :
  0 <= i -> l !! Z.to_nat i = Some a -> get_unchecked l i = Val a.
Proof.
  intros Hi Hl. unfold get_unchecked. case_if; [lia|]. by rewrite Hl.
Qed.

(** ** Wrap-around *)

Lemma wrap64_id (x : Z) : is_u64 x -> wrap64 x = x.
Proof. unfold is_u64, wrap64. apply Z.mod_small. Qed.
Lemma wrap64_range (x : Z) : is_u64 (wrap64 x).
Proof. unfold is_u64, wrap64. apply Z.mod_pos_bound. lia. Qed.
Lemma wrap256_id (x : Z) : is_u256 x -> wrap256 x = x.
Proof. unfold is_u256, wrap256. apply Z.mod_small. Qed.
Lemma wrap256_range (x : Z) : is_u256 (wrap256 x).
Proof. unfold is_u256, wrap256. apply Z.mod_pos_bound. lia. Qed.
Lemma wrap_i64_id (x : Z) : - 9223372036854775808 <= x < 9223372036854775808 -> wrap_i64 x = x.
Proof. intros. unfold wrap_i64. rewrite Z.mod_small; lia. Qed.

#[export] Hint Resolve wrap64_range wrap256_range : range_db.

Lemma u256_modulus_pow : u256_modulus = 2 ^ 256.
Proof. reflexivity. Qed.

Lemma u256_bits_high (x i : Z) : is_u256 x -> 256 <= i -> Z.testbit x i = false.
Proof.
  intros Hx Hi. rewrite <- (Z.mod_small x (2 ^ 256)); [|exact Hx].
  by apply Z.mod_pow2_bits_high; split.
Qed.

Lemma is_u256_bits (x : Z) :
  0 <= x -> (forall i, 256 <= i -> Z.testbit x i = false) -> is_u256 x.
Proof.
  intros Hx Hb. split; [done|].
  assert (Hm : x = x mod 2 ^ 256).
  { apply Z.bits_inj'. intros i Hi. destruct (decide (i < 256)).
    - by rewrite Z.mod_pow2_bits_low.
    - rewrite Z.mod_pow2_bits_high by lia. apply Hb. lia. }
  rewrite Hm. apply Z.mod_pos_bound. lia.
Qed.

(** The limbs recompose the word. *)
Lemma limbs_combine (x : Z) : is_u256 x ->
  x = limb x 0 + 2 ^ 64 * limb x 1 + 2 ^ 128 * limb x 2 + 2 ^ 192 * limb x 3.
Proof.
  intros Hx. unfold limb.
  change (2 ^ (64 * 0)) with 1. change (2 ^ (64 * 1)) with (2 ^ 64).
  change (2 ^ (64 * 2)) with (2 ^ 64 * 2 ^ 64).
  change (2 ^ (64 * 3)) with (2 ^ 64 * 2 ^ 64 * 2 ^ 64).
  rewrite <- !Zdiv.Zdiv_Zdiv by lia. rewrite Z.div_1_r. zlia.
Qed.

Lemma limbs_high_zero (x : Z) : is_u256 x ->
  (negb (limb x 1 =? 0) || negb (limb x 2 =? 0) || negb (limb x 3 =? 0)) = false <->
  x < u64_modulus.
Proof.
  intros Hx. pose proof (limbs_combine x Hx) as Hc.
  assert (Hl : forall i, 0 <= limb x i < u64_modulus).
  { intros i. unfold limb. apply Z.mod_pos_bound. lia. }
  pose proof (Hl 0); pose proof (Hl 1); pose proof (Hl 2); pose proof (Hl 3).
  destruct (Z.eqb_spec (limb x 1) 0), (Z.eqb_spec (limb x 2) 0), (Z.eqb_spec (limb x 3) 0);
    simpl; split; intros; try done; lia.
Qed.

Lemma limb0_small (x : Z) : is_u64 x -> limb x 0 = x.
Proof. intros Hx. unfold limb. rewrite Z.div_1_r. by apply Z.mod_small. Qed.

(** ** Slices *)

Lemma zlen_nonneg {A : Type} (l : list A) : 0 <= zlen l.
Proof. unfold zlen. lia. Qed.
Lemma zlen_app {A : Type} (l k : list A) : zlen (l ++ k) = zlen l + zlen k.
Proof. unfold zlen. rewrite length_app. lia. Qed.
Lemma zlen_cons {A : Type} (x : A) (l : list A) : zlen (x :: l) = 1 + zlen l.
Proof. unfold zlen. simpl. lia. Qed.
Lemma zlen_nil {A : Type} : zlen (@nil A) = 0.
Proof. done. Qed.
Lemma zlen_replicate {A : Type} (n : nat) (x : A) : zlen (replicate n x) = Z.of_nat n.
Proof. unfold zlen. by rewrite length_replicate. Qed.
#[export] Hint Rewrite @zlen_app @zlen_cons @zlen_nil @zlen_replicate : zlen.

Lemma slice_val {A : Type} (l : list A) (a b : Z) :
  0 <= a <= b -> b <= zlen l ->
  slice l a b = Val (take (Z.to_nat (b - a)) (drop (Z.to_nat a) l)).
Proof. intros. unfold slice. case_if; [done|]. lia. Qed.

Lemma slice_length {A : Type} (l k : list A) (a b : Z) :
  slice l a b = Val k -> zlen k = b - a.
Proof.
  unfold slice, zlen. case_if; [|done]. intros [= <-].
  rewrite length_take, length_drop. lia.
Qed.

Lemma slice_Forall {A : Type} (P : A -> Prop) (l k : list A) (a b : Z) :
  Forall P l -> slice l a b = Val k -> Forall P k.
Proof.
  unfold slice. case_if; [|done]. intros HP [= <-]. by apply Forall_take, Forall_drop.
Qed.

Lemma slice_all {A : Type} (l : list A) : slice l 0 (zlen l) = Val l.
Proof.
  rewrite slice_val by rlia.
  f_equal. rewrite Z.sub_0_r. unfold zlen. rewrite Nat2Z.id. simpl. by rewrite drop_0, firstn_all.
Qed.

Lemma copy_from_slice_val {A : Type} (l src : list A) (a b : Z) :
  0 <= a <= b -> b <= zlen l -> b - a = zlen src ->
  copy_from_slice l a b src = Val (take (Z.to_nat a) l ++ src ++ drop (Z.to_nat b) l).
Proof. intros. unfold copy_from_slice. case_if; [done|]. lia. Qed.

(** Byte [i] of a copy: inside the range it comes from the source, outside
    it is unchanged. *)
Lemma splice_lookup {A : Type} (l src : list A) (a b i : nat) :
  (a <= b <= length l)%nat -> (b - a = length src)%nat ->
  (take a l ++ src ++ drop b l) !! i =
  if decide (a <= i < b)%nat then src !! (i - a)%nat else l !! i.
Proof.
  intros Hab Hs. rewrite lookup_app, lookup_take, length_take.
  repeat case_decide; try lia.
  - destruct (lookup_lt_is_Some_2 l i) as [x Hx]; [lia|]. by rewrite Hx.
  - replace (a `min` length l)%nat with a by lia.
    rewrite lookup_app. destruct (lookup_lt_is_Some_2 src (i - a)) as [x Hx]; [lia|].
    by rewrite Hx.
  - replace (a `min` length l)%nat with a by lia.
    rewrite lookup_app_r by lia. rewrite lookup_drop. f_equal. lia.
Qed.

Lemma splice_length {A : Type} (l src : list A) (a b : nat) :
  (a <= b <= length l)%nat -> (b - a = length src)%nat ->
  length (take a l ++ src ++ drop b l) = length l.
Proof. intros. rewrite !length_app, length_take, length_drop. lia. Qed.

Lemma slice_splice {A : Type} (l src : list A) (a b : Z) :
  0 <= a <= b -> b <= zlen l -> b - a = zlen src ->
  slice (take (Z.to_nat a) l ++ src ++ drop (Z.to_nat b) l) a b = Val src.
Proof.
  intros Hab Hb Hs. unfold zlen in *. rewrite slice_val; try lia.
  - f_equal. rewrite drop_app_le by (rewrite length_take; lia).
    rewrite drop_ge by (rewrite length_take; lia). simpl.
    rewrite take_app_le by lia. apply take_ge. lia.
  - unfold zlen. rewrite splice_length; lia.
Qed.

Lemma resize_lookup {A : Type} (l : list A) (n i : nat) (v : A) :
  (length l <= n)%nat -> (i < n)%nat ->
  resize n v l !! i = Some (default v (l !! i)).
Proof.
  intros Hl Hi. rewrite resize_spec, lookup_app. rewrite take_ge by lia.
  destruct (l !! i) eqn:E; [done|]. apply lookup_ge_None in E.
  rewrite lookup_replicate_2; [done|lia].
Qed.

(** ** Big-endian byte strings *)

Lemma from_be_acc (l : list Z) (a : Z) :
  foldl (fun acc b => acc * 256 + b) a l = a * 256 ^ zlen l + from_be_bytes l.
Proof.
  unfold from_be_bytes. revert a. induction l as [|x l IH]; intros a; simpl.
  - unfold zlen. simpl. lia.
  - rewrite IH, (IH (0 * 256 + x)), zlen_cons. rewrite Z.pow_add_r by (unfold zlen; lia). lia.
Qed.

Lemma from_be_cons (x : Z) (l : list Z) :
  from_be_bytes (x :: l) = x * 256 ^ zlen l + from_be_bytes l.
Proof. unfold from_be_bytes at 1. cbn [foldl]. rewrite from_be_acc. lia. Qed.

Lemma from_be_app (l k : list Z) :
  from_be_bytes (l ++ k) = from_be_bytes l * 256 ^ zlen k + from_be_bytes k.
Proof. unfold from_be_bytes at 1. rewrite foldl_app. by rewrite from_be_acc. Qed.

Lemma from_be_replicate0 (n : nat) (l : list Z) :
  from_be_bytes (replicate n 0 ++ l) = from_be_bytes l.
Proof. induction n as [|n IH]; [done|]. simpl. rewrite from_be_cons, IH. lia. Qed.

Lemma from_be_range (l : list Z) : Forall is_u8 l -> 0 <= from_be_bytes l < 256 ^ zlen l.
Proof.
  induction 1 as [|x l Hx Hl IH]; [by vm_compute|].
  rewrite from_be_cons, zlen_cons, Z.pow_add_r by (unfold zlen; lia).
  unfold is_u8 in Hx. nia.
Qed.

Lemma length_to_be (n : nat) (x : Z) : length (to_be_bytes n x) = n.
Proof. induction n; simpl; auto. Qed.
Lemma zlen_to_be (n : nat) (x : Z) : zlen (to_be_bytes n x) = Z.of_nat n.
Proof. unfold zlen. by rewrite length_to_be. Qed.
#[export] Hint Rewrite zlen_to_be : zlen.

Lemma to_be_u8 (n : nat) (x : Z) : Forall is_u8 (to_be_bytes n x).
Proof.
  induction n; simpl; constructor; auto. unfold is_u8. apply Z.mod_pos_bound. lia.
Qed.

(** Decoding an [n]-byte encoding gives the number modulo [256^n]. *)
Lemma from_to_be (n : nat) (x : Z) : from_be_bytes (to_be_bytes n x) = x mod 256 ^ Z.of_nat n.
Proof.
  induction n as [|n IH]; [by rewrite Z.mod_1_r|].
  cbn [to_be_bytes]. rewrite from_be_cons, IH, zlen_to_be.
  rewrite Nat2Z.inj_succ, Z.pow_succ_r by lia.
  rewrite (Z.mul_comm 256), Z.rem_mul_r by lia. lia.
Qed.

Lemma to_be_mod (n : nat) (x : Z) (m : Z) :
  Z.of_nat n <= m -> to_be_bytes n (x mod 256 ^ m) = to_be_bytes n x.
Proof.
  induction n as [|n IH]; intros Hm; [done|]. cbn [to_be_bytes]. rewrite IH by lia. f_equal.
  replace m with (Z.of_nat n + (m - Z.of_nat n)) by lia.
  rewrite Z.pow_add_r, Z.rem_mul_r by lia.
  rewrite (Z.mul_comm (256 ^ Z.of_nat n)), Z.div_add by lia.
  rewrite (Z.div_small (x mod _)) by (apply Z.mod_pos_bound; lia). simpl.
  apply Z.mod_mod_divide.
  exists (256 ^ (m - Z.of_nat n - 1)). rewrite Z.mul_comm, <- Z.pow_succ_r by lia.
  f_equal. lia.
Qed.

(** Encoding what was decoded gives the bytes back. *)
Lemma to_from_be (l : list Z) : Forall is_u8 l -> to_be_bytes (length l) (from_be_bytes l) = l.
Proof.
  induction 1 as [|x l Hx Hl IH]; [done|]. cbn [length to_be_bytes].
  pose proof (from_be_range l Hl) as Hr. unfold zlen in Hr. rewrite from_be_cons. f_equal.
  - unfold zlen. rewrite Z.div_add_l by lia. rewrite Z.div_small by lia.
    unfold is_u8 in Hx. rewrite Z.mod_small; lia.
  - rewrite <- (to_be_mod _ _ (zlen l)) by (unfold zlen; lia).
    unfold zlen. rewrite Z.add_comm, Z.mod_add by lia. by rewrite Z.mod_small.
Qed.
