(* ===== verification/Primitives.v ===== *)
(** * Shared data types of the [revm] crates

    The types of [crates/primitives/src] and of the interpreter's
    [inner_models.rs] and [instruction_result.rs]: hard-fork identifiers,
    environments, accounts, bytecode, results.  A [U256], [B256] or [B160]
    is the integer its big-endian bytes denote; [Bytes] and [Vec<u8>] are
    lists of integers below 256.  The hash and RLP crates are not part of
    the repository: the class [Crypto] stands for them. *)

From stdpp Require Import base option list gmap strings.
From Stdlib Require Import ZArith Lia.
From S2P Require Import Prelude.

(** ** Code outside the repository: [sha3::Keccak256] and [rlp] *)

Class Crypto := {
  Keccak256_digest : list Z -> Z;
  (** [RlpStream::new_list(2)] with the caller's bytes and the nonce *)
  rlp_create_stream : list Z -> Z -> list Z;
}.

Definition KECCAK_EMPTY : Z :=
  0xc5d2460186f7233c927e7db2dcc703c0e500b653ca82273b7bfad8045d85a470.

(** The documented facts about the digest the code relies on: 32 bytes
    long, and [KECCAK_EMPTY] is the digest of the empty string. *)
Class CryptoSpec `{!Crypto} : Prop := {
  keccak_range : forall l, is_u256 (Keccak256_digest l);
  keccak_nil : Keccak256_digest [] = KECCAK_EMPTY;
}.

(** ** specification.rs *)

Inductive SpecId :=
| FRONTIER | FRONTIER_THAWING | HOMESTEAD | DAO_FORK | TANGERINE | SPURIOUS_DRAGON
| BYZANTIUM | CONSTANTINOPLE | PETERSBURG | ISTANBUL | MUIR_GLACIER | BERLIN | LONDON
| ARROW_GLACIER | GRAY_GLACIER | MERGE | SHANGHAI | CANCUN | LATEST.

#[export] Instance SpecId_eq_dec : EqDecision SpecId.
Proof. solve_decision. Defined.

Definition SpecId_as_u8 (s : SpecId) : Z :=
  match s with
  | FRONTIER => 0 | FRONTIER_THAWING => 1 | HOMESTEAD => 2 | DAO_FORK => 3 | TANGERINE => 4
  | SPURIOUS_DRAGON => 5 | BYZANTIUM => 6 | CONSTANTINOPLE => 7 | PETERSBURG => 8
  | ISTANBUL => 9 | MUIR_GLACIER => 10 | BERLIN => 11 | LONDON => 12 | ARROW_GLACIER => 13
  | GRAY_GLACIER => 14 | MERGE => 15 | SHANGHAI => 16 | CANCUN => 17 | LATEST => 18
  end.

(** [SpecId::enabled] and [Spec::enabled]. *)
Definition enabled (our other : SpecId) : bool := SpecId_as_u8 other <=? SpecId_as_u8 our.

Definition SpecId_try_from_u8 (n : Z) : option SpecId :=
  match n with
  | 0 => Some FRONTIER | 1 => Some FRONTIER_THAWING | 2 => Some HOMESTEAD
  | 3 => Some DAO_FORK | 4 => Some TANGERINE | 5 => Some SPURIOUS_DRAGON
  | 6 => Some BYZANTIUM | 7 => Some CONSTANTINOPLE | 8 => Some PETERSBURG
  | 9 => Some ISTANBUL | 10 => Some MUIR_GLACIER | 11 => Some BERLIN | 12 => Some LONDON
  | 13 => Some ARROW_GLACIER | 14 => Some GRAY_GLACIER | 15 => Some MERGE
  | 16 => Some SHANGHAI | 17 => Some CANCUN | 18 => Some LATEST | _ => None
  end.

Definition SpecId_from_str (name : string) : SpecId :=
  if decide (name = "Frontier"%string) then FRONTIER
  else if decide (name = "Homestead"%string) then HOMESTEAD
  else if decide (name = "Tangerine"%string) then TANGERINE
  else if decide (name = "Spurious"%string) then SPURIOUS_DRAGON
  else if decide (name = "Byzantium"%string) then BYZANTIUM
  else if decide (name = "Constantinople"%string) then CONSTANTINOPLE
  else if decide (name = "Petersburg"%string) then PETERSBURG
  else if decide (name = "Istanbul"%string) then ISTANBUL
  else if decide (name = "MuirGlacier"%string) then MUIR_GLACIER
  else if decide (name = "Berlin"%string) then BERLIN
  else if decide (name = "London"%string) then LONDON
  else if decide (name = "Merge"%string) then MERGE
  else if decide (name = "Shanghai"%string) then SHANGHAI
  else LATEST.

(** ** result.rs and instruction_result.rs *)

Module Eval.
Inductive t := Stop | Return | SelfDestruct.
End Eval.

Module OutOfGasError.
Inductive t := BasicOutOfGas | MemoryLimit | Memory | Precompile | InvalidOperand.
End OutOfGasError.

Module Halt.
Inductive t :=
| OutOfGas (e : OutOfGasError.t)
| OpcodeNotFound | InvalidFEOpcode | InvalidJump | NotActivated | StackUnderflow
| StackOverflow | OutOfOffset | CreateCollision | PrecompileError | NonceOverflow
| CreateContractSizeLimit | CreateContractStartingWithEF | CreateInitcodeSizeLimit
| OverflowPayment | StateChangeDuringStaticCall | CallNotAllowedInsideStatic
| OutOfFund | CallTooDeep.
End Halt.

Inductive InstructionResult :=
| Continue | Stop | Return | SelfDestruct
| Revert | CallTooDeep | OutOfFund
| OutOfGas | MemoryOOG | MemoryLimitOOG | PrecompileOOG | InvalidOperandOOG
| OpcodeNotFound | CallNotAllowedInsideStatic | StateChangeDuringStaticCall
| InvalidFEOpcode | InvalidJump | NotActivated | StackUnderflow | StackOverflow
| OutOfOffset | CreateCollision | OverflowPayment | PrecompileError | NonceOverflow
| CreateContractSizeLimit | CreateContractStartingWithEF | CreateInitcodeSizeLimit
| FatalExternalError.

#[export] Instance InstructionResult_eq_dec : EqDecision InstructionResult.
Proof. solve_decision. Defined.

Module SuccessOrHalt.
Inductive t :=
| Success (e : Eval.t) | Revert | Halt (h : Halt.t) | FatalExternalError | InternalContinue.

Definition from (result : InstructionResult) : t :=
  match result with
  | Primitives.Continue => InternalContinue
  | Primitives.Stop => Success Eval.Stop
  | Primitives.Return => Success Eval.Return
  | Primitives.SelfDestruct => Success Eval.SelfDestruct
  | Primitives.Revert => Revert
  | Primitives.CallTooDeep => Halt Halt.CallTooDeep
  | Primitives.OutOfFund => Halt Halt.OutOfFund
  | Primitives.OutOfGas => Halt (Halt.OutOfGas OutOfGasError.BasicOutOfGas)
  | Primitives.MemoryLimitOOG => Halt (Halt.OutOfGas OutOfGasError.MemoryLimit)
  | Primitives.MemoryOOG => Halt (Halt.OutOfGas OutOfGasError.Memory)
  | Primitives.PrecompileOOG => Halt (Halt.OutOfGas OutOfGasError.Precompile)
  | Primitives.InvalidOperandOOG => Halt (Halt.OutOfGas OutOfGasError.InvalidOperand)
  | Primitives.OpcodeNotFound => Halt Halt.OpcodeNotFound
  | Primitives.CallNotAllowedInsideStatic => Halt Halt.CallNotAllowedInsideStatic
  | Primitives.StateChangeDuringStaticCall => Halt Halt.StateChangeDuringStaticCall
  | Primitives.InvalidFEOpcode => Halt Halt.InvalidFEOpcode
  | Primitives.InvalidJump => Halt Halt.InvalidJump
  | Primitives.NotActivated => Halt Halt.NotActivated
  | Primitives.StackUnderflow => Halt Halt.StackUnderflow
  | Primitives.StackOverflow => Halt Halt.StackOverflow
  | Primitives.OutOfOffset => Halt Halt.OutOfOffset
  | Primitives.CreateCollision => Halt Halt.CreateCollision
  | Primitives.OverflowPayment => Halt Halt.OverflowPayment
  | Primitives.PrecompileError => Halt Halt.PrecompileError
  | Primitives.NonceOverflow => Halt Halt.NonceOverflow
  | Primitives.CreateContractSizeLimit => Halt Halt.CreateContractSizeLimit
  | Primitives.CreateContractStartingWithEF => Halt Halt.CreateContractSizeLimit
  | Primitives.CreateInitcodeSizeLimit => Halt Halt.CreateInitcodeSizeLimit
  | Primitives.FatalExternalError => FatalExternalError
  end.

Definition is_success (s : t) : bool := match s with Success _ => true | _ => false end.
Definition to_success (s : t) : option Eval.t :=
  match s with Success e => Some e | _ => None end.
Definition is_revert (s : t) : bool := match s with Revert => true | _ => false end.
Definition is_halt (s : t) : bool := match s with Halt _ => true | _ => false end.
Definition to_halt (s : t) : option Halt.t := match s with Halt h => Some h | _ => None end.
End SuccessOrHalt.

(** The macros [return_ok!] and [return_revert!]. *)
Definition return_ok (r : InstructionResult) : bool :=
  match r with Continue | Stop | Return | SelfDestruct => true | _ => false end.
Definition return_revert (r : InstructionResult) : bool :=
  match r with Revert | CallTooDeep | OutOfFund => true | _ => false end.

(** ** lib.rs: call contexts *)

Inductive CallScheme := Call | CallCode | DelegateCall | StaticCall.
#[export] Instance CallScheme_eq_dec : EqDecision CallScheme.
Proof. solve_decision. Defined.

Record CallContext := mkCallContext {
  cc_address : Z;
  cc_caller : Z;
  cc_code_address : Z;
  cc_apparent_value : Z;
  cc_scheme : CallScheme;
}.

Definition CallContext_default : CallContext := mkCallContext 0 0 0 0 Call.

(** ** inner_models.rs *)

Inductive CreateScheme := Create | Create2 (salt : Z).

Record Transfer := mkTransfer { tr_source : Z; tr_target : Z; tr_value : Z }.

Record CallInputs := mkCallInputs {
  ci_contract : Z;
  ci_transfer : Transfer;
  ci_input : list Z;
  ci_gas_limit : Z;
  ci_context : CallContext;
  ci_is_static : bool;
}.

Record CreateInputs := mkCreateInputs {
  cr_caller : Z;
  cr_scheme : CreateScheme;
  cr_value : Z;
  cr_init_code : list Z;
  cr_gas_limit : Z;
}.

Record SelfDestructResult := mkSelfDestructResult {
  sd_had_value : bool;
  sd_target_exists : bool;
  sd_is_cold : bool;
  sd_previously_destroyed : bool;
}.

Record Log := mkLog { log_address : Z; log_topics : list Z; log_data : list Z }.

(** ** env.rs *)

Inductive AnalysisKind := AnalysisRaw | AnalysisCheck | AnalysisAnalyse.

Inductive TransactTo := TransactCall (to : Z) | TransactCreate (scheme : CreateScheme).

Definition TransactTo_is_create (t : TransactTo) : bool :=
  match t with TransactCreate _ => true | TransactCall _ => false end.

(** The configuration with the features the node enables ([memory_limit],
    [optional_eip3607], [optional_block_gas_limit], [optional_no_base_fee]). *)
Record CfgEnv := mkCfgEnv {
  cfg_chain_id : Z;
  cfg_spec_id : SpecId;
  cfg_perf_all_precompiles_have_balance : bool;
  cfg_perf_analyse_created_bytecodes : AnalysisKind;
  cfg_limit_contract_code_size : option Z;
  cfg_memory_limit : Z;
  cfg_disable_block_gas_limit : bool;
  cfg_disable_eip3607 : bool;
  cfg_disable_base_fee : bool;
}.

Definition CfgEnv_default : CfgEnv :=
  mkCfgEnv 1 LATEST false AnalysisAnalyse None (2 ^ 32 - 1) false false false.

Record BlockEnv := mkBlockEnv {
  block_number : Z;
  block_coinbase : Z;
  block_timestamp : Z;
  block_difficulty : Z;
  block_prevrandao : option Z;
  block_basefee : Z;
  block_gas_limit : Z;
}.

Definition BlockEnv_default : BlockEnv := mkBlockEnv 0 0 1 0 (Some 0) 0 (u256_modulus - 1).

Record TxEnv := mkTxEnv {
  tx_caller : Z;
  tx_gas_limit : Z;
  tx_gas_price : Z;
  tx_gas_priority_fee : option Z;
  tx_transact_to : TransactTo;
  tx_value : Z;
  tx_data : list Z;
  tx_chain_id : option Z;
  tx_nonce : option Z;
  tx_access_list : list (Z * list Z);
}.

Definition TxEnv_default : TxEnv :=
  mkTxEnv 0 u64_max 0 None (TransactCall 0) 0 [] None None [].

Record Env := mkEnv { env_cfg : CfgEnv; env_block : BlockEnv; env_tx : TxEnv }.

(** [Env::effective_gas_price]; the addition wraps in a release build. *)
Definition effective_gas_price (e : Env) : Z :=
  match tx_gas_priority_fee (env_tx e) with
  | None => tx_gas_price (env_tx e)
  | Some fee =>
      Z.min (tx_gas_price (env_tx e)) (wrap256 (block_basefee (env_block e) + fee))
  end.

(** ** bytecode.rs *)

(** [JumpMap]: one bit per byte of the code. *)
Definition JumpMap_is_valid (m : list bool) (pc : Z) : bool :=
  (pc <? zlen m) && match m !! Z.to_nat pc with Some b => b | None => false end.

Inductive BytecodeState :=
| Raw
| Checked (len : Z)
| Analysed (len : Z) (jump_map : list bool).

Record Bytecode := mkBytecode {
  bc_bytecode : list Z;
  bc_hash : Z;
  bc_state : BytecodeState;
}.

(** One STOP opcode. *)
Definition Bytecode_new : Bytecode := mkBytecode [0] KECCAK_EMPTY (Analysed 0 []).

Definition Bytecode_original_bytes (b : Bytecode) : rust (list Z) :=
  match bc_state b with
  | Raw => Val (bc_bytecode b)
  | Checked len | Analysed len _ => slice (bc_bytecode b) 0 len
  end.

Definition Bytecode_is_empty (b : Bytecode) : bool :=
  match bc_state b with
  | Raw => zlen (bc_bytecode b) =? 0
  | Checked len => len =? 0
  | Analysed len _ => len =? 0
  end.

Definition Bytecode_len (b : Bytecode) : Z :=
  match bc_state b with
  | Raw => zlen (bc_bytecode b)
  | Checked len => len
  | Analysed len _ => len
  end.

(** Pad with 33 zero bytes: room for the operand of a final PUSH32 and a STOP. *)
Definition Bytecode_to_checked (b : Bytecode) : Bytecode :=
  match bc_state b with
  | Raw =>
      let len := zlen (bc_bytecode b) in
      mkBytecode (resize (Z.to_nat (len + 33)) 0 (bc_bytecode b)) (bc_hash b) (Checked len)
  | _ => b
  end.

(** ** state.rs *)

Record AccountInfo := mkAccountInfo {
  balance : Z;
  nonce : Z;
  code_hash : Z;
  code : option Bytecode;
}.

Definition AccountInfo_default : AccountInfo :=
  mkAccountInfo 0 0 KECCAK_EMPTY (Some Bytecode_new).

Definition AccountInfo_is_empty (i : AccountInfo) : bool :=
  let code_empty := (code_hash i =? KECCAK_EMPTY) || (code_hash i =? 0) in
  (balance i =? 0) && (nonce i =? 0) && code_empty.

Definition AccountInfo_exists (i : AccountInfo) : bool := negb (AccountInfo_is_empty i).

Definition AccountInfo_from_balance (b : Z) : AccountInfo :=
  mkAccountInfo b 0 KECCAK_EMPTY (Some Bytecode_new).

Definition AccountInfo_new (b n : Z) (c : Bytecode) : AccountInfo :=
  mkAccountInfo b n (bc_hash c) (Some c).

(** [PartialEq for AccountInfo] compares all but the code. *)
Definition AccountInfo_eq (a b : AccountInfo) : bool :=
  (balance a =? balance b) && (nonce a =? nonce b) && (code_hash a =? code_hash b).

Record StorageSlot := mkStorageSlot { original_value : Z; present_value : Z }.

Definition StorageSlot_new (original : Z) : StorageSlot := mkStorageSlot original original.
Definition StorageSlot_default : StorageSlot := mkStorageSlot 0 0.
Definition StorageSlot_is_changed (s : StorageSlot) : bool :=
  negb (original_value s =? present_value s).

Record Account := mkAccount {
  info : AccountInfo;
  storage : gmap Z StorageSlot;
  storage_cleared : bool;
  is_destroyed : bool;
  is_touched : bool;
  is_not_existing : bool;
}.

Definition Account_is_empty (a : Account) : bool := AccountInfo_is_empty (info a).
Definition Account_new_not_existing : Account :=
  mkAccount AccountInfo_default ∅ false false false true.
Definition Account_from (i : AccountInfo) : Account := mkAccount i ∅ false false false false.

(** ** utilities.rs *)

Section crypto.
Context `{!Crypto}.

Definition keccak256 (input : list Z) : Z := Keccak256_digest input.

Definition Bytecode_new_raw (bytecode : list Z) : Bytecode :=
  let hash := if zlen bytecode =? 0 then KECCAK_EMPTY else keccak256 bytecode in
  mkBytecode bytecode hash Raw.

(** [new_checked]; callers promise that the code ends with STOP. *)
Definition Bytecode_new_checked (bytecode : list Z) (len : Z) (hash : option Z) : Bytecode :=
  let h := match hash with
           | None => if len =? 0 then KECCAK_EMPTY else keccak256 bytecode
           | Some h => h
           end in
  mkBytecode bytecode h (Checked len).

(** The last 20 bytes of the digest of the RLP list [caller, nonce]. *)
Definition create_address (caller nonce : Z) : Z :=
  from_be_bytes (drop 12 (to_be_bytes 32
    (keccak256 (rlp_create_stream (to_be_bytes 20 caller) nonce)))).

Definition create2_address (caller code_hash salt : Z) : Z :=
  from_be_bytes (drop 12 (to_be_bytes 32
    (Keccak256_digest ([0xff] ++ to_be_bytes 20 caller ++ to_be_bytes 32 salt
                         ++ to_be_bytes 32 code_hash)))).
End crypto.

(** ** Lemmas *)

Lemma enabled_refl (s : SpecId) : enabled s s = true.
Proof. unfold enabled. by apply Z.leb_refl. Qed.

Lemma enabled_mono (s a b : SpecId) :
  SpecId_as_u8 b <= SpecId_as_u8 a -> enabled s a = true -> enabled s b = true.
Proof. unfold enabled. rewrite !Z.leb_le. lia. Qed.

Lemma drop_to_be (n m : nat) (x : Z) : drop n (to_be_bytes (n + m) x) = to_be_bytes m x.
Proof. induction n as [|n IH]; [done|]. simpl. done. Qed.

Lemma last_20_range (x : Z) : is_b160 (from_be_bytes (drop 12 (to_be_bytes 32 x))).
Proof.
  rewrite (drop_to_be 12 20), from_to_be.
  change (256 ^ Z.of_nat 20) with b160_modulus. unfold is_b160. apply Z.mod_pos_bound. lia.
Qed.

Lemma create_address_range `{!Crypto} (caller n : Z) : is_b160 (create_address caller n).
Proof. apply last_20_range. Qed.

Lemma create2_address_range `{!Crypto} (caller h salt : Z) :
  is_b160 (create2_address caller h salt).
Proof. apply last_20_range. Qed.

Lemma to_checked_padded (b : Bytecode) :
  bc_state b = Raw ->
  bc_bytecode (Bytecode_to_checked b) = bc_bytecode b ++ replicate 33 0.
Proof.
  intros Hr. unfold Bytecode_to_checked. rewrite Hr. cbn [bc_bytecode].
  replace (Z.to_nat (zlen (bc_bytecode b) + 33)) with (length (bc_bytecode b) + 33)%nat
    by (unfold zlen; lia).
  rewrite resize_ge by lia. do 2 f_equal. lia.
Qed.
