(* ===== verification/Gas.v ===== *)
(** * Gas accounting: [interpreter/src/gas.rs], [gas/constants.rs], [gas/calc.rs]

    The counter [Gas] with its operations, the cost and refund schedules of
    every hard fork, and what makes them correct: the counter refines a
    budget that is only ever spent or given back, the costs are the EIPs'
    formulas without overflow, and the refunds of a storage slot over a
    transaction never add up to a negative number. *)

From stdpp Require Import base option list.
From Stdlib Require Import ZArith Lia.
From S2P Require Import Prelude Primitives.

(** ** gas/constants.rs *)

Module gas.
Definition ZERO : Z := 0.
Definition BASE : Z := 2.
Definition VERYLOW : Z := 3.
Definition LOW : Z := 5.
Definition MID : Z := 8.
Definition HIGH : Z := 10.
Definition JUMPDEST : Z := 1.
Definition SELFDESTRUCT : Z := 24000.
Definition CREATE : Z := 32000.
Definition CALLVALUE : Z := 9000.
Definition NEWACCOUNT : Z := 25000.
Definition EXP : Z := 10.
Definition MEMORY : Z := 3.
Definition LOG : Z := 375.
Definition LOGDATA : Z := 8.
Definition LOGTOPIC : Z := 375.
Definition SHA3 : Z := 30.
Definition SHA3WORD : Z := 6.
Definition COPY : Z := 3.
Definition BLOCKHASH : Z := 20.
Definition CODEDEPOSIT : Z := 200.
Definition SSTORE_SET : Z := 20000.
Definition SSTORE_RESET : Z := 5000.
Definition REFUND_SSTORE_CLEARS : Z := 15000.
Definition TRANSACTION_ZERO_DATA : Z := 4.
Definition TRANSACTION_NON_ZERO_DATA_INIT : Z := 16.
Definition TRANSACTION_NON_ZERO_DATA_FRONTIER : Z := 68.
Definition ACCESS_LIST_ADDRESS : Z := 2400.
Definition ACCESS_LIST_STORAGE_KEY : Z := 1900.
Definition COLD_SLOAD_COST : Z := 2100.
Definition COLD_ACCOUNT_ACCESS_COST : Z := 2600.
Definition WARM_STORAGE_READ_COST : Z := 100.
Definition INITCODE_WORD_COST : Z := 2.
Definition CALL_STIPEND : Z := 2300.
End gas.
Import gas.

(** ** gas.rs: the counter *)

Record Gas := mkGas {
  limit : Z;
  all_used_gas : Z;
  used : Z;
  memory : Z;
  refunded : Z;
}.

Definition Gas_new (limit : Z) : Gas := mkGas limit 0 0 0 0.
Definition spend (g : Gas) : Z := all_used_gas g.
Definition remaining (g : Gas) : Z := wrap64 (limit g - all_used_gas g).
Definition erase_cost (g : Gas) (returned : Z) : Gas :=
  mkGas (limit g) (wrap64 (all_used_gas g - returned)) (wrap64 (used g - returned))
    (memory g) (refunded g).
Definition record_refund (g : Gas) (refund : Z) : Gas :=
  mkGas (limit g) (all_used_gas g) (used g) (memory g) (wrap_i64 (refunded g + refund)).

(** [record_cost] answers [false], with the counter unchanged, when the cost
    does not fit. *)
Definition record_cost (g : Gas) (cost : Z) : Gas * bool :=
  let '(all_used, overflow) := u64_overflowing_add (all_used_gas g) cost in
  if overflow || (limit g <? all_used) then (g, false)
  else (mkGas (limit g) all_used (wrap64 (used g + cost)) (memory g) (refunded g), true).

Definition record_memory (g : Gas) (gas_memory : Z) : Gas * bool :=
  if memory g <? gas_memory then
    let '(all_used, overflow) := u64_overflowing_add (used g) gas_memory in
    if overflow || (limit g <? all_used) then (g, false)
    else (mkGas (limit g) all_used (used g) gas_memory (refunded g), true)
  else (g, true).

Definition gas_refund (g : Gas) (refund : Z) : Gas :=
  mkGas (limit g) (all_used_gas g) (used g) (memory g) (wrap_i64 (refunded g + refund)).

(** ** gas/calc.rs: schedules *)

Section calc.
Context (SPEC : SpecId).

Definition sload_cost (is_cold : bool) : Z :=
  if enabled SPEC BERLIN then
    if is_cold then COLD_SLOAD_COST else WARM_STORAGE_READ_COST
  else if enabled SPEC ISTANBUL then 800
  else if enabled SPEC TANGERINE then 200
  else 50.

Definition sstore_refund (original current new : Z) : Z :=
  if enabled SPEC ISTANBUL then
    let sstore_clears_schedule :=
      if enabled SPEC LONDON
      then SSTORE_RESET - COLD_SLOAD_COST + ACCESS_LIST_STORAGE_KEY
      else REFUND_SSTORE_CLEARS in
    if current =? new then 0
    else if (original =? current) && (new =? 0) then sstore_clears_schedule
    else
      let refund :=
        if negb (original =? 0) then
          if current =? 0 then - sstore_clears_schedule
          else if new =? 0 then sstore_clears_schedule else 0
        else 0 in
      if original =? new then
        let '(gas_sstore_reset, gas_sload) :=
          if enabled SPEC BERLIN
          then (SSTORE_RESET - COLD_SLOAD_COST, WARM_STORAGE_READ_COST)
          else (SSTORE_RESET, sload_cost false) in
        if original =? 0 then refund + (SSTORE_SET - gas_sload)
        else refund + (gas_sstore_reset - gas_sload)
      else refund
  else if negb (current =? 0) && (new =? 0) then REFUND_SSTORE_CLEARS
  else 0.

Definition create2_cost (len : Z) : option Z :=
  let sha_addup_base := len / 32 + (if len mod 32 =? 0 then 0 else 1) in
  sha_addup ← u64_checked_mul SHA3WORD sha_addup_base;
  u64_checked_add CREATE sha_addup.

(** [log2floor]: scan the limbs from the top for the highest set bit. *)
Definition leading_zeros64 (x : Z) : Z := if x =? 0 then 64 else 63 - Z.log2 x.
Fixpoint log2floor_from (value : Z) (i : nat) (l : Z) : Z :=
  match i with
  | O => l
  | S j =>
      if limb value (Z.of_nat j) =? 0 then log2floor_from value j (l - 64)
      else
        let l := l - leading_zeros64 (limb value (Z.of_nat j)) in
        if l =? 0 then l else l - 1
  end.
Definition log2floor (value : Z) : rust Z :=
  if value =? 0 then Panic else Val (log2floor_from value 4 256).

Definition exp_cost (power : Z) : rust (option Z) :=
  if power =? 0 then Val (Some EXP)
  else
    let gas_byte := if enabled SPEC SPURIOUS_DRAGON then 50 else 10 in
    l ← log2floor power;
    Val (prod ← u256_checked_mul gas_byte (l / 8 + 1);
         gas ← u256_checked_add EXP prod;
         if gas <? u64_modulus then Some gas else None).

Definition words (len : Z) : Z := if len mod 32 =? 0 then len / 32 else len / 32 + 1.

Definition verylowcopy_cost (len : Z) : option Z :=
  c ← u64_checked_mul COPY (words len); u64_checked_add VERYLOW c.

Definition extcodecopy_cost (len : Z) (is_cold : bool) : option Z :=
  let base_gas :=
    if enabled SPEC BERLIN then
      if is_cold then COLD_ACCOUNT_ACCESS_COST else WARM_STORAGE_READ_COST
    else if enabled SPEC TANGERINE then 700 else 20 in
  c ← u64_checked_mul COPY (words len); u64_checked_add base_gas c.

Definition account_access_gas (is_cold : bool) : Z :=
  if enabled SPEC BERLIN then
    if is_cold then COLD_ACCOUNT_ACCESS_COST else WARM_STORAGE_READ_COST
  else if enabled SPEC ISTANBUL then 700 else 20.

Definition log_cost (n len : Z) : option Z :=
  d ← u64_checked_mul LOGDATA len;
  b ← u64_checked_add LOG d;
  u64_checked_add b (LOGTOPIC * n).

Definition sha3_cost (len : Z) : option Z :=
  c ← u64_checked_mul SHA3WORD (words len); u64_checked_add SHA3 c.

Definition initcode_cost (len : Z) : Z := wrap64 (INITCODE_WORD_COST * words len).

Definition sstore_cost (original current new gas : Z) (is_cold : bool) : option Z :=
  let '(gas_sload, gas_sstore_reset) :=
    if enabled SPEC BERLIN
    then (WARM_STORAGE_READ_COST, SSTORE_RESET - COLD_SLOAD_COST)
    else (sload_cost is_cold, SSTORE_RESET) in
  let finish gas_cost :=
    if enabled SPEC BERLIN && is_cold then Some (gas_cost + COLD_SLOAD_COST)
    else Some gas_cost in
  if enabled SPEC ISTANBUL then
    if gas <=? CALL_STIPEND then None
    else finish
      (if new =? current then gas_sload
       else if original =? current then
         (if original =? 0 then SSTORE_SET else gas_sstore_reset)
       else gas_sload)
  else finish
    (if (current =? 0) && negb (new =? 0) then SSTORE_SET else gas_sstore_reset).

Definition selfdestruct_cost (res : SelfDestructResult) : Z :=
  let should_charge_topup :=
    if enabled SPEC SPURIOUS_DRAGON
    then sd_had_value res && negb (sd_target_exists res)
    else negb (sd_target_exists res) in
  let selfdestruct_gas_topup :=
    if enabled SPEC TANGERINE && should_charge_topup then 25000 else 0 in
  let selfdestruct_gas := if enabled SPEC TANGERINE then 5000 else 0 in
  let gas := selfdestruct_gas + selfdestruct_gas_topup in
  if enabled SPEC BERLIN && sd_is_cold res then gas + COLD_ACCOUNT_ACCESS_COST else gas.

Definition xfer_cost (is_call_or_callcode transfers_value : bool) : Z :=
  if is_call_or_callcode && transfers_value then CALLVALUE else 0.

Definition new_cost (is_call_or_staticcall is_new transfers_value : bool) : Z :=
  if is_call_or_staticcall then
    if enabled SPEC SPURIOUS_DRAGON then
      if transfers_value && is_new then NEWACCOUNT else 0
    else if is_new then NEWACCOUNT else 0
  else 0.

Definition call_cost (value : Z)
  (is_new is_cold is_call_or_callcode is_call_or_staticcall : bool) : Z :=
  let transfers_value := negb (value =? 0) in
  let call_gas :=
    if enabled SPEC BERLIN then
      if is_cold then COLD_ACCOUNT_ACCESS_COST else WARM_STORAGE_READ_COST
    else if enabled SPEC TANGERINE then 700 else 40 in
  call_gas + xfer_cost is_call_or_callcode transfers_value
    + new_cost is_call_or_staticcall is_new transfers_value.

Definition hot_cold_cost (is_cold : bool) (regular_value : Z) : Z :=
  if enabled SPEC BERLIN then
    if is_cold then COLD_ACCOUNT_ACCESS_COST else WARM_STORAGE_READ_COST
  else regular_value.

Definition memory_gas (a : Z) : Z :=
  u64_saturating_add (u64_saturating_mul MEMORY a) (u64_saturating_mul a a / 512).
End calc.

(** ** The counter as a budget *)

Definition Gas_wf (g : Gas) : Prop :=
  0 <= used g /\ 0 <= memory g /\ all_used_gas g = used g + memory g /\
  all_used_gas g <= limit g /\ is_u64 (limit g).

(** The abstract budget: what was charged and the highest memory charge. *)
Record budget := mkBudget { charged : Z; mem_high : Z }.

Inductive gas_op :=
| OpCost (cost : Z)
| OpMemory (cost : Z)
| OpErase (returned : Z).

Definition budget_step (lim : Z) (b : budget) (o : gas_op) : budget * bool :=
  match o with
  | OpCost c =>
      if charged b + mem_high b + c <=? lim
      then (mkBudget (charged b + c) (mem_high b), true) else (b, false)
  | OpMemory c =>
      if c <=? mem_high b then (b, true)
      else if charged b + c <=? lim then (mkBudget (charged b) c, true) else (b, false)
  | OpErase r => (mkBudget (charged b - r) (mem_high b), true)
  end.

Definition gas_step (g : Gas) (o : gas_op) : Gas * bool :=
  match o with
  | OpCost c => record_cost g c
  | OpMemory c => record_memory g c
  | OpErase r => (erase_cost g r, true)
  end.

(** Operands are [u64]s and gas is only given back out of what was charged. *)
Definition gas_op_ok (b : budget) (o : gas_op) : Prop :=
  match o with
  | OpCost c | OpMemory c => is_u64 c
  | OpErase r => 0 <= r <= charged b
  end.

Definition gas_abs (g : Gas) : budget := mkBudget (used g) (memory g).

Fixpoint gas_ops_ok (lim : Z) (b : budget) (os : list gas_op) : Prop :=
  match os with
  | [] => True
  | o :: os => gas_op_ok b o /\ gas_ops_ok lim (budget_step lim b o).1 os
  end.

Definition gas_run (g : Gas) (os : list gas_op) : Gas * list bool :=
  foldl (fun '(g, rs) o => let '(g', r) := gas_step g o in (g', rs ++ [r])) (g, []) os.
Definition budget_run (lim : Z) (b : budget) (os : list gas_op) : budget * list bool :=
  foldl (fun '(b, rs) o => let '(b', r) := budget_step lim b o in (b', rs ++ [r])) (b, []) os.

Lemma Gas_new_wf (l : Z) : is_u64 l -> Gas_wf (Gas_new l).
Proof. unfold Gas_wf, Gas_new. simpl. rlia. Qed.

Lemma remaining_wf (g : Gas) : Gas_wf g -> remaining g = limit g - all_used_gas g.
Proof. unfold Gas_wf, remaining. intros. apply wrap64_id. rlia. Qed.

Lemma record_cost_spec (g : Gas) (cost : Z) : Gas_wf g -> is_u64 cost ->
  record_cost g cost =
  if used g + memory g + cost <=? limit g
  then (mkGas (limit g) (used g + cost + memory g) (used g + cost) (memory g) (refunded g), true)
  else (g, false).
Proof.
  intros (Hu & Hm & He & Hl & Hlim) Hc. unfold record_cost, u64_overflowing_add, is_u64 in *.
  rewrite He. destruct (Z.leb_spec (used g + memory g + cost) (limit g)).
  - rewrite !wrap64_id by rlia. replace (u64_modulus <=? _) with false by lia.
    replace (limit g <? _) with false by lia. simpl. do 2 f_equal. lia.
  - destruct (Z.leb_spec u64_modulus (used g + memory g + cost)); [done|].
    rewrite wrap64_id by rlia. replace (limit g <? _) with true by lia. done.
Qed.

Lemma record_memory_spec (g : Gas) (cost : Z) : Gas_wf g -> is_u64 cost ->
  record_memory g cost =
  if cost <=? memory g then (g, true)
  else if used g + cost <=? limit g
  then (mkGas (limit g) (used g + cost) (used g) cost (refunded g), true)
  else (g, false).
Proof.
  intros (Hu & Hm & He & Hl & Hlim) Hc. unfold record_memory, u64_overflowing_add, is_u64 in *.
  rewrite Z.ltb_antisym. destruct (Z.leb_spec cost (memory g)); [done|]. simpl.
  destruct (Z.leb_spec (used g + cost) (limit g)).
  - rewrite !wrap64_id by rlia. replace (u64_modulus <=? _) with false by lia.
    by replace (limit g <? _) with false by lia.
  - destruct (Z.leb_spec u64_modulus (used g + cost)); [done|].
    rewrite wrap64_id by rlia. by replace (limit g <? _) with true by lia.
Qed.

Lemma erase_cost_spec (g : Gas) (r : Z) : Gas_wf g -> 0 <= r <= used g ->
  erase_cost g r =
  mkGas (limit g) (used g - r + memory g) (used g - r) (memory g) (refunded g).
Proof.
  intros (Hu & Hm & He & Hl & Hlim) Hr. unfold erase_cost, is_u64 in *.
  rewrite !wrap64_id by rlia. f_equal. lia.
Qed.

(** One operation keeps the counter well formed and is the budget's. *)
Lemma gas_step_refines (g : Gas) (o : gas_op) :
  Gas_wf g -> gas_op_ok (gas_abs g) o ->
  Gas_wf (gas_step g o).1 /\ limit (gas_step g o).1 = limit g /\
  (gas_abs (gas_step g o).1, (gas_step g o).2) = budget_step (limit g) (gas_abs g) o.
Proof.
  intros Hg Ho. pose proof Hg as (Hu & Hm & He & Hl & Hlim). unfold gas_abs in *.
  destruct o as [c|c|r]; cbn [gas_step budget_step gas_op_ok charged mem_high] in *.
  - rewrite record_cost_spec by done. case_if; simpl; [|done].
    unfold Gas_wf, is_u64 in *; simpl. repeat split; lia.
  - rewrite record_memory_spec by done. repeat case_if; simpl; try done.
    unfold Gas_wf, is_u64 in *; simpl. repeat split; lia.
  - rewrite erase_cost_spec by done. unfold Gas_wf, is_u64 in *; simpl. repeat split; lia.
Qed.

Lemma gas_run_refines (os : list gas_op) (g : Gas) (rs : list bool) :
  Gas_wf g -> gas_ops_ok (limit g) (gas_abs g) os ->
  let '(g', rs') := foldl (fun '(g, rs) o =>
    let '(g', r) := gas_step g o in (g', rs ++ [r])) (g, rs) os in
  Gas_wf g' /\ limit g' = limit g /\
  (gas_abs g', rs') = foldl (fun '(b, rs) o =>
    let '(b', r) := budget_step (limit g) b o in (b', rs ++ [r])) (gas_abs g, rs) os.
Proof.
  revert g rs. induction os as [|o os IH]; intros g rs Hg Hok; simpl; [done|].
  destruct Hok as [Ho Hos].
  destruct (gas_step_refines g o Hg Ho) as (Hg' & Hlim & Hb).
  destruct (gas_step g o) as [g1 r1]; simpl in *.
  destruct (budget_step (limit g) (gas_abs g) o) as [b1 r2]; simpl in *.
  injection Hb as Hb1 Hr. subst b1 r2. rewrite <- Hlim in Hos. rewrite <- Hlim.
  apply (IH g1 (rs ++ [r1]) Hg' Hos).
Qed.

(** The counter implements the budget.  Over any sequence of charges,
    memory charges and repayments (of no more than was charged), a fresh
    [Gas] answers every request as the abstract budget does, so a charge is
    refused exactly when it exceeds the limit, no intermediate [u64]
    addition or subtraction wraps, and [remaining] is the limit minus what is
    charged minus the highest memory charge. *)
Theorem gas_counter_refines_budget (lim : Z) (os : list gas_op) :
  is_u64 lim -> gas_ops_ok lim (mkBudget 0 0) os ->
  let '(g, rs) := gas_run (Gas_new lim) os in
  let '(b, rs') := budget_run lim (mkBudget 0 0) os in
  rs = rs' /\ gas_abs g = b /\ Gas_wf g /\
  remaining g = lim - charged b - mem_high b /\ 0 <= remaining g.
Proof.
  intros Hlim Hok. unfold gas_run, budget_run.
  pose proof (gas_run_refines os (Gas_new lim) [] (Gas_new_wf lim Hlim) Hok) as H.
  destruct (foldl _ (Gas_new lim, []) os) as [g rs]. destruct H as (Hwf & Hl & Hb).
  change (gas_abs (Gas_new lim)) with (mkBudget 0 0) in Hb.
  change (limit (Gas_new lim)) with lim in *.
  destruct (foldl _ (mkBudget 0 0, []) os) as [b rs']. injection Hb as <- <-.
  rewrite remaining_wf by done. destruct Hwf as (? & ? & ? & ? & ?).
  simpl. repeat split; rlia.
Qed.

Lemma gas_counter_refines_budget_witness :
  let os := [OpCost 3; OpMemory 98; OpCost 1000; OpErase 2; OpMemory 50] in
  let '(g, rs) := gas_run (Gas_new 200) os in
  rs = [true; true; false; true; true] /\ remaining g = 101 /\ 0 <= remaining g.
Proof.
  pose proof (gas_counter_refines_budget 200
    [OpCost 3; OpMemory 98; OpCost 1000; OpErase 2; OpMemory 50]) as H.
  destruct H as (_ & _ & _ & _ & Hr); [rlia|vm_compute; intuition congruence|].
  split; [reflexivity|]. split; [reflexivity|]. exact Hr.
Defined.

(** ** The schedules *)

(** [remaining] never goes up by charging, and charging needs the gas. *)
Lemma record_cost_true (g g' : Gas) (cost : Z) : Gas_wf g -> is_u64 cost ->
  record_cost g cost = (g', true) ->
  Gas_wf g' /\ remaining g' = remaining g - cost /\ limit g' = limit g /\
  used g' = used g + cost /\ memory g' = memory g /\ refunded g' = refunded g.
Proof.
  intros Hg Hc. rewrite record_cost_spec by done. case_if; [|done]. intros [= <-].
  pose proof Hg as (Hu & Hm & He & Hl & Hlim).
  assert (Hg' : Gas_wf (mkGas (limit g) (used g + cost + memory g) (used g + cost)
    (memory g) (refunded g))) by (unfold Gas_wf in *; simpl; rlia).
  split; [done|]. rewrite !remaining_wf by done. simpl. repeat split; rlia.
Qed.

Lemma record_cost_false (g g' : Gas) (cost : Z) : Gas_wf g -> is_u64 cost ->
  record_cost g cost = (g', false) -> g' = g /\ remaining g < cost.
Proof.
  intros Hg Hc. rewrite record_cost_spec by done. case_if; [done|]. intros [= <-].
  rewrite remaining_wf by done. destruct Hg as (? & ? & ? & ? & ?). split; [done|lia].
Qed.

Lemma record_memory_true (g g' : Gas) (cost : Z) : Gas_wf g -> is_u64 cost ->
  record_memory g cost = (g', true) ->
  Gas_wf g' /\ remaining g' <= remaining g /\ limit g' = limit g /\
  used g' = used g /\ memory g' = Z.max (memory g) cost /\ refunded g' = refunded g.
Proof.
  intros Hg Hc. rewrite record_memory_spec by done. repeat case_if; try done; intros [= <-].
  - split; [done|]. repeat split; lia.
  - pose proof Hg as (Hu & Hm & He & Hl & Hlim).
    assert (Hg' : Gas_wf (mkGas (limit g) (used g + cost) (used g) cost (refunded g)))
      by (unfold Gas_wf in *; simpl; rlia).
    split; [done|]. rewrite !remaining_wf by done. simpl. repeat split; rlia.
Qed.

Lemma record_memory_false (g g' : Gas) (cost : Z) : Gas_wf g -> is_u64 cost ->
  record_memory g cost = (g', false) -> g' = g.
Proof.
  intros Hg Hc. rewrite record_memory_spec by done. repeat case_if; try done. by intros [= <-].
Qed.

Lemma memory_gas_u64 (a : Z) : 0 <= a -> is_u64 (memory_gas a).
Proof.
  intros. unfold memory_gas, u64_saturating_add, u64_saturating_mul, MEMORY.
  assert (0 <= Z.min (a * a) u64_max / 512) by (apply Z.div_pos; nia). rlia.
Qed.

Lemma memory_gas_mono (a b : Z) : 0 <= a <= b -> memory_gas a <= memory_gas b.
Proof.
  intros. unfold memory_gas, u64_saturating_add, u64_saturating_mul, MEMORY.
  assert (Z.min (a * a) u64_max / 512 <= Z.min (b * b) u64_max / 512)
    by (apply Z.div_le_mono; nia). lia.
Qed.

Lemma words_spec (len : Z) : 0 <= len -> words len = (len + 31) / 32.
Proof. intros. unfold words. case_if; zlia. Qed.

Lemma words_range (len : Z) : is_u64 len -> 0 <= words len <= 576460752303423488.
Proof. intros. rewrite words_spec by rlia. zlia. Qed.

Lemma memory_gas_exact (a : Z) : 0 <= a < 4294967296 -> memory_gas a = 3 * a + a * a / 512.
Proof.
  intros Ha. unfold memory_gas, u64_saturating_add, u64_saturating_mul, MEMORY.
  assert (a * a <= 4294967295 * 4294967295) by nia.
  rewrite (Z.min_l (3 * a)), (Z.min_l (a * a)) by lia.
  apply Z.min_l. zlia.
Qed.

Lemma log2_split (lo hi k : Z) :
  0 <= k -> 0 <= lo < 2 ^ k -> 0 < hi -> Z.log2 (lo + 2 ^ k * hi) = k + Z.log2 hi.
Proof.
  intros Hk Hlo Hhi. pose proof (Z.log2_spec hi Hhi) as [H1 H2].
  pose proof (Z.log2_nonneg hi). apply Z.log2_unique; [lia|].
  rewrite <- Z.add_succ_r, !Z.pow_add_r by lia. nia.
Qed.

Lemma limb_scan_hit (x b : Z) : x <> 0 -> 64 <= b ->
  (if b - leading_zeros64 x =? 0 then b - leading_zeros64 x else b - leading_zeros64 x - 1)
  = b - 64 + Z.log2 x.
Proof.
  intros Hx Hb. pose proof (Z.log2_nonneg x). unfold leading_zeros64.
  rewrite (proj2 (Z.eqb_neq x 0) Hx). case_if; lia.
Qed.

(** The limb scan computes the binary logarithm. *)
Lemma log2floor_spec (value : Z) : is_u256 value -> value <> 0 ->
  log2floor value = Val (Z.log2 value).
Proof.
  intros Hv Hz. unfold log2floor. rewrite (proj2 (Z.eqb_neq value 0) Hz). f_equal.
  pose proof (limbs_combine value Hv) as Hc.
  assert (Hl : forall i, 0 <= limb value i < 2 ^ 64).
  { intros i. unfold limb. apply Z.mod_pos_bound. lia. }
  pose proof (Hl 0); pose proof (Hl 1); pose proof (Hl 2); pose proof (Hl 3).
  cbn [log2floor_from]. change (Z.of_nat 3) with 3. change (Z.of_nat 2) with 2.
  change (Z.of_nat 1) with 1. change (Z.of_nat 0) with 0.
  assert (Hlog := f_equal Z.log2 Hc). rewrite Hlog. clear Hlog.
  destruct (Z.eqb_spec (limb value 3) 0) as [E3|E3].
  2: { rewrite limb_scan_hit, log2_split by lia. lia. }
  destruct (Z.eqb_spec (limb value 2) 0) as [E2|E2].
  2: { rewrite E3, Z.mul_0_r, Z.add_0_r, limb_scan_hit, log2_split by lia. lia. }
  destruct (Z.eqb_spec (limb value 1) 0) as [E1|E1].
  2: { rewrite E3, E2, !Z.mul_0_r, !Z.add_0_r, limb_scan_hit, log2_split by lia. lia. }
  destruct (Z.eqb_spec (limb value 0) 0) as [E0|E0]; [lia|].
  rewrite E3, E2, E1, !Z.mul_0_r, !Z.add_0_r, limb_scan_hit by lia. lia.
Qed.

(** The number of bytes of a positive integer. *)
Definition byte_length (x : Z) : Z := if x =? 0 then 0 else Z.log2 x / 8 + 1.

Lemma byte_length_bound (x : Z) : is_u256 x -> 0 <= byte_length x <= 32.
Proof.
  intros Hx. unfold byte_length. case_if; [lia|].
  pose proof (Z.log2_nonneg x).
  assert (Z.log2 x < 256). { apply Z.log2_lt_pow2; unfold is_u256 in Hx; lia. }
  zlia.
Qed.

Lemma exp_cost_spec (SPEC : SpecId) (power : Z) : is_u256 power ->
  exp_cost SPEC power =
  Val (Some (10 + (if enabled SPEC SPURIOUS_DRAGON then 50 else 10) * byte_length power)).
Proof.
  intros Hp. unfold exp_cost. pose proof (byte_length_bound power Hp) as Hb.
  unfold byte_length in *. case_if; [by rewrite Z.mul_0_r|].
  rewrite log2floor_spec by done. simpl. unfold u256_checked_mul, u256_checked_add, EXP.
  set (k := if enabled SPEC SPURIOUS_DRAGON then 50 else 10).
  assert (10 <= k <= 50) by (unfold k; case_if; lia).
  replace (k * _ <? _) with true by nia. simpl.
  replace (10 + k * _ <? _) with true by nia. simpl.
  by replace (10 + k * _ <? _) with true by nia.
Qed.

Lemma copy_costs (SPEC : SpecId) (len : Z) (is_cold : bool) : is_u64 len ->
  verylowcopy_cost len = Some (3 + 3 * words len) /\
  sha3_cost len = Some (30 + 6 * words len) /\
  create2_cost len = Some (32000 + 6 * words len) /\
  exists base, 20 <= base <= 2600 /\
    extcodecopy_cost SPEC len is_cold = Some (base + 3 * words len).
Proof.
  intros Hl. pose proof (words_range len Hl) as Hw.
  assert (Hc2 : len / 32 + (if len mod 32 =? 0 then 0 else 1) = words len)
    by (unfold words; case_if; lia).
  unfold verylowcopy_cost, sha3_cost, create2_cost, extcodecopy_cost, u64_checked_mul,
    u64_checked_add, COPY, SHA3WORD, VERYLOW, SHA3, CREATE.
  rewrite Hc2. replace (3 * words len <? _) with true by lia.
  replace (6 * words len <? _) with true by lia. simpl.
  repeat split; try (replace (_ <? _) with true by lia; done).
  unfold COLD_ACCOUNT_ACCESS_COST, WARM_STORAGE_READ_COST.
  set (base := if enabled SPEC BERLIN then _ else _).
  assert (20 <= base <= 2600) by (unfold base; repeat case_if; lia).
  exists base. split; [done|]. by replace (_ <? _) with true by lia.
Qed.

Lemma log_cost_spec (n len c : Z) : is_u64 len -> 0 <= n <= 4 ->
  log_cost n len = Some c -> c = 375 + 8 * len + 375 * n /\ is_u64 c.
Proof.
  intros Hl Hn. unfold log_cost, u64_checked_mul, u64_checked_add, LOGDATA, LOG, LOGTOPIC.
  case_if; [|done]. simpl. case_if; [|done]. simpl. case_if; [|done].
  intros [= <-]. rlia.
Qed.

Lemma sload_cost_range (SPEC : SpecId) (c : bool) : 50 <= sload_cost SPEC c <= 2100.
Proof.
  unfold sload_cost, COLD_SLOAD_COST, WARM_STORAGE_READ_COST. repeat case_if; lia.
Qed.

Lemma sstore_cost_range (SPEC : SpecId) (o cur new gas c : Z) (cold : bool) :
  sstore_cost SPEC o cur new gas cold = Some c -> 100 <= c <= 22100.
Proof.
  unfold sstore_cost, sload_cost, COLD_SLOAD_COST, WARM_STORAGE_READ_COST, SSTORE_RESET,
    SSTORE_SET, CALL_STIPEND.
  destruct (enabled SPEC BERLIN) eqn:Eb.
  - rewrite (enabled_mono SPEC BERLIN ISTANBUL) by (done || lia).
    destruct cold; simpl; repeat case_if; intros; simplify_eq; lia.
  - destruct (enabled SPEC ISTANBUL) eqn:Ei; simpl; repeat case_if; intros; simplify_eq; lia.
Qed.

Lemma call_cost_range (SPEC : SpecId) (v : Z) (n c a b : bool) :
  40 + xfer_cost a (negb (v =? 0)) <= call_cost SPEC v n c a b <= 36600.
Proof.
  unfold call_cost, xfer_cost, new_cost, COLD_ACCOUNT_ACCESS_COST, WARM_STORAGE_READ_COST,
    CALLVALUE, NEWACCOUNT. repeat case_if; lia.
Qed.

Lemma account_access_gas_range (SPEC : SpecId) (c : bool) :
  20 <= account_access_gas SPEC c <= 2600.
Proof.
  unfold account_access_gas, COLD_ACCOUNT_ACCESS_COST, WARM_STORAGE_READ_COST.
  repeat case_if; lia.
Qed.

Lemma selfdestruct_cost_range (SPEC : SpecId) (r : SelfDestructResult) :
  0 <= selfdestruct_cost SPEC r <= 32600.
Proof.
  unfold selfdestruct_cost, COLD_ACCOUNT_ACCESS_COST. cbv zeta. repeat case_if; lia.
Qed.

Lemma initcode_cost_spec (len : Z) : is_u64 len ->
  initcode_cost len = 2 * words len /\ is_u64 (initcode_cost len).
Proof.
  intros Hl. pose proof (words_range len Hl). unfold initcode_cost, INITCODE_WORD_COST.
  rewrite wrap64_id by rlia. rlia.
Qed.

(** ** Refunds of one storage slot over a transaction *)

(** The refunds recorded when the slot, first holding [original], takes the
    values [ws] one after the other. *)
Fixpoint slot_refunds (SPEC : SpecId) (original current : Z) (ws : list Z) : Z :=
  match ws with
  | [] => 0
  | w :: ws => sstore_refund SPEC original current w + slot_refunds SPEC original w ws
  end.

(** What the schedule still owes for the slot: the clearing refund while a
    slot that was not empty is. *)
Definition clear_credit (SPEC : SpecId) (original current : Z) : Z :=
  if negb (original =? 0) && (current =? 0) then
    if enabled SPEC LONDON then 4800 else 15000
  else 0.

Lemma sstore_refund_credit (SPEC : SpecId) (original current new : Z) :
  enabled SPEC ISTANBUL = true ->
  clear_credit SPEC original new - clear_credit SPEC original current
    <= sstore_refund SPEC original current new.
Proof.
  intros Hi. unfold sstore_refund, clear_credit, sload_cost. rewrite Hi.
  unfold SSTORE_RESET, COLD_SLOAD_COST, ACCESS_LIST_STORAGE_KEY, REFUND_SSTORE_CLEARS,
    SSTORE_SET, WARM_STORAGE_READ_COST.
  destruct (Z.eqb_spec original 0), (Z.eqb_spec current 0), (Z.eqb_spec new 0),
    (Z.eqb_spec current new), (Z.eqb_spec original current), (Z.eqb_spec original new),
    (enabled SPEC LONDON), (enabled SPEC BERLIN); simpl; lia.
Qed.

Lemma slot_refunds_credit (SPEC : SpecId) (original current : Z) (ws : list Z) :
  0 <= slot_refunds SPEC original current ws + clear_credit SPEC original current.
Proof.
  revert current. induction ws as [|w ws IH]; intros current; cbn [slot_refunds].
  - unfold clear_credit. repeat case_if; lia.
  - specialize (IH w). destruct (enabled SPEC ISTANBUL) eqn:Hi.
    + pose proof (sstore_refund_credit SPEC original current w Hi). lia.
    + assert (0 <= sstore_refund SPEC original current w /\
              clear_credit SPEC original w <=
              sstore_refund SPEC original current w + clear_credit SPEC original current) as [??].
      { unfold sstore_refund, clear_credit, REFUND_SSTORE_CLEARS. rewrite Hi.
        assert (enabled SPEC LONDON = false) as ->.
        { unfold enabled in *. simpl in *. lia. }
        destruct (Z.eqb_spec original 0), (Z.eqb_spec current 0), (Z.eqb_spec w 0);
          simpl; lia. }
      lia.
Qed.

(** The refunds [SSTORE] records for a storage slot never add up to a
    negative number, whatever values the slot takes during a transaction
    and whatever the hard fork, although single refunds are negative.  This
    is why [refunded as u64] at the end of a transaction is the true
    total. *)
Theorem slot_refunds_nonneg (SPEC : SpecId) (original : Z) (ws : list Z) :
  0 <= slot_refunds SPEC original original ws.
Proof.
  pose proof (slot_refunds_credit SPEC original original ws) as H.
  unfold clear_credit in H. destruct (Z.eqb_spec original 0); simpl in H; lia.
Qed.

(** [EXP] costs 10 gas plus 50 (10 before Spurious Dragon) per byte of
    the exponent: the limb scan of [log2floor] finds the byte length, its
    assertion never fires and none of the checked operations overflows. *)
Theorem exp_cost_per_byte (SPEC : SpecId) (power : Z) : is_u256 power ->
  exp_cost SPEC power =
  Val (Some (10 + (if enabled SPEC SPURIOUS_DRAGON then 50 else 10) * byte_length power)).
Proof. apply exp_cost_spec. Qed.

Lemma exp_cost_per_byte_witness :
  is_u256 (2 ^ 255) /\ exp_cost LATEST (2 ^ 255) = Val (Some 1610).
Proof.
  split; [rlia|]. rewrite (exp_cost_per_byte LATEST (2 ^ 255)); [reflexivity|rlia].
Defined.
