(* ===== verification/EvmStack.v ===== *)
(** * The EVM stack: [interpreter/src/interpreter/stack.rs]

    A stack is the [Vec<U256>] of the code: index 0 is the bottom, the top
    is the last element.  The vector is created with a capacity of
    [STACK_LIMIT] words, so that writing one past the length is a write
    into allocated memory as long as the length is below the limit. *)

From stdpp Require Import base option list.
From Stdlib Require Import ZArith Lia.
From S2P Require Import Prelude Primitives.

Module Stack.

Definition STACK_LIMIT : Z := 1024.

Definition new : list Z := [].
Definition len (s : list Z) : Z := zlen s.
Definition is_empty (s : list Z) : bool := zlen s =? 0.

Definition reduce_one (s : list Z) : list Z * option InstructionResult :=
  if len s <? 1 then (s, Some StackUnderflow)
  else (take (Z.to_nat (len s - 1)) s, None).

Definition pop (s : list Z) : list Z * (Z + InstructionResult) :=
  match last s with
  | Some v => (take (length s - 1) s, inl v)
  | None => (s, inr StackUnderflow)
  end.

(** The unchecked accessors read with [get_unchecked]: undefined when the
    stack is too short. *)
Definition pop_unsafe (s : list Z) : rust (Z * list Z) :=
  let n := len s - 1 in
  v ← get_unchecked s n; Val (v, take (Z.to_nat n) s).

Definition top_unsafe (s : list Z) : rust Z := get_unchecked s (len s - 1).

(** Assigning through the reference [top_unsafe] and its variants return. *)
Definition set_top (s : list Z) (v : Z) : rust (list Z) := set_unchecked s (len s - 1) v.

Definition pop_top_unsafe (s : list Z) : rust (Z * Z * list Z) :=
  let n := len s in
  p ← get_unchecked s (n - 1);
  let s' := take (Z.to_nat (n - 1)) s in
  t ← get_unchecked s' (n - 2); Val (p, t, s').

Definition pop2_top_unsafe (s : list Z) : rust (Z * Z * Z * list Z) :=
  let n := len s in
  p1 ← get_unchecked s (n - 1);
  p2 ← get_unchecked s (n - 2);
  let s' := take (Z.to_nat (n - 2)) s in
  t ← get_unchecked s' (n - 3); Val (p1, p2, t, s').

(** Reading the popped words back after [set_len] reads initialised memory
    of the vector. *)
Definition pop2_unsafe (s : list Z) : rust (Z * Z * list Z) :=
  let n := len s - 2 in
  a ← get_unchecked s (n + 1); b ← get_unchecked s n;
  Val (a, b, take (Z.to_nat n) s).

Definition pop3_unsafe (s : list Z) : rust (Z * Z * Z * list Z) :=
  let n := len s - 3 in
  a ← get_unchecked s (n + 2); b ← get_unchecked s (n + 1); c ← get_unchecked s n;
  Val (a, b, c, take (Z.to_nat n) s).

Definition pop4_unsafe (s : list Z) : rust (Z * Z * Z * Z * list Z) :=
  let n := len s - 4 in
  a ← get_unchecked s (n + 3); b ← get_unchecked s (n + 2);
  c ← get_unchecked s (n + 1); d ← get_unchecked s n;
  Val (a, b, c, d, take (Z.to_nat n) s).

Definition push (s : list Z) (value : Z) : list Z * (unit + InstructionResult) :=
  if STACK_LIMIT <? len s + 1 then (s, inr StackOverflow)
  else (s ++ [value], inl tt).

(** A [B256] is the integer its bytes denote. *)
Definition push_b256 (s : list Z) (value : Z) : list Z * (unit + InstructionResult) :=
  if STACK_LIMIT <? len s + 1 then (s, inr StackOverflow)
  else (s ++ [value], inl tt).

Definition peek (s : list Z) (no_from_top : Z) : rust (Z + InstructionResult) :=
  if no_from_top <? len s then
    inl <$> unwrap (s !! Z.to_nat (len s - no_from_top - 1))
  else Val (inr StackUnderflow).

(** The destination is the word after the last one, inside the capacity. *)
Definition dup (N : Z) (s : list Z) : rust (list Z * option InstructionResult) :=
  let n := len s in
  if n <? N then Val (s, Some StackUnderflow)
  else if STACK_LIMIT <? n + 1 then Val (s, Some StackOverflow)
  else v ← get_unchecked s (n - N); Val (s ++ [v], None).

Definition swap (N : Z) (s : list Z) : rust (list Z * option InstructionResult) :=
  let n := len s in
  if n <=? N then Val (s, Some StackUnderflow)
  else
    a ← get_unchecked s (n - 1);
    b ← get_unchecked s (n - 1 - N);
    s1 ← set_unchecked s (n - 1) b;
    s2 ← set_unchecked s1 (n - 1 - N) a;
    Val (s2, None).

(** [u64::from_be_bytes(slice.try_into().expect(..))]. *)
Definition u64_from_be_bytes (l : list Z) : rust Z :=
  if zlen l =? 8 then Val (from_be_bytes l) else Panic.

Definition from_limbs (l0 l1 l2 l3 : Z) : Z := l0 + 2 ^ 64 * l1 + 2 ^ 128 * l2 + 2 ^ 192 * l3.

(** [dangling[from..].copy_from_slice(src)] on eight zero bytes. *)
Definition dangling (from : Z) (src : list Z) : rust Z :=
  d ← copy_from_slice (replicate 8 0) from 8 src; u64_from_be_bytes d.

(** The word [push_slice] assembles limb by limb from [N] bytes. *)
Definition slice_word (N : Z) (sl : list Z) : rust Z :=
  if N <? 8 then
    l0 ← dangling (8 - N) sl; Val (from_limbs l0 0 0 0)
  else if N <? 16 then
    l0 ← slice sl (N - 8) N ≫= u64_from_be_bytes;
    if N =? 8 then Val (from_limbs l0 0 0 0)
    else
      l1 ← slice sl 0 (N - 8) ≫= dangling (8 * 2 - N);
      Val (from_limbs l0 l1 0 0)
  else if N <? 24 then
    l0 ← slice sl (N - 8) N ≫= u64_from_be_bytes;
    l1 ← slice sl (N - 16) (N - 8) ≫= u64_from_be_bytes;
    if N =? 16 then Val (from_limbs l0 l1 0 0)
    else
      l2 ← slice sl 0 (N - 16) ≫= dangling (8 * 3 - N);
      Val (from_limbs l0 l1 l2 0)
  else
    l0 ← slice sl (N - 8) N ≫= u64_from_be_bytes;
    l1 ← slice sl (N - 16) (N - 8) ≫= u64_from_be_bytes;
    l2 ← slice sl (N - 24) (N - 16) ≫= u64_from_be_bytes;
    if N =? 32 then
      l3 ← slice sl 0 (N - 24) ≫= u64_from_be_bytes;
      Val (from_limbs l0 l1 l2 l3)
    else if N =? 24 then Val (from_limbs l0 l1 l2 0)
    else
      l3 ← slice sl 0 (N - 24) ≫= dangling (8 * 4 - N);
      Val (from_limbs l0 l1 l2 l3).

Definition push_slice (N : Z) (s sl : list Z) : rust (list Z * option InstructionResult) :=
  if STACK_LIMIT <? len s + 1 then Val (s, Some StackOverflow)
  else w ← slice_word N sl; Val (s ++ [w], None).

Definition set (s : list Z) (no_from_top val : Z) : list Z * (unit + InstructionResult) :=
  if no_from_top <? len s
  then (<[Z.to_nat (len s - no_from_top - 1) := val]> s, inl tt)
  else (s, inr StackUnderflow).

End Stack.

(** ** Well-formed stacks and the accessors on them *)

Definition stack_wf (s : list Z) : Prop := zlen s <= 1024 /\ Forall is_u256 s.

Lemma stack_wf_app (s t : list Z) : stack_wf (s ++ t) -> stack_wf s.
Proof.
  unfold stack_wf. rewrite zlen_app, Forall_app. pose proof (zlen_nonneg t). intuition lia.
Qed.

Lemma stack_wf_snoc (s : list Z) (v : Z) :
  zlen s < 1024 -> stack_wf s -> is_u256 v -> stack_wf (s ++ [v]).
Proof.
  unfold stack_wf. rewrite Forall_app, Forall_singleton. autorewrite with zlen.
  intuition lia.
Qed.

Lemma stack_snoc_view (s : list Z) : 1 <= zlen s -> exists t v, s = t ++ [v].
Proof.
  intros H. destruct s as [|v t _] using rev_ind; [by vm_compute in H|eauto].
Qed.

Lemma stack_view2 (s : list Z) : 2 <= zlen s -> exists t b a, s = t ++ [b; a].
Proof.
  intros H. destruct (stack_snoc_view s) as (s1 & a & ->); [lia|].
  autorewrite with zlen in H. destruct (stack_snoc_view s1) as (s2 & b & ->); [lia|].
  exists s2, b, a. by rewrite <- app_assoc.
Qed.

Lemma stack_view3 (s : list Z) : 3 <= zlen s -> exists t c b a, s = t ++ [c; b; a].
Proof.
  intros H. destruct (stack_snoc_view s) as (s1 & a & ->); [lia|].
  autorewrite with zlen in H. destruct (stack_view2 s1) as (s2 & c & b & ->); [lia|].
  exists s2, c, b, a. by rewrite <- app_assoc.
Qed.

Lemma stack_view4 (s : list Z) : 4 <= zlen s -> exists t d c b a, s = t ++ [d; c; b; a].
Proof.
  intros H. destruct (stack_snoc_view s) as (s1 & a & ->); [lia|].
  autorewrite with zlen in H. destruct (stack_view3 s1) as (s2 & d & c & b & ->); [lia|].
  exists s2, d, c, b, a. by rewrite <- app_assoc.
Qed.

Lemma get_unchecked_app (s t : list Z) (i : Z) (v : Z) :
  zlen s <= i -> t !! Z.to_nat (i - zlen s) = Some v -> get_unchecked (s ++ t) i = Val v.
Proof.
  intros Hi Hv. apply get_unchecked_val; [rlia|].
  rewrite lookup_app_r by rlia. rewrite <- Hv. f_equal. rlia.
Qed.

Lemma take_app_zlen (s t : list Z) (i : Z) : i = zlen s -> take (Z.to_nat i) (s ++ t) = s.
Proof. intros ->. unfold zlen. rewrite Nat2Z.id. apply take_app_length. Qed.

Lemma set_unchecked_snoc (s : list Z) (v w : Z) :
  set_unchecked (s ++ [v]) (zlen s) w = Val (s ++ [w]).
Proof.
  unfold set_unchecked. rewrite length_app. simpl. case_if; [|absurd_lia].
  f_equal. unfold zlen. rewrite Nat2Z.id.
  replace (length s) with (length s + 0)%nat by lia. by rewrite insert_app_r.
Qed.

(** Solve [get_unchecked (s ++ [..]) (zlen .. - k) = Val _]. *)
Ltac stack_idx :=
  repeat (erewrite get_unchecked_app; [|autorewrite with zlen; lia
    |autorewrite with zlen; match goal with |- ?l !! Z.to_nat ?e = Some _ =>
       let n := fresh "n" in
       first [replace e with 0 by lia | replace e with 1 by lia | replace e with 2 by lia
             | replace e with 3 by lia]; reflexivity end]; simpl);
  try (rewrite take_app_zlen by (autorewrite with zlen; lia)).

Lemma pop_unsafe_app (s : list Z) (a : Z) : Stack.pop_unsafe (s ++ [a]) = Val (a, s).
Proof. unfold Stack.pop_unsafe, Stack.len. stack_idx. done. Qed.

Lemma top_unsafe_app (s : list Z) (a : Z) : Stack.top_unsafe (s ++ [a]) = Val a.
Proof. unfold Stack.top_unsafe, Stack.len. stack_idx. done. Qed.

Lemma set_top_app (s : list Z) (a v : Z) : Stack.set_top (s ++ [a]) v = Val (s ++ [v]).
Proof.
  unfold Stack.set_top, Stack.len. autorewrite with zlen.
  replace (zlen s + (1 + 0) - 1) with (zlen s) by lia. apply set_unchecked_snoc.
Qed.

Lemma pop_top_unsafe_app (s : list Z) (b a : Z) :
  Stack.pop_top_unsafe (s ++ [b; a]) = Val (a, b, s ++ [b]).
Proof.
  unfold Stack.pop_top_unsafe, Stack.len. stack_idx.
  replace (s ++ [b; a]) with ((s ++ [b]) ++ [a]) by (by rewrite <- app_assoc).
  rewrite take_app_zlen by (autorewrite with zlen; lia). stack_idx. done.
Qed.

Lemma pop2_top_unsafe_app (s : list Z) (c b a : Z) :
  Stack.pop2_top_unsafe (s ++ [c; b; a]) = Val (a, b, c, s ++ [c]).
Proof.
  unfold Stack.pop2_top_unsafe, Stack.len. stack_idx.
  replace (s ++ [c; b; a]) with ((s ++ [c]) ++ [b; a]) by (by rewrite <- app_assoc).
  rewrite take_app_zlen by (autorewrite with zlen; lia). stack_idx. done.
Qed.

Lemma pop2_unsafe_app (s : list Z) (b a : Z) : Stack.pop2_unsafe (s ++ [b; a]) = Val (a, b, s).
Proof. unfold Stack.pop2_unsafe, Stack.len. stack_idx. done. Qed.

Lemma pop3_unsafe_app (s : list Z) (c b a : Z) :
  Stack.pop3_unsafe (s ++ [c; b; a]) = Val (a, b, c, s).
Proof. unfold Stack.pop3_unsafe, Stack.len. stack_idx. done. Qed.

Lemma pop4_unsafe_app (s : list Z) (d c b a : Z) :
  Stack.pop4_unsafe (s ++ [d; c; b; a]) = Val (a, b, c, d, s).
Proof. unfold Stack.pop4_unsafe, Stack.len. stack_idx. done. Qed.

(** ** [push_slice] assembles the big-endian number *)

Lemma from_be_split (k : nat) (sl : list Z) :
  from_be_bytes sl =
  from_be_bytes (take k sl) * 256 ^ (zlen (drop k sl)) + from_be_bytes (drop k sl).
Proof. rewrite <- (take_drop k sl) at 1. apply from_be_app. Qed.

Lemma dangling_spec (from : Z) (src : list Z) :
  0 <= from <= 8 -> zlen src = 8 - from -> Stack.dangling from src = Val (from_be_bytes src).
Proof.
  intros Hf Hs. unfold Stack.dangling. rewrite copy_from_slice_val; try lia; [|done].
  cbn [mbind rust_bind]. unfold Stack.u64_from_be_bytes.
  rewrite !take_replicate, !drop_replicate.
  replace (8 - Z.to_nat 8)%nat with 0%nat by lia. cbn [replicate]. rewrite app_nil_r.
  rewrite zlen_app, zlen_replicate. case_if; [|absurd_lia].
  by rewrite from_be_replicate0.
Qed.

Lemma limb_slice (sl : list Z) (a b : Z) :
  0 <= a -> b = a + 8 -> b <= zlen sl ->
  (slice sl a b ≫= Stack.u64_from_be_bytes) =
  Val (from_be_bytes (take 8 (drop (Z.to_nat a) sl))).
Proof.
  intros Ha -> Hb. rewrite slice_val by lia. cbn [mbind rust_bind].
  replace (Z.to_nat (a + 8 - a)) with 8%nat by lia.
  unfold Stack.u64_from_be_bytes. unfold zlen in *. rewrite length_take, length_drop.
  case_if; [done|absurd_lia].
Qed.

Lemma head_slice (sl : list Z) (b from : Z) :
  0 <= b <= zlen sl -> from = 8 - b -> 0 <= from ->
  (slice sl 0 b ≫= Stack.dangling from) = Val (from_be_bytes (take (Z.to_nat b) sl)).
Proof.
  intros Hb -> Hf. rewrite slice_val by lia. cbn [mbind rust_bind].
  rewrite Z.sub_0_r, Z2Nat.inj_0, drop_0. apply dangling_spec; [lia|].
  unfold zlen in *. rewrite length_take. lia.
Qed.

(** The last [8] bytes of the first [n + 8] peel off one limb. *)
Lemma from_be_peel (n : nat) (sl : list Z) : (n + 8 <= length sl)%nat ->
  from_be_bytes (take (n + 8) sl) =
  from_be_bytes (take 8 (drop n sl)) + 2 ^ 64 * from_be_bytes (take n sl).
Proof.
  intros Hn. rewrite (from_be_split n (take (n + 8) sl)).
  rewrite take_take, skipn_firstn_comm. replace (n `min` (n + 8))%nat with n by lia.
  replace (n + 8 - n)%nat with 8%nat by lia.
  replace (zlen (take 8 (drop n sl))) with 8
    by (unfold zlen; rewrite length_take, length_drop; lia).
  change (256 ^ 8) with (2 ^ 64). lia.
Qed.

Lemma slice_word_spec (N : Z) (sl : list Z) :
  1 <= N <= 32 -> zlen sl = N -> Stack.slice_word N sl = Val (from_be_bytes sl).
Proof.
  intros HN Hs. unfold Stack.slice_word, Stack.from_limbs.
  assert (Hall : from_be_bytes sl = from_be_bytes (take (Z.to_nat N) sl)).
  { rewrite take_ge; [done|rlia]. }
  assert (P : forall k, 0 <= k -> k + 8 <= N ->
    from_be_bytes (take (Z.to_nat (k + 8)) sl) =
    from_be_bytes (take 8 (drop (Z.to_nat k) sl))
    + 2 ^ 64 * from_be_bytes (take (Z.to_nat k) sl)).
  { intros k Hk Hk8. replace (Z.to_nat (k + 8)) with (Z.to_nat k + 8)%nat by lia.
    apply from_be_peel. rlia. }
  assert (Hz : from_be_bytes (take (Z.to_nat 0) sl) = 0) by done.
  assert (P1 := P (N - 8)). assert (P2 := P (N - 16)). assert (P3 := P (N - 24)).
  replace (N - 8 + 8) with N in P1 by lia. replace (N - 16 + 8) with (N - 8) in P2 by lia.
  replace (N - 24 + 8) with (N - 16) in P3 by lia. rewrite Hall.
  case_if; [rewrite dangling_spec by lia; simpl; f_equal; rewrite <- Hall; lia|].
  rewrite (limb_slice sl (N - 8) N) by lia. cbn [mbind rust_bind].
  case_if.
  { case_if; [f_equal; rewrite P1 by lia;
      replace (Z.to_nat (N - 8)) with (Z.to_nat 0) by lia; rewrite Hz; lia|].
    rewrite (head_slice sl (N - 8)) by lia. cbn [mbind rust_bind]. f_equal.
    rewrite P1 by lia. lia. }
  rewrite (limb_slice sl (N - 16) (N - 8)) by lia. cbn [mbind rust_bind].
  case_if.
  { case_if; [f_equal; rewrite P1, P2 by lia;
      replace (Z.to_nat (N - 16)) with (Z.to_nat 0) by lia; rewrite Hz; lia|].
    rewrite (head_slice sl (N - 16)) by lia. cbn [mbind rust_bind]. f_equal.
    rewrite P1, P2 by lia. lia. }
  rewrite (limb_slice sl (N - 24) (N - 16)) by lia. cbn [mbind rust_bind].
  case_if.
  { rewrite (limb_slice sl 0 (N - 24)) by lia. cbn [mbind rust_bind]. f_equal.
    rewrite P1, P2, P3 by lia. rewrite Z2Nat.inj_0, drop_0.
    replace (Z.to_nat (N - 24)) with 8%nat by lia. lia. }
  case_if; [f_equal; rewrite P1, P2, P3 by lia;
      replace (Z.to_nat (N - 24)) with (Z.to_nat 0) by lia; rewrite Hz; lia|].
  rewrite (head_slice sl (N - 24)) by lia. cbn [mbind rust_bind]. f_equal.
  rewrite P1, P2, P3 by lia. lia.
Qed.

Lemma push_slice_spec (N : Z) (s sl : list Z) :
  1 <= N <= 32 -> zlen sl = N ->
  Stack.push_slice N s sl =
  if 1024 <=? zlen s then Val (s, Some StackOverflow)
  else Val (s ++ [from_be_bytes sl], None).
Proof.
  intros HN Hs. unfold Stack.push_slice, Stack.STACK_LIMIT, Stack.len.
  replace (1024 <? zlen s + 1) with (1024 <=? zlen s) by lia.
  case_if; [done|]. by rewrite slice_word_spec.
Qed.

Lemma push_spec (s : list Z) (v : Z) :
  Stack.push s v = if 1024 <=? zlen s then (s, inr StackOverflow) else (s ++ [v], inl tt).
Proof.
  unfold Stack.push, Stack.STACK_LIMIT, Stack.len.
  by replace (1024 <? zlen s + 1) with (1024 <=? zlen s) by lia.
Qed.

Lemma reduce_one_app (s : list Z) (a : Z) : Stack.reduce_one (s ++ [a]) = (s, None).
Proof.
  unfold Stack.reduce_one, Stack.len. autorewrite with zlen.
  pose proof (zlen_nonneg s). case_if; [lia|].
  by rewrite take_app_zlen by lia.
Qed.

Lemma dup_spec (N : Z) (s : list Z) : 1 <= N ->
  if zlen s <? N then Stack.dup N s = Val (s, Some StackUnderflow)
  else if 1024 <=? zlen s then Stack.dup N s = Val (s, Some StackOverflow)
  else exists v, s !! (length s - Z.to_nat N)%nat = Some v /\
                 Stack.dup N s = Val (s ++ [v], None).
Proof.
  intros HN. unfold Stack.dup, Stack.STACK_LIMIT, Stack.len.
  replace (1024 <? zlen s + 1) with (1024 <=? zlen s) by lia.
  repeat case_if; try done.
  destruct (lookup_lt_is_Some_2 s (length s - Z.to_nat N)) as [v Hv]; [rlia|].
  exists v. split; [done|]. erewrite get_unchecked_val; [done|lia|].
  rewrite <- Hv. f_equal. rlia.
Qed.

Lemma set_unchecked_val (s : list Z) (i v : Z) :
  0 <= i < zlen s -> set_unchecked s i v = Val (<[Z.to_nat i := v]> s).
Proof. intros. unfold set_unchecked. unfold zlen in *. case_if; [done|absurd_lia]. Qed.

Lemma swap_spec (N : Z) (s : list Z) : 1 <= N ->
  if zlen s <=? N then Stack.swap N s = Val (s, Some StackUnderflow)
  else exists a b,
    s !! (length s - 1)%nat = Some a /\ s !! (length s - 1 - Z.to_nat N)%nat = Some b /\
    Stack.swap N s =
    Val (<[(length s - 1 - Z.to_nat N)%nat := a]> (<[(length s - 1)%nat := b]> s), None).
Proof.
  intros HN. unfold Stack.swap, Stack.len. case_if; [done|].
  destruct (lookup_lt_is_Some_2 s (length s - 1)) as [a Ha]; [rlia|].
  destruct (lookup_lt_is_Some_2 s (length s - 1 - Z.to_nat N)) as [b Hb]; [rlia|].
  exists a, b. split; [done|]. split; [done|].
  replace (Z.to_nat (zlen s - 1)) with (length s - 1)%nat by rlia.
  rewrite (get_unchecked_val s (zlen s - 1) a) by (rlia || (rewrite <- Ha; f_equal; rlia)).
  simpl. rewrite (get_unchecked_val s (zlen s - 1 - N) b)
    by (rlia || (rewrite <- Hb; f_equal; rlia)).
  simpl. rewrite set_unchecked_val by rlia. simpl.
  rewrite set_unchecked_val by (unfold zlen; rewrite length_insert; rlia). simpl.
  do 3 f_equal; [rlia|]. f_equal. rlia.
Qed.

(** [PUSHn] pushes its operand.  The word that [push_slice] assembles
    limb by limb, with its four size classes and their dangling bytes, is
    the big-endian number its [N] bytes denote; no slice conversion panics;
    a full stack is refused and left unchanged. *)
Theorem push_slice_big_endian (N : Z) (s sl : list Z) :
  1 <= N <= 32 -> zlen sl = N -> Forall is_u8 sl -> stack_wf s ->
  Stack.push_slice N s sl =
    (if 1024 <=? zlen s then Val (s, Some StackOverflow)
     else Val (s ++ [from_be_bytes sl], None)) /\
  (zlen s < 1024 -> stack_wf (s ++ [from_be_bytes sl])).
Proof.
  intros HN Hs Hb Hw. split; [by apply push_slice_spec|]. intros Hl.
  apply stack_wf_snoc; [done..|]. pose proof (from_be_range sl Hb) as Hr.
  assert (256 ^ zlen sl <= 256 ^ 32) by (apply Z.pow_le_mono_r; lia). rlia.
Qed.

Lemma push_slice_big_endian_witness :
  Stack.push_slice 9 [7] [1; 2; 3; 4; 5; 6; 7; 8; 9] = Val ([7; 0x010203040506070809], None)
  /\ (zlen [7] < 1024 -> stack_wf ([7] ++ [from_be_bytes [1; 2; 3; 4; 5; 6; 7; 8; 9]])).
Proof.
  apply (push_slice_big_endian 9 [7] [1; 2; 3; 4; 5; 6; 7; 8; 9]);
    [lia|reflexivity|repeat constructor; vm_compute; congruence|].
  split; [vm_compute; congruence|repeat constructor; vm_compute; congruence].
Defined.

(** [DUPn] and [SWAPn] behave as on an abstract stack: the [n]-th word
    from the top is copied on top, or exchanged with it while every other
    word keeps its place; too short a stack is an underflow, a full one an
    overflow, both with the stack unchanged; no unchecked access is out of
    bounds. *)
Theorem dup_swap_correct (N : Z) (s : list Z) : 1 <= N ->
  wp False (Stack.dup N s) (fun '(s', r) =>
    (zlen s < N -> s' = s /\ r = Some StackUnderflow) /\
    (N <= zlen s -> 1024 <= zlen s -> s' = s /\ r = Some StackOverflow) /\
    (N <= zlen s < 1024 -> r = None /\
       exists v, s !! (length s - Z.to_nat N)%nat = Some v /\ s' = s ++ [v])) /\
  wp False (Stack.swap N s) (fun '(s', r) =>
    (zlen s <= N -> s' = s /\ r = Some StackUnderflow) /\
    (N < zlen s -> r = None /\ length s' = length s /\
       forall i, s' !! i =
         if decide (i = (length s - 1)%nat) then s !! (length s - 1 - Z.to_nat N)%nat
         else if decide (i = (length s - 1 - Z.to_nat N)%nat) then s !! (length s - 1)%nat
         else s !! i)).
Proof.
  intros HN. pose proof (dup_spec N s HN) as Hd. pose proof (swap_spec N s HN) as Hs.
  split.
  - repeat case_if_in Hd; [rewrite Hd; simpl; repeat split; lia..|].
    destruct Hd as (v & Hv & ->). simpl. repeat split; try lia. eauto.
  - case_if_in Hs; [rewrite Hs; simpl; repeat split; lia|].
    destruct Hs as (a & b & Ha & Hb & ->). simpl. split; [lia|]. intros _.
    rewrite !length_insert. split; [done|]. split; [done|]. intros i.
    rewrite list_lookup_insert, list_lookup_insert, length_insert.
    repeat case_decide; subst; try congruence; rlia.
Qed.

Lemma dup_swap_correct_witness :
  wp False (Stack.dup 2 [10; 20; 30]) (fun '(s', r) => s' = [10; 20; 30; 20] /\ r = None) /\
  wp False (Stack.swap 2 [10; 20; 30]) (fun '(s', r) => s' = [30; 20; 10] /\ r = None).
Proof.
  destruct (dup_swap_correct 2 [10; 20; 30] ltac:(lia)) as [H1 H2].
  split; [exact (conj eq_refl eq_refl) | exact (conj eq_refl eq_refl)].
Defined.
