(* ===== verification/EvmMemory.v ===== *)
(** * The EVM memory: [interpreter/src/interpreter/memory.rs]

    A memory is the [Vec<u8>] of the code.  Slice indexing panics out of
    bounds, as in Rust; the theorems show what each operation does in
    bounds, which is where the interpreter calls it. *)

From stdpp Require Import base option list.
From Stdlib Require Import ZArith Lia.
From S2P Require Import Prelude Primitives.

Module Memory.

Definition new : list Z := [].
Definition effective_len (m : list Z) : Z := zlen m.
Definition len (m : list Z) : Z := zlen m.
Definition is_empty (m : list Z) : bool := len m =? 0.

Definition resize (m : list Z) (new_size : Z) : rust (list Z) := vec_resize m new_size 0.

Definition get_slice (m : list Z) (offset size : Z) : rust (list Z) :=
  slice m offset (wrap64 (offset + size)).

Definition set_byte (m : list Z) (index byte : Z) : rust (list Z) :=
  match m !! Z.to_nat index with
  | Some _ => Val (<[Z.to_nat index := byte]> m)
  | None => Panic
  end.

Definition set_u256 (m : list Z) (index value : Z) : rust (list Z) :=
  copy_from_slice m index (wrap64 (index + 32)) (to_be_bytes 32 value).

Definition set (m : list Z) (offset : Z) (value : list Z) : rust (list Z) :=
  if negb (zlen value =? 0)
  then copy_from_slice m offset (wrap64 (zlen value + offset)) value
  else Val m.

(** [for i in &mut self.data[from..to] { *i = 0; }] *)
Definition zero_range (m : list Z) (from to : Z) : rust (list Z) :=
  copy_from_slice m from to (replicate (Z.to_nat (to - from)) 0).

Definition set_data (m : list Z) (memory_offset data_offset len : Z) (data : list Z) :
  rust (list Z) :=
  if zlen data <=? data_offset then
    zero_range m memory_offset (wrap64 (memory_offset + len))
  else
    let data_end := Z.min (wrap64 (data_offset + len)) (zlen data) in
    let memory_data_end := wrap64 (memory_offset + wrap64 (data_end - data_offset)) in
    src ← slice data data_offset data_end;
    m ← copy_from_slice m memory_offset memory_data_end src;
    zero_range m memory_data_end (wrap64 (memory_offset + len)).

Definition u64_not (x : Z) : Z := u64_max - x.

Definition next_multiple_of_32 (x : Z) : option Z :=
  let r := Z.land (wrap64 (u64_not (Z.land x 31) + 1)) 31 in
  u64_checked_add x r.

End Memory.

(** ** Well-formed memories *)

Definition mem_wf (m : list Z) : Prop := Forall is_u8 m /\ zlen m <= isize_max.

Lemma splice_wf (m src : list Z) (a b : nat) :
  (a <= b <= length m)%nat -> (b - a = length src)%nat -> Forall is_u8 src ->
  mem_wf m -> mem_wf (take a m ++ src ++ drop b m).
Proof.
  intros Hab Hs Hsrc [Hm Hl]. split.
  - apply Forall_app. split; [by apply Forall_take|].
    apply Forall_app. split; [done|]. by apply Forall_drop.
  - unfold zlen. rewrite splice_length by done. done.
Qed.

Lemma zero_range_spec (m : list Z) (a b : Z) : 0 <= a <= b -> b <= zlen m ->
  Memory.zero_range m a b =
  Val (take (Z.to_nat a) m ++ replicate (Z.to_nat (b - a)) 0 ++ drop (Z.to_nat b) m).
Proof.
  intros. unfold Memory.zero_range. apply copy_from_slice_val; [done..|].
  rewrite zlen_replicate. lia.
Qed.

Lemma Forall_zero (n : nat) : Forall is_u8 (replicate n 0).
Proof. apply Forall_replicate. rlia. Qed.

(** What [set_data] leaves at byte [i]: the source, padded with zeros, in
    the target range, and the old byte elsewhere. *)
Definition copied (m : list Z) (mo dof len : Z) (data : list Z) (i : nat) : option Z :=
  if decide (mo <= Z.of_nat i < mo + len)
  then Some (default 0 (data !! Z.to_nat (dof + (Z.of_nat i - mo))))
  else m !! i.

Lemma set_data_zero (m data : list Z) (mo dof len : Z) :
  mem_wf m -> 0 <= mo -> 0 <= len -> mo + len <= zlen m -> zlen data <= dof ->
  exists m', Memory.set_data m mo dof len data = Val m' /\ mem_wf m' /\
    zlen m' = zlen m /\ forall i, m' !! i = copied m mo dof len data i.
Proof.
  intros Hm Hmo Hlen Hb Hd. pose proof Hm as [Hu Hl].
  unfold Memory.set_data. replace (zlen data <=? dof) with true by lia.
  rewrite wrap64_id by rlia. rewrite zero_range_spec by lia. eexists; split; [done|].
  split; [apply splice_wf; rewrite ?length_replicate; try rlia; [apply Forall_zero|done]|].
  split; [unfold zlen; rewrite splice_length; rewrite ?length_replicate; rlia|].
  intros i. rewrite splice_lookup by (rewrite ?length_replicate; rlia). unfold copied.
  repeat case_decide; try lia; [|done].
  rewrite lookup_replicate_2 by rlia. rewrite lookup_ge_None_2 by rlia. done.
Qed.

Lemma set_data_copy (m data : list Z) (mo dof len : Z) :
  mem_wf m -> Forall is_u8 data -> zlen data <= isize_max ->
  0 <= mo -> 0 <= dof < zlen data -> 0 <= len -> mo + len <= zlen m ->
  exists m', Memory.set_data m mo dof len data = Val m' /\ mem_wf m' /\
    zlen m' = zlen m /\ forall i, m' !! i = copied m mo dof len data i.
Proof.
  intros Hm Hdu Hdl Hmo Hd Hlen Hb. pose proof Hm as [Hu Hl].
  unfold Memory.set_data. replace (zlen data <=? dof) with false by lia.
  rewrite (wrap64_id (dof + len)), (wrap64_id (mo + len)) by rlia.
  set (de := Z.min (dof + len) (zlen data)).
  assert (dof <= de <= zlen data /\ de - dof <= len) by lia.
  rewrite (wrap64_id (de - dof)), (wrap64_id (mo + (de - dof))) by rlia.
  rewrite slice_val by lia. cbn [mbind rust_bind].
  set (src := take _ (drop _ data)).
  assert (Hsrc : length src = Z.to_nat (de - dof)).
  { unfold src. rewrite length_take, length_drop. rlia. }
  rewrite copy_from_slice_val by (unfold zlen in *; lia). cbn [mbind rust_bind].
  set (m1 := take _ m ++ src ++ _).
  assert (Hm1 : mem_wf m1 /\ zlen m1 = zlen m).
  { split; [apply splice_wf; try rlia; [by apply Forall_take, Forall_drop|done]|].
    unfold zlen, m1. rewrite splice_length; rlia. }
  destruct Hm1 as [Hw1 Hl1]. rewrite zero_range_spec by lia. eexists; split; [done|].
  split; [apply splice_wf; rewrite ?length_replicate; try rlia; [apply Forall_zero|done]|].
  split; [rewrite <- Hl1; unfold zlen; rewrite splice_length; rewrite ?length_replicate; rlia|].
  intros i. rewrite splice_lookup by (rewrite ?length_replicate; rlia).
  unfold m1. rewrite splice_lookup by rlia. unfold copied.
  repeat case_decide; try lia; try done.
  - rewrite lookup_replicate_2 by rlia. rewrite lookup_ge_None_2 by rlia. done.
  - unfold src. rewrite lookup_take, decide_True by rlia. rewrite lookup_drop.
    destruct (lookup_lt_is_Some_2 data (Z.to_nat (dof + (Z.of_nat i - mo)))) as [v Hv]; [rlia|].
    rewrite Hv. cbn [default from_option id]. rewrite <- Hv. f_equal. rlia.
Qed.

Lemma set_data_spec (m data : list Z) (mo dof len : Z) :
  mem_wf m -> Forall is_u8 data -> zlen data <= isize_max ->
  0 <= mo -> 0 <= dof -> 0 <= len -> mo + len <= zlen m ->
  exists m', Memory.set_data m mo dof len data = Val m' /\ mem_wf m' /\
    zlen m' = zlen m /\ forall i, m' !! i = copied m mo dof len data i.
Proof.
  intros. destruct (decide (zlen data <= dof)).
  - by apply set_data_zero.
  - apply set_data_copy; try done. lia.
Qed.

Lemma get_slice_spec (m : list Z) (o n : Z) :
  mem_wf m -> 0 <= o -> 0 <= n -> o + n <= zlen m ->
  exists l, Memory.get_slice m o n = Val l /\ zlen l = n /\ Forall is_u8 l.
Proof.
  intros [Hu Hl] Ho Hn Hb. unfold Memory.get_slice. rewrite wrap64_id by rlia.
  rewrite slice_val by lia. eexists; split; [done|]. split.
  - unfold zlen. rewrite length_take, length_drop. rlia.
  - by apply Forall_take, Forall_drop.
Qed.

Lemma set_spec (m v : list Z) (o : Z) :
  mem_wf m -> Forall is_u8 v -> 0 <= o -> o + zlen v <= zlen m ->
  exists m', Memory.set m o v = Val m' /\ mem_wf m' /\ zlen m' = zlen m.
Proof.
  intros Hm Hv Ho Hb. pose proof Hm as [Hu Hl]. pose proof (zlen_nonneg v).
  unfold Memory.set. case_if; [|by eexists].
  rewrite wrap64_id by rlia. rewrite copy_from_slice_val by lia. eexists; split; [done|].
  split; [apply splice_wf; try rlia; done|]. unfold zlen. rewrite splice_length; rlia.
Qed.

Lemma set_u256_spec (m : list Z) (i v : Z) :
  mem_wf m -> 0 <= i -> i + 32 <= zlen m ->
  exists m', Memory.set_u256 m i v = Val m' /\ mem_wf m' /\ zlen m' = zlen m /\
    Memory.get_slice m' i 32 = Val (to_be_bytes 32 v) /\
    forall j, Z.of_nat j < i \/ i + 32 <= Z.of_nat j -> m' !! j = m !! j.
Proof.
  intros Hm Hi Hb. pose proof Hm as [Hu Hl]. unfold Memory.set_u256, Memory.get_slice.
  rewrite wrap64_id by rlia.
  rewrite copy_from_slice_val by (rewrite ?zlen_to_be; lia).
  eexists; split; [done|].
  split; [apply splice_wf; rewrite ?length_to_be; try rlia; [apply to_be_u8|done]|].
  split; [unfold zlen; rewrite splice_length; rewrite ?length_to_be; rlia|].
  split; [apply slice_splice; rewrite ?zlen_to_be; lia|].
  intros j Hj. rewrite splice_lookup by (rewrite ?length_to_be; rlia).
  by rewrite decide_False by lia.
Qed.

Lemma set_byte_spec (m : list Z) (i b : Z) :
  mem_wf m -> is_u8 b -> 0 <= i < zlen m ->
  exists m', Memory.set_byte m i b = Val m' /\ mem_wf m' /\ zlen m' = zlen m.
Proof.
  intros [Hu Hl] Hb Hi. unfold Memory.set_byte.
  destruct (lookup_lt_is_Some_2 m (Z.to_nat i)) as [x Hx]; [rlia|]. rewrite Hx.
  eexists; split; [done|]. unfold mem_wf, zlen. rewrite length_insert.
  split; [|done]. split; [by apply Forall_insert|done].
Qed.

Lemma resize_spec (m : list Z) (n : Z) :
  mem_wf m -> zlen m <= n <= isize_max ->
  exists m', Memory.resize m n = Val m' /\ mem_wf m' /\ zlen m' = n /\
    forall i, Z.of_nat i < n -> m' !! i = Some (default 0 (m !! i)).
Proof.
  intros [Hu Hl] Hn. unfold Memory.resize, vec_resize.
  replace (n <=? _) with true by lia. eexists; split; [done|]. pose proof (zlen_nonneg m).
  repeat split.
  - apply Forall_resize; [rlia|done].
  - unfold zlen. rewrite length_resize. lia.
  - unfold zlen. rewrite length_resize. lia.
  - intros i Hi. apply resize_lookup; rlia.
Qed.

(** The least multiple of 32 that is at least [x]. *)
Definition ceil32 (x : Z) : Z := 32 * ((x + 31) / 32).

Lemma next_multiple_spec (x : Z) : is_u64 x ->
  Memory.next_multiple_of_32 x = if ceil32 x <? u64_modulus then Some (ceil32 x) else None.
Proof.
  intros Hx. unfold Memory.next_multiple_of_32, Memory.u64_not, u64_checked_add.
  change 31 with (Z.ones 5). rewrite !Z.land_ones by lia. change (2 ^ 5) with 32.
  assert (Hr : wrap64 (u64_max - x mod 32 + 1) mod 32 = (- x) mod 32).
  { unfold wrap64. rewrite Z.mod_mod_divide by (by exists 576460752303423488).
    replace (u64_max - x mod 32 + 1) with (- (x mod 32) + 576460752303423488 * 32) by lia.
    rewrite Z.mod_add by lia. zlia. }
  rewrite Hr. unfold ceil32. change (Z.ones 5) with 31.
  replace (x + (- x) mod 32) with (32 * ((x + 31) / 32)) by zlia. done.
Qed.

(** [MSTORE] then [MLOAD] at the same offset gives the word back, and
    no byte outside the 32 written ones changes; both are in bounds exactly
    because the memory was resized first. *)
Theorem memory_word_roundtrip (m : list Z) (i v : Z) :
  mem_wf m -> 0 <= i -> i + 32 <= zlen m -> is_u256 v ->
  exists m', Memory.set_u256 m i v = Val m' /\ mem_wf m' /\ zlen m' = zlen m /\
    from_be_bytes <$> Memory.get_slice m' i 32 = Val v /\
    forall j, Z.of_nat j < i \/ i + 32 <= Z.of_nat j -> m' !! j = m !! j.
Proof.
  intros Hm Hi Hb Hv. destruct (set_u256_spec m i v Hm Hi Hb) as (m' & H1 & H2 & H3 & H4 & H5).
  exists m'. rewrite H4. cbn [fmap rust_map]. rewrite from_to_be.
  change (256 ^ Z.of_nat 32) with u256_modulus. rewrite Z.mod_small by done. eauto.
Qed.

Lemma memory_word_roundtrip_witness :
  exists m', Memory.set_u256 (replicate 64 1) 16 0xabcdef = Val m' /\ mem_wf m' /\
    zlen m' = zlen (replicate 64 1) /\
    from_be_bytes <$> Memory.get_slice m' 16 32 = Val 0xabcdef /\
    forall j, Z.of_nat j < 16 \/ 16 + 32 <= Z.of_nat j -> m' !! j = replicate 64 1 !! j.
Proof.
  apply (memory_word_roundtrip (replicate 64 1) 16 0xabcdef);
    [split; [apply Forall_replicate; rlia|vm_compute; congruence]|lia|vm_compute; congruence|rlia].
Defined.

(** The copy opcodes' [set_data] writes exactly the requested range:
    byte [mo + k] receives byte [dof + k] of the source, or zero past its
    end, all other bytes and the length are unchanged, and no slice operation
    panics, for every source offset including those past the end. *)
Theorem set_data_pads_with_zeros (m data : list Z) (mo dof len : Z) :
  mem_wf m -> Forall is_u8 data -> zlen data <= isize_max ->
  0 <= mo -> 0 <= dof -> 0 <= len -> mo + len <= zlen m ->
  exists m', Memory.set_data m mo dof len data = Val m' /\ mem_wf m' /\ zlen m' = zlen m /\
    (forall k, 0 <= k < len -> m' !! Z.to_nat (mo + k) =
       Some (default 0 (data !! Z.to_nat (dof + k)))) /\
    (forall i, Z.of_nat i < mo \/ mo + len <= Z.of_nat i -> m' !! i = m !! i).
Proof.
  intros Hm Hd Hdl Hmo Hdof Hlen Hb.
  destruct (set_data_spec m data mo dof len Hm Hd Hdl Hmo Hdof Hlen Hb)
    as (m' & H1 & H2 & H3 & H4).
  exists m'. do 3 (split; [done|]). split; [intros k Hk|intros i Hi]; rewrite H4; unfold copied.
  - rewrite decide_True by lia. do 4 f_equal. lia.
  - by rewrite decide_False by lia.
Qed.

Lemma set_data_pads_with_zeros_witness :
  exists m', Memory.set_data (replicate 32 9) 4 1 3 [5; 6] = Val m' /\ mem_wf m' /\
    zlen m' = zlen (replicate 32 9) /\
    (forall k, 0 <= k < 3 -> m' !! Z.to_nat (4 + k) =
       Some (default 0 ([5; 6] !! Z.to_nat (1 + k)))) /\
    (forall i, Z.of_nat i < 4 \/ 4 + 3 <= Z.of_nat i -> m' !! i = replicate 32 9 !! i).
Proof.
  apply (set_data_pads_with_zeros (replicate 32 9) [5; 6] 4 1 3);
    [split; [apply Forall_replicate; rlia|vm_compute; congruence]
    |repeat constructor; vm_compute; congruence|vm_compute; congruence|lia..|vm_compute; congruence].
Defined.
