(* ===== verification/I256.v ===== *)
(** * Signed and bit-level word operations

    [instructions/i256.rs] and the word computations of
    [instructions/arithmetic.rs] and [instructions/bitwise.rs]: signed
    division, remainder and comparison on two's complement words, arithmetic
    shift, sign extension, byte extraction, modular arithmetic and power.
    The theorems relate each to integer arithmetic on the numbers the words
    denote. *)

From stdpp Require Import base option list.
From Stdlib Require Import ZArith Lia Zpow_facts.
From S2P Require Import Prelude.

(** ** i256.rs *)

Inductive Sign := Plus | Minus | Zero.
#[export] Instance Sign_eq_dec : EqDecision Sign.
Proof. solve_decision. Defined.

Definition MIN_NEGATIVE_VALUE : Z := i256_bound.
Definition FLIPH_BITMASK_U64 : Z := 0x7FFFFFFFFFFFFFFF.

Definition two_compl (op : Z) : Z := wrap256 (- op).

(** Returns the sign and the value of [val] afterwards. *)
Definition i256_sign (DO_TWO_COMPL : bool) (val : Z) : Sign * Z :=
  if negb (Z.testbit val 255) then
    if val =? 0 then (Zero, val) else (Plus, val)
  else (Minus, if DO_TWO_COMPL then two_compl val else val).

(** Clears the top bit by masking the highest limb. *)
Definition u256_remove_sign (val : Z) : Z :=
  limb val 0 + 2 ^ 64 * limb val 1 + 2 ^ 128 * limb val 2
    + 2 ^ 192 * Z.land (limb val 3) FLIPH_BITMASK_U64.

Definition i256_cmp (first second : Z) : comparison :=
  let '(first_sign, first) := i256_sign false first in
  let '(second_sign, second) := i256_sign false second in
  match first_sign, second_sign with
  | Zero, Zero => Eq
  | Zero, Plus => Lt
  | Zero, Minus => Gt
  | Minus, Zero => Lt
  | Minus, Plus => Lt
  | Minus, Minus => first ?= second
  | Plus, Minus => Gt
  | Plus, Zero => Gt
  | Plus, Plus => first ?= second
  end.

(** [U256] division panics on a zero divisor. *)
Definition u256_div_rem (a b : Z) : rust (Z * Z) :=
  if b =? 0 then Panic else Val (a / b, a mod b).

Definition i256_div (first second : Z) : rust Z :=
  let '(second_sign, second) := i256_sign true second in
  if decide (second_sign = Zero) then Val 0
  else
    let '(first_sign, first) := i256_sign true first in
    if bool_decide (first_sign = Minus) && (first =? MIN_NEGATIVE_VALUE) && (second =? 1)
    then Val (two_compl MIN_NEGATIVE_VALUE)
    else
      '(q, _) ← u256_div_rem first second;
      let d := u256_remove_sign q in
      if d =? 0 then Val 0
      else
        match first_sign, second_sign with
        | Zero, Plus | Plus, Zero | Zero, Zero | Plus, Plus | Minus, Minus => Val d
        | Zero, Minus | Plus, Minus | Minus, Zero | Minus, Plus => Val (two_compl d)
        end.

Definition i256_mod (first second : Z) : rust Z :=
  let '(first_sign, first) := i256_sign true first in
  if decide (first_sign = Zero) then Val 0
  else
    let '(_, second) := i256_sign true second in
    '(_, r) ← u256_div_rem first second;
    let r := u256_remove_sign r in
    if r =? 0 then Val 0
    else if decide (first_sign = Minus) then Val (two_compl r) else Val r.

(** ** Word computations of arithmetic.rs and bitwise.rs *)

(** [add_mod] and [mul_mod] are zero for a zero modulus. *)
Definition u256_add_mod (a b m : Z) : Z := if m =? 0 then 0 else (a + b) mod m.
Definition u256_mul_mod (a b m : Z) : Z := if m =? 0 then 0 else (a * b) mod m.

(** Wrapping exponentiation. *)
Definition u256_pow (a e : Z) : Z := Zpow_mod a e u256_modulus.

(** [as_u64_saturated!] and [as_usize_saturated!]. *)
Definition as_u64_saturated (v : Z) : Z :=
  if negb (limb v 1 =? 0) || negb (limb v 2 =? 0) || negb (limb v 3 =? 0) then u64_max
  else limb v 0.

Definition signextend_word (op1 op2 : Z) : Z :=
  if op1 <? 32 then
    let bit_index := 8 * limb op1 0 + 7 in
    let bit := Z.testbit op2 bit_index in
    let mask := wrap256 (u256_shl 1 bit_index - 1) in
    if bit then Z.lor op2 (u256_not mask) else Z.land op2 mask
  else op2.

(** The loop of [byte]: bit [i] of the result is bit [t] of the word. *)
Definition byte_step (op1 op2 ret : Z) (i : Z) : Z :=
  if (i <? 8) && (op1 <? 32) then
    let o := as_u64_saturated op1 in
    let t := 255 - (7 - i + 8 * o) in
    let bit_mask := u256_shl 1 t in
    let value := u256_shr (Z.land op2 bit_mask) t in
    wrap256 (ret + u256_shl value i)
  else ret.
Definition byte_word (op1 op2 : Z) : Z := foldl (byte_step op1 op2) 0 (seqZ 0 256).

Definition sar_word (op1 op2 : Z) : rust Z :=
  let '(value_sign, op2) := i256_sign true op2 in
  if (op2 =? 0) || (256 <=? op1) then
    match value_sign with
    | Plus | Zero => Val 0
    | Minus => Val (two_compl 1)
    end
  else
    shift ← (if op1 <? u64_modulus then Val op1 else Panic);
    match value_sign with
    | Plus | Zero => Val (u256_shr op2 shift)
    | Minus =>
        let shifted := wrap256 (u256_shr (wrap256 (op2 - 1)) shift + 1) in
        Val (two_compl shifted)
    end.

(** ** The integers words denote *)

Definition to_signed (x : Z) : Z := if x <? i256_bound then x else x - u256_modulus.

Lemma to_signed_range (x : Z) : is_u256 x -> - i256_bound <= to_signed x < i256_bound.
Proof. unfold to_signed. intros. case_if; rlia. Qed.

Lemma wrap_to_signed (x : Z) : is_u256 x -> wrap256 (to_signed x) = x.
Proof.
  intros Hx. unfold to_signed, wrap256. case_if.
  - apply Z.mod_small. rlia.
  - replace (x - u256_modulus) with (x + (-1) * u256_modulus) by lia.
    rewrite Z.mod_add by lia. apply Z.mod_small. rlia.
Qed.

Lemma wrap256_neg (x : Z) : 0 < x < u256_modulus -> wrap256 (- x) = u256_modulus - x.
Proof.
  intros. unfold wrap256. replace (- x) with (u256_modulus - x + (-1) * u256_modulus) by lia.
  rewrite Z.mod_add by lia. apply Z.mod_small. lia.
Qed.

Lemma testbit_255 (x : Z) : is_u256 x -> Z.testbit x 255 = (i256_bound <=? x).
Proof.
  intros Hx. rewrite Z.testbit_eqb by lia. change (2 ^ 255) with i256_bound.
  destruct (Z.leb_spec i256_bound x).
  - replace (x / i256_bound) with 1; [done|]. apply Z.div_unique with (x - i256_bound); rlia.
  - by rewrite Z.div_small by rlia.
Qed.

Lemma i256_sign_spec (x : Z) : is_u256 x ->
  i256_sign true x =
  (if to_signed x =? 0 then Zero else if to_signed x <? 0 then Minus else Plus,
   Z.abs (to_signed x)).
Proof.
  intros Hx. unfold i256_sign, to_signed, two_compl. rewrite testbit_255 by done.
  rewrite Z.ltb_antisym. destruct (Z.leb_spec i256_bound x); simpl.
  - rewrite wrap256_neg by rlia. repeat case_if; try rlia. f_equal. rlia.
  - repeat case_if; try rlia; f_equal; rlia.
Qed.

Lemma remove_sign_spec (x : Z) : is_u256 x -> u256_remove_sign x = x mod i256_bound.
Proof.
  intros Hx. unfold u256_remove_sign, FLIPH_BITMASK_U64.
  change 0x7FFFFFFFFFFFFFFF with (Z.ones 63). rewrite Z.land_ones by lia.
  pose proof (limbs_combine x Hx) as Hc.
  assert (Hl : forall i, 0 <= limb x i < 2 ^ 64).
  { intros i. unfold limb. apply Z.mod_pos_bound. lia. }
  pose proof (Hl 0); pose proof (Hl 1); pose proof (Hl 2); pose proof (Hl 3).
  apply Z.mod_unique with (limb x 3 / 2 ^ 63).
  - left. pose proof (Z.mod_pos_bound (limb x 3) (2 ^ 63)). lia.
  - rewrite Hc at 1. rewrite (Z.div_mod (limb x 3) (2 ^ 63)) at 1 by lia. lia.
Qed.

Lemma u256_div_rem_val (a b : Z) : b <> 0 -> u256_div_rem a b = Val (a / b, a mod b).
Proof. intros. unfold u256_div_rem. case_if; [done|done]. Qed.

Lemma to_signed_zero (x : Z) : is_u256 x -> to_signed x = 0 <-> x = 0.
Proof. intros. unfold to_signed. case_if; rlia. Qed.

(** [SDIV] is truncated division of the signed numbers, reduced to a
    word; division by zero gives zero and the one overflowing quotient,
    [MIN / -1], wraps to [MIN].  The unsigned division never panics. *)
Lemma i256_div_spec (a b : Z) : is_u256 a -> is_u256 b ->
  i256_div a b = Val (if b =? 0 then 0 else wrap256 (Z.quot (to_signed a) (to_signed b))).
Proof.
  intros Ha Hb. unfold i256_div, two_compl, MIN_NEGATIVE_VALUE.
  rewrite (i256_sign_spec b Hb). pose proof (to_signed_zero b Hb) as Hbz.
  pose proof (to_signed_range a Ha). pose proof (to_signed_range b Hb).
  rewrite (i256_sign_spec a Ha).
  set (x := to_signed a) in *. set (y := to_signed b) in *. clearbody x y.
  destruct (Z.eqb_spec b 0) as [->|Hb0].
  { rewrite (proj2 Hbz eq_refl). done. }
  assert (Hy : y <> 0) by tauto. rewrite (proj2 (Z.eqb_neq y 0) Hy).
  rewrite decide_False by (destruct (y <? 0); done).
  rewrite u256_div_rem_val by lia. cbn [mbind rust_bind].
  rewrite Z.quot_div by done.
  assert (Hq : 0 <= Z.abs x / Z.abs y <= Z.abs x).
  { split; [apply Z.div_pos; lia|]. apply Z.div_le_upper_bound; nia. }
  destruct (bool_decide _ && _ && _) eqn:E.
  - rewrite !andb_true_iff, bool_decide_eq_true, !Z.eqb_eq in E. destruct E as [[E1 E2] E3].
    destruct (Z.eqb_spec x 0); [done|]. destruct (Z.ltb_spec x 0); [|done].
    rewrite E2, E3. f_equal. destruct (Z.ltb_spec y 0).
    + assert (y = -1) as -> by lia. assert (x = - i256_bound) as -> by lia. reflexivity.
    + assert (y = 1) as -> by lia. assert (x = - i256_bound) as -> by lia. reflexivity.
  - assert (Hlt : Z.abs x / Z.abs y < i256_bound).
    { destruct (Z.eq_dec (Z.abs x) i256_bound); [|lia].
      apply Z.div_lt_upper_bound; [lia|].
      assert (Z.abs y <> 1); [|lia]. intros Hy1.
      destruct (Z.eqb_spec x 0); [lia|]. destruct (Z.ltb_spec x 0); [|lia].
      rewrite bool_decide_eq_true_2 in E by done. simpl in E. lia. }
    rewrite remove_sign_spec by rlia. rewrite Z.mod_small by lia.
    destruct (Z.eqb_spec (Z.abs x / Z.abs y) 0) as [->|Hd].
    { by rewrite Z.mul_0_r. }
    destruct (Z.eqb_spec x 0); [subst; done|].
    destruct (Z.ltb_spec x 0), (Z.ltb_spec y 0); f_equal;
      rewrite ?(Z.sgn_neg x), ?(Z.sgn_pos x), ?(Z.sgn_neg y), ?(Z.sgn_pos y) by lia;
      try (f_equal; lia); rewrite wrap256_id by rlia; lia.
Qed.

(** [SMOD] is the remainder of truncated division: it takes the sign
    of the dividend.  With the opcode's guard against a zero divisor the
    unsigned remainder never panics. *)
Lemma i256_mod_spec (a b : Z) : is_u256 a -> is_u256 b -> b <> 0 ->
  i256_mod a b = Val (wrap256 (Z.rem (to_signed a) (to_signed b))).
Proof.
  intros Ha Hb Hb0. unfold i256_mod, two_compl.
  rewrite (i256_sign_spec a Ha), (i256_sign_spec b Hb).
  pose proof (to_signed_zero b Hb) as Hbz.
  pose proof (to_signed_range a Ha). pose proof (to_signed_range b Hb).
  set (x := to_signed a) in *. set (y := to_signed b) in *. clearbody x y.
  assert (Hy : y <> 0) by tauto. destruct (Z.eqb_spec x 0) as [->|Hx]; [done|].
  rewrite decide_False by (destruct (x <? 0); done).
  rewrite u256_div_rem_val by lia. cbn [mbind rust_bind].
  rewrite Z.rem_mod by done.
  pose proof (Z.mod_pos_bound (Z.abs x) (Z.abs y) ltac:(lia)) as Hm.
  rewrite remove_sign_spec by rlia. rewrite Z.mod_small by lia.
  destruct (Z.eqb_spec (Z.abs x mod Z.abs y) 0) as [->|Hr]; [by rewrite Z.mul_0_r|].
  destruct (Z.ltb_spec x 0); [rewrite decide_True by done|rewrite decide_False by done];
    f_equal; rewrite ?(Z.sgn_neg x), ?(Z.sgn_pos x) by lia.
  - f_equal; lia.
  - rewrite wrap256_id by rlia. lia.
Qed.

Lemma i256_cmp_spec (a b : Z) : is_u256 a -> is_u256 b ->
  i256_cmp a b = (to_signed a ?= to_signed b).
Proof.
  intros Ha Hb. unfold i256_cmp, i256_sign, to_signed.
  rewrite !testbit_255, !Z.ltb_antisym by done.
  destruct (Z.leb_spec i256_bound a), (Z.leb_spec i256_bound b),
    (Z.eqb_spec a 0), (Z.eqb_spec b 0); simpl; try rlia; symmetry;
    try (apply Z.compare_lt_iff; rlia); try (apply Z.compare_gt_iff; rlia);
    try (apply Z.compare_eq_iff; rlia); try done.
  destruct (Z.compare_spec a b); [apply Z.compare_eq_iff|apply Z.compare_lt_iff
    |apply Z.compare_gt_iff]; lia.
Qed.

Lemma u256_shr_spec (x n : Z) : is_u256 x -> 0 <= n -> u256_shr x n = x / 2 ^ n.
Proof.
  intros Hx Hn. unfold u256_shr. case_if; [|by rewrite Z.shiftr_div_pow2].
  rewrite Z.div_small; [done|].
  assert (2 ^ 256 <= 2 ^ n) by (apply Z.pow_le_mono_r; lia). rlia.
Qed.

Lemma u256_shl_spec (x n : Z) : 0 <= n -> u256_shl x n = wrap256 (x * 2 ^ n).
Proof.
  intros Hn. unfold u256_shl. case_if; [|by rewrite Z.shiftl_mul_pow2].
  unfold wrap256. rewrite u256_modulus_pow.
  replace n with ((n - 256) + 256) by lia. rewrite Z.pow_add_r by lia.
  by rewrite Z.mul_assoc, Z.mod_mul by lia.
Qed.

Lemma div_neg_shift (v n : Z) : 0 < v -> 0 < n -> (- v) / n = - ((v - 1) / n + 1).
Proof. intros. zlia || (Z.to_euclidean_division_equations; nia). Qed.

(** [SAR] is the arithmetic shift: floor division of the signed word by
    the power of two, for every shift amount including those of 256 and
    more, and the conversion of the amount to [usize] never panics. *)
Lemma sar_word_spec (op1 op2 : Z) : is_u256 op1 -> is_u256 op2 ->
  sar_word op1 op2 = Val (wrap256 (Z.shiftr (to_signed op2) op1)).
Proof.
  intros H1 H2. unfold sar_word, two_compl. rewrite (i256_sign_spec op2 H2).
  pose proof (to_signed_range op2 H2) as Hr. set (x := to_signed op2) in *. clearbody x.
  rewrite Z.shiftr_div_pow2 by rlia.
  destruct (Z.eqb_spec x 0) as [->|Hx].
  { simpl. by rewrite Z.div_0_l by (apply Z.pow_nonzero; rlia). }
  destruct (Z.leb_spec 256 op1) as [Hbig|Hsmall].
  - rewrite orb_true_r. assert (2 ^ 256 <= 2 ^ op1) by (apply Z.pow_le_mono_r; lia).
    destruct (Z.ltb_spec x 0); f_equal.
    + assert (x / 2 ^ op1 = -1) as ->; [|done].
      symmetry. apply Z.div_unique with (x + 2 ^ op1); lia.
    + by rewrite Z.div_small by lia.
  - replace (Z.abs x =? 0) with false by lia. cbn [orb].
    replace (op1 <? u64_modulus) with true by lia. cbn [mbind rust_bind].
    assert (Hp : 0 < 2 ^ op1) by (apply Z.pow_pos_nonneg; rlia).
    destruct (Z.ltb_spec x 0); f_equal.
    + rewrite (wrap256_id (Z.abs x - 1)) by rlia. rewrite u256_shr_spec by rlia.
      assert (0 <= (Z.abs x - 1) / 2 ^ op1 <= Z.abs x - 1).
      { split; [apply Z.div_pos; lia|]. apply Z.div_le_upper_bound; nia. }
      rewrite (wrap256_id (_ + 1)) by rlia.
      rewrite <- div_neg_shift by lia. do 2 f_equal. lia.
    + rewrite u256_shr_spec by rlia. replace (Z.abs x) with x by lia.
      assert (0 <= x / 2 ^ op1 <= x).
      { split; [apply Z.div_pos; lia|]. apply Z.div_le_upper_bound; nia. }
      by rewrite wrap256_id by rlia.
Qed.

(** The signed number the low [k] bits of a word denote. *)
Definition sign_low (k x : Z) : Z :=
  let low := x mod 2 ^ k in if low <? 2 ^ (k - 1) then low else low - 2 ^ k.

Lemma lor_not_mask (x k : Z) : is_u256 x -> 0 <= k < 256 -> Z.testbit x k = true ->
  Z.lor x (u256_not (2 ^ k - 1)) = wrap256 (x mod 2 ^ k - 2 ^ k).
Proof.
  intros Hx Hk Hb. apply Z.bits_inj'. intros i Hi. unfold u256_not, wrap256.
  assert (Hn : u256_modulus - 1 - (2 ^ k - 1) = Z.ones (256 - k) * 2 ^ k).
  { rewrite Z.ones_equiv. assert (2 ^ 256 = 2 ^ (256 - k) * 2 ^ k).
    { rewrite <- Z.pow_add_r by lia. f_equal. lia. } change u256_modulus with (2 ^ 256). lia. }
  rewrite Hn, u256_modulus_pow, Z.lor_spec.
  assert (Hm : x mod 2 ^ k - 2 ^ k = Z.lor (x mod 2 ^ k) (- 2 ^ k)).
  { pose proof (Z.add_lor_land (x mod 2 ^ k) (- 2 ^ k)) as Hal.
    assert (Z.land (x mod 2 ^ k) (- 2 ^ k) = 0) as Hz; [|rewrite Hz in Hal; lia].
    apply Z.bits_inj'. intros j Hj. rewrite Z.land_spec, Z.bits_0.
    rewrite Z.bits_opp by lia. destruct (decide (j < k)).
    - replace (Z.pred (2 ^ k)) with (Z.ones k) by (rewrite Z.ones_equiv; lia).
      rewrite Z.ones_spec_low by lia. apply andb_false_r.
    - by rewrite Z.mod_pow2_bits_high by lia. }
  rewrite Hm. destruct (decide (i < 256)).
  - rewrite (Z.mod_pow2_bits_low _ 256) by lia. rewrite Z.lor_spec, Z.bits_opp by lia.
    replace (Z.pred (2 ^ k)) with (Z.ones k) by (rewrite Z.ones_equiv; lia).
    destruct (decide (i < k)).
    + rewrite Z.mul_pow2_bits_low by lia. rewrite Z.mod_pow2_bits_low by lia.
      by rewrite Z.ones_spec_low by lia.
    + rewrite Z.mul_pow2_bits by lia. rewrite !Z.ones_spec_low, Z.ones_spec_high by lia.
      by rewrite !orb_true_r.
  - rewrite (Z.mod_pow2_bits_high _ 256) by lia. rewrite (u256_bits_high x) by (done || lia).
    rewrite Z.mul_pow2_bits by lia. by rewrite Z.ones_spec_high by lia.
Qed.

Lemma signextend_split (k x : Z) : 0 <= k ->
  x mod 2 ^ (k + 1) = x mod 2 ^ k + (if Z.testbit x k then 2 ^ k else 0).
Proof.
  intros Hk. rewrite Z.pow_add_r, Z.pow_1_r, Z.rem_mul_r by lia.
  rewrite Z.testbit_eqb by lia.
  pose proof (Z.mod_pos_bound (x / 2 ^ k) 2 ltac:(lia)). case_if; nia.
Qed.

(** [SIGNEXTEND] replaces a word by the signed number its low [op1 + 1]
    bytes denote, and leaves it alone for [op1 >= 32]. *)
Lemma signextend_word_spec (op1 op2 : Z) : is_u256 op1 -> is_u256 op2 ->
  signextend_word op1 op2 =
  if op1 <? 32 then wrap256 (sign_low (8 * (op1 + 1)) op2) else op2.
Proof.
  intros H1 H2. unfold signextend_word. case_if; [|done].
  rewrite limb0_small by rlia. set (k := 8 * op1 + 7). unfold sign_low.
  replace (8 * (op1 + 1)) with (k + 1) by lia. replace (k + 1 - 1) with k by lia.
  assert (0 <= k < 256) by rlia.
  assert (Hp : 0 < 2 ^ k < u256_modulus).
  { split; [apply Z.pow_pos_nonneg; lia|]. change u256_modulus with (2 ^ 256).
    apply Z.pow_lt_mono_r; lia. }
  rewrite u256_shl_spec, Z.mul_1_l by lia. rewrite !wrap256_id by (rewrite ?wrap256_id; rlia).
  rewrite signextend_split by lia. pose proof (Z.mod_pos_bound op2 (2 ^ k) ltac:(lia)).
  destruct (Z.testbit op2 k) eqn:Eb.
  - replace (_ <? 2 ^ k) with false by lia. rewrite lor_not_mask by (done || lia).
    apply (f_equal wrap256).
    rewrite Z.pow_add_r by lia. lia.
  - replace (_ <? 2 ^ k) with true by lia. rewrite Z.add_0_r.
    replace (2 ^ k - 1) with (Z.ones k) by (rewrite Z.ones_equiv; lia).
    rewrite Z.land_ones by lia. by rewrite wrap256_id by rlia.
Qed.

Lemma land_pow2 (x t : Z) : 0 <= t -> Z.land x (2 ^ t) = Z.b2z (Z.testbit x t) * 2 ^ t.
Proof.
  intros Ht. apply Z.bits_inj'. intros i Hi. rewrite Z.land_spec.
  destruct (Z.eq_dec i t) as [->|Hne].
  - rewrite Z.pow2_bits_true, andb_true_r by lia.
    rewrite Z.mul_pow2_bits, Z.sub_diag by lia. by destruct (Z.testbit x t).
  - rewrite Z.pow2_bits_false, andb_false_r by lia.
    destruct (Z.testbit x t); cbn [Z.b2z]; [|by rewrite Z.mul_0_l, Z.bits_0].
    by rewrite Z.mul_1_l, Z.pow2_bits_false by lia.
Qed.

Lemma byte_step_low (op1 op2 i : Z) : is_u256 op2 -> 0 <= op1 < 32 -> 0 <= i < 8 ->
  let x := op2 / 2 ^ (248 - 8 * op1) in
  byte_step op1 op2 (x mod 2 ^ i) i = x mod 2 ^ (i + 1).
Proof.
  intros H2 H1 Hi x. unfold byte_step. replace ((i <? 8) && (op1 <? 32)) with true by lia.
  assert (as_u64_saturated op1 = op1) as ->.
  { unfold as_u64_saturated. rewrite (proj2 (limbs_high_zero op1 ltac:(rlia))) by lia.
    apply limb0_small. rlia. }
  replace (255 - (7 - i + 8 * op1)) with (i + (248 - 8 * op1)) by lia.
  set (t := i + (248 - 8 * op1)). rewrite signextend_split by lia.
  assert (Ht : 0 < 2 ^ t < u256_modulus).
  { split; [apply Z.pow_pos_nonneg; lia|]. change u256_modulus with (2 ^ 256).
    apply Z.pow_lt_mono_r; lia. }
  rewrite (u256_shl_spec 1), Z.mul_1_l, (wrap256_id (2 ^ t)) by rlia.
  rewrite land_pow2 by lia.
  assert (Hb : Z.testbit x i = Z.testbit op2 t).
  { unfold x. by rewrite Z.div_pow2_bits by lia. }
  rewrite u256_shr_spec, Z.div_mul by (destruct (Z.testbit op2 t); simpl; rlia).
  assert (Hp : 0 < 2 ^ i <= 2 ^ 7).
  { split; [apply Z.pow_pos_nonneg; lia|]. apply Z.pow_le_mono_r; lia. }
  pose proof (Z.mod_pos_bound x (2 ^ i) ltac:(lia)).
  rewrite u256_shl_spec by lia. rewrite <- Hb.
  destruct (Z.testbit x i); cbn [Z.b2z]; rewrite ?Z.mul_1_l, ?Z.mul_0_l;
    rewrite ?(wrap256_id (2 ^ i)) by rlia; rewrite wrap256_id by (try rlia; change (wrap256 0) with 0; rlia);
    done.
Qed.

Lemma byte_fold_low (op1 op2 : Z) (n : nat) : is_u256 op2 -> 0 <= op1 < 32 -> (n <= 8)%nat ->
  foldl (byte_step op1 op2) 0 (seqZ 0 (Z.of_nat n)) =
  (op2 / 2 ^ (248 - 8 * op1)) mod 2 ^ Z.of_nat n.
Proof.
  intros H2 H1. induction n as [|n IH]; intros Hn; [simpl; by rewrite Z.mod_1_r|].
  rewrite Nat2Z.inj_succ. replace (Z.succ (Z.of_nat n)) with (Z.of_nat n + 1) by lia.
  rewrite seqZ_app by lia. rewrite foldl_app, IH by lia. rewrite Z.add_0_l.
  change (seqZ (Z.of_nat n) 1) with [0 + Z.of_nat n]. cbn [foldl]. rewrite Z.add_0_l.
  apply byte_step_low; [done|lia|lia].
Qed.

Lemma foldl_id {A B : Type} (f : A -> B -> A) (l : list B) (a : A) :
  Forall (fun b => f a b = a) l -> foldl f a l = a.
Proof. induction 1 as [|b l Hb Hl IH]; simpl; [done|]. by rewrite Hb. Qed.

(** [BYTE] extracts the [op1]-th byte from the most significant end,
    and zero past the 32nd: its 256-iteration bit loop computes
    [(op2 / 256^(31 - op1)) mod 256]. *)
Lemma byte_word_spec (op1 op2 : Z) : is_u256 op1 -> is_u256 op2 ->
  byte_word op1 op2 = if op1 <? 32 then (op2 / 256 ^ (31 - op1)) mod 256 else 0.
Proof.
  intros H1 H2. unfold byte_word. destruct (Z.ltb_spec op1 32) as [Hlt|Hge].
  - change 256 with (Z.of_nat 8 + 248) at 1. rewrite seqZ_app by lia.
    rewrite foldl_app, byte_fold_low by (done || rlia). rewrite foldl_id.
    + change 256 with (2 ^ 8) at 1. rewrite <- Z.pow_mul_r by rlia.
      do 3 f_equal. lia.
    + apply Forall_forall. intros i Hi. apply elem_of_seqZ in Hi.
      unfold byte_step. by replace (i <? 8) with false by lia.
  - apply foldl_id, Forall_forall. intros i _. unfold byte_step.
    replace (op1 <? 32) with false by lia. by rewrite andb_false_r.
Qed.

Lemma u256_pow_spec (a e : Z) : 0 <= e -> u256_pow a e = wrap256 (a ^ e).
Proof. intros He. unfold u256_pow, wrap256. by apply Zpow_mod_correct. Qed.

Lemma as_u64_saturated_spec (v : Z) : is_u256 v -> as_u64_saturated v = Z.min v u64_max.
Proof.
  intros Hv. unfold as_u64_saturated. pose proof (limbs_high_zero v Hv) as Hh.
  destruct (negb (limb v 1 =? 0) || negb (limb v 2 =? 0) || negb (limb v 3 =? 0)) eqn:E.
  - destruct (decide (v < u64_modulus)) as [Hlt|]; [|lia].
    pose proof (proj2 Hh Hlt). congruence.
  - rewrite limb0_small; [|rlia]. assert (v < u64_modulus) by (by apply Hh). lia.
Qed.

(** Ranges of the results, for the interpreter's invariant. *)
Lemma byte_word_range (a b : Z) : is_u256 a -> is_u256 b -> is_u256 (byte_word a b).
Proof.
  intros. unfold byte_word. generalize (seqZ 0 256). intros l.
  assert (H1 : is_u256 0) by rlia. revert H1. generalize 0. induction l as [|i l IH]; [done|].
  intros z Hz. simpl. apply IH. unfold byte_step. case_if; [apply wrap256_range|done].
Qed.

Lemma lor_u256 (a b : Z) : is_u256 a -> is_u256 b -> is_u256 (Z.lor a b).
Proof.
  intros Ha Hb. apply is_u256_bits; [apply Z.lor_nonneg; rlia|].
  intros i Hi. by rewrite Z.lor_spec, !u256_bits_high.
Qed.
Lemma lxor_u256 (a b : Z) : is_u256 a -> is_u256 b -> is_u256 (Z.lxor a b).
Proof.
  intros Ha Hb. apply is_u256_bits; [apply Z.lxor_nonneg; rlia|].
  intros i Hi. by rewrite Z.lxor_spec, !u256_bits_high.
Qed.
Lemma land_u256 (a b : Z) : is_u256 a -> 0 <= b -> is_u256 (Z.land a b).
Proof.
  intros Ha Hb. apply is_u256_bits; [apply Z.land_nonneg; rlia|].
  intros i Hi. by rewrite Z.land_spec, u256_bits_high.
Qed.

Lemma signextend_word_range (a b : Z) : is_u256 a -> is_u256 b -> is_u256 (signextend_word a b).
Proof.
  intros Ha Hb. unfold signextend_word. case_if; [|done]. pose proof (wrap256_range
    (u256_shl 1 (8 * limb a 0 + 7) - 1)) as Hw. case_if.
  - apply lor_u256; [done|]. unfold u256_not. rlia.
  - apply land_u256; [done|rlia].
Qed.

Lemma u256_pow_range (a e : Z) : 0 <= e -> is_u256 (u256_pow a e).
Proof. intros. rewrite u256_pow_spec by done. apply wrap256_range. Qed.

Lemma u256_mod_ops_range (a b m : Z) : is_u256 m ->
  is_u256 (u256_add_mod a b m) /\ is_u256 (u256_mul_mod a b m).
Proof.
  intros Hm. unfold u256_add_mod, u256_mul_mod. case_if; [rlia|].
  pose proof (Z.mod_pos_bound (a + b) m). pose proof (Z.mod_pos_bound (a * b) m). rlia.
Qed.

Lemma u256_div_range (a b : Z) : is_u256 a -> 0 < b -> is_u256 (a / b).
Proof.
  intros Ha Hb. assert (0 <= a / b <= a); [|rlia].
  split; [apply Z.div_pos; rlia|]. apply Z.div_le_upper_bound; [lia|]. unfold is_u256 in Ha. nia.
Qed.

Lemma u256_shr_range (a n : Z) : is_u256 a -> 0 <= n -> is_u256 (u256_shr a n).
Proof.
  intros. rewrite u256_shr_spec by done. apply u256_div_range; [done|].
  apply Z.pow_pos_nonneg; lia.
Qed.

Lemma u256_shl_range (a n : Z) : is_u256 (u256_shl a n).
Proof. unfold u256_shl. case_if; [rlia|apply wrap256_range]. Qed.

Lemma u256_not_range (a : Z) : is_u256 a -> is_u256 (u256_not a).
Proof. unfold u256_not. rlia. Qed.

Lemma sdiv_ops_range (D : Prop) (a b : Z) : is_u256 a -> is_u256 b ->
  wp D (i256_div a b) is_u256 /\ wp D (sar_word a b) is_u256 /\
  (b <> 0 -> wp D (i256_mod a b) is_u256).
Proof.
  intros Ha Hb. rewrite i256_div_spec, sar_word_spec by done. simpl.
  split; [case_if; [rlia|]; apply wrap256_range|]. split; [apply wrap256_range|].
  intros Hz. rewrite i256_mod_spec by done. apply wrap256_range.
Qed.

#[export] Hint Resolve byte_word_range lor_u256 lxor_u256 land_u256 signextend_word_range
  u256_pow_range u256_div_range u256_shr_range u256_shl_range u256_not_range : range_db.
