(* ===== verification/Opcode.v ===== *)
(** * Opcodes: [interpreter/src/instructions/opcode.rs]

    The opcode constants, the table of mnemonics and the static gas table
    [spec_opcode_gas] with its packed [OpInfo] words. *)

From stdpp Require Import base option list strings.
From Stdlib Require Import ZArith Lia.
From S2P Require Import Prelude Primitives Gas.

Module opcode.

Definition STOP : Z := 0x00.
Definition ADD : Z := 0x01.
Definition MUL : Z := 0x02.
Definition SUB : Z := 0x03.
Definition DIV : Z := 0x04.
Definition SDIV : Z := 0x05.
Definition MOD : Z := 0x06.
Definition SMOD : Z := 0x07.
Definition ADDMOD : Z := 0x08.
Definition MULMOD : Z := 0x09.
Definition EXP : Z := 0x0a.
Definition SIGNEXTEND : Z := 0x0b.
Definition LT : Z := 0x10.
Definition GT : Z := 0x11.
Definition SLT : Z := 0x12.
Definition SGT : Z := 0x13.
Definition EQ : Z := 0x14.
Definition ISZERO : Z := 0x15.
Definition AND : Z := 0x16.
Definition OR : Z := 0x17.
Definition XOR : Z := 0x18.
Definition NOT : Z := 0x19.
Definition BYTE : Z := 0x1a.
Definition CALLDATALOAD : Z := 0x35.
Definition CALLDATASIZE : Z := 0x36.
Definition CALLDATACOPY : Z := 0x37.
Definition CODESIZE : Z := 0x38.
Definition CODECOPY : Z := 0x39.
Definition SHL : Z := 0x1b.
Definition SHR : Z := 0x1c.
Definition SAR : Z := 0x1d.
Definition SHA3 : Z := 0x20.
Definition POP : Z := 0x50.
Definition MLOAD : Z := 0x51.
Definition MSTORE : Z := 0x52.
Definition MSTORE8 : Z := 0x53.
Definition JUMP : Z := 0x56.
Definition JUMPI : Z := 0x57.
Definition PC : Z := 0x58.
Definition MSIZE : Z := 0x59.
Definition JUMPDEST : Z := 0x5b.
Definition PUSH0 : Z := 0x5f.
Definition PUSH1 : Z := 0x60.
Definition PUSH2 : Z := 0x61.
Definition PUSH3 : Z := 0x62.
Definition PUSH4 : Z := 0x63.
Definition PUSH5 : Z := 0x64.
Definition PUSH6 : Z := 0x65.
Definition PUSH7 : Z := 0x66.
Definition PUSH8 : Z := 0x67.
Definition PUSH9 : Z := 0x68.
Definition PUSH10 : Z := 0x69.
Definition PUSH11 : Z := 0x6a.
Definition PUSH12 : Z := 0x6b.
Definition PUSH13 : Z := 0x6c.
Definition PUSH14 : Z := 0x6d.
Definition PUSH15 : Z := 0x6e.
Definition PUSH16 : Z := 0x6f.
Definition PUSH17 : Z := 0x70.
Definition PUSH18 : Z := 0x71.
Definition PUSH19 : Z := 0x72.
Definition PUSH20 : Z := 0x73.
Definition PUSH21 : Z := 0x74.
Definition PUSH22 : Z := 0x75.
Definition PUSH23 : Z := 0x76.
Definition PUSH24 : Z := 0x77.
Definition PUSH25 : Z := 0x78.
Definition PUSH26 : Z := 0x79.
Definition PUSH27 : Z := 0x7a.
Definition PUSH28 : Z := 0x7b.
Definition PUSH29 : Z := 0x7c.
Definition PUSH30 : Z := 0x7d.
Definition PUSH31 : Z := 0x7e.
Definition PUSH32 : Z := 0x7f.
Definition DUP1 : Z := 0x80.
Definition DUP2 : Z := 0x81.
Definition DUP3 : Z := 0x82.
Definition DUP4 : Z := 0x83.
Definition DUP5 : Z := 0x84.
Definition DUP6 : Z := 0x85.
Definition DUP7 : Z := 0x86.
Definition DUP8 : Z := 0x87.
Definition DUP9 : Z := 0x88.
Definition DUP10 : Z := 0x89.
Definition DUP11 : Z := 0x8a.
Definition DUP12 : Z := 0x8b.
Definition DUP13 : Z := 0x8c.
Definition DUP14 : Z := 0x8d.
Definition DUP15 : Z := 0x8e.
Definition DUP16 : Z := 0x8f.
Definition SWAP1 : Z := 0x90.
Definition SWAP2 : Z := 0x91.
Definition SWAP3 : Z := 0x92.
Definition SWAP4 : Z := 0x93.
Definition SWAP5 : Z := 0x94.
Definition SWAP6 : Z := 0x95.
Definition SWAP7 : Z := 0x96.
Definition SWAP8 : Z := 0x97.
Definition SWAP9 : Z := 0x98.
Definition SWAP10 : Z := 0x99.
Definition SWAP11 : Z := 0x9a.
Definition SWAP12 : Z := 0x9b.
Definition SWAP13 : Z := 0x9c.
Definition SWAP14 : Z := 0x9d.
Definition SWAP15 : Z := 0x9e.
Definition SWAP16 : Z := 0x9f.
Definition RETURN : Z := 0xf3.
Definition REVERT : Z := 0xfd.
Definition INVALID : Z := 0xfe.
Definition ADDRESS : Z := 0x30.
Definition BALANCE : Z := 0x31.
Definition BASEFEE : Z := 0x48.
Definition ORIGIN : Z := 0x32.
Definition CALLER : Z := 0x33.
Definition CALLVALUE : Z := 0x34.
Definition GASPRICE : Z := 0x3a.
Definition EXTCODESIZE : Z := 0x3b.
Definition EXTCODECOPY : Z := 0x3c.
Definition EXTCODEHASH : Z := 0x3f.
Definition RETURNDATASIZE : Z := 0x3d.
Definition RETURNDATACOPY : Z := 0x3e.
Definition BLOCKHASH : Z := 0x40.
Definition COINBASE : Z := 0x41.
Definition TIMESTAMP : Z := 0x42.
Definition NUMBER : Z := 0x43.
Definition DIFFICULTY : Z := 0x44.
Definition GASLIMIT : Z := 0x45.
Definition SELFBALANCE : Z := 0x47.
Definition SLOAD : Z := 0x54.
Definition SSTORE : Z := 0x55.
Definition GAS : Z := 0x5a.
Definition LOG0 : Z := 0xa0.
Definition LOG1 : Z := 0xa1.
Definition LOG2 : Z := 0xa2.
Definition LOG3 : Z := 0xa3.
Definition LOG4 : Z := 0xa4.
Definition CREATE : Z := 0xf0.
Definition CREATE2 : Z := 0xf5.
Definition CALL : Z := 0xf1.
Definition CALLCODE : Z := 0xf2.
Definition DELEGATECALL : Z := 0xf4.
Definition STATICCALL : Z := 0xfa.
Definition SELFDESTRUCT : Z := 0xff.
Definition CHAINID : Z := 0x46.
End opcode.

(** [OPCODE_JUMPMAP], in two halves. *)
Definition OPCODE_JUMPMAP_low : list (option string) := [
  Some "STOP"%string; Some "ADD"%string; Some "MUL"%string; Some "SUB"%string;
   Some "DIV"%string; Some "SDIV"%string; Some "MOD"%string; Some "SMOD"%string;
   Some "ADDMOD"%string; Some "MULMOD"%string; Some "EXP"%string; Some "SIGNEXTEND"%string;
   None; None; None; None; Some "LT"%string; Some "GT"%string; Some "SLT"%string;
   Some "SGT"%string; Some "EQ"%string; Some "ISZERO"%string; Some "AND"%string;
   Some "OR"%string; Some "XOR"%string; Some "NOT"%string; Some "BYTE"%string;
   Some "SHL"%string; Some "SHR"%string; Some "SAR"%string; None; None; Some "SHA3"%string;
   None; None; None; None; None; None; None; None; None; None; None; None; None; None; None;
   Some "ADDRESS"%string; Some "BALANCE"%string; Some "ORIGIN"%string; Some "CALLER"%string;
   Some "CALLVALUE"%string; Some "CALLDATALOAD"%string; Some "CALLDATASIZE"%string;
   Some "CALLDATACOPY"%string; Some "CODESIZE"%string; Some "CODECOPY"%string;
   Some "GASPRICE"%string; Some "EXTCODESIZE"%string; Some "EXTCODECOPY"%string;
   Some "RETURNDATASIZE"%string; Some "RETURNDATACOPY"%string; Some "EXTCODEHASH"%string;
   Some "BLOCKHASH"%string; Some "COINBASE"%string; Some "TIMESTAMP"%string;
   Some "NUMBER"%string; Some "DIFFICULTY"%string; Some "GASLIMIT"%string;
   Some "CHAINID"%string; Some "SELFBALANCE"%string; Some "BASEFEE"%string; None; None; None;
   None; None; None; None; Some "POP"%string; Some "MLOAD"%string; Some "MSTORE"%string;
   Some "MSTORE8"%string; Some "SLOAD"%string; Some "SSTORE"%string; Some "JUMP"%string;
   Some "JUMPI"%string; Some "PC"%string; Some "MSIZE"%string; Some "GAS"%string;
   Some "JUMPDEST"%string; None; None; None; Some "PUSH0"%string; Some "PUSH1"%string;
   Some "PUSH2"%string; Some "PUSH3"%string; Some "PUSH4"%string; Some "PUSH5"%string;
   Some "PUSH6"%string; Some "PUSH7"%string; Some "PUSH8"%string; Some "PUSH9"%string;
   Some "PUSH10"%string; Some "PUSH11"%string; Some "PUSH12"%string; Some "PUSH13"%string;
   Some "PUSH14"%string; Some "PUSH15"%string; Some "PUSH16"%string; Some "PUSH17"%string;
   Some "PUSH18"%string; Some "PUSH19"%string; Some "PUSH20"%string; Some "PUSH21"%string;
   Some "PUSH22"%string; Some "PUSH23"%string; Some "PUSH24"%string; Some "PUSH25"%string;
   Some "PUSH26"%string; Some "PUSH27"%string; Some "PUSH28"%string; Some "PUSH29"%string;
   Some "PUSH30"%string; Some "PUSH31"%string; Some "PUSH32"%string].

Definition OPCODE_JUMPMAP_high : list (option string) := [
  Some "DUP1"%string; Some "DUP2"%string; Some "DUP3"%string; Some "DUP4"%string;
   Some "DUP5"%string; Some "DUP6"%string; Some "DUP7"%string; Some "DUP8"%string;
   Some "DUP9"%string; Some "DUP10"%string; Some "DUP11"%string; Some "DUP12"%string;
   Some "DUP13"%string; Some "DUP14"%string; Some "DUP15"%string; Some "DUP16"%string;
   Some "SWAP1"%string; Some "SWAP2"%string; Some "SWAP3"%string; Some "SWAP4"%string;
   Some "SWAP5"%string; Some "SWAP6"%string; Some "SWAP7"%string; Some "SWAP8"%string;
   Some "SWAP9"%string; Some "SWAP10"%string; Some "SWAP11"%string; Some "SWAP12"%string;
   Some "SWAP13"%string; Some "SWAP14"%string; Some "SWAP15"%string; Some "SWAP16"%string;
   Some "LOG0"%string; Some "LOG1"%string; Some "LOG2"%string; Some "LOG3"%string;
   Some "LOG4"%string; None; None; None; None; None; None; None; None; None; None; None; None;
   None; None; None; None; None; None; None; None; None; None; None; None; None; None; None;
   None; None; None; None; None; None; None; None; None; None; None; None; None; None; None;
   None; None; None; None; None; None; None; None; None; None; None; None; None; None; None;
   None; None; None; None; None; None; None; None; None; None; None; None; None; None; None;
   None; None; None; Some "CREATE"%string; Some "CALL"%string; Some "CALLCODE"%string;
   Some "RETURN"%string; Some "DELEGATECALL"%string; Some "CREATE2"%string; None; None; None;
   None; Some "STATICCALL"%string; None; None; Some "REVERT"%string; Some "INVALID"%string;
   Some "SELFDESTRUCT"%string].

Definition OPCODE_JUMPMAP : list (option string) :=
  OPCODE_JUMPMAP_low ++ OPCODE_JUMPMAP_high.

(** [OpCode::try_from_u8] and [OpCode::as_str]; an index is a [u8]. *)
Definition OpCode_try_from_u8 (opcode : Z) : rust (option Z) :=
  e ← unwrap (OPCODE_JUMPMAP !! Z.to_nat opcode); Val (match e with Some _ => Some opcode | None => None end).
Definition OpCode_as_str (opcode : Z) : rust string :=
  e ← unwrap (OPCODE_JUMPMAP !! Z.to_nat opcode);
  Val (match e with Some str => str | None => "unknown"%string end).

(** ** [OpInfo]: jump, block-end and push flags packed above 29 bits of gas *)

Definition JUMP_MASK : Z := 0x80000000.
Definition GAS_BLOCK_END_MASK : Z := 0x40000000.
Definition IS_PUSH_MASK : Z := 0x20000000.
Definition GAS_MASK : Z := 0x1FFFFFFF.

Module OpInfo.
Definition is_jump (data : Z) : bool := Z.land data JUMP_MASK =? JUMP_MASK.
Definition is_gas_block_end (data : Z) : bool :=
  Z.land data GAS_BLOCK_END_MASK =? GAS_BLOCK_END_MASK.
Definition is_push (data : Z) : bool := Z.land data IS_PUSH_MASK =? IS_PUSH_MASK.
Definition get_gas (data : Z) : Z := Z.land data GAS_MASK.
Definition none : Z := 0.
Definition gas_block_end (gas : Z) : Z := Z.lor (gas mod 2 ^ 32) GAS_BLOCK_END_MASK.
Definition dynamic_gas : Z := 0.
Definition gas (gas : Z) : Z := gas mod 2 ^ 32.
Definition push_opcode : Z := Z.lor (gas.VERYLOW mod 2 ^ 32) IS_PUSH_MASK.
Definition jumpdest : Z := Z.lor JUMP_MASK GAS_BLOCK_END_MASK.
End OpInfo.

(** The table [gas_opcodee!] builds for a hard fork, in two halves. *)
Definition gas_opcodee_low (spec_id : SpecId) : list Z := [
  OpInfo.gas_block_end (0); OpInfo.gas (gas.VERYLOW); OpInfo.gas (gas.LOW);
   OpInfo.gas (gas.VERYLOW); OpInfo.gas (gas.LOW); OpInfo.gas (gas.LOW); OpInfo.gas (gas.LOW);
   OpInfo.gas (gas.LOW); OpInfo.gas (gas.MID); OpInfo.gas (gas.MID); OpInfo.dynamic_gas;
   OpInfo.gas (gas.LOW); OpInfo.none; OpInfo.none; OpInfo.none; OpInfo.none;
   OpInfo.gas (gas.VERYLOW); OpInfo.gas (gas.VERYLOW); OpInfo.gas (gas.VERYLOW);
   OpInfo.gas (gas.VERYLOW); OpInfo.gas (gas.VERYLOW); OpInfo.gas (gas.VERYLOW);
   OpInfo.gas (gas.VERYLOW); OpInfo.gas (gas.VERYLOW); OpInfo.gas (gas.VERYLOW);
   OpInfo.gas (gas.VERYLOW); OpInfo.gas (gas.VERYLOW);
   OpInfo.gas (if enabled spec_id CONSTANTINOPLE then gas.VERYLOW else 0);
   OpInfo.gas (if enabled spec_id CONSTANTINOPLE then gas.VERYLOW else 0);
   OpInfo.gas (if enabled spec_id CONSTANTINOPLE then gas.VERYLOW else 0); OpInfo.none;
   OpInfo.none; OpInfo.dynamic_gas; OpInfo.none; OpInfo.none; OpInfo.none; OpInfo.none;
   OpInfo.none; OpInfo.none; OpInfo.none; OpInfo.none; OpInfo.none; OpInfo.none; OpInfo.none;
   OpInfo.none; OpInfo.none; OpInfo.none; OpInfo.none; OpInfo.gas (gas.BASE);
   OpInfo.dynamic_gas; OpInfo.gas (gas.BASE); OpInfo.gas (gas.BASE); OpInfo.gas (gas.BASE);
   OpInfo.gas (gas.VERYLOW); OpInfo.gas (gas.BASE); OpInfo.dynamic_gas; OpInfo.gas (gas.BASE);
   OpInfo.dynamic_gas; OpInfo.gas (gas.BASE);
   OpInfo.gas (if enabled spec_id BERLIN then gas.WARM_STORAGE_READ_COST
     else if enabled spec_id TANGERINE then 700 else 20);
   OpInfo.gas (if enabled spec_id BERLIN then gas.WARM_STORAGE_READ_COST
     else if enabled spec_id TANGERINE then 700 else 20);
   OpInfo.gas (if enabled spec_id BYZANTIUM then gas.BASE else 0); OpInfo.dynamic_gas;
   OpInfo.gas (if enabled spec_id BERLIN then gas.WARM_STORAGE_READ_COST
     else if enabled spec_id ISTANBUL then 700
     else if enabled spec_id PETERSBURG then 400 else 0);
   OpInfo.gas (gas.BLOCKHASH); OpInfo.gas (gas.BASE); OpInfo.gas (gas.BASE);
   OpInfo.gas (gas.BASE); OpInfo.gas (gas.BASE); OpInfo.gas (gas.BASE);
   OpInfo.gas (if enabled spec_id ISTANBUL then gas.BASE else 0);
   OpInfo.gas (if enabled spec_id ISTANBUL then gas.LOW else 0);
   OpInfo.gas (if enabled spec_id LONDON then gas.BASE else 0); OpInfo.none; OpInfo.none;
   OpInfo.none; OpInfo.none; OpInfo.none; OpInfo.none; OpInfo.none; OpInfo.gas (gas.BASE);
   OpInfo.gas (gas.VERYLOW); OpInfo.gas (gas.VERYLOW); OpInfo.gas (gas.VERYLOW);
   OpInfo.dynamic_gas; OpInfo.gas_block_end (0); OpInfo.gas_block_end (gas.MID);
   OpInfo.gas_block_end (gas.HIGH); OpInfo.gas (gas.BASE); OpInfo.gas (gas.BASE);
   OpInfo.gas_block_end (gas.BASE); OpInfo.jumpdest; OpInfo.none; OpInfo.none; OpInfo.none;
   OpInfo.gas (if enabled spec_id SHANGHAI then gas.BASE else 0); OpInfo.push_opcode;
   OpInfo.push_opcode; OpInfo.push_opcode; OpInfo.push_opcode; OpInfo.push_opcode;
   OpInfo.push_opcode; OpInfo.push_opcode; OpInfo.push_opcode; OpInfo.push_opcode;
   OpInfo.push_opcode; OpInfo.push_opcode; OpInfo.push_opcode; OpInfo.push_opcode;
   OpInfo.push_opcode; OpInfo.push_opcode; OpInfo.push_opcode; OpInfo.push_opcode;
   OpInfo.push_opcode; OpInfo.push_opcode; OpInfo.push_opcode; OpInfo.push_opcode;
   OpInfo.push_opcode; OpInfo.push_opcode; OpInfo.push_opcode; OpInfo.push_opcode;
   OpInfo.push_opcode; OpInfo.push_opcode; OpInfo.push_opcode; OpInfo.push_opcode;
   OpInfo.push_opcode; OpInfo.push_opcode; OpInfo.push_opcode].

Definition gas_opcodee_high (spec_id : SpecId) : list Z := [
  OpInfo.gas (gas.VERYLOW); OpInfo.gas (gas.VERYLOW); OpInfo.gas (gas.VERYLOW);
   OpInfo.gas (gas.VERYLOW); OpInfo.gas (gas.VERYLOW); OpInfo.gas (gas.VERYLOW);
   OpInfo.gas (gas.VERYLOW); OpInfo.gas (gas.VERYLOW); OpInfo.gas (gas.VERYLOW);
   OpInfo.gas (gas.VERYLOW); OpInfo.gas (gas.VERYLOW); OpInfo.gas (gas.VERYLOW);
   OpInfo.gas (gas.VERYLOW); OpInfo.gas (gas.VERYLOW); OpInfo.gas (gas.VERYLOW);
   OpInfo.gas (gas.VERYLOW); OpInfo.gas (gas.VERYLOW); OpInfo.gas (gas.VERYLOW);
   OpInfo.gas (gas.VERYLOW); OpInfo.gas (gas.VERYLOW); OpInfo.gas (gas.VERYLOW);
   OpInfo.gas (gas.VERYLOW); OpInfo.gas (gas.VERYLOW); OpInfo.gas (gas.VERYLOW);
   OpInfo.gas (gas.VERYLOW); OpInfo.gas (gas.VERYLOW); OpInfo.gas (gas.VERYLOW);
   OpInfo.gas (gas.VERYLOW); OpInfo.gas (gas.VERYLOW); OpInfo.gas (gas.VERYLOW);
   OpInfo.gas (gas.VERYLOW); OpInfo.gas (gas.VERYLOW); OpInfo.dynamic_gas; OpInfo.dynamic_gas;
   OpInfo.dynamic_gas; OpInfo.dynamic_gas; OpInfo.dynamic_gas; OpInfo.none; OpInfo.none;
   OpInfo.none; OpInfo.none; OpInfo.none; OpInfo.none; OpInfo.none; OpInfo.none; OpInfo.none;
   OpInfo.none; OpInfo.none; OpInfo.none; OpInfo.none; OpInfo.none; OpInfo.none; OpInfo.none;
   OpInfo.none; OpInfo.none; OpInfo.none; OpInfo.none; OpInfo.none; OpInfo.none; OpInfo.none;
   OpInfo.none; OpInfo.none; OpInfo.none; OpInfo.none; OpInfo.none; OpInfo.none; OpInfo.none;
   OpInfo.none; OpInfo.none; OpInfo.none; OpInfo.none; OpInfo.none; OpInfo.none; OpInfo.none;
   OpInfo.none; OpInfo.none; OpInfo.none; OpInfo.none; OpInfo.none; OpInfo.none; OpInfo.none;
   OpInfo.none; OpInfo.none; OpInfo.none; OpInfo.none; OpInfo.none; OpInfo.none; OpInfo.none;
   OpInfo.none; OpInfo.none; OpInfo.none; OpInfo.none; OpInfo.none; OpInfo.none; OpInfo.none;
   OpInfo.none; OpInfo.none; OpInfo.none; OpInfo.none; OpInfo.none; OpInfo.none; OpInfo.none;
   OpInfo.none; OpInfo.none; OpInfo.none; OpInfo.none; OpInfo.none; OpInfo.none; OpInfo.none;
   OpInfo.none; OpInfo.none; OpInfo.none; OpInfo.gas_block_end (0); OpInfo.gas_block_end (0);
   OpInfo.gas_block_end (0); OpInfo.gas_block_end (0); OpInfo.gas_block_end (0);
   OpInfo.gas_block_end (0); OpInfo.none; OpInfo.none; OpInfo.none; OpInfo.none;
   OpInfo.gas_block_end (0); OpInfo.none; OpInfo.none; OpInfo.gas_block_end (0);
   OpInfo.gas_block_end (0); OpInfo.gas_block_end (0)].

(** Every arm of [spec_opcode_gas] instantiates the table at its fork. *)
Definition spec_opcode_gas (spec_id : SpecId) : list Z :=
  gas_opcodee_low spec_id ++ gas_opcodee_high spec_id.
