(* ===== verification/Analysis.v ===== *)
(** * Bytecode analysis: [interpreter/src/interpreter/analysis.rs]

    The analysis pads raw bytecode and computes the map of valid jump
    destinations.  Walking a raw pointer past the end of the code is
    undefined behaviour; the padding is what rules it out. *)

From stdpp Require Import base option list.
From Stdlib Require Import ZArith Lia.
From S2P Require Import Prelude Primitives Gas Opcode.

(** The loop of [analyze]: [i] is the offset of [iterator] from the start
    and [jumps] the bit vector.  Every iteration advances, so the length of
    the code bounds their number. *)
Fixpoint analyze_loop (fuel : nat) (code : list Z) (i : Z) (jumps : list bool) :
  rust (list bool) :=
  match fuel with
  | O => Diverge
  | S fuel =>
      if i <? zlen code then
        op ← get_unchecked code i;
        if op =? opcode.JUMPDEST then
          analyze_loop fuel code (i + 1) (<[Z.to_nat i := true]> jumps)
        else
          let push_offset := (op - opcode.PUSH1) mod 256 in
          if push_offset <? 32 then
            if i + push_offset + 2 <=? zlen code
            then analyze_loop fuel code (i + push_offset + 2) jumps
            else Undef
          else analyze_loop fuel code (i + 1) jumps
      else Val jumps
  end.

Definition analyze (code : list Z) : rust (list bool) :=
  analyze_loop (S (length code)) code 0 (replicate (length code) false).

Definition to_analysed (bytecode : Bytecode) : rust Bytecode :=
  let hash := bc_hash bytecode in
  let go code len :=
    jump_map ← analyze code; Val (mkBytecode code hash (Analysed len jump_map)) in
  match bc_state bytecode with
  | Raw => go (bc_bytecode (Bytecode_to_checked bytecode)) (zlen (bc_bytecode bytecode))
  | Checked len => go (bc_bytecode bytecode) len
  | Analysed _ _ => Val bytecode
  end.

Record BytecodeLocked := mkBytecodeLocked {
  bl_bytecode : list Z;
  bl_len : Z;
  bl_hash : Z;
  bl_jump_map : list bool;
}.

Definition BytecodeLocked_try_from (bytecode : Bytecode) : option BytecodeLocked :=
  match bc_state bytecode with
  | Analysed len jump_map =>
      Some (mkBytecodeLocked (bc_bytecode bytecode) len (bc_hash bytecode) jump_map)
  | _ => None
  end.

Definition BytecodeLocked_is_empty (b : BytecodeLocked) : bool := bl_len b =? 0.

Definition BytecodeLocked_unlock (b : BytecodeLocked) : Bytecode :=
  mkBytecode (bl_bytecode b) (bl_hash b) (Analysed (bl_len b) (bl_jump_map b)).

Definition original_bytecode_slice (b : BytecodeLocked) : rust (list Z) :=
  slice (bl_bytecode b) 0 (bl_len b).

(** ** What a valid jump destination is *)

(** Bytes of immediate data after an opcode. *)
Definition push_len (op : Z) : Z :=
  if (opcode.PUSH1 <=? op) && (op <=? opcode.PUSH32) then op - opcode.PUSH1 + 1 else 0.

(** Offsets the decoder reaches from offset [i]. *)
Inductive decodes_to (code : list Z) (i : Z) : Z -> Prop :=
| decodes_here : decodes_to code i i
| decodes_next j op :
    decodes_to code i j -> code !! Z.to_nat j = Some op ->
    decodes_to code i (j + 1 + push_len op).

(** Offsets where an instruction starts when decoding from the beginning. *)
Definition instr_start (code : list Z) : Z -> Prop := decodes_to code 0.

Definition valid_jumpdest (code : list Z) (i : Z) : Prop :=
  instr_start code i /\ code !! Z.to_nat i = Some opcode.JUMPDEST.

(** Every instruction's immediate data lies inside the code, with the next
    instruction after it. *)
Definition operands_fit (code : list Z) : Prop :=
  forall i op, instr_start code i -> code !! Z.to_nat i = Some op ->
  i + 1 + push_len op <= zlen code.

(** ** Correctness of the scan *)

Lemma push_offset_spec (op : Z) : is_u8 op ->
  ((op - opcode.PUSH1) mod 256 <? 32) = (0 <? push_len op) /\
  ((op - opcode.PUSH1) mod 256 < 32 -> (op - opcode.PUSH1) mod 256 + 1 = push_len op).
Proof.
  intros Hop. unfold push_len, opcode.PUSH1, opcode.PUSH32.
  destruct (Z.leb_spec 0x60 op), (Z.leb_spec op 0x7f); simpl; zlia.
Qed.

Lemma push_len_range (op : Z) : 0 <= push_len op <= 32.
Proof. unfold push_len, opcode.PUSH1, opcode.PUSH32. case_if; lia. Qed.

Lemma decodes_to_le (code : list Z) (i j : Z) : decodes_to code i j -> i <= j.
Proof. induction 1 as [|j op _ IH _]; [lia|]. pose proof (push_len_range op). lia. Qed.

Lemma instr_start_nonneg (code : list Z) (i : Z) : instr_start code i -> 0 <= i.
Proof. apply decodes_to_le. Qed.

(** Decoding is deterministic: what an instruction reaches, it reaches
    through its successor. *)
Lemma decodes_to_inv (code : list Z) (i j op : Z) :
  decodes_to code i j -> code !! Z.to_nat i = Some op ->
  j = i \/ decodes_to code (i + 1 + push_len op) j.
Proof.
  induction 1 as [|j opj _ IH Hj]; intros Hi; [by left|]. right.
  destruct (IH Hi) as [->|Hd]; [|by constructor].
  rewrite Hi in Hj. simplify_eq. constructor.
Qed.

Lemma instr_start_chain (code : list Z) (i j : Z) :
  instr_start code i -> instr_start code j -> decodes_to code i j \/ decodes_to code j i.
Proof.
  unfold instr_start. induction 1 as [|i op _ IH Hop]; intros Hj; [by left|].
  destruct (IH Hj) as [Hd|Hd]; [|right; by constructor].
  destruct (decodes_to_inv _ _ _ _ Hd Hop) as [->|]; [right|by left].
  apply decodes_next; [constructor|done].
Qed.

(** No instruction starts inside another one. *)
Lemma instr_start_gap (code : list Z) (i j op : Z) :
  instr_start code i -> code !! Z.to_nat i = Some op -> instr_start code j ->
  i <= j < i + 1 + push_len op -> j = i.
Proof.
  intros Hi Hop Hj Hb. destruct (instr_start_chain code i j Hi Hj) as [Hd|Hd].
  - destruct (decodes_to_inv _ _ _ _ Hd Hop) as [|Hd']; [done|].
    apply decodes_to_le in Hd'. lia.
  - apply decodes_to_le in Hd. lia.
Qed.

(** The loop invariant: below [i] the bits are settled, above they are
    clear. *)
Definition scanned (code : list Z) (i : Z) (jumps : list bool) : Prop :=
  length jumps = length code /\
  forall j, (j < length code)%nat ->
    jumps !! j = Some true <-> (Z.of_nat j < i /\ valid_jumpdest code (Z.of_nat j)).

Lemma scanned_step (code : list Z) (i op : Z) (jumps : list bool) :
  instr_start code i -> code !! Z.to_nat i = Some op -> op <> opcode.JUMPDEST ->
  scanned code i jumps -> scanned code (i + 1 + push_len op) jumps.
Proof.
  intros Hi Hop Hne [Hlen Hs]. split; [done|]. intros j Hj. rewrite (Hs j Hj).
  pose proof (push_len_range op).
  split; intros [Hlt Hv]; (split; [|done]); [lia|].
  destruct (decide (Z.of_nat j < i)) as [|Hge]; [done|]. exfalso. destruct Hv as [Hst Hjd].
  assert (Z.of_nat j = i) as Hji by (eapply instr_start_gap; eauto; lia).
  rewrite Hji, Hop in Hjd. congruence.
Qed.

Lemma scanned_jumpdest (code : list Z) (i : Z) (jumps : list bool) :
  instr_start code i -> code !! Z.to_nat i = Some opcode.JUMPDEST ->
  scanned code i jumps -> scanned code (i + 1) (<[Z.to_nat i := true]> jumps).
Proof.
  intros Hi Hop [Hlen Hs]. split; [by rewrite length_insert|]. intros j Hj.
  pose proof (instr_start_nonneg code i Hi) as Hi0.
  destruct (decide (Z.to_nat i = j)) as [<-|Hne].
  - rewrite list_lookup_insert_eq by lia. rewrite Z2Nat.id by lia.
    split; [|done]. intros _. split; [lia|by split].
  - rewrite list_lookup_insert_ne by done. rewrite (Hs j Hj).
    split; intros [? ?]; (split; [lia|done]).
Qed.

Lemma analyze_loop_spec (fuel : nat) (code : list Z) (i : Z) (jumps : list bool) :
  Forall is_u8 code -> operands_fit code -> instr_start code i -> i <= zlen code ->
  scanned code i jumps -> zlen code - i < Z.of_nat fuel ->
  exists m, analyze_loop fuel code i jumps = Val m /\ scanned code (zlen code) m.
Proof.
  intros Hu8 Hfit. revert i jumps.
  induction fuel as [|fuel IH]; intros i jumps Hi Hle Hs Hf; [lia|]. cbn [analyze_loop].
  pose proof (instr_start_nonneg code i Hi) as Hi0.
  case_if; [|exists jumps; split; [done|]; by replace (zlen code) with i by lia].
  destruct (lookup_lt_is_Some_2 code (Z.to_nat i)) as [op Hop]; [rlia|].
  rewrite (get_unchecked_val _ _ op) by done. cbn [mbind rust_bind].
  pose proof (Hfit i op Hi Hop) as Hend. pose proof (push_len_range op) as Hpl.
  pose proof (decodes_next code 0 i op Hi Hop) as Hnext.
  destruct (push_offset_spec op) as [Hb Hv]; [by eapply Forall_lookup_1|].
  case_if.
  - subst op. change (push_len opcode.JUMPDEST) with 0 in *. rewrite Z.add_0_r in *.
    apply IH; [done|lia|by apply scanned_jumpdest|lia].
  - pose proof (scanned_step code i op jumps Hi Hop E0 Hs) as Hs'. rewrite Hb.
    case_if.
    + replace (i + (op - opcode.PUSH1) mod 256 + 2) with (i + 1 + push_len op)
        by (rewrite <- Hv by lia; lia).
      case_if; [|lia]. apply IH; try done; lia.
    + replace (push_len op) with 0 in * by lia. rewrite Z.add_0_r in *.
      apply IH; try done; lia.
Qed.

(** Padding with 33 zero bytes makes every operand fit. *)
Lemma padded_operands_fit (code : list Z) (n : nat) :
  (33 <= n)%nat -> operands_fit (code ++ replicate n 0).
Proof.
  intros Hn i op Hi Hop. apply instr_start_nonneg in Hi.
  pose proof (push_len_range op) as Hpl. autorewrite with zlen.
  destruct (decide (i < zlen code)); [lia|].
  rewrite lookup_app_r in Hop by rlia.
  apply lookup_replicate in Hop as [-> Hlt]. change (push_len 0) with 0. rlia.
Qed.

(** ** Code that the interpreter may run

    Running past the end of the buffer is undefined behaviour, so the code
    ends in zero bytes ([STOP]), and every instruction that starts before
    them, with its immediate data, ends strictly inside the buffer. *)
Definition wf_code (bs : list Z) : Prop :=
  Forall is_u8 bs /\
  exists n, (n < length bs)%nat /\
    (forall i b, (n <= i)%nat -> bs !! i = Some b -> b = 0) /\
    (forall i b, (i < n)%nat -> bs !! i = Some b -> Z.of_nat i + 1 + push_len b < zlen bs).

Lemma wf_code_padded (code : list Z) (n : nat) :
  Forall is_u8 code -> (33 <= n)%nat -> wf_code (code ++ replicate n 0).
Proof.
  intros Hu8 Hn. split.
  - apply Forall_app. split; [done|]. apply Forall_replicate. unfold is_u8. lia.
  - exists (length code). rewrite length_app, length_replicate. split; [lia|]. split.
    + intros i b Hi Hb. rewrite lookup_app_r in Hb by done.
      by apply lookup_replicate in Hb as [-> _].
    + intros i b Hi _. pose proof (push_len_range b). autorewrite with zlen. rlia.
Qed.

Lemma wf_code_stop : wf_code [0].
Proof.
  split; [repeat constructor; unfold is_u8; lia|]. exists 0%nat. simpl. split; [lia|].
  split; intros [|i] b; simpl; intros; simplify_eq; try done; lia.
Qed.

(** Whatever executes at an offset of such code, the offset after the
    instruction is again inside, unless it was a [STOP]. *)
Lemma wf_code_next (bs : list Z) (i : nat) (op : Z) :
  wf_code bs -> bs !! i = Some op -> op <> 0 -> Z.of_nat i + 1 + push_len op < zlen bs.
Proof.
  intros (_ & n & Hn & Hz & Hs) Hi Hne. destruct (decide (i < n)%nat) as [Hlt|Hge].
  - by apply (Hs i op).
  - exfalso. apply Hne, (Hz i op); [lia|done].
Qed.

Lemma wf_code_fit (bs : list Z) : wf_code bs -> operands_fit bs.
Proof.
  intros Hwf i op Hi Hop. pose proof (instr_start_nonneg _ _ Hi) as Hi0.
  destruct (decide (op = 0)) as [->|Hne].
  - apply lookup_lt_Some in Hop. change (push_len 0) with 0. rlia.
  - pose proof (wf_code_next bs (Z.to_nat i) op Hwf Hop Hne). lia.
Qed.

Lemma analyze_spec (code : list Z) :
  Forall is_u8 code -> operands_fit code ->
  exists m, analyze code = Val m /\ length m = length code /\
    forall i, 0 <= i -> JumpMap_is_valid m i = true <-> valid_jumpdest code i.
Proof.
  intros Hu8 Hfit. unfold analyze.
  destruct (analyze_loop_spec (S (length code)) code 0 (replicate (length code) false))
    as (m & Hm & Hlen & Hs); try done; try rlia.
  - constructor.
  - split; [by rewrite length_replicate|]. intros j Hj. rewrite lookup_replicate_2 by done.
    split; [done|]. lia.
  - exists m. split; [done|]. split; [done|]. intros i Hi.
    unfold JumpMap_is_valid. destruct (decide (Z.to_nat i < length code)%nat) as [Hlt|Hge].
    + specialize (Hs (Z.to_nat i) Hlt). rewrite Z2Nat.id in Hs by done.
      destruct (lookup_lt_is_Some_2 m (Z.to_nat i)) as [b Hb]; [lia|].
      rewrite Hb in Hs |- *. rewrite (proj2 (Z.ltb_lt i (zlen m))) by rlia. simpl.
      transitivity (Some b = Some true); [by destruct b; split; intros; simplify_eq|]. rewrite Hs.
      split; [by intros [_ ?]|]. intros ?. split; [rlia|done].
    + rewrite (proj2 (Z.ltb_ge i (zlen m))) by rlia. simpl. split; [done|].
      intros [_ Hj]. apply lookup_lt_Some in Hj. lia.
Qed.

(** Bytecode the code base builds: raw bytes, or a checked or analysed
    buffer that the interpreter may run, with the jump map of its code. *)
Definition wf_bytecode (b : Bytecode) : Prop :=
  Forall is_u8 (bc_bytecode b) /\
  match bc_state b with
  | Raw => True
  | Checked len => 0 <= len <= zlen (bc_bytecode b) /\ wf_code (bc_bytecode b)
  | Analysed len m =>
      0 <= len <= zlen (bc_bytecode b) /\ wf_code (bc_bytecode b) /\
      (length m <= length (bc_bytecode b))%nat /\
      forall i, 0 <= i -> JumpMap_is_valid m i = true <-> valid_jumpdest (bc_bytecode b) i
  end.

Lemma to_checked_wf (b : Bytecode) : wf_bytecode b -> wf_bytecode (Bytecode_to_checked b).
Proof.
  unfold wf_bytecode, Bytecode_to_checked. intros [Hu8 Hst].
  destruct (bc_state b) as [|len|len m] eqn:Es; [|by rewrite Es|by rewrite Es]. simpl.
  pose proof (wf_code_padded (bc_bytecode b) 33 Hu8 (le_n _)) as Hwf.
  rewrite resize_ge by rlia. unfold zlen.
  replace (Z.to_nat (Z.of_nat (length (bc_bytecode b)) + 33) - length (bc_bytecode b))%nat
    with 33%nat by lia.
  split; [apply Hwf|]. split; [rewrite length_app; lia|done].
Qed.

Lemma to_analysed_wf (b : Bytecode) : wf_bytecode b ->
  exists b' len m, to_analysed b = Val b' /\ wf_bytecode b' /\ bc_state b' = Analysed len m /\
    bc_hash b' = bc_hash b.
Proof.
  intros Hwf. unfold to_analysed.
  assert (Hgo : forall code len, 0 <= len <= zlen code -> wf_code code ->
    exists m, analyze code = Val m /\
      wf_bytecode (mkBytecode code (bc_hash b) (Analysed len m))).
  { intros code len Hlen Hc. pose proof (wf_code_fit code Hc) as Hfit.
    destruct (analyze_spec code (proj1 Hc) Hfit) as (m & Hm & Hl & Hv).
    exists m. split; [done|]. split; [apply Hc|]. repeat split; try done; simpl; try lia; apply Hc || apply Hv; done. }
  pose proof (to_checked_wf b Hwf) as Hck. destruct Hwf as [Hu8 Hst].
  destruct (bc_state b) as [|len|len m] eqn:Es.
  - unfold Bytecode_to_checked in Hck |- *. rewrite Es in Hck |- *.
    destruct Hck as (_ & Hlen & Hc). destruct (Hgo _ _ Hlen Hc) as (m & -> & Hm). simpl. eauto 10.
  - destruct Hst as [Hlen Hc]. destruct (Hgo _ _ Hlen Hc) as (m & -> & Hm). simpl. eauto 10.
  - exists b, len, m. split; [done|]. split; [|done]. split; [done|]. by rewrite Es.
Qed.

(** C22: analysing raw bytecode always terminates without reading out of
    bounds; the padded buffer keeps the original bytes as its prefix of the
    original length, and its jump map accepts exactly the [JUMPDEST] bytes at
    which decoding from the start of the code begins an instruction (never
    one inside the immediate data of a [PUSH]). *)
Theorem to_analysed_jump_map (code : list Z) (hash : Z) (Hcode : Forall is_u8 code) :
  exists m,
    to_analysed (mkBytecode code hash Raw) =
      Val (mkBytecode (code ++ replicate 33 0) hash (Analysed (zlen code) m)) /\
    forall i, 0 <= i ->
      JumpMap_is_valid m i = true <-> valid_jumpdest (code ++ replicate 33 0) i.
Proof.
  destruct (to_analysed_wf (mkBytecode code hash Raw)) as (b' & len & m & Hb & Hwf & Hs & Hh);
    [by split|].
  unfold to_analysed, Bytecode_to_checked in Hb |- *. simpl in Hb |- *.
  rewrite resize_ge in Hb |- * by rlia. unfold zlen in Hb |- *.
  replace (Z.to_nat (Z.of_nat (length code) + 33) - length code)%nat with 33%nat in * by lia.
  destruct (analyze _) as [m'| | |]; simplify_eq/=. exists m'. split; [done|].
  rewrite <- Hb in Hwf. by destruct Hwf as (_ & _ & _ & _ & Hv).
Qed.

(** The [0x5b] pushed by [PUSH1] is data, the one after it a destination. *)
Lemma to_analysed_jump_map_witness :
  Forall is_u8 [0x60; 0x5b; 0x5b; 0] /\
  exists m, JumpMap_is_valid m 1 = false /\ JumpMap_is_valid m 2 = true /\
    to_analysed (mkBytecode [0x60; 0x5b; 0x5b; 0] 7 Raw) =
      Val (mkBytecode ([0x60; 0x5b; 0x5b; 0] ++ replicate 33 0) 7 (Analysed 4 m)).
Proof.
  assert (H : Forall is_u8 [0x60; 0x5b; 0x5b; 0]) by (repeat constructor; by vm_compute).
  split; [exact H|].
  destruct (to_analysed_jump_map [0x60; 0x5b; 0x5b; 0] 7 H) as (m & Hm & _).
  exists m. rewrite Hm. vm_compute in Hm. simplify_eq. by vm_compute.
Defined.
