(* ===== verification/Interpreter.v ===== *)
(** * The interpreter's state, its host interface and the instruction macros

    [interpreter/src/interpreter.rs] and [interpreter/contract.rs] (the
    machine), [host.rs] (the trait through which instructions reach the
    state of the chain), [host/dummy_host.rs], and
    [instructions/macros.rs] (the early-return idioms every instruction is
    written with).  The raw instruction pointer is its offset [i_pc] from
    the start of the code buffer; reading through it outside the buffer is
    undefined. *)

From stdpp Require Import base option list gmap.
From Stdlib Require Import ZArith Lia.
From S2P Require Import Prelude Primitives Gas EvmStack EvmMemory I256 Opcode Analysis.

(** ** contract.rs *)

Record Contract := mkContract {
  ct_input : list Z;
  ct_bytecode : BytecodeLocked;
  ct_address : Z;
  ct_caller : Z;
  ct_value : Z;
}.

Definition Contract_new (input : list Z) (bytecode : Bytecode) (address caller value : Z) :
  rust Contract :=
  analysed ← to_analysed bytecode;
  locked ← unwrap (BytecodeLocked_try_from analysed);
  Val (mkContract input locked address caller value).

Definition Contract_new_env (env : Env) (bytecode : Bytecode) : rust Contract :=
  let contract_address :=
    match tx_transact_to (env_tx env) with
    | TransactCall caller => caller
    | TransactCreate _ => 0
    end in
  Contract_new (tx_data (env_tx env)) bytecode contract_address (tx_caller (env_tx env))
    (tx_value (env_tx env)).

Definition is_valid_jump (c : Contract) (position : Z) : bool :=
  JumpMap_is_valid (bl_jump_map (ct_bytecode c)) position.

Definition Contract_new_with_context (input : list Z) (bytecode : Bytecode)
  (call_context : CallContext) : rust Contract :=
  Contract_new input bytecode (cc_address call_context) (cc_caller call_context)
    (cc_apparent_value call_context).

(** ** interpreter.rs: the machine *)

Definition CALL_STACK_LIMIT : Z := 1024.
Definition MAX_CODE_SIZE : Z := 0x6000.
Definition MAX_INITCODE_SIZE : Z := 2 * MAX_CODE_SIZE.

Record Interpreter := mkInterpreter {
  i_pc : Z;
  i_result : InstructionResult;
  i_gas : Gas;
  i_memory : list Z;
  i_stack : list Z;
  i_return_data_buffer : list Z;
  i_return_range : Z * Z;
  i_is_static : bool;
  i_contract : Contract;
  i_memory_limit : Z;
}.

Definition new_with_memory_limit (contract : Contract) (gas_limit : Z) (is_static : bool)
  (memory_limit : Z) : Interpreter :=
  mkInterpreter 0 Continue (Gas_new gas_limit) Memory.new Stack.new [] (0, 0) is_static
    contract memory_limit.

Definition Interpreter_new (contract : Contract) (gas_limit : Z) (is_static : bool) :
  Interpreter := new_with_memory_limit contract gas_limit is_static u64_max.

Definition code_of (i : Interpreter) : list Z := bl_bytecode (ct_bytecode (i_contract i)).

Definition current_opcode (i : Interpreter) : rust Z := get_unchecked (code_of i) (i_pc i).

Definition program_counter (i : Interpreter) : Z := i_pc i.

Definition return_value (i : Interpreter) : rust (list Z) :=
  let '(start, end_) := i_return_range i in
  if start =? u64_max then Val []
  else Memory.get_slice (i_memory i) start (wrap64 (end_ - start)).

(** Assignments to the fields. *)
Definition set_pc (i : Interpreter) (pc : Z) : Interpreter :=
  mkInterpreter pc (i_result i) (i_gas i) (i_memory i) (i_stack i) (i_return_data_buffer i)
    (i_return_range i) (i_is_static i) (i_contract i) (i_memory_limit i).
Definition set_result (i : Interpreter) (r : InstructionResult) : Interpreter :=
  mkInterpreter (i_pc i) r (i_gas i) (i_memory i) (i_stack i) (i_return_data_buffer i)
    (i_return_range i) (i_is_static i) (i_contract i) (i_memory_limit i).
Definition set_gas (i : Interpreter) (g : Gas) : Interpreter :=
  mkInterpreter (i_pc i) (i_result i) g (i_memory i) (i_stack i) (i_return_data_buffer i)
    (i_return_range i) (i_is_static i) (i_contract i) (i_memory_limit i).
Definition set_memory (i : Interpreter) (m : list Z) : Interpreter :=
  mkInterpreter (i_pc i) (i_result i) (i_gas i) m (i_stack i) (i_return_data_buffer i)
    (i_return_range i) (i_is_static i) (i_contract i) (i_memory_limit i).
Definition set_stack (i : Interpreter) (s : list Z) : Interpreter :=
  mkInterpreter (i_pc i) (i_result i) (i_gas i) (i_memory i) s (i_return_data_buffer i)
    (i_return_range i) (i_is_static i) (i_contract i) (i_memory_limit i).
Definition set_return_data_buffer (i : Interpreter) (b : list Z) : Interpreter :=
  mkInterpreter (i_pc i) (i_result i) (i_gas i) (i_memory i) (i_stack i) b
    (i_return_range i) (i_is_static i) (i_contract i) (i_memory_limit i).
Definition set_return_range (i : Interpreter) (r : Z * Z) : Interpreter :=
  mkInterpreter (i_pc i) (i_result i) (i_gas i) (i_memory i) (i_stack i)
    (i_return_data_buffer i) r (i_is_static i) (i_contract i) (i_memory_limit i).

(** ** host.rs: the trait [Host]

    A method takes the host and returns its answer with the changed host.
    [step] and [step_end] also receive the interpreter by mutable
    reference. *)
Class Host (H : Type) := {
  host_step : H -> Interpreter -> bool -> rust (InstructionResult * Interpreter * H);
  host_step_end : H -> Interpreter -> bool -> InstructionResult ->
    rust (InstructionResult * Interpreter * H);
  host_env : H -> Env;
  host_load_account : H -> Z -> rust (option (bool * bool) * H);
  host_block_hash : H -> Z -> rust (option Z * H);
  host_balance : H -> Z -> rust (option (Z * bool) * H);
  host_code : H -> Z -> rust (option (Bytecode * bool) * H);
  host_code_hash : H -> Z -> rust (option (Z * bool) * H);
  host_sload : H -> Z -> Z -> rust (option (Z * bool) * H);
  host_sstore : H -> Z -> Z -> Z -> rust (option (Z * Z * Z * bool) * H);
  host_log : H -> Z -> list Z -> list Z -> rust H;
  host_selfdestruct : H -> Z -> Z -> rust (option SelfDestructResult * H);
  host_create : H -> CreateInputs ->
    rust (InstructionResult * option Z * Gas * list Z * H);
  host_call : H -> CallInputs -> rust (InstructionResult * Gas * list Z * H);
}.

(** ** The instruction monad

    An instruction runs on the interpreter and the host.  [None] is the
    [return;] of the macros: the rest of the instruction is skipped. *)
Definition instr (H A : Type) : Type := Interpreter -> H -> rust (option A * Interpreter * H).

#[export] Instance instr_ret (H : Type) : MRet (instr H) := fun A a i h => Val (Some a, i, h).
#[export] Instance instr_bind (H : Type) : MBind (instr H) := fun A B f m i h =>
  match m i h with
  | Val (Some a, i', h') => f a i' h'
  | Val (None, i', h') => Val (None, i', h')
  | Panic => Panic
  | Undef => Undef
  | Diverge => Diverge
  end.

Section macros_section.
Context {H : Type}.

Definition ret {A : Type} (a : A) : instr H A := fun i h => Val (Some a, i, h).

(** [return;] *)
Definition leave {A : Type} : instr H A := fun i h => Val (None, i, h).

(** [interpreter.instruction_result = r; return;] *)
Definition fail_with {A : Type} (r : InstructionResult) : instr H A :=
  fun i h => Val (None, set_result i r, h).

(** Reading and updating the interpreter. *)
Definition get_interp : instr H Interpreter := fun i h => Val (Some i, i, h).
Definition modify (f : Interpreter -> Interpreter) : instr H unit :=
  fun i h => Val (Some tt, f i, h).

(** An expression that may panic. *)
Definition lift {A : Type} (m : rust A) : instr H A :=
  fun i h => a ← m; Val (Some a, i, h).

(** A call of a host method. *)
Definition ask {A : Type} (f : H -> rust (A * H)) : instr H A :=
  fun i h => '(a, h') ← f h; Val (Some a, i, h').

(** ** macros.rs *)

Definition check_staticcall : instr H unit :=
  fun i h => if i_is_static i then Val (None, set_result i StateChangeDuringStaticCall, h)
  else Val (Some tt, i, h).

Definition check (expression : bool) : instr H unit :=
  if expression then ret tt else fail_with NotActivated.

(** [gas!] *)
Definition gas_ (cost : Z) : instr H unit := fun i h =>
  let '(g, ok) := record_cost (i_gas i) cost in
  let i := set_gas i g in
  if ok then Val (Some tt, i, h) else Val (None, set_result i OutOfGas, h).

(** [refund!] *)
Definition refund_ (amount : Z) : instr H unit :=
  modify (fun i => set_gas i (gas_refund (i_gas i) amount)).

Definition gas_or_fail (cost : option Z) : instr H unit :=
  match cost with Some gas_used => gas_ gas_used | None => fail_with OutOfGas end.

Definition memory_resize (offset len : Z) : instr H unit := fun i h =>
  match Memory.next_multiple_of_32 (u64_saturating_add offset len) with
  | Some new_size =>
      if i_memory_limit i <? new_size then Val (None, set_result i MemoryLimitOOG, h)
      else if Memory.len (i_memory i) <? new_size then
        let num_bytes := new_size / 32 in
        let '(g, ok) := record_memory (i_gas i) (memory_gas num_bytes) in
        let i := set_gas i g in
        if ok then
          m ← Memory.resize (i_memory i) new_size; Val (Some tt, set_memory i m, h)
        else Val (None, set_result i MemoryLimitOOG, h)
      else Val (Some tt, i, h)
  | None => Val (None, set_result i MemoryOOG, h)
  end.

(** The shape shared by the pop macros: check the length, then run the
    unchecked accessor. *)
Definition pop_with {A : Type} (n : Z) (f : list Z -> rust (A * list Z)) : instr H A :=
  fun i h =>
  if Stack.len (i_stack i) <? n then Val (None, set_result i StackUnderflow, h)
  else '(a, s) ← f (i_stack i); Val (Some a, set_stack i s, h).

Definition pop1 : instr H Z := pop_with 1 Stack.pop_unsafe.
Definition pop2 : instr H (Z * Z) := pop_with 2 Stack.pop2_unsafe.
Definition pop3 : instr H (Z * Z * Z) := pop_with 3 Stack.pop3_unsafe.
Definition pop4 : instr H (Z * Z * Z * Z) := pop_with 4 Stack.pop4_unsafe.

(** The last 20 of the 32 big-endian bytes. *)
Definition pop_address : instr H Z :=
  w ← pop1; ret (from_be_bytes (drop 12 (to_be_bytes 32 w))).

(** [pop_top!]: the reference to the top is written with [set_top]. *)
Definition pop_top1 : instr H Z :=
  pop_with 1 (fun s => v ← Stack.top_unsafe s; Val (v, s)).
Definition pop_top2 : instr H (Z * Z) := pop_with 2 Stack.pop_top_unsafe.
Definition pop_top3 : instr H (Z * Z * Z) := pop_with 3 Stack.pop2_top_unsafe.
Definition set_top (v : Z) : instr H unit := fun i h =>
  s ← Stack.set_top (i_stack i) v; Val (Some tt, set_stack i s, h).

(** [push!] and [push_b256!] *)
Definition push (v : Z) : instr H unit := fun i h =>
  match Stack.push (i_stack i) v with
  | (s, inl _) => Val (Some tt, set_stack i s, h)
  | (s, inr e) => Val (None, set_result (set_stack i s) e, h)
  end.
Definition push_b256 (v : Z) : instr H unit := fun i h =>
  match Stack.push_b256 (i_stack i) v with
  | (s, inl _) => Val (Some tt, set_stack i s, h)
  | (s, inr e) => Val (None, set_result (set_stack i s) e, h)
  end.

Definition as_usize_or_fail (v : Z) (reason : InstructionResult) : instr H Z :=
  if negb (limb v 1 =? 0) || negb (limb v 2 =? 0) || negb (limb v 3 =? 0)
  then fail_with reason
  else ret (limb v 0).

(** [if ret.is_none() { FatalExternalError; return } ret.unwrap()] *)
Definition some_or_fatal {A : Type} (o : option A) : instr H A :=
  match o with Some a => ret a | None => fail_with FatalExternalError end.

End macros_section.

(** ** host/dummy_host.rs *)

Record DummyHost := mkDummyHost {
  dh_env : Env;
  dh_storage : gmap Z Z;
  dh_log : list Log;
}.

Definition DummyHost_new (env : Env) : DummyHost := mkDummyHost env ∅ [].
Definition DummyHost_clear (d : DummyHost) : DummyHost := mkDummyHost (dh_env d) ∅ [].

Definition DummyHost_sload (d : DummyHost) (index : Z) : option (Z * bool) * DummyHost :=
  match dh_storage d !! index with
  | Some v => (Some (v, false), d)
  | None => (Some (0, true), mkDummyHost (dh_env d) (<[index := 0]> (dh_storage d)) (dh_log d))
  end.

Definition DummyHost_sstore (d : DummyHost) (index value : Z) :
  option (Z * Z * Z * bool) * DummyHost :=
  let '(present, is_cold) :=
    match dh_storage d !! index with
    | Some old => (old, false)
    | None => (0, true)
    end in
  (Some (0, present, value, is_cold),
   mkDummyHost (dh_env d) (<[index := value]> (dh_storage d)) (dh_log d)).

Definition DummyHost_log (d : DummyHost) (address : Z) (topics data : list Z) : DummyHost :=
  mkDummyHost (dh_env d) (dh_storage d) (dh_log d ++ [mkLog address topics data]).

#[export] Instance DummyHost_Host : Host DummyHost := {|
  host_step h i _ := Val (Continue, i, h);
  host_step_end h i _ _ := Val (Continue, i, h);
  host_env := dh_env;
  host_load_account h _ := Val (Some (true, true), h);
  host_block_hash h _ := Val (Some 0, h);
  host_balance h _ := Val (Some (0, false), h);
  host_code h _ := Val (Some (Bytecode_new, false), h);
  host_code_hash h _ := Val (Some (KECCAK_EMPTY, false), h);
  host_sload h _ index := Val (DummyHost_sload h index);
  host_sstore h _ index value := Val (DummyHost_sstore h index value);
  host_log h address topics data := Val (DummyHost_log h address topics data);
  host_selfdestruct _ _ _ := Panic;
  host_create _ _ := Panic;
  host_call _ _ := Panic;
|}.
