(* ===== verification/Instructions.v ===== *)
(** * The instruction set: [interpreter/src/instructions/*.rs]

    One module per source file, one definition per instruction, and the
    dispatcher [eval] with the machine's [step] and [run] loops.  The
    instructions are parametric in the host, and in the hard fork [SPEC]
    where the code is. *)

From stdpp Require Import base option list gmap.
From Stdlib Require Import ZArith Lia.
From S2P Require Import Prelude Primitives Gas EvmStack EvmMemory I256 Opcode Analysis Interpreter.

Section shared.
Context {H : Type} `{!Host H}.

Definition bool_word (b : bool) : Z := if b then 1 else 0.

(** [gas!; pop_top!(op1, op2); *op2 = f(op1, *op2)] *)
Definition binary_op (cost : Z) (f : Z -> Z -> rust Z) : instr H unit :=
  gas_ cost;; '(op1, op2) ← pop_top2; v ← lift (f op1 op2); set_top v.

(** [host.env()], read only by the instructions. *)
Definition get_env : instr H Env := ask (fun h => Val (host_env h, h)).

End shared.

(** ** arithmetic.rs *)

Module arithmetic.
Section instructions.
Context {H : Type} {HH : Host H} {HC : Crypto}.

Definition wrapped_add : instr H unit :=
  binary_op gas.VERYLOW (fun op1 op2 => Val (wrap256 (op1 + op2))).
Definition wrapping_mul : instr H unit :=
  binary_op gas.LOW (fun op1 op2 => Val (wrap256 (op1 * op2))).
Definition wrapping_sub : instr H unit :=
  binary_op gas.VERYLOW (fun op1 op2 => Val (wrap256 (op1 - op2))).
Definition div : instr H unit :=
  binary_op gas.LOW (fun op1 op2 => Val (if op2 =? 0 then 0 else op1 / op2)).
Definition sdiv : instr H unit := binary_op gas.LOW i256_div.
Definition rem : instr H unit :=
  binary_op gas.LOW (fun op1 op2 => Val (if op2 =? 0 then 0 else op1 mod op2)).

Definition smod : instr H unit :=
  gas_ gas.LOW;; '(op1, op2) ← pop_top2;
  if negb (op2 =? 0) then v ← lift (i256_mod op1 op2); set_top v else ret tt.

Definition addmod : instr H unit :=
  gas_ gas.MID;; '(op1, op2, op3) ← pop_top3; set_top (u256_add_mod op1 op2 op3).
Definition mulmod : instr H unit :=
  gas_ gas.MID;; '(op1, op2, op3) ← pop_top3; set_top (u256_mul_mod op1 op2 op3).

Definition eval_exp (SPEC : SpecId) : instr H unit :=
  '(op1, op2) ← pop_top2;
  cost ← lift (exp_cost SPEC op2);
  gas_or_fail cost;;
  set_top (u256_pow op1 op2).

Definition signextend : instr H unit :=
  binary_op gas.LOW (fun op1 op2 => Val (signextend_word op1 op2)).

End instructions.
End arithmetic.

(** ** bitwise.rs *)

Module bitwise.
Section instructions.
Context {H : Type} {HH : Host H} {HC : Crypto}.

Definition lt : instr H unit :=
  binary_op gas.VERYLOW (fun op1 op2 => Val (bool_word (op1 <? op2))).
Definition gt : instr H unit :=
  binary_op gas.VERYLOW (fun op1 op2 => Val (bool_word (op2 <? op1))).
Definition slt : instr H unit :=
  binary_op gas.VERYLOW (fun op1 op2 =>
    Val (match i256_cmp op1 op2 with Lt => 1 | _ => 0 end)).
Definition sgt : instr H unit :=
  binary_op gas.VERYLOW (fun op1 op2 =>
    Val (match i256_cmp op1 op2 with Gt => 1 | _ => 0 end)).
Definition eq : instr H unit :=
  binary_op gas.VERYLOW (fun op1 op2 => Val (bool_word (op1 =? op2))).

Definition iszero : instr H unit :=
  gas_ gas.VERYLOW;; op1 ← pop_top1; set_top (bool_word (op1 =? 0)).

Definition bitand : instr H unit :=
  binary_op gas.VERYLOW (fun op1 op2 => Val (Z.land op1 op2)).
Definition bitor : instr H unit :=
  binary_op gas.VERYLOW (fun op1 op2 => Val (Z.lor op1 op2)).
Definition bitxor : instr H unit :=
  binary_op gas.VERYLOW (fun op1 op2 => Val (Z.lxor op1 op2)).

Definition not : instr H unit :=
  gas_ gas.VERYLOW;; op1 ← pop_top1; set_top (u256_not op1).

Definition byte : instr H unit :=
  binary_op gas.VERYLOW (fun op1 op2 => Val (byte_word op1 op2)).

Definition shl (SPEC : SpecId) : instr H unit :=
  check (enabled SPEC CONSTANTINOPLE);;
  binary_op gas.VERYLOW (fun op1 op2 => Val (u256_shl op2 (as_u64_saturated op1))).
Definition shr (SPEC : SpecId) : instr H unit :=
  check (enabled SPEC CONSTANTINOPLE);;
  binary_op gas.VERYLOW (fun op1 op2 => Val (u256_shr op2 (as_u64_saturated op1))).
Definition sar (SPEC : SpecId) : instr H unit :=
  check (enabled SPEC CONSTANTINOPLE);; binary_op gas.VERYLOW sar_word.

End instructions.
End bitwise.

(** ** control.rs *)

Module control.
Section instructions.
Context {H : Type} {HH : Host H} {HC : Crypto}.

(** Move the instruction pointer to a valid destination or stop. *)
Definition jump_to (dest : Z) : instr H unit :=
  i ← get_interp;
  if is_valid_jump (i_contract i) dest then modify (fun i => set_pc i dest)
  else modify (fun i => set_result i InvalidJump).

Definition jump : instr H unit :=
  gas_ gas.MID;; dest ← pop1;
  dest ← as_usize_or_fail dest InvalidJump;
  jump_to dest.

Definition jumpi : instr H unit :=
  gas_ gas.HIGH;; '(dest, value) ← pop2;
  if negb (value =? 0) then
    dest ← as_usize_or_fail dest InvalidJump; jump_to dest
  else Interpreter.ret tt.

Definition jumpdest : instr H unit := gas_ gas.JUMPDEST.

Definition pc : instr H unit :=
  gas_ gas.BASE;; i ← get_interp; push (wrap64 (program_counter i - 1)).

(** The common tail of [ret] and [revert]. *)
Definition return_with (r : InstructionResult) : instr H unit :=
  '(start, len) ← pop2;
  len ← as_usize_or_fail len InvalidOperandOOG;
  (if len =? 0 then modify (fun i => set_return_range i (u64_max, u64_max))
   else
     offset ← as_usize_or_fail start InvalidOperandOOG;
     memory_resize offset len;;
     modify (fun i => set_return_range i (offset, wrap64 (offset + len))));;
  modify (fun i => set_result i r).

Definition ret : instr H unit := return_with Return.
Definition revert (SPEC : SpecId) : instr H unit :=
  check (enabled SPEC BYZANTIUM);; return_with Revert.

End instructions.
End control.

(** ** memory.rs *)

Module memory.
Section instructions.
Context {H : Type} {HH : Host H} {HC : Crypto}.

Definition mload : instr H unit :=
  gas_ gas.VERYLOW;; index ← pop1;
  index ← as_usize_or_fail index InvalidOperandOOG;
  memory_resize index 32;;
  i ← get_interp;
  bytes ← lift (Memory.get_slice (i_memory i) index 32);
  push (from_be_bytes bytes).

Definition mstore : instr H unit :=
  gas_ gas.VERYLOW;; '(index, value) ← pop2;
  index ← as_usize_or_fail index InvalidOperandOOG;
  memory_resize index 32;;
  i ← get_interp;
  m ← lift (Memory.set_u256 (i_memory i) index value);
  modify (fun i => set_memory i m).

Definition mstore8 : instr H unit :=
  gas_ gas.VERYLOW;; '(index, value) ← pop2;
  index ← as_usize_or_fail index InvalidOperandOOG;
  memory_resize index 1;;
  i ← get_interp;
  m ← lift (Memory.set_byte (i_memory i) index (value mod 256));
  modify (fun i => set_memory i m).

Definition msize : instr H unit :=
  gas_ gas.BASE;; i ← get_interp; push (Memory.effective_len (i_memory i)).

End instructions.
End memory.

(** ** stack.rs *)

Module stack.
Section instructions.
Context {H : Type} {HH : Host H} {HC : Crypto}.

Definition set_result_if (r : option InstructionResult) : instr H unit :=
  match r with Some r => modify (fun i => set_result i r) | None => ret tt end.

Definition pop : instr H unit :=
  gas_ gas.BASE;; i ← get_interp;
  let '(s, r) := Stack.reduce_one (i_stack i) in
  modify (fun i => set_stack i s);; set_result_if r.

Definition push0 (SPEC : SpecId) : instr H unit :=
  check (enabled SPEC SHANGHAI);; gas_ gas.BASE;; Interpreter.push 0.

(** [from_raw_parts(start, N)]: undefined past the end of the buffer. *)
Definition raw_parts (code : list Z) (start N : Z) : rust (list Z) :=
  if (0 <=? start) && (start + N <=? zlen code)
  then Val (take (Z.to_nat N) (drop (Z.to_nat start) code)) else Undef.

Definition push (N : Z) : instr H unit :=
  gas_ gas.VERYLOW;; i ← get_interp;
  sl ← lift (raw_parts (code_of i) (i_pc i) N);
  '(s, r) ← lift (Stack.push_slice N (i_stack i) sl);
  modify (fun i => set_stack i s);;
  match r with
  | Some r => fail_with r
  | None => modify (fun i => set_pc i (i_pc i + N))
  end.

Definition dup (N : Z) : instr H unit :=
  gas_ gas.VERYLOW;; i ← get_interp;
  '(s, r) ← lift (Stack.dup N (i_stack i));
  modify (fun i => set_stack i s);; set_result_if r.

Definition swap (N : Z) : instr H unit :=
  gas_ gas.VERYLOW;; i ← get_interp;
  '(s, r) ← lift (Stack.swap N (i_stack i));
  modify (fun i => set_stack i s);; set_result_if r.

End instructions.
End stack.

(** ** system.rs *)

Module system.
Section instructions.
Context {H : Type} {HH : Host H} {HC : Crypto}.

Definition sha3 : instr H unit :=
  '(from, len) ← pop2;
  len ← as_usize_or_fail len InvalidOperandOOG;
  gas_or_fail (sha3_cost len);;
  hash ← (if len =? 0 then ret KECCAK_EMPTY
          else
            from ← as_usize_or_fail from InvalidOperandOOG;
            memory_resize from len;;
            i ← get_interp;
            bytes ← lift (Memory.get_slice (i_memory i) from len);
            ret (keccak256 bytes));
  push_b256 hash.

Definition address : instr H unit :=
  gas_ gas.BASE;; i ← get_interp; push_b256 (ct_address (i_contract i)).
Definition caller : instr H unit :=
  gas_ gas.BASE;; i ← get_interp; push_b256 (ct_caller (i_contract i)).
Definition codesize : instr H unit :=
  gas_ gas.BASE;; i ← get_interp; push (bl_len (ct_bytecode (i_contract i))).

(** Grow memory and copy [len] bytes of [data] from [data_offset]. *)
Definition copy_to_memory (memory_offset data_offset len : Z) (data : rust (list Z)) :
  instr H unit :=
  memory_resize memory_offset len;;
  data ← lift data;
  i ← get_interp;
  m ← lift (Memory.set_data (i_memory i) memory_offset data_offset len data);
  modify (fun i => set_memory i m).

Definition codecopy : instr H unit :=
  '(memory_offset, code_offset, len) ← pop3;
  len ← as_usize_or_fail len InvalidOperandOOG;
  gas_or_fail (verylowcopy_cost len);;
  if len =? 0 then leave else
  memory_offset ← as_usize_or_fail memory_offset InvalidOperandOOG;
  let code_offset := as_u64_saturated code_offset in
  i ← get_interp;
  copy_to_memory memory_offset code_offset len
    (original_bytecode_slice (ct_bytecode (i_contract i))).

Definition calldataload : instr H unit :=
  gas_ gas.VERYLOW;; index ← pop1;
  let index := as_u64_saturated index in
  i ← get_interp;
  let input := ct_input (i_contract i) in
  load ← (if index <? zlen input then
            let have_bytes := Z.min (zlen input - index) 32 in
            src ← lift (slice input index (index + have_bytes));
            bytes ← lift (copy_from_slice (replicate 32 0) 0 have_bytes src);
            ret (from_be_bytes bytes)
          else ret 0);
  push_b256 load.

Definition calldatasize : instr H unit :=
  gas_ gas.BASE;; i ← get_interp; push (zlen (ct_input (i_contract i))).
Definition callvalue : instr H unit :=
  gas_ gas.BASE;; i ← get_interp; push (ct_value (i_contract i)).

Definition calldatacopy : instr H unit :=
  '(memory_offset, data_offset, len) ← pop3;
  len ← as_usize_or_fail len InvalidOperandOOG;
  gas_or_fail (verylowcopy_cost len);;
  if len =? 0 then leave else
  memory_offset ← as_usize_or_fail memory_offset InvalidOperandOOG;
  let data_offset := as_u64_saturated data_offset in
  i ← get_interp;
  copy_to_memory memory_offset data_offset len (Val (ct_input (i_contract i))).

Definition returndatasize (SPEC : SpecId) : instr H unit :=
  gas_ gas.BASE;; check (enabled SPEC BYZANTIUM);;
  i ← get_interp; push (zlen (i_return_data_buffer i)).

Definition returndatacopy (SPEC : SpecId) : instr H unit :=
  check (enabled SPEC BYZANTIUM);;
  '(memory_offset, offset, len) ← pop3;
  len ← as_usize_or_fail len InvalidOperandOOG;
  gas_or_fail (verylowcopy_cost len);;
  let data_offset := as_u64_saturated offset in
  let '(data_end, overflow) := u64_overflowing_add data_offset len in
  i ← get_interp;
  if overflow || (zlen (i_return_data_buffer i) <? data_end) then fail_with OutOfOffset
  else if negb (len =? 0) then
    memory_offset ← as_usize_or_fail memory_offset InvalidOperandOOG;
    memory_resize memory_offset len;;
    i ← get_interp;
    src ← lift (slice (i_return_data_buffer i) data_offset data_end);
    m ← lift (Memory.set (i_memory i) memory_offset src);
    modify (fun i => set_memory i m)
  else ret tt.

Definition gas : instr H unit :=
  gas_ gas.BASE;; i ← get_interp; push (remaining (i_gas i)).

End instructions.
End system.

(** ** host_env.rs *)

Module host_env.
Section instructions.
Context {H : Type} {HH : Host H} {HC : Crypto}.

Definition chainid (SPEC : SpecId) : instr H unit :=
  check (enabled SPEC ISTANBUL);; gas_ gas.BASE;;
  e ← get_env; push (cfg_chain_id (env_cfg e)).
Definition coinbase : instr H unit :=
  gas_ gas.BASE;; e ← get_env; push_b256 (block_coinbase (env_block e)).
Definition timestamp : instr H unit :=
  gas_ gas.BASE;; e ← get_env; push (block_timestamp (env_block e)).
Definition number : instr H unit :=
  gas_ gas.BASE;; e ← get_env; push (block_number (env_block e)).
Definition difficulty (SPEC : SpecId) : instr H unit :=
  gas_ gas.BASE;; e ← get_env;
  if enabled SPEC MERGE then
    r ← lift (unwrap (block_prevrandao (env_block e))); push_b256 r
  else push (block_difficulty (env_block e)).
Definition gaslimit : instr H unit :=
  gas_ gas.BASE;; e ← get_env; push (block_gas_limit (env_block e)).
Definition gasprice : instr H unit :=
  gas_ gas.BASE;; e ← get_env; push (effective_gas_price e).
Definition basefee (SPEC : SpecId) : instr H unit :=
  gas_ gas.BASE;; check (enabled SPEC LONDON);;
  e ← get_env; push (block_basefee (env_block e)).
Definition origin : instr H unit :=
  gas_ gas.BASE;; e ← get_env; push_b256 (tx_caller (env_tx e)).

End instructions.
End host_env.

(** ** host.rs *)

Module host.
Section instructions.
Context {H : Type} {HH : Host H} {HC : Crypto}.

Definition balance (SPEC : SpecId) : instr H unit :=
  address ← pop_address;
  r ← ask (fun h => host_balance h address);
  '(balance, is_cold) ← some_or_fatal r;
  gas_ (if enabled SPEC ISTANBUL then account_access_gas SPEC is_cold
        else if enabled SPEC TANGERINE then 400 else 20);;
  push balance.

Definition selfbalance (SPEC : SpecId) : instr H unit :=
  check (enabled SPEC ISTANBUL);; gas_ gas.LOW;;
  i ← get_interp;
  r ← ask (fun h => host_balance h (ct_address (i_contract i)));
  '(balance, _) ← some_or_fatal r;
  push balance.

Definition extcodesize (SPEC : SpecId) : instr H unit :=
  address ← pop_address;
  r ← ask (fun h => host_code h address);
  '(code, is_cold) ← some_or_fatal r;
  (if enabled SPEC BERLIN then
     gas_ (if is_cold : bool then gas.COLD_ACCOUNT_ACCESS_COST else gas.WARM_STORAGE_READ_COST)
   else if enabled SPEC TANGERINE then gas_ 700
   else gas_ 20);;
  push (Bytecode_len code).

Definition extcodehash (SPEC : SpecId) : instr H unit :=
  check (enabled SPEC CONSTANTINOPLE);;
  address ← pop_address;
  r ← ask (fun h => host_code_hash h address);
  '(code_hash, is_cold) ← some_or_fatal r;
  (if enabled SPEC BERLIN then
     gas_ (if is_cold : bool then gas.COLD_ACCOUNT_ACCESS_COST else gas.WARM_STORAGE_READ_COST)
   else if enabled SPEC ISTANBUL then gas_ 700
   else gas_ 400);;
  push_b256 code_hash.

Definition extcodecopy (SPEC : SpecId) : instr H unit :=
  address ← pop_address;
  '(memory_offset, code_offset, len_u256) ← pop3;
  r ← ask (fun h => host_code h address);
  '(code, is_cold) ← some_or_fatal r;
  len ← as_usize_or_fail len_u256 InvalidOperandOOG;
  gas_or_fail (extcodecopy_cost SPEC len is_cold);;
  if len =? 0 then leave else
  memory_offset ← as_usize_or_fail memory_offset InvalidOperandOOG;
  let code_offset := Z.min (as_u64_saturated code_offset) (Bytecode_len code) in
  system.copy_to_memory memory_offset code_offset len (Val (bc_bytecode code)).

Definition blockhash : instr H unit :=
  gas_ gas.BLOCKHASH;; number ← pop_top1;
  e ← get_env;
  match u256_checked_sub (block_number (env_block e)) number with
  | Some diff =>
      let diff := as_u64_saturated diff in
      if (diff <=? 256) && negb (diff =? 0) then
        r ← ask (fun h => host_block_hash h number);
        hash ← some_or_fatal r;
        set_top hash
      else set_top 0
  | None => set_top 0
  end.

Definition sload (SPEC : SpecId) : instr H unit :=
  index ← pop1;
  i ← get_interp;
  r ← ask (fun h => host_sload h (ct_address (i_contract i)) index);
  '(value, is_cold) ← some_or_fatal r;
  gas_ (sload_cost SPEC is_cold);;
  push value.

Definition sstore (SPEC : SpecId) : instr H unit :=
  check_staticcall;;
  '(index, value) ← pop2;
  i ← get_interp;
  r ← ask (fun h => host_sstore h (ct_address (i_contract i)) index value);
  '(original, old, new, is_cold) ← some_or_fatal r;
  i ← get_interp;
  gas_or_fail (sstore_cost SPEC original old new (remaining (i_gas i)) is_cold);;
  refund_ (sstore_refund SPEC original old new).

(** Pop [n] topics, the length having been checked. *)
Fixpoint pop_topics (n : nat) : instr H (list Z) :=
  match n with
  | O => ret []
  | S n =>
      i ← get_interp;
      '(t, s) ← lift (Stack.pop_unsafe (i_stack i));
      modify (fun i => set_stack i s);;
      ts ← pop_topics n;
      ret (t :: ts)
  end.

Definition log (N : nat) : instr H unit :=
  check_staticcall;;
  '(offset, len) ← pop2;
  len ← as_usize_or_fail len InvalidOperandOOG;
  gas_or_fail (log_cost (Z.of_nat N) len);;
  data ← (if len =? 0 then ret []
          else
            offset ← as_usize_or_fail offset InvalidOperandOOG;
            memory_resize offset len;;
            i ← get_interp;
            lift (Memory.get_slice (i_memory i) offset len));
  i ← get_interp;
  if Stack.len (i_stack i) <? Z.of_nat N then fail_with StackUnderflow else
  topics ← pop_topics N;
  ask (fun h => h ← host_log h (ct_address (i_contract i)) topics data; Val (tt, h)).

Definition selfdestruct (SPEC : SpecId) : instr H unit :=
  check_staticcall;;
  target ← pop_address;
  i ← get_interp;
  r ← ask (fun h => host_selfdestruct h (ct_address (i_contract i)) target);
  res ← some_or_fatal r;
  (if negb (enabled SPEC LONDON) && negb (sd_previously_destroyed res)
   then refund_ gas.SELFDESTRUCT else ret tt);;
  gas_ (selfdestruct_cost SPEC res);;
  modify (fun i => set_result i SelfDestruct).

(** The init code argument of [create], read from memory. *)
Definition create_code (SPEC : SpecId) (code_offset len : Z) : instr H (list Z) :=
  if len =? 0 then ret []
  else
    code_offset ← as_usize_or_fail code_offset InvalidOperandOOG;
    (if enabled SPEC SHANGHAI then
       e ← get_env;
       let max_initcode_size :=
         match cfg_limit_contract_code_size (env_cfg e) with
         | Some limit => u64_saturating_mul limit 2
         | None => MAX_INITCODE_SIZE
         end in
       if max_initcode_size <? len then fail_with CreateInitcodeSizeLimit
       else gas_ (initcode_cost len)
     else ret tt);;
    memory_resize code_offset len;;
    i ← get_interp;
    lift (Memory.get_slice (i_memory i) code_offset len).

(** The tail of [create]: what the parent does with the host's answer. *)
Definition create_result (return_reason : InstructionResult) (address : option Z) (g : Gas)
  (return_data : list Z) : instr H unit :=
  modify (fun i => set_return_data_buffer i
    (if return_revert return_reason then return_data else []));;
  if return_ok return_reason then
    push_b256 (default 0 address);;
    modify (fun i =>
      set_gas i (record_refund (erase_cost (i_gas i) (remaining g)) (refunded g)))
  else if return_revert return_reason then
    push_b256 0;;
    modify (fun i => set_gas i (erase_cost (i_gas i) (remaining g)))
  else if decide (return_reason = FatalExternalError) then
    modify (fun i => set_result i FatalExternalError)
  else push_b256 0.

Definition create (IS_CREATE2 : bool) (SPEC : SpecId) : instr H unit :=
  check_staticcall;;
  (if IS_CREATE2 then check (enabled SPEC PETERSBURG) else ret tt);;
  modify (fun i => set_return_data_buffer i []);;
  '(value, code_offset, len) ← pop3;
  len ← as_usize_or_fail len InvalidOperandOOG;
  code ← create_code SPEC code_offset len;
  scheme ← (if IS_CREATE2 then
              salt ← pop1; gas_or_fail (create2_cost len);; ret (Create2 salt)
            else gas_ gas.CREATE;; ret Create);
  i ← get_interp;
  let gas_limit := remaining (i_gas i) in
  let gas_limit :=
    if enabled SPEC TANGERINE then gas_limit - gas_limit / 64 else gas_limit in
  gas_ gas_limit;;
  let create_input :=
    mkCreateInputs (ct_address (i_contract i)) scheme value code gas_limit in
  '(return_reason, address, g, return_data) ← ask (fun h => host_create h create_input);
  create_result return_reason address g return_data.

Definition is_call_or_callcode (s : CallScheme) : bool :=
  match s with Call | CallCode => true | _ => false end.
Definition is_call_or_staticcall (s : CallScheme) : bool :=
  match s with Call | StaticCall => true | _ => false end.

(** The value operand of a call. *)
Definition call_value (scheme : CallScheme) : instr H Z :=
  match scheme with
  | CallCode => pop1
  | Call =>
      value ← pop1;
      i ← get_interp;
      if i_is_static i && negb (value =? 0) then fail_with CallNotAllowedInsideStatic
      else ret value
  | DelegateCall | StaticCall => ret 0
  end.

(** The memory ranges of a call: its input bytes, and where its output
    goes. *)
Definition call_ranges (in_offset in_len out_offset out_len : Z) :
  instr H (list Z * Z * Z) :=
  in_len ← as_usize_or_fail in_len InvalidOperandOOG;
  input ← (if negb (in_len =? 0) then
             in_offset ← as_usize_or_fail in_offset InvalidOperandOOG;
             memory_resize in_offset in_len;;
             i ← get_interp;
             lift (Memory.get_slice (i_memory i) in_offset in_len)
           else ret []);
  out_len ← as_usize_or_fail out_len InvalidOperandOOG;
  out_offset ← (if negb (out_len =? 0) then
                  out_offset ← as_usize_or_fail out_offset InvalidOperandOOG;
                  memory_resize out_offset out_len;; ret out_offset
                else ret u64_max);
  ret (input, out_offset, out_len).

Definition call_context (scheme : CallScheme) (c : Contract) (to value : Z) : CallContext :=
  match scheme with
  | Call | StaticCall => mkCallContext to (ct_address c) to value scheme
  | CallCode => mkCallContext (ct_address c) (ct_address c) to value scheme
  | DelegateCall => mkCallContext (ct_address c) (ct_caller c) to (ct_value c) scheme
  end.

Definition call_transfer (scheme : CallScheme) (c : Contract) (to value : Z) : Transfer :=
  match scheme with
  | Call => mkTransfer (ct_address c) to value
  | CallCode => mkTransfer (ct_address c) (ct_address c) value
  | DelegateCall | StaticCall => mkTransfer (ct_address c) (ct_address c) 0
  end.

(** [memory.set(out_offset, &return_data_buffer[..target_len])] *)
Definition write_output (out_offset target_len : Z) : instr H unit :=
  i ← get_interp;
  src ← lift (slice (i_return_data_buffer i) 0 target_len);
  m ← lift (Memory.set (i_memory i) out_offset src);
  modify (fun i => set_memory i m).

(** The tail of [call_inner]: what the parent does with the host's answer. *)
Definition call_result (reason : InstructionResult) (g : Gas) (return_data : list Z)
  (out_offset out_len : Z) : instr H unit :=
  modify (fun i => set_return_data_buffer i return_data);;
  let target_len := Z.min out_len (zlen return_data) in
  if return_ok reason then
    modify (fun i =>
      set_gas i (record_refund (erase_cost (i_gas i) (remaining g)) (refunded g)));;
    write_output out_offset target_len;;
    push 1
  else if return_revert reason then
    modify (fun i => set_gas i (erase_cost (i_gas i) (remaining g)));;
    write_output out_offset target_len;;
    push 0
  else if decide (reason = FatalExternalError) then
    modify (fun i => set_result i FatalExternalError)
  else push 0.

Definition call_inner (SPEC : SpecId) (scheme : CallScheme) : instr H unit :=
  (match scheme with
   | DelegateCall => check (enabled SPEC HOMESTEAD)
   | StaticCall => check (enabled SPEC BYZANTIUM)
   | _ => ret tt
   end);;
  modify (fun i => set_return_data_buffer i []);;
  local_gas_limit ← pop1;
  to ← pop_address;
  let local_gas_limit :=
    if local_gas_limit <? u64_modulus then local_gas_limit else u64_max in
  value ← call_value scheme;
  '(in_offset, in_len, out_offset, out_len) ← pop4;
  '(input, out_offset, out_len) ← call_ranges in_offset in_len out_offset out_len;
  i ← get_interp;
  let context := call_context scheme (i_contract i) to value in
  let transfer := call_transfer scheme (i_contract i) to value in
  res ← ask (fun h => host_load_account h to);
  '(is_cold, exists_) ← some_or_fatal res;
  let is_new := negb exists_ in
  gas_ (call_cost SPEC value is_new is_cold
          (is_call_or_callcode scheme) (is_call_or_staticcall scheme));;
  i ← get_interp;
  let gas_limit :=
    if enabled SPEC TANGERINE then
      let g := remaining (i_gas i) in Z.min (g - g / 64) local_gas_limit
    else local_gas_limit in
  gas_ gas_limit;;
  let gas_limit :=
    if is_call_or_callcode scheme && negb (tr_value transfer =? 0)
    then u64_saturating_add gas_limit gas.CALL_STIPEND else gas_limit in
  let is_static := match scheme with StaticCall => true | _ => i_is_static i end in
  let call_input := mkCallInputs to transfer input gas_limit context is_static in
  '(reason, g, return_data) ← ask (fun h => host_call h call_input);
  call_result reason g return_data out_offset out_len.

Definition call (SPEC : SpecId) : instr H unit := call_inner SPEC Call.
Definition call_code (SPEC : SpecId) : instr H unit := call_inner SPEC CallCode.
Definition delegate_call (SPEC : SpecId) : instr H unit := call_inner SPEC DelegateCall.
Definition static_call (SPEC : SpecId) : instr H unit := call_inner SPEC StaticCall.

End instructions.
End host.

(** ** instructions.rs: the dispatcher *)

Section dispatch.
Context {H : Type} {HH : Host H} {HC : Crypto}.

Definition return_stop : instr H unit := modify (fun i => set_result i Stop).
Definition return_invalid : instr H unit := modify (fun i => set_result i InvalidFEOpcode).
Definition return_not_found : instr H unit := modify (fun i => set_result i OpcodeNotFound).

(** The arms of the [match] in [eval], in the order of the source. *)
Definition eval_arms (SPEC : SpecId) : list (Z * instr H unit) := [
  (opcode.STOP, return_stop);
  (opcode.ADD, arithmetic.wrapped_add);
  (opcode.MUL, arithmetic.wrapping_mul);
  (opcode.SUB, arithmetic.wrapping_sub);
  (opcode.DIV, arithmetic.div);
  (opcode.SDIV, arithmetic.sdiv);
  (opcode.MOD, arithmetic.rem);
  (opcode.SMOD, arithmetic.smod);
  (opcode.ADDMOD, arithmetic.addmod);
  (opcode.MULMOD, arithmetic.mulmod);
  (opcode.EXP, arithmetic.eval_exp SPEC);
  (opcode.SIGNEXTEND, arithmetic.signextend);
  (opcode.LT, bitwise.lt);
  (opcode.GT, bitwise.gt);
  (opcode.SLT, bitwise.slt);
  (opcode.SGT, bitwise.sgt);
  (opcode.EQ, bitwise.eq);
  (opcode.ISZERO, bitwise.iszero);
  (opcode.AND, bitwise.bitand);
  (opcode.OR, bitwise.bitor);
  (opcode.XOR, bitwise.bitxor);
  (opcode.NOT, bitwise.not);
  (opcode.BYTE, bitwise.byte);
  (opcode.SHL, bitwise.shl SPEC);
  (opcode.SHR, bitwise.shr SPEC);
  (opcode.SAR, bitwise.sar SPEC);
  (opcode.SHA3, system.sha3);
  (opcode.ADDRESS, system.address);
  (opcode.BALANCE, host.balance SPEC);
  (opcode.SELFBALANCE, host.selfbalance SPEC);
  (opcode.CODESIZE, system.codesize);
  (opcode.CODECOPY, system.codecopy);
  (opcode.CALLDATALOAD, system.calldataload);
  (opcode.CALLDATASIZE, system.calldatasize);
  (opcode.CALLDATACOPY, system.calldatacopy);
  (opcode.POP, stack.pop);
  (opcode.MLOAD, memory.mload);
  (opcode.MSTORE, memory.mstore);
  (opcode.MSTORE8, memory.mstore8);
  (opcode.JUMP, control.jump);
  (opcode.JUMPI, control.jumpi);
  (opcode.PC, control.pc);
  (opcode.MSIZE, memory.msize);
  (opcode.JUMPDEST, control.jumpdest);
  (opcode.PUSH0, stack.push0 SPEC);
  (opcode.PUSH1, stack.push 1);
  (opcode.PUSH2, stack.push 2);
  (opcode.PUSH3, stack.push 3);
  (opcode.PUSH4, stack.push 4);
  (opcode.PUSH5, stack.push 5);
  (opcode.PUSH6, stack.push 6);
  (opcode.PUSH7, stack.push 7);
  (opcode.PUSH8, stack.push 8);
  (opcode.PUSH9, stack.push 9);
  (opcode.PUSH10, stack.push 10);
  (opcode.PUSH11, stack.push 11);
  (opcode.PUSH12, stack.push 12);
  (opcode.PUSH13, stack.push 13);
  (opcode.PUSH14, stack.push 14);
  (opcode.PUSH15, stack.push 15);
  (opcode.PUSH16, stack.push 16);
  (opcode.PUSH17, stack.push 17);
  (opcode.PUSH18, stack.push 18);
  (opcode.PUSH19, stack.push 19);
  (opcode.PUSH20, stack.push 20);
  (opcode.PUSH21, stack.push 21);
  (opcode.PUSH22, stack.push 22);
  (opcode.PUSH23, stack.push 23);
  (opcode.PUSH24, stack.push 24);
  (opcode.PUSH25, stack.push 25);
  (opcode.PUSH26, stack.push 26);
  (opcode.PUSH27, stack.push 27);
  (opcode.PUSH28, stack.push 28);
  (opcode.PUSH29, stack.push 29);
  (opcode.PUSH30, stack.push 30);
  (opcode.PUSH31, stack.push 31);
  (opcode.PUSH32, stack.push 32);
  (opcode.DUP1, stack.dup 1);
  (opcode.DUP2, stack.dup 2);
  (opcode.DUP3, stack.dup 3);
  (opcode.DUP4, stack.dup 4);
  (opcode.DUP5, stack.dup 5);
  (opcode.DUP6, stack.dup 6);
  (opcode.DUP7, stack.dup 7);
  (opcode.DUP8, stack.dup 8);
  (opcode.DUP9, stack.dup 9);
  (opcode.DUP10, stack.dup 10);
  (opcode.DUP11, stack.dup 11);
  (opcode.DUP12, stack.dup 12);
  (opcode.DUP13, stack.dup 13);
  (opcode.DUP14, stack.dup 14);
  (opcode.DUP15, stack.dup 15);
  (opcode.DUP16, stack.dup 16);
  (opcode.SWAP1, stack.swap 1);
  (opcode.SWAP2, stack.swap 2);
  (opcode.SWAP3, stack.swap 3);
  (opcode.SWAP4, stack.swap 4);
  (opcode.SWAP5, stack.swap 5);
  (opcode.SWAP6, stack.swap 6);
  (opcode.SWAP7, stack.swap 7);
  (opcode.SWAP8, stack.swap 8);
  (opcode.SWAP9, stack.swap 9);
  (opcode.SWAP10, stack.swap 10);
  (opcode.SWAP11, stack.swap 11);
  (opcode.SWAP12, stack.swap 12);
  (opcode.SWAP13, stack.swap 13);
  (opcode.SWAP14, stack.swap 14);
  (opcode.SWAP15, stack.swap 15);
  (opcode.SWAP16, stack.swap 16);
  (opcode.RETURN, control.ret);
  (opcode.REVERT, control.revert SPEC);
  (opcode.INVALID, return_invalid);
  (opcode.BASEFEE, host_env.basefee SPEC);
  (opcode.ORIGIN, host_env.origin);
  (opcode.CALLER, system.caller);
  (opcode.CALLVALUE, system.callvalue);
  (opcode.GASPRICE, host_env.gasprice);
  (opcode.EXTCODESIZE, host.extcodesize SPEC);
  (opcode.EXTCODEHASH, host.extcodehash SPEC);
  (opcode.EXTCODECOPY, host.extcodecopy SPEC);
  (opcode.RETURNDATASIZE, system.returndatasize SPEC);
  (opcode.RETURNDATACOPY, system.returndatacopy SPEC);
  (opcode.BLOCKHASH, host.blockhash);
  (opcode.COINBASE, host_env.coinbase);
  (opcode.TIMESTAMP, host_env.timestamp);
  (opcode.NUMBER, host_env.number);
  (opcode.DIFFICULTY, host_env.difficulty SPEC);
  (opcode.GASLIMIT, host_env.gaslimit);
  (opcode.SLOAD, host.sload SPEC);
  (opcode.SSTORE, host.sstore SPEC);
  (opcode.GAS, system.gas);
  (opcode.LOG0, host.log 0%nat);
  (opcode.LOG1, host.log 1%nat);
  (opcode.LOG2, host.log 2%nat);
  (opcode.LOG3, host.log 3%nat);
  (opcode.LOG4, host.log 4%nat);
  (opcode.SELFDESTRUCT, host.selfdestruct SPEC);
  (opcode.CREATE, host.create false SPEC);
  (opcode.CREATE2, host.create true SPEC);
  (opcode.CALL, host.call SPEC);
  (opcode.CALLCODE, host.call_code SPEC);
  (opcode.DELEGATECALL, host.delegate_call SPEC);
  (opcode.STATICCALL, host.static_call SPEC);
  (opcode.CHAINID, host_env.chainid SPEC)
].

(** The first arm that matches, or the wildcard. *)
Definition eval (SPEC : SpecId) (op : Z) : instr H unit :=
  match find (fun '(o, _) => o =? op) (eval_arms SPEC) with
  | Some (_, f) => f
  | None => return_not_found
  end.

(** ** interpreter.rs: running *)

(** [Interpreter::step]; the pointer moves past the opcode first, and may
    at most reach the end of the buffer. *)
Definition step (SPEC : SpecId) (i : Interpreter) (h : H) : rust (Interpreter * H) :=
  op ← get_unchecked (code_of i) (i_pc i);
  '(_, i', h') ← eval SPEC op (set_pc i (i_pc i + 1)) h;
  Val (i', h').

(** [Interpreter::run]: the loop is given fuel. *)
Fixpoint run (SPEC : SpecId) (fuel : nat) (i : Interpreter) (h : H) :
  rust (InstructionResult * Interpreter * H) :=
  if decide (i_result i = Continue) then
    match fuel with
    | O => Diverge
    | S fuel => '(i', h') ← step SPEC i h; run SPEC fuel i' h'
    end
  else Val (i_result i, i, h).

(** [Interpreter::run_inspect] *)
Fixpoint run_inspect (SPEC : SpecId) (fuel : nat) (i : Interpreter) (h : H) :
  rust (InstructionResult * Interpreter * H) :=
  if decide (i_result i = Continue) then
    match fuel with
    | O => Diverge
    | S fuel =>
        '(r, i, h) ← host_step h i (i_is_static i);
        if decide (r = Continue) then
          '(i, h) ← step SPEC i h;
          '(r, i, h) ← host_step_end h i (i_is_static i) (i_result i);
          if decide (r = Continue) then run_inspect SPEC fuel i h
          else Val (r, i, h)
        else Val (r, i, h)
    end
  else Val (i_result i, i, h).

End dispatch.
