(* ===== verification/Natural.v ===== *)
(** * Instructions on two hosts

    When two hosts do the same, but for what [phi] changes of them, so do
    instructions and whole runs of the interpreter: a comparison of what
    they yield, instruction by instruction. *)

From stdpp Require Import base option list gmap.
From Stdlib Require Import ZArith Lia.
From S2P Require Import Prelude Primitives Gas EvmStack EvmMemory I256 Opcode Analysis Interpreter Instructions.

(** ** Outcomes compared

    [below strict m n]: if [m] yields a value then [n] yields it too; if
    [strict], also what is not a value is the same. *)
Definition below (strict : bool) {A : Type} (m n : rust A) : Prop :=
  match m with Val a => n = Val a | _ => if strict then n = m else True end.

Lemma below_refl strict {A : Type} (m : rust A) : below strict m m.
Proof. by destruct m, strict. Qed.
Lemma below_bind strict {A B : Type} (m n : rust A) (f g : A -> rust B) :
  below strict m n -> (forall a, m = Val a -> below strict (f a) (g a)) -> below strict (m ≫= f) (n ≫= g).
Proof. destruct m as [a| | |]; simpl; [intros -> H; by apply H|..]; destruct strict; try done; by intros ->. Qed.
Lemma below_val strict {A : Type} (m n : rust A) a : below strict m n -> m = Val a -> n = Val a.
Proof. by intros H ->. Qed.

(** ** Instructions on two hosts *)
Section instructions.
Context {H : Type} {HH : Host H} {HC : Crypto}.
Context (strict : bool) (phi : H -> H).

Definition carry {A : Type} (m : rust (A * H)) : rust (A * H) := '(a, h) ← m; Val (a, phi h).
(** The instruction does the same on the other host. *)
Definition natural {A : Type} (m : instr H A) : Prop :=
  forall i h, below strict (carry (m i h)) (m i (phi h)).
Definition natural_op {A : Type} (f : H -> rust (A * H)) : Prop :=
  forall h, below strict (carry (f h)) (f (phi h)).

Class NaturalHost : Prop := {
  natural_env h : host_env (phi h) = host_env h;
  natural_load_account a : natural_op (fun h => host_load_account h a);
  natural_block_hash n : natural_op (fun h => host_block_hash h n);
  natural_balance a : natural_op (fun h => host_balance h a);
  natural_code a : natural_op (fun h => host_code h a);
  natural_code_hash a : natural_op (fun h => host_code_hash h a);
  natural_sload a k : natural_op (fun h => host_sload h a k);
  natural_sstore a k v : natural_op (fun h => host_sstore h a k v);
  natural_log a ts d h : below strict (h ← host_log h a ts d; Val (phi h)) (host_log (phi h) a ts d);
  natural_selfdestruct a t : natural_op (fun h => host_selfdestruct h a t);
}.
Class NaturalFrames : Prop := {
  natural_create c : natural_op (fun h => host_create h c);
  natural_call c : natural_op (fun h => host_call h c);
}.

Lemma natural_bind {A B : Type} (m : instr H A) (f : A -> instr H B) :
  natural m -> (forall a, natural (f a)) -> natural (m ≫= f).
Proof.
  intros Hm Hf i h. specialize (Hm i h). unfold mbind, instr_bind, carry in *. simpl in *.
  destruct (m i h) as [[[[a|] i1] h1]| | |]; cbn in *.
  - rewrite Hm. apply Hf.
  - by rewrite Hm.
  - destruct strict; [by rewrite Hm|done].
  - destruct strict; [by rewrite Hm|done].
  - destruct strict; [by rewrite Hm|done].
Qed.
Lemma natural_ask {A : Type} (f : H -> rust (A * H)) : natural_op f -> natural (ask f).
Proof.
  intros Hf i h. specialize (Hf h). unfold ask, carry in *. destruct (f h) as [[a h1]| | |]; cbn in *;
    [by rewrite Hf|..]; destruct strict; first [by rewrite Hf|done].
Qed.
Lemma natural_lift {A : Type} (m : rust A) : natural (lift m : instr H A).
Proof. intros i h. unfold lift, carry. destruct m; simpl; by destruct strict. Qed.
Lemma natural_ret {A : Type} (a : A) : natural (ret a : instr H A).
Proof. done. Qed.
Lemma natural_leave {A : Type} : natural (leave : instr H A).
Proof. done. Qed.
Lemma natural_fail {A : Type} r : natural (fail_with r : instr H A).
Proof. done. Qed.
Lemma natural_get : natural (get_interp : instr H _).
Proof. done. Qed.
Lemma natural_modify f : natural (modify f : instr H _).
Proof. done. Qed.
Lemma natural_static : natural (check_staticcall : instr H _).
Proof. intros i h. unfold check_staticcall. by case_match. Qed.
Lemma natural_gas c : natural (gas_ c : instr H _).
Proof. intros i h. unfold gas_. destruct (record_cost (i_gas i) c) as [g []]; done. Qed.
Lemma natural_resize o l : natural (memory_resize o l : instr H _).
Proof.
  intros i h. unfold memory_resize. case_match; [|done]. case_match; [done|]. case_match; [|done].
  destruct (record_memory _ _) as [g []]; [|done]. destruct (Memory.resize _ _); simpl; by destruct strict.
Qed.
Lemma natural_pop {A : Type} n (f : list Z -> rust (A * list Z)) : natural (pop_with n f : instr H A).
Proof. intros i h. unfold pop_with. case_match; [done|]. destruct (f _) as [[a s]| | |]; simpl; by destruct strict. Qed.
Lemma natural_set_top v : natural (set_top v : instr H _).
Proof. intros i h. unfold set_top. destruct (Stack.set_top _ _); simpl; by destruct strict. Qed.
Lemma natural_push v : natural (push v : instr H _).
Proof. intros i h. unfold push. destruct (Stack.push _ _) as [s []]; done. Qed.
Lemma natural_push_b256 v : natural (push_b256 v : instr H _).
Proof. intros i h. unfold push_b256. destruct (Stack.push_b256 _ _) as [s []]; done. Qed.
End instructions.

Create HintDb natural.
#[export] Hint Resolve natural_lift natural_ret natural_leave natural_fail natural_get natural_modify natural_static
  natural_gas natural_resize natural_pop natural_set_top natural_push natural_push_b256 : natural.
#[export] Hint Resolve natural_load_account natural_block_hash natural_balance natural_code natural_code_hash natural_sload
  natural_sstore natural_selfdestruct natural_create natural_call : natural.

(** Walk through an instruction. *)
Ltac natural_step :=
  match goal with
  | |- natural _ _ (_ ≫= _) => apply natural_bind; [|intros ?]
  | |- natural _ _ (ask _) => first [solve [eauto 2 with natural] | apply natural_ask]
  | |- natural _ _ (match ?x with _ => _ end) => destruct x
  | |- natural _ _ _ => solve [eauto 2 with natural]
  | |- natural_op _ _ _ => solve [eauto 2 with natural]
  | |- natural _ _ ?m =>
      let rec head m := lazymatch m with ?f _ => head f | _ => m end in
      let f := head m in progress (unfold f; cbv zeta)
  end.
Ltac natural := repeat natural_step.

Section eval.
Context {H : Type} {HH : Host H} {HC : Crypto} (strict : bool) (phi : H -> H).
Context {HN : NaturalHost strict phi}.

Lemma natural_get_env : natural strict phi get_env.
Proof.
  intros i h. unfold get_env, ask, carry. simpl. by rewrite (natural_env strict phi).
Qed.
#[local] Hint Resolve natural_get_env : natural.

Definition framing : list Z := [opcode.CREATE; opcode.CREATE2; opcode.CALL; opcode.CALLCODE; opcode.DELEGATECALL; opcode.STATICCALL].

Lemma natural_topics n : natural strict phi (host.pop_topics n : instr H _).
Proof. induction n as [|n IH]; cbn [host.pop_topics]; natural; exact IH. Qed.
#[local] Hint Resolve natural_topics : natural.
Lemma natural_log_ask a ts d :
  natural strict phi (ask (fun h => h ← host_log h a ts d; Val (tt, h))).
Proof.
  apply natural_ask. intros h. pose proof (natural_log strict phi a ts d h) as Hl.
  unfold carry. destruct (host_log h a ts d) as [h1| | |]; cbn in *; [by rewrite Hl|..]; destruct strict; first [by rewrite Hl|done].
Qed.
#[local] Hint Resolve natural_log_ask : natural.

Lemma arms_natural SPEC :
  Forall (fun arm => arm.1 ∉ framing -> natural strict phi arm.2) (eval_arms SPEC).
Proof.
  unfold eval_arms. repeat (apply Forall_cons; split; [cbn [fst snd]; intros Ho|]); [..|apply Forall_nil_2].
  all: try (exfalso; apply Ho; unfold framing; rewrite !elem_of_cons; tauto).
  all: clear Ho; natural.
Qed.

Lemma frames_natural SPEC :
  NaturalFrames strict phi -> Forall (fun arm => natural strict phi arm.2) (eval_arms SPEC).
Proof.
  intros HF. apply Forall_impl with (fun arm => (arm.1 ∉ framing -> natural strict phi arm.2) /\
    (arm.1 ∈ framing -> natural strict phi arm.2)).
  2: { intros arm [H1 H2]. destruct (decide (arm.1 ∈ framing)); auto. }
  apply Forall_and. split; [apply arms_natural|].
  unfold eval_arms. repeat (apply Forall_cons; split; [cbn [fst snd]; intros Ho|]); [..|apply Forall_nil_2].
  all: try (exfalso; revert Ho; unfold framing; rewrite !elem_of_cons, elem_of_nil; vm_compute; intuition discriminate).
  all: clear Ho; natural.
Qed.

Lemma eval_natural SPEC op : NaturalFrames strict phi \/ op ∉ framing -> natural strict phi (eval SPEC op).
Proof.
  intros Hor. unfold eval. destruct (find _ _) as [[o f]|] eqn:E; [|done].
  apply find_some in E as [Hin%list_elem_of_In Ho%Z.eqb_eq]. subst o. destruct Hor as [HF|Hop].
  - pose proof (frames_natural SPEC HF) as Hall. rewrite Forall_forall in Hall. exact (Hall _ Hin).
  - pose proof (arms_natural SPEC) as Hall. rewrite Forall_forall in Hall. by apply (Hall _ Hin).
Qed.

Lemma step_below SPEC i h :
  NaturalFrames strict phi -> below strict ('(i, h) ← step SPEC i h; Val (i, phi h)) (step SPEC i (phi h)).
Proof.
  intros HF. unfold step. destruct (get_unchecked (code_of i) (i_pc i)) as [op| | |]; cbn; try by destruct strict.
  pose proof (eval_natural SPEC op (or_introl HF) (set_pc i (i_pc i + 1)) h) as He. unfold carry in He.
  destruct (eval SPEC op _ h) as [[[o i1] h1]| | |]; cbn in *; [by rewrite He|..]; destruct strict; first [by rewrite He|done].
Qed.
Lemma run_below SPEC fuel i h :
  NaturalFrames strict phi ->
  below strict ('(r, i, h) ← run SPEC fuel i h; Val (r, i, phi h)) (run SPEC fuel i (phi h)).
Proof.
  intros HF. revert i h. induction fuel as [|fuel IH]; intros i h; cbn [run]; (case_decide; [|done]); [by destruct strict|].
  pose proof (step_below SPEC i h HF) as Hs. destruct (step SPEC i h) as [[i1 h1]| | |]; cbn in *;
    [rewrite Hs; apply IH|..]; destruct strict; first [by rewrite Hs|done].
Qed.
End eval.
