(* ===== verification/Safety.v ===== *)
(** * Safety and progress of the interpreter

    A program logic for instructions and the proof that every instruction,
    on every hard fork, keeps the machine well-formed: no panic, no
    undefined behaviour, a stack of at most 1024 words, memory paid for,
    a program counter inside the code buffer, and gas that strictly
    decreases while the machine continues. *)

From stdpp Require Import base option list gmap.
From Stdlib Require Import ZArith Lia.
From S2P Require Import Prelude Primitives Gas EvmStack EvmMemory I256 Opcode Analysis Interpreter Instructions.

(** ** Well-formed machines *)

Definition bytes_wf (l : list Z) : Prop := Forall is_u8 l /\ zlen l <= isize_max.

Definition locked_wf (b : BytecodeLocked) : Prop :=
  wf_code (bl_bytecode b) /\ zlen (bl_bytecode b) <= isize_max /\
  0 <= bl_len b <= zlen (bl_bytecode b) /\
  forall d, 0 <= d -> JumpMap_is_valid (bl_jump_map b) d = true -> d < zlen (bl_bytecode b).

Definition contract_wf (c : Contract) : Prop :=
  bytes_wf (ct_input c) /\ locked_wf (ct_bytecode c) /\
  is_b160 (ct_address c) /\ is_b160 (ct_caller c) /\ is_u256 (ct_value c).

(** The range a finished call returns lies in memory; [usize::MAX] marks the
    empty one. *)
Definition range_wf (r : Z * Z) (m : list Z) : Prop :=
  r.1 = u64_max \/ 0 <= r.1 <= r.2 /\ r.2 <= zlen m.

(** Memory is a whole number of words and its charge is the quadratic cost
    of its current size. *)
Record interp_wf (i : Interpreter) : Prop := mkInterpWf {
  wf_contract : contract_wf (i_contract i);
  wf_gas : Gas_wf (i_gas i);
  wf_memory : mem_wf (i_memory i);
  wf_memory_words : zlen (i_memory i) mod 32 = 0;
  wf_memory_gas : memory (i_gas i) = memory_gas (zlen (i_memory i) / 32);
  wf_memory_limit : zlen (i_memory i) <= i_memory_limit i <= mem_max;
  wf_stack : stack_wf (i_stack i);
  wf_return_data : bytes_wf (i_return_data_buffer i);
  wf_return_range : range_wf (i_return_range i) (i_memory i);
}.

Definition pc_ok (i : Interpreter) : Prop := 0 <= i_pc i < zlen (code_of i).

(** What no instruction changes. *)
Definition same_frame (i j : Interpreter) : Prop :=
  i_contract j = i_contract i /\ i_is_static j = i_is_static i /\
  i_memory_limit j = i_memory_limit i /\ limit (i_gas j) = limit (i_gas i).

(** After an instruction: still well-formed, and if the machine continues it
    has paid for it. *)
Definition stepped (i j : Interpreter) : Prop :=
  interp_wf j /\ same_frame i j /\ remaining (i_gas j) <= remaining (i_gas i) /\
  (i_result j = Continue -> pc_ok j /\ remaining (i_gas j) < remaining (i_gas i)).

(** ** What the interpreter expects of a host *)

Record env_wf (SPEC : SpecId) (e : Env) : Prop := mkEnvWf {
  ewf_chain_id : is_u256 (cfg_chain_id (env_cfg e));
  ewf_code_size : forall l, cfg_limit_contract_code_size (env_cfg e) = Some l -> is_u64 l;
  ewf_number : is_u256 (block_number (env_block e));
  ewf_coinbase : is_b160 (block_coinbase (env_block e));
  ewf_timestamp : is_u256 (block_timestamp (env_block e));
  ewf_difficulty : is_u256 (block_difficulty (env_block e));
  ewf_prevrandao : enabled SPEC MERGE = true ->
    exists r, block_prevrandao (env_block e) = Some r /\ is_u256 r;
  ewf_basefee : is_u256 (block_basefee (env_block e));
  ewf_gas_limit : is_u256 (block_gas_limit (env_block e));
  ewf_caller : is_b160 (tx_caller (env_tx e));
  ewf_gas_price : is_u256 (tx_gas_price (env_tx e));
}.

(** Arguments of [Host::create] and [Host::call] from a frame at address
    [a]; in a static frame a call is static and moves no value. *)
Definition create_inputs_wf (a : Z) (c : CreateInputs) : Prop :=
  cr_caller c = a /\ is_u256 (cr_value c) /\ bytes_wf (cr_init_code c) /\
  zlen (cr_init_code c) <= mem_max /\
  is_u64 (cr_gas_limit c) /\
  match cr_scheme c with Create => True | Create2 salt => is_u256 salt end.

Definition call_inputs_wf (static : bool) (a : Z) (c : CallInputs) : Prop :=
  is_b160 (ci_contract c) /\ bytes_wf (ci_input c) /\ is_u64 (ci_gas_limit c) /\
  tr_source (ci_transfer c) = a /\ is_b160 (tr_target (ci_transfer c)) /\
  (tr_target (ci_transfer c) = ci_contract c \/ tr_target (ci_transfer c) = a) /\
  is_u256 (tr_value (ci_transfer c)) /\
  (cc_address (ci_context c) = ci_contract c \/ cc_address (ci_context c) = a) /\
  is_b160 (cc_caller (ci_context c)) /\ is_u256 (cc_apparent_value (ci_context c)) /\
  cc_code_address (ci_context c) = ci_contract c /\
  (static = true -> ci_is_static c = true /\
    (tr_value (ci_transfer c) = 0 \/ tr_target (ci_transfer c) = a)).

Definition answer_gas_wf (limit : Z) (g : Gas) : Prop :=
  0 <= remaining g <= limit.

(** An optional answer: what a present one satisfies; an absent one is a
    failure of the host, recorded in its state. *)
Definition answer {A H : Type} (fatal : H -> Prop) (P : A -> Prop) (r : option A) (h : H) : Prop :=
  match r with Some a => P a | None => fatal h end.

(** [HostSpec D SPEC static ok fatal]: from a state [ok a h], where [a] is
    the address of the running contract, every method a frame may call
    returns (or runs out of fuel, if [D]) with a well-formed answer in an
    [ok] state, which is [fatal] when the method failed.  A static frame
    never calls the methods that modify state. *)
Class HostSpec {H : Type} {HH : Host H} (D : Prop) (SPEC : SpecId) (static : bool)
  (ok : Z -> H -> Prop) (fatal : H -> Prop) : Prop := {
  env_ok a h : ok a h -> env_wf SPEC (host_env h);
  load_account_ok a h b : ok a h -> is_b160 b ->
    wp D (host_load_account h b) (fun '(r, h') =>
      answer fatal (fun _ => True) r h' /\ ok a h');
  block_hash_ok a h n : ok a h -> is_u256 n ->
    wp D (host_block_hash h n) (fun '(r, h') => answer fatal is_u256 r h' /\ ok a h');
  balance_ok a h b : ok a h -> is_b160 b ->
    wp D (host_balance h b) (fun '(r, h') =>
      answer fatal (fun '(v, _) => is_u256 v) r h' /\ ok a h');
  code_ok a h b : ok a h -> is_b160 b ->
    wp D (host_code h b) (fun '(r, h') =>
      answer fatal (fun '(v, _) => bytes_wf (bc_bytecode v) /\
        0 <= Bytecode_len v <= zlen (bc_bytecode v)) r h' /\ ok a h');
  code_hash_ok a h b : ok a h -> is_b160 b ->
    wp D (host_code_hash h b) (fun '(r, h') =>
      answer fatal (fun '(v, _) => is_u256 v) r h' /\ ok a h');
  sload_ok a h k : ok a h -> is_u256 k ->
    wp D (host_sload h a k) (fun '(r, h') =>
      answer fatal (fun '(v, _) => is_u256 v) r h' /\ ok a h');
  sstore_ok a h k v : static = false -> ok a h -> is_u256 k -> is_u256 v ->
    wp D (host_sstore h a k v) (fun '(r, h') =>
      answer fatal (fun _ => True) r h' /\ ok a h');
  log_ok a h ts d : static = false -> ok a h -> Forall is_u256 ts -> bytes_wf d ->
    wp D (host_log h a ts d) (fun h' => ok a h');
  selfdestruct_ok a h b : static = false -> ok a h -> is_b160 b ->
    wp D (host_selfdestruct h a b) (fun '(r, h') =>
      answer fatal (fun _ => True) r h' /\ ok a h');
  create_ok a h c : static = false -> ok a h -> create_inputs_wf a c ->
    wp D (host_create h c) (fun '(r, b, g, d, h') =>
      (forall v, b = Some v -> is_b160 v) /\ answer_gas_wf (cr_gas_limit c) g /\
      bytes_wf d /\ (r = FatalExternalError -> fatal h') /\ ok a h');
  call_ok a h c : ok a h -> call_inputs_wf static a c ->
    wp D (host_call h c) (fun '(r, g, d, h') =>
      answer_gas_wf (ci_gas_limit c) g /\ bytes_wf d /\
      (r = FatalExternalError -> fatal h') /\ ok a h');
}.

(** ** A program logic for instructions *)

Section logic.
Context {H : Type} {HH : Host H} {HC : Crypto} {HCS : CryptoSpec}.
Context (D : Prop) (SPEC : SpecId) (static : bool) (ok : Z -> H -> Prop) (fatal : H -> Prop).
Context {HS : HostSpec D SPEC static ok fatal}.

Definition iwp {A : Type} (m : instr H A) (i : Interpreter) (h : H)
  (Q : A -> Interpreter -> H -> Prop) (R : Interpreter -> H -> Prop) : Prop :=
  wp D (m i h) (fun '(o, i', h') =>
    match o with Some a => Q a i' h' | None => R i' h' end).

Lemma iwp_bind {A B : Type} (m : instr H A) (f : A -> instr H B) i h Q R :
  iwp m i h (fun a i' h' => iwp (f a) i' h' Q R) R -> iwp (m ≫= f) i h Q R.
Proof.
  unfold iwp, mbind, instr_bind. destruct (m i h) as [[[[a|] i'] h']| | |]; auto.
Qed.

Lemma iwp_mono {A : Type} (m : instr H A) i h (Q Q' : A -> Interpreter -> H -> Prop) R :
  iwp m i h Q R -> (forall a i' h', Q a i' h' -> Q' a i' h') -> iwp m i h Q' R.
Proof. intros Hm Hq. eapply wp_mono; [|exact Hm]. intros [[[a|] i'] h']; auto. Qed.

Lemma iwp_ret {A : Type} (a : A) i h Q R : Q a i h -> iwp (ret a) i h Q R.
Proof. done. Qed.

Lemma iwp_get_interp i h Q R : Q i i h -> iwp get_interp i h Q R.
Proof. done. Qed.

Lemma iwp_modify f i h Q R : Q tt (f i) h -> iwp (modify f) i h Q R.
Proof. done. Qed.

Lemma iwp_lift {A : Type} (m : rust A) (P : A -> Prop) i h Q R :
  wp D m P -> (forall a, P a -> Q a i h) -> iwp (lift m) i h Q R.
Proof. unfold iwp, lift. rewrite wp_bind. intros Hm Hq. eapply wp_mono; [|exact Hm]. auto. Qed.

Lemma iwp_lift_val {A : Type} (m : rust A) (a : A) i h Q R :
  m = Val a -> Q a i h -> iwp (lift m) i h Q R.
Proof. by intros ->. Qed.

(** The state [i0] in which the instruction started is fixed. *)
Section instruction.
Context (i0 : Interpreter).
Abbreviation addr := (ct_address (i_contract i0)).

(** Midway: well-formed, and at least [k] gas charged since the start. *)
Record mid (k : Z) (i : Interpreter) : Prop := mkMid {
  mid_wf : interp_wf i;
  mid_pc : pc_ok i;
  mid_continue : i_result i = Continue;
  mid_frame : same_frame i0 i;
  mid_static : i_is_static i = static;
  mid_used : used (i_gas i0) + k <= used (i_gas i);
  mid_memory : memory (i_gas i0) <= memory (i_gas i);
  mid_start : interp_wf i0;
}.

Definition finished (i : Interpreter) (h : H) : Prop :=
  stepped i0 i /\ ok addr h /\ (i_result i = FatalExternalError -> fatal h).
Abbreviation FIN := (fun _ i h => finished i h).

Lemma mid_remaining k i : mid k i -> remaining (i_gas i) <= remaining (i_gas i0) - k.
Proof.
  intros [Hw _ _ (_ & _ & _ & Hl) _ Hu Hm H0].
  rewrite !remaining_wf by (by apply wf_gas).
  destruct (wf_gas _ Hw) as (? & ? & ? & ? & ?), (wf_gas _ H0) as (? & ? & ? & ? & ?). lia.
Qed.

Lemma finish_continue k i h : 0 < k -> mid k i -> ok addr h -> finished i h.
Proof.
  intros Hk Hm Ho. pose proof (mid_remaining k i Hm) as Hr. destruct Hm.
  split; [|split; [done|congruence]].
  split; [done|]. split; [done|]. split; [lia|]. split; [done|lia].
Qed.

Lemma interp_wf_result i r : interp_wf i -> interp_wf (set_result i r).
Proof. by intros []. Qed.

Lemma finish_result k i h r :
  0 <= k -> r <> Continue -> mid k i -> ok addr h -> (r = FatalExternalError -> fatal h) ->
  finished (set_result i r) h.
Proof.
  intros Hk Hr Hm Ho Hf. pose proof (mid_remaining k i Hm) as Hrem. destruct Hm.
  split; [|done]. split; [by apply interp_wf_result|]. split; [done|]. simpl. split; [lia|done].
Qed.

(** Updates of single fields. *)
Lemma mid_set_stack k i s : mid k i -> stack_wf s -> mid k (set_stack i s).
Proof. intros [[]] Hs. by constructor; [constructor| ..]. Qed.

Lemma mid_set_memory k i m :
  mid k i -> mem_wf m -> zlen m = zlen (i_memory i) -> mid k (set_memory i m).
Proof.
  intros [[] ? ? ? ? ? ?] Hm Hl. constructor; try done. constructor; try done; simpl;
    unfold range_wf in *; by rewrite Hl.
Qed.

Lemma mid_set_return_data k i d : mid k i -> bytes_wf d -> mid k (set_return_data_buffer i d).
Proof. intros [[]] Hs. by constructor; [constructor| ..]. Qed.

Lemma mid_set_return_range k i r :
  mid k i -> range_wf r (i_memory i) -> mid k (set_return_range i r).
Proof. intros [[]] Hs. by constructor; [constructor| ..]. Qed.

Lemma mid_set_pc k i pc : mid k i -> 0 <= pc < zlen (code_of i) -> mid k (set_pc i pc).
Proof. intros [[]] Hs. by constructor; [constructor| ..]. Qed.

(** Replacing the counter by one that charged [c] more, memory alike. *)
Lemma mid_set_gas k k' i g :
  mid k i -> Gas_wf g -> limit g = limit (i_gas i) -> memory g = memory (i_gas i) ->
  used (i_gas i0) + k' <= used g -> mid k' (set_gas i g).
Proof.
  intros [[] ? ? (Hc & Hst & Hml & Hlim) ? ? ?] Hg Hl Hm Hu.
  constructor; try done; simpl; [|repeat split; simpl; congruence|lia].
  constructor; try done. simpl. congruence.
Qed.

(** *** Rules for the macros *)

Lemma r_fail {A : Type} k i h r (Q : A -> Interpreter -> H -> Prop) :
  mid k i -> ok addr h -> 0 <= k -> r <> Continue -> r <> FatalExternalError ->
  iwp (fail_with r) i h Q finished.
Proof. intros. by eapply finish_result. Qed.

Lemma r_check k i h b Q :
  mid k i -> ok addr h -> 0 <= k -> (b = true -> Q tt i h) -> iwp (check b) i h Q finished.
Proof. intros Hm Ho Hk HQ. unfold check. destruct b; [by apply HQ|]. by eapply r_fail. Qed.

Lemma r_check_staticcall k i h Q :
  mid k i -> ok addr h -> 0 <= k -> (static = false -> Q tt i h) ->
  iwp check_staticcall i h Q finished.
Proof.
  intros Hm Ho Hk HQ. unfold iwp, check_staticcall. destruct (i_is_static i) eqn:E.
  - by eapply finish_result.
  - apply HQ. by rewrite <- (mid_static _ _ Hm).
Qed.

Lemma r_gas k i h c Q :
  mid k i -> ok addr h -> 0 <= k -> is_u64 c ->
  (forall g, mid (k + c) (set_gas i g) -> Q tt (set_gas i g) h) ->
  iwp (gas_ c) i h Q finished.
Proof.
  intros Hm Ho Hk Hc HQ. unfold iwp, gas_. pose proof (wf_gas _ (mid_wf _ _ Hm)) as Hg.
  destruct (record_cost (i_gas i) c) as [g []] eqn:E.
  - apply record_cost_true in E as (Hg' & Hr & Hl & Hu & Hme & _); [|done..].
    apply HQ. pose proof (mid_used _ _ Hm). eapply mid_set_gas; try done. lia.
  - apply record_cost_false in E as [-> _]; [|done..].
    replace (set_gas i (i_gas i)) with i by (by destruct i). by eapply finish_result.
Qed.

(** The same, remembering only that the cost is positive. *)
Lemma r_gas_pos k i h c Q :
  mid k i -> ok addr h -> 0 <= k -> 1 <= c < u64_modulus ->
  (forall c g, 1 <= c < u64_modulus -> mid (k + c) (set_gas i g) -> Q tt (set_gas i g) h) ->
  iwp (gas_ c) i h Q finished.
Proof. intros Hm Ho Hk Hc HQ. eapply r_gas; eauto. rlia. Qed.

Lemma r_gas_or_fail k i h oc Q :
  mid k i -> ok addr h -> 0 <= k -> (forall c, oc = Some c -> 1 <= c < u64_modulus) ->
  (forall c g, 1 <= c < u64_modulus -> mid (k + c) (set_gas i g) -> Q tt (set_gas i g) h) ->
  iwp (gas_or_fail oc) i h Q finished.
Proof.
  intros Hm Ho Hk Hc HQ. destruct oc as [c|]; simpl; [|by eapply r_fail].
  specialize (Hc c eq_refl). eapply r_gas; eauto. rlia.
Qed.

Lemma r_memory_resize k i h offset len Q :
  mid k i -> ok addr h -> 0 <= k -> is_u64 offset -> is_u64 len ->
  (forall g m, mid k (set_memory (set_gas i g) m) -> offset + len <= zlen m ->
    zlen (i_memory i) <= zlen m -> Q tt (set_memory (set_gas i g) m) h) ->
  iwp (memory_resize offset len) i h Q finished.
Proof.
  intros Hm Ho Hk Hoff Hlen HQ. unfold iwp, memory_resize, u64_saturating_add.
  pose proof (mid_wf _ _ Hm) as [Hct Hg Hmem Hw Hmg Hlim Hs Hrd Hrr].
  rewrite next_multiple_spec by rlia. unfold ceil32.
  destruct (Z.ltb_spec (32 * ((Z.min (offset + len) u64_max + 31) / 32)) u64_modulus);
    [|by eapply finish_result].
  assert (Hns : offset + len <= 32 * ((Z.min (offset + len) u64_max + 31) / 32)) by zlia.
  assert (Hdiv : (32 * ((Z.min (offset + len) u64_max + 31) / 32)) mod 32 = 0) by zlia.
  revert Hns Hdiv. generalize (32 * ((Z.min (offset + len) u64_max + 31) / 32)) as n.
  intros n Hns Hdiv. unfold Memory.len.
  case_if; [by eapply finish_result|]. case_if.
  - assert (Hmono : memory_gas (zlen (i_memory i) / 32) <= memory_gas (n / 32)).
    { apply memory_gas_mono. split; [apply Z.div_pos; rlia|apply Z.div_le_mono; lia]. }
    assert (Hu : is_u64 (memory_gas (n / 32))) by (apply memory_gas_u64, Z.div_pos; rlia).
    destruct (record_memory _ _) as [g []] eqn:E1.
    + apply record_memory_true in E1 as (Hg' & Hr & Hl & Hus & Hme & _); [|done..].
      simpl. destruct (resize_spec (i_memory i) n) as (m & -> & Hmw & Hml & _); [done|lia|].
      simpl. apply HQ; try lia. destruct Hm as [[] Hpc ? (Hc & Hst & Hmli & Hli) ? Hus0 Hme0].
      constructor; try done; simpl; [|repeat split; simpl; congruence|lia|lia].
      constructor; try done; simpl; rewrite ?Hml; try lia.
      unfold range_wf in *; simpl; lia.
    + apply record_memory_false in E1 as ->; [|done..].
      replace (set_gas i (i_gas i)) with i by (by destruct i). by eapply finish_result.
  - assert (Hi : i = set_memory (set_gas i (i_gas i)) (i_memory i)) by (by destruct i).
    simpl. rewrite Hi. apply HQ; [by rewrite <- Hi|lia..].
Qed.

Lemma r_as_usize k i h v r Q :
  mid k i -> ok addr h -> 0 <= k -> is_u256 v -> r <> Continue -> r <> FatalExternalError ->
  (is_u64 v -> Q v i h) -> iwp (as_usize_or_fail v r) i h Q finished.
Proof.
  intros Hm Ho Hk Hv Hr Hf HQ. unfold as_usize_or_fail.
  pose proof (limbs_high_zero v Hv) as Hl. destruct (_ || _) eqn:E.
  - by eapply r_fail.
  - assert (is_u64 v) by (split; [apply Hv|by apply Hl]). rewrite limb0_small by done.
    by apply HQ.
Qed.

Lemma r_pop_with {A : Type} k i h n (f : list Z -> rust (A * list Z)) Q :
  mid k i -> ok addr h -> 0 <= k ->
  (n <= zlen (i_stack i) -> stack_wf (i_stack i) ->
    wp D (f (i_stack i)) (fun '(a, s) => Q a (set_stack i s) h)) ->
  iwp (pop_with n f) i h Q finished.
Proof.
  intros Hm Ho Hk HQ. unfold iwp, pop_with, Stack.len. case_if; [by eapply finish_result|].
  rewrite wp_bind. eapply wp_mono; [|apply HQ; [lia|apply Hm]]. by intros [a s].
Qed.

Lemma r_pop1 k i h Q :
  mid k i -> ok addr h -> 0 <= k ->
  (forall a s, is_u256 a -> mid k (set_stack i s) -> Q a (set_stack i s) h) ->
  iwp pop1 i h Q finished.
Proof.
  intros Hm Ho Hk HQ. eapply r_pop_with; try done. intros Hl Hs.
  destruct (stack_snoc_view _ Hl) as (t & a & E). rewrite E in *. rewrite pop_unsafe_app. simpl.
  apply HQ; [|apply mid_set_stack; [done|by eapply stack_wf_app]].
  destruct Hs as [_ Hs]. by decompose_Forall.
Qed.

Lemma r_pop2 k i h Q :
  mid k i -> ok addr h -> 0 <= k ->
  (forall a b s, is_u256 a -> is_u256 b -> mid k (set_stack i s) -> Q (a, b) (set_stack i s) h) ->
  iwp pop2 i h Q finished.
Proof.
  intros Hm Ho Hk HQ. eapply r_pop_with; try done. intros Hl Hs.
  destruct (stack_view2 _ Hl) as (t & b & a & E). rewrite E in *. rewrite pop2_unsafe_app. simpl.
  pose proof Hs as [_ Hf]. decompose_Forall.
  apply HQ; [done..|apply mid_set_stack; [done|by eapply stack_wf_app]].
Qed.

Lemma r_pop3 k i h Q :
  mid k i -> ok addr h -> 0 <= k ->
  (forall a b c s, is_u256 a -> is_u256 b -> is_u256 c -> mid k (set_stack i s) ->
    Q (a, b, c) (set_stack i s) h) ->
  iwp pop3 i h Q finished.
Proof.
  intros Hm Ho Hk HQ. eapply r_pop_with; try done. intros Hl Hs.
  destruct (stack_view3 _ Hl) as (t & c & b & a & E). rewrite E in *.
  rewrite pop3_unsafe_app. simpl. pose proof Hs as [_ Hf]. decompose_Forall.
  apply HQ; [done..|apply mid_set_stack; [done|by eapply stack_wf_app]].
Qed.

Lemma r_pop4 k i h Q :
  mid k i -> ok addr h -> 0 <= k ->
  (forall a b c d s, is_u256 a -> is_u256 b -> is_u256 c -> is_u256 d ->
    mid k (set_stack i s) -> Q (a, b, c, d) (set_stack i s) h) ->
  iwp pop4 i h Q finished.
Proof.
  intros Hm Ho Hk HQ. eapply r_pop_with; try done. intros Hl Hs.
  destruct (stack_view4 _ Hl) as (t & d & c & b & a & E). rewrite E in *.
  rewrite pop4_unsafe_app. simpl. pose proof Hs as [_ Hf]. decompose_Forall.
  apply HQ; [done..|apply mid_set_stack; [done|by eapply stack_wf_app]].
Qed.

Lemma low160_range (w : Z) : is_b160 (from_be_bytes (drop 12 (to_be_bytes 32 w))).
Proof.
  pose proof (from_be_range (drop 12 (to_be_bytes 32 w))) as Hr.
  destruct Hr; [apply Forall_drop, to_be_u8|]. split; [done|].
  eapply Z.lt_le_trans; [done|]. unfold zlen. rewrite length_drop, length_to_be.
  by vm_compute.
Qed.

Lemma r_pop_address k i h Q :
  mid k i -> ok addr h -> 0 <= k ->
  (forall a s, is_b160 a -> mid k (set_stack i s) -> Q a (set_stack i s) h) ->
  iwp pop_address i h Q finished.
Proof.
  intros Hm Ho Hk HQ. apply iwp_bind. eapply r_pop1; try done. intros a s Ha Hm'.
  apply iwp_ret, HQ; [apply low160_range|done].
Qed.

Lemma r_pop_top1 k i h Q :
  mid k i -> ok addr h -> 0 <= k ->
  (forall a s, is_u256 a -> mid k (set_stack i (s ++ [a])) -> Q a (set_stack i (s ++ [a])) h) ->
  iwp pop_top1 i h Q finished.
Proof.
  intros Hm Ho Hk HQ. eapply r_pop_with; try done. intros Hl Hs.
  destruct (stack_snoc_view _ Hl) as (t & a & E). rewrite E in *. rewrite top_unsafe_app. simpl.
  apply HQ; [|by apply mid_set_stack].
  destruct Hs as [_ Hs]. by decompose_Forall.
Qed.

Lemma r_pop_top2 k i h Q :
  mid k i -> ok addr h -> 0 <= k ->
  (forall a b s, is_u256 a -> is_u256 b -> mid k (set_stack i (s ++ [b])) ->
    Q (a, b) (set_stack i (s ++ [b])) h) ->
  iwp pop_top2 i h Q finished.
Proof.
  intros Hm Ho Hk HQ. eapply r_pop_with; try done. intros Hl Hs.
  destruct (stack_view2 _ Hl) as (t & b & a & E). rewrite E in *.
  rewrite pop_top_unsafe_app. simpl. pose proof Hs as [_ Hf]. decompose_Forall.
  apply HQ; [done..|apply mid_set_stack; [done|]].
  apply (stack_wf_app _ [a]). by rewrite <- app_assoc.
Qed.

Lemma r_pop_top3 k i h Q :
  mid k i -> ok addr h -> 0 <= k ->
  (forall a b c s, is_u256 a -> is_u256 b -> is_u256 c -> mid k (set_stack i (s ++ [c])) ->
    Q (a, b, c) (set_stack i (s ++ [c])) h) ->
  iwp pop_top3 i h Q finished.
Proof.
  intros Hm Ho Hk HQ. eapply r_pop_with; try done. intros Hl Hs.
  destruct (stack_view3 _ Hl) as (t & c & b & a & E). rewrite E in *.
  rewrite pop2_top_unsafe_app. simpl. pose proof Hs as [_ Hf]. decompose_Forall.
  apply HQ; [done..|apply mid_set_stack; [done|]].
  apply (stack_wf_app _ [b; a]). by rewrite <- app_assoc.
Qed.

Lemma r_set_top k i h s b v Q :
  mid k i -> i_stack i = s ++ [b] -> is_u256 v ->
  (mid k (set_stack i (s ++ [v])) -> Q tt (set_stack i (s ++ [v])) h) ->
  iwp (set_top v) i h Q finished.
Proof.
  intros Hm E Hv HQ. unfold iwp, set_top. rewrite E, set_top_app. simpl. apply HQ.
  apply mid_set_stack; [done|]. pose proof (wf_stack _ (mid_wf _ _ Hm)) as Hs. rewrite E in Hs.
  apply stack_wf_snoc; [|by eapply stack_wf_app|done].
  destruct Hs as [Hs _]. autorewrite with zlen in Hs. lia.
Qed.

Lemma r_push k i h v Q :
  mid k i -> ok addr h -> 0 <= k -> is_u256 v ->
  (forall s, mid k (set_stack i s) -> Q tt (set_stack i s) h) -> iwp (push v) i h Q finished.
Proof.
  intros Hm Ho Hk Hv HQ. unfold iwp, push. rewrite push_spec. case_if.
  - replace (set_stack i (i_stack i)) with i by (by destruct i). by eapply finish_result.
  - apply HQ, mid_set_stack; [done|].
    apply stack_wf_snoc; [lia|apply (wf_stack _ (mid_wf _ _ Hm))|done].
Qed.

Lemma r_push_b256 k i h v Q :
  mid k i -> ok addr h -> 0 <= k -> is_u256 v ->
  (forall s, mid k (set_stack i s) -> Q tt (set_stack i s) h) ->
  iwp (push_b256 v) i h Q finished.
Proof. apply r_push. Qed.

Lemma r_ask {A : Type} (f : H -> rust (A * H)) (P : A -> H -> Prop) i h Q R :
  wp D (f h) (fun '(x, h') => P x h' /\ ok addr h') ->
  (forall x h', P x h' -> ok addr h' -> Q x i h') -> iwp (ask f) i h Q R.
Proof.
  intros Hf HQ. unfold iwp, ask. rewrite wp_bind. eapply wp_mono; [|exact Hf].
  intros [x h'] [HP Ho]. simpl. auto.
Qed.

Lemma r_get_env i h Q R :
  ok addr h -> (env_wf SPEC (host_env h) -> Q (host_env h) i h) -> iwp get_env i h Q R.
Proof. intros Ho HQ. apply HQ. by eapply env_ok. Qed.

Lemma r_some_or_fatal {A : Type} k i h (o : option A) P Q :
  mid k i -> ok addr h -> 0 <= k -> answer fatal P o h -> (forall a, P a -> Q a i h) ->
  iwp (some_or_fatal o) i h Q finished.
Proof. intros Hm Ho Hk Ha HQ. destruct o; [by apply HQ|by eapply finish_result]. Qed.

Lemma r_leave k i h {A : Type} (Q : A -> Interpreter -> H -> Prop) :
  mid k i -> ok addr h -> 0 < k -> iwp leave i h Q finished.
Proof. intros. by eapply finish_continue. Qed.

Lemma r_end k i h : mid k i -> ok addr h -> 0 < k -> FIN tt i h.
Proof. intros. by eapply finish_continue. Qed.

Lemma r_binary_op k i h c f :
  mid k i -> ok addr h -> 0 <= k -> 0 < c < u64_modulus ->
  (forall a b, is_u256 a -> is_u256 b -> wp D (f a b) is_u256) ->
  iwp (binary_op c f) i h FIN finished.
Proof.
  intros Hm Ho Hk Hc Hf. apply iwp_bind. eapply r_gas; try done; [rlia|]. intros g Hm1.
  apply iwp_bind. eapply r_pop_top2; try done; [lia|]. intros a b s Ha Hb Hm2.
  apply iwp_bind. eapply iwp_lift; [by apply Hf|]. intros v Hv.
  eapply r_set_top; try done. intros Hm3. eapply r_end; try done. lia.
Qed.

End instruction.

(** *** Proof automation: one tactic step per macro *)

Ltac k_side :=
  range_unfold; unfold gas.BASE, gas.VERYLOW, gas.LOW, gas.MID, gas.HIGH, gas.JUMPDEST,
    gas.BLOCKHASH, gas.CREATE, gas.COLD_ACCOUNT_ACCESS_COST, gas.WARM_STORAGE_READ_COST in *;
  lia.
Ltac i_simpl :=
  cbn beta iota delta [i_pc i_result i_gas i_memory i_stack i_return_data_buffer
    i_return_range i_is_static i_contract i_memory_limit
    set_pc set_result set_gas set_memory set_stack set_return_data_buffer set_return_range
    program_counter fst snd].
Ltac with_state tac := tac; [eassumption|eassumption|k_side| ..].

Ltac head_of t := lazymatch t with ?f _ => head_of f | _ => t end.

Ltac istep :=
  lazymatch goal with
  | |- iwp (mbind _ _) _ _ _ _ => apply iwp_bind
  | |- iwp (gas_ _) _ _ _ _ =>
      first [ with_state ltac:(eapply r_gas); [k_side|intros ? ?]
            | with_state ltac:(eapply r_gas_pos); [|intros ? ? ? ?] ]
  | |- iwp (check _) _ _ _ _ => with_state ltac:(eapply r_check); intros ?
  | |- iwp check_staticcall _ _ _ _ => with_state ltac:(eapply r_check_staticcall); intros ?
  | |- iwp (gas_or_fail _) _ _ _ _ =>
      with_state ltac:(eapply r_gas_or_fail); [|intros ? ? ? ?]
  | |- iwp (memory_resize _ _) _ _ _ _ =>
      with_state ltac:(eapply r_memory_resize); [k_side|k_side|intros ? ? ? ? ?]
  | |- iwp (as_usize_or_fail _ _) _ _ _ _ =>
      with_state ltac:(eapply r_as_usize); [assumption|discriminate|discriminate|intros ?]
  | |- iwp pop1 _ _ _ _ => with_state ltac:(eapply r_pop1); intros ? ? ? ?
  | |- iwp pop2 _ _ _ _ => with_state ltac:(eapply r_pop2); intros ? ? ? ? ? ?
  | |- iwp pop3 _ _ _ _ => with_state ltac:(eapply r_pop3); intros ? ? ? ? ? ? ? ?
  | |- iwp pop4 _ _ _ _ => with_state ltac:(eapply r_pop4); intros ? ? ? ? ? ? ? ? ? ?
  | |- iwp pop_address _ _ _ _ => with_state ltac:(eapply r_pop_address); intros ? ? ? ?
  | |- iwp pop_top1 _ _ _ _ => with_state ltac:(eapply r_pop_top1); intros ? ? ? ?
  | |- iwp pop_top2 _ _ _ _ => with_state ltac:(eapply r_pop_top2); intros ? ? ? ? ? ?
  | |- iwp pop_top3 _ _ _ _ => with_state ltac:(eapply r_pop_top3); intros ? ? ? ? ? ? ? ?
  | |- iwp (set_top _) _ _ _ _ =>
      eapply r_set_top; [eassumption|reflexivity| |intros ?]
  | |- iwp (push _) _ _ _ _ => with_state ltac:(eapply r_push); [|intros ? ?]
  | |- iwp (push_b256 _) _ _ _ _ => with_state ltac:(eapply r_push_b256); [|intros ? ?]
  | |- iwp get_interp _ _ _ _ => apply iwp_get_interp
  | |- iwp get_env _ _ _ _ => eapply r_get_env; [eassumption|intros ?]
  | |- iwp (some_or_fatal _) _ _ _ _ =>
      with_state ltac:(eapply r_some_or_fatal); [eassumption|intros ? ?]
  | |- iwp (fail_with _) _ _ _ _ => with_state ltac:(eapply r_fail); discriminate
  | |- iwp leave _ _ _ _ => eapply r_leave; [eassumption|eassumption|k_side]
  | |- iwp (ret _) _ _ _ _ => apply iwp_ret
  | |- iwp (match ?p with pair _ _ => _ end) _ _ _ _ =>
      first [is_var p; destruct p as [? ?] | progress cbn beta iota]
  | |- iwp (if ?b then _ else _) _ _ _ _ => let E := fresh "E" in destruct b eqn:E; bool_to_prop
  | |- iwp (modify _) _ _ _ _ => apply iwp_modify
  | |- iwp (lift _) _ _ _ _ => fail
  | |- iwp (ask _) _ _ _ _ => fail
  | |- iwp (binary_op _ _) _ _ _ _ => fail
  | |- iwp (control.jump_to _) _ _ _ _ => fail
  | |- iwp (host.pop_topics _) _ _ _ _ => fail
  | |- iwp (control.return_with _) _ _ _ _ => fail
  | |- iwp (system.copy_to_memory _ _ _ _) _ _ _ _ => fail
  | |- iwp (host.call_result _ _ _ _ _) _ _ _ _ => fail
  | |- iwp (host.create_result _ _ _ _) _ _ _ _ => fail
  | |- iwp ?m _ _ _ _ => let f := head_of m in unfold f
  | |- finished _ _ _ => eapply finish_continue; [|eassumption|eassumption]; k_side
  end; cbn beta iota.

(** What it is for an instruction to be safe. *)
Definition instr_ok (f : instr H unit) : Prop :=
  forall i0 h, mid i0 0 i0 -> ok (ct_address (i_contract i0)) h ->
  iwp f i0 h (fun _ => finished i0) (finished i0).

Lemma binary_op_ok c f :
  0 < c < u64_modulus -> (forall a b, is_u256 a -> is_u256 b -> wp D (f a b) is_u256) ->
  instr_ok (binary_op c f).
Proof. intros Hc Hf i0 h Hm Ho. eapply r_binary_op; try done. Qed.

Lemma u64_u256 x : is_u64 x -> is_u256 x.
Proof. rlia. Qed.
Lemma b160_u256 x : is_b160 x -> is_u256 x.
Proof. rlia. Qed.

Lemma bool_word_range b : is_u256 (bool_word b).
Proof. destruct b; by vm_compute. Qed.
#[local] Hint Resolve bool_word_range : range_db.

Ltac binary := apply binary_op_ok; [by vm_compute|]; intros a b Ha Hb; cbn [wp].

Ltac u_range :=
  first [ assumption
        | solve [auto using wrap256_range, u256_shl_range with range_db]
        | rlia | k_side ].

Lemma arithmetic_ok :
  Forall instr_ok [arithmetic.wrapped_add; arithmetic.wrapping_mul; arithmetic.wrapping_sub;
    arithmetic.div; arithmetic.sdiv; arithmetic.rem; arithmetic.smod; arithmetic.addmod;
    arithmetic.mulmod; arithmetic.eval_exp SPEC; arithmetic.signextend].
Proof.
  repeat apply Forall_cons_2; try apply Forall_nil_2.
  - binary. u_range.
  - binary. u_range.
  - binary. u_range.
  - binary. case_if; [u_range|]. apply u256_div_range; [done|rlia].
  - binary. by apply sdiv_ops_range.
  - binary. case_if; [u_range|]. pose proof (Z.mod_pos_bound a b). rlia.
  - intros i0 h Hm Ho. repeat istep.
    eapply iwp_lift; [by apply sdiv_ops_range|]. intros v Hv. by repeat istep.
  - intros i0 h Hm Ho. repeat istep. by apply u256_mod_ops_range.
  - intros i0 h Hm Ho. repeat istep. by apply u256_mod_ops_range.
  - intros i0 h Hm Ho. repeat istep. rewrite exp_cost_spec by done.
    eapply iwp_lift_val; [done|].
    pose proof (byte_length_bound b) as Hb. destruct Hb; [done|].
    repeat istep.
    + intros c [= <-]. case_if; k_side.
    + apply u256_pow_range. rlia.
  - binary. by apply signextend_word_range.
Qed.

Lemma bitwise_ok :
  Forall instr_ok [bitwise.lt; bitwise.gt; bitwise.slt; bitwise.sgt; bitwise.eq;
    bitwise.iszero; bitwise.bitand; bitwise.bitor; bitwise.bitxor; bitwise.not; bitwise.byte;
    bitwise.shl SPEC; bitwise.shr SPEC; bitwise.sar SPEC].
Proof.
  assert (Hsat : forall a, is_u256 a -> 0 <= as_u64_saturated a).
  { intros a Ha. rewrite as_u64_saturated_spec by done. rlia. }
  repeat apply Forall_cons_2; try apply Forall_nil_2.
  - binary. u_range.
  - binary. u_range.
  - binary. destruct (i256_cmp a b); u_range.
  - binary. destruct (i256_cmp a b); u_range.
  - binary. u_range.
  - intros i0 h Hm Ho. repeat istep. u_range.
  - binary. apply land_u256; [done|rlia].
  - binary. u_range.
  - binary. u_range.
  - intros i0 h Hm Ho. repeat istep. by apply u256_not_range.
  - binary. by apply byte_word_range.
  - intros i0 h Hm Ho. repeat istep. eapply r_binary_op; try done.
    intros a b Ha Hb. apply u256_shl_range.
  - intros i0 h Hm Ho. repeat istep. eapply r_binary_op; try done.
    intros a b Ha Hb. apply u256_shr_range; auto.
  - intros i0 h Hm Ho. repeat istep. eapply r_binary_op; try done.
    intros a b Ha Hb. by apply sdiv_ops_range.
Qed.

(** A jump goes to a byte of the code. *)
Lemma r_jump_to i0 k i h dest :
  mid i0 k i -> ok (ct_address (i_contract i0)) h -> 0 < k -> 0 <= dest ->
  iwp (control.jump_to dest) i h (fun _ => finished i0) (finished i0).
Proof.
  intros Hm Ho Hk Hd. unfold control.jump_to. do 2 istep. istep; istep.
  - eapply finish_continue; [done| |done]. apply mid_set_pc; [done|]. split; [done|].
    destruct (wf_contract _ (mid_wf _ _ _ Hm)) as (_ & (_ & _ & _ & Hj) & _). by apply Hj.
  - eapply (finish_result i0 k); try done. lia.
Qed.

Lemma r_return_with i0 k i h r :
  mid i0 k i -> ok (ct_address (i_contract i0)) h -> 0 <= k -> r <> Continue ->
  r <> FatalExternalError ->
  iwp (control.return_with r) i h (fun _ => finished i0) (finished i0).
Proof.
  intros Hm Ho Hk Hr Hf. unfold control.return_with. repeat istep.
  - eapply (finish_result i0 k); [done|done| |done|done]. apply mid_set_return_range; [done|]. by left.
  - eapply (finish_result i0 k); [done|done| |done|done]. apply mid_set_return_range; [done|].
    right. pose proof (wf_memory _ (mid_wf _ _ _ H5)) as [_ Hb]. simpl in Hb |- *.
    rewrite wrap64_id by rlia. rlia.
Qed.

Lemma control_ok :
  Forall instr_ok [control.jump; control.jumpi; control.jumpdest; control.pc; control.ret;
    control.revert SPEC].
Proof.
  repeat apply Forall_cons_2; try apply Forall_nil_2; intros i0 h Hm Ho.
  - repeat istep. eapply r_jump_to; try done; k_side.
  - repeat istep. eapply r_jump_to; try done; k_side.
  - by repeat istep.
  - repeat istep. apply u64_u256, wrap64_range.
  - unfold control.ret. by eapply r_return_with.
  - repeat istep. by eapply r_return_with.
Qed.

(** Reading and writing memory in bounds. *)
Lemma iwp_get_slice k i0 i j h offset n Q R :
  mid i0 k i -> i_memory j = i_memory i -> 0 <= offset -> 0 <= n -> offset + n <= zlen (i_memory i) ->
  (forall l, bytes_wf l -> zlen l = n -> n <= mem_max -> Q l j h) ->
  iwp (lift (Memory.get_slice (i_memory j) offset n)) j h Q R.
Proof.
  intros Hm Hj Ho Hn Hb HQ. rewrite Hj.
  pose proof (wf_memory _ (mid_wf _ _ _ Hm)) as Hmw.
  destruct (get_slice_spec (i_memory i) offset n) as (l & -> & Hl & Hu); try done.
  pose proof (wf_memory_limit _ (mid_wf _ _ _ Hm)).
  apply HQ; [|done|lia]. split; [done|]. destruct Hmw. lia.
Qed.

Lemma u256_from_be (l : list Z) : Forall is_u8 l -> zlen l <= 32 -> is_u256 (from_be_bytes l).
Proof.
  intros Hu Hl. destruct (from_be_range l Hu) as [H1 H2]. split; [done|].
  eapply Z.lt_le_trans; [done|]. change u256_modulus with (256 ^ 32).
  apply Z.pow_le_mono_r; [lia|done].
Qed.

Lemma memory_ok :
  Forall instr_ok [memory.mload; memory.mstore; memory.mstore8; memory.msize].
Proof.
  repeat apply Forall_cons_2; try apply Forall_nil_2; intros i0 h Hm Ho; repeat istep.
  - eapply iwp_get_slice; try done; simpl; try rlia. intros l [Hl _] Hlen _. repeat istep.
    apply u256_from_be; [done|lia].
  - match goal with H : mid i0 _ (set_memory _ m) |- _ =>
      destruct (wf_memory _ (mid_wf _ _ _ H)) as [Hu8 Hle] end. simpl in *.
    destruct (set_u256_spec m a b) as (m' & Hs & Hw & Hl & _); [done|rlia|rlia|].
    eapply iwp_lift_val; [exact Hs|]. istep.
    eapply finish_continue; [| |done]; [|apply mid_set_memory; try done]. k_side.
  - match goal with H : mid i0 _ (set_memory _ m) |- _ =>
      destruct (wf_memory _ (mid_wf _ _ _ H)) as [Hu8 Hle] end. simpl in *.
    destruct (set_byte_spec m a (b mod 256)) as (m' & Hs & Hw & Hl);
      [done|apply Z.mod_pos_bound; lia|rlia|].
    eapply iwp_lift_val; [exact Hs|]. istep.
    eapply finish_continue; [| |done]; [|apply mid_set_memory; try done]. k_side.
  - pose proof (wf_memory _ (mid_wf _ _ _ H0)) as [_ Hle]. simpl in Hle |- *.
    unfold Memory.effective_len. rlia.
Qed.

(** Operations that report their error through an [Option]. *)
Lemma r_stack_result i0 k i h s r :
  mid i0 k i -> ok (ct_address (i_contract i0)) h -> 0 < k -> stack_wf s -> r <> Some Continue ->
  r <> Some FatalExternalError ->
  iwp (modify (fun i => set_stack i s);; stack.set_result_if r) i h
    (fun _ => finished i0) (finished i0).
Proof.
  intros Hm Ho Hk Hs Hr Hf. do 2 istep. apply mid_set_stack with (s := s) in Hm; [|done].
  destruct r as [r|]; simpl; istep.
  - eapply (finish_result i0 k); try done; [lia|congruence|congruence].
  - by repeat istep.
Qed.

Lemma stack_insert_wf (s : list Z) (j : nat) (v : Z) :
  stack_wf s -> is_u256 v -> stack_wf (<[j := v]> s).
Proof.
  intros [Hl Hf] Hv. split; [unfold zlen in *; by rewrite length_insert|]. by apply Forall_insert.
Qed.

Lemma dup_ok N : 1 <= N -> instr_ok (stack.dup N).
Proof.
  intros HN i0 h Hm Ho. do 5 istep.
  match goal with H : mid i0 _ (set_gas _ _) |- _ =>
    pose proof (wf_stack _ (mid_wf _ _ _ H)) as Hs end. simpl in Hs |- *.
  pose proof (dup_spec N (i_stack i0) HN) as Hd.
  destruct (zlen (i_stack i0) <? N); [|destruct (Z.leb_spec 1024 (zlen (i_stack i0)))].
  - istep. eapply iwp_lift_val; [exact Hd|]. eapply r_stack_result; try done.
  - istep. eapply iwp_lift_val; [exact Hd|]. eapply r_stack_result; try done.
  - destruct Hd as (v & Hv & Hd). istep. eapply iwp_lift_val; [exact Hd|].
    eapply r_stack_result; try done. apply stack_wf_snoc; [lia|done|].
    destruct Hs as [_ Hf]. by eapply Forall_lookup_1.
Qed.

Lemma swap_ok N : 1 <= N -> instr_ok (stack.swap N).
Proof.
  intros HN i0 h Hm Ho. do 5 istep.
  match goal with H : mid i0 _ (set_gas _ _) |- _ =>
    pose proof (wf_stack _ (mid_wf _ _ _ H)) as Hs end. simpl in Hs |- *.
  pose proof (swap_spec N (i_stack i0) HN) as Hd.
  destruct (zlen (i_stack i0) <=? N).
  - istep. eapply iwp_lift_val; [exact Hd|]. eapply r_stack_result; try done.
  - destruct Hd as (a & b & Ha & Hb & Hd). istep. eapply iwp_lift_val; [exact Hd|].
    pose proof Hs as [_ Hf].
    eapply r_stack_result; try done. apply stack_insert_wf; [apply stack_insert_wf; [done|]|];
      by eapply Forall_lookup_1.
Qed.

Lemma pop_ok : instr_ok stack.pop.
Proof.
  intros i0 h Hm Ho. do 5 istep.
  match goal with H : mid i0 _ (set_gas _ _) |- _ =>
    pose proof (wf_stack _ (mid_wf _ _ _ H)) as Hs end. simpl in Hs |- *.
  destruct (decide (1 <= zlen (i_stack i0))) as [Hl|Hl].
  - destruct (stack_snoc_view _ Hl) as (t & a & E). rewrite E, reduce_one_app in *.
    eapply r_stack_result; try done. by eapply stack_wf_app.
  - unfold Stack.reduce_one, Stack.len. case_if; [|lia]. eapply r_stack_result; try done.
Qed.

Lemma push0_ok : instr_ok (stack.push0 SPEC).
Proof. intros i0 h Hm Ho. repeat istep. u_range. Qed.

(** The immediate bytes of a [PUSH] are inside the padded code. *)
Lemma push_ok N i0 h :
  1 <= N <= 32 -> mid i0 0 i0 -> ok (ct_address (i_contract i0)) h ->
  i_pc i0 + N < zlen (code_of i0) ->
  iwp (stack.push N) i0 h (fun _ => finished i0) (finished i0).
Proof.
  intros HN Hm Ho Hpc. do 5 istep.
  match goal with H : mid i0 _ (set_gas _ _) |- _ => rename H into Hm1 end.
  pose proof (mid_pc _ _ _ Hm) as Hp. unfold pc_ok in Hp.
  destruct (wf_contract _ (mid_wf _ _ _ Hm)) as (_ & ([Hu8 _] & _) & _).
  pose proof (wf_stack _ (mid_wf _ _ _ Hm)) as Hs.
  istep. change (code_of (set_gas i0 g)) with (code_of i0). i_simpl. unfold stack.raw_parts.
  rewrite (proj2 (Z.leb_le 0 (i_pc i0))), (proj2 (Z.leb_le _ (zlen (code_of i0)))) by lia.
  eapply iwp_lift_val; [done|].
  set (sl := take _ _).
  assert (Hsl : zlen sl = N /\ Forall is_u8 sl).
  { unfold sl. split; [|by apply Forall_take, Forall_drop].
    unfold zlen in *. rewrite length_take, length_drop. lia. }
  destruct Hsl as [Hsl Hsu].
  istep. rewrite push_slice_spec by done.
  destruct (Z.leb_spec 1024 (zlen (i_stack i0))); (eapply iwp_lift_val; [done|]); repeat istep.
  eapply (finish_continue i0 (0 + gas.VERYLOW)); try done. apply mid_set_pc; [|unfold code_of in *; simpl; lia].
  apply mid_set_stack; [done|]. apply stack_wf_snoc; [lia|done|].
  apply u256_from_be; [done|lia].
Qed.

(** The copy instructions: memory grows first, so the copy is in bounds. *)
Lemma r_copy_to_memory i0 k i h mo dof len data d :
  mid i0 k i -> ok (ct_address (i_contract i0)) h -> 0 < k ->
  is_u64 mo -> 0 <= dof -> is_u64 len -> data = Val d -> bytes_wf d ->
  iwp (system.copy_to_memory mo dof len data) i h (fun _ => finished i0) (finished i0).
Proof.
  intros Hm Ho Hk Hmo Hdof Hlen -> [Hd Hdl]. unfold system.copy_to_memory.
  repeat istep. eapply iwp_lift_val; [done|]. repeat istep.
  match goal with H : mid i0 _ (set_memory _ m) |- _ =>
    rename H into Hm1; pose proof (wf_memory _ (mid_wf _ _ _ Hm1)) as Hmw end. simpl in Hmw |- *.
  destruct (set_data_spec m d mo dof len) as (m' & Hs & Hw & Hl & _); try done; try rlia.
  eapply iwp_lift_val; [exact Hs|]. istep.
  eapply (finish_continue i0 k); [done| |done]. by apply mid_set_memory.
Qed.

Lemma saturated_nonneg a : is_u256 a -> is_u64 (as_u64_saturated a).
Proof. intros Ha. rewrite as_u64_saturated_spec by done. rlia. Qed.

Lemma copy_cost_bounds len :
  is_u64 len ->
  (forall c, verylowcopy_cost len = Some c -> 1 <= c < u64_modulus) /\
  (forall c, sha3_cost len = Some c -> 1 <= c < u64_modulus) /\
  (forall c, create2_cost len = Some c -> 1 <= c < u64_modulus) /\
  (forall cold c, extcodecopy_cost SPEC len cold = Some c -> 1 <= c < u64_modulus).
Proof.
  intros Hl. pose proof (words_range len Hl).
  destruct (copy_costs SPEC len false Hl) as (-> & -> & -> & _).
  repeat split; try (intros; simplify_eq; lia);
    destruct (copy_costs SPEC len cold Hl) as (_ & _ & _ & base & Hb & Hc);
    rewrite Hc in *; simplify_eq; lia.
Qed.

Ltac cost := by apply copy_cost_bounds.

Lemma sha3_ok : instr_ok system.sha3.
Proof.
  intros i0 h Hm Ho. repeat istep; [cost|by vm_compute|].
  eapply iwp_get_slice; try done; simpl; try rlia. intros l [Hl _] Hlen _. repeat istep.
  apply keccak_range.
Qed.

Lemma contract_facts i0 k i :
  mid i0 k i -> contract_wf (i_contract i) /\ i_contract i = i_contract i0 /\
  i_is_static i = static.
Proof. intros Hm. split; [apply Hm|]. split; apply Hm. Qed.

Lemma original_bytecode_ok c :
  contract_wf c -> exists d, original_bytecode_slice (ct_bytecode c) = Val d /\ bytes_wf d.
Proof.
  intros (_ & (Hc & Hl & Hlen & _) & _). unfold original_bytecode_slice.
  rewrite slice_val by lia. eexists; split; [done|]. split.
  - apply Forall_take, Forall_drop, Hc.
  - unfold zlen in *. rewrite length_take, length_drop. lia.
Qed.

Lemma calldataload_ok : instr_ok system.calldataload.
Proof.
  intros i0 h Hm Ho. repeat istep; [|u_range].
  pose proof (saturated_nonneg a) as Hs. i_simpl. simpl in E.
  destruct (wf_contract _ (mid_wf _ _ _ Hm)) as ([Hin Hinl] & _).
  set (input := ct_input (i_contract i0)) in *.
  set (n := Z.min (zlen input - as_u64_saturated a) 32) in *.
  assert (Hn : 0 <= n <= 32 /\ as_u64_saturated a + n <= zlen input) by (subst n; lia).
  specialize (Hs ltac:(done)).
  rewrite slice_val by rlia. eapply iwp_lift_val; [done|]. istep.
  set (src := take _ _).
  assert (Hsrc : zlen src = n /\ Forall is_u8 src).
  { unfold src. split; [|by apply Forall_take, Forall_drop].
    unfold zlen, is_u64 in *. rewrite length_take, length_drop. lia. }
  rewrite copy_from_slice_val by (autorewrite with zlen; lia).
  eapply iwp_lift_val; [done|]. repeat istep. apply u256_from_be.
  - apply Forall_app. split; [apply Forall_take, (Forall_zero 32)|].
    apply Forall_app. split; [apply Hsrc|]. apply Forall_drop, (Forall_zero 32).
  - unfold zlen in *. rewrite splice_length; rewrite ?length_replicate; lia.
Qed.

Lemma returndatacopy_ok : instr_ok (system.returndatacopy SPEC).
Proof.
  intros i0 h Hm Ho. repeat istep; [cost|].
  pose proof (saturated_nonneg b ltac:(done)) as Hs. unfold u64_overflowing_add.
  destruct (Z.leb_spec u64_modulus (as_u64_saturated b + c)); cbn [orb]; repeat istep.
  rewrite wrap64_id in * by rlia.
  match goal with H : mid i0 _ (set_memory _ m) |- _ =>
    rename H into Hm1; pose proof (wf_memory _ (mid_wf _ _ _ Hm1)) as Hmw;
    pose proof (wf_return_data _ (mid_wf _ _ _ Hm1)) as [Hrd Hrl] end.
  i_simpl. simpl in Hmw, Hrd, Hrl, E.
  rewrite slice_val by rlia. eapply iwp_lift_val; [done|]. repeat istep.
  set (src := take _ _).
  assert (Hsrc : zlen src = c /\ Forall is_u8 src).
  { unfold src. split; [|by apply Forall_take, Forall_drop].
    unfold zlen in *. rewrite length_take, length_drop. unfold is_u64 in *. lia. }
  i_simpl. destruct (set_spec m src a) as (m' & Hset & Hw & Hl); try done; try rlia; [apply Hsrc|].
  eapply iwp_lift_val; [exact Hset|]. istep.
  eapply finish_continue; [| |done]; [|by apply mid_set_memory]. k_side.
Qed.

Lemma system_ok :
  Forall instr_ok [system.sha3; system.address; system.caller; system.codesize;
    system.codecopy; system.calldataload; system.calldatasize; system.callvalue;
    system.calldatacopy; system.returndatasize SPEC; system.returndatacopy SPEC; system.gas].
Proof.
  repeat apply Forall_cons_2; try apply Forall_nil_2;
    try apply sha3_ok; try apply calldataload_ok; try apply returndatacopy_ok;
    intros i0 h Hm Ho;
    destruct (contract_facts i0 0 i0 Hm) as (Hc & _ & _);
    pose proof Hc as ([Hin Hinl] & (_ & Hbl & Hbll & _) & Ha & Hca & Hv); repeat istep.
  - by apply b160_u256.
  - by apply b160_u256.
  - i_simpl. rlia.
  - cost.
  - destruct (original_bytecode_ok _ Hc) as (d & Hd & Hdw). i_simpl.
    pose proof (saturated_nonneg b ltac:(done)) as Hs.
    eapply r_copy_to_memory; try done; k_side.
  - i_simpl. rlia.
  - done.
  - cost.
  - pose proof (saturated_nonneg b ltac:(done)) as Hs. i_simpl.
    eapply r_copy_to_memory; try done; k_side.
  - pose proof (wf_return_data _ (mid_wf _ _ _ Hm)) as [_ Hl]. i_simpl. rlia.
  - apply u64_u256, wrap64_range.
Qed.

Lemma host_env_ok :
  Forall instr_ok [host_env.chainid SPEC; host_env.coinbase; host_env.timestamp;
    host_env.number; host_env.difficulty SPEC; host_env.gaslimit; host_env.gasprice;
    host_env.basefee SPEC; host_env.origin].
Proof.
  repeat apply Forall_cons_2; try apply Forall_nil_2; intros i0 h Hm Ho; repeat istep;
    match goal with H : env_wf _ _ |- _ => destruct H end; try done;
    try (by apply b160_u256).
  - destruct ewf_prevrandao0 as (r & Hr & Hu); [done|]. rewrite Hr.
    eapply iwp_lift_val; [done|]. by repeat istep.
  - unfold effective_gas_price. destruct (tx_gas_priority_fee _); [|done].
    match goal with |- is_u256 (Z.min _ ?x) => assert (is_u256 x) by apply wrap256_range end.
    rlia.
Qed.

(** ** Instructions that call the host *)

Lemma r_ask0 {A : Type} i0 (f : H -> rust (A * H)) i h Q R :
  wp D (f h) (fun '(_, h') => ok (ct_address (i_contract i0)) h') ->
  (forall x h', ok (ct_address (i_contract i0)) h' -> Q x i h') -> iwp (ask f) i h Q R.
Proof.
  intros Hf HQ. eapply (r_ask i0 f (fun _ _ => True)); [|auto].
  eapply wp_mono; [|exact Hf]. by intros [x h'].
Qed.

Lemma mid_refund i0 k i r : mid i0 k i -> mid i0 k (set_gas i (gas_refund (i_gas i) r)).
Proof. intros Hm. eapply mid_set_gas; try done; apply Hm. Qed.

(** Giving back unspent gas of a child, at most what was charged for it. *)
Lemma mid_erase i0 k i r : mid i0 k i -> 0 <= r <= k ->
  mid i0 (k - r) (set_gas i (erase_cost (i_gas i) r)).
Proof.
  intros Hm Hr. pose proof (wf_gas _ (mid_wf _ _ _ Hm)) as Hg.
  pose proof (mid_used _ _ _ Hm) as Hu.
  destruct (wf_gas _ (mid_start _ _ _ Hm)) as (H0 & _).
  rewrite erase_cost_spec by (done || lia). destruct Hg as (? & ? & ? & ? & ?).
  eapply mid_set_gas; try done; simpl; [|lia]. repeat split; simpl; try done; try lia; apply H5.
Qed.

Lemma mid_erase_refund i0 k i r f : mid i0 k i -> 0 <= r <= k ->
  mid i0 (k - r) (set_gas i (record_refund (erase_cost (i_gas i) r) f)).
Proof.
  intros Hm Hr. exact (mid_refund _ _ _ f (mid_erase _ _ _ _ Hm Hr)).
Qed.

Ltac ask_step lem :=
  eapply r_ask; [by eapply lem|]; intros ? ? ? ?; cbn beta iota; repeat istep.

Lemma host_reads_ok :
  Forall instr_ok [host.balance SPEC; host.selfbalance SPEC; host.extcodesize SPEC;
    host.extcodehash SPEC; host.extcodecopy SPEC; host.blockhash; host.sload SPEC].
Proof.
  repeat apply Forall_cons_2; try apply Forall_nil_2; intros i0 h Hm Ho;
    destruct (contract_facts i0 0 i0 Hm) as ((_ & _ & Ha & _) & _); repeat istep.
  - ask_step balance_ok; [|done].
    pose proof (account_access_gas_range SPEC b). repeat case_if; lia.
  - ask_step balance_ok. done.
  - ask_step code_ok; first [solve [case_if; k_side]|unfold bytes_wf in *; rlia].
  - ask_step code_hash_ok; first [solve [case_if; k_side]|done].
  - ask_step code_ok; [cost|].
    match goal with H : bytes_wf _ /\ _ |- _ => destruct H as [? ?] end.
    pose proof (saturated_nonneg b ltac:(done)).
    eapply r_copy_to_memory; try done; k_side.
  - unfold u256_checked_sub. case_if; repeat istep; [|u_range..].
    ask_step block_hash_ok. done.
  - ask_step sload_ok; [|done]. pose proof (sload_cost_range SPEC b). lia.
Qed.

Lemma sstore_ok_instr : instr_ok (host.sstore SPEC).
Proof.
  intros i0 h Hm Ho. repeat istep.
  ask_step sstore_ok.
  - intros c Hc. apply sstore_cost_range in Hc. lia.
  - eapply finish_continue; [| |done]; [|by apply mid_refund]. k_side.
Qed.

(** Popping topics below a checked length. *)
Lemma r_pop_topics i0 k n i h Q :
  mid i0 k i -> Z.of_nat n <= zlen (i_stack i) ->
  (forall ts s, Forall is_u256 ts -> mid i0 k (set_stack i s) -> Q ts (set_stack i s) h) ->
  iwp (host.pop_topics n) i h Q (finished i0).
Proof.
  revert i Q. induction n as [|n IH]; intros i Q Hm Hn HQ.
  - cbn [host.pop_topics]. istep. replace i with (set_stack i (i_stack i)) in * by (by destruct i).
    apply HQ; [constructor|]. by destruct i.
  - cbn [host.pop_topics]. do 3 istep.
    pose proof (wf_stack _ (mid_wf _ _ _ Hm)) as Hs.
    destruct (stack_snoc_view (i_stack i)) as (s & t & E); [lia|]. rewrite E in *.
    rewrite pop_unsafe_app. eapply iwp_lift_val; [done|]. do 4 istep.
    assert (Hm' : mid i0 k (set_stack i s)).
    { apply mid_set_stack; [done|]. by eapply stack_wf_app. }
    autorewrite with zlen in Hn.
    eapply IH; [done|simpl; lia|]. intros ts s' Hts Hm2. apply iwp_ret, HQ; [|done].
    constructor; [|done]. destruct Hs as [_ Hs]. by decompose_Forall.
Qed.

Lemma log_ok_instr N : (N <= 4)%nat -> instr_ok (host.log N).
Proof.
  intros HN i0 h Hm Ho.
  assert (Hfin : forall k i d h, mid i0 k i -> ok (ct_address (i_contract i0)) h -> 0 < k ->
    static = false -> bytes_wf d -> Z.of_nat N <= zlen (i_stack i) ->
    iwp (host.pop_topics N) i h (fun topics i' h' =>
      iwp (ask (fun h => h ← host_log h (ct_address (i_contract i)) topics d; Val (tt, h)))
        i' h' (fun _ => finished i0) (finished i0)) (finished i0)).
  { clear Hm h Ho. intros k i d h Hm Ho Hk Hst Hd Hn.
    eapply r_pop_topics; [done|done|]. intros ts s Hts Hm'.
    destruct (contract_facts _ _ _ Hm) as (_ & -> & _).
    eapply (r_ask0 i0); [|intros; by repeat istep].
    rewrite wp_bind. eapply wp_mono; [|by eapply log_ok]. done. }
  repeat istep.
  - intros c Hc. apply log_cost_spec in Hc as [-> Hu]; [rlia|done|lia].
  - eapply Hfin; try done. k_side.
  - eapply iwp_get_slice; try done; simpl; try rlia. intros l Hl _ _. repeat istep.
    eapply Hfin; try done. k_side.
Qed.

Lemma selfdestruct_ok_instr : instr_ok (host.selfdestruct SPEC).
Proof.
  intros i0 h Hm Ho. repeat istep.
  eapply r_ask; [by eapply selfdestruct_ok|]. intros r h' Hans Ho'. cbn beta iota.
  istep. istep. istep.
  match goal with |- context [selfdestruct_cost SPEC ?res] =>
    pose proof (selfdestruct_cost_range SPEC res) as Hc end.
  istep; repeat istep.
  - eapply r_gas; [by apply mid_refund|done|lia|rlia|]. intros g Hg. istep.
    eapply finish_result; [| |done|done|done]; [lia|done].
  - eapply finish_result; [| |done|done|done]; [lia|done].
Qed.

(** The child's gas comes back, never more than the parent charged. *)
Lemma r_create_result i0 k i h reason address g d :
  mid i0 k i -> ok (ct_address (i_contract i0)) h -> 0 <= remaining g < k ->
  (forall v, address = Some v -> is_b160 v) -> bytes_wf d ->
  (reason = FatalExternalError -> fatal h) ->
  iwp (host.create_result reason address g d) i h (fun _ => finished i0) (finished i0).
Proof.
  intros Hm Ho Hg Ha Hd Hfat. unfold host.create_result. istep. istep.
  match goal with |- context [set_return_data_buffer i ?b] =>
    assert (Hm1 : mid i0 k (set_return_data_buffer i b)) end.
  { apply mid_set_return_data; [done|].
    destruct (return_revert reason); [done|]. split; [constructor|by vm_compute]. }
  repeat istep.
  - apply b160_u256. destruct address; simpl; [by apply Ha|rlia].
  - eapply finish_continue; [| |done]; [|apply mid_erase_refund; [done|lia]]. lia.
  - u_range.
  - eapply finish_continue; [| |done]; [|apply mid_erase; [done|lia]]. lia.
  - eapply (finish_result i0 k); auto; lia.
  - u_range.
Qed.

Lemma r_write_output i0 k i h out_offset n Q :
  mid i0 k i -> 0 <= n <= zlen (i_return_data_buffer i) ->
  (n = 0 \/ 0 <= out_offset /\ out_offset + n <= zlen (i_memory i)) ->
  (forall m, mid i0 k (set_memory i m) -> Q tt (set_memory i m) h) ->
  iwp (host.write_output out_offset n) i h Q (finished i0).
Proof.
  intros Hm Hn Hout HQ. unfold host.write_output. do 3 istep.
  pose proof (wf_memory _ (mid_wf _ _ _ Hm)) as Hmw.
  pose proof (wf_return_data _ (mid_wf _ _ _ Hm)) as [Hrd _].
  rewrite slice_val by lia. eapply iwp_lift_val; [done|]. istep.
  set (src := take _ _).
  assert (Hsrc : zlen src = n /\ Forall is_u8 src).
  { unfold src. split; [|by apply Forall_take, Forall_drop].
    unfold zlen in *. rewrite length_take, length_drop. lia. }
  assert (exists m, Memory.set (i_memory i) out_offset src = Val m /\ mem_wf m /\
    zlen m = zlen (i_memory i)) as (m & Hs & Hw & Hl).
  { destruct Hout as [Hz|[Ho Hb]].
    - exists (i_memory i). unfold Memory.set. rewrite (proj1 Hsrc), Hz. done.
    - destruct (set_spec (i_memory i) src out_offset) as (m & ? & ? & ?); try done;
        [apply Hsrc|lia|by exists m]. }
  eapply iwp_lift_val; [exact Hs|]. istep. apply HQ. by apply mid_set_memory.
Qed.

Lemma r_call_result i0 k i h reason g d out_offset out_len :
  mid i0 k i -> ok (ct_address (i_contract i0)) h -> 0 <= remaining g < k -> bytes_wf d ->
  (reason = FatalExternalError -> fatal h) -> 0 <= out_len -> (out_len = 0 \/ 0 <= out_offset /\ out_offset + out_len <= zlen (i_memory i)) ->
  iwp (host.call_result reason g d out_offset out_len) i h (fun _ => finished i0) (finished i0).
Proof.
  intros Hm Ho Hg Hd Hfat Hol Hout. unfold host.call_result. istep. istep.
  pose proof (mid_set_return_data _ _ _ d Hm Hd) as Hm1. pose proof (zlen_nonneg d).
  istep; [|istep].
  - do 3 istep. pose proof (mid_erase_refund _ _ _ (remaining g) (refunded g) Hm1) as Hm2.
    eapply (r_write_output i0 (k - remaining g)); [apply Hm2; lia|simpl; lia|simpl; lia|].
    intros m Hm3. repeat istep. u_range.
  - do 3 istep. pose proof (mid_erase _ _ _ (remaining g) Hm1) as Hm2.
    eapply (r_write_output i0 (k - remaining g)); [apply Hm2; lia|simpl; lia|simpl; lia|].
    intros m Hm3. repeat istep. u_range.
  - repeat istep; [|u_range]. eapply (finish_result i0 k); auto; lia.
Qed.

Lemma all_but_64th g : 0 <= g -> 0 <= g - g / 64 <= g.
Proof. intros. zlia. Qed.

Lemma remaining_u64 i : interp_wf i -> is_u64 (remaining (i_gas i)).
Proof. intros _. apply wrap64_range. Qed.

(** Read the init code: nothing charged is given back. *)
Lemma r_create_code i0 k i h offset len Q :
  mid i0 k i -> ok (ct_address (i_contract i0)) h -> 0 <= k -> is_u256 offset -> is_u64 len ->
  (forall k' i' c, k <= k' -> mid i0 k' i' -> i_contract i' = i_contract i -> bytes_wf c -> zlen c <= mem_max ->
    Q c i' h) ->
  iwp (host.create_code SPEC offset len) i h Q (finished i0).
Proof.
  intros Hm Ho Hk Hoff Hlen HQ. unfold host.create_code.
  destruct (initcode_cost_spec len Hlen) as [Hic Hicu].
  pose proof (words_range len Hlen).
  istep; [istep; by eapply (HQ k); try done; vm_compute|].
  do 3 istep. istep.
  - repeat istep.
    eapply iwp_get_slice; try done; simpl; try rlia. intros l Hl Hln Hlm.
    by eapply (HQ (k + initcode_cost len)); [rlia| | | |lia].
  - repeat istep.
    eapply iwp_get_slice; try done; simpl; try rlia. intros l Hl Hln Hlm. eapply (HQ k); try done; lia.
Qed.

Lemma create_ok_instr b : instr_ok (host.create b SPEC).
Proof.
  intros i0 h Hm Ho. unfold host.create. istep. istep.
  assert (Hcheck : forall Q, Q tt i0 h ->
    iwp (if b then check (enabled SPEC PETERSBURG) else ret tt) i0 h Q (finished i0)).
  { intros Q HQ. destruct b; [|done]. by repeat istep. }
  istep. apply Hcheck. do 2 istep.
  assert (Hm1 : mid i0 0 (set_return_data_buffer i0 [])).
  { by apply mid_set_return_data. }
  do 4 istep. istep.
  eapply r_create_code; try done. intros k i c0 Hk Hm2 Hct Hc0 Hc1. cbn beta iota. istep.
  assert (Htail : forall scheme k i, mid i0 k i -> i_contract i = i_contract i0 -> 1 <= k ->
    match scheme with Create => True | Create2 salt => is_u256 salt end ->
    forall gl, 0 <= gl <= remaining (i_gas i) ->
    iwp (gas_ gl;;
         '(return_reason, address, g, return_data) ← ask (fun h => host_create h
           (mkCreateInputs (ct_address (i_contract i)) scheme a c0 gl));
         host.create_result return_reason address g return_data) i h
      (fun _ => finished i0) (finished i0)).
  { clear dependent k i. intros scheme k i Hm2 Hct Hk Hs gl Hgl.
    pose proof (remaining_u64 i (mid_wf _ _ _ Hm2)) as Hr.
    istep. eapply r_gas; try done; [lia|rlia|]. intros g Hg. istep.
    eapply (r_ask i0 _ (fun '(r, b, g', d) h' => (forall v, b = Some v -> is_b160 v) /\
      answer_gas_wf gl g' /\ bytes_wf d /\ (r = FatalExternalError -> fatal h'))).
    - rewrite Hct. eapply wp_mono; [|eapply create_ok; try done].
      + intros [[[[r' b'] g'] d'] h'] (? & ? & ? & ? & ?). done.
      + unfold create_inputs_wf. simpl. repeat split; try done; unfold bytes_wf in *; try apply Hc0; rlia.
    - intros [[[r' b'] g'] d'] h' (Hb & Hg' & Hd & Hfat) Ho'. cbn beta iota.
      eapply r_create_result; try done. unfold answer_gas_wf in Hg'. lia. }
  assert (Hgl : forall g, 0 <= g ->
    0 <= (if enabled SPEC TANGERINE then g - g / 64 else g) <= g).
  { intros g Hg. case_if; [by apply all_but_64th|lia]. }
  destruct b.
  - do 3 istep. istep; [cost|]. do 3 istep.
    eapply Htail; try done; [rlia|]. apply Hgl. apply wrap64_range.
  - do 3 istep. do 2 istep. eapply Htail; try done; [k_side|]. apply Hgl, wrap64_range.
Qed.

Lemma r_call_value i0 k i h scheme Q :
  mid i0 k i -> ok (ct_address (i_contract i0)) h -> 0 <= k ->
  (forall v i', is_u256 v -> mid i0 k i' ->
    (static = true -> v = 0 \/ scheme = CallCode) ->
    (v = 0 \/ host.is_call_or_callcode scheme = true) -> Q v i' h) ->
  iwp (host.call_value scheme) i h Q (finished i0).
Proof.
  intros Hm Ho Hk HQ. destruct scheme; cbn [host.call_value]; repeat istep.
  - match goal with H : mid i0 k (set_stack i s) |- _ => pose proof (mid_static _ _ _ H) as Hst end.
    simpl in E, Hst. apply HQ; try done; [|by right].
    intros Ht. left. rewrite Hst, Ht in E. bool_to_prop. destruct E; [done|]. bool_to_prop. done.
  - apply HQ; try done; by right.
  - apply HQ; try done; [rlia|by left..].
  - apply HQ; try done; [rlia|by left..].
Qed.

Lemma r_call_ranges i0 k i h in_offset in_len out_offset out_len Q :
  mid i0 k i -> ok (ct_address (i_contract i0)) h -> 0 <= k ->
  is_u256 in_offset -> is_u256 in_len -> is_u256 out_offset -> is_u256 out_len ->
  (forall input oo ol i', mid i0 k i' -> bytes_wf input -> 0 <= ol ->
    (ol = 0 \/ 0 <= oo /\ oo + ol <= zlen (i_memory i')) -> Q (input, oo, ol) i' h) ->
  iwp (host.call_ranges in_offset in_len out_offset out_len) i h Q (finished i0).
Proof.
  intros Hm Ho Hk H1 H2 H3 H4 HQ. unfold host.call_ranges. istep. istep. istep.
  assert (Hout : forall i' input, mid i0 k i' -> bytes_wf input ->
    iwp (out_len ← as_usize_or_fail out_len InvalidOperandOOG;
         out_offset ← (if negb (out_len =? 0) then
                  out_offset ← as_usize_or_fail out_offset InvalidOperandOOG;
                  memory_resize out_offset out_len;; ret out_offset
                else ret u64_max);
         ret (input, out_offset, out_len)) i' h Q (finished i0)).
  { intros i' input Hm' Hin. repeat istep.
    - apply HQ; try done; [rlia|]. right. simpl. rlia.
    - apply HQ; try done; [rlia|]. by left. }
  repeat istep.
  - eapply iwp_get_slice; try done; simpl; try rlia. intros l Hl _ _. by apply Hout.
  - apply HQ; try done; [rlia|]. right. simpl. rlia.
  - apply HQ; try done; [rlia|]. by left.
Qed.

(** The last stage of a call: charge, run the child, take its result. *)
Lemma r_call_host i0 k i h (ci : CallInputs) gl oo ol :
  mid i0 k i -> ok (ct_address (i_contract i0)) h -> 0 < k ->
  call_inputs_wf static (ct_address (i_contract i0)) ci ->
  is_u64 gl -> ci_gas_limit ci < gl + k -> 0 <= ol ->
  (ol = 0 \/ 0 <= oo /\ oo + ol <= zlen (i_memory i)) ->
  iwp (gas_ gl;;
       '(reason, g, return_data) ← ask (fun h => host_call h ci);
       host.call_result reason g return_data oo ol) i h
    (fun _ => finished i0) (finished i0).
Proof.
  intros Hm Ho Hk Hci Hgl Hlim Hol Hout.
  istep. eapply r_gas; try done; [lia|]. intros g Hg. istep.
  eapply (r_ask i0 _ (fun '(r, g', d) h' => answer_gas_wf (ci_gas_limit ci) g' /\ bytes_wf d /\
    (r = FatalExternalError -> fatal h'))).
  - eapply wp_mono; [|by eapply call_ok]. intros [[[r' g'] d'] h'] (? & ? & ? & ?). done.
  - intros [[r' g'] d'] h' (Hg' & Hd & Hfat) Ho'. cbn beta iota.
    eapply r_call_result; try done. unfold answer_gas_wf in Hg'. lia.
Qed.

Lemma call_inputs_ok i0 scheme to value input gl :
  contract_wf (i_contract i0) -> i_is_static i0 = static ->
  is_b160 to -> is_u256 value -> bytes_wf input -> is_u64 gl ->
  (static = true -> value = 0 \/ scheme = CallCode) ->
  call_inputs_wf static (ct_address (i_contract i0))
    (mkCallInputs to (host.call_transfer scheme (i_contract i0) to value) input gl
       (host.call_context scheme (i_contract i0) to value)
       (match scheme with StaticCall => true | _ => i_is_static i0 end)).
Proof.
  intros (_ & _ & Ha & Hca & Hv) Hst Hto Hval Hin Hgl Hs.
  unfold call_inputs_wf. destruct scheme; simpl; split_and!; try done; try rlia; auto;
    intros Ht; (split; [congruence|]); destruct (Hs Ht); by auto.
Qed.

(** The stipend is less than what a transfer of value costs. *)
Lemma call_cost_covers_stipend value n c s b :
  let stipend := host.is_call_or_callcode s && negb (value =? 0) in
  (if stipend then 2301 else 1) <= call_cost SPEC value n c (host.is_call_or_callcode s) b
    < 65536.
Proof.
  pose proof (call_cost_range SPEC value n c (host.is_call_or_callcode s) b) as [H1 H2].
  unfold xfer_cost, gas.CALLVALUE in H1. cbv zeta. case_if; lia.
Qed.

Lemma call_inner_ok scheme : instr_ok (host.call_inner SPEC scheme).
Proof.
  intros i0 h Hm Ho.
  assert (Hcheck : forall Q, Q tt i0 h ->
    iwp (match scheme with
         | DelegateCall => check (enabled SPEC HOMESTEAD)
         | StaticCall => check (enabled SPEC BYZANTIUM)
         | _ => ret tt
         end) i0 h Q (finished i0)).
  { intros Q HQ. destruct scheme; try done; by repeat istep. }
  unfold host.call_inner. istep. apply Hcheck. do 2 istep.
  assert (Hm1 : mid i0 0 (set_return_data_buffer i0 [])) by (by apply mid_set_return_data).
  do 2 istep. do 2 istep. istep.
  eapply r_call_value; try done. intros value i1 Hval Hmv Hvs Hvc. do 2 istep. istep.
  eapply r_call_ranges; try done. intros input oo ol i2 Hm2 Hin Hol Hout. cbn beta iota.
  do 2 istep. destruct (contract_facts _ _ _ Hm2) as (Hcw & Hct & Hst). rewrite Hct in *.
  istep. eapply r_ask; [by eapply load_account_ok|]. intros res h' Hans Ho'. cbn beta iota.
  do 4 istep.
  match goal with |- context [call_cost SPEC value ?n ?c _ ?b] =>
    pose proof (call_cost_covers_stipend value n c scheme b) as Hcc;
    set (cost := call_cost SPEC value n c (host.is_call_or_callcode scheme) b) in *
  end. cbv zeta in Hcc.
  assert (Hcu : is_u64 cost /\ 1 <= cost)
    by (destruct (host.is_call_or_callcode scheme && _); rlia).
  eapply r_gas; try done; [apply Hcu|]. intros g Hg. do 2 istep. i_simpl.
  pose proof (wrap64_range (limit g - all_used_gas g)) as Hr. fold (remaining g) in Hr.
  set (lgl := if a <? u64_modulus then a else u64_max) in *.
  assert (Hlgl : is_u64 lgl) by (subst lgl; case_if; rlia).
  set (gl := if enabled SPEC TANGERINE then _ else lgl).
  assert (Hgl : is_u64 gl).
  { subst gl. destruct (enabled SPEC TANGERINE); [|done].
    pose proof (all_but_64th (remaining g)). rlia. }
  replace (host.is_call_or_callcode scheme &&
    negb (tr_value (host.call_transfer scheme (i_contract i0) a0 value) =? 0))
    with (host.is_call_or_callcode scheme && negb (value =? 0)) by (by destruct scheme).
  unfold u64_saturating_add, gas.CALL_STIPEND.
  eapply (r_call_host i0 (0 + cost)); try done; [rlia| |].
  - pose proof (mid_static _ _ _ Hm) as Hst0.
    replace (i_is_static i2) with (i_is_static i0) by congruence.
    apply call_inputs_ok; try done. destruct (host.is_call_or_callcode scheme && _); rlia.
  - cbn [ci_gas_limit]. destruct (host.is_call_or_callcode scheme && _); lia.
Qed.

(** ** Every arm of the dispatcher *)

(** An arm is safe when it starts after its opcode was fetched from
    well-formed code. *)
Definition arm_ok (op : Z) (f : instr H unit) : Prop :=
  forall i0 h, interp_wf i0 -> i_result i0 = Continue -> i_is_static i0 = static ->
  ok (ct_address (i_contract i0)) h ->
  (op <> opcode.STOP -> 0 <= i_pc i0 /\ i_pc i0 + push_len op < zlen (code_of i0)) ->
  iwp f i0 h (fun _ => finished i0) (finished i0).

Lemma mid_initial i0 :
  interp_wf i0 -> i_result i0 = Continue -> i_is_static i0 = static -> pc_ok i0 ->
  mid i0 0 i0.
Proof. intros. constructor; try done; lia. Qed.

Lemma instr_arm op f : op <> opcode.STOP -> instr_ok f -> arm_ok op f.
Proof.
  intros Hop Hf i0 h Hw Hr Hs Ho Hpc. destruct (Hpc Hop) as [H1 H2].
  pose proof (push_len_range op). apply Hf; [|done]. apply mid_initial; try done. split; lia.
Qed.

Lemma halt_arm op r :
  r <> Continue -> r <> FatalExternalError -> arm_ok op (modify (fun i => set_result i r)).
Proof.
  intros Hr Hf i0 h Hw Hc Hs Ho Hpc. istep. split; [|by split].
  split; [by apply interp_wf_result|]. split; [done|]. split; [done|]. done.
Qed.

Lemma push_arm N : 1 <= N <= 32 -> arm_ok (opcode.PUSH1 + N - 1) (stack.push N).
Proof.
  intros HN i0 h Hw Hr Hs Ho Hpc. unfold opcode.PUSH1 in *.
  assert (Hl : push_len (96 + N - 1) = N).
  { unfold push_len, opcode.PUSH1, opcode.PUSH32. case_if; lia. }
  rewrite Hl in Hpc. destruct Hpc as [H1 H2]; [unfold opcode.STOP; lia|].
  apply push_ok; try done. apply mid_initial; try done. split; lia.
Qed.

Lemma eval_arms_ok : Forall (fun '(op, f) => arm_ok op f) (eval_arms SPEC).
Proof.
  pose proof arithmetic_ok as Ha. pose proof bitwise_ok as Hb. pose proof control_ok as Hc.
  pose proof memory_ok as Hm. pose proof system_ok as Hs. pose proof host_env_ok as He.
  pose proof host_reads_ok as Hr. rewrite !Forall_cons in *. destruct_and!.
  unfold eval_arms. repeat apply Forall_cons_2; try apply Forall_nil_2.
  all: try (apply instr_arm; [discriminate|]; first
    [ assumption | apply pop_ok | apply push0_ok | apply sstore_ok_instr
    | apply selfdestruct_ok_instr | apply create_ok_instr | apply call_inner_ok
    | apply log_ok_instr; lia | apply dup_ok; lia | apply swap_ok; lia ]).
  all: try (by apply halt_arm).
  all: match goal with |- arm_ok ?op (stack.push ?N) =>
    change (arm_ok (opcode.PUSH1 + N - 1) (stack.push N)); apply push_arm; lia end.
Qed.

Lemma eval_ok op : arm_ok op (eval SPEC op).
Proof.
  unfold eval. destruct (find _ _) as [[o f]|] eqn:E; [|by apply halt_arm].
  apply find_some in E as [Hin Heq]. apply Z.eqb_eq in Heq as ->.
  pose proof eval_arms_ok as Hall. rewrite List.Forall_forall in Hall. by apply (Hall (op, f)).
Qed.

(** ** Steps and runs *)

Definition step_post (i : Interpreter) (h' : H) (i' : Interpreter) : Prop :=
  stepped i i' /\ ok (ct_address (i_contract i)) h' /\
  (i_result i' = FatalExternalError -> fatal h').

Lemma step_spec i h :
  interp_wf i -> pc_ok i -> i_result i = Continue -> i_is_static i = static ->
  ok (ct_address (i_contract i)) h ->
  wp D (step SPEC i h) (fun '(i', h') => step_post i h' i').
Proof.
  intros Hw Hpc Hr Hs Ho. unfold step.
  destruct (lookup_lt_is_Some_2 (code_of i) (Z.to_nat (i_pc i))) as [op Hop];
    [unfold pc_ok in Hpc; rlia|].
  rewrite (get_unchecked_val _ _ op) by (done || apply Hpc). cbn [mbind rust_bind].
  rewrite wp_bind.
  assert (Hwf : interp_wf (set_pc i (i_pc i + 1))) by (by destruct Hw).
  pose proof (eval_ok op (set_pc i (i_pc i + 1)) h Hwf Hr Hs Ho) as He.
  eapply wp_mono; [|apply He].
  - intros [[o i'] h']. simpl. by destruct o.
  - intros Hne. destruct (wf_contract _ Hw) as (_ & (Hc & _) & _).
    pose proof (wf_code_next _ (Z.to_nat (i_pc i)) op Hc Hop Hne) as Hn.
    unfold pc_ok in Hpc. unfold code_of in *. simpl. lia.
Qed.

(** What a finished run leaves. *)
Definition run_post (i : Interpreter) (r : InstructionResult) (i' : Interpreter) (h' : H) :
  Prop :=
  r = i_result i' /\ r <> Continue /\ interp_wf i' /\ same_frame i i' /\
  remaining (i_gas i') <= remaining (i_gas i) /\ ok (ct_address (i_contract i)) h' /\
  (r = FatalExternalError -> fatal h').

Lemma run_spec fuel i h :
  interp_wf i -> (i_result i = Continue -> pc_ok i) -> i_is_static i = static ->
  ok (ct_address (i_contract i)) h -> (i_result i = FatalExternalError -> fatal h) ->
  remaining (i_gas i) < Z.of_nat fuel ->
  wp D (run SPEC fuel i h) (fun '(r, i', h') => run_post i r i' h').
Proof.
  revert i h. induction fuel as [|fuel IH]; intros i h Hw Hpc Hs Ho Hfat Hf.
  { pose proof (wrap64_range (limit (i_gas i) - all_used_gas (i_gas i))).
    unfold remaining in Hf. rlia. }
  cbn [run]. destruct (decide (i_result i = Continue)) as [Hc|Hc].
  - rewrite wp_bind. eapply wp_mono; [|apply step_spec; auto].
    intros [i' h'] ((Hw' & Hfr & Hle & Hcont) & Ho' & Hfat'). destruct Hfr as (Hct & Hst & Hml & Hlim).
    destruct (decide (i_result i' = Continue)) as [Hc'|Hc'].
    + destruct (Hcont Hc') as [Hpc' Hlt].
      eapply wp_mono; [|apply IH; try done; [congruence|by rewrite Hct|lia]].
      intros [[r i2] h2] (Hr & Hnc & Hw2 & (Hf1 & Hf2 & Hf3 & Hf4) & Hle2 & Ho2 & Hft2).
      rewrite Hct in Ho2. unfold run_post, same_frame. split_and!; try done; try congruence. lia.
    + destruct fuel; cbn [run]; rewrite decide_False by done;
        unfold run_post, same_frame; by split_and!.
  - unfold run_post, same_frame. by split_and!.
Qed.

End logic.
