(* ===== verification/Execution.v ===== *)
(** * Running contracts

    What the safety proof says about whole executions: a machine freshly
    built from arbitrary bytes runs to completion, whatever its code, and a
    static frame leaves the chain alone. *)

From stdpp Require Import base option list gmap.
From Stdlib Require Import ZArith Lia.
From S2P Require Import Prelude Primitives Gas EvmStack EvmMemory I256 Opcode Analysis Interpreter Instructions Safety.

(** ** Fresh machines *)

(** Analysis adds at most the padding and keeps the hash. *)
Lemma to_analysed_size (b a : Bytecode) :
  to_analysed b = Val a ->
  zlen (bc_bytecode a) <= zlen (bc_bytecode b) + 33 /\ bc_hash a = bc_hash b.
Proof.
  unfold to_analysed.
  assert (Hgo : forall code l, zlen code <= zlen (bc_bytecode b) + 33 ->
    (jm ← analyze code; Val (mkBytecode code (bc_hash b) (Analysed l jm))) = Val a ->
    zlen (bc_bytecode a) <= zlen (bc_bytecode b) + 33 /\ bc_hash a = bc_hash b).
  { intros code l Hle. destruct (analyze code); simpl; intros; simplify_eq; done. }
  unfold Bytecode_to_checked. destruct (bc_state b); simpl.
  - intros. eapply Hgo; [|done]. unfold zlen in *. rewrite length_resize. lia.
  - intros. eapply Hgo; [|done]. lia.
  - intros. simplify_eq. split; [lia|done].
Qed.

Lemma locked_of_bytecode (b : Bytecode) :
  wf_bytecode b -> zlen (bc_bytecode b) + 33 <= isize_max ->
  exists a l, to_analysed b = Val a /\ BytecodeLocked_try_from a = Some l /\ locked_wf l.
Proof.
  intros Hwf Hlen. destruct (to_analysed_wf b Hwf) as (a & len & m & Ha & [Hu8 Hst] & Hs & _).
  rewrite Hs in Hst. destruct Hst as (Hl & Hc & Hm & Hj).
  exists a. unfold BytecodeLocked_try_from. rewrite Hs. eexists. split; [done|]. split; [done|].
  split; [done|]. simpl. split; [|split; [done|]].
  - apply to_analysed_size in Ha as [Ha _]. lia.
  - intros d Hd Hv. unfold JumpMap_is_valid in Hv. bool_to_prop. rlia.
Qed.

Lemma Contract_new_wf (input : list Z) (b : Bytecode) (address caller value : Z) :
  bytes_wf input -> wf_bytecode b -> zlen (bc_bytecode b) + 33 <= isize_max ->
  is_b160 address -> is_b160 caller -> is_u256 value ->
  exists c, Contract_new input b address caller value = Val c /\ contract_wf c /\
    ct_input c = input /\ ct_address c = address /\ ct_caller c = caller /\ ct_value c = value.
Proof.
  intros Hi Hb Hl Ha Hc Hv. destruct (locked_of_bytecode b Hb Hl) as (a & l & Han & Hlo & Hw).
  unfold Contract_new. rewrite Han. simpl. rewrite Hlo. simpl. eexists. split; [done|].
  unfold contract_wf. by split_and!.
Qed.

Lemma fresh_wf (c : Contract) (gas_limit : Z) (is_static : bool) (memory_limit : Z) :
  contract_wf c -> is_u64 gas_limit -> 0 <= memory_limit <= mem_max ->
  let i := new_with_memory_limit c gas_limit is_static memory_limit in
  interp_wf i /\ pc_ok i /\ i_result i = Continue /\ i_is_static i = is_static /\
  remaining (i_gas i) = gas_limit.
Proof.
  intros Hc Hg Hm i. pose proof Hc as (_ & ([_ (n & Hn & _)] & _) & _).
  split_and!; try done.
  - constructor; simpl; try done.
    + by apply Gas_new_wf.
    + by right.
  - unfold pc_ok, code_of. simpl. unfold zlen. lia.
  - rewrite remaining_wf by (by apply Gas_new_wf). simpl. lia.
Qed.

Lemma return_value_wf (i : Interpreter) :
  interp_wf i -> exists out, return_value i = Val out /\ bytes_wf out /\ zlen out <= mem_max.
Proof.
  intros Hw. pose proof (wf_memory_limit _ Hw) as Hlim. unfold return_value. pose proof (wf_return_range _ Hw) as Hr.
  destruct (i_return_range i) as [a b]. unfold range_wf in Hr. simpl in Hr.
  case_if; [exists []; split; [done|split; [by split; [constructor|by vm_compute]|by vm_compute]]|].
  destruct Hr as [|[Hab Hb]]; [done|]. pose proof (wf_memory _ Hw) as Hm.
  assert (zlen (i_memory i) <= isize_max) by apply Hm.
  rewrite wrap64_id by rlia.
  destruct (get_slice_spec (i_memory i) a (b - a)) as (l & -> & Hl & Hu); [done|lia..|].
  exists l. split; [done|]. split; [|lia]. split; [done|lia].
Qed.

(** ** A host for examples

    [DummyHost] panics on the three operations that start or end other
    contracts; this one refuses them instead, and so meets the contract the
    interpreter relies on. *)

#[export] Instance refusing_host : Host DummyHost := {|
  host_step := host_step (Host := DummyHost_Host);
  host_step_end := host_step_end (Host := DummyHost_Host);
  host_env := host_env (Host := DummyHost_Host);
  host_load_account := host_load_account (Host := DummyHost_Host);
  host_block_hash := host_block_hash (Host := DummyHost_Host);
  host_balance := host_balance (Host := DummyHost_Host);
  host_code := host_code (Host := DummyHost_Host);
  host_code_hash := host_code_hash (Host := DummyHost_Host);
  host_sload := host_sload (Host := DummyHost_Host);
  host_sstore := host_sstore (Host := DummyHost_Host);
  host_log := host_log (Host := DummyHost_Host);
  host_selfdestruct h _ _ := Val (None, h);
  host_create h _ := Val (FatalExternalError, None, Gas_new 0, [], h);
  host_call h _ := Val (FatalExternalError, Gas_new 0, [], h);
|}.

(** The environment is [e] and storage holds words; in a static frame there
    is no log and nothing but zeros was ever put into storage. *)
Definition dummy_ok (static : bool) (e : Env) (_ : Z) (h : DummyHost) : Prop :=
  dh_env h = e /\ (forall k v, dh_storage h !! k = Some v -> is_u256 v) /\
  (static = true -> dh_log h = [] /\ forall k v, dh_storage h !! k = Some v -> v = 0).

Lemma default_env_wf (SPEC : SpecId) : env_wf SPEC (mkEnv CfgEnv_default BlockEnv_default TxEnv_default).
Proof.
  constructor; simpl; try rlia; try done. intros _. exists 0. split; [done|rlia].
Qed.

Lemma dummy_spec (SPEC : SpecId) (static : bool) (e : Env) (He : env_wf SPEC e) :
  HostSpec False SPEC static (dummy_ok static e) (fun _ => True).
Proof.
  constructor.
  - intros a h [Hh _]. simpl. by rewrite Hh.
  - done.
  - intros a h n Ho _. simpl. split; [rlia|done].
  - intros a h b Ho _. simpl. split; [rlia|done].
  - intros a h b Ho _. simpl. split; [|done].
    split; [split; [repeat constructor; rlia|by vm_compute]|by vm_compute].
  - intros a h b Ho _. simpl. split; [by vm_compute|done].
  - intros a h k (He' & Hs & Hst) Hk. simpl. unfold DummyHost_sload.
    destruct (dh_storage h !! k) as [v|] eqn:E; simpl.
    + split; [by eapply Hs|done].
    + split; [rlia|]. split; [done|]. simpl. split.
      * intros k' v' [[<- <-]|[_ Hv]]%lookup_insert_Some; [rlia|by eapply Hs].
      * intros Ht. destruct (Hst Ht) as [Hl Hz]. split; [done|].
        intros k' v' [[<- <-]|[_ Hv]]%lookup_insert_Some; [done|by eapply Hz].
  - intros a h k v -> (He' & Hs & _) Hk Hv. simpl. unfold DummyHost_sstore.
    assert (Hx : dummy_ok false e a (mkDummyHost (dh_env h) (<[k := v]> (dh_storage h)) (dh_log h))).
    { split; [done|]. simpl. split; [|done]. intros k' v' Hv'.
      apply lookup_insert_Some in Hv' as [[<- <-]|[_ Hv']]; [done|by eapply Hs]. }
    by destruct (dh_storage h !! k).
  - intros a h ts d -> (He' & Hs & _) _ _. by split.
  - done.
  - intros a h c _ Ho Hc. simpl. split; [done|]. split; [|done]. destruct Hc as (_ & _ & _ & _ & Hg & _).
    unfold answer_gas_wf. change (remaining (Gas_new 0)) with 0. rlia.
  - intros a h c Ho Hc. simpl. destruct Hc as (_ & _ & Hg & _). split; [|done].
    unfold answer_gas_wf. change (remaining (Gas_new 0)) with 0. rlia.
Qed.

(** A digest with the documented range, for examples that do not hash. *)
#[export] Instance constant_crypto : Crypto := {|
  Keccak256_digest _ := KECCAK_EMPTY;
  rlp_create_stream caller nonce := caller ++ to_be_bytes 8 nonce;
|}.
#[export] Instance constant_crypto_spec : CryptoSpec.
Proof. constructor; [intros; by vm_compute|done]. Qed.

(** ** Main results *)

Section results.
Context {H : Type} {HH : Host H} {HC : Crypto} {HCS : CryptoSpec}.

(** C1: one instruction, on any hard fork and with any host that keeps its
    contract, neither panics nor leaves the bounds of an unchecked access;
    it preserves the machine's invariant (at most 1024 stack words, memory a
    whole number of words charged at its quadratic price, counter in
    balance), changes none of contract, static flag and limits, and if the
    machine continues then the program counter is inside the code buffer and
    gas was spent; it stops with [FatalExternalError] only if the host
    reported a failure. *)
Theorem step_preserves_machine (D : Prop) (SPEC : SpecId) (static : bool)
  (ok : Z -> H -> Prop) (fatal : H -> Prop) (HS : HostSpec D SPEC static ok fatal) (i : Interpreter) (h : H) :
  interp_wf i -> pc_ok i -> i_result i = Continue -> i_is_static i = static ->
  ok (ct_address (i_contract i)) h ->
  wp D (step SPEC i h) (fun '(i', h') =>
    interp_wf i' /\ same_frame i i' /\ ok (ct_address (i_contract i)) h' /\
    remaining (i_gas i') <= remaining (i_gas i) /\
    (i_result i' = Continue -> pc_ok i' /\ remaining (i_gas i') < remaining (i_gas i)) /\
    (i_result i' = FatalExternalError -> fatal h')).
Proof.
  intros Hw Hpc Hr Hs Ho.
  eapply wp_mono; [|by apply (step_spec D SPEC static ok fatal)].
  intros [i' h'] ((? & ? & ? & ?) & ? & ?). by split_and!.
Qed.

(** C2: a contract made of arbitrary bytes runs to completion.  Analysis
    of the raw code succeeds, the loop stops within one iteration per unit
    of gas with a final result, unspent gas is at most the limit, and the
    return value can be read. *)
Theorem raw_contract_runs_to_completion (SPEC : SpecId) (is_static : bool)
  (ok : Z -> H -> Prop) (fatal : H -> Prop) (HS : HostSpec False SPEC is_static ok fatal)
  (code input : list Z) (hash address caller value gas_limit memory_limit : Z) (h : H) :
  Forall is_u8 code -> zlen code + 33 <= isize_max -> bytes_wf input ->
  is_b160 address -> is_b160 caller -> is_u256 value ->
  is_u64 gas_limit -> 0 <= memory_limit <= mem_max -> ok address h ->
  exists c r i' h' out,
    Contract_new input (mkBytecode code hash Raw) address caller value = Val c /\
    run SPEC (Z.to_nat gas_limit + 1)
      (new_with_memory_limit c gas_limit is_static memory_limit) h = Val (r, i', h') /\
    r <> Continue /\ remaining (i_gas i') <= gas_limit /\ return_value i' = Val out /\
    ok address h'.
Proof.
  intros Hcode Hlen Hin Ha Hc Hv Hg Hm Ho.
  destruct (Contract_new_wf input (mkBytecode code hash Raw) address caller value)
    as (c & Hnew & Hcw & _ & Haddr & _); try done.
  destruct (fresh_wf c gas_limit is_static memory_limit Hcw Hg Hm)
    as (Hw & Hpc & Hr & Hs & Hrem).
  pose proof (run_spec False SPEC is_static ok fatal (Z.to_nat gas_limit + 1)
    (new_with_memory_limit c gas_limit is_static memory_limit) h Hw (fun _ => Hpc) Hs) as Hrun.
  simpl in Hrun. rewrite Haddr in Hrun. specialize (Hrun Ho ltac:(done)). simpl in Hrem.
  rewrite Hrem in Hrun. specialize (Hrun ltac:(rlia)).
  destruct (run SPEC _ _ h) as [[[r i'] h']| | |] eqn:Erun; try done.
  destruct Hrun as (Hri & Hnc & Hw' & _ & Hle & Ho' & _). simpl in Hle, Ho'.
  destruct (return_value_wf i' Hw') as (out & Hout & _).
  exists c, r, i', h', out. rewrite Haddr in Ho'. rewrite Hrem in Hle. by split_and!.
Qed.

(** C24: a static frame cannot change the chain.  Any property of the host
    that reading methods and static calls without value keep, and about
    which nothing is assumed of [sstore], [log], [selfdestruct] and
    [create], holds after a run of a static machine if it held before. *)
Theorem static_run_preserves (D : Prop) (SPEC : SpecId) (P : H -> Prop)
  (fatal : H -> Prop) (HS : HostSpec D SPEC true (fun _ => P) fatal) (fuel : nat) (i : Interpreter) (h : H) :
  interp_wf i -> pc_ok i -> i_result i = Continue -> i_is_static i = true -> P h ->
  remaining (i_gas i) < Z.of_nat fuel ->
  wp D (run SPEC fuel i h) (fun '(_, _, h') => P h').
Proof.
  intros Hw Hpc Hr Hs HP Hf.
  eapply wp_mono; [|apply (run_spec D SPEC true (fun _ => P) fatal); try done; congruence].
  by intros [[r i'] h'] (_ & _ & _ & _ & _ & ? & _).
Qed.

(** In a static frame each state-changing instruction stops with
    [StateChangeDuringStaticCall] before it touches the host, the stack,
    memory or gas. *)
Theorem static_writes_refused (SPEC : SpecId) (op : Z) (i : Interpreter) (h : H) :
  op ∈ [opcode.SSTORE; opcode.LOG0; opcode.LOG1; opcode.LOG2; opcode.LOG3; opcode.LOG4;
        opcode.CREATE; opcode.CREATE2; opcode.SELFDESTRUCT] ->
  i_is_static i = true ->
  eval SPEC op i h = Val (None, set_result i StateChangeDuringStaticCall, h).
Proof.
  intros Hop Hs. rewrite !elem_of_cons, elem_of_nil in Hop.
  destruct_or! Hop; subst op; try done;
    unfold eval; cbn -[instr_bind]; unfold host.sstore, host.log, host.create,
      host.selfdestruct, check_staticcall, mbind, instr_bind; by rewrite Hs.
Qed.

(** The dispatcher and the table of mnemonics agree: exactly the bytes
    without a name end in [OpcodeNotFound]. *)
Theorem eval_covers_named_opcodes (SPEC : SpecId) (op : Z) :
  is_u8 op ->
  (find (fun '(o, _) => o =? op) (eval_arms (H := H) SPEC) = None <->
   OPCODE_JUMPMAP !! Z.to_nat op = Some None).
Proof.
  intros Hop.
  assert (Hall : forallb (fun b =>
    Bool.eqb (bool_decide (OPCODE_JUMPMAP !! Z.to_nat b = Some None))
      (forallb (fun o => negb (o =? b)) (map fst (eval_arms (H := H) SPEC)))) (seqZ 0 256) = true)
    by (by vm_compute).
  rewrite forallb_forall in Hall. specialize (Hall op).
  rewrite <- list_elem_of_In, elem_of_seqZ, eqb_true_iff in Hall.
  rewrite <- (bool_decide_eq_true (OPCODE_JUMPMAP !! Z.to_nat op = Some None)), Hall by rlia.
  generalize (eval_arms (H := H) SPEC) as l. clear.
  induction l as [|[o f] l IH]; [done|]. simpl. destruct (o =? op); simpl; [|done].
  split; done.
Qed.
End results.

(** ** Examples *)

Definition example_env : Env := mkEnv CfgEnv_default BlockEnv_default TxEnv_default.
Definition example_host : DummyHost := DummyHost_new example_env.

Lemma example_host_ok static a : dummy_ok static example_env a example_host.
Proof. split; [done|]. split; [|split; [done|]]; intros k v Hv; by destruct (lookup_empty_Some k v).
Qed.

Definition example_machine (code : list Z) (is_static : bool) : Interpreter :=
  match Contract_new [] (mkBytecode code 0 Raw) 1 2 0 with
  | Val c => new_with_memory_limit c 100 is_static 1024
  | _ => new_with_memory_limit (mkContract [] (mkBytecodeLocked [] 0 0 []) 0 0 0) 0 is_static 0
  end.

Lemma example_machine_wf (code : list Z) (is_static : bool) :
  Forall is_u8 code -> zlen code + 33 <= isize_max ->
  let i := example_machine code is_static in
  interp_wf i /\ pc_ok i /\ i_result i = Continue /\ i_is_static i = is_static.
Proof.
  intros Hc Hl. unfold example_machine.
  destruct (Contract_new_wf [] (mkBytecode code 0 Raw) 1 2 0) as (c & -> & Hw & _);
    try done; try rlia.
  destruct (fresh_wf c 100 is_static 1024 Hw) as (? & ? & ? & ? & _); [rlia|by vm_compute|].
  done.
Qed.

(** [2 + 3]: PUSH1 2, PUSH1 3, ADD. *)
Definition example_add : list Z := [0x60; 2; 0x60; 3; 0x01].

Lemma example_add_ok : Forall is_u8 example_add /\ zlen example_add + 33 <= isize_max.
Proof. split; [repeat constructor; by vm_compute|by vm_compute]. Qed.

Lemma step_preserves_machine_witness :
  exists i' h',
    step (HH := refusing_host) LATEST (example_machine example_add false) example_host =
      Val (i', h') /\ interp_wf i' /\ i_stack i' = [2] /\ i_pc i' = 2.
Proof.
  destruct (example_machine_wf example_add false (proj1 example_add_ok) (proj2 example_add_ok))
    as (Hw & Hp & Hc & Hs).
  pose proof (step_preserves_machine (HH := refusing_host) False LATEST false
    (dummy_ok false example_env) (fun _ => True) (dummy_spec LATEST false example_env (default_env_wf LATEST))
    (example_machine example_add false) example_host Hw Hp Hc Hs (example_host_ok _ _)) as Hstep.
  destruct (step _ _ _) as [[i' h']| | |] eqn:E; [|by destruct Hstep..].
  exists i', h'. split; [done|]. split; [apply Hstep|]. vm_compute in E. by simplify_eq.
Defined.

Lemma raw_contract_runs_to_completion_witness :
  exists c r i' h' out,
    Contract_new [] (mkBytecode example_add 0 Raw) 1 2 0 = Val c /\
    run (HH := refusing_host) LATEST (Z.to_nat 100 + 1) (new_with_memory_limit c 100 false 1024)
      example_host = Val (r, i', h') /\
    r = Stop /\ i_stack i' = [5] /\ remaining (i_gas i') = 91 /\ return_value i' = Val out.
Proof.
  destruct (raw_contract_runs_to_completion (HH := refusing_host) LATEST false
    (dummy_ok false example_env) (fun _ => True) (dummy_spec LATEST false example_env (default_env_wf LATEST))
    example_add [] 0 1 2 0 100 1024 example_host)
    as (c & r & i' & h' & out & Hc & Hr & _ & _ & Hout & _);
    [apply example_add_ok|apply example_add_ok|by split|rlia|rlia|rlia|rlia|rlia
    |apply example_host_ok|].
  exists c, r, i', h', out. split; [exact Hc|]. split; [exact Hr|].
  vm_compute in Hc. simplify_eq. vm_compute in Hr. simplify_eq. by repeat split.
Defined.

(** A static frame that reads a slot leaves the log alone. *)
Lemma static_run_preserves_witness :
  exists r i' h',
    run (HH := refusing_host) FRONTIER 101 (example_machine [0x60; 7; 0x54] true) example_host =
      Val (r, i', h') /\ dh_log h' = [] /\ dh_storage h' !! 7 = Some 0.
Proof.
  destruct (example_machine_wf [0x60; 7; 0x54] true) as (Hw & Hp & Hc & Hs);
    [repeat constructor; by vm_compute|by vm_compute|].
  pose proof (static_run_preserves (HH := refusing_host) False FRONTIER
    (dummy_ok true example_env 0) (fun _ => True)
    (dummy_spec FRONTIER true example_env (default_env_wf FRONTIER)) 101
    (example_machine [0x60; 7; 0x54] true) example_host Hw Hp Hc Hs (example_host_ok true 0)
    ltac:(by vm_compute)) as Hrun.
  destruct (run _ _ _ _) as [[[r i'] h']| | |] eqn:E; [|by destruct Hrun..].
  destruct Hrun as (_ & _ & Hst). exists r, i', h'. split; [done|]. split; [by apply Hst|].
  vm_compute in E. simplify_eq. by vm_compute.
Defined.

Lemma static_writes_refused_witness :
  let i := example_machine [0x55] true in
  eval (HH := refusing_host) LATEST 0x55 i example_host =
  Val (None, set_result i StateChangeDuringStaticCall, example_host).
Proof.
  apply (static_writes_refused (HH := refusing_host) LATEST 0x55);
    [by apply list_elem_of_here|by vm_compute].
Defined.

Lemma eval_covers_named_opcodes_witness :
  find (fun '(o, _) => o =? 0x0c) (eval_arms (HH := refusing_host) LATEST) = None.
Proof.
  apply (eval_covers_named_opcodes (HH := refusing_host) LATEST 0x0c); [rlia|by vm_compute].
Defined.
