(* ===== verification/Semantics.v ===== *)
(** * What the instructions compute

    Functional specifications at the level of the dispatcher: the word
    operations against mathematical definitions on integers, and jumps
    against the decoding of the code. *)

From stdpp Require Import base option list gmap.
From Stdlib Require Import ZArith Lia.
From S2P Require Import Prelude Primitives Gas EvmStack EvmMemory I256 Opcode Analysis Interpreter Instructions Safety Execution.

(** ** Word operations

    Opcode, price and meaning: [a] is the top of the stack, [b] below it. *)
Definition word_ops : list (Z * Z * (Z -> Z -> Z)) := [
  (opcode.ADD, 3, fun a b => (a + b) mod 2 ^ 256);
  (opcode.MUL, 5, fun a b => (a * b) mod 2 ^ 256);
  (opcode.SUB, 3, fun a b => (a - b) mod 2 ^ 256);
  (opcode.DIV, 5, fun a b => if b =? 0 then 0 else a / b);
  (opcode.SDIV, 5, fun a b =>
    if b =? 0 then 0 else Z.quot (to_signed a) (to_signed b) mod 2 ^ 256);
  (opcode.MOD, 5, fun a b => if b =? 0 then 0 else a mod b);
  (opcode.SMOD, 5, fun a b =>
    if b =? 0 then 0 else Z.rem (to_signed a) (to_signed b) mod 2 ^ 256);
  (opcode.SIGNEXTEND, 5, fun a b =>
    if a <? 32 then sign_low (8 * (a + 1)) b mod 2 ^ 256 else b);
  (opcode.LT, 3, fun a b => Z.b2z (a <? b));
  (opcode.GT, 3, fun a b => Z.b2z (b <? a));
  (opcode.SLT, 3, fun a b => Z.b2z (to_signed a <? to_signed b));
  (opcode.SGT, 3, fun a b => Z.b2z (to_signed b <? to_signed a));
  (opcode.EQ, 3, fun a b => Z.b2z (a =? b));
  (opcode.AND, 3, Z.land);
  (opcode.OR, 3, Z.lor);
  (opcode.XOR, 3, Z.lxor);
  (opcode.BYTE, 3, fun a b => if a <? 32 then (b / 256 ^ (31 - a)) mod 256 else 0);
  (opcode.SHL, 3, fun a b => (b * 2 ^ a) mod 2 ^ 256);
  (opcode.SHR, 3, fun a b => b / 2 ^ a);
  (opcode.SAR, 3, fun a b => Z.shiftr (to_signed b) a mod 2 ^ 256)
].

(** What the dispatcher should do with such an operation. *)
Definition word_op_result {H : Type} (cost : Z) (sem : Z -> Z -> Z) (s : list Z) (b a : Z)
  (i : Interpreter) (h : H) : rust (option unit * Interpreter * H) :=
  if remaining (i_gas i) <? cost then Val (None, set_result i OutOfGas, h)
  else Val (Some tt, set_stack (set_gas i (record_cost (i_gas i) cost).1) (s ++ [sem a b]), h).

Section word_ops.
Context {H : Type} {HH : Host H} {HC : Crypto}.

Lemma gas_eval (cost : Z) (i : Interpreter) (h : H) :
  Gas_wf (i_gas i) -> is_u64 cost ->
  gas_ cost i h =
  if remaining (i_gas i) <? cost then Val (None, set_result i OutOfGas, h)
  else Val (Some tt, set_gas i (record_cost (i_gas i) cost).1, h).
Proof.
  intros Hg Hc. unfold gas_. destruct (record_cost (i_gas i) cost) as [g ok] eqn:E.
  destruct ok.
  - pose proof (record_cost_true _ _ _ Hg Hc E) as (Hg' & Hr & _).
    rewrite (remaining_wf g) in Hr by done. destruct Hg' as (? & ? & ? & ? & ?).
    case_if; [lia|done].
  - pose proof (record_cost_false _ _ _ Hg Hc E) as [-> Hlt].
    case_if; [by destruct i|lia].
Qed.

Lemma binary_op_eval (cost : Z) (f : Z -> Z -> rust Z) (v : Z) (i : Interpreter) (h : H) s b a :
  Gas_wf (i_gas i) -> is_u64 cost -> i_stack i = s ++ [b; a] -> f a b = Val v ->
  binary_op cost f i h = word_op_result cost (fun _ _ => v) s b a i h.
Proof.
  intros Hg Hc Hs Hf. unfold binary_op, mbind, instr_bind, word_op_result.
  rewrite gas_eval by done. case_if; [done|].
  unfold pop_top2, pop_with. simpl. rewrite Hs. unfold Stack.len. autorewrite with zlen.
  pose proof (zlen_nonneg s). case_if; [lia|].
  rewrite pop_top_unsafe_app. simpl. unfold lift. rewrite Hf. simpl.
  unfold set_top. simpl. by rewrite set_top_app.
Qed.

Lemma smod_eval (i : Interpreter) (h : H) s b a :
  Gas_wf (i_gas i) -> i_stack i = s ++ [b; a] -> is_u256 a -> is_u256 b ->
  arithmetic.smod i h = word_op_result 5 (fun a b =>
    if b =? 0 then 0 else wrap256 (Z.rem (to_signed a) (to_signed b))) s b a i h.
Proof.
  intros Hg Hs Ha Hb. unfold arithmetic.smod, mbind, instr_bind, word_op_result.
  rewrite gas_eval by (done || by vm_compute). change gas.LOW with 5. case_if; [done|].
  unfold pop_top2, pop_with. simpl. rewrite Hs. unfold Stack.len. autorewrite with zlen.
  pose proof (zlen_nonneg s). case_if; [lia|].
  rewrite pop_top_unsafe_app. simpl. destruct (Z.eqb_spec b 0) as [->|Hne]; simpl; [done|].
  unfold lift. rewrite i256_mod_spec by done. simpl. unfold set_top. simpl.
  by rewrite set_top_app.
Qed.

(** Shift amounts saturate at [u64::MAX], far beyond the word. *)
Lemma shift_saturates (b a : Z) : is_u256 a ->
  u256_shl b (as_u64_saturated a) = u256_shl b a /\
  u256_shr b (as_u64_saturated a) = u256_shr b a.
Proof.
  intros Ha. rewrite as_u64_saturated_spec by done. unfold u256_shl, u256_shr.
  destruct (Z.le_gt_cases a u64_max); [by rewrite Z.min_l|].
  rewrite Z.min_r by lia. by rewrite (proj2 (Z.leb_le 256 a)) by lia.
Qed.

Lemma bool_word_b2z (b : bool) : bool_word b = Z.b2z b.
Proof. by destruct b. Qed.

(** Exponentiation has a price for each byte of the exponent, and has taken
    its first operand when the gas does not do. *)
Definition exp_result (SPEC : SpecId) (s : list Z) (b a : Z) (i : Interpreter) (h : H) :
  rust (option unit * Interpreter * H) :=
  let cost := 10 + (if enabled SPEC SPURIOUS_DRAGON then 50 else 10) * byte_length b in
  if remaining (i_gas i) <? cost then Val (None, set_result (set_stack i (s ++ [b])) OutOfGas, h)
  else Val (Some tt, set_stack (set_gas i (record_cost (i_gas i) cost).1) (s ++ [(a ^ b) mod 2 ^ 256]), h).
Lemma exp_eval (SPEC : SpecId) (i : Interpreter) (h : H) s b a :
  Gas_wf (i_gas i) -> i_stack i = s ++ [b; a] -> is_u256 b ->
  arithmetic.eval_exp SPEC i h = exp_result SPEC s b a i h.
Proof.
  intros Hg Hs Hb. unfold arithmetic.eval_exp, mbind, instr_bind, exp_result, pop_top2, pop_with.
  simpl. rewrite Hs. unfold Stack.len. autorewrite with zlen. pose proof (zlen_nonneg s). case_if; [lia|].
  rewrite pop_top_unsafe_app. simpl. unfold lift. rewrite exp_cost_spec by done. cbn [mbind rust_bind gas_or_fail].
  assert (Hc : is_u64 (10 + (if enabled SPEC SPURIOUS_DRAGON then 50 else 10) * byte_length b))
    by (pose proof (byte_length_bound b Hb); case_if; rlia).
  generalize dependent (10 + (if enabled SPEC SPURIOUS_DRAGON then 50 else 10) * byte_length b). intros cost Hc.
  rewrite gas_eval by done. cbn [i_gas set_stack]. destruct (remaining (i_gas i) <? cost); [done|].
  unfold set_top. simpl. rewrite set_top_app. by rewrite u256_pow_spec by rlia.
Qed.

(** C23: every two-operand word instruction computes its mathematical
    meaning: it charges its price, replaces the two operands by the result
    and touches nothing else; without the gas it stops with [OutOfGas].
    Signed operations read words in two's complement, shifts by 256 or more
    are exact, and the shift instructions are those of forks from
    Constantinople on.  The price of exponentiation depends on the exponent,
    by its bytes, and on the fork. *)
Theorem word_ops_correct (SPEC : SpecId) (i : Interpreter) (h : H) (s : list Z) (b a : Z) :
  Gas_wf (i_gas i) -> i_stack i = s ++ [b; a] -> is_u256 a -> is_u256 b ->
  (forall op cost sem, (op, cost, sem) ∈ word_ops ->
    (op ∈ [opcode.SHL; opcode.SHR; opcode.SAR] -> enabled SPEC CONSTANTINOPLE = true) ->
    eval SPEC op i h = word_op_result cost sem s b a i h) /\
  eval SPEC opcode.EXP i h = exp_result SPEC s b a i h.
Proof.
  intros Hg Hs Ha Hb. split; [|by apply exp_eval]. intros op cost sem Hin Hfork.
  assert (Hbin : forall c f v, 0 <= c < 100 -> f a b = Val v -> v = sem a b ->
    cost = c -> binary_op c f i h = word_op_result cost sem s b a i h).
  { intros c f v Hc Hf -> ->. rewrite (binary_op_eval c f (sem a b) i h s b a); try done. rlia. }
  unfold word_ops in Hin. rewrite !elem_of_cons, elem_of_nil in Hin.
  destruct_or! Hin; simplify_eq; try done.
  all: try (eapply Hbin; [by vm_compute|reflexivity| |reflexivity]; reflexivity).
  - eapply Hbin; [by vm_compute|by apply i256_div_spec| |reflexivity]; reflexivity.
  - by apply (smod_eval i h s b a).
  - eapply Hbin; [by vm_compute|reflexivity| |reflexivity]. by apply signextend_word_spec.
  - eapply Hbin; [by vm_compute|reflexivity| |reflexivity]. simpl. rewrite i256_cmp_spec by done.
    by rewrite Z.ltb_compare; destruct (_ ?= _).
  - eapply Hbin; [by vm_compute|reflexivity| |reflexivity]. simpl. rewrite i256_cmp_spec by done.
    by rewrite Z.ltb_compare, Z.compare_antisym; destruct (_ ?= _).
  - eapply Hbin; [by vm_compute|reflexivity| |reflexivity]. by apply byte_word_spec.
  - change (bitwise.shl SPEC i h = word_op_result 3 (fun a b => (b * 2 ^ a) mod 2 ^ 256) s b a i h).
    unfold bitwise.shl. rewrite Hfork by set_solver.
    eapply Hbin; [by vm_compute|reflexivity| |reflexivity]. simpl.
    rewrite (proj1 (shift_saturates b a Ha)). apply u256_shl_spec. rlia.
  - change (bitwise.shr SPEC i h = word_op_result 3 (fun a b => b / 2 ^ a) s b a i h).
    unfold bitwise.shr. rewrite Hfork by set_solver.
    eapply Hbin; [by vm_compute|reflexivity| |reflexivity]. simpl.
    rewrite (proj2 (shift_saturates b a Ha)). apply u256_shr_spec; [done|rlia].
  - change (bitwise.sar SPEC i h =
      word_op_result 3 (fun a b => Z.shiftr (to_signed b) a mod 2 ^ 256) s b a i h).
    unfold bitwise.sar. rewrite Hfork by set_solver.
    eapply Hbin; [by vm_compute|by apply sar_word_spec| |reflexivity]. reflexivity.
Qed.
End word_ops.

Lemma word_ops_correct_witness :
  let i := set_stack (example_machine example_add false) [9; 2; 2 ^ 256 - 6] in
  eval (HH := refusing_host) LATEST opcode.SDIV i example_host =
  word_op_result 5 (fun a b =>
    if b =? 0 then 0 else Z.quot (to_signed a) (to_signed b) mod 2 ^ 256)
    [9] 2 (2 ^ 256 - 6) i example_host /\
  eval (HH := refusing_host) LATEST opcode.EXP i example_host = exp_result LATEST [9] 2 (2 ^ 256 - 6) i example_host.
Proof.
  pose proof (proj1 (example_machine_wf example_add false (proj1 example_add_ok) (proj2 example_add_ok))) as Hg.
  destruct (word_ops_correct (HH := refusing_host) LATEST
    (set_stack (example_machine example_add false) [9; 2; 2 ^ 256 - 6]) example_host [9] 2 (2 ^ 256 - 6))
    as [H1 H2]; [apply Hg|done|rlia|rlia|].
  split; [|exact H2]. apply H1; [|done]. do 4 apply list_elem_of_further. apply list_elem_of_here.
Defined.

(** ** Jumps *)

Lemma raw_contract_jumps (code input : list Z) (hash address caller value : Z) (c : Contract) :
  Forall is_u8 code ->
  Contract_new input (mkBytecode code hash Raw) address caller value = Val c ->
  bl_bytecode (ct_bytecode c) = code ++ replicate 33 0 /\
  forall d, 0 <= d ->
    is_valid_jump c d = true <-> valid_jumpdest (code ++ replicate 33 0) d.
Proof.
  intros Hu8 Hc.
  destruct (to_analysed_wf (mkBytecode code hash Raw)) as (b & len & m & Hb & Hwf & Hs & _);
    [by split|].
  unfold Contract_new in Hc. rewrite Hb in Hc. simpl in Hc.
  unfold BytecodeLocked_try_from in Hc. rewrite Hs in Hc. simpl in Hc. simplify_eq.
  unfold is_valid_jump. cbn [ct_bytecode bl_jump_map bl_bytecode]. destruct Hwf as [_ Hwf]. rewrite Hs in Hwf.
  destruct Hwf as (_ & _ & _ & Hv).
  assert (Hbc : bc_bytecode b = code ++ replicate 33 0).
  { revert Hb. unfold to_analysed, Bytecode_to_checked. simpl.
    rewrite resize_ge by rlia. unfold zlen.
    replace (Z.to_nat (Z.of_nat (length code) + 33) - length code)%nat with 33%nat by lia.
    destruct (analyze _); simpl; intros; by simplify_eq. }
  rewrite <- Hbc. done.
Qed.

(** [JUMP] lands only on instructions.  In a contract built from raw
    bytes, the jump is taken exactly when the operand is the offset of a
    [JUMPDEST] that decoding from the start of the code reaches; every
    other operand, however large, ends in [InvalidJump]. *)
Theorem jump_lands_on_jumpdest {H : Type} {HH : Host H} {HC : Crypto} (SPEC : SpecId)
  (code input : list Z) (hash address caller value : Z)
  (i : Interpreter) (h : H) (s : list Z) (d : Z) :
  Forall is_u8 code -> zlen code + 33 <= isize_max ->
  Contract_new input (mkBytecode code hash Raw) address caller value = Val (i_contract i) ->
  Gas_wf (i_gas i) -> 8 <= remaining (i_gas i) -> i_stack i = s ++ [d] -> is_u256 d ->
  let popped := set_stack (set_gas i (record_cost (i_gas i) 8).1) s in
  (valid_jumpdest (code ++ replicate 33 0) d ->
    eval SPEC opcode.JUMP i h = Val (Some tt, set_pc popped d, h)) /\
  (~ valid_jumpdest (code ++ replicate 33 0) d ->
    exists o, eval SPEC opcode.JUMP i h = Val (o, set_result popped InvalidJump, h)).
Proof.
  intros Hu8 Hlen Hc Hg Hr Hs Hd popped.
  destruct (raw_contract_jumps _ _ _ _ _ _ _ Hu8 Hc) as [_ Hj].
  assert (Hsmall : valid_jumpdest (code ++ replicate 33 0) d -> d < u64_modulus).
  { intros [_ Hl]. apply lookup_lt_Some in Hl. rewrite length_app, length_replicate in Hl. rlia. }
  assert (Heval : eval SPEC opcode.JUMP i h =
    (dest ← as_usize_or_fail d InvalidJump; control.jump_to dest) popped h).
  { change (eval SPEC opcode.JUMP) with (control.jump (H := H)).
    unfold control.jump, mbind, instr_bind. rewrite gas_eval by (done || by vm_compute).
    change gas.MID with 8. case_if; [lia|].
    unfold pop1, pop_with. simpl. rewrite Hs. unfold Stack.len. autorewrite with zlen.
    pose proof (zlen_nonneg s). case_if; [lia|]. by rewrite pop_unsafe_app. }
  rewrite Heval. unfold as_usize_or_fail. pose proof (limbs_high_zero d Hd) as Hl.
  destruct (_ || _) eqn:E.
  - assert (~ d < u64_modulus) by (rewrite <- Hl; done).
    split; [intros Hv; by apply Hsmall in Hv|]. intros _. by exists None.
  - assert (is_u64 d) by (split; [apply Hd|by apply Hl]). rewrite limb0_small by done.
    specialize (Hj d (proj1 Hd)).
    unfold control.jump_to, mbind, instr_bind, ret, get_interp, modify. simpl.
    destruct (is_valid_jump (i_contract i) d).
    + split; [done|]. intros Hn. exfalso. by apply Hn, Hj.
    + split; [intros Hv; by apply Hj in Hv|]. intros _. by exists (Some tt).
Qed.

(** PUSH1 0x5b is data: jumping to 1 fails, jumping to 2 succeeds. *)
Lemma jump_lands_on_jumpdest_witness :
  let i d := set_stack (example_machine [0x60; 0x5b; 0x5b; 0x00] false) [d] in
  (exists o i', eval (HH := refusing_host) LATEST opcode.JUMP (i 1) example_host =
    Val (o, i', example_host) /\ i_result i' = InvalidJump) /\
  eval (HH := refusing_host) LATEST opcode.JUMP (i 2) example_host =
    Val (Some tt, set_pc (set_stack (set_gas (i 2) (record_cost (i_gas (i 2)) 8).1) []) 2,
      example_host).
Proof.
  assert (Hc : Forall is_u8 [0x60; 0x5b; 0x5b; 0x00]) by (repeat constructor; by vm_compute).
  assert (Hl : zlen [0x60; 0x5b; 0x5b; 0x00] + 33 <= isize_max) by (by vm_compute).
  destruct (example_machine_wf [0x60; 0x5b; 0x5b; 0x00] false Hc Hl) as (Hw & _).
  pose proof (wf_gas _ Hw) as Hg.
  assert (H2 : valid_jumpdest ([0x60; 0x5b; 0x5b; 0x00] ++ replicate 33 0) 2).
  { split; [|done]. apply (decodes_next _ 0 0 0x60); [constructor|done]. }
  split.
  - destruct (jump_lands_on_jumpdest (HH := refusing_host) LATEST [0x60; 0x5b; 0x5b; 0x00] []
      0 1 2 0 (set_stack (example_machine [0x60; 0x5b; 0x5b; 0x00] false) [1]) example_host [] 1)
      as [_ Hn]; [exact Hc|exact Hl|by vm_compute|exact Hg|by vm_compute|done|rlia|].
    destruct Hn as [o Ho]; [|rewrite Ho; by eexists _, _].
    intros [Hst _].
    assert (1 = 0); [|done].
    apply (instr_start_gap _ 0 1 0x60 (decodes_here _ 0)) in Hst; [done|done|by vm_compute].
  - apply (jump_lands_on_jumpdest (HH := refusing_host) LATEST [0x60; 0x5b; 0x5b; 0x00] []
      0 1 2 0 (set_stack (example_machine [0x60; 0x5b; 0x5b; 0x00] false) [2]) example_host [] 2);
      [exact Hc|exact Hl|by vm_compute|exact Hg|by vm_compute|done|rlia|exact H2].
Defined.
