(* ===== verification/Precompile.v ===== *)
(** * Precompiled contracts: [precompile/src] and [primitives/src/precompile.rs]

    Every precompile the node ships, the enterprise admin precompile with
    its process-wide state included.  Hash functions, elliptic curves and the
    operating system are code outside the repository: the classes below name
    what the sources call. *)

From stdpp Require Import base option list gmap.
From Stdlib Require Import ZArith Zpow_facts Lia.
From S2P Require Import Prelude Primitives Gas.

(** ** precompile.rs *)

Inductive PrecompileError :=
| POutOfGas
| Blake2WrongLength | Blake2WrongFinalIndicatorFlag
| ModexpExpOverflow | ModexpBaseOverflow | ModexpModOverflow
| Bn128FieldPointNotAMember | Bn128AffineGFailedToCreate | Bn128PairLength
| EnterpriseHalt.

#[export] Instance PrecompileError_eq_dec : EqDecision PrecompileError.
Proof. solve_decision. Defined.

(** [Ok((gas_used, output))] or an error. *)
Abbreviation PrecompileResult := ((Z * list Z) + PrecompileError)%type.
Definition StandardPrecompileFn : Type := list Z -> Z -> rust PrecompileResult.

(** [calc_linear_cost_u32]; [len as u64 + 31] wraps. *)
Definition calc_linear_cost_u32 (len base word : Z) : Z :=
  wrap64 (wrap64 (wrap64 (len + 31) / 32 * word) + base).

Definition u64_to_b160 (x : Z) : Z := from_be_bytes (replicate 12 0 ++ to_be_bytes 8 x).

(** ** Code outside the repository *)

Class HashCrates := {
  Sha256_digest : list Z -> list Z;
  Ripemd160_digest : list Z -> list Z;
  (** [secp256k1::ecrecover] of libsecp256k1: the public key, or an error. *)
  recover_ecdsa : list Z -> list Z -> option (list Z);
}.

(** [substrate-bn]: field elements, points and the pairing. *)
Class Bn := {
  Fq : Type; Fr : Type; G1 : Type; G2 : Type; GT : Type;
  Fq_from_slice : list Z -> option Fq;
  Fq_is_zero : Fq -> bool;
  Fr_from_slice : list Z -> option Fr;
  G1_zero : G1;
  AffineG1_new : Fq -> Fq -> option G1;
  G1_add : G1 -> G1 -> G1;
  G1_mul : G1 -> Fr -> G1;
  (** [AffineG1::from_jacobian] with its coordinates in big-endian bytes *)
  G1_affine : G1 -> option (list Z * list Z);
  G2_zero : G2;
  (** [AffineG2::new] on [Fq2] elements given by their two coefficients *)
  AffineG2_new : Fq * Fq -> Fq * Fq -> option G2;
  GT_one : GT;
  GT_mul : GT -> GT -> GT;
  pairing : G1 -> G2 -> GT;
  GT_is_one : GT -> bool;
}.

(** The operating system, as far as the admin precompile asks: does
    [kill(2)] succeed, can the dump file be opened. *)
Class Os := { kill_succeeds : bool; open_succeeds : bool }.

(** ** identity.rs *)
Module identity.
Definition IDENTITY_BASE : Z := 15.
Definition IDENTITY_PER_WORD : Z := 3.

Definition identity_run (input : list Z) (gas_limit : Z) : rust PrecompileResult :=
  let gas_used := calc_linear_cost_u32 (zlen input) IDENTITY_BASE IDENTITY_PER_WORD in
  if gas_limit <? gas_used then Val (inr POutOfGas) else Val (inl (gas_used, input)).
End identity.

(** ** hash.rs *)
Module hash.
Section hash.
Context {HX : HashCrates}.

Definition sha256_run (input : list Z) (gas_limit : Z) : rust PrecompileResult :=
  let cost := calc_linear_cost_u32 (zlen input) 60 12 in
  if gas_limit <? cost then Val (inr POutOfGas)
  else Val (inl (cost, Sha256_digest input)).

Definition ripemd160_run (input : list Z) (gas_limit : Z) : rust PrecompileResult :=
  let gas_used := calc_linear_cost_u32 (zlen input) 600 120 in
  if gas_limit <? gas_used then Val (inr POutOfGas)
  else
    ret ← copy_from_slice (replicate 32 0) 12 32 (Ripemd160_digest input);
    Val (inl (gas_used, ret)).
End hash.
End hash.

(** ** secp256k1.rs *)
Module secp256k1.
Section secp256k1.
Context {HX : HashCrates} {HC : Crypto}.

(** The digest of the recovered key, its first 12 bytes cleared. *)
Definition ecrecover (sig msg : list Z) : option (list Z) :=
  public ← recover_ecdsa sig msg;
  let hash := to_be_bytes 32 (Keccak256_digest (drop 1 public)) in
  Some (replicate 12 0 ++ drop 12 hash).

Definition ECRECOVER_BASE : Z := 3000.

Definition ec_recover_run (i : list Z) (target_gas : Z) : rust PrecompileResult :=
  if target_gas <? ECRECOVER_BASE then Val (inr POutOfGas)
  else
    src ← slice i 0 (Z.min (zlen i) 128);
    input ← copy_from_slice (replicate 128 0) 0 (Z.min (zlen i) 128) src;
    msg ← slice input 0 32;
    r ← slice input 64 96;
    s ← slice input 96 128;
    pad ← slice input 32 63;
    v ← unwrap (input !! 63%nat);
    if negb (forallb (fun b => b =? 0) pad) || negb ((v =? 27) || (v =? 28))
    then Val (inl (ECRECOVER_BASE, []))
    else
      let sig := r ++ s ++ [(v - 27) mod 256] in
      Val (inl (ECRECOVER_BASE, default [] (ecrecover sig msg))).
End secp256k1.
End secp256k1.

(** ** blake2.rs *)
Module blake2.
Definition F_ROUND : Z := 1.
Definition INPUT_LENGTH : Z := 213.

Definition SIGMA : list (list nat) := [
  [0; 1; 2; 3; 4; 5; 6; 7; 8; 9; 10; 11; 12; 13; 14; 15];
  [14; 10; 4; 8; 9; 15; 13; 6; 1; 12; 0; 2; 11; 7; 5; 3];
  [11; 8; 12; 0; 5; 2; 15; 13; 10; 14; 3; 6; 7; 1; 9; 4];
  [7; 9; 3; 1; 13; 12; 11; 14; 2; 6; 5; 10; 4; 0; 15; 8];
  [9; 0; 5; 7; 2; 4; 10; 15; 14; 1; 11; 12; 6; 8; 3; 13];
  [2; 12; 6; 10; 0; 11; 8; 3; 4; 13; 7; 5; 15; 14; 1; 9];
  [12; 5; 1; 15; 14; 13; 4; 10; 0; 7; 6; 3; 9; 2; 8; 11];
  [13; 11; 7; 14; 12; 1; 3; 9; 5; 0; 15; 4; 8; 6; 2; 10];
  [6; 15; 14; 9; 11; 3; 0; 8; 12; 2; 13; 7; 1; 4; 10; 5];
  [10; 2; 8; 4; 7; 6; 1; 5; 15; 11; 9; 14; 3; 12; 13; 0]]%nat.

Definition IV : list Z := [
  0x6a09e667f3bcc908; 0xbb67ae8584caa73b; 0x3c6ef372fe94f82b; 0xa54ff53a5f1d36f1;
  0x510e527fade682d1; 0x9b05688c2b3e6c1f; 0x1f83d9abfb41bd6b; 0x5be0cd19137e2179].

Definition rotate_right (x n : Z) : Z :=
  Z.lor (Z.shiftr x n) (wrap64 (Z.shiftl x (64 - n))).

(** Indexing panics when out of bounds. *)
Definition at_ {A : Type} (l : list A) (i : nat) : rust A := unwrap (l !! i).

Definition g (v : list Z) (a b c d : nat) (x y : Z) : rust (list Z) :=
  va ← at_ v a; vb ← at_ v b; vc ← at_ v c; vd ← at_ v d;
  let va := wrap64 (wrap64 (va + vb) + x) in
  let vd := rotate_right (Z.lxor vd va) 32 in
  let vc := wrap64 (vc + vd) in
  let vb := rotate_right (Z.lxor vb vc) 24 in
  let va := wrap64 (wrap64 (va + vb) + y) in
  let vd := rotate_right (Z.lxor vd va) 16 in
  let vc := wrap64 (vc + vd) in
  let vb := rotate_right (Z.lxor vb vc) 63 in
  Val (<[b := vb]> (<[c := vc]> (<[d := vd]> (<[a := va]> v)))).

(** The eight applications of [g] in a round: positions and the indices of
    the two message words in the round's permutation. *)
Definition round_steps : list (nat * nat * nat * nat * nat) := [
  (0, 4, 8, 12, 0); (1, 5, 9, 13, 2); (2, 6, 10, 14, 4); (3, 7, 11, 15, 6);
  (0, 5, 10, 15, 8); (1, 6, 11, 12, 10); (2, 7, 8, 13, 12); (3, 4, 9, 14, 14)]%nat.

Fixpoint round (steps : list (nat * nat * nat * nat * nat)) (s : list nat) (m v : list Z) :
  rust (list Z) :=
  match steps with
  | [] => Val v
  | (a, b, c, d, k) :: steps =>
      s0 ← at_ s k; s1 ← at_ s (S k);
      x ← at_ m s0; y ← at_ m s1;
      v ← g v a b c d x y;
      round steps s m v
  end.

(** Rounds [i], [i + 1], ... *)
Fixpoint rounds_from (n : nat) (i : Z) (m v : list Z) : rust (list Z) :=
  match n with
  | O => Val v
  | S n =>
      s ← at_ SIGMA (Z.to_nat (i mod 10));
      v ← round round_steps s m v;
      rounds_from n (i + 1) m v
  end.

Definition compress (rounds : Z) (h m : list Z) (t0 t1 : Z) (f : bool) : rust (list Z) :=
  v ← copy_from_slice (replicate 16 0) 0 (zlen h) h;
  v ← copy_from_slice v (zlen h) 16 IV;
  let v := alter (fun x => Z.lxor x t0) 12%nat v in
  let v := alter (fun x => Z.lxor x t1) 13%nat v in
  let v := if f then alter (fun x => u64_max - x) 14%nat v else v in
  v ← rounds_from (Z.to_nat rounds) 0 m v;
  Val (zip_with Z.lxor h (zip_with Z.lxor (take 8 v) (drop 8 v))).

Definition u64_from_le (l : list Z) : Z := from_be_bytes (reverse l).
Definition u64_to_le (x : Z) : list Z := reverse (to_be_bytes 8 x).

(** [n] little-endian words from offset [pos]. *)
Fixpoint read_words (input : list Z) (pos : Z) (n : nat) : rust (list Z) :=
  match n with
  | O => Val []
  | S n =>
      w ← slice input pos (pos + 8);
      ws ← read_words input (pos + 8) n;
      Val (u64_from_le w :: ws)
  end.

Definition run (input : list Z) (gas_limit : Z) : rust PrecompileResult :=
  if negb (zlen input =? INPUT_LENGTH) then Val (inr Blake2WrongLength)
  else
    flag ← at_ input 212%nat;
    if negb ((flag =? 1) || (flag =? 0)) then Val (inr Blake2WrongFinalIndicatorFlag)
    else
      r ← slice input 0 4;
      let rounds := from_be_bytes r in
      let gas_used := wrap64 (rounds * F_ROUND) in
      if gas_limit <? gas_used then Val (inr POutOfGas)
      else
        h ← read_words input 4 8;
        m ← read_words input 68 16;
        t0 ← slice input 196 204;
        t1 ← slice input 204 212;
        h ← compress rounds h m (u64_from_le t0) (u64_from_le t1) (flag =? 1);
        Val (inl (gas_used, concat (map u64_to_le h))).
End blake2.

(** ** modexp.rs

    [num::BigUint] values are non-negative integers. *)
Module modexp.
Definition u32_max : Z := 4294967295.

(** [BigUint::bits] and [BigUint::to_bytes_be] (zero gives one zero byte). *)
Definition bits (x : Z) : Z := if x =? 0 then 0 else Z.log2 x + 1.
Definition to_bytes_be (x : Z) : list Z := to_be_bytes (Z.to_nat (Z.max 1 (byte_length x))) x.

Definition calculate_iteration_count (exp_length exp_highp : Z) : Z :=
  let iteration_count :=
    if (exp_length <=? 32) && (exp_highp =? 0) then 0
    else if exp_length <=? 32 then wrap64 (bits exp_highp - 1)
    else wrap64 (8 * (exp_length - 32) + Z.max 1 (bits exp_highp) - 1) in
  Z.max iteration_count 1.

Definition read_u64_with_overflow (input : list Z) (from to overflow_limit : Z) :
  rust (Z * bool) :=
  let len := zlen input in
  let from_zero := Z.min from len in
  let from := Z.min (from_zero + 24) len in
  let to := Z.min to len in
  overflow_bytes ← slice input from_zero from;
  src ← slice input from to;
  len_bytes ← copy_from_slice (replicate 8 0) 0 (to - from) src;
  let out := from_be_bytes len_bytes in
  let overflow :=
    negb ((out <? overflow_limit) && forallb (fun x => x =? 0) overflow_bytes) in
  Val (out, overflow).

(** The closure [read_big]. *)
Definition read_big (input : list Z) (from to : Z) : rust Z :=
  let len := zlen input in
  let out := replicate (Z.to_nat (to - from)) 0 in
  let from := Z.min from len in
  let to := Z.min to len in
  src ← slice input from to;
  out ← copy_from_slice out 0 (to - from) src;
  Val (from_be_bytes out).

(** The first 32 bytes of the exponent. *)
Definition read_exp_highp (input : list Z) (base_end exp_highp_end : Z) : rust Z :=
  let len := zlen input in
  let from := Z.min base_end len in
  let to := Z.min exp_highp_end len in
  let target_from := 32 - (exp_highp_end - base_end) in
  let target_to := target_from + (to - from) in
  src ← slice input from to;
  out ← copy_from_slice (replicate 32 0) target_from target_to src;
  Val (from_be_bytes out).

(** The output: left-padded to the length of the modulus. *)
Definition pad_output (r mod_len : Z) : list Z :=
  let bytes := to_bytes_be r in
  match zlen bytes ?= mod_len with
  | Eq => bytes
  | Lt => replicate (Z.to_nat (mod_len - zlen bytes)) 0 ++ bytes
  | Gt => []
  end.

Definition run_inner (input : list Z) (gas_limit min_gas : Z)
  (calc_gas : Z -> Z -> Z -> Z -> Z) : rust PrecompileResult :=
  '(base_len, base_overflow) ← read_u64_with_overflow input 0 32 u32_max;
  '(exp_len, exp_overflow) ← read_u64_with_overflow input 32 64 u32_max;
  '(mod_len, mod_overflow) ← read_u64_with_overflow input 64 96 u32_max;
  if base_overflow || mod_overflow then Val (inr ModexpBaseOverflow)
  else if mod_overflow then Val (inr ModexpModOverflow)
  else if (base_len =? 0) && (mod_len =? 0) then Val (inl (min_gas, pad_output 0 mod_len))
  else if (exp_overflow : bool) then Val (inr ModexpExpOverflow)
  else
    let base_start := 96 in
    let base_end := base_start + base_len in
    let exp_end := base_end + exp_len in
    let exp_highp_end := base_end + Z.min 32 exp_len in
    let mod_end := exp_end + mod_len in
    exp_highp ← read_exp_highp input base_end exp_highp_end;
    let gas_cost := calc_gas base_len exp_len mod_len exp_highp in
    if gas_limit <? gas_cost then Val (inr POutOfGas)
    else
      base ← read_big input base_start base_end;
      exponent ← read_big input base_end exp_end;
      modulus ← read_big input exp_end mod_end;
      let r := if (modulus =? 0) || (modulus =? 1) then 0
               else Zpow_mod base exponent modulus in
      Val (inl (gas_cost, pad_output r mod_len)).

Definition mul_complexity (x : Z) : Z :=
  if x <=? 64 then x * x
  else if x <=? 1024 then x * x / 4 + 96 * x - 3072
  else
    let x_sq := wrap256 (x * x) in
    wrap256 (wrap256 (x_sq / 16 + wrap256 (480 * x)) - 199680).

Definition saturate_u64 (gas : Z) : option Z :=
  if negb (limb gas 1 =? 0) || negb (limb gas 2 =? 0) || negb (limb gas 3 =? 0)
  then None else Some (limb gas 0).

Definition byzantium_gas_calc (base_len exp_len mod_len exp_highp : Z) : Z :=
  let mul := mul_complexity (Z.max mod_len base_len) in
  let iter_count := calculate_iteration_count exp_len exp_highp in
  let gas := wrap256 (mul * iter_count) / 20 in
  default u64_max (saturate_u64 gas).

Definition calculate_multiplication_complexity (base_length mod_length : Z) : Z :=
  let max_length := Z.max base_length mod_length in
  let words := max_length / 8 in
  let words := if 0 <? max_length mod 8 then wrap64 (words + 1) else words in
  wrap256 (words * words).

Definition berlin_gas_calc (base_length exp_length mod_length exp_highp : Z) : Z :=
  let multiplication_complexity :=
    calculate_multiplication_complexity base_length mod_length in
  let iteration_count := calculate_iteration_count exp_length exp_highp in
  let gas := wrap256 (multiplication_complexity * iteration_count) / 3 in
  match saturate_u64 gas with None => u64_max | Some g => Z.max 200 g end.

Definition byzantium_run (input : list Z) (gas_limit : Z) : rust PrecompileResult :=
  run_inner input gas_limit 0 byzantium_gas_calc.
Definition berlin_run (input : list Z) (gas_limit : Z) : rust PrecompileResult :=
  run_inner input gas_limit 200 berlin_gas_calc.
End modexp.

(** ** bn128.rs *)
Module bn128.
Section bn128.
Context {HB : Bn}.

Definition ADD_INPUT_LEN : Z := 128.
Definition MUL_INPUT_LEN : Z := 128.
Definition PAIR_ELEMENT_LEN : Z := 192.

(** [Fq::from_slice(..).map_err(|_| Bn128FieldPointNotAMember)] on the 32
    bytes at [pos]. *)
Definition read_fq (input : list Z) (pos : Z) : rust (Fq + PrecompileError) :=
  buf ← slice input pos (pos + 32);
  Val (match Fq_from_slice buf with
       | Some x => inl x
       | None => inr Bn128FieldPointNotAMember
       end).

(** A point from its coordinates; (0, 0) is the point at infinity. *)
Definition mk_G1 (px py : Fq) : G1 + PrecompileError :=
  if Fq_is_zero px && Fq_is_zero py then inl G1_zero
  else match AffineG1_new px py with
       | Some p => inl p
       | None => inr Bn128AffineGFailedToCreate
       end.

Definition mk_G2 (bax bay bbx bby : Fq) : G2 + PrecompileError :=
  if (Fq_is_zero bax && Fq_is_zero bay) && (Fq_is_zero bbx && Fq_is_zero bby) then inl G2_zero
  else match AffineG2_new (bax, bay) (bbx, bby) with
       | Some p => inl p
       | None => inr Bn128AffineGFailedToCreate
       end.

Definition read_point (input : list Z) (pos : Z) : rust (G1 + PrecompileError) :=
  px ← read_fq input pos;
  match px with
  | inr e => Val (inr e)
  | inl px =>
      py ← read_fq input (pos + 32);
      match py with
      | inr e => Val (inr e)
      | inl py => Val (mk_G1 px py)
      end
  end.

(** 64 bytes, zero for the point at infinity. *)
Definition point_bytes (p : G1) : rust (list Z) :=
  match G1_affine p with
  | Some (x, y) =>
      o ← copy_from_slice (replicate 64 0) 0 32 x; copy_from_slice o 32 64 y
  | None => Val (replicate 64 0)
  end.

Definition run_add (input : list Z) : rust (list Z + PrecompileError) :=
  input ← vec_resize input ADD_INPUT_LEN 0;
  p1 ← read_point input 0;
  match p1 with
  | inr e => Val (inr e)
  | inl p1 =>
      p2 ← read_point input 64;
      match p2 with
      | inr e => Val (inr e)
      | inl p2 => o ← point_bytes (G1_add p1 p2); Val (inl o)
      end
  end.

Definition run_mul (input : list Z) : rust (list Z + PrecompileError) :=
  input ← vec_resize input MUL_INPUT_LEN 0;
  p ← read_point input 0;
  match p with
  | inr e => Val (inr e)
  | inl p =>
      fr_buf ← slice input 64 96;
      fr ← unwrap (Fr_from_slice fr_buf);
      o ← point_bytes (G1_mul p fr); Val (inl o)
  end.

(** One element of a pairing input: six field elements, two points. *)
Definition read_pair (input : list Z) (at_ : Z) : rust ((G1 * G2) + PrecompileError) :=
  ax ← read_fq input at_;
  match ax with inr e => Val (inr e) | inl ax =>
  ay ← read_fq input (at_ + 32);
  match ay with inr e => Val (inr e) | inl ay =>
  bay ← read_fq input (at_ + 64);
  match bay with inr e => Val (inr e) | inl bay =>
  bax ← read_fq input (at_ + 96);
  match bax with inr e => Val (inr e) | inl bax =>
  bby ← read_fq input (at_ + 128);
  match bby with inr e => Val (inr e) | inl bby =>
  bbx ← read_fq input (at_ + 160);
  match bbx with inr e => Val (inr e) | inl bbx =>
  Val (match mk_G1 ax ay with
       | inr e => inr e
       | inl a => match mk_G2 bax bay bbx bby with inr e => inr e | inl b => inl (a, b) end
       end)
  end end end end end end.

Fixpoint read_pairs (input : list Z) (idx : Z) (n : nat) :
  rust (list (G1 * G2) + PrecompileError) :=
  match n with
  | O => Val (inl [])
  | S n =>
      p ← read_pair input (idx * PAIR_ELEMENT_LEN);
      match p with
      | inr e => Val (inr e)
      | inl p =>
          ps ← read_pairs input (idx + 1) n;
          Val (match ps with inr e => inr e | inl ps => inl (p :: ps) end)
      end
  end.

Definition run_pair (input : list Z) (pair_per_point_cost pair_base_cost gas_limit : Z) :
  rust PrecompileResult :=
  let gas_used := wrap64 (wrap64 (pair_per_point_cost * zlen input) / PAIR_ELEMENT_LEN
                          + pair_base_cost) in
  if gas_limit <? gas_used then Val (inr POutOfGas)
  else if negb (zlen input mod PAIR_ELEMENT_LEN =? 0) then Val (inr Bn128PairLength)
  else
    out ← (if zlen input =? 0 then Val (inl 1)
           else
             vals ← read_pairs input 0 (Z.to_nat (zlen input / PAIR_ELEMENT_LEN));
             Val (match vals with
                  | inr e => inr e
                  | inl vals =>
                      let mul := foldl (fun s '(a, b) => GT_mul s (pairing a b)) GT_one vals in
                      inl (if GT_is_one mul then 1 else 0)
                  end));
    Val (match out with
         | inr e => inr e
         | inl output => inl (gas_used, to_be_bytes 32 output)
         end).

(** A fixed price around [run_add] or [run_mul]. *)
Definition priced (price : Z) (f : list Z -> rust (list Z + PrecompileError))
  (input : list Z) (target_gas : Z) : rust PrecompileResult :=
  if target_gas <? price then Val (inr POutOfGas)
  else
    r ← f input;
    Val (match r with inr e => inr e | inl o => inl (price, o) end).

Definition add_ISTANBUL : StandardPrecompileFn := priced 150 run_add.
Definition add_BYZANTIUM : StandardPrecompileFn := priced 500 run_add.
Definition mul_ISTANBUL : StandardPrecompileFn := priced 6000 run_mul.
Definition mul_BYZANTIUM : StandardPrecompileFn := priced 40000 run_mul.
Definition pair_ISTANBUL : StandardPrecompileFn :=
  fun input target_gas => run_pair input 34000 45000 target_gas.
Definition pair_BYZANTIUM : StandardPrecompileFn :=
  fun input target_gas => run_pair input 80000 100000 target_gas.
End bn128.
End bn128.

(** ** admin.rs and the enumerations it decodes from [primitives/src/lib.rs] *)
Module ConfigKind.
Inductive t := MultisigAddress | RequiredGas | SetBalance | DumpState | Unknown.
Definition from_u8 (value : Z) : t :=
  if value =? 1 then MultisigAddress else if value =? 2 then RequiredGas
  else if value =? 3 then SetBalance else if value =? 4 then DumpState else Unknown.
End ConfigKind.

Module AdminCallKind.
Inductive t := EmergencyStop | ReloadRuntimeConfig | Mint | Burn | Unknown.
Definition from_u8 (value : Z) : t :=
  if value =? 1 then EmergencyStop else if value =? 2 then ReloadRuntimeConfig
  else if value =? 3 then Mint else if value =? 4 then Burn else Unknown.
End AdminCallKind.

Module admin.

(** The two [static mut] variables, and how often the process was sent
    SIGTERM. *)
Record Statics := mkStatics { MULTISIG : Z; REQUIRED_GAS : Z; sigterms : nat }.
Definition Statics_init : Statics := mkStatics 0x31337 2000 0.

Section admin.
Context {HO : Os}.

Definition is_multisig (st : Statics) (context : CallContext) : bool :=
  (cc_caller context =? MULTISIG st) && bool_decide (cc_scheme context = StaticCall).

Definition fn_emergency_stop (st : Statics) : rust (Z * Statics) :=
  if kill_succeeds then Val (0, mkStatics (MULTISIG st) (REQUIRED_GAS st) (S (sigterms st)))
  else Panic.

(** [B160::from_slice] asserts a length of 20. *)
Definition fn_reload_multisig_address (x : list Z) (st : Statics) : rust (Z * Statics) :=
  if zlen x =? 20 then Val (0, mkStatics (from_be_bytes x) (REQUIRED_GAS st) (sigterms st))
  else Panic.

Definition fn_reload_required_gas (x : list Z) (st : Statics) : rust (Z * Statics) :=
  arr ← copy_from_slice (replicate 8 0) 0 8 x;
  Val (0, mkStatics (MULTISIG st) (from_be_bytes arr) (sigterms st)).

(** The loop of [fn_dump_state]: each iteration fills one 16-byte slot of a
    256-byte allocation with a byte of the input.  [x[i]] panics past the
    end of the input, and a write past the allocation is undefined. *)
Fixpoint dump_loop (fuel : nat) (x states : list Z) (i : Z) : rust (list Z) :=
  if (i <=? zlen x) && (i <=? 0x10) then
    match fuel with
    | O => Diverge
    | S fuel =>
        b ← (if i <? zlen x then unwrap (x !! Z.to_nat i) else Panic);
        if 16 * i + 16 <=? zlen states then
          states ← copy_from_slice states (16 * i) (16 * i + 16) (replicate 16 b);
          dump_loop fuel x states (i + 1)
        else Undef
    end
  else Val states.

(** After the loop the first slot is read back as a slice reference made of
    those bytes, which is undefined. *)
Definition fn_dump_state (x : list Z) (st : Statics) : rust (Z * Statics) :=
  _ ← dump_loop 18 x (replicate 256 0) 0;
  if open_succeeds then Undef else Panic.

Definition fn_reload_runtime_config (rest : list Z) (st : Statics) : rust (Z * Statics) :=
  match rest with
  | [] => Val (1, st)
  | k :: x =>
      match ConfigKind.from_u8 k with
      | ConfigKind.MultisigAddress => fn_reload_multisig_address x st
      | ConfigKind.RequiredGas => fn_reload_required_gas x st
      | ConfigKind.SetBalance => Val (0, st)
      | ConfigKind.DumpState => fn_dump_state x st
      | ConfigKind.Unknown => Val (1, st)
      end
  end.

Definition admin_func_run (i : list Z) (target_gas : Z) (context : CallContext) (st : Statics) :
  rust (PrecompileResult * Statics) :=
  let gas_base := REQUIRED_GAS st in
  if negb (gas_base =? target_gas) then Val (inr POutOfGas, st)
  else
    match i with
    | [] => Val (inr EnterpriseHalt, st)
    | k :: rest =>
        if negb (is_multisig st context) then Val (inr EnterpriseHalt, st)
        else
          '(out, st) ← match AdminCallKind.from_u8 k with
                      | AdminCallKind.EmergencyStop => fn_emergency_stop st
                      | AdminCallKind.ReloadRuntimeConfig => fn_reload_runtime_config rest st
                      | AdminCallKind.Mint | AdminCallKind.Burn => Val (0, st)
                      | AdminCallKind.Unknown => Val (u64_max, st)
                      end;
          Val (if out =? 0 then inl (gas_base, [0])
               else if out =? 1 then inl (gas_base, [1])
               else inr EnterpriseHalt, st)
    end.
End admin.
End admin.

(** ** lib.rs: the tables *)

Inductive Precompile :=
| Standard (fun_ : StandardPrecompileFn)
| Custom (fun_ : StandardPrecompileFn)
| CustomEnterprise
    (fun_ : list Z -> Z -> CallContext -> admin.Statics -> rust (PrecompileResult * admin.Statics)).

Module PrecompileSpec.
Inductive t := HOMESTEAD | BYZANTIUM | ISTANBUL | BERLIN | LATEST.

Definition as_u8 (s : t) : Z :=
  match s with HOMESTEAD => 0 | BYZANTIUM => 1 | ISTANBUL => 2 | BERLIN => 3 | LATEST => 4 end.
Definition enabled (self : t) (spec_id : Z) : bool := as_u8 self <=? spec_id.

Definition from_spec_id (spec_id : SpecId) : t :=
  match spec_id with
  | Primitives.FRONTIER | Primitives.FRONTIER_THAWING | Primitives.HOMESTEAD
  | Primitives.DAO_FORK | Primitives.TANGERINE | Primitives.SPURIOUS_DRAGON => HOMESTEAD
  | Primitives.BYZANTIUM | Primitives.CONSTANTINOPLE | Primitives.PETERSBURG => BYZANTIUM
  | Primitives.ISTANBUL | Primitives.MUIR_GLACIER => ISTANBUL
  | Primitives.BERLIN | Primitives.LONDON | Primitives.ARROW_GLACIER
  | Primitives.GRAY_GLACIER | Primitives.MERGE | Primitives.SHANGHAI
  | Primitives.CANCUN => BERLIN
  | Primitives.LATEST => LATEST
  end.
End PrecompileSpec.

(** The field [fun] of [Precompiles]. *)
Abbreviation Precompiles := (gmap Z Precompile).

Section tables.
Context {HX : HashCrates} {HC : Crypto} {HB : Bn} {HO : Os}.

(** [fun.extend(..)]: later entries replace earlier ones. *)
Definition extend (m : Precompiles) (l : list (Z * Precompile)) : Precompiles :=
  foldl (fun m '(a, p) => <[a := p]> m) m l.

Definition homestead : Precompiles := extend ∅ [
  (u64_to_b160 1, Standard secp256k1.ec_recover_run);
  (u64_to_b160 2, Standard hash.sha256_run);
  (u64_to_b160 3, Standard hash.ripemd160_run);
  (u64_to_b160 4, Standard identity.identity_run);
  (u64_to_b160 1337, CustomEnterprise admin.admin_func_run)].

Definition byzantium : Precompiles := extend homestead [
  (u64_to_b160 6, Standard bn128.add_BYZANTIUM);
  (u64_to_b160 7, Standard bn128.mul_BYZANTIUM);
  (u64_to_b160 8, Standard bn128.pair_BYZANTIUM);
  (u64_to_b160 5, Standard modexp.byzantium_run)].

Definition istanbul : Precompiles := extend byzantium [
  (u64_to_b160 9, Standard blake2.run);
  (u64_to_b160 6, Standard bn128.add_ISTANBUL);
  (u64_to_b160 7, Standard bn128.mul_ISTANBUL);
  (u64_to_b160 8, Standard bn128.pair_ISTANBUL)].

Definition berlin : Precompiles := extend istanbul [
  (u64_to_b160 5, Standard modexp.berlin_run)].

Definition latest : Precompiles := berlin.

Definition Precompiles_new (spec : PrecompileSpec.t) : Precompiles :=
  match spec with
  | PrecompileSpec.HOMESTEAD => homestead
  | PrecompileSpec.BYZANTIUM => byzantium
  | PrecompileSpec.ISTANBUL => istanbul
  | PrecompileSpec.BERLIN => berlin
  | PrecompileSpec.LATEST => latest
  end.

Definition Precompiles_contains (m : Precompiles) (address : Z) : bool :=
  bool_decide (is_Some (m !! address)).
Definition Precompiles_get (m : Precompiles) (address : Z) : option Precompile := m !! address.
Definition Precompiles_len (m : Precompiles) : Z := Z.of_nat (size m).
Definition Precompiles_is_empty (m : Precompiles) : bool := Precompiles_len m =? 0.
(** The keys, in the order of the map. *)
Definition Precompiles_addresses (m : Precompiles) : list Z := (map_to_list m).*1.
End tables.
