(* ===== verification/PrecompileSpec.v ===== *)
(** * What the precompiled contracts promise

    Every standard precompile returns, within the gas it is given and with
    well-formed output; [MODEXP] computes modular powers at the price of its
    EIPs; the admin precompile obeys only the multisig, and fails in the
    ways described at the end. *)

From stdpp Require Import base option list gmap.
From Stdlib Require Import ZArith Zpow_facts Lia.
From S2P Require Import Prelude Primitives Gas Precompile.

(** ** Inputs as if followed by zeros *)

(** Bytes [from, to) of the input extended by zeros. *)
Definition bytes_at (input : list Z) (from to : Z) : list Z :=
  (fun i => default 0 (input !! Z.to_nat i)) <$> seqZ from (to - from).
Definition field (input : list Z) (from to : Z) : Z := from_be_bytes (bytes_at input from to).

Lemma bytes_at_lookup input from to i :
  0 <= from -> Z.of_nat i < to - from ->
  bytes_at input from to !! i = Some (default 0 (input !! (Z.to_nat from + i)%nat)).
Proof.
  intros Hf Hi. unfold bytes_at. rewrite list_lookup_fmap, lookup_seqZ_lt by lia. simpl.
  repeat f_equal. lia.
Qed.

Lemma bytes_at_length input from to : length (bytes_at input from to) = Z.to_nat (to - from).
Proof. unfold bytes_at. by rewrite length_fmap, length_seqZ. Qed.

Lemma bytes_at_app input a b c :
  a <= b <= c -> bytes_at input a c = bytes_at input a b ++ bytes_at input b c.
Proof.
  intros Habc. unfold bytes_at. rewrite <- fmap_app. f_equal.
  replace (c - a) with ((b - a) + (c - b)) by lia.
  rewrite seqZ_app by lia. do 2 f_equal. lia.
Qed.

Lemma bytes_at_u8 input from to : Forall is_u8 input -> Forall is_u8 (bytes_at input from to).
Proof.
  intros Hi. unfold bytes_at. apply Forall_fmap, Forall_forall. intros i _. simpl.
  destruct (input !! Z.to_nat i) as [x|] eqn:E; simpl; [|rlia].
  by eapply Forall_lookup_1 in E.
Qed.

(** What there is of the range, padded on the right, is [bytes_at]. *)
Lemma take_drop_padded input from to (n : nat) :
  0 <= from <= to -> Z.of_nat n = to - from ->
  let a := Z.min from (zlen input) in let b := Z.min to (zlen input) in
  take (Z.to_nat (b - a)) (drop (Z.to_nat a) input) ++ replicate (n - Z.to_nat (b - a)) 0 =
  bytes_at input from to.
Proof.
  intros Hft Hn a b. apply list_eq_same_length with (n := n).
  - rewrite bytes_at_length. lia.
  - rewrite length_app, length_take, length_drop, length_replicate. unfold a, b, zlen. lia.
  - intros i x y Hi. rewrite bytes_at_lookup by lia. intros H1 [= <-]. revert H1.
    rewrite lookup_app. rewrite lookup_take, lookup_drop.
    destruct (decide (Z.to_nat from + i < length input)%nat) as [Hl|Hl].
    + replace (Z.to_nat a + i)%nat with (Z.to_nat from + i)%nat by (unfold a, zlen; lia).
      rewrite decide_True by (unfold a, b, zlen; lia).
      destruct (lookup_lt_is_Some_2 input _ Hl) as [z ->]. by intros [= <-].
    + rewrite (lookup_ge_None_2 input (Z.to_nat from + i)) by lia. simpl.
      assert (Hnone : (if decide (i < Z.to_nat (b - a))%nat
        then input !! (Z.to_nat a + i)%nat else None) = None).
      { case_decide; [|done]. apply lookup_ge_None_2. unfold a, b, zlen in *. lia. }
      rewrite Hnone. by intros [-> _]%lookup_replicate.
Qed.

Lemma from_be_zero l : Forall is_u8 l -> forallb (fun b => b =? 0) l = (from_be_bytes l =? 0).
Proof.
  induction 1 as [|x l Hx Hl IH]; [done|]. simpl. rewrite IH, from_be_cons.
  pose proof (from_be_range l Hl) as Hr. unfold is_u8 in Hx.
  assert (0 < 256 ^ zlen l) by (apply Z.pow_pos_nonneg; [lia|apply zlen_nonneg]).
  destruct (Z.eqb_spec x 0), (Z.eqb_spec (from_be_bytes l) 0),
    (Z.eqb_spec (x * 256 ^ zlen l + from_be_bytes l) 0); try done; nia.
Qed.

Lemma forallb_zeros n : forallb (fun b => b =? 0) (replicate n 0) = true.
Proof. induction n; simpl; auto. Qed.

Lemma field_range input from to : Forall is_u8 input ->
  0 <= field input from to /\ (from <= to -> field input from to < 256 ^ (to - from)).
Proof.
  intros Hin. unfold field.
  pose proof (from_be_range _ (bytes_at_u8 input from to Hin)) as Hr.
  unfold zlen in Hr. rewrite bytes_at_length in Hr. split; [lia|]. intros.
  rewrite Z2Nat.id in Hr by lia. apply Hr.
Qed.

(** ** MODEXP *)
Section modexp.
Import modexp.

Lemma read_big_spec input from to :
  0 <= from <= to -> read_big input from to = Val (field input from to).
Proof.
  intros Hft. unfold read_big, field. rewrite slice_val by rlia. cbn [mbind rust_bind].
  rewrite copy_from_slice_val.
  - cbn [mbind rust_bind]. do 2 f_equal. rewrite take_0, drop_replicate, app_nil_l.
    rewrite <- (take_drop_padded input from to (Z.to_nat (to - from))) by lia. done.
  - rlia.
  - rewrite zlen_replicate. rlia.
  - unfold zlen. rewrite length_take, length_drop. rlia.
Qed.

(** The word at [a]: its low eight bytes, and whether it reaches the limit. *)
Lemma read_u64_spec input a lim :
  Forall is_u8 input -> 0 <= a -> 0 <= lim <= u64_modulus ->
  exists w, read_u64_with_overflow input a (a + 32) lim =
      Val (w, negb (field input a (a + 32) <? lim)) /\ 0 <= w /\
    (field input a (a + 32) < lim -> w = field input a (a + 32)).
Proof.
  intros Hin Ha Hlim. unfold read_u64_with_overflow.
  set (len := zlen input). pose proof (zlen_nonneg input) as Hlen. fold len in Hlen.
  assert (E1 : Z.min (Z.min a len + 24) len = Z.min (a + 24) len) by lia. rewrite E1.
  rewrite slice_val by (unfold len in *; lia). cbn [mbind rust_bind].
  rewrite slice_val by (unfold len in *; lia). cbn [mbind rust_bind].
  rewrite copy_from_slice_val; [|lia|rewrite zlen_replicate; lia|
    unfold zlen; rewrite length_take, length_drop; unfold len, zlen in *; lia].
  cbn [mbind rust_bind]. rewrite take_0, drop_replicate, app_nil_l.
  pose proof (take_drop_padded input (a + 24) (a + 32) 8) as Hlow. cbv zeta in Hlow.
  fold len in Hlow.
  rewrite Hlow by lia. fold (field input (a + 24) (a + 32)).
  pose proof (take_drop_padded input a (a + 24) 24) as Hhigh. cbv zeta in Hhigh. fold len in Hhigh.
  assert (Hsum : field input a (a + 32) =
    field input a (a + 24) * 256 ^ 8 + field input (a + 24) (a + 32)).
  { unfold field. rewrite (bytes_at_app input a (a + 24) (a + 32)), from_be_app by lia.
    unfold zlen. rewrite bytes_at_length.
    by replace (Z.of_nat (Z.to_nat (a + 32 - (a + 24)))) with 8 by lia. }
  assert (Hz : forallb (fun x => x =? 0) (take (Z.to_nat (Z.min (a + 24) len - Z.min a len))
    (drop (Z.to_nat (Z.min a len)) input)) = (field input a (a + 24) =? 0)).
  { unfold field. rewrite <- from_be_zero by (by apply bytes_at_u8).
    rewrite <- Hhigh, forallb_app by lia. rewrite forallb_zeros. by rewrite andb_true_r. }
  pose proof (field_range input a (a + 24) Hin) as [Hh _].
  pose proof (field_range input (a + 24) (a + 32) Hin) as [Hl Hlu].
  replace (a + 32 - (a + 24)) with 8 in Hlu by lia. specialize (Hlu ltac:(lia)).
  rewrite Hz. exists (field input (a + 24) (a + 32)). rewrite Hsum.
  destruct (Z.eqb_spec (field input a (a + 24)) 0) as [->|Hn].
  - split; [by rewrite andb_true_r|]. lia.
  - split; [|lia]. rewrite andb_false_r. do 3 f_equal. symmetry. apply Z.ltb_ge. lia.
Qed.

Lemma read_exp_highp_spec input base_end k :
  0 <= base_end -> 0 <= k <= 32 ->
  read_exp_highp input base_end (base_end + k) = Val (field input base_end (base_end + k)).
Proof.
  intros Hb Hk. unfold read_exp_highp. rewrite slice_val by rlia. cbn [mbind rust_bind].
  rewrite copy_from_slice_val; [|rlia|rewrite zlen_replicate; rlia|
    unfold zlen; rewrite length_take, length_drop; rlia].
  cbn [mbind rust_bind]. f_equal. rewrite take_replicate, drop_replicate, from_be_replicate0.
  unfold field. f_equal.
  rewrite <- (take_drop_padded input base_end (base_end + k) (Z.to_nat k)) by lia.
  cbv zeta. do 2 f_equal. rlia.
Qed.

Lemma byte_length_spec x : 0 < x ->
  0 < byte_length x /\ 256 ^ (byte_length x - 1) <= x < 256 ^ byte_length x.
Proof.
  intros Hx. unfold byte_length. destruct (Z.eqb_spec x 0); [lia|].
  pose proof (Z.log2_spec x Hx) as [Hlo Hhi]. pose proof (Z.log2_nonneg x) as Hn.
  change 256 with (2 ^ 8). rewrite <- !Z.pow_mul_r by (Z.to_euclidean_division_equations; lia).
  split; [Z.to_euclidean_division_equations; lia|]. split.
  - etransitivity; [|exact Hlo]. apply Z.pow_le_mono_r; zlia.
  - eapply Z.lt_le_trans; [exact Hhi|]. apply Z.pow_le_mono_r; zlia.
Qed.

Lemma to_be_pad n k x : 0 <= x < 256 ^ Z.of_nat n ->
  to_be_bytes (k + n) x = replicate k 0 ++ to_be_bytes n x.
Proof.
  intros Hx. induction k as [|k IH]; [done|]. cbn [Nat.add to_be_bytes replicate].
  rewrite IH. simpl. f_equal. rewrite Z.div_small; [done|]. split; [lia|].
  eapply Z.lt_le_trans; [apply Hx|]. apply Z.pow_le_mono_r; lia.
Qed.

Lemma pad_output_spec r ml : 0 <= ml -> 0 <= r < 256 ^ ml ->
  pad_output r ml = to_be_bytes (Z.to_nat ml) r.
Proof.
  intros Hml Hr. unfold pad_output, to_bytes_be. rewrite zlen_to_be.
  set (n := Z.max 1 (byte_length r)). assert (Hn : 1 <= n) by (unfold n; lia).
  rewrite Z2Nat.id by lia.
  assert (Hrn : r < 256 ^ n /\ (n <= ml \/ ml = 0)).
  { destruct (decide (r = 0)) as [->|Hr0].
    - replace n with 1 by done. split; [by vm_compute|lia].
    - destruct (byte_length_spec r) as (Hp & Hlo & Hhi); [lia|].
      replace n with (byte_length r) by (unfold n; lia). split; [done|]. left.
      assert (byte_length r - 1 < ml); [|lia].
      apply (Z.pow_lt_mono_r_iff 256); lia. }
  destruct Hrn as [Hrn [Hle|Hml0]].
  - destruct (Z.compare_spec n ml) as [->|Hlt|]; [done| |lia].
    rewrite <- to_be_pad by (rewrite Z2Nat.id; lia). f_equal. lia.
  - destruct (Z.compare_spec n ml); [lia..|]. by subst ml.
Qed.

Lemma to_be_zero n : to_be_bytes n 0 = replicate n 0.
Proof. rewrite <- (Nat.add_0_r n), to_be_pad by (simpl; lia). by rewrite app_nil_r, Nat.add_0_r. Qed.

Lemma run_inner_spec input gas_limit min_gas calc_gas :
  Forall is_u8 input ->
  let bl := field input 0 32 in
  let el := field input 32 64 in
  let ml := field input 64 96 in
  let base := field input 96 (96 + bl) in
  let exponent := field input (96 + bl) (96 + bl + el) in
  let modulus := field input (96 + bl + el) (96 + bl + el + ml) in
  let gas := calc_gas bl el ml (field input (96 + bl) (96 + bl + Z.min 32 el)) in
  run_inner input gas_limit min_gas calc_gas = Val (
    if (u32_max <=? bl) || (u32_max <=? ml) then inr ModexpBaseOverflow
    else if (bl =? 0) && (ml =? 0) then inl (min_gas, [])
    else if u32_max <=? el then inr ModexpExpOverflow
    else if gas_limit <? gas then inr POutOfGas
    else inl (gas, to_be_bytes (Z.to_nat ml)
                (if modulus <=? 1 then 0 else base ^ exponent mod modulus))).
Proof.
  intros Hin bl el ml base exponent modulus gas. unfold run_inner.
  destruct (read_u64_spec input 0 u32_max Hin) as (w1 & E1 & Hw1 & Hb); [by vm_compute..|].
  destruct (read_u64_spec input 32 u32_max Hin) as (w2 & E2 & Hw2 & He); [by vm_compute..|].
  destruct (read_u64_spec input 64 u32_max Hin) as (w3 & E3 & Hw3 & Hm); [by vm_compute..|].
  change (0 + 32) with 32 in *. change (32 + 32) with 64 in *. change (64 + 32) with 96 in *.
  fold bl in E1, Hb. fold el in E2, He. fold ml in E3, Hm.
  rewrite E1, E2, E3. cbn [mbind rust_bind]. rewrite <- !Z.leb_antisym.
  destruct (Z.leb_spec u32_max bl) as [|Lb]; [done|].
  destruct (Z.leb_spec u32_max ml) as [|Lm]; [done|]. cbn [orb].
  rewrite (Hb Lb), (Hm Lm). destruct ((bl =? 0) && (ml =? 0)) eqn:Hz.
  { bool_to_prop. by replace ml with 0 by lia. }
  destruct (Z.leb_spec u32_max el) as [|Le]; [done|]. rewrite (He Le).
  assert (0 <= bl /\ 0 <= el /\ 0 <= ml) as (? & ? & ?) by (by split_and!; apply field_range).
  rewrite read_exp_highp_spec by lia. cbn [mbind rust_bind]. fold gas.
  case_if; [done|]. rewrite !read_big_spec by lia. cbn [mbind rust_bind].
  fold base exponent modulus. do 3 f_equal.
  pose proof (field_range input (96 + bl + el) (96 + bl + el + ml) Hin) as [Hm0 Hm1].
  fold modulus in Hm0, Hm1. specialize (Hm1 ltac:(lia)).
  replace (96 + bl + el + ml - (96 + bl + el)) with ml in Hm1 by lia.
  assert (Hcase : (modulus =? 0) || (modulus =? 1) = (modulus <=? 1)).
  { destruct (Z.eqb_spec modulus 0), (Z.eqb_spec modulus 1), (Z.leb_spec modulus 1); lia || done. }
  rewrite Hcase. destruct (Z.leb_spec modulus 1); [apply pad_output_spec; lia|].
  rewrite Zpow_mod_correct by lia.
  pose proof (Z.mod_pos_bound (base ^ exponent) modulus). apply pad_output_spec; lia.
Qed.

(** C26: [MODEXP] on every input, as if followed by zeros: three 32-byte
    lengths and then base, exponent and modulus of those lengths.  The
    answer is the modular power, as long as the modulus (zero for a modulus
    of at most one), at the fork's price; lengths from [u32::MAX] on and too
    little gas are refused.  No branch panics. *)
Theorem modexp_correct (input : list Z) (gas_limit : Z) :
  Forall is_u8 input ->
  let bl := field input 0 32 in
  let el := field input 32 64 in
  let ml := field input 64 96 in
  let base := field input 96 (96 + bl) in
  let exponent := field input (96 + bl) (96 + bl + el) in
  let modulus := field input (96 + bl + el) (96 + bl + el + ml) in
  let head := field input (96 + bl) (96 + bl + Z.min 32 el) in
  let answer min_gas (price : Z -> Z -> Z -> Z -> Z) : rust PrecompileResult := Val (
    if (u32_max <=? bl) || (u32_max <=? ml) then inr ModexpBaseOverflow
    else if (bl =? 0) && (ml =? 0) then inl (min_gas, [])
    else if u32_max <=? el then inr ModexpExpOverflow
    else if gas_limit <? price bl el ml head then inr POutOfGas
    else inl (price bl el ml head, to_be_bytes (Z.to_nat ml)
                (if modulus <=? 1 then 0 else base ^ exponent mod modulus))) in
  byzantium_run input gas_limit = answer 0 byzantium_gas_calc /\
  berlin_run input gas_limit = answer 200 berlin_gas_calc.
Proof. intros Hin. split; by apply run_inner_spec. Qed.

Lemma modexp_correct_witness :
  berlin_run (to_be_bytes 32 1 ++ to_be_bytes 32 1 ++ to_be_bytes 32 2 ++ [3; 5; 0; 100]) 200 =
  Val (inl (200, [0; 43])).
Proof.
  assert (Hin : Forall is_u8 (to_be_bytes 32 1 ++ to_be_bytes 32 1 ++ to_be_bytes 32 2
    ++ [3; 5; 0; 100])) by (repeat apply Forall_app_2; try apply to_be_u8; repeat constructor; rlia).
  destruct (modexp_correct _ 200 Hin) as [_ ->]. by vm_compute.
Defined.

(** ** The prices of EIP-198 and EIP-2565 *)

(** Squarings of an exponentiation, from the exponent's length and the
    position of the highest bit of its first 32 bytes. *)
Definition adjusted_exponent_length (el head : Z) : Z :=
  Z.max 1 (8 * Z.max 0 (el - 32) + Z.log2 head).

Definition eip198_complexity (x : Z) : Z :=
  if x <=? 64 then x ^ 2
  else if x <=? 1024 then x ^ 2 / 4 + 96 * x - 3072
  else x ^ 2 / 16 + 480 * x - 199680.

Lemma iteration_count_spec el head : 0 <= el < u32_max -> is_u256 head ->
  calculate_iteration_count el head = adjusted_exponent_length el head /\
  1 <= adjusted_exponent_length el head < 2 ^ 36.
Proof.
  intros Hel Hh. unfold u32_max in *.
  assert (Hlog : 0 <= Z.log2 head < 256).
  { split; [apply Z.log2_nonneg|]. destruct (decide (head = 0)) as [->|]; [by vm_compute|].
    apply Z.log2_lt_pow2; [rlia|exact (proj2 Hh)]. }
  unfold calculate_iteration_count, adjusted_exponent_length, bits. split; [|lia].
  destruct (Z.leb_spec el 32); destruct (Z.eqb_spec head 0) as [->|]; cbn [andb].
  - simpl. lia.
  - rewrite wrap64_id by rlia. lia.
  - rewrite wrap64_id by rlia. simpl. lia.
  - rewrite wrap64_id by rlia. lia.
Qed.

Lemma saturate_u64_spec x : is_u256 x ->
  saturate_u64 x = if x <? u64_modulus then Some x else None.
Proof.
  intros Hx. unfold saturate_u64. pose proof (limbs_high_zero x Hx) as Hl.
  destruct (Z.ltb_spec x u64_modulus).
  - rewrite (proj2 Hl) by done. rewrite limb0_small; [done|rlia].
  - destruct (_ || _ || _); [done|]. lia.
Qed.

Lemma saturated_gas y d : 0 <= y < 2 ^ 110 -> 0 < d ->
  saturate_u64 (wrap256 y / d) = if y / d <? u64_modulus then Some (y / d) else None.
Proof.
  intros Hy Hd. rewrite wrap256_id by rlia. apply saturate_u64_spec.
  split; [apply Z.div_pos; lia|].
  eapply Z.le_lt_trans; [apply Z.div_le_upper_bound with (q := y); nia|]. rlia.
Qed.

Lemma mul_complexity_spec x : 0 <= x < u32_max ->
  mul_complexity x = eip198_complexity x /\ 0 <= eip198_complexity x < 2 ^ 70.
Proof.
  intros Hx. unfold u32_max, mul_complexity, eip198_complexity in *. rewrite !Z.pow_2_r.
  assert (Hsq : 0 <= x * x < 2 ^ 64) by nia.
  assert (Hq : 0 <= x * x / 16 <= x * x) by zlia.
  destruct (Z.leb_spec x 64); [split; [done|lia]|].
  destruct (Z.leb_spec x 1024); [split; [done|zlia]|].
  assert (1024 * x < x * x) by nia.
  split; [|zlia]. rewrite (wrap256_id (x * x)) by rlia. rewrite (wrap256_id (480 * x)) by rlia.
  rewrite (wrap256_id (_ + _)) by rlia. apply wrap256_id. zlia.
Qed.

Lemma modexp_prices_spec (bl el ml head : Z) :
  0 <= bl < u32_max -> 0 <= el < u32_max -> 0 <= ml < u32_max -> is_u256 head ->
  let n := adjusted_exponent_length el head in
  byzantium_gas_calc bl el ml head =
    Z.min u64_max (eip198_complexity (Z.max bl ml) * n / 20) /\
  berlin_gas_calc bl el ml head =
    Z.max 200 (Z.min u64_max (((Z.max bl ml + 7) / 8) ^ 2 * n / 3)).
Proof.
  intros Hb He Hm Hh n. destruct (iteration_count_spec el head He Hh) as [Hi Hn]. fold n in Hi, Hn.
  unfold byzantium_gas_calc, berlin_gas_calc, calculate_multiplication_complexity. rewrite Hi.
  rewrite (Z.max_comm ml bl). set (x := Z.max bl ml). assert (Hx : 0 <= x < u32_max) by lia.
  destruct (mul_complexity_spec x Hx) as [-> Hc]. split.
  - rewrite saturated_gas by nia. destruct (Z.ltb_spec (eip198_complexity x * n / 20) u64_modulus);
      simpl; lia.
  - unfold u32_max in Hx. set (w := if 0 <? x mod 8 then wrap64 (x / 8 + 1) else x / 8).
    assert (Hw : w = (x + 7) / 8).
    { unfold w. destruct (Z.ltb_spec 0 (x mod 8)); [rewrite wrap64_id by zlia|]; zlia. }
    rewrite Hw. assert (0 <= (x + 7) / 8 < 2 ^ 30) by zlia. rewrite Z.pow_2_r.
    set (q := (x + 7) / 8) in *. assert (0 <= q * q < 2 ^ 60) by nia.
    rewrite (wrap256_id (q * q)) by rlia. rewrite saturated_gas by nia.
    destruct (Z.ltb_spec (q * q * n / 3) u64_modulus); lia.
Qed.

(** [MODEXP] costs what EIP-198 (Byzantium) and EIP-2565 (Berlin) say,
    capped at [u64::MAX]; none of the 64-bit and 256-bit operations of the
    calculation wraps for the lengths the precompile accepts. *)
Theorem modexp_prices (bl el ml head : Z) :
  0 <= bl < u32_max -> 0 <= el < u32_max -> 0 <= ml < u32_max -> is_u256 head ->
  let n := adjusted_exponent_length el head in
  byzantium_gas_calc bl el ml head =
    Z.min u64_max (eip198_complexity (Z.max bl ml) * n / 20) /\
  berlin_gas_calc bl el ml head =
    Z.max 200 (Z.min u64_max (((Z.max bl ml + 7) / 8) ^ 2 * n / 3)).
Proof. apply modexp_prices_spec. Qed.

Lemma modexp_prices_witness :
  berlin_gas_calc 1 32 32 (2 ^ 255) = 1360 /\ byzantium_gas_calc 1 32 32 (2 ^ 255) = 13056.
Proof.
  destruct (modexp_prices 1 32 32 (2 ^ 255)) as [-> ->]; [by vm_compute..|]. by vm_compute.
Defined.
End modexp.

(** ** Every standard precompile returns *)

(** What the sources rely on of the hash functions: digests of 32 and 20
    bytes. *)
Class HashCratesSpec {HX : HashCrates} : Prop := {
  sha256_bytes l : Forall is_u8 (Sha256_digest l) /\ length (Sha256_digest l) = 32%nat;
  ripemd160_bytes l : Forall is_u8 (Ripemd160_digest l) /\ length (Ripemd160_digest l) = 20%nat;
}.

(** And of the curve library: any 32 bytes are a scalar, coordinates are 32
    bytes. *)
Class BnSpec {HB : Bn} : Prop := {
  Fr_total l : length l = 32%nat -> is_Some (Fr_from_slice l);
  affine_bytes p x y : G1_affine p = Some (x, y) ->
    (Forall is_u8 x /\ length x = 32%nat) /\ (Forall is_u8 y /\ length y = 32%nat);
}.

(** An answer: at most the gas limit (200 if that is more, which the caller
    then refuses), output bytes of a representable length. *)
Definition answer_ok (gas_limit : Z) (r : PrecompileResult) : Prop :=
  match r with
  | inl (g, out) => 0 <= g <= Z.max 200 gas_limit /\ Forall is_u8 out /\ zlen out <= isize_max
  | inr _ => True
  end.

Definition returns_ok (f : StandardPrecompileFn) : Prop :=
  forall input gas_limit, Forall is_u8 input -> zlen input <= isize_max -> is_u64 gas_limit ->
  wp False (f input gas_limit) (answer_ok gas_limit).

Lemma replicate_u8 n : Forall is_u8 (replicate n 0).
Proof. apply Forall_replicate. rlia. Qed.

Lemma copy_ok (l src : list Z) a b :
  Forall is_u8 l -> Forall is_u8 src -> 0 <= a <= b -> b <= zlen l -> b - a = zlen src ->
  exists k, copy_from_slice l a b src = Val k /\ Forall is_u8 k /\ zlen k = zlen l.
Proof.
  intros Hl Hs Ha Hb Hc. rewrite copy_from_slice_val by done. eexists. split; [done|]. split.
  - auto using Forall_app_2, Forall_take, Forall_drop.
  - unfold zlen in *. rewrite splice_length; lia.
Qed.

Lemma slice_ok (l : list Z) a b : Forall is_u8 l -> 0 <= a <= b -> b <= zlen l ->
  exists k, slice l a b = Val k /\ Forall is_u8 k /\ zlen k = b - a.
Proof.
  intros Hl Ha Hb. rewrite slice_val by done. eexists. split; [done|].
  split; [by apply Forall_take, Forall_drop|].
  unfold zlen in *. rewrite length_take, length_drop. lia.
Qed.

Section standard.
Context {HX : HashCrates} {HXS : HashCratesSpec} {HC : Crypto}.

Lemma identity_ok : returns_ok identity.identity_run.
Proof.
  intros input gl Hin Hl Hg. unfold identity.identity_run, calc_linear_cost_u32.
  case_if; simpl; [done|]. pose proof (wrap64_range (wrap64 (wrap64 (zlen input + 31) / 32 *
    identity.IDENTITY_PER_WORD) + identity.IDENTITY_BASE)). split; [rlia|done].
Qed.

Lemma sha256_ok : returns_ok hash.sha256_run.
Proof.
  intros input gl Hin Hl Hg. unfold hash.sha256_run, calc_linear_cost_u32.
  case_if; simpl; [done|].
  pose proof (wrap64_range (wrap64 (wrap64 (zlen input + 31) / 32 * 12) + 60)).
  destruct (sha256_bytes input) as [H1 H2]. split; [rlia|]. split; [done|]. unfold zlen. lia.
Qed.

Lemma ripemd160_ok : returns_ok hash.ripemd160_run.
Proof.
  intros input gl Hin Hl Hg. unfold hash.ripemd160_run, calc_linear_cost_u32.
  case_if; [done|].
  pose proof (wrap64_range (wrap64 (wrap64 (zlen input + 31) / 32 * 120) + 600)).
  destruct (ripemd160_bytes input) as [H1 H2].
  destruct (copy_ok (replicate 32 0) (Ripemd160_digest input) 12 32) as (k & -> & Hk & Hkl);
    [apply replicate_u8|done|lia|rewrite zlen_replicate; lia|unfold zlen; lia|].
  simpl. rewrite zlen_replicate in Hkl. split; [rlia|]. split; [done|lia].
Qed.

Lemma ecrecover_bytes sig msg k :
  secp256k1.ecrecover sig msg = Some k -> Forall is_u8 k /\ length k = 32%nat.
Proof.
  unfold secp256k1.ecrecover. destruct (recover_ecdsa sig msg) as [pub|]; [|done].
  cbn [mbind option_bind]. intros E. apply (inj Some) in E. subst k.
  split; [|by rewrite length_app, length_replicate, length_drop, length_to_be].
  auto using Forall_app_2, replicate_u8, Forall_drop, to_be_u8.
Qed.

Lemma ecrecover_ok : returns_ok secp256k1.ec_recover_run.
Proof.
  intros i gl Hin Hl Hg. unfold secp256k1.ec_recover_run, secp256k1.ECRECOVER_BASE.
  case_if; [done|]. pose proof (zlen_nonneg i).
  destruct (slice_ok i 0 (Z.min (zlen i) 128)) as (src & -> & Hs & Hsl); [done|lia..|].
  cbn [mbind rust_bind].
  destruct (copy_ok (replicate 128 0) src 0 (Z.min (zlen i) 128)) as (inp & -> & Hi & Hil);
    [apply replicate_u8|done|lia|rewrite zlen_replicate; lia|lia|].
  cbn [mbind rust_bind]. rewrite zlen_replicate in Hil.
  destruct (slice_ok inp 0 32) as (msg & -> & _); [done|lia..|].
  destruct (slice_ok inp 64 96) as (r & -> & _); [done|lia..|].
  destruct (slice_ok inp 96 128) as (s & -> & _); [done|lia..|].
  destruct (slice_ok inp 32 63) as (pad & -> & _); [done|lia..|].
  destruct (lookup_lt_is_Some_2 inp 63) as [v ->]; [unfold zlen in Hil; lia|].
  cbn [mbind rust_bind unwrap]. case_if; simpl; [split; [lia|]; split; [done|by vm_compute]|].
  split; [lia|]. destruct (secp256k1.ecrecover _ _) as [k|] eqn:Ek; [|by split; vm_compute].
  apply ecrecover_bytes in Ek as [Hk Hkl]. split; [done|]. unfold zlen. simpl. lia.
Qed.
(** [BLAKE2F]: the state keeps its 16 words and every index of a round is in
    bounds. *)
Lemma g_ok v a b c d x y :
  (a < length v)%nat -> (b < length v)%nat -> (c < length v)%nat -> (d < length v)%nat ->
  wp False (blake2.g v a b c d x y) (fun v' => length v' = length v).
Proof.
  intros Ha Hb Hc Hd. unfold blake2.g, blake2.at_.
  destruct (lookup_lt_is_Some_2 v a Ha) as [? ->], (lookup_lt_is_Some_2 v b Hb) as [? ->],
    (lookup_lt_is_Some_2 v c Hc) as [? ->], (lookup_lt_is_Some_2 v d Hd) as [? ->].
  simpl. by rewrite !length_insert.
Qed.

Definition steps_ok (steps : list (nat * nat * nat * nat * nat)) : Prop :=
  Forall (fun '(a, b, c, d, k) => a < 16 /\ b < 16 /\ c < 16 /\ d < 16 /\ S k < 16)%nat steps.

Lemma round_ok steps s m v :
  steps_ok steps -> length s = 16%nat -> Forall (fun i => i < 16)%nat s -> length m = 16%nat ->
  length v = 16%nat -> wp False (blake2.round steps s m v) (fun v' => length v' = 16%nat).
Proof.
  intros Hst Hs Hsi Hm. revert v.
  induction Hst as [|[[[[a b] c] d] k] steps (Ha & Hb & Hc & Hd & Hk) Hst IH]; intros v Hv; [done|].
  cbn [blake2.round]. unfold blake2.at_.
  destruct (lookup_lt_is_Some_2 s k) as [s0 E0]; [lia|].
  destruct (lookup_lt_is_Some_2 s (S k)) as [s1 E1]; [lia|]. rewrite E0, E1. cbn [unwrap mbind rust_bind].
  pose proof (Forall_lookup_1 _ _ _ _ Hsi E0). pose proof (Forall_lookup_1 _ _ _ _ Hsi E1). cbv beta in *.
  destruct (lookup_lt_is_Some_2 m s0) as [x ->]; [lia|].
  destruct (lookup_lt_is_Some_2 m s1) as [y ->]; [lia|]. cbn [unwrap mbind rust_bind].
  rewrite wp_bind. eapply wp_mono; [|apply g_ok; lia]. intros v' Hv'. cbv beta in Hv'. apply IH. congruence.
Qed.

Lemma SIGMA_ok i : 0 <= i -> exists s, blake2.SIGMA !! Z.to_nat (i mod 10) = Some s /\
  length s = 16%nat /\ Forall (fun j => j < 16)%nat s.
Proof.
  intros Hi. assert (Hall : Forall (fun s => length s = 16%nat /\ Forall (fun j => j < 16)%nat s)
    blake2.SIGMA) by (repeat constructor; lia).
  destruct (lookup_lt_is_Some_2 blake2.SIGMA (Z.to_nat (i mod 10))) as [s Hs]; [simpl; zlia|].
  exists s. split; [done|]. exact (Forall_lookup_1 _ _ _ _ Hall Hs).
Qed.

Lemma rounds_ok n i m v : 0 <= i -> length m = 16%nat -> length v = 16%nat ->
  wp False (blake2.rounds_from n i m v) (fun v' => length v' = 16%nat).
Proof.
  revert i v. induction n as [|n IH]; intros i v Hi Hm Hv; [done|]. cbn [blake2.rounds_from].
  unfold blake2.at_. destruct (SIGMA_ok i Hi) as (s & -> & Hs & Hsi). cbn [unwrap mbind rust_bind].
  rewrite wp_bind. eapply wp_mono; [|apply round_ok; try done; repeat constructor; lia].
  intros v' Hv'. apply IH; lia || done.
Qed.

Lemma compress_ok rounds h m t0 t1 f : length h = 8%nat -> length m = 16%nat ->
  wp False (blake2.compress rounds h m t0 t1 f) (fun h' => length h' = 8%nat).
Proof.
  intros Hh Hm. unfold blake2.compress. unfold zlen. rewrite Hh.
  rewrite copy_from_slice_val by (unfold zlen; simpl; lia). cbn [mbind rust_bind].
  set (v0 := take _ (replicate 16 0) ++ h ++ _).
  assert (Hv0 : length v0 = 16%nat) by (unfold v0; rewrite splice_length; simpl; lia).
  rewrite copy_from_slice_val by (unfold zlen; simpl; lia). cbn [mbind rust_bind].
  set (v1 := take _ v0 ++ blake2.IV ++ _).
  assert (Hv1 : length v1 = 16%nat) by (unfold v1; rewrite splice_length; simpl; lia).
  rewrite wp_bind. eapply wp_mono; [|apply rounds_ok; [done..|destruct f; by rewrite !length_alter]].
  intros v Hv. cbn [wp]. rewrite !length_zip_with, length_take, length_drop. cbv beta in Hv. lia.
Qed.

Lemma read_words_ok input pos n : 0 <= pos -> pos + 8 * Z.of_nat n <= zlen input ->
  wp False (blake2.read_words input pos n) (fun ws => length ws = n).
Proof.
  revert pos. induction n as [|n IH]; intros pos Hp Hl; [done|]. cbn [blake2.read_words].
  rewrite slice_val by lia. cbn [mbind rust_bind]. rewrite wp_bind.
  eapply wp_mono; [|apply IH; lia]. intros ws Hws. cbv beta in Hws. simpl. lia.
Qed.

Lemma concat_le_bytes ws :
  Forall is_u8 (concat (map blake2.u64_to_le ws)) /\
  length (concat (map blake2.u64_to_le ws)) = (8 * length ws)%nat.
Proof.
  induction ws as [|w ws [IH1 IH2]]; [done|]. cbn [map concat length]. split.
  - apply Forall_app_2; [|done]. apply Forall_reverse, to_be_u8.
  - rewrite length_app, IH2. unfold blake2.u64_to_le. rewrite length_reverse, length_to_be. lia.
Qed.

Lemma blake2_ok : returns_ok blake2.run.
Proof.
  intros input gl Hin Hl Hg. unfold blake2.run, blake2.INPUT_LENGTH, blake2.at_.
  case_if; [done|]. destruct (lookup_lt_is_Some_2 input 212) as [fl ->]; [unfold zlen in *; lia|].
  cbn [unwrap mbind rust_bind]. case_if; [done|].
  destruct (slice_ok input 0 4) as (r & -> & Hr & Hrl); [done|lia..|]. cbn [mbind rust_bind].
  case_if; [done|].
  rewrite wp_bind. eapply wp_mono; [|apply read_words_ok; simpl; lia]. intros h Hh.
  rewrite wp_bind. eapply wp_mono; [|apply read_words_ok; simpl; lia]. intros m Hm.
  rewrite !slice_val by lia. cbn [mbind rust_bind].
  rewrite wp_bind. eapply wp_mono; [|by apply compress_ok]. intros h' Hh'. simpl.
  destruct (concat_le_bytes h') as [H1 H2].
  pose proof (wrap64_range (from_be_bytes r * blake2.F_ROUND)).
  cbv beta in Hh'. split; [rlia|]. split; [done|]. unfold zlen. lia.
Qed.

Lemma field_word input a b : Forall is_u8 input -> a <= b <= a + 32 -> is_u256 (field input a b).
Proof.
  intros Hin Hab. destruct (field_range input a b Hin) as [H0 H1]. specialize (H1 ltac:(lia)).
  assert (256 ^ (b - a) <= 256 ^ 32) by (apply Z.pow_le_mono_r; lia). rlia.
Qed.

Lemma modexp_run_ok min_gas calc_gas :
  0 <= min_gas <= 200 ->
  (forall bl el ml head, 0 <= bl < modexp.u32_max -> 0 <= el < modexp.u32_max ->
    0 <= ml < modexp.u32_max -> is_u256 head -> 0 <= calc_gas bl el ml head) ->
  returns_ok (fun input gas_limit => modexp.run_inner input gas_limit min_gas calc_gas).
Proof.
  intros Hmin Hcalc input gl Hin Hl Hg. rewrite run_inner_spec by done. cbn [wp].
  assert (Hpos : forall a b, 0 <= field input a b) by (intros; by apply field_range).
  case_if; [done|]. case_if; [simpl; split; [lia|by split; vm_compute]|]. case_if; [done|].
  case_if; [done|]. cbn [answer_ok].
  split; [|split; [apply to_be_u8|rewrite zlen_to_be; unfold modexp.u32_max in *; rlia]].
  split; [|lia]. pose proof (Hpos 0 32). pose proof (Hpos 32 64). pose proof (Hpos 64 96).
  apply Hcalc; try (split; [done|lia]). apply field_word; [done|lia].
Qed.

Lemma modexp_ok : returns_ok modexp.byzantium_run /\ returns_ok modexp.berlin_run.
Proof.
  split; apply modexp_run_ok; try lia; intros bl el ml head H1 H2 H3 H4;
    destruct (modexp_prices_spec bl el ml head H1 H2 H3 H4) as [E1 E2];
    [rewrite E1|rewrite E2; lia].
  destruct (iteration_count_spec el head H2 H4) as [_ Hn].
  destruct (mul_complexity_spec (Z.max bl ml)) as [_ Hc]; [lia|].
  apply Z.min_glb; [lia|]. apply Z.div_pos; nia.
Qed.

Section bn.
Context {HB : Bn} {HBS : BnSpec}.

Lemma read_fq_ok input pos : 0 <= pos -> pos + 32 <= zlen input ->
  wp False (bn128.read_fq input pos) (fun _ => True).
Proof. intros. unfold bn128.read_fq. by rewrite slice_val by lia. Qed.

Lemma read_point_ok input pos : 0 <= pos -> pos + 64 <= zlen input ->
  wp False (bn128.read_point input pos) (fun _ => True).
Proof.
  intros Hp Hl. unfold bn128.read_point. rewrite wp_bind.
  eapply wp_mono; [|apply read_fq_ok; lia]. intros [px|] _; [|done]. rewrite wp_bind.
  eapply wp_mono; [|apply read_fq_ok; lia]. by intros [py|] _.
Qed.

Lemma point_bytes_ok p :
  wp False (bn128.point_bytes p) (fun o => Forall is_u8 o /\ zlen o = 64).
Proof.
  unfold bn128.point_bytes. destruct (G1_affine p) as [[x y]|] eqn:E.
  - destruct (affine_bytes p x y E) as [[Hx Hxl] [Hy Hyl]].
    destruct (copy_ok (replicate 64 0) x 0 32) as (o & -> & Ho & Hol);
      [apply replicate_u8|done|lia|rewrite zlen_replicate; lia|unfold zlen; lia|].
    cbn [mbind rust_bind]. rewrite zlen_replicate in Hol.
    destruct (copy_ok o y 32 64) as (o' & -> & Ho' & Hol'); [done..|lia|lia|unfold zlen; lia|].
    simpl. split; [done|lia].
  - cbn [wp]. split; [apply replicate_u8|done].
Qed.

Lemma run_add_ok input :
  wp False (bn128.run_add input) (fun r => forall o, r = inl o -> Forall is_u8 o /\ zlen o = 64).
Proof.
  unfold bn128.run_add, vec_resize, bn128.ADD_INPUT_LEN. case_if; [|lia]. cbn [mbind rust_bind].
  set (i := resize _ 0 input). assert (Hi : zlen i = 128) by (unfold zlen, i; rewrite length_resize; lia).
  rewrite wp_bind. eapply wp_mono; [|apply read_point_ok; lia]. intros [p1|] _; [|done].
  rewrite wp_bind. eapply wp_mono; [|apply read_point_ok; lia]. intros [p2|] _; [|done].
  rewrite wp_bind. eapply wp_mono; [|apply point_bytes_ok]. intros o Ho. simpl. by intros o' [= <-].
Qed.

Lemma run_mul_ok input :
  wp False (bn128.run_mul input) (fun r => forall o, r = inl o -> Forall is_u8 o /\ zlen o = 64).
Proof.
  unfold bn128.run_mul, vec_resize, bn128.MUL_INPUT_LEN. case_if; [|lia]. cbn [mbind rust_bind].
  set (i := resize _ 0 input). assert (Hi : zlen i = 128) by (unfold zlen, i; rewrite length_resize; lia).
  rewrite wp_bind. eapply wp_mono; [|apply read_point_ok; lia]. intros [p|] _; [|done].
  rewrite slice_val by lia. cbn [mbind rust_bind].
  edestruct (Fr_total (take (Z.to_nat (96 - 64)) (drop (Z.to_nat 64) i))) as [fr ->].
  { rewrite length_take, length_drop. unfold zlen in Hi. lia. }
  cbn [unwrap mbind rust_bind].
  rewrite wp_bind. eapply wp_mono; [|apply point_bytes_ok]. intros o Ho. simpl. by intros o' [= <-].
Qed.

Lemma priced_ok price f :
  0 <= price -> (forall input,
    wp False (f input) (fun r => forall o, r = inl o -> Forall is_u8 o /\ zlen o = 64)) ->
  returns_ok (bn128.priced price f).
Proof.
  intros Hp Hf input gl Hin Hl Hg. unfold bn128.priced. case_if; [done|].
  rewrite wp_bind. eapply wp_mono; [|apply Hf]. intros [o|] Ho; [|done]. simpl.
  destruct (Ho o eq_refl) as [H1 H2]. split; [lia|]. split; [done|lia].
Qed.

Lemma read_pair_ok input pos : 0 <= pos -> pos + 192 <= zlen input ->
  wp False (bn128.read_pair input pos) (fun _ => True).
Proof.
  intros Hp Hl. unfold bn128.read_pair.
  do 6 (rewrite wp_bind; eapply wp_mono; [|apply read_fq_ok; lia]; intros [?|] _; [|done]). done.
Qed.

Lemma read_pairs_ok input idx n : 0 <= idx -> (idx + Z.of_nat n) * 192 <= zlen input ->
  wp False (bn128.read_pairs input idx n) (fun _ => True).
Proof.
  revert idx. induction n as [|n IH]; intros idx Hi Hl; [done|]. cbn [bn128.read_pairs].
  unfold bn128.PAIR_ELEMENT_LEN. rewrite wp_bind.
  eapply wp_mono; [|apply read_pair_ok; lia]. intros [p|] _; [|done]. rewrite wp_bind.
  eapply wp_mono; [|apply IH; lia]. done.
Qed.

Lemma run_pair_ok per base : returns_ok (fun input gl => bn128.run_pair input per base gl).
Proof.
  intros input gl Hin Hl Hg. unfold bn128.run_pair, bn128.PAIR_ELEMENT_LEN.
  set (gas := wrap64 _). pose proof (wrap64_range (wrap64 (per * zlen input) / 192 + base)) as Hgas.
  fold gas in Hgas. case_if; [done|]. case_if; [done|]. rewrite wp_bind.
  assert (Hout : forall o : Z, 0 <= gas <= Z.max 200 gl /\ Forall is_u8 (to_be_bytes 32 o) /\
    zlen (to_be_bytes 32 o) <= isize_max).
  { intros o. split; [rlia|]. split; [apply to_be_u8|]. by rewrite zlen_to_be. }
  case_if; [apply Hout|]. rewrite wp_bind. eapply wp_mono; [|apply read_pairs_ok].
  - intros [vals|] _; [apply Hout|done].
  - lia.
  - pose proof (zlen_nonneg input). zlia.
Qed.

Context {HO : Os}.

(** Every entry of every table but the administrator's. *)
Definition entry_ok (p : Precompile) : Prop :=
  match p with Standard f | Custom f => returns_ok f | CustomEnterprise _ => True end.

Lemma extend_ok (m : Precompiles) l :
  map_Forall (fun _ => entry_ok) m -> Forall (fun '(_, p) => entry_ok p) l ->
  map_Forall (fun _ => entry_ok) (extend m l).
Proof.
  intros Hm Hl. unfold extend. revert m Hm. induction Hl as [|[a p] l Hp Hl IH]; intros m Hm; [done|].
  apply IH. by apply map_Forall_insert_2.
Qed.

Lemma tables_ok (spec : PrecompileSpec.t) :
  map_Forall (fun _ => entry_ok) (Precompiles_new spec).
Proof.
  destruct modexp_ok as [Hbyz Hber].
  pose proof (priced_ok 150 _ ltac:(lia) run_add_ok). pose proof (priced_ok 500 _ ltac:(lia) run_add_ok).
  pose proof (priced_ok 6000 _ ltac:(lia) run_mul_ok).
  pose proof (priced_ok 40000 _ ltac:(lia) run_mul_ok).
  pose proof (run_pair_ok 34000 45000). pose proof (run_pair_ok 80000 100000).
  pose proof identity_ok. pose proof sha256_ok. pose proof ripemd160_ok.
  pose proof ecrecover_ok. pose proof blake2_ok.
  assert (Htable1 : map_Forall (fun _ => entry_ok) homestead)
    by (apply extend_ok; [done|by repeat constructor]).
  assert (Htable2 : map_Forall (fun _ => entry_ok) byzantium)
    by (apply extend_ok; [done|by repeat constructor]).
  assert (Htable3 : map_Forall (fun _ => entry_ok) istanbul)
    by (apply extend_ok; [done|by repeat constructor]).
  assert (Htable4 : map_Forall (fun _ => entry_ok) berlin)
    by (apply extend_ok; [done|by repeat constructor]).
  by destruct spec.
Qed.

(** No standard precompile of any fork panics, reads out of bounds or
    fails to return, whatever the input bytes and the gas limit; what it
    charges is at most the gas limit (or 200 gas, for [MODEXP] on empty
    operands, which its caller refuses when it exceeds the limit), and its
    output is a byte string. *)
Theorem standard_precompiles_return (spec : PrecompileSpec.t) (a : Z)
  (f : StandardPrecompileFn) (input : list Z) (gas_limit : Z) :
  Precompiles_new spec !! a = Some (Standard f) ->
  Forall is_u8 input -> zlen input <= isize_max -> is_u64 gas_limit ->
  wp False (f input gas_limit) (answer_ok gas_limit).
Proof. intros Hf. apply (tables_ok spec a _ Hf). Qed.
End bn.
End standard.

(** ** The admin precompile *)
Section admin_spec.
Import admin.
Context {HO : Os}.

(** The call that the administrator may make. *)
Definition authorised (st : Statics) (target_gas : Z) (context : CallContext) : Prop :=
  REQUIRED_GAS st = target_gas /\ cc_caller context = MULTISIG st /\
  cc_scheme context = StaticCall.

Lemma is_multisig_spec st context :
  is_multisig st context = true <->
  cc_caller context = MULTISIG st /\ cc_scheme context = StaticCall.
Proof. unfold is_multisig. by rewrite andb_true_iff, Z.eqb_eq, bool_decide_eq_true. Qed.

Lemma admin_unauthorised i target_gas context st :
  ~ authorised st target_gas context ->
  admin_func_run i target_gas context st =
    Val (inr (if REQUIRED_GAS st =? target_gas then EnterpriseHalt else POutOfGas), st).
Proof.
  intros Hna. unfold admin_func_run.
  destruct (Z.eqb_spec (REQUIRED_GAS st) target_gas) as [Hg|]; cbn [negb]; [|done].
  destruct i as [|k rest]; [done|]. destruct (is_multisig st context) eqn:Hm; [|done].
  apply is_multisig_spec in Hm as [Hc Hs]. by destruct Hna.
Qed.

(** C27: the admin precompile obeys only the multisig: unless the gas limit
    is exactly the required gas, the caller is the configured multisig and
    the call is a static call, it fails and changes none of the process-wide
    settings, whatever the input. *)
Theorem admin_obeys_multisig (i : list Z) (target_gas : Z) (context : CallContext)
  (st : Statics) :
  ~ authorised st target_gas context ->
  exists e, admin_func_run i target_gas context st = Val (inr e, st).
Proof. intros Hna. rewrite admin_unauthorised by done. eauto. Qed.

(** The commands that reload a setting. *)
Definition reload (kind : Z) (x : list Z) : list Z := 2 :: kind :: x.

Lemma admin_command k rest target_gas context st :
  authorised st target_gas context ->
  admin_func_run (2 :: k :: rest) target_gas context st =
  ('(out, st') ← fn_reload_runtime_config (k :: rest) st;
   Val (if out =? 0 then inl (target_gas, [0])
        else if out =? 1 then inl (target_gas, [1]) else inr EnterpriseHalt, st')).
Proof.
  intros (Hg & Hc & Hs). unfold admin_func_run. rewrite Hg, Z.eqb_refl. cbn [negb].
  rewrite (proj2 (is_multisig_spec st context)) by done. done.
Qed.

(** Reloading the multisig installs the 20-byte address and hands
    control over: the new multisig is obeyed and any other caller is
    refused.  A payload of another length panics, which ends the process. *)
Theorem reload_multisig_hands_over (x : list Z) (target_gas : Z) (context : CallContext)
  (st : Statics) :
  authorised st target_gas context ->
  (zlen x = 20 ->
    exists st', admin_func_run (reload 1 x) target_gas context st =
        Val (inl (target_gas, [0]), st') /\
      MULTISIG st' = from_be_bytes x /\ REQUIRED_GAS st' = REQUIRED_GAS st /\
      forall context', authorised st' target_gas context' <->
        cc_caller context' = from_be_bytes x /\ cc_scheme context' = StaticCall) /\
  (zlen x <> 20 -> admin_func_run (reload 1 x) target_gas context st = Panic).
Proof.
  intros Ha. unfold reload. rewrite admin_command by done. destruct Ha as [Hg _].
  unfold fn_reload_runtime_config. cbn [ConfigKind.from_u8 Z.eqb Pos.eqb].
  unfold fn_reload_multisig_address. split; intros Hx.
  - rewrite (proj2 (Z.eqb_eq _ _) Hx). simpl. eexists. split; [done|]. split; [done|].
    split; [done|]. intros c. unfold authorised. simpl. tauto.
  - by rewrite (proj2 (Z.eqb_neq _ _) Hx).
Qed.

Lemma dump_loop_spec fuel x states i :
  0 <= i <= 16 -> i <= zlen x -> zlen states = 256 -> 17 - i <= Z.of_nat fuel ->
  dump_loop fuel x states i = if zlen x <=? 16 then Panic else Undef.
Proof.
  revert states i. induction fuel as [|fuel IH]; intros states i Hi Hx Hs Hf; [lia|].
  cbn [dump_loop]. destruct (Z.leb_spec i (zlen x)); [|lia].
  destruct (Z.leb_spec i 16); [|lia]. cbn [andb].
  destruct (Z.ltb_spec i (zlen x)).
  - destruct (lookup_lt_is_Some_2 x (Z.to_nat i)) as [b ->]; [rlia|]. cbn [unwrap mbind rust_bind].
    destruct (Z.leb_spec (16 * i + 16) (zlen states)).
    + rewrite copy_from_slice_val by (rewrite ?zlen_replicate; lia). cbn [mbind rust_bind].
      apply IH; try lia. unfold zlen in *. rewrite splice_length; rewrite ?length_replicate; lia.
    + destruct (Z.leb_spec (zlen x) 16); [lia|done].
  - cbn [mbind rust_bind]. destruct (Z.leb_spec (zlen x) 16); [done|lia].
Qed.

(** The command that dumps state never returns: a payload of at most 16
    bytes is indexed one past its end (a panic), and a longer one writes a
    seventeenth 16-byte slot into a 256-byte allocation (undefined
    behaviour), for every payload of the authorised caller. *)
Theorem dump_state_never_returns (x : list Z) (target_gas : Z) (context : CallContext)
  (st : Statics) :
  authorised st target_gas context ->
  admin_func_run (reload 4 x) target_gas context st = if zlen x <=? 16 then Panic else Undef.
Proof.
  intros Ha. unfold reload. rewrite admin_command by done.
  unfold fn_reload_runtime_config. cbn [ConfigKind.from_u8 Z.eqb Pos.eqb].
  unfold fn_dump_state. rewrite dump_loop_spec by (rewrite ?zlen_replicate; rlia).
  by destruct (zlen x <=? 16).
Qed.
End admin_spec.

(** ** An instance *)

(** Constant digests and a curve library of one point. *)
#[local] Instance zero_hashes : HashCrates := {
  Sha256_digest _ := replicate 32 0; Ripemd160_digest _ := replicate 20 0;
  recover_ecdsa _ _ := None }.
#[local] Instance zero_hashes_spec : HashCratesSpec.
Proof. by split; intros l; split; [apply replicate_u8| |apply replicate_u8|]. Qed.

#[local] Instance point_bn : Bn := {
  Fq := unit; Fr := unit; G1 := unit; G2 := unit; GT := unit;
  Fq_from_slice _ := Some tt; Fq_is_zero _ := true; Fr_from_slice _ := Some tt;
  G1_zero := tt; AffineG1_new _ _ := Some tt; G1_add _ _ := tt; G1_mul _ _ := tt;
  G1_affine _ := None; G2_zero := tt; AffineG2_new _ _ := Some tt; GT_one := tt;
  GT_mul _ _ := tt; pairing _ _ := tt; GT_is_one _ := true }.
#[local] Instance point_bn_spec : BnSpec.
Proof. by split; [eexists|]. Qed.

#[local] Instance zero_keccak : Crypto := {
  Keccak256_digest _ := 0; rlp_create_stream _ _ := [] }.
#[local] Instance willing_os : Os := { kill_succeeds := true; open_succeeds := true }.

Lemma standard_precompiles_return_witness :
  wp False (identity.identity_run [1; 2; 3] 100) (answer_ok 100) /\
  identity.identity_run [1; 2; 3] 100 = Val (inl (18, [1; 2; 3])).
Proof.
  split; [|by vm_compute].
  apply (standard_precompiles_return PrecompileSpec.BERLIN 4);
    [reflexivity|repeat constructor; rlia|by vm_compute|by vm_compute].
Defined.

Section admin_examples.
Import admin.

Lemma admin_obeys_multisig_witness :
  exists e, admin_func_run [1] 2000 (mkCallContext 1337 0x31337 1337 0 Call) Statics_init =
    Val (inr e, Statics_init).
Proof. apply admin_obeys_multisig. intros (_ & _ & [=]). Defined.

Lemma reload_multisig_hands_over_witness :
  let c := mkCallContext 1337 0x31337 1337 0 StaticCall in
  exists st', admin_func_run (reload 1 (to_be_bytes 20 0xbad)) 2000 c Statics_init =
    Val (inl (2000, [0]), st') /\ MULTISIG st' = 0xbad.
Proof.
  intros c. destruct (reload_multisig_hands_over (to_be_bytes 20 0xbad) 2000 c Statics_init)
    as [H _]; [done|].
  destruct (H eq_refl) as (st' & E & Hm & _). exists st'. split; [exact E|]. by rewrite Hm.
Defined.

Lemma dump_state_never_returns_witness :
  admin_func_run (reload 4 (replicate 17 65)) 2000
    (mkCallContext 1337 0x31337 1337 0 StaticCall) Statics_init = Undef.
Proof.
  apply (dump_state_never_returns (replicate 17 65) 2000
    (mkCallContext 1337 0x31337 1337 0 StaticCall) Statics_init). done.
Defined.
End admin_examples.
