(* ===== verification/Journal.v ===== *)
(** * The journaled state: [revm/src/journaled_state.rs]

    Accounts in use by a transaction, with a journal of changes that lets a
    failed call be undone.  The journal is a list of sets, one per
    checkpoint; entries go to the last set.  [unwrap] on an account that is
    not loaded panics, as in the code. *)

From stdpp Require Import base option list gmap.
From Stdlib Require Import ZArith Lia.
From S2P Require Import Prelude Primitives.

(** ** db.rs: the trait [Database]

    A query may change the database (a cache fills up) and may fail. *)
Class Database (DB : Type) := {
  db_error : Type;
  db_basic : DB -> Z -> (option AccountInfo + db_error) * DB;
  db_code_by_hash : DB -> Z -> (Bytecode + db_error) * DB;
  db_storage : DB -> Z -> Z -> (Z + db_error) * DB;
  db_block_hash : DB -> Z -> (Z + db_error) * DB;
}.

(** ** Data *)

Inductive JournalEntry :=
| AccountLoaded (address : Z)
| AccountDestroyed (address target : Z) (was_destroyed : bool) (had_balance : Z)
| AccountTouched (address : Z)
| BalanceTransfer (from to balance : Z)
| NonceChange (address : Z)
| StorageChange (address key : Z) (had_value : option Z)
| CodeChange (address : Z) (had_code : Bytecode).

Record JournaledState := mkJournaledState {
  js_state : gmap Z Account;
  js_logs : list Log;
  js_depth : Z;
  js_journal : list (list JournalEntry);
  js_is_before_spurious_dragon : bool;
  js_num_of_precompiles : Z;
}.

Record JournalCheckpoint := mkJournalCheckpoint { log_i : Z; journal_i : Z }.

Definition JournaledState_new (num_of_precompiles : Z) : JournaledState :=
  mkJournaledState ∅ [] 0 [[]] false num_of_precompiles.

Definition JournaledState_new_legacy (num_of_precompiles : Z) : JournaledState :=
  mkJournaledState ∅ [] 0 [[]] true num_of_precompiles.

(** Assignments to fields. *)
Definition js_set_state (js : JournaledState) (s : gmap Z Account) : JournaledState :=
  mkJournaledState s (js_logs js) (js_depth js) (js_journal js)
    (js_is_before_spurious_dragon js) (js_num_of_precompiles js).
Definition js_set_journal (js : JournaledState) (j : list (list JournalEntry)) :
  JournaledState :=
  mkJournaledState (js_state js) (js_logs js) (js_depth js) j
    (js_is_before_spurious_dragon js) (js_num_of_precompiles js).
Definition js_set_account (js : JournaledState) (address : Z) (a : Account) : JournaledState :=
  js_set_state js (<[address := a]> (js_state js)).

Definition set_info (a : Account) (i : AccountInfo) : Account :=
  mkAccount i (storage a) (storage_cleared a) (is_destroyed a) (is_touched a)
    (is_not_existing a).
Definition set_storage (a : Account) (s : gmap Z StorageSlot) : Account :=
  mkAccount (info a) s (storage_cleared a) (is_destroyed a) (is_touched a)
    (is_not_existing a).
Definition set_touched (a : Account) (t : bool) : Account :=
  mkAccount (info a) (storage a) (storage_cleared a) (is_destroyed a) t (is_not_existing a).
Definition set_destroyed (a : Account) (d : bool) : Account :=
  mkAccount (info a) (storage a) (storage_cleared a) d (is_touched a) (is_not_existing a).
Definition set_balance (a : Account) (b : Z) : Account :=
  set_info a (mkAccountInfo b (nonce (info a)) (code_hash (info a)) (code (info a))).
Definition set_nonce (a : Account) (n : Z) : Account :=
  set_info a (mkAccountInfo (balance (info a)) n (code_hash (info a)) (code (info a))).
Definition set_code_fields (a : Account) (hash : Z) (c : option Bytecode) : Account :=
  set_info a (mkAccountInfo (balance (info a)) (nonce (info a)) hash c).

(** [self.journal.last_mut().unwrap().push(e)] *)
Definition push_entry (js : JournaledState) (e : JournalEntry) : rust JournaledState :=
  match last (js_journal js) with
  | Some l =>
      Val (js_set_journal js
        (take (length (js_journal js) - 1) (js_journal js) ++ [l ++ [e]]))
  | None => Panic
  end.

(** [self.state.get_mut(&address).unwrap()] *)
Definition get_account (js : JournaledState) (address : Z) : rust Account :=
  unwrap (js_state js !! address).

Definition touch_account (js : JournaledState) (address : Z) (account : Account) :
  rust (JournaledState * Account) :=
  if negb (is_touched account) then
    js ← push_entry js (AccountTouched address); Val (js, set_touched account true)
  else Val (js, account).

Definition is_precompile (address num_of_precompiles : Z) : bool :=
  let bytes := to_be_bytes 20 address in
  if negb (forallb (fun b => b =? 0) (take 18 bytes)) then false
  else
    let num := from_be_bytes (drop 18 bytes) in
    (num - 1) mod 65536 <? num_of_precompiles mod 65536.

Section operations.
Context {DB : Type} {HDB : Database DB}.

Definition touch (js : JournaledState) (address : Z) : rust JournaledState :=
  match js_state js !! address with
  | Some account =>
      '(js, account) ← touch_account js address account;
      Val (js_set_account js address account)
  | None => Val js
  end.

Definition finalize (js : JournaledState) : gmap Z Account * list Log * JournaledState :=
  (filter (fun '(_, a) => is_touched a = true) (js_state js), js_logs js,
   mkJournaledState ∅ [] 0 [[]] (js_is_before_spurious_dragon js) (js_num_of_precompiles js)).

Definition account (js : JournaledState) (address : Z) : rust Account :=
  get_account js address.

Definition set_code (js : JournaledState) (address : Z) (c : Bytecode) : rust JournaledState :=
  a ← get_account js address;
  '(js, a) ← touch_account js address a;
  js ← push_entry js (CodeChange address c);
  Val (js_set_account js address (set_code_fields a (bc_hash c) (Some c))).

Definition inc_nonce (js : JournaledState) (address : Z) : rust (option Z * JournaledState) :=
  a ← get_account js address;
  if nonce (info a) =? u64_max then Val (None, js)
  else
    '(js, a) ← touch_account js address a;
    js ← push_entry js (NonceChange address);
    let a := set_nonce a (wrap64 (nonce (info a) + 1)) in
    Val (Some (nonce (info a)), js_set_account js address a).

(** Results of fallible operations: [inl] is [Ok], [inr] is [Err]. *)
Definition load_account (js : JournaledState) (address : Z) (db : DB) :
  rust ((Account * bool + db_error) * JournaledState * DB) :=
  match js_state js !! address with
  | Some a => Val (inl (a, false), js, db)
  | None =>
      match db_basic db address with
      | (inr e, db) => Val (inr e, js, db)
      | (inl o, db) =>
          let a := match o with Some i => Account_from i | None => Account_new_not_existing end in
          js ← push_entry js (AccountLoaded address);
          let is_cold := negb (is_precompile address (js_num_of_precompiles js)) in
          Val (inl (a, is_cold), js_set_account js address a, db)
      end
  end.

Definition load_code (js : JournaledState) (address : Z) (db : DB) :
  rust ((Account * bool + db_error) * JournaledState * DB) :=
  '(r, js, db) ← load_account js address db;
  match r with
  | inr e => Val (inr e, js, db)
  | inl (a, is_cold) =>
      match code (info a) with
      | Some _ => Val (inl (a, is_cold), js, db)
      | None =>
          if code_hash (info a) =? KECCAK_EMPTY then
            let a := set_code_fields a (code_hash (info a)) (Some Bytecode_new) in
            Val (inl (a, is_cold), js_set_account js address a, db)
          else
            match db_code_by_hash db (code_hash (info a)) with
            | (inr e, db) => Val (inr e, js, db)
            | (inl c, db) =>
                let a := set_code_fields a (code_hash (info a)) (Some c) in
                Val (inl (a, is_cold), js_set_account js address a, db)
            end
      end
  end.

Definition load_account_exist (js : JournaledState) (address : Z) (db : DB) :
  rust ((bool * bool + db_error) * JournaledState * DB) :=
  let is_before_spurious_dragon := js_is_before_spurious_dragon js in
  '(r, js, db) ← load_code js address db;
  match r with
  | inr e => Val (inr e, js, db)
  | inl (acc, is_cold) =>
      let exist_ :=
        if is_before_spurious_dragon then negb (is_not_existing acc) || is_touched acc
        else negb (Account_is_empty acc) in
      Val (inl (is_cold, exist_), js, db)
  end.

Definition transfer (js : JournaledState) (from to value : Z) (db : DB) :
  rust ((bool * bool + InstructionResult) * JournaledState * DB) :=
  '(r1, js, db) ← load_account js from db;
  match r1 with
  | inr _ => Val (inr FatalExternalError, js, db)
  | inl (_, from_is_cold) =>
      '(r2, js, db) ← load_account js to db;
      match r2 with
      | inr _ => Val (inr FatalExternalError, js, db)
      | inl (_, to_is_cold) =>
          from_account ← get_account js from;
          '(js, from_account) ← touch_account js from from_account;
          match u256_checked_sub (balance (info from_account)) value with
          | None => Val (inr OutOfFund, js_set_account js from from_account, db)
          | Some b =>
              let js := js_set_account js from (set_balance from_account b) in
              to_account ← get_account js to;
              '(js, to_account) ← touch_account js to to_account;
              match u256_checked_add (balance (info to_account)) value with
              | None => Val (inr OverflowPayment, js_set_account js to to_account, db)
              | Some b =>
                  let js := js_set_account js to (set_balance to_account b) in
                  js ← push_entry js (BalanceTransfer from to value);
                  Val (inl (from_is_cold, to_is_cold), js, db)
              end
          end
      end
  end.

Definition create_account (js : JournaledState) (address : Z) (is_precompile : bool) (db : DB) :
  rust ((bool + db_error) * JournaledState * DB) :=
  '(r, js, db) ← load_code js address db;
  match r with
  | inr e => Val (inr e, js, db)
  | inl (acc, _) =>
      if match code (info acc) with Some c => negb (Bytecode_is_empty c) | None => false end
      then Val (inl false, js, db)
      else if negb (nonce (info acc) =? 0) then Val (inl false, js, db)
      else if is_precompile then Val (inl false, js, db)
      else
        let acc := mkAccount
          (mkAccountInfo (balance (info acc)) (nonce (info acc)) KECCAK_EMPTY None)
          ((fun _ => StorageSlot_default) <$> storage acc) true
          (is_destroyed acc) (is_touched acc) (is_not_existing acc) in
        '(js, acc) ← touch_account js address acc;
        Val (inl true, js_set_account js address acc, db)
  end.

(** ** Reverting *)

Definition PRECOMPILE3 : Z := 3.

(** Undo one entry. *)
Definition revert_entry (state : gmap Z Account) (is_spurious_dragon_enabled : bool)
  (e : JournalEntry) : rust (gmap Z Account) :=
  match e with
  | AccountLoaded address =>
      if is_spurious_dragon_enabled && (address =? PRECOMPILE3) then Val state
      else Val (delete address state)
  | AccountTouched address =>
      if is_spurious_dragon_enabled && (address =? PRECOMPILE3) then Val state
      else a ← unwrap (state !! address); Val (<[address := set_touched a false]> state)
  | AccountDestroyed address target was_destroyed had_balance =>
      a ← unwrap (state !! address);
      let state := <[address :=
        set_balance (set_destroyed a was_destroyed)
          (wrap256 (balance (info a) + had_balance))]> state in
      if negb (address =? target) then
        t ← unwrap (state !! target);
        Val (<[target := set_balance t (wrap256 (balance (info t) - had_balance))]> state)
      else Val state
  | BalanceTransfer from to value =>
      f ← unwrap (state !! from);
      let state := <[from := set_balance f (wrap256 (balance (info f) + value))]> state in
      t ← unwrap (state !! to);
      Val (<[to := set_balance t (wrap256 (balance (info t) - value))]> state)
  | NonceChange address =>
      a ← unwrap (state !! address);
      Val (<[address := set_nonce a (wrap64 (nonce (info a) - 1))]> state)
  | StorageChange address key had_value =>
      a ← unwrap (state !! address);
      match had_value with
      | Some v =>
          slot ← unwrap (storage a !! key);
          Val (<[address := set_storage a
            (<[key := mkStorageSlot (original_value slot) v]> (storage a))]> state)
      | None => Val (<[address := set_storage a (delete key (storage a))]> state)
      end
  | CodeChange address had_code =>
      a ← unwrap (state !! address);
      Val (<[address := set_code_fields a (bc_hash had_code) (Some had_code)]> state)
  end.

(** [journal_revert]: the entries in reverse order. *)
Fixpoint revert_all (state : gmap Z Account) (spurious : bool) (es : list JournalEntry) :
  rust (gmap Z Account) :=
  match es with
  | [] => Val state
  | e :: es => state ← revert_entry state spurious e; revert_all state spurious es
  end.

Definition journal_revert (state : gmap Z Account) (journal_entries : list JournalEntry)
  (is_spurious_dragon_enabled : bool) : rust (gmap Z Account) :=
  revert_all state is_spurious_dragon_enabled (reverse journal_entries).

Definition checkpoint (js : JournaledState) : JournalCheckpoint * JournaledState :=
  (mkJournalCheckpoint (zlen (js_logs js)) (zlen (js_journal js)),
   mkJournaledState (js_state js) (js_logs js) (wrap64 (js_depth js + 1))
     (js_journal js ++ [[]]) (js_is_before_spurious_dragon js) (js_num_of_precompiles js)).

Definition checkpoint_commit (js : JournaledState) : JournaledState :=
  mkJournaledState (js_state js) (js_logs js) (wrap64 (js_depth js - 1)) (js_journal js)
    (js_is_before_spurious_dragon js) (js_num_of_precompiles js).

(** [iter_mut().rev().take(n).for_each(..)] over the sets. *)
Fixpoint revert_sets (state : gmap Z Account) (spurious : bool)
  (sets : list (list JournalEntry)) : rust (gmap Z Account) :=
  match sets with
  | [] => Val state
  | cs :: sets => state ← journal_revert state cs spurious; revert_sets state spurious sets
  end.

Definition checkpoint_revert (js : JournaledState) (c : JournalCheckpoint) :
  rust JournaledState :=
  let is_spurious_dragon_enabled := negb (js_is_before_spurious_dragon js) in
  let leng := zlen (js_journal js) in
  state ← revert_sets (js_state js) is_spurious_dragon_enabled
    (take (Z.to_nat (wrap64 (leng - journal_i c))) (reverse (js_journal js)));
  Val (mkJournaledState state (take (Z.to_nat (log_i c)) (js_logs js))
    (wrap64 (js_depth js - 1)) (take (Z.to_nat (journal_i c)) (js_journal js))
    (js_is_before_spurious_dragon js) (js_num_of_precompiles js)).

(** ** Storage, self-destruction, logs *)

Definition selfdestruct (js : JournaledState) (address target : Z) (db : DB) :
  rust ((SelfDestructResult + db_error) * JournaledState * DB) :=
  '(r, js, db) ← load_account_exist js target db;
  match r with
  | inr e => Val (inr e, js, db)
  | inl (is_cold, target_exists) =>
      acc ← get_account js address;
      let balance_ := balance (info acc) in
      let previously_destroyed := is_destroyed acc in
      let js := js_set_account js address (set_destroyed (set_balance acc 0) true) in
      js ← (if negb (address =? target) then
              t ← get_account js target;
              '(js, t) ← touch_account js target t;
              Val (js_set_account js target
                (set_balance t (wrap256 (balance (info t) + balance_))))
            else Val js);
      js ← push_entry js (AccountDestroyed address target previously_destroyed balance_);
      Val (inl (mkSelfDestructResult (negb (balance_ =? 0)) target_exists is_cold
                  previously_destroyed), js, db)
  end.

Definition sload (js : JournaledState) (address key : Z) (db : DB) :
  rust ((Z * bool + db_error) * JournaledState * DB) :=
  a ← get_account js address;
  match storage a !! key with
  | Some slot => Val (inl (present_value slot, false), js, db)
  | None =>
      let '(v, db) := if storage_cleared a then (inl 0, db) else db_storage db address key in
      match v with
      | inr e => Val (inr e, js, db)
      | inl value =>
          js ← push_entry js (StorageChange address key None);
          Val (inl (value, true),
            js_set_account js address
              (set_storage a (<[key := StorageSlot_new value]> (storage a))), db)
      end
  end.

Definition sstore (js : JournaledState) (address key new : Z) (db : DB) :
  rust ((Z * Z * Z * bool + db_error) * JournaledState * DB) :=
  '(r, js, db) ← sload js address key db;
  match r with
  | inr e => Val (inr e, js, db)
  | inl (present, is_cold) =>
      acc ← get_account js address;
      slot ← unwrap (storage acc !! key);
      if present =? new then Val (inl (original_value slot, present, new, is_cold), js, db)
      else
        js ← push_entry js (StorageChange address key (Some present));
        Val (inl (original_value slot, present, new, is_cold),
          js_set_account js address (set_storage acc
            (<[key := mkStorageSlot (original_value slot) new]> (storage acc))), db)
  end.

Definition log (js : JournaledState) (l : Log) : JournaledState :=
  mkJournaledState (js_state js) (js_logs js ++ [l]) (js_depth js) (js_journal js)
    (js_is_before_spurious_dragon js) (js_num_of_precompiles js).

End operations.
