(* ===== verification/JournalRevert.v ===== *)
(** * Reverting a checkpoint restores the state

    The journal's promise: whatever the operations between a checkpoint and
    its revert did, nested commits and reverts included, the accounts are as
    they were (up to bytecode that was merely cached), the logs are cut back
    and so is the journal itself. *)

From stdpp Require Import base option list gmap.
From Stdlib Require Import ZArith Lia.
From S2P Require Import Prelude Primitives Gas Opcode Analysis Journal.

(** ** States up to cached bytecode

    [load_code] fills in [info.code] without journaling it; the code hash
    determines it. *)
Definition erase_code (a : Account) : Account :=
  set_code_fields a (code_hash (info a)) None.
Definition erase (s : gmap Z Account) : gmap Z Account := erase_code <$> s.
Definition state_equiv (s t : gmap Z Account) : Prop := erase s = erase t.
Infix "≅" := state_equiv (at level 70).

#[export] Instance state_equiv_equivalence : Equivalence state_equiv.
Proof. split; red; unfold state_equiv; congruence. Qed.

(** Two results with equivalent states. *)
Definition rust_rel {A : Type} (R : A -> A -> Prop) (m n : rust A) : Prop :=
  match m, n with
  | Val a, Val b => R a b
  | Panic, Panic | Undef, Undef | Diverge, Diverge => True
  | _, _ => False
  end.

Lemma state_equiv_lookup (s t : gmap Z Account) (a : Z) :
  s ≅ t -> (erase_code <$> s !! a) = (erase_code <$> t !! a).
Proof.
  unfold state_equiv, erase. intros H. rewrite <- !lookup_fmap. by rewrite H.
Qed.

#[export] Instance insert_proper (a : Z) :
  Proper (((fun x y => erase_code x = erase_code y) : relation Account) ==>
          state_equiv ==> state_equiv) (fun x s => <[a := x]> s).
Proof.
  intros x y Hxy s t Hst. unfold state_equiv, erase in *. rewrite !fmap_insert. congruence.
Qed.

Lemma insert_equiv (s t : gmap Z Account) (a : Z) (x y : Account) :
  erase_code x = erase_code y -> s ≅ t -> <[a := x]> s ≅ <[a := y]> t.
Proof. intros Hxy Hst. by apply (insert_proper a x y Hxy s t Hst). Qed.

Lemma erase_fields (x y : Account) : erase_code x = erase_code y ->
  balance (info x) = balance (info y) /\ nonce (info x) = nonce (info y) /\
  code_hash (info x) = code_hash (info y) /\ storage x = storage y /\
  storage_cleared x = storage_cleared y /\ is_destroyed x = is_destroyed y /\
  is_touched x = is_touched y /\ is_not_existing x = is_not_existing y.
Proof. destruct x as [[]], y as [[]]. unfold erase_code. simpl. intros. by simplify_eq/=. Qed.

Lemma erase_intro (x y : Account) :
  balance (info x) = balance (info y) -> nonce (info x) = nonce (info y) ->
  code_hash (info x) = code_hash (info y) -> storage x = storage y ->
  storage_cleared x = storage_cleared y -> is_destroyed x = is_destroyed y ->
  is_touched x = is_touched y -> is_not_existing x = is_not_existing y ->
  erase_code x = erase_code y.
Proof. destruct x as [[]], y as [[]]. unfold erase_code, set_code_fields, set_info. simpl.
  intros. by subst. Qed.

(** Reading an account in one of two equivalent states. *)
Ltac equiv_lookup H a :=
  let L := fresh "L" in
  pose proof (state_equiv_lookup _ _ a H) as L;
  lazymatch type of H with ?s ≅ ?t =>
    destruct (s !! a) as [?x|] eqn:?, (t !! a) as [?y|] eqn:?
  end; simpl in L; try discriminate L; [apply (inj Some) in L|].
Ltac erase_eq :=
  repeat match goal with
  | H : erase_code _ = erase_code _ |- _ => apply erase_fields in H; destruct_and! H
  end; apply erase_intro; simpl; congruence.

#[export] Instance revert_entry_proper :
  Proper (state_equiv ==> eq ==> eq ==> rust_rel state_equiv) revert_entry.
Proof.
  intros s t Hst sp ? <- e ? <-. destruct e; simpl.
  - case_if; [done|]. unfold rust_rel, state_equiv, erase in *. rewrite !fmap_delete. congruence.
  - equiv_lookup Hst address; simpl; [|done].
    assert (Hst' : <[address := set_balance (set_destroyed x was_destroyed)
        (wrap256 (balance (info x) + had_balance))]> s ≅
      <[address := set_balance (set_destroyed y was_destroyed)
        (wrap256 (balance (info y) + had_balance))]> t).
    { apply insert_equiv; [erase_eq|done]. }
    case_if; [|done]. equiv_lookup Hst' target; simpl; [|done].
    apply insert_equiv; [erase_eq|done].
  - case_if; [done|]. equiv_lookup Hst address; simpl; [|done].
    apply insert_equiv; [erase_eq|done].
  - equiv_lookup Hst from; simpl; [|done].
    assert (Hst' : <[from := set_balance x (wrap256 (Primitives.balance (info x) + balance))]> s ≅
      <[from := set_balance y (wrap256 (Primitives.balance (info y) + balance))]> t).
    { apply insert_equiv; [erase_eq|done]. }
    equiv_lookup Hst' to; simpl; [|done]. apply insert_equiv; [erase_eq|done].
  - equiv_lookup Hst address; simpl; [|done]. apply insert_equiv; [erase_eq|done].
  - equiv_lookup Hst address; simpl; [|done].
    pose proof (erase_fields _ _ L) as (_ & _ & _ & Hs & _).
    destruct had_value as [v|]; simpl.
    + rewrite Hs. destruct (storage y !! key); simpl; [|done].
      apply insert_equiv; [erase_eq|done].
    + apply insert_equiv; [erase_eq|done].
  - equiv_lookup Hst address; simpl; [|done]. apply insert_equiv; [erase_eq|done].
Qed.

Lemma revert_all_proper (s t : gmap Z Account) (sp : bool) (es : list JournalEntry) :
  s ≅ t -> rust_rel state_equiv (revert_all s sp es) (revert_all t sp es).
Proof.
  revert s t. induction es as [|e es IH]; intros s t Hst; [done|]. simpl.
  pose proof (revert_entry_proper s t Hst sp sp eq_refl e e eq_refl) as H.
  destruct (revert_entry s sp e), (revert_entry t sp e); try done. simpl in *. by apply IH.
Qed.

Lemma revert_all_app (s : gmap Z Account) (sp : bool) (es fs : list JournalEntry) :
  revert_all s sp (es ++ fs) = (t ← revert_all s sp es; revert_all t sp fs).
Proof.
  revert s. induction es as [|e es IH]; intros s; [done|]. simpl.
  destruct (revert_entry s sp e); [apply IH|done..].
Qed.

(** Reverting the sets from the last to the first reverts all their entries
    from the last to the first. *)
Lemma revert_sets_concat (s : gmap Z Account) (sp : bool) (sets : list (list JournalEntry)) :
  revert_sets s sp (reverse sets) = revert_all s sp (reverse (concat sets)).
Proof.
  revert s. induction sets as [|cs sets IH] using rev_ind; intros s; [done|].
  rewrite reverse_snoc, concat_app, reverse_app, revert_all_app. simpl. rewrite app_nil_r.
  unfold journal_revert. destruct (revert_all s sp (reverse cs)); simpl; [apply IH|done..].
Qed.

(** ** Extending the journal

    [jext js js' es]: from [js] to [js'] the entries [es] were appended to
    the journal (to its last set and possibly to new ones), logs were
    appended, and undoing [es] leads back. *)

Abbreviation spurious js := (negb (js_is_before_spurious_dragon js)).

Definition undoes (js' js : JournaledState) (es : list JournalEntry) : Prop :=
  exists s, revert_all (js_state js') (spurious js') (reverse es) = Val s /\ s ≅ js_state js.

Definition is_code_change (e : JournalEntry) : bool :=
  match e with CodeChange _ _ => true | _ => false end.

Record jext (js js' : JournaledState) (es : list JournalEntry) : Prop := mkJext {
  jext_journal : exists front l e0 more,
    js_journal js = front ++ [l] /\ js_journal js' = front ++ [l ++ e0] ++ more /\
    es = e0 ++ concat more;
  jext_logs : exists ls, js_logs js' = js_logs js ++ ls;
  jext_fork : js_is_before_spurious_dragon js' = js_is_before_spurious_dragon js;
  jext_precompiles : js_num_of_precompiles js' = js_num_of_precompiles js;
  jext_depth : js_depth js' = js_depth js;
  jext_undo : undoes js' js es;
  jext_no_code : Forall (fun e => is_code_change e = false) es;
}.

Definition has_journal (js : JournaledState) : Prop := js_journal js <> [].

Lemma has_journal_snoc (js : JournaledState) :
  has_journal js -> exists front l, js_journal js = front ++ [l].
Proof.
  unfold has_journal. destruct (js_journal js) as [|l front _] using rev_ind; [done|eauto].
Qed.

Lemma jext_refl (js : JournaledState) : has_journal js -> jext js js [].
Proof.
  intros Hj. destruct (has_journal_snoc js Hj) as (front & l & E). constructor; try done.
  - exists front, l, [], []. by rewrite !app_nil_r.
  - exists []. by rewrite app_nil_r.
  - by exists (js_state js).
Qed.

Lemma jext_has_journal (js js' : JournaledState) (es : list JournalEntry) :
  jext js js' es -> has_journal js /\ has_journal js'.
Proof.
  intros [(front & l & e0 & more & E & E' & _) _ _ _ _ _ _]. unfold has_journal.
  rewrite E, E'. split; intros H; destruct front; discriminate H.
Qed.

Lemma jext_trans (js1 js2 js3 : JournaledState) (es fs : list JournalEntry) :
  jext js1 js2 es -> jext js2 js3 fs -> jext js1 js3 (es ++ fs).
Proof.
  intros [(f1 & l1 & e1 & m1 & E1 & E2 & ->) [ls1 Hl1] Hf1 Hp1 Hd1 (s1 & Hu1 & Hs1) Hc1].
  intros [(f2 & l2 & e2 & m2 & E3 & E4 & ->) [ls2 Hl2] Hf2 Hp2 Hd2 (s2 & Hu2 & Hs2) Hc2].
  constructor; try congruence.
  - destruct m1 as [|x m1 _] using rev_ind.
    + rewrite app_nil_r in E2. rewrite E2 in E3. apply app_inj_tail in E3 as [-> <-].
      exists f2, l1, (e1 ++ e2), m2. simpl. rewrite app_nil_r, E4. simpl.
      by rewrite !app_assoc.
    + rewrite E2, !app_assoc in E3. apply app_inj_tail in E3 as [<- <-].
      exists f1, l1, e1, (m1 ++ [x ++ e2] ++ m2). split; [done|]. split.
      * rewrite E4. by rewrite !app_assoc.
      * rewrite !concat_app. simpl. by rewrite ?app_nil_r, <- ?app_assoc.
  - exists (ls1 ++ ls2). by rewrite Hl2, Hl1, app_assoc.
  - unfold undoes. rewrite reverse_app, revert_all_app, Hu2. simpl.
    pose proof (revert_all_proper s2 (js_state js2) (spurious js3)
      (reverse (e1 ++ concat m1)) Hs2) as Hp.
    rewrite Hf2 in Hp |- *. rewrite Hu1 in Hp.
    destruct (revert_all s2 _ _) as [s| | |]; try done. exists s. split; [done|].
    by etransitivity.
  - by apply Forall_app.
Qed.

(** Changing only the state, up to cached code. *)
Lemma jext_state (js : JournaledState) (s : gmap Z Account) :
  has_journal js -> s ≅ js_state js -> jext js (js_set_state js s) [].
Proof.
  intros Hj Hs. destruct (jext_refl js Hj). constructor; try done. by exists s.
Qed.

Lemma push_entry_val (js js' : JournaledState) (e : JournalEntry) :
  push_entry js e = Val js' -> has_journal js /\
  exists front l, js_journal js = front ++ [l] /\ js' = js_set_journal js (front ++ [l ++ [e]]).
Proof.
  unfold push_entry, has_journal. destruct (js_journal js) as [|l front _] using rev_ind; [done|].
  rewrite last_snoc. intros [= <-]. split; [by destruct front|]. exists front, l.
  split; [done|]. rewrite length_app. simpl.
  replace (length front + 1 - 1)%nat with (length front) by lia.
  by rewrite take_app_length.
Qed.

(** Pushing one entry with the state change it undoes. *)
Lemma jext_push (js js1 : JournaledState) (e : JournalEntry) (s s' : gmap Z Account) :
  push_entry js e = Val js1 -> is_code_change e = false ->
  revert_entry s (spurious js) e = Val s' -> s' ≅ js_state js ->
  jext js (js_set_state js1 s) [e].
Proof.
  intros Hp Hnc Hr Hs. apply push_entry_val in Hp as (Hj & front & l & E & ->).
  constructor; try done.
  - exists front, l, [e], []. simpl. rewrite E. done.
  - exists []. by rewrite app_nil_r.
  - exists s'. simpl. rewrite Hr. done.
  - by repeat constructor.
Qed.

(** ** Well-formed accounts and databases *)

(** Bytecode small enough for its padding, with a hash in range. *)
Definition fit_bytecode (c : Bytecode) : Prop :=
  (wf_bytecode c /\ zlen (bc_bytecode c) + 33 <= isize_max) /\ is_u256 (bc_hash c).

Definition info_wf (i : AccountInfo) : Prop :=
  is_u256 (balance i) /\ is_u64 (nonce i) /\ is_u256 (code_hash i) /\
  forall c, code i = Some c -> fit_bytecode c.

Definition account_wf (a : Account) : Prop :=
  info_wf (info a) /\
  forall k s, storage a !! k = Some s -> is_u256 (original_value s) /\ is_u256 (present_value s).

Definition state_wf (s : gmap Z Account) : Prop := map_Forall (fun _ => account_wf) s.

(** What the code relies on of a database: answers are within their types,
    and whatever invariant [ok] it has is kept. *)
Class DatabaseSpec {DB : Type} {HDB : Database DB} (ok : DB -> Prop) : Prop := {
  db_basic_ok db a : ok db ->
    ok (db_basic db a).2 /\ forall i, (db_basic db a).1 = inl (Some i) -> info_wf i;
  db_code_ok db c : ok db ->
    ok (db_code_by_hash db c).2 /\
    forall b, (db_code_by_hash db c).1 = inl b -> fit_bytecode b;
  db_storage_ok db a k : ok db ->
    ok (db_storage db a k).2 /\ forall v, (db_storage db a k).1 = inl v -> is_u256 v;
  db_block_hash_ok db n : ok db ->
    ok (db_block_hash db n).2 /\ forall v, (db_block_hash db n).1 = inl v -> is_u256 v;
}.

Lemma bytecode_new_wf : fit_bytecode Bytecode_new.
Proof.
  split; [split; [|by vm_compute]|by vm_compute].
  split; [repeat constructor; rlia|]. simpl. split; [by vm_compute|].
  split; [apply wf_code_stop|]. split; [simpl; lia|]. intros i Hi.
  unfold JumpMap_is_valid. rewrite lookup_nil, andb_false_r. split; [done|].
  intros [_ Hj]. apply list_lookup_singleton_Some in Hj as [_ Hj]. done.
Qed.

Lemma new_account_wf (o : option AccountInfo) :
  (forall i, o = Some i -> info_wf i) ->
  account_wf (match o with Some i => Account_from i | None => Account_new_not_existing end).
Proof.
  intros Ho. destruct o as [i|]; (split; [|intros k s Hs; by destruct (lookup_empty_Some k s)]).
  - by apply Ho.
  - split; [by vm_compute|]. split; [by vm_compute|]. split; [by vm_compute|].
    intros c [= <-]. apply bytecode_new_wf.
Qed.

Section operations.
Context {DB : Type} {HDB : Database DB} (db_ok : DB -> Prop) {HS : DatabaseSpec db_ok}.

(** The address of a precompile that reverts leave loaded and touched after
    Spurious Dragon is set aside. *)
Definition revertible (js : JournaledState) (a : Z) : Prop :=
  spurious js && (a =? PRECOMPILE3) = false.

(** What every operation on a well-formed state guarantees. *)
Record jpost (js js' : JournaledState) (db' : DB) : Prop := mkJpost {
  jp_ext : exists es, jext js js' es;
  jp_wf : state_wf (js_state js');
  jp_db : db_ok db';
  jp_loaded : dom (js_state js) ⊆ dom (js_state js');
}.

Lemma jpost_trans js1 js2 js3 db2 db3 :
  jpost js1 js2 db2 -> jpost js2 js3 db3 -> jpost js1 js3 db3.
Proof.
  intros [[es1 H1] _ _ Hd1] [[es2 H2] Hw Hdb Hd2]. constructor; try done.
  - exists (es1 ++ es2). by eapply jext_trans.
  - set_solver.
Qed.

Lemma jpost_revertible js js' db' a : jpost js js' db' -> revertible js a -> revertible js' a.
Proof. intros [[es Hx] _ _ _]. unfold revertible. by rewrite (jext_fork _ _ _ Hx). Qed.

Lemma jpost_has_journal js js' db' : jpost js js' db' -> has_journal js'.
Proof. intros [[es Hx] _ _ _]. by apply jext_has_journal in Hx as [_ ?]. Qed.

Lemma jpost_refl js db : has_journal js -> state_wf (js_state js) -> db_ok db -> jpost js js db.
Proof. intros Hj Hw Hd. constructor; try done. exists []. by apply jext_refl. Qed.

Lemma push_entry_ok js e : has_journal js -> exists js1, push_entry js e = Val js1 /\
  js_state js1 = js_state js.
Proof.
  intros Hj. destruct (has_journal_snoc js Hj) as (front & l & E). unfold push_entry.
  rewrite E, last_snoc. by eexists.
Qed.

(** Pushing an entry together with the change it undoes. *)
Lemma jpost_push_state js js1 db e st s' :
  push_entry js e = Val js1 -> db_ok db -> state_wf st -> dom (js_state js) ⊆ dom st ->
  is_code_change e = false -> revert_entry st (spurious js) e = Val s' -> s' ≅ js_state js ->
  jpost js (js_set_state js1 st) db.
Proof.
  intros Hp Hdb Hw Hd Hnc Hr Hs. constructor; try done. exists [e]. by eapply jext_push.
Qed.

Lemma jpost_push js js1 db e a x s' :
  push_entry js e = Val js1 -> db_ok db -> state_wf (js_state js) ->
  is_code_change e = false -> account_wf x ->
  revert_entry (<[a := x]> (js_state js)) (spurious js) e = Val s' -> s' ≅ js_state js ->
  jpost js (js_set_account js1 a x) db.
Proof.
  intros Hp Hdb Hw Hnc Hx Hr Hs. pose proof (push_entry_val _ _ _ Hp) as (_ & front & l & E & Hj1).
  assert (Hst : js_state js1 = js_state js) by (by rewrite Hj1).
  unfold js_set_account. rewrite Hst. eapply jpost_push_state; try done.
  - by apply map_Forall_insert_2.
  - set_solver.
Qed.

Lemma load_account_ok js a db :
  has_journal js -> state_wf (js_state js) -> db_ok db -> revertible js a ->
  wp False (load_account js a db) (fun '(r, js', db') =>
    jpost js js' db' /\ forall x c, r = inl (x, c) -> js_state js' !! a = Some x).
Proof.
  intros Hj Hw Hdb Hr. unfold load_account.
  destruct (js_state js !! a) as [x|] eqn:E; simpl.
  - split; [by apply jpost_refl|]. intros. by simplify_eq.
  - destruct (db_basic_ok db a Hdb) as [Hdb' Hi].
    destruct (db_basic db a) as [[o|err] db']; simpl in *; [|by split; [apply jpost_refl|]].
    destruct (push_entry_ok js (AccountLoaded a) Hj) as (js1 & Hp & Hs1). rewrite Hp. simpl.
    split; [|intros; simplify_eq; simpl; by rewrite lookup_insert_eq].
    eapply jpost_push; [done|done|done|done| | |].
    + apply new_account_wf. intros i ->. by apply Hi.
    + simpl. unfold revertible in Hr. rewrite Hr. reflexivity.
    + by rewrite delete_insert_id.
Qed.

(** Replacing an account by one that differs in cached code only. *)
Lemma jpost_cache js db a x y :
  has_journal js -> state_wf (js_state js) -> db_ok db -> js_state js !! a = Some x ->
  account_wf y -> erase_code y = erase_code x -> jpost js (js_set_account js a y) db.
Proof.
  intros Hj Hw Hdb Hx Hy He. constructor; try done.
  - exists []. apply jext_state; [done|]. unfold state_equiv, erase.
    rewrite fmap_insert, He, <- fmap_insert. by rewrite insert_id.
  - by apply map_Forall_insert_2.
  - simpl. set_solver.
Qed.

Lemma load_code_ok js a db :
  has_journal js -> state_wf (js_state js) -> db_ok db -> revertible js a ->
  wp False (load_code js a db) (fun '(r, js', db') =>
    jpost js js' db' /\ forall x c, r = inl (x, c) -> js_state js' !! a = Some x).
Proof.
  intros Hj Hw Hdb Hr. unfold load_code. rewrite wp_bind.
  eapply wp_mono; [|by apply load_account_ok]. intros [[r js1] db1] [Hp Hl].
  pose proof (jpost_has_journal _ _ _ Hp) as Hj1. pose proof (jp_wf _ _ _ Hp) as Hw1.
  pose proof (jp_db _ _ _ Hp) as Hd1.
  destruct r as [[x c]|err]; simpl; [|by split]. specialize (Hl x c eq_refl).
  pose proof (Hw1 a x Hl) as [(Hb & Hn & Hh & Hc) Hst].
  assert (Hfill : forall b db2, fit_bytecode b -> db_ok db2 ->
    jpost js (js_set_account js1 a (set_code_fields x (code_hash (info x)) (Some b))) db2).
  { intros b db2 Hwb Hd2. eapply jpost_trans; [exact Hp|].
    eapply jpost_cache; try done. split; [|done]. split_and!; try done.
    intros b' Hb'. simpl in Hb'. by simplify_eq. }
  destruct (code (info x)); simpl; [split; [done|]; intros; by simplify_eq|].
  case_if; simpl.
  - split; [apply Hfill; [apply bytecode_new_wf|done]|].
    intros y c' Hy. simplify_eq. by rewrite lookup_insert_eq.
  - destruct (db_code_ok db1 (code_hash (info x)) Hd1) as [Hd2 Hb2].
    destruct (db_code_by_hash db1 _) as [[b|err] db2]; simpl in *.
    + split; [apply Hfill; [by apply Hb2|done]|].
      intros y c' Hy. simplify_eq. by rewrite lookup_insert_eq.
    + split; [|done]. by destruct Hp.
Qed.

Lemma load_account_exist_ok js a db :
  has_journal js -> state_wf (js_state js) -> db_ok db -> revertible js a ->
  wp False (load_account_exist js a db) (fun '(r, js', db') =>
    jpost js js' db' /\ (forall v, r = inl v -> is_Some (js_state js' !! a))).
Proof.
  intros Hj Hw Hdb Hr. unfold load_account_exist. rewrite wp_bind.
  eapply wp_mono; [|by apply load_code_ok]. intros [[r js1] db1] [Hp Hl].
  destruct r as [[x c]|err]; simpl; [|by split]. split; [done|]. intros _ _.
  exists x. by apply (Hl x c).
Qed.

(** Touching an account and writing it back. *)
Lemma touch_account_ok js a x db :
  has_journal js -> state_wf (js_state js) -> db_ok db -> revertible js a ->
  js_state js !! a = Some x ->
  exists js1, touch_account js a x = Val (js1, set_touched x true) /\
    js_state js1 = js_state js /\ jpost js (js_set_account js1 a (set_touched x true)) db.
Proof.
  intros Hj Hw Hdb Hr Hx. unfold touch_account. pose proof (Hw a x Hx) as Hax.
  destruct (is_touched x) eqn:Et; simpl.
  - assert (Hset : set_touched x true = x) by (destruct x; simpl in *; by subst).
    exists js. rewrite Hset. split; [done|]. split; [done|]. by eapply jpost_cache.
  - destruct (push_entry_ok js (AccountTouched a) Hj) as (js1 & Hp & Hs1). rewrite Hp.
    exists js1. split; [done|]. split; [done|].
    eapply jpost_push; [done|done|done|done|done| |].
    + simpl. unfold revertible in Hr. rewrite Hr, lookup_insert_eq. reflexivity.
    + rewrite insert_insert_eq.
      replace (set_touched (set_touched x true) false) with x by (destruct x; simpl in *; by subst).
      by rewrite insert_id.
Qed.

Lemma touch_ok js a db :
  has_journal js -> state_wf (js_state js) -> db_ok db -> revertible js a ->
  wp False (touch js a) (fun js' => jpost js js' db).
Proof.
  intros Hj Hw Hdb Hr. unfold touch. destruct (js_state js !! a) as [x|] eqn:E.
  - destruct (touch_account_ok js a x db) as (js1 & -> & _ & Hp); done.
  - by apply jpost_refl.
Qed.

Lemma push_entry_set_state js js1 e s :
  push_entry js e = Val js1 -> push_entry (js_set_state js s) e = Val (js_set_state js1 s).
Proof. unfold push_entry. simpl. destruct (last _); [|done]. by intros [= <-]. Qed.

Lemma push_entry_fork js js1 e :
  push_entry js e = Val js1 -> spurious js1 = spurious js /\ js_state js1 = js_state js.
Proof. intros Hp. apply push_entry_val in Hp as (_ & front & l & _ & ->). done. Qed.

Lemma touch_account_fork js a x js1 y :
  touch_account js a x = Val (js1, y) -> spurious js1 = spurious js.
Proof.
  unfold touch_account. destruct (is_touched x); simpl; [by intros [= <- _]|].
  destruct (push_entry js _) as [js2| | |] eqn:E; simpl; try done. intros [= <- _].
  by apply push_entry_fork in E as [? _].
Qed.

(** After a touch, a second entry with a further change of the account. *)
Lemma touched_push js js1 a x y e db s' :
  has_journal js -> state_wf (js_state js) -> db_ok db -> revertible js a ->
  js_state js !! a = Some x -> touch_account js a x = Val (js1, set_touched x true) ->
  is_code_change e = false -> account_wf y ->
  revert_entry (<[a := y]> (js_state js)) (spurious js) e = Val s' ->
  s' ≅ <[a := set_touched x true]> (js_state js) ->
  exists js2, push_entry js1 e = Val js2 /\ jpost js (js_set_account js2 a y) db.
Proof.
  intros Hj Hw Hdb Hr Hx Ht Hnc Hy Hrev Hs'. pose proof (touch_account_fork _ _ _ _ _ Ht) as Hf.
  destruct (touch_account_ok js a x db) as (js1' & Ht' & Hs1 & Hp); try done.
  rewrite Ht in Ht'. simplify_eq.
  pose proof (jpost_has_journal _ _ _ Hp) as Hj1.
  destruct (push_entry_ok js1' e) as (js2 & Hp2 & Hs2); [done|].
  exists js2. split; [done|]. eapply jpost_trans; [exact Hp|].
  assert (Heq : js_set_account js2 a y =
    js_set_account (js_set_state js2 (<[a := set_touched x true]> (js_state js1'))) a y).
  { unfold js_set_account. simpl. rewrite Hs2, insert_insert_eq. done. }
  rewrite Heq. eapply jpost_push; [by apply push_entry_set_state|done|apply Hp|done|done| |].
  - simpl. rewrite insert_insert_eq, Hs1, Hf. exact Hrev.
  - simpl. by rewrite Hs1.
Qed.

Lemma inc_nonce_ok js a db :
  has_journal js -> state_wf (js_state js) -> db_ok db -> revertible js a ->
  is_Some (js_state js !! a) ->
  wp False (inc_nonce js a) (fun '(r, js') =>
    jpost js js' db /\ forall n, r = Some n -> is_u64 n).
Proof.
  intros Hj Hw Hdb Hr [x Hx]. unfold inc_nonce, get_account. rewrite Hx. simpl.
  pose proof (Hw a x Hx) as [(Hb & Hn & Hh & Hc) Hst].
  case_if; [by split; [apply jpost_refl|]|].
  destruct (touch_account_ok js a x db) as (js1 & Ht & Hs1 & _); try done. rewrite Ht. simpl.
  set (y := set_nonce (set_touched x true) (wrap64 (nonce (info x) + 1))).
  assert (Hy : account_wf y).
  { split; [|done]. split_and!; try done. apply wrap64_range. }
  destruct (touched_push js js1 a x y (NonceChange a) db
    (<[a := set_touched x true]> (js_state js))) as (js2 & -> & Hp); try done.
  - simpl. rewrite lookup_insert_eq. simpl. rewrite insert_insert_eq. do 2 f_equal.
    rewrite (wrap64_id (nonce (info x) + 1)) by rlia.
    replace (nonce (info x) + 1 - 1) with (nonce (info x)) by lia.
    rewrite wrap64_id by done. by destruct x as [[]].
  - simpl. split; [done|]. intros n [= <-]. apply wrap64_range.
Qed.

Lemma sload_ok js a k db :
  has_journal js -> state_wf (js_state js) -> db_ok db -> is_Some (js_state js !! a) ->
  wp False (sload js a k db) (fun '(r, js', db') =>
    jpost js js' db' /\ forall v c, r = inl (v, c) -> is_u256 v /\
      exists x sl, js_state js' !! a = Some x /\ storage x !! k = Some sl /\ present_value sl = v).
Proof.
  intros Hj Hw Hdb [x Hx]. unfold sload, get_account. rewrite Hx. simpl.
  pose proof (Hw a x Hx) as [Hi Hst].
  destruct (storage x !! k) as [sl|] eqn:Ek; simpl.
  { split; [by apply jpost_refl|]. intros v c [= <- <-]. split; [by eapply Hst|eauto]. }
  destruct (if storage_cleared x then (inl 0, db) else db_storage db a k) as [v db1] eqn:Ev.
  assert (Hv : db_ok db1 /\ forall w, v = inl w -> is_u256 w).
  { destruct (storage_cleared x); simplify_eq; [split; [done|]; intros w [= <-]; rlia|].
    destruct (db_storage_ok db a k Hdb) as [H1 H2]. rewrite Ev in *. done. }
  destruct Hv as [Hd1 Hv]. destruct v as [v|err]; simpl; [|by split; [apply jpost_refl|]].
  specialize (Hv v eq_refl).
  destruct (push_entry_ok js (StorageChange a k None) Hj) as (js1 & Hp & Hs1). rewrite Hp. simpl.
  split.
  - eapply jpost_push; [done|done|done|done| | |].
    + split; [done|]. simpl. intros k' s' [[<- <-]|[_ Hs']]%lookup_insert_Some; [done|by eapply Hst].
    + simpl. rewrite lookup_insert_eq. reflexivity.
    + simpl. rewrite insert_insert_eq, delete_insert_id by done.
      replace (set_storage _ (storage x)) with x by (by destruct x). by rewrite insert_id.
  - intros w c [= <- <-]. split; [done|]. simpl. rewrite lookup_insert_eq.
    eexists _, _. split; [done|]. simpl. by rewrite lookup_insert_eq.
Qed.

Lemma sstore_ok js a k new db :
  has_journal js -> state_wf (js_state js) -> db_ok db -> is_Some (js_state js !! a) ->
  is_u256 new ->
  wp False (sstore js a k new db) (fun '(r, js', db') => jpost js js' db' /\
    forall o p n c, r = inl (o, p, n, c) -> n = new /\
      exists x, js_state js' !! a = Some x /\
        present_value <$> (storage x !! k) = Some new).
Proof.
  intros Hj Hw Hdb Hx Hnew. unfold sstore. rewrite wp_bind.
  eapply wp_mono; [|by apply sload_ok]. intros [[r js1] db1] [Hp Hl].
  pose proof (jpost_has_journal _ _ _ Hp) as Hj1. pose proof (jp_wf _ _ _ Hp) as Hw1.
  pose proof (jp_db _ _ _ Hp) as Hd1.
  destruct r as [[v c]|err]; simpl; [|by split].
  destruct (Hl v c eq_refl) as (Hv & x & sl & Hx1 & Hsl & Hpv).
  unfold get_account. rewrite Hx1. simpl. rewrite Hsl. simpl.
  pose proof (Hw1 a x Hx1) as [Hi Hst].
  case_if; simpl.
  { split; [done|]. intros o p n c' [= <- <- <- <-]. split; [done|]. exists x.
    rewrite Hsl. simpl. split; [done|congruence]. }
  destruct (push_entry_ok js1 (StorageChange a k (Some v)) Hj1) as (js2 & Hp2 & Hs2).
  rewrite Hp2. simpl. split.
  - eapply jpost_trans; [exact Hp|]. eapply jpost_push; [done|done|done|done| | |].
    + split; [done|]. simpl. intros k' s' [[<- <-]|[_ Hs']]%lookup_insert_Some; simpl;
        [split; [by eapply Hst|done]|by eapply Hst].
    + simpl. rewrite lookup_insert_eq. simpl. rewrite lookup_insert_eq. reflexivity.
    + simpl. rewrite !insert_insert_eq. rewrite <- Hpv.
      replace (mkStorageSlot (original_value sl) (present_value sl)) with sl by (by destruct sl).
      rewrite (insert_id (storage x) k sl Hsl).
      replace (set_storage _ (storage x)) with x by (by destruct x). by rewrite insert_id.
  - intros o p n c' [= <- <- <- <-]. split; [done|]. simpl. rewrite lookup_insert_eq.
    eexists. split; [done|]. simpl. by rewrite lookup_insert_eq.
Qed.

Lemma touch_account_set_state js js1 a x y s :
  touch_account js a x = Val (js1, y) ->
  touch_account (js_set_state js s) a x = Val (js_set_state js1 s, y).
Proof.
  unfold touch_account. destruct (is_touched x); simpl; [by intros [= <- <-]|].
  destruct (push_entry js _) as [js2| | |] eqn:E; simpl; try done. intros [= <- <-].
  by rewrite (push_entry_set_state _ _ _ _ E).
Qed.

Lemma wrap256_cancel (b v : Z) : is_u256 b -> wrap256 (wrap256 (b + v) - v) = b.
Proof.
  intros Hb. unfold wrap256. rewrite Zminus_mod_idemp_l. replace (b + v - v) with b by lia.
  by apply Z.mod_small.
Qed.

Lemma set_balance_wf x b : account_wf x -> is_u256 b -> account_wf (set_balance x b).
Proof. intros [(_ & Hn & Hh & Hc) Hs] Hb. split; [|done]. by split_and!. Qed.
Lemma set_touched_wf x t : account_wf x -> account_wf (set_touched x t).
Proof. done. Qed.
Lemma set_destroyed_wf x t : account_wf x -> account_wf (set_destroyed x t).
Proof. done. Qed.

Lemma set_balance_same x : set_balance x (balance (info x)) = x.
Proof. by destruct x as [[]]. Qed.
Lemma set_balance_twice x b c : set_balance (set_balance x b) c = set_balance x c.
Proof. done. Qed.

(** The second half of a transfer, both accounts loaded and touched. *)
Lemma transfer_push_ok js from to x y v db :
  has_journal js -> state_wf (js_state js) -> db_ok db -> from <> to ->
  js_state js !! from = Some x -> js_state js !! to = Some y ->
  0 <= v <= balance (info x) -> balance (info y) + v < u256_modulus ->
  let st := <[to := set_balance y (balance (info y) + v)]>
    (<[from := set_balance x (balance (info x) - v)]> (js_state js)) in
  exists js1, push_entry js (BalanceTransfer from to v) = Val js1 /\
    jpost js (js_set_state js1 st) db.
Proof.
  intros Hj Hw Hdb Hne Hx Hy Hv Hov st.
  pose proof (Hw _ _ Hx) as Hxw. pose proof (Hw _ _ Hy) as Hyw.
  pose proof Hxw as [(Hbx & _) _]. pose proof Hyw as [(Hby & _) _].
  destruct (push_entry_ok js (BalanceTransfer from to v) Hj) as (js1 & Hp & Hs1).
  exists js1. split; [done|]. eapply jpost_push_state; [done|done| |unfold st; set_solver|done| |].
  - repeat apply map_Forall_insert_2; try done; apply set_balance_wf; try done; rlia.
  - simpl. unfold st. rewrite lookup_insert_ne, lookup_insert_eq by done. simpl.
    rewrite lookup_insert_ne, lookup_insert_eq by done. simpl. reflexivity.
  - rewrite !set_balance_twice.
    rewrite (wrap256_id (balance (info x) - v + v)) by rlia.
    rewrite (wrap256_id (balance (info y) + v - v)) by rlia.
    replace (balance (info x) - v + v) with (balance (info x)) by lia.
    replace (balance (info y) + v - v) with (balance (info y)) by lia.
    rewrite !set_balance_same.
    match goal with |- ?s ≅ _ => assert (s = js_state js) as -> end; [|done].
    apply map_eq. intros k. rewrite !lookup_insert. repeat case_decide; congruence.
Qed.

Lemma self_transfer_ok js a x v db :
  has_journal js -> state_wf (js_state js) -> db_ok db -> js_state js !! a = Some x ->
  exists js1, push_entry js (BalanceTransfer a a v) = Val js1 /\ jpost js js1 db.
Proof.
  intros Hj Hw Hdb Hx. destruct (push_entry_ok js (BalanceTransfer a a v) Hj) as (js1 & Hp & Hs1).
  exists js1. split; [done|]. pose proof (Hw _ _ Hx) as [(Hb & _) _].
  replace js1 with (js_set_state js1 (js_state js)) by (rewrite <- Hs1; by destruct js1).
  eapply jpost_push_state; [done|done|done|done|done| |].
  - simpl. rewrite Hx. simpl. rewrite lookup_insert_eq. simpl. reflexivity.
  - rewrite insert_insert_eq, set_balance_twice, wrap256_cancel, set_balance_same by done.
    by rewrite insert_id.
Qed.

(** [transfer] once both accounts are loaded. *)
Definition move_value (js : JournaledState) (from to value : Z) (from_account : Account)
  (colds : bool * bool) (db : DB) : rust ((bool * bool + InstructionResult) * JournaledState * DB) :=
  '(js, from_account) ← touch_account js from from_account;
  match u256_checked_sub (balance (info from_account)) value with
  | None => Val (inr OutOfFund, js_set_account js from from_account, db)
  | Some b =>
      let js := js_set_account js from (set_balance from_account b) in
      to_account ← get_account js to;
      '(js, to_account) ← touch_account js to to_account;
      match u256_checked_add (balance (info to_account)) value with
      | None => Val (inr OverflowPayment, js_set_account js to to_account, db)
      | Some b =>
          let js := js_set_account js to (set_balance to_account b) in
          js ← push_entry js (BalanceTransfer from to value);
          Val (inl colds, js, db)
      end
  end.

Section moving.
Context (js : JournaledState) (from v : Z) (x : Account) (colds : bool * bool) (db : DB).
Context (Hj : has_journal js) (Hw : state_wf (js_state js)) (Hdb : db_ok db).
Context (Hrf : revertible js from) (Hv : is_u256 v) (Hx : js_state js !! from = Some x).

Lemma move_to_self_ok : wp False (move_value js from from v x colds db) (fun '(r, js', db') =>
  r = inr OverflowPayment \/ jpost js js' db').
Proof.
  unfold move_value. destruct (touch_account_ok js from x db) as (jsA & HtA & HsA & HpA); try done.
  rewrite HtA. cbn [mbind rust_bind]. unfold u256_checked_sub. case_if; [|by right].
  set (x' := set_touched x true) in *. unfold get_account.
  cbn [js_state js_set_account js_set_state]. rewrite lookup_insert_eq.
  cbn [unwrap mbind rust_bind]. unfold touch_account, u256_checked_add. simpl.
  pose proof (Hw _ _ Hx) as [(Hbx & _) _].
  rewrite (proj2 (Z.ltb_lt _ u256_modulus)) by rlia.
  set (jsT := js_set_account jsA from x') in *.
  destruct (self_transfer_ok jsT from x' v db) as (js3 & Hp3 & Hfin); try done.
  - by eapply jpost_has_journal.
  - apply HpA.
  - simpl. by rewrite lookup_insert_eq.
  - match goal with |- context [push_entry ?j _] => replace j with jsT end.
    + rewrite Hp3. right. by eapply jpost_trans.
    + unfold jsT, js_set_account. simpl. rewrite !insert_insert_eq.
      change (set_balance (set_balance x' _) _) with (set_balance x' (balance (info x) - v + v)).
      replace (balance (info x) - v + v) with (balance (info x')) by (simpl; lia).
      by rewrite set_balance_same.
Qed.

Lemma move_to_other_ok to y : from <> to -> revertible js to -> js_state js !! to = Some y ->
  wp False (move_value js from to v x colds db) (fun '(r, js', db') =>
    r = inr OverflowPayment \/ jpost js js' db').
Proof.
  intros Hne Hrt Hy. unfold move_value.
  destruct (touch_account_ok js from x db) as (jsA & HtA & HsA & HpA); try done.
  rewrite HtA. cbn [mbind rust_bind]. unfold u256_checked_sub. case_if; [|by right].
  set (x' := set_touched x true) in *. unfold get_account.
  cbn [js_state js_set_account js_set_state]. rewrite lookup_insert_ne, HsA, Hy by done.
  cbn [unwrap mbind rust_bind]. set (jsA1 := js_set_account jsA from x') in *.
  assert (HyA : js_state jsA1 !! to = Some y) by (simpl; by rewrite lookup_insert_ne, HsA by done).
  destruct (touch_account_ok jsA1 to y db) as (jsB1 & HtB & HsB & HpB); try done;
    [by eapply jpost_has_journal|apply HpA|by eapply jpost_revertible|].
  set (y' := set_touched y true) in *.
  match goal with |- context [touch_account ?j to y] =>
    change j with (js_set_state jsA1
      (<[from := set_balance x' (balance (info x') - v)]> (js_state jsA))) end.
  rewrite (touch_account_set_state _ _ _ _ _ _ HtB). cbn [mbind rust_bind].
  unfold u256_checked_add. case_if; [|by left]. set (jsT := js_set_account jsB1 to y') in *.
  destruct (transfer_push_ok jsT from to x' y' v db) as (js3 & Hp3 & Hfin); try done.
  - by eapply jpost_has_journal.
  - apply HpB.
  - simpl. rewrite HsB. simpl. by rewrite lookup_insert_ne, lookup_insert_eq by done.
  - simpl. by rewrite lookup_insert_eq.
  - simpl in *. rlia.
  - match goal with |- context [push_entry ?j _] => change j with (js_set_state jsT (js_state j)) end.
    rewrite (push_entry_set_state _ _ _ _ Hp3). right.
    do 2 (eapply jpost_trans; [eassumption|]). cbn [js_state js_set_state js_set_account].
    simpl in Hfin. rewrite HsB in Hfin. simpl in Hfin.
    match type of Hfin with jpost _ (js_set_state _ ?s) _ =>
      match goal with |- jpost _ (js_set_state _ ?t) _ => replace t with s; [exact Hfin|] end end.
    apply map_eq. intros k. rewrite !lookup_insert. repeat case_decide; congruence || done.
Qed.
End moving.

Lemma transfer_ok js from to v db :
  has_journal js -> state_wf (js_state js) -> db_ok db ->
  revertible js from -> revertible js to -> is_u256 v ->
  wp False (transfer js from to v db) (fun '(r, js', db') =>
    r = inr OverflowPayment \/ jpost js js' db').
Proof.
  intros Hj Hw Hdb Hrf Hrt Hv. unfold transfer. rewrite wp_bind.
  eapply wp_mono; [|by apply load_account_ok]. intros [[r1 js1] db1] [Hp1 Hl1].
  destruct r1 as [[x c1]|]; [|by right]. specialize (Hl1 x c1 eq_refl).
  pose proof (jpost_has_journal _ _ _ Hp1) as Hj1. pose proof (jp_db _ _ _ Hp1) as Hd1.
  rewrite wp_bind. eapply wp_mono;
    [|apply (load_account_ok js1 to db1); try done; [apply Hp1|by eapply jpost_revertible]].
  intros [[r2 js2] db2] [Hp2 Hl2]. pose proof (jpost_trans _ _ _ _ _ Hp1 Hp2) as Hp.
  destruct r2 as [[y c2]|]; [|by right]. specialize (Hl2 y c2 eq_refl).
  assert (Hx : exists x', js_state js2 !! from = Some x').
  { apply elem_of_dom, (jp_loaded _ _ _ Hp2), elem_of_dom. by exists x. }
  clear x Hl1. destruct Hx as [x Hx]. unfold get_account. cbn beta iota. rewrite Hx.
  cbn [unwrap mbind rust_bind].
  change (wp False (move_value js2 from to v x (c1, c2) db2) (fun '(r, js', db') =>
    r = inr OverflowPayment \/ jpost js js' db')).
  apply (wp_mono _ _ (fun '(r, js', db') => r = inr OverflowPayment \/ jpost js2 js' db')).
  { intros [[r js3] db3] [?|?]; [by left|right]. by eapply jpost_trans. }
  assert (Hj2 : has_journal js2) by (by eapply jpost_has_journal).
  assert (Hrf2 : revertible js2 from) by (by eapply jpost_revertible).
  destruct (decide (from = to)) as [<-|Hne]; [apply move_to_self_ok|eapply move_to_other_ok]; try done;
    try apply Hp2. by eapply jpost_revertible.
Qed.

(** The last step of a self-destruction, the target already touched. *)
Lemma destroy_push_ok js a t x y db :
  has_journal js -> state_wf (js_state js) -> db_ok db -> a <> t ->
  js_state js !! a = Some x -> js_state js !! t = Some y ->
  let st := <[t := set_balance y (wrap256 (balance (info y) + balance (info x)))]>
    (<[a := set_destroyed (set_balance x 0) true]> (js_state js)) in
  exists js1, push_entry js (AccountDestroyed a t (is_destroyed x) (balance (info x))) = Val js1 /\
    jpost js (js_set_state js1 st) db.
Proof.
  intros Hj Hw Hdb Hne Hx Hy st. pose proof (Hw _ _ Hx) as Hxw. pose proof (Hw _ _ Hy) as Hyw.
  pose proof Hxw as [(Hbx & _) _]. pose proof Hyw as [(Hby & _) _].
  destruct (push_entry_ok js (AccountDestroyed a t (is_destroyed x) (balance (info x))) Hj)
    as (js1 & Hp & Hs1).
  exists js1. split; [done|]. eapply jpost_push_state; [done|done| |unfold st; set_solver|done| |].
  - repeat apply map_Forall_insert_2; try done; [by apply set_balance_wf, wrap256_range|].
    apply set_destroyed_wf, set_balance_wf; [done|rlia].
  - simpl. unfold st. rewrite lookup_insert_ne, lookup_insert_eq by done. simpl.
    rewrite (proj2 (Z.eqb_neq a t)) by done. simpl.
    rewrite lookup_insert_ne, lookup_insert_eq by done. simpl. reflexivity.
  - rewrite set_balance_twice, wrap256_cancel, set_balance_same by done.
    change (0 + balance (info x)) with (balance (info x)). rewrite (wrap256_id (balance (info x))) by done.
    replace (set_balance (set_destroyed (set_destroyed (set_balance x 0) true) (is_destroyed x))
      (balance (info x))) with x by (by destruct x as [[]]).
    match goal with |- ?s ≅ _ => assert (s = js_state js) as -> end; [|done].
    apply map_eq. intros k. rewrite !lookup_insert. repeat case_decide; congruence.
Qed.

Lemma destroy_self_ok js a x db :
  has_journal js -> state_wf (js_state js) -> db_ok db -> js_state js !! a = Some x ->
  let st := <[a := set_destroyed (set_balance x 0) true]> (js_state js) in
  exists js1, push_entry js (AccountDestroyed a a (is_destroyed x) (balance (info x))) = Val js1 /\
    jpost js (js_set_state js1 st) db.
Proof.
  intros Hj Hw Hdb Hx st. pose proof (Hw _ _ Hx) as Hxw. pose proof Hxw as [(Hbx & _) _].
  destruct (push_entry_ok js (AccountDestroyed a a (is_destroyed x) (balance (info x))) Hj)
    as (js1 & Hp & Hs1).
  exists js1. split; [done|]. eapply jpost_push_state; [done|done| |unfold st; set_solver|done| |].
  - apply map_Forall_insert_2; [|done]. apply set_destroyed_wf, set_balance_wf; [done|rlia].
  - simpl. unfold st. rewrite lookup_insert_eq. simpl. rewrite Z.eqb_refl. simpl. reflexivity.
  - change (0 + balance (info x)) with (balance (info x)).
    rewrite insert_insert_eq, (wrap256_id (balance (info x))) by done.
    replace (set_balance _ (balance (info x))) with x by (by destruct x as [[]]).
    by rewrite insert_id.
Qed.

Lemma selfdestruct_ok js a t db :
  has_journal js -> state_wf (js_state js) -> db_ok db -> revertible js t ->
  is_Some (js_state js !! a) ->
  wp False (selfdestruct js a t db) (fun '(_, js', db') => jpost js js' db').
Proof.
  intros Hj Hw Hdb Hr Ha. unfold selfdestruct. rewrite wp_bind.
  eapply wp_mono; [|by apply load_account_exist_ok]. intros [[r js1] db1] [Hp Hl].
  destruct r as [[c ex]|]; [|done]. destruct (Hl (c, ex) eq_refl) as [y Hy].
  pose proof (jpost_has_journal _ _ _ Hp) as Hj1. pose proof (jp_wf _ _ _ Hp) as Hw1.
  pose proof (jp_db _ _ _ Hp) as Hd1. pose proof (jpost_revertible _ _ _ t Hp Hr) as Hr1.
  assert (Hx : exists x, js_state js1 !! a = Some x).
  { apply elem_of_dom, (jp_loaded _ _ _ Hp), elem_of_dom, Ha. }
  destruct Hx as [x Hx]. unfold get_account. rewrite Hx. cbn [unwrap mbind rust_bind].
  destruct (Z.eqb_spec a t) as [->|Hne]; cbn [negb].
  - destruct (destroy_self_ok js1 t x db1) as (js2 & Hp2 & Hfin); try done.
    cbn [mbind rust_bind]. unfold js_set_account.
    rewrite (push_entry_set_state _ _ _ _ Hp2). by eapply jpost_trans.
  - cbn [js_state js_set_account js_set_state]. rewrite lookup_insert_ne, Hy by done.
    cbn [unwrap mbind rust_bind].
    destruct (touch_account_ok js1 t y db1) as (jsB & HtB & HsB & HpB); try done.
    match goal with |- context [touch_account ?j t y] =>
      change j with (js_set_state js1 (js_state j)) end.
    rewrite (touch_account_set_state _ _ _ _ _ _ HtB). cbn [mbind rust_bind]. set (y' := set_touched y true) in *.
    set (jsT := js_set_account jsB t y') in *.
    destruct (destroy_push_ok jsT a t x y' db1) as (js2 & Hp2 & Hfin); try done.
    + by eapply jpost_has_journal.
    + apply HpB.
    + simpl. by rewrite lookup_insert_ne, HsB by done.
    + simpl. by rewrite lookup_insert_eq.
    + match goal with |- context [push_entry ?j _] =>
        change j with (js_set_state jsT (js_state j)) end.
      rewrite (push_entry_set_state _ _ _ _ Hp2).
      do 2 (eapply jpost_trans; [eassumption|]). cbn [js_state js_set_state js_set_account].
      simpl in Hfin. rewrite HsB in Hfin.
      match type of Hfin with jpost _ (js_set_state _ ?s) _ =>
        match goal with |- jpost _ (js_set_state _ ?t) _ => replace t with s; [exact Hfin|] end end.
      apply map_eq. intros k. rewrite !lookup_insert. repeat case_decide; congruence || done.
Qed.

(** ** Runs and checkpoints *)

(** Operations between a checkpoint and its end.  [set_code] and
    [create_account] are set aside (the first journals the new code and the
    second does not journal all it changes), and so is a transfer that
    overflows the recipient's balance. *)
Inductive jop_step (js : JournaledState) (db : DB) : JournaledState -> DB -> Prop :=
| step_load a r js' db' : revertible js a ->
    load_account js a db = Val (r, js', db') -> jop_step js db js' db'
| step_load_code a r js' db' : revertible js a ->
    load_code js a db = Val (r, js', db') -> jop_step js db js' db'
| step_load_exist a r js' db' : revertible js a ->
    load_account_exist js a db = Val (r, js', db') -> jop_step js db js' db'
| step_touch a js' : revertible js a -> touch js a = Val js' -> jop_step js db js' db
| step_inc_nonce a r js' : revertible js a -> is_Some (js_state js !! a) ->
    inc_nonce js a = Val (r, js') -> jop_step js db js' db
| step_transfer f t v r js' db' : revertible js f -> revertible js t -> is_u256 v ->
    r <> inr OverflowPayment ->
    transfer js f t v db = Val (r, js', db') -> jop_step js db js' db'
| step_selfdestruct a t r js' db' : revertible js t -> is_Some (js_state js !! a) ->
    selfdestruct js a t db = Val (r, js', db') -> jop_step js db js' db'
| step_sload a k r js' db' : is_Some (js_state js !! a) ->
    sload js a k db = Val (r, js', db') -> jop_step js db js' db'
| step_sstore a k v r js' db' : is_Some (js_state js !! a) -> is_u256 v ->
    sstore js a k v db = Val (r, js', db') -> jop_step js db js' db'
| step_log l : jop_step js db (log js l) db.

(** A run: operations and nested calls that commit or revert. *)
Inductive jrun : JournaledState -> DB -> JournaledState -> DB -> Prop :=
| run_done js db : jrun js db js db
| run_op js db js1 db1 js2 db2 :
    jop_step js db js1 db1 -> jrun js1 db1 js2 db2 -> jrun js db js2 db2
| run_commit js db js1 db1 js2 db2 :
    0 <= js_depth js -> js_depth js + 1 < u64_modulus ->
    jrun (checkpoint js).2 db js1 db1 ->
    jrun (checkpoint_commit js1) db1 js2 db2 -> jrun js db js2 db2
| run_revert js db js1 db1 js1' js2 db2 :
    0 <= js_depth js -> js_depth js + 1 < u64_modulus ->
    zlen (js_journal js1) < u64_modulus ->
    jrun (checkpoint js).2 db js1 db1 ->
    checkpoint_revert js1 (checkpoint js).1 = Val js1' ->
    jrun js1' db1 js2 db2 -> jrun js db js2 db2.

Lemma wp_elim {A : Type} (m : rust A) (Q : A -> Prop) (a : A) : wp False m Q -> m = Val a -> Q a.
Proof. by intros H ->. Qed.

Lemma log_ext js l : has_journal js -> jext js (log js l) [].
Proof.
  intros Hj. destruct (jext_refl js Hj) as [H1 H2 H3 H4 H5 H6 H7].
  constructor; try done. by exists [l].
Qed.

Lemma jop_step_post js db js' db' :
  has_journal js -> state_wf (js_state js) -> db_ok db -> jop_step js db js' db' ->
  jpost js js' db'.
Proof.
  intros Hj Hw Hd Hs. destruct Hs as [a r js' db' Hr H|a r js' db' Hr H|a r js' db' Hr H
    |a js' Hr H|a r js' Hr Ha H|f t v r js' db' Hf Ht Hv Hno H|a t r js' db' Hr Ha H
    |a k r js' db' Ha H|a k v r js' db' Ha Hv H|l].
  - apply (wp_elim _ _ _ (load_account_ok _ _ _ Hj Hw Hd Hr) H).
  - apply (wp_elim _ _ _ (load_code_ok _ _ _ Hj Hw Hd Hr) H).
  - apply (wp_elim _ _ _ (load_account_exist_ok _ _ _ Hj Hw Hd Hr) H).
  - apply (wp_elim _ _ _ (touch_ok _ _ _ Hj Hw Hd Hr) H).
  - apply (wp_elim _ _ _ (inc_nonce_ok _ _ _ Hj Hw Hd Hr Ha) H).
  - by destruct (wp_elim _ _ _ (transfer_ok _ _ _ _ _ Hj Hw Hd Hf Ht Hv) H).
  - apply (wp_elim _ _ _ (selfdestruct_ok _ _ _ _ Hj Hw Hd Hr Ha) H).
  - apply (wp_elim _ _ _ (sload_ok _ _ _ _ Hj Hw Hd Ha) H).
  - apply (wp_elim _ _ _ (sstore_ok _ _ _ _ _ Hj Hw Hd Ha Hv) H).
  - constructor; try done. exists []. by apply log_ext.
Qed.

(** Cached code stays well-formed under reverts. *)
Definition code_wf (s : gmap Z Account) : Prop :=
  forall a x c, s !! a = Some x -> code (info x) = Some c -> fit_bytecode c.

Lemma state_wf_code s : state_wf s -> code_wf s.
Proof. intros Hw a x c Hx Hc. destruct (Hw a x Hx) as [(_ & _ & _ & H) _]. by apply H. Qed.

Lemma code_wf_insert s a x y :
  code_wf s -> s !! a = Some x -> code (info y) = code (info x) -> code_wf (<[a := y]> s).
Proof.
  intros Hw Hx Hc b z c [[<- <-]|[_ Hz]]%lookup_insert_Some Hzc; [|by eapply Hw].
  rewrite Hc in Hzc. by eapply Hw.
Qed.

Lemma revert_entry_code_wf s sp e s' :
  is_code_change e = false -> code_wf s -> revert_entry s sp e = Val s' -> code_wf s'.
Proof.
  intros Hnc Hw. destruct e; simpl in *; try done.
  - case_if; [by intros [= <-]|]. intros [= <-] a x c [_ Hx]%lookup_delete_Some. by eapply Hw.
  - destruct (s !! address) as [x|] eqn:Hx; simpl; [|done].
    match goal with |- context [<[address := ?y]> s] =>
      assert (Hw1 : code_wf (<[address := y]> s)) by (by eapply code_wf_insert) end.
    case_if; [|by intros [= <-]]. destruct (_ !! target) as [y|] eqn:Hy; simpl; [|done].
    intros [= <-]. by eapply code_wf_insert.
  - case_if; [by intros [= <-]|]. destruct (s !! address) as [x|] eqn:Hx; simpl; [|done].
    intros [= <-]. by eapply code_wf_insert.
  - destruct (s !! from) as [x|] eqn:Hx; simpl; [|done].
    match goal with |- context [<[from := ?y]> s] =>
      assert (Hw1 : code_wf (<[from := y]> s)) by (by eapply code_wf_insert) end.
    destruct (_ !! to) as [y|] eqn:Hy; simpl; [|done].
    intros [= <-]. by eapply code_wf_insert.
  - destruct (s !! address) as [x|] eqn:Hx; simpl; [|done].
    intros [= <-]. by eapply code_wf_insert.
  - destruct (s !! address) as [x|] eqn:Hx; simpl; [|done].
    destruct had_value; simpl; [destruct (storage x !! key); simpl; [|done]|];
      intros [= <-]; by eapply code_wf_insert.
Qed.

Lemma revert_all_code_wf s sp es s' :
  Forall (fun e => is_code_change e = false) es -> code_wf s ->
  revert_all s sp es = Val s' -> code_wf s'.
Proof.
  intros Hes. revert s. induction Hes as [|e es He Hes IH]; simpl; intros s Hw.
  - by intros [= <-].
  - destruct (revert_entry s sp e) eqn:E; simpl; try done. apply IH.
    by eapply revert_entry_code_wf.
Qed.

Lemma state_wf_equiv s t : s ≅ t -> code_wf s -> state_wf t -> state_wf s.
Proof.
  intros He Hc Hw a x Hx. pose proof (state_equiv_lookup _ _ a He) as L. rewrite Hx in L.
  destruct (t !! a) as [y|] eqn:Hy; [|done]. simpl in L. apply (inj Some) in L.
  destruct (Hw a y Hy) as [(Hb & Hn & Hh & _) Hs]. apply erase_fields in L as (E1 & E2 & E3 & E4 & _).
  split; [|by rewrite E4]. rewrite <- E1 in Hb. rewrite <- E2 in Hn. rewrite <- E3 in Hh.
  split_and!; try done. intros c Hcx. by eapply Hc.
Qed.

(** Reverting what a run added since a checkpoint. *)
Lemma revert_run js db1 js1 :
  has_journal js -> state_wf (js_state js) -> 0 <= js_depth js ->
  js_depth js + 1 < u64_modulus -> zlen (js_journal js1) < u64_modulus ->
  jpost (checkpoint js).2 js1 db1 ->
  exists js', checkpoint_revert js1 (checkpoint js).1 = Val js' /\
    js_state js' ≅ js_state js /\ js_logs js' = js_logs js /\
    js_journal js' = js_journal js /\ js_depth js' = js_depth js /\
    js_is_before_spurious_dragon js' = js_is_before_spurious_dragon js /\
    js_num_of_precompiles js' = js_num_of_precompiles js /\ state_wf (js_state js').
Proof.
  intros Hj Hw Hd0 Hd1 Hlen [(es & Hx) Hw1 _ _].
  destruct Hx as [(front & l & e0 & more & Ej & Ej1 & Ees) [ls Hls] Hfork Hpre Hdep (s & Hu & Hs) Hnc].
  simpl in *. apply app_inj_tail in Ej as [<- <-]. simpl in Ej1.
  unfold checkpoint_revert. simpl.
  assert (Htake : take (Z.to_nat (wrap64 (zlen (js_journal js1) - zlen (js_journal js))))
    (reverse (js_journal js1)) = reverse (e0 :: more)).
  { rewrite wrap64_id.
    - rewrite Ej1 at 2. rewrite reverse_app.
      rewrite Ej1. unfold zlen. rewrite length_app.
      replace (Z.to_nat _) with (length (reverse (e0 :: more)))
        by (rewrite length_reverse; lia). apply take_app_length.
    - rewrite Ej1 in *. unfold zlen, is_u64 in *. rewrite length_app in *. lia. }
  rewrite Htake, revert_sets_concat. simpl.
  change (concat (e0 :: more)) with (e0 ++ concat more) in *. rewrite <- Ees, Hu. simpl.
  eexists. split; [done|]. simpl.
  split; [done|]. split.
  { rewrite Hls. unfold zlen. rewrite Nat2Z.id. apply take_app_length. }
  split.
  { rewrite Ej1. unfold zlen. rewrite Nat2Z.id. apply take_app_length. }
  split.
  { rewrite Hdep. rewrite (wrap64_id (js_depth js + 1)) by rlia.
    rewrite wrap64_id by rlia. lia. }
  split; [done|]. split; [done|].
  eapply state_wf_equiv; [done| |done].
  eapply revert_all_code_wf; [|by apply state_wf_code|exact Hu]. by apply Forall_reverse.
Qed.

Lemma state_equiv_dom s t : s ≅ t -> dom s = dom t.
Proof.
  intros H. unfold state_equiv, erase in H.
  rewrite <- (dom_fmap_L erase_code s), <- (dom_fmap_L erase_code t). by rewrite H.
Qed.

(** A committed checkpoint leaves its sets in the journal. *)
Lemma commit_post js js1 db1 :
  has_journal js -> 0 <= js_depth js -> js_depth js + 1 < u64_modulus ->
  jpost (checkpoint js).2 js1 db1 -> jpost js (checkpoint_commit js1) db1.
Proof.
  intros Hj Hd0 Hd1 [(es & Hx) Hw Hdb Hdom].
  destruct Hx as [(front & l & e0 & more & Ej & Ej1 & Ees) [ls Hls] Hfork Hpre Hdep Hu Hnc].
  simpl in *. apply app_inj_tail in Ej as [<- <-]. constructor; try done. exists es.
  constructor; try done.
  - destruct (has_journal_snoc js Hj) as (f & l & E). exists f, l, [], (e0 :: more).
    split; [done|]. simpl. split; [|done]. by rewrite Ej1, E, app_nil_r, <- app_assoc.
  - by exists ls.
  - simpl. rewrite Hdep. rewrite (wrap64_id (js_depth js + 1)) by rlia.
    rewrite wrap64_id by rlia. lia.
Qed.

(** A reverted checkpoint is as if nothing had happened. *)
Lemma revert_post js js1 db1 js' :
  has_journal js -> state_wf (js_state js) -> 0 <= js_depth js ->
  js_depth js + 1 < u64_modulus -> zlen (js_journal js1) < u64_modulus ->
  jpost (checkpoint js).2 js1 db1 -> checkpoint_revert js1 (checkpoint js).1 = Val js' ->
  jpost js js' db1.
Proof.
  intros Hj Hw Hd0 Hd1 Hlen Hp He.
  destruct (revert_run js db1 js1) as (js2 & E & Hs & Hlg & Hjn & Hdp & Hf & Hpc & Hwf); try done.
  rewrite E in He. injection He as <-. constructor; [|done|apply Hp|by rewrite (state_equiv_dom _ _ Hs)].
  exists []. destruct (jext_refl js Hj) as [H1 H2 H3 H4 H5 H6 H7].
  constructor; try done; [by rewrite Hjn|by rewrite Hlg|by exists (js_state js2)].
Qed.

Lemma checkpoint_has_journal js : has_journal (checkpoint js).2.
Proof. unfold has_journal. simpl. by destruct (js_journal js). Qed.

Lemma jrun_post js db js' db' :
  jrun js db js' db' -> has_journal js -> state_wf (js_state js) -> db_ok db -> jpost js js' db'.
Proof.
  induction 1 as [js db|js db js1 db1 js2 db2 Hs _ IH|js db js1 db1 js2 db2 Hd0 Hd1 _ IH1 _ IH2
    |js db js1 db1 js1' js2 db2 Hd0 Hd1 Hlen _ IH1 He _ IH2]; intros Hj Hw Hdb.
  - by apply jpost_refl.
  - pose proof (jop_step_post _ _ _ _ Hj Hw Hdb Hs) as Hp. eapply jpost_trans; [exact Hp|].
    apply IH; [by eapply jpost_has_journal|apply Hp..].
  - pose proof (IH1 (checkpoint_has_journal js) Hw Hdb) as Hp.
    pose proof (commit_post _ _ _ Hj Hd0 Hd1 Hp) as Hp'. eapply jpost_trans; [exact Hp'|].
    apply IH2; [by eapply jpost_has_journal|apply Hp'..].
  - pose proof (IH1 (checkpoint_has_journal js) Hw Hdb) as Hp.
    pose proof (revert_post _ _ _ _ Hj Hw Hd0 Hd1 Hlen Hp He) as Hp'.
    eapply jpost_trans; [exact Hp'|]. apply IH2; [by eapply jpost_has_journal|apply Hp'..].
Qed.

(** C3: reverting a checkpoint undoes everything since it was taken.  For
    any sequence of account loads, touches, nonce increments, transfers (but
    for those that overflow the recipient's balance), self-destructions,
    storage reads and writes, logs and nested checkpoints that were committed
    or reverted, [checkpoint_revert] succeeds and gives back the accounts (up
    to bytecode loaded lazily), the logs, the journal and the call depth that
    there were.  Setting code and creating accounts are not among the
    operations (code that is set without a creation stays, see
    [set_code_survives_revert]); and from Spurious Dragon on the precompile
    at address 3, which a revert leaves touched, is not among the accounts
    that are loaded, touched or sent to. *)
Theorem checkpoint_revert_restores js db js1 db1 :
  has_journal js -> state_wf (js_state js) -> db_ok db -> 0 <= js_depth js ->
  js_depth js + 1 < u64_modulus -> zlen (js_journal js1) < u64_modulus ->
  jrun (checkpoint js).2 db js1 db1 ->
  exists js', checkpoint_revert js1 (checkpoint js).1 = Val js' /\
    js_state js' ≅ js_state js /\ js_logs js' = js_logs js /\
    js_journal js' = js_journal js /\ js_depth js' = js_depth js.
Proof.
  intros Hj Hw Hdb Hd0 Hd1 Hlen Hr.
  pose proof (jrun_post _ _ _ _ Hr (checkpoint_has_journal js) Hw Hdb) as Hp.
  destruct (revert_run js db1 js1) as (js' & E & Hs & Hlg & Hjn & Hdp & _); try done. eauto 10.
Qed.

End operations.

(** ** Examples *)

(** A database with one funded account and every slot 7. *)
#[local] Instance seven_db : Database unit := {
  db_error := unit;
  db_basic _ a := (inl (if a =? 100 then Some (mkAccountInfo 50 1 KECCAK_EMPTY None) else None), tt);
  db_code_by_hash _ _ := (inl Bytecode_new, tt);
  db_storage _ _ _ := (inl 7, tt);
  db_block_hash _ _ := (inr tt, tt);
}.

#[local] Instance seven_db_spec : DatabaseSpec (fun _ : unit => True).
Proof.
  split.
  - intros [] a _. split; [done|]. simpl. intros i. case_if; [|done]. intros [= <-].
    split_and!; [by vm_compute..|done].
  - intros [] c _. split; [done|]. intros b [= <-]. apply bytecode_new_wf.
  - intros [] a k _. split; [done|]. intros v [= <-]. by vm_compute.
  - intros [] n _. by split.
Qed.

Definition example_js : JournaledState := JournaledState_new 9.
Definition example_steps : rust JournaledState :=
  '(_, js, _) ← load_account (checkpoint example_js).2 100 tt;
  '(_, js, _) ← transfer js 100 200 30 tt;
  '(_, js, _) ← sstore js 100 1 9 tt;
  Val (log js (mkLog 100 [1] [2])).

Lemma checkpoint_revert_restores_witness :
  exists js1, example_steps = Val js1 /\
  exists js', checkpoint_revert js1 (checkpoint example_js).1 = Val js' /\
    js_state js' ≅ js_state example_js /\ js_logs js' = js_logs example_js /\
    js_journal js' = js_journal example_js /\ js_depth js' = js_depth example_js.
Proof.
  eexists. split; [vm_compute; reflexivity|].
  apply (checkpoint_revert_restores (fun _ => True) example_js tt _ tt);
    [done|apply map_Forall_empty|done|by vm_compute|by vm_compute|by vm_compute|].
  eapply run_op; [eapply (step_load _ _ 100); [done|vm_compute; reflexivity]|].
  eapply run_op; [eapply (step_transfer _ _ 100 200 30); cycle 4;
    [vm_compute; reflexivity|done|done|by vm_compute|done]|].
  eapply run_op; [eapply (step_sstore _ _ 100 1 9);
    [by eexists; vm_compute; reflexivity|by vm_compute|vm_compute; reflexivity]|].
  eapply run_op; [apply (step_log _ _ (mkLog 100 [1] [2]))|]. apply run_done.
Defined.

(** ** What the journal does not undo *)

(** [set_code] journals the code it installs, not the code it replaces: a
    revert leaves the new code in place. *)
(** A code installation survives a revert. *)
Theorem set_code_survives_revert :
  let js := js_set_account example_js 100 (Account_from (mkAccountInfo 0 1 5 None)) in
  let c := mkBytecode [1] 77 (Checked 1) in
  exists js1 js2, set_code (checkpoint js).2 100 c = Val js1 /\
    checkpoint_revert js1 (checkpoint js).1 = Val js2 /\
    (code_hash ∘ info <$> js_state js !! 100) = Some 5 /\
    (code_hash ∘ info <$> js_state js2 !! 100) = Some 77.
Proof. do 2 eexists. split; [vm_compute; reflexivity|]. by vm_compute. Qed.
