(* ===== verification/JournalSafe.v ===== *)
(** * The journal never fails to revert

    A weaker promise than the one of [JournalRevert], which every operation
    keeps, those that do not journal all they change included: whatever
    happened since a checkpoint, reverting to it finds every account and
    storage slot it unwraps, and every account that was loaded at the
    checkpoint is still loaded. *)

From stdpp Require Import base option list gmap.
From Stdlib Require Import ZArith Lia.
From S2P Require Import Prelude Primitives Gas Opcode Analysis Journal JournalRevert.

(** ** The order: more accounts and slots loaded *)

Definition covers (s t : gmap Z Account) : Prop :=
  forall a x, s !! a = Some x -> exists y, t !! a = Some y /\ dom (storage x) ⊆ dom (storage y).
Infix "⊑" := covers (at level 70).

#[export] Instance covers_preorder : PreOrder covers.
Proof.
  split.
  - intros s a x Hx. eauto.
  - intros s t u H1 H2 a x Hx. destruct (H1 a x Hx) as (y & Hy & Hd).
    destruct (H2 a y Hy) as (z & Hz & Hd'). exists z. split; [done|set_solver].
Qed.

Lemma covers_lookup s t a : s ⊑ t -> is_Some (s !! a) -> is_Some (t !! a).
Proof. intros H [x Hx]. destruct (H a x Hx) as (y & -> & _). eauto. Qed.

(** Replacing an account by one with at least its slots. *)
Lemma covers_insert s a x y :
  s !! a = Some x -> dom (storage x) ⊆ dom (storage y) -> s ⊑ <[a := y]> s.
Proof.
  intros Hx Hd b z Hz. destruct (decide (a = b)) as [<-|Hne].
  - rewrite lookup_insert_eq. rewrite Hx in Hz. injection Hz as <-. eauto.
  - rewrite lookup_insert_ne by done. eauto.
Qed.

Lemma covers_insert_r s a x y :
  s !! a = Some x -> dom (storage y) ⊆ dom (storage x) -> <[a := y]> s ⊑ s.
Proof.
  intros Hx Hd b z [[<- <-]|[Hne Hz]]%lookup_insert_Some; [eauto|]. eauto.
Qed.

Lemma covers_new s a y : s !! a = None -> s ⊑ <[a := y]> s.
Proof.
  intros Hn b z Hz. exists z. split; [|done]. rewrite lookup_insert_ne; [done|]. congruence.
Qed.

Lemma covers_insert_mono s t a x y :
  s ⊑ t -> dom (storage x) ⊆ dom (storage y) -> <[a := x]> s ⊑ <[a := y]> t.
Proof.
  intros Hst Hd b z [[<- <-]|[Hne Hz]]%lookup_insert_Some.
  - rewrite lookup_insert_eq. eauto.
  - rewrite lookup_insert_ne by done. eauto.
Qed.

(** ** Reverting respects the order *)

Ltac covered Hst H a y Hy Hd :=
  destruct (Hst a _ H) as (y & Hy & Hd).

Lemma revert_entry_mono s t sp e s' :
  s ⊑ t -> revert_entry s sp e = Val s' ->
  exists t', revert_entry t sp e = Val t' /\ s' ⊑ t'.
Proof.
  intros Hst. destruct e; simpl.
  - case_if; [intros [= <-]; eauto|]. intros [= <-]. eexists. split; [done|].
    intros b z [Hne Hz]%lookup_delete_Some. rewrite lookup_delete_ne by done. eauto.
  - destruct (s !! address) as [x|] eqn:Hx; [|done]. covered Hst Hx address y Hy Hd.
    rewrite Hy. simpl. set (s1 := <[address := _]> s). set (t1 := <[address := _]> t).
    assert (Hst1 : s1 ⊑ t1) by (by apply covers_insert_mono).
    case_if; [|intros [= <-]; eauto]. destruct (s1 !! target) as [u|] eqn:Hu; [|done].
    covered Hst1 Hu target w Hw Hdw. rewrite Hw. simpl. intros [= <-]. eexists.
    split; [done|]. by apply covers_insert_mono.
  - case_if; [intros [= <-]; eauto|]. destruct (s !! address) as [x|] eqn:Hx; [|done].
    covered Hst Hx address y Hy Hd. rewrite Hy. simpl. intros [= <-]. eexists.
    split; [done|]. by apply covers_insert_mono.
  - destruct (s !! from) as [x|] eqn:Hx; [|done]. covered Hst Hx from y Hy Hd.
    rewrite Hy. simpl. set (s1 := <[from := _]> s). set (t1 := <[from := _]> t).
    assert (Hst1 : s1 ⊑ t1) by (by apply covers_insert_mono).
    destruct (s1 !! to) as [u|] eqn:Hu; [|done].
    covered Hst1 Hu to w Hw Hdw. rewrite Hw. simpl. intros [= <-]. eexists.
    split; [done|]. by apply covers_insert_mono.
  - destruct (s !! address) as [x|] eqn:Hx; [|done]. covered Hst Hx address y Hy Hd.
    rewrite Hy. simpl. intros [= <-]. eexists. split; [done|]. by apply covers_insert_mono.
  - destruct (s !! address) as [x|] eqn:Hx; [|done]. covered Hst Hx address y Hy Hd.
    rewrite Hy. simpl. destruct had_value as [v|].
    + destruct (storage x !! key) as [sl|] eqn:Hk; [|done].
      assert (Hky : is_Some (storage y !! key)) by (apply elem_of_dom, Hd, elem_of_dom; eauto).
      destruct Hky as [sl' Hky]. rewrite Hky. simpl. intros [= <-]. eexists.
      split; [done|]. apply covers_insert_mono; [done|]. simpl.
      rewrite !dom_insert_L. set_solver.
    + intros [= <-]. eexists. split; [done|]. apply covers_insert_mono; [done|]. simpl.
      rewrite !dom_delete_L. set_solver.
  - destruct (s !! address) as [x|] eqn:Hx; [|done]. covered Hst Hx address y Hy Hd.
    rewrite Hy. simpl. intros [= <-]. eexists. split; [done|]. by apply covers_insert_mono.
Qed.

Lemma revert_entry_shrinks s sp e s' : revert_entry s sp e = Val s' -> s' ⊑ s.
Proof.
  destruct e; simpl.
  - case_if; [by intros [= <-]|]. intros [= <-] b z [Hne Hz]%lookup_delete_Some. eauto.
  - destruct (s !! address) as [x|] eqn:Hx; [|done]. simpl. set (s1 := <[address := _]> s).
    assert (Hs1 : s1 ⊑ s) by (by eapply covers_insert_r).
    case_if; [|by intros [= <-]]. destruct (s1 !! target) as [u|] eqn:Hu; [|done]. simpl.
    intros [= <-]. etransitivity; [by eapply covers_insert_r|done].
  - case_if; [by intros [= <-]|]. destruct (s !! address) as [x|] eqn:Hx; [|done]. simpl.
    intros [= <-]. by eapply covers_insert_r.
  - destruct (s !! from) as [x|] eqn:Hx; [|done]. simpl. set (s1 := <[from := _]> s).
    assert (Hs1 : s1 ⊑ s) by (by eapply covers_insert_r).
    destruct (s1 !! to) as [u|] eqn:Hu; [|done]. simpl.
    intros [= <-]. etransitivity; [by eapply covers_insert_r|done].
  - destruct (s !! address) as [x|] eqn:Hx; [|done]. simpl. intros [= <-]. by eapply covers_insert_r.
  - destruct (s !! address) as [x|] eqn:Hx; [|done]. simpl. destruct had_value as [v|].
    + destruct (storage x !! key) as [sl|] eqn:Hk; [|done]. simpl. intros [= <-].
      eapply covers_insert_r; [done|]. simpl. rewrite dom_insert_L.
      assert (key ∈ dom (storage x)) by (apply elem_of_dom; eauto). set_solver.
    + intros [= <-]. eapply covers_insert_r; [done|]. simpl. set_solver.
  - destruct (s !! address) as [x|] eqn:Hx; [|done]. simpl. intros [= <-]. by eapply covers_insert_r.
Qed.

Lemma revert_all_mono s t sp es s' :
  s ⊑ t -> revert_all s sp es = Val s' -> exists t', revert_all t sp es = Val t' /\ s' ⊑ t'.
Proof.
  revert s t. induction es as [|e es IH]; intros s t Hst; simpl; [intros [= <-]; eauto|].
  destruct (revert_entry s sp e) as [s1| | |] eqn:E; try done. simpl. intros Hr.
  destruct (revert_entry_mono _ _ _ _ _ Hst E) as (t1 & -> & Hst1). simpl. by apply (IH s1 t1).
Qed.

Lemma revert_all_shrinks s sp es s' : revert_all s sp es = Val s' -> s' ⊑ s.
Proof.
  revert s. induction es as [|e es IH]; intros s; simpl; [by intros [= <-]|].
  destruct (revert_entry s sp e) as [s1| | |] eqn:E; try done. simpl. intros Hr.
  etransitivity; [by eapply IH|]. by eapply revert_entry_shrinks.
Qed.

(** Reverting only the last sets undoes less. *)
Lemma revert_sets_prefix s sp sets s' k :
  revert_sets s sp sets = Val s' ->
  exists t, revert_sets s sp (take k sets) = Val t /\ s' ⊑ t.
Proof.
  revert s k. induction sets as [|cs sets IH]; intros s k; simpl.
  { intros [= <-]. rewrite take_nil. by exists s. }
  destruct (journal_revert s cs sp) as [s1| | |] eqn:E; try done. simpl. intros Hr.
  destruct k as [|k]; simpl.
  - exists s. split; [done|]. unfold journal_revert in E.
    destruct (IH s1 0%nat Hr) as (t & Ht & Hs). simpl in Ht. injection Ht as <-.
    etransitivity; [exact Hs|]. by eapply revert_all_shrinks.
  - rewrite E. simpl. by apply IH.
Qed.

(** ** Entries in range *)

Definition entry_wf (e : JournalEntry) : Prop :=
  match e with
  | StorageChange _ _ (Some v) => is_u256 v
  | CodeChange _ c => fit_bytecode c
  | _ => True
  end.

Lemma set_nonce_wf x n : account_wf x -> is_u64 n -> account_wf (set_nonce x n).
Proof. intros [(? & ? & ? & ?) ?] ?. split; [|done]. unfold info_wf. by split_and!. Qed.
Lemma set_code_fields_wf x h c :
  account_wf x -> is_u256 h -> (forall b, c = Some b -> fit_bytecode b) ->
  account_wf (set_code_fields x h c).
Proof.
  intros [(? & ? & ? & ?) ?] ? Hc. split; [|done]. unfold info_wf. by split_and!.
Qed.
Lemma set_storage_wf x m :
  account_wf x ->
  (forall k s, m !! k = Some s -> is_u256 (original_value s) /\ is_u256 (present_value s)) ->
  account_wf (set_storage x m).
Proof. intros [? ?] ?. by split. Qed.
Lemma insert_slot_wf x k s :
  account_wf x -> is_u256 (original_value s) -> is_u256 (present_value s) ->
  account_wf (set_storage x (<[k := s]> (storage x))).
Proof.
  intros Hx Ho Hp. apply set_storage_wf; [done|].
  intros k' s' [[_ <-]|[_ H]]%lookup_insert_Some; [done|]. by apply (proj2 Hx k').
Qed.

Lemma state_wf_insert s a x : state_wf s -> account_wf x -> state_wf (<[a := x]> s).
Proof. intros Hs Hx. by apply map_Forall_insert_2. Qed.

Create HintDb acct.
#[export] Hint Resolve set_balance_wf set_destroyed_wf set_touched_wf set_nonce_wf
  wrap256_range wrap64_range state_wf_insert : acct.

Lemma state_lookup_wf s a x : state_wf s -> s !! a = Some x -> account_wf x.
Proof. intros Hs. apply (Hs a). Qed.

Lemma revert_entry_wf s sp e s' :
  state_wf s -> entry_wf e -> revert_entry s sp e = Val s' -> state_wf s'.
Proof.
  intros Hs He. destruct e; simpl in *.
  - case_if; [by intros [= <-]|]. intros [= <-]. by apply map_Forall_delete.
  - destruct (s !! address) as [x|] eqn:Hx; [|done]. simpl.
    pose proof (state_lookup_wf _ _ _ Hs Hx) as Hxw. set (s1 := <[address := _]> s).
    assert (Hs1 : state_wf s1) by (unfold s1; auto with acct).
    case_if; [|by intros [= <-]]. destruct (s1 !! target) as [u|] eqn:Hu; [|done]. simpl.
    pose proof (state_lookup_wf _ _ _ Hs1 Hu) as Huw. intros [= <-]. auto with acct.
  - case_if; [by intros [= <-]|]. destruct (s !! address) as [x|] eqn:Hx; [|done]. simpl.
    pose proof (state_lookup_wf _ _ _ Hs Hx) as Hxw. intros [= <-]. auto with acct.
  - destruct (s !! from) as [x|] eqn:Hx; [|done]. simpl.
    pose proof (state_lookup_wf _ _ _ Hs Hx) as Hxw. set (s1 := <[from := _]> s).
    assert (Hs1 : state_wf s1) by (unfold s1; auto with acct).
    destruct (s1 !! to) as [u|] eqn:Hu; [|done]. simpl.
    pose proof (state_lookup_wf _ _ _ Hs1 Hu) as Huw. intros [= <-]. auto with acct.
  - destruct (s !! address) as [x|] eqn:Hx; [|done]. simpl.
    pose proof (state_lookup_wf _ _ _ Hs Hx) as Hxw. intros [= <-]. auto with acct.
  - destruct (s !! address) as [x|] eqn:Hx; [|done]. simpl.
    pose proof (state_lookup_wf _ _ _ Hs Hx) as Hxw. destruct had_value as [v|].
    + destruct (storage x !! key) as [sl|] eqn:Hk; [|done]. simpl. intros [= <-].
      apply state_wf_insert; [done|]. apply insert_slot_wf; [done| |done].
      apply (proj2 Hxw key _ Hk).
    + intros [= <-]. apply state_wf_insert; [done|]. apply set_storage_wf; [done|].
      intros k sl [_ H]%lookup_delete_Some. by apply (proj2 Hxw k).
  - destruct (s !! address) as [x|] eqn:Hx; [|done]. simpl.
    pose proof (state_lookup_wf _ _ _ Hs Hx) as Hxw. intros [= <-].
    apply state_wf_insert; [done|]. apply set_code_fields_wf; [done|apply He|].
    intros b [= <-]. apply He.
Qed.

Lemma revert_all_wf s sp es s' :
  state_wf s -> Forall entry_wf es -> revert_all s sp es = Val s' -> state_wf s'.
Proof.
  intros Hs Hes. revert s Hs. induction Hes as [|e es He Hes IH]; intros s Hs; simpl.
  - by intros [= <-].
  - destruct (revert_entry s sp e) as [s1| | |] eqn:E; try done. simpl. apply IH.
    by eapply revert_entry_wf.
Qed.

Lemma revert_sets_wf s sp sets s' :
  state_wf s -> Forall (Forall entry_wf) sets -> revert_sets s sp sets = Val s' -> state_wf s'.
Proof.
  intros Hs Hes. revert s Hs. induction Hes as [|cs sets Hc Hes IH]; intros s Hs; simpl.
  - by intros [= <-].
  - unfold journal_revert. destruct (revert_all s sp (reverse cs)) as [s1| | |] eqn:E; try done.
    simpl. apply IH. eapply revert_all_wf; [done| |done]. by apply Forall_reverse.
Qed.

(** ** The invariant of a frame

    [jinv JB S0 b js]: the journal consists of the sets [JB] from before the
    frame's checkpoint and at least one of its own; reverting its own leads
    to a state with all that was loaded in [S0]. *)
Record jinv (JB : list (list JournalEntry)) (S0 : gmap Z Account) (b : bool)
  (js : JournaledState) : Prop := mkJinv {
  ji_undo : exists more s, js_journal js = JB ++ more /\ more <> [] /\
    revert_sets (js_state js) (negb b) (reverse more) = Val s /\ S0 ⊑ s;
  ji_wf : state_wf (js_state js);
  ji_entries : Forall (Forall entry_wf) (js_journal js);
  ji_fork : js_is_before_spurious_dragon js = b;
}.

(** What every operation does to it. *)
Record jstep (JB : list (list JournalEntry)) (S0 : gmap Z Account) (b : bool)
  (js js' : JournaledState) : Prop := mkJstep {
  jst_inv : jinv JB S0 b js';
  jst_depth : js_depth js' = js_depth js;
  jst_covers : js_state js ⊑ js_state js';
}.

Section invariant.
Context (JB : list (list JournalEntry)) (S0 : gmap Z Account) (b : bool).
Abbreviation inv := (jinv JB S0 b).
Abbreviation steps := (jstep JB S0 b).

Lemma jstep_refl js : inv js -> steps js js.
Proof. by constructor. Qed.
Lemma jstep_trans js1 js2 js3 : steps js1 js2 -> steps js2 js3 -> steps js1 js3.
Proof. intros [] []. constructor; [done|congruence|by etransitivity]. Qed.

Lemma jinv_has_journal js : inv js -> has_journal js.
Proof.
  intros [(more & s & E & Hm & _) _ _ _]. unfold has_journal. rewrite E.
  by intros [_ ?]%app_eq_nil.
Qed.

(** A change of accounts that is not journaled. *)
Lemma jstep_state js s :
  inv js -> js_state js ⊑ s -> state_wf s -> steps js (js_set_state js s).
Proof.
  intros [(more & s1 & E & Hm & Hr & Hs) Hw He Hf] Hc Hws. constructor; [|done|done].
  constructor; try done. rewrite revert_sets_concat in Hr.
  destruct (revert_all_mono _ _ _ _ _ Hc Hr) as (t & Ht & Hst).
  exists more, t. rewrite revert_sets_concat. simpl. split; [done|]. split; [done|].
  split; [done|]. by etransitivity.
Qed.

(** A journaled change: [s'] is what undoing the new entry gives. *)
Lemma jstep_push js js1 e s s' :
  inv js -> push_entry js e = Val js1 -> entry_wf e -> state_wf s -> js_state js ⊑ s ->
  revert_entry s (negb b) e = Val s' -> js_state js ⊑ s' ->
  steps js (js_set_state js1 s).
Proof.
  intros [(more & s1 & E & Hm & Hr & Hs) Hw He Hf] Hp Hew Hws Hc Hre Hc'.
  apply push_entry_val in Hp as (_ & front & l & Ej & ->). constructor; [|done|done].
  constructor; try done.
  - destruct more as [|m more _] using rev_ind; [done|]. rewrite app_assoc in E. rewrite E in Ej.
    apply app_inj_tail in Ej as [<- <-].
    rewrite revert_sets_concat in Hr. destruct (revert_all_mono _ _ _ _ _ Hc' Hr) as (t & Ht & Hst).
    exists (more ++ [m ++ [e]]), t. simpl. split; [by rewrite app_assoc|].
    split; [by intros [_ ?]%app_eq_nil|]. split; [|by etransitivity].
    rewrite revert_sets_concat, concat_app. simpl. rewrite app_nil_r, app_assoc, reverse_snoc. simpl.
    rewrite Hre. simpl. rewrite concat_app in Ht. simpl in Ht. by rewrite app_nil_r in Ht.
  - simpl. rewrite Ej in He. apply Forall_app in He as [Hfr Hl].
    apply Forall_cons_1 in Hl as [Hl _]. apply Forall_app. split; [done|].
    apply Forall_singleton, Forall_app_2; [done|]. by apply Forall_singleton.
Qed.

(** Undoing [e] finds what it needs and unloads nothing of [s]. *)
Definition can_undo (s : gmap Z Account) (e : JournalEntry) : Prop :=
  exists s', revert_entry s (negb b) e = Val s' /\ s ⊑ s'.

Lemma undo_loaded s a : s !! a = None -> can_undo s (AccountLoaded a).
Proof.
  intros Hn. unfold can_undo. simpl. case_if; eexists; (split; [done|]); [done|].
  intros c x Hx. exists x. split; [|done]. rewrite lookup_delete_ne; [done|]. congruence.
Qed.
Lemma undo_touched s a : is_Some (s !! a) -> can_undo s (AccountTouched a).
Proof.
  intros [x Hx]. unfold can_undo. simpl. rewrite Hx. simpl.
  case_if; eexists; (split; [done|]); [done|]. by eapply covers_insert.
Qed.
Lemma undo_nonce s a : is_Some (s !! a) -> can_undo s (NonceChange a).
Proof.
  intros [x Hx]. unfold can_undo. simpl. rewrite Hx. simpl. eexists. split; [done|].
  by eapply covers_insert.
Qed.
Lemma undo_code s a c : is_Some (s !! a) -> can_undo s (CodeChange a c).
Proof.
  intros [x Hx]. unfold can_undo. simpl. rewrite Hx. simpl. eexists. split; [done|].
  by eapply covers_insert.
Qed.
Lemma undo_transfer s f t v :
  is_Some (s !! f) -> is_Some (s !! t) -> can_undo s (BalanceTransfer f t v).
Proof.
  intros [x Hx] Ht. unfold can_undo. simpl. rewrite Hx. simpl. set (s1 := <[f := _]> s).
  assert (Hs1 : s ⊑ s1) by (by eapply covers_insert).
  destruct (covers_lookup _ _ t Hs1 Ht) as [y Hy]. rewrite Hy. simpl. eexists. split; [done|].
  etransitivity; [exact Hs1|]. by eapply covers_insert.
Qed.
Lemma undo_destroyed s a t d v :
  is_Some (s !! a) -> is_Some (s !! t) -> can_undo s (AccountDestroyed a t d v).
Proof.
  intros [x Hx] Ht. unfold can_undo. simpl. rewrite Hx. simpl. set (s1 := <[a := _]> s).
  assert (Hs1 : s ⊑ s1) by (by eapply covers_insert).
  case_if; [|by exists s1].
  destruct (covers_lookup _ _ t Hs1 Ht) as [y Hy]. rewrite Hy. simpl. eexists. split; [done|].
  etransitivity; [exact Hs1|]. by eapply covers_insert.
Qed.
Lemma undo_storage s a k x v :
  s !! a = Some x -> (is_Some v <-> is_Some (storage x !! k)) -> can_undo s (StorageChange a k v).
Proof.
  intros Hx Hv. unfold can_undo. simpl. rewrite Hx. simpl. destruct v as [v|].
  - destruct (proj1 Hv) as [sl Hk]; [eauto|]. rewrite Hk. simpl. eexists. split; [done|].
    eapply covers_insert; [done|]. simpl. set_solver.
  - eexists. split; [done|]. eapply covers_insert; [done|]. simpl. rewrite dom_delete_L.
    assert (k ∉ dom (storage x)); [|set_solver]. intros Hk%elem_of_dom.
    by destruct (proj2 Hv Hk).
Qed.

(** *** Rules *)

Lemma wp_push {B : Type} js e (K : JournaledState -> rust B) (Q : B -> Prop) :
  inv js -> can_undo (js_state js) e -> entry_wf e ->
  (forall js1, steps js js1 -> js_state js1 = js_state js -> wp False (K js1) Q) ->
  wp False (push_entry js e ≫= K) Q.
Proof.
  intros Hi (s' & Hr & Hc) He HK.
  destruct (push_entry_ok js e (jinv_has_journal js Hi)) as (js1 & Hp & Hs). rewrite Hp.
  apply HK; [|done]. replace js1 with (js_set_state js1 (js_state js)) by (rewrite <- Hs; by destruct js1).
  eapply jstep_push; try done. apply Hi.
Qed.

Lemma wp_touch {B : Type} js a x (K : JournaledState * Account -> rust B) (Q : B -> Prop) :
  inv js -> is_Some (js_state js !! a) ->
  (forall js1, steps js js1 -> js_state js1 = js_state js ->
    wp False (K (js1, set_touched x true)) Q) ->
  wp False (touch_account js a x ≫= K) Q.
Proof.
  intros Hi Ha HK. unfold touch_account. destruct (is_touched x) eqn:Ht; cbn [negb].
  - assert (Hx : x = set_touched x true) by (destruct x; unfold set_touched; simpl in *; by subst).
    cbn [mbind rust_bind]. rewrite Hx. apply HK; [|done]. by apply jstep_refl.
  - rewrite bind_assoc. apply wp_push; [done|by apply undo_touched|done|]. intros js1 H1 H2.
    cbn [mbind rust_bind]. by apply HK.
Qed.

(** Assigning an account that is loaded. *)
Lemma jstep_set js a x y :
  inv js -> js_state js !! a = Some x -> account_wf y -> dom (storage x) ⊆ dom (storage y) ->
  steps js (js_set_account js a y).
Proof.
  intros Hi Hx Hy Hd. apply jstep_state; [done|by eapply covers_insert|].
  apply state_wf_insert; [apply Hi|done].
Qed.

Lemma jstep_account js a x : inv js -> js_state js !! a = Some x -> account_wf x.
Proof. intros Hi. apply (ji_wf _ _ _ _ Hi a). Qed.
End invariant.

(** ** The operations *)
Section operations.
Context {DB : Type} {HDB : Database DB} (db_ok : DB -> Prop) {HS : DatabaseSpec db_ok}.
Context (JB : list (list JournalEntry)) (S0 : gmap Z Account) (b : bool).
Abbreviation inv := (jinv JB S0 b).
Abbreviation steps := (jstep JB S0 b).

(** The postcondition of an operation that answers [r]. *)
Definition jpost_safe {R : Type} (js : JournaledState) (P : R -> JournaledState -> Prop)
  (o : R * JournaledState * DB) : Prop :=
  let '(r, js', db') := o in steps js js' /\ db_ok db' /\ P r js'.

Lemma steps_inv js js' : steps js js' -> inv js'.
Proof. apply jst_inv. Qed.
Lemma steps_loaded js js' a : steps js js' -> is_Some (js_state js !! a) -> is_Some (js_state js' !! a).
Proof. intros H. eapply covers_lookup, H. Qed.

Lemma load_account_safe js a db : inv js -> db_ok db ->
  wp False (load_account js a db) (jpost_safe js (fun r js' =>
    forall x c, r = inl (x, c) -> js_state js' !! a = Some x)).
Proof.
  intros Hi Hd. unfold load_account. destruct (js_state js !! a) as [x|] eqn:Hx.
  { split; [by apply jstep_refl|]. split; [done|]. intros y c [= <- <-]. done. }
  destruct (db_basic_ok db a Hd) as [Hd' Hinfo].
  destruct (db_basic db a) as [[o|e] db'] eqn:E; simpl in *.
  - apply (wp_push JB S0 b); [done|by apply undo_loaded|done|]. intros js1 Hs1 Es1. simpl.
    split; [|split; [done|]].
    + eapply jstep_trans; [exact Hs1|]. apply jstep_state; [apply Hs1|rewrite Es1; by apply covers_new|].
      apply state_wf_insert; [apply Hs1|]. apply new_account_wf. intros i ->. by apply Hinfo.
    + intros y c [= <- <-]. by rewrite lookup_insert_eq.
  - split; [by apply jstep_refl|]. by split.
Qed.

Lemma load_code_safe js a db : inv js -> db_ok db ->
  wp False (load_code js a db) (jpost_safe js (fun r js' =>
    forall x c, r = inl (x, c) -> js_state js' !! a = Some x /\ is_Some (code (info x)))).
Proof.
  intros Hi Hd. unfold load_code. rewrite wp_bind. eapply wp_mono; [|by apply load_account_safe].
  intros [[r js1] db1] (Hs1 & Hd1 & Hr). destruct r as [[x c]|]; [|done].
  specialize (Hr x c eq_refl). pose proof (jstep_account _ _ _ _ _ _ (steps_inv _ _ Hs1) Hr) as Hxw.
  assert (Hcode : forall bc db', db_ok db' -> fit_bytecode bc ->
    jpost_safe js (fun r js' => forall x c, r = inl (x, c) ->
      js_state js' !! a = Some x /\ is_Some (code (info x)))
      (inl (B := db_error) (set_code_fields x (code_hash (info x)) (Some bc), c),
       js_set_account js1 a (set_code_fields x (code_hash (info x)) (Some bc)), db')).
  { intros bc db' Hdb' Hbc. split; [|split; [done|]].
    - eapply jstep_trans; [exact Hs1|]. eapply jstep_set; [apply Hs1|done| |done].
      apply set_code_fields_wf; [done|apply Hxw|]. by intros ? [= <-].
    - intros y d [= <- <-]. simpl. rewrite lookup_insert_eq. eauto. }
  destruct (code (info x)) as [cd|] eqn:Hcd.
  { split; [done|]. split; [done|]. intros y d [= <- <-]. split; [done|]. by rewrite Hcd. }
  case_if; [apply Hcode; [done|apply bytecode_new_wf]|].
  destruct (db_code_ok db1 (code_hash (info x)) Hd1) as [Hd2 Hb].
  destruct (db_code_by_hash db1 (code_hash (info x))) as [[bc|e] db2]; simpl in *.
  - apply Hcode; auto.
  - by split.
Qed.

Lemma load_account_exist_safe js a db : inv js -> db_ok db ->
  wp False (load_account_exist js a db) (jpost_safe js (fun r js' =>
    forall v, r = inl v -> is_Some (js_state js' !! a))).
Proof.
  intros Hi Hd. unfold load_account_exist. rewrite wp_bind.
  eapply wp_mono; [|by apply load_code_safe]. intros [[r js1] db1] (Hs1 & Hd1 & Hr).
  destruct r as [[x c]|]; [|done]. split; [done|]. split; [done|]. intros v _.
  destruct (Hr x c eq_refl) as [-> _]. eauto.
Qed.

Lemma touch_safe js a : inv js -> wp False (touch js a) (fun js' => steps js js').
Proof.
  intros Hi. unfold touch. destruct (js_state js !! a) as [x|] eqn:Hx; [|by apply jstep_refl].
  apply (wp_touch JB S0 b); [done|eauto|]. intros js1 Hs1 Es1. simpl.
  eapply jstep_trans; [exact Hs1|]. eapply jstep_set; [apply Hs1|by rewrite Es1| |done].
  apply set_touched_wf. by eapply jstep_account.
Qed.

Lemma inc_nonce_safe js a : inv js -> is_Some (js_state js !! a) ->
  wp False (inc_nonce js a) (fun '(r, js') => steps js js' /\
    forall n, r = Some n -> 1 <= n < u64_modulus).
Proof.
  intros Hi [x Hx]. unfold inc_nonce, get_account. rewrite Hx. cbn [unwrap mbind rust_bind].
  pose proof (jstep_account _ _ _ _ _ _ Hi Hx) as Hxw. pose proof Hxw as [(_ & Hn & _) _].
  case_if; [split; [by apply jstep_refl|done]|].
  apply (wp_touch JB S0 b); [done|eauto|]. intros js1 Hs1 Es1. simpl.
  apply (wp_push JB S0 b); [apply Hs1|apply undo_nonce; rewrite Es1; eauto|done|].
  intros js2 Hs2 Es2. simpl. rewrite wrap64_id by rlia. split.
  - eapply jstep_trans; [exact Hs1|]. eapply jstep_trans; [exact Hs2|].
    eapply jstep_set; [apply Hs2|by rewrite Es2, Es1| |done].
    apply set_nonce_wf; [by apply set_touched_wf|rlia].
  - intros n [= <-]. rlia.
Qed.

Lemma set_code_safe js a c : inv js -> is_Some (js_state js !! a) ->
  fit_bytecode c -> wp False (set_code js a c) (fun js' => steps js js').
Proof.
  intros Hi [x Hx] Hc. pose proof (proj2 Hc) as Hh. unfold set_code, get_account. rewrite Hx. cbn [unwrap mbind rust_bind].
  pose proof (jstep_account _ _ _ _ _ _ Hi Hx) as Hxw.
  apply (wp_touch JB S0 b); [done|eauto|]. intros js1 Hs1 Es1. cbn [mbind rust_bind].
  apply (wp_push JB S0 b); [apply Hs1|apply undo_code; rewrite Es1; eauto|done|].
  intros js2 Hs2 Es2. simpl.
  eapply jstep_trans; [exact Hs1|]. eapply jstep_trans; [exact Hs2|].
  eapply jstep_set; [apply Hs2|by rewrite Es2, Es1| |done].
  apply set_code_fields_wf; [by apply set_touched_wf|done|]. by intros ? [= <-].
Qed.

Lemma create_account_safe js a p db : inv js -> db_ok db ->
  wp False (create_account js a p db) (jpost_safe js (fun r js' =>
    forall v, r = inl v -> is_Some (js_state js' !! a))).
Proof.
  intros Hi Hd. unfold create_account. rewrite wp_bind.
  eapply wp_mono; [|by apply load_code_safe]. intros [[r js1] db1] (Hs1 & Hd1 & Hr).
  destruct r as [[x c]|]; [|done]. destruct (Hr x c eq_refl) as [Hx _].
  assert (Hdone : forall v : bool, jpost_safe js (fun r js' => forall v, r = inl v ->
    is_Some (js_state js' !! a)) (inl (B := db_error) v, js1, db1)) by (intros v; split; eauto).
  case_if; [apply Hdone|]. case_if; [apply Hdone|]. case_if; [apply Hdone|]. cbv zeta.
  pose proof (jstep_account _ _ _ _ _ _ (steps_inv _ _ Hs1) Hx) as [(Hb & Hn & Hh & Hcd) Hst].
  apply (wp_touch JB S0 b); [apply Hs1|eauto|]. intros js2 Hs2 Es2.
  cbn [mbind rust_bind wp jpost_safe].
  split; [|split; [done|]]; [|intros v _; simpl; rewrite lookup_insert_eq; eauto].
  eapply jstep_trans; [exact Hs1|]. eapply jstep_trans; [exact Hs2|].
  eapply jstep_set; [apply Hs2|by rewrite Es2| |simpl; by rewrite dom_fmap_L].
  split; simpl.
  - unfold info_wf; split_and!; [done|done|by vm_compute|done].
  - intros k s. rewrite lookup_fmap. destruct (storage x !! k); [|done]. intros [= <-]. by vm_compute.
Qed.

Lemma transfer_safe js f t v db : inv js -> db_ok db -> is_u256 v ->
  wp False (transfer js f t v db) (jpost_safe js (fun _ _ => True)).
Proof.
  intros Hi Hd Hv. unfold transfer. rewrite wp_bind.
  eapply wp_mono; [|by apply load_account_safe]. intros [[r1 js1] db1] (Hs1 & Hd1 & Hr1).
  destruct r1 as [[x1 c1]|]; [|done]. rewrite wp_bind.
  eapply wp_mono; [|by apply load_account_safe; [apply Hs1|]].
  intros [[r2 js2] db2] (Hs2 & Hd2 & Hr2). pose proof (jstep_trans _ _ _ _ _ _ Hs1 Hs2) as Hs.
  destruct r2 as [[y0 c2]|]; [|done].
  assert (Hf : is_Some (js_state js2 !! f)) by (eapply steps_loaded; [exact Hs2|]; by rewrite (Hr1 x1 c1)).
  assert (Ht : is_Some (js_state js2 !! t)) by (by rewrite (Hr2 y0 c2)).
  destruct Hf as [x Hx]. cbv beta iota. unfold get_account. rewrite Hx. cbn [unwrap mbind rust_bind].
  pose proof (jstep_account _ _ _ _ _ _ (steps_inv _ _ Hs) Hx) as Hxw.
  apply (wp_touch JB S0 b); [apply Hs|eauto|]. intros js3 Hs3 Es3. cbn [mbind rust_bind].
  unfold u256_checked_sub. case_if.
  2:{ split; [|done]. eapply jstep_trans; [exact Hs|]. eapply jstep_trans; [exact Hs3|].
      eapply jstep_set; [apply Hs3|by rewrite Es3|by apply set_touched_wf|done]. }
  set (x' := set_balance _ _). set (js4 := js_set_account js3 f x').
  assert (Hs4 : steps js3 js4).
  { eapply jstep_set; [apply Hs3|by rewrite Es3| |done]. pose proof Hxw as [(Hb & _) _].
    apply set_balance_wf; [by apply set_touched_wf|]. simpl in *. rlia. }
  assert (Ht4 : is_Some (js_state js4 !! t)).
  { eapply steps_loaded; [exact Hs4|]. by rewrite Es3. }
  destruct Ht4 as [y Hy]. rewrite Hy. cbn [unwrap mbind rust_bind].
  pose proof (jstep_account _ _ _ _ _ _ (steps_inv _ _ Hs4) Hy) as Hyw.
  assert (Hs' : steps js js4) by (repeat (eapply jstep_trans; [eassumption|]); by apply jstep_refl, Hs4).
  apply (wp_touch JB S0 b); [apply Hs4|eauto|]. intros js5 Hs5 Es5. cbn [mbind rust_bind].
  unfold u256_checked_add. case_if.
  2:{ split; [|done]. eapply jstep_trans; [exact Hs'|]. eapply jstep_trans; [exact Hs5|].
      eapply jstep_set; [apply Hs5|by rewrite Es5|by apply set_touched_wf|done]. }
  set (y' := set_balance _ _). set (js6 := js_set_account js5 t y').
  assert (Hs6 : steps js5 js6).
  { eapply jstep_set; [apply Hs5|by rewrite Es5| |done]. pose proof Hyw as [(Hb & _) _].
    apply set_balance_wf; [by apply set_touched_wf|]. simpl in *. rlia. }
  apply (wp_push JB S0 b); [apply Hs6| |done|].
  - apply undo_transfer; eapply steps_loaded; [exact Hs6| |exact Hs6|]; rewrite Es5; [|eauto].
    unfold js4. simpl. rewrite lookup_insert_eq. eauto.
  - intros js7 Hs7 Es7. cbn [wp jpost_safe]. split; [|done].
    repeat (eapply jstep_trans; [eassumption|]). by apply jstep_refl, Hs7.
Qed.

Lemma selfdestruct_safe js a t db : inv js -> db_ok db -> is_Some (js_state js !! a) ->
  wp False (selfdestruct js a t db) (jpost_safe js (fun _ _ => True)).
Proof.
  intros Hi Hd Ha. unfold selfdestruct. rewrite wp_bind.
  eapply wp_mono; [|by apply load_account_exist_safe]. intros [[r js1] db1] (Hs1 & Hd1 & Hr).
  destruct r as [[c ex]|]; [|done]. pose proof (Hr _ eq_refl) as Ht.
  destruct (steps_loaded _ _ a Hs1 Ha) as [x Hx]. cbv beta iota.
  unfold get_account. rewrite Hx. cbn [unwrap mbind rust_bind]. cbv zeta.
  pose proof (jstep_account _ _ _ _ _ _ (steps_inv _ _ Hs1) Hx) as Hxw.
  set (js2 := js_set_account js1 a _).
  assert (Hs2 : steps js1 js2).
  { eapply jstep_set; [apply Hs1|done| |done]. apply set_destroyed_wf, set_balance_wf; [done|rlia]. }
  assert (Hs : steps js js2) by (by eapply jstep_trans).
  assert (Ha2 : is_Some (js_state js2 !! a)) by (by eapply steps_loaded).
  pose proof (steps_loaded _ _ t Hs2 Ht) as Ht2. clearbody js2.
  assert (Hfin : forall js3, steps js2 js3 -> wp False (push_entry js3
    (AccountDestroyed a t (is_destroyed x) (balance (info x))) ≫= fun js4 =>
      Val (inl (B := db_error) (mkSelfDestructResult (negb (balance (info x) =? 0)) ex c
        (is_destroyed x)), js4, db1)) (jpost_safe js (fun _ _ => True))).
  { intros js3 Hs3. apply (wp_push JB S0 b); [apply Hs3| |done|].
    - apply undo_destroyed; by eapply steps_loaded.
    - intros js4 Hs4 _. cbn [wp jpost_safe]. split; [|done].
      repeat (eapply jstep_trans; [eassumption|]). by apply jstep_refl, Hs4. }
  case_if; [|cbn [mbind rust_bind]; apply Hfin, jstep_refl, Hs2].
  destruct Ht2 as [y Hy]. rewrite Hy. cbn [unwrap mbind rust_bind].
  rewrite bind_assoc. apply (wp_touch JB S0 b); [apply Hs2|eauto|]. intros js3 Hs3 Es3.
  cbn [mbind rust_bind]. apply Hfin. eapply jstep_trans; [exact Hs3|].
  eapply jstep_set; [apply Hs3|by rewrite Es3| |done].
  apply set_balance_wf; [|apply wrap256_range]. apply set_touched_wf.
  by apply (jstep_account _ _ _ _ _ _ (steps_inv _ _ Hs2) Hy).
Qed.

Lemma sload_safe js a k db : inv js -> db_ok db -> is_Some (js_state js !! a) ->
  wp False (sload js a k db) (jpost_safe js (fun r js' =>
    forall v c, r = inl (v, c) -> is_u256 v /\
      exists x, js_state js' !! a = Some x /\ is_Some (storage x !! k))).
Proof.
  intros Hi Hd [x Hx]. unfold sload, get_account. rewrite Hx. cbn [unwrap mbind rust_bind].
  pose proof (jstep_account _ _ _ _ _ _ Hi Hx) as Hxw.
  destruct (storage x !! k) as [sl|] eqn:Hk.
  { split; [by apply jstep_refl|]. split; [done|]. intros v c [= <- <-].
    split; [by apply (proj2 Hxw k)|]. eauto. }
  destruct (db_storage_ok db a k Hd) as [Hd' Hv].
  set (p := if storage_cleared x then (inl 0, db) else db_storage db a k).
  assert (Hp : db_ok p.2 /\ forall v, p.1 = inl v -> is_u256 v).
  { unfold p. destruct (storage_cleared x); [|by split]. split; [done|]. intros v [= <-]. rlia. }
  destruct p as [[v|e] db']; destruct Hp as [Hdb' Hpv]; simpl in Hdb', Hpv;
    [|split; [by apply jstep_refl|done]].
  apply (wp_push JB S0 b); [done| |done|].
  - eapply undo_storage; [done|]. rewrite Hk. by split; intros [? [=]].
  - intros js1 Hs1 Es1. cbn [wp jpost_safe]. split; [|split; [done|]].
    + eapply jstep_trans; [exact Hs1|]. eapply jstep_set; [apply Hs1|by rewrite Es1| |].
      * by apply insert_slot_wf; [|apply Hpv..].
      * simpl. rewrite dom_insert_L. apply union_subseteq_r.
    + intros w c [= <- <-]. split; [by apply Hpv|]. eexists. simpl.
      rewrite lookup_insert_eq. split; [done|]. simpl. rewrite lookup_insert_eq. eauto.
Qed.

Lemma sstore_safe js a k v db : inv js -> db_ok db -> is_Some (js_state js !! a) -> is_u256 v ->
  wp False (sstore js a k v db) (jpost_safe js (fun _ _ => True)).
Proof.
  intros Hi Hd Ha Hv. unfold sstore. rewrite wp_bind.
  eapply wp_mono; [|by apply sload_safe]. intros [[r js1] db1] (Hs1 & Hd1 & Hr).
  destruct r as [[p c]|]; [|done]. destruct (Hr p c eq_refl) as (Hp & x & Hx & [sl Hk]).
  unfold get_account. rewrite Hx. cbn [unwrap mbind rust_bind]. rewrite Hk. cbn [unwrap mbind rust_bind].
  pose proof (jstep_account _ _ _ _ _ _ (steps_inv _ _ Hs1) Hx) as Hxw.
  case_if; [by split|].
  apply (wp_push JB S0 b); [apply Hs1| |done|].
  - eapply undo_storage; [done|]. rewrite Hk. split; eauto.
  - intros js2 Hs2 Es2. cbn [wp jpost_safe]. split; [|done].
    eapply jstep_trans; [exact Hs1|]. eapply jstep_trans; [exact Hs2|].
    eapply jstep_set; [apply Hs2|by rewrite Es2| |].
    + apply insert_slot_wf; [done| |done]. by apply (proj2 Hxw k sl Hk).
    + simpl. rewrite dom_insert_L. apply union_subseteq_r.
Qed.

Lemma log_safe js l : inv js -> steps js (log js l).
Proof. intros Hi. constructor; [|done|done]. by destruct Hi. Qed.
End operations.

(** ** Accounts that are already loaded *)
Section loaded.
Context {DB : Type} {HDB : Database DB}.

Lemma load_account_loaded js a x db :
  js_state js !! a = Some x -> load_account js a db = Val (inl (x, false), js, db).
Proof. unfold load_account. by intros ->. Qed.

(** Between loaded accounts a transfer fails for lack of funds or an
    overflow only. *)
Lemma transfer_loaded js f t v db r js' db' :
  is_Some (js_state js !! f) -> is_Some (js_state js !! t) ->
  transfer js f t v db = Val (r, js', db') ->
  forall e, r = inr e -> e = OutOfFund \/ e = OverflowPayment.
Proof.
  intros [x Hx] [y Hy]. unfold transfer. rewrite (load_account_loaded _ _ _ _ Hx).
  cbn [mbind rust_bind]. rewrite (load_account_loaded _ _ _ _ Hy). cbn [mbind rust_bind].
  repeat (match goal with
    | |- (match ?o with None => _ | Some _ => _ end) = Val _ -> _ => destruct o
    | |- rust_bind _ _ _ ?m = Val _ -> _ => destruct m as [?| | |]; cbn [rust_bind]; try done
    | |- mbind _ ?m = Val _ -> _ => destruct m as [?| | |]; cbn [mbind rust_bind]; try done
    | |- (let '(_, _) := ?p in _) = Val _ -> _ => destruct p
    end); intros [= <- _ _] e [= <-]; auto.
Qed.
End loaded.

(** ** Frames *)

Lemma jinv_covers JB S0 b js : jinv JB S0 b js -> S0 ⊑ js_state js.
Proof.
  intros [(m & s & _ & _ & R & C) _ _ _]. etransitivity; [exact C|].
  rewrite revert_sets_concat in R. by eapply revert_all_shrinks.
Qed.

Section frames.
Context (JB : list (list JournalEntry)) (S0 : gmap Z Account) (b : bool).

(** A checkpoint opens a frame. *)
Lemma checkpoint_inv js :
  jinv JB S0 b js -> jinv (js_journal js) (js_state js) b (checkpoint js).2.
Proof.
  intros [_ Hw He Hf]. constructor; try done.
  - exists [[]], (js_state js). by split_and!.
  - simpl. apply Forall_app. split; [done|]. by repeat constructor.
Qed.

(** What happens in an inner frame happens in the outer one. *)
Lemma jinv_nest js js' :
  jinv JB S0 b js -> jinv (js_journal js) (js_state js) b js' -> jinv JB S0 b js'.
Proof.
  intros [(m1 & s1 & E1 & H1 & R1 & C1) _ _ _] [(m2 & s2 & E2 & H2 & R2 & C2) Hw He Hf].
  constructor; try done. rewrite revert_sets_concat in R1, R2.
  destruct (revert_all_mono _ _ _ _ _ C2 R1) as (t & Ht & Hst).
  exists (m1 ++ m2), t. rewrite revert_sets_concat, E2, E1, app_assoc, concat_app, reverse_app.
  split; [done|]. split; [by intros [? _]%app_eq_nil|]. split; [|by etransitivity].
  rewrite revert_all_app, R2. done.
Qed.

Lemma commit_inv js : jinv JB S0 b js -> jinv JB S0 b (checkpoint_commit js).
Proof. by intros []. Qed.

(** Leaving an inner frame by reverting it always succeeds. *)
Lemma revert_inv js js' :
  jinv JB S0 b js -> jinv (js_journal js) (js_state js) b js' ->
  exists js2, checkpoint_revert js' (checkpoint js).1 = Val js2 /\ jinv JB S0 b js2 /\
    js_state js ⊑ js_state js2 /\ js_depth js2 = wrap64 (js_depth js' - 1).
Proof.
  intros [(m1 & s1 & E1 & H1 & R1 & C1) _ He1 _] [(m2 & s2 & E2 & H2 & R2 & C2) Hw He Hf].
  unfold checkpoint_revert. cbn [checkpoint fst journal_i log_i]. rewrite Hf.
  set (k := Z.to_nat (wrap64 _)).
  assert (Hk : take k (reverse (js_journal js')) = take k (reverse m2)).
  { rewrite E2, reverse_app. apply take_app_le. rewrite length_reverse.
    subst k. rewrite E2. autorewrite with zlen. replace (zlen (js_journal js) + zlen m2 - zlen (js_journal js)) with (zlen m2) by lia.
    unfold wrap64. pose proof (zlen_nonneg m2). pose proof (Z.mod_le (zlen m2) u64_modulus).
    unfold zlen in *. lia. }
  rewrite Hk. destruct (revert_sets_prefix _ _ _ _ k R2) as (t & Ht & Hst). rewrite Ht.
  cbn [mbind rust_bind]. eexists. split; [done|]. cbn [js_state js_depth].
  assert (Hc : js_state js ⊑ t) by (by etransitivity).
  assert (Hj : take (Z.to_nat (zlen (js_journal js))) (js_journal js') = js_journal js).
  { rewrite E2. unfold zlen. by rewrite Nat2Z.id, take_app_length. }
  split; [|by split]. rewrite Hj. constructor; try done; cbn [js_state js_journal].
  - rewrite revert_sets_concat in R1. destruct (revert_all_mono _ _ _ _ _ Hc R1) as (u & Hu & Hsu).
    exists m1, u. rewrite revert_sets_concat. split_and!; try done. by etransitivity.
  - eapply revert_sets_wf; [exact Hw| |exact Ht]. apply Forall_take, Forall_reverse.
    rewrite E2 in He. by apply Forall_app in He as [_ He].
Qed.
End frames.
