(* ===== verification/EvmImpl.v ===== *)
(** * The driver: [revm/src/evm_impl.rs], [revm/src/evm.rs] and [primitives/src/result.rs]

    A transaction is checked, charged and executed; calls and creations run
    interpreters against the driver itself, which is their host.  The driver
    is compiled without an inspector ([INSPECT = false]).  The [static mut]
    variables of the admin precompile travel with the driver's data. *)

From stdpp Require Import base option list gmap.
From Stdlib Require Import ZArith Lia.
From S2P Require Import Prelude Primitives Gas EvmStack EvmMemory I256 Opcode Analysis Interpreter Instructions Precompile Journal.

(** ** result.rs *)

Inductive Output := OutputCall (data : list Z) | OutputCreate (data : list Z) (address : option Z).

Definition Output_into_data (o : Output) : list Z :=
  match o with OutputCall data => data | OutputCreate data _ => data end.

Module ExecutionResult.
Inductive t :=
| Success (reason : Eval.t) (gas_used gas_refunded : Z) (logs : list Log) (output : Output)
| Revert (gas_used : Z) (output : list Z)
| Halt (reason : Halt.t) (gas_used : Z).

Definition is_success (r : t) : bool := match r with Success _ _ _ _ _ => true | _ => false end.
Definition logs (r : t) : list Log := match r with Success _ _ _ logs _ => logs | _ => [] end.
Definition into_logs (r : t) : list Log := match r with Success _ _ _ logs _ => logs | _ => [] end.
Definition gas_used (r : t) : Z :=
  match r with Success _ gas_used _ _ _ | Revert gas_used _ | Halt _ gas_used => gas_used end.
End ExecutionResult.

Record ResultAndState := mkResultAndState {
  rs_result : ExecutionResult.t;
  rs_state : gmap Z Account;
}.

Module InvalidTransaction.
Inductive t :=
| GasMaxFeeGreaterThanPriorityFee | GasPriceLessThanBasefee | CallerGasLimitMoreThanBlock
| CallGasCostMoreThanGasLimit | RejectCallerWithCode
| LackOfFundForGasLimit (gas_limit balance : Z)
| OverflowPaymentInTransaction | NonceOverflowInTransaction
| NonceTooHigh (tx state : Z) | NonceTooLow (tx state : Z)
| CreateInitcodeSizeLimit | InvalidChainId.
End InvalidTransaction.

Inductive EVMError (E : Type) :=
| Transaction (e : InvalidTransaction.t)
| PrevrandaoNotSet
| DatabaseError (e : E).
Arguments Transaction {E} _.
Arguments PrevrandaoNotSet {E}.
Arguments DatabaseError {E} _.

Module EVMImpl.
Section impl.
Context {DB : Type} {HDB : Database DB} {HC : Crypto}.

(** ** The data *)

Record EVMData := mkEVMData {
  d_env : Env;
  d_journaled_state : JournaledState;
  d_db : DB;
  d_error : option db_error;
  d_precompiles : Precompiles;
  d_statics : admin.Statics;
}.

Definition set_journal (d : EVMData) (js : JournaledState) : EVMData :=
  mkEVMData (d_env d) js (d_db d) (d_error d) (d_precompiles d) (d_statics d).
Definition set_journal_db (d : EVMData) (js : JournaledState) (db : DB) : EVMData :=
  mkEVMData (d_env d) js db (d_error d) (d_precompiles d) (d_statics d).
Definition set_error (d : EVMData) (e : option db_error) : EVMData :=
  mkEVMData (d_env d) (d_journaled_state d) (d_db d) e (d_precompiles d) (d_statics d).
Definition set_statics (d : EVMData) (st : admin.Statics) : EVMData :=
  mkEVMData (d_env d) (d_journaled_state d) (d_db d) (d_error d) (d_precompiles d) st.

(** An operation on [&mut self]. *)
Definition evm (A : Type) : Type := EVMData -> rust (A * EVMData).
#[export] Instance evm_ret : MRet evm := fun A a d => Val (a, d).
#[export] Instance evm_bind : MBind evm := fun A B f m d =>
  match m d with
  | Val (a, d') => f a d'
  | Panic => Panic
  | Undef => Undef
  | Diverge => Diverge
  end.

Definition get : evm EVMData := fun d => Val (d, d).
Definition modify (f : EVMData -> EVMData) : evm unit := fun d => Val (tt, f d).
Definition lift {A : Type} (m : rust A) : evm A := fun d => a ← m; Val (a, d).

(** A method of the journaled state alone, and one that also takes the
    database. *)
Definition on_journal (f : JournaledState -> rust JournaledState) : evm unit := fun d =>
  js ← f (d_journaled_state d); Val (tt, set_journal d js).
Definition with_db {R : Type}
  (f : JournaledState -> DB -> rust (R * JournaledState * DB)) : evm R := fun d =>
  '(r, js, db) ← f (d_journaled_state d) (d_db d); Val (r, set_journal_db d js db).

(** [.map_err(|e| self.data.error = Some(e)).ok()] *)
Definition ok_or_record {A : Type} (r : A + db_error) : evm (option A) :=
  match r with
  | inl a => mret (Some a)
  | inr e => modify (fun d => set_error d (Some e));; mret None
  end.

(** ** The methods of [Host] that do not start a contract *)

Definition block_hash (number : Z) : evm (option Z) :=
  r ← with_db (fun js db => let '(r, db) := db_block_hash db number in Val (r, js, db));
  ok_or_record r.

Definition load_account (address : Z) : evm (option (bool * bool)) :=
  r ← with_db (fun js db => Journal.load_account_exist js address db); ok_or_record r.

Definition balance (address : Z) : evm (option (Z * bool)) :=
  r ← with_db (fun js db => Journal.load_account js address db);
  r ← ok_or_record r;
  mret ((fun '(acc, is_cold) => (Primitives.balance (info acc), is_cold)) <$> r).

Definition code (address : Z) : evm (option (Bytecode * bool)) :=
  r ← with_db (fun js db => load_code js address db);
  r ← ok_or_record r;
  match r with
  | None => mret None
  | Some (acc, is_cold) =>
      c ← lift (unwrap (Primitives.code (info acc))); mret (Some (c, is_cold))
  end.

Definition code_hash (address : Z) : evm (option (Z * bool)) :=
  r ← with_db (fun js db => load_code js address db);
  r ← ok_or_record r;
  match r with
  | None => mret None
  | Some (acc, is_cold) =>
      d ← get;
      if Precompiles_contains (d_precompiles d) address
         && cfg_perf_all_precompiles_have_balance (env_cfg (d_env d))
      then mret (Some (KECCAK_EMPTY, is_cold))
      else if Account_is_empty acc then mret (Some (0, is_cold))
      else mret (Some (Primitives.code_hash (info acc), is_cold))
  end.

Definition sload (address index : Z) : evm (option (Z * bool)) :=
  r ← with_db (fun js db => Journal.sload js address index db); ok_or_record r.

Definition sstore (address index value : Z) : evm (option (Z * Z * Z * bool)) :=
  r ← with_db (fun js db => Journal.sstore js address index value db); ok_or_record r.

Definition log (address : Z) (topics data : list Z) : evm unit :=
  on_journal (fun js => Val (Journal.log js (mkLog address topics data))).

Definition selfdestruct (address target : Z) : evm (option SelfDestructResult) :=
  r ← with_db (fun js db => Journal.selfdestruct js address target db); ok_or_record r.

(** The driver as a host, given what [create] and [call] do. *)
Definition host_of (create : CreateInputs -> evm (InstructionResult * option Z * Gas * list Z))
  (call : CallInputs -> evm (InstructionResult * Gas * list Z)) : Host EVMData := {|
  host_step d i _ := Val (Continue, i, d);
  host_step_end d i _ _ := Val (Continue, i, d);
  host_env := d_env;
  host_load_account d a := load_account a d;
  host_block_hash d n := block_hash n d;
  host_balance d a := balance a d;
  host_code d a := code a d;
  host_code_hash d a := code_hash a d;
  host_sload d a k := sload a k d;
  host_sstore d a k v := sstore a k v d;
  host_log d a topics data := '(_, d) ← log a topics data d; Val d;
  host_selfdestruct d a t := selfdestruct a t d;
  host_create d c := create c d;
  host_call d c := call c d;
|}.

(** ** Calls and creations *)
Section frames.
Context (SPEC : SpecId) (HH : Host EVMData).

Definition journal_checkpoint : evm JournalCheckpoint := fun d =>
  let '(c, js) := checkpoint (d_journaled_state d) in Val (c, set_journal d js).
Definition journal_commit : evm unit := on_journal (fun js => Val (checkpoint_commit js)).
Definition journal_revert_to (c : JournalCheckpoint) : evm unit :=
  on_journal (fun js => checkpoint_revert js c).
Definition journal_inc_nonce (address : Z) : evm (option Z) := fun d =>
  '(n, js) ← inc_nonce (d_journaled_state d) address; Val (n, set_journal d js).

(** [interpreter.run] on the machine built for [contract]; one iteration
    per unit of gas and the one that stops are enough. *)
Definition run_contract (contract : Contract) (gas_limit : Z) (is_static : bool) :
  evm (InstructionResult * Interpreter) := fun d =>
  let interpreter := new_with_memory_limit contract gas_limit is_static
    (cfg_memory_limit (env_cfg (d_env d))) in
  '(r, i, d) ← run SPEC (Z.to_nat gas_limit + 1) interpreter d; Val ((r, i), d).

(** The end of [create_inner]: what the init code returned becomes the code
    of the account. *)
Definition deploy (created_address : Z) (c : JournalCheckpoint)
  (exit_reason : InstructionResult) (i : Interpreter) :
  evm (InstructionResult * option Z * Gas * list Z) :=
  let ret := Some created_address in
  if return_ok exit_reason then
    bytes ← lift (return_value i);
    if enabled SPEC LONDON && negb (zlen bytes =? 0) && bool_decide (head bytes = Some 0xEF) then
      journal_revert_to c;; mret (CreateContractStartingWithEF, ret, i_gas i, bytes)
    else
      d ← get;
      let limit := default MAX_CODE_SIZE (cfg_limit_contract_code_size (env_cfg (d_env d))) in
      if enabled SPEC SPURIOUS_DRAGON && (limit <? zlen bytes) then
        journal_revert_to c;; mret (CreateContractSizeLimit, ret, i_gas i, bytes)
      else
        let gas_for_code := wrap64 (zlen bytes * gas.CODEDEPOSIT) in
        let '(g, paid) := record_cost (i_gas i) gas_for_code in
        if negb paid && enabled SPEC HOMESTEAD then
          journal_revert_to c;; mret (OutOfGas, ret, g, bytes)
        else
          let bytes := if paid then bytes else [] in
          journal_commit;;
          bytecode ←
            match cfg_perf_analyse_created_bytecodes (env_cfg (d_env d)) with
            | AnalysisRaw => mret (Bytecode_new_raw bytes)
            | AnalysisCheck => mret (Bytecode_to_checked (Bytecode_new_raw bytes))
            | AnalysisAnalyse => lift (to_analysed (Bytecode_new_raw bytes))
            end;
          on_journal (fun js => set_code js created_address bytecode);;
          mret (Return, ret, g, bytes)
  else
    journal_revert_to c;;
    bytes ← lift (return_value i);
    mret (exit_reason, ret, i_gas i, bytes).

(** The part of [create_inner] inside the checkpoint. *)
Definition create_in_checkpoint (inputs : CreateInputs) (created_address : Z)
  (c : JournalCheckpoint) : evm (InstructionResult * option Z * Gas * list Z) :=
  let gas := Gas_new (cr_gas_limit inputs) in
  let ret := Some created_address in
  d ← get;
  r ← with_db (fun js db => create_account js created_address
    (Precompiles_contains (d_precompiles d) created_address) db);
  match r with
  | inl false => journal_revert_to c;; mret (CreateCollision, ret, gas, [])
  | inr err =>
      modify (fun d => set_error d (Some err));; mret (FatalExternalError, ret, gas, [])
  | inl true =>
      r ← with_db (fun js db => transfer js (cr_caller inputs) created_address
        (cr_value inputs) db);
      match r with
      | inr e => journal_revert_to c;; mret (e, ret, gas, [])
      | inl _ =>
          n ← (if enabled SPEC SPURIOUS_DRAGON then journal_inc_nonce created_address
               else mret (Some 0));
          match n with
          | None => journal_revert_to c;; mret (Return, None, gas, [])
          | Some _ =>
              contract ← lift (Contract_new [] (Bytecode_new_raw (cr_init_code inputs))
                created_address (cr_caller inputs) (cr_value inputs));
              '(exit_reason, i) ← run_contract contract (limit gas) false;
              deploy created_address c exit_reason i
          end
      end
  end.

Definition create_inner (inputs : CreateInputs) :
  evm (InstructionResult * option Z * Gas * list Z) :=
  let gas := Gas_new (cr_gas_limit inputs) in
  load_account (cr_caller inputs);;
  d ← get;
  if CALL_STACK_LIMIT <? js_depth (d_journaled_state d) then mret (CallTooDeep, None, gas, [])
  else
    b ← balance (cr_caller inputs);
    match b with
    | None => mret (FatalExternalError, None, gas, [])
    | Some (balance, _) =>
        if balance <? cr_value inputs then mret (OutOfFund, None, gas, [])
        else
          n ← journal_inc_nonce (cr_caller inputs);
          match n with
          | None => mret (Return, None, gas, [])
          | Some nonce =>
              let old_nonce := wrap64 (nonce - 1) in
              let code_hash := keccak256 (cr_init_code inputs) in
              let created_address :=
                match cr_scheme inputs with
                | Create => create_address (cr_caller inputs) old_nonce
                | Create2 salt => create2_address (cr_caller inputs) code_hash salt
                end in
              load_account created_address;;
              c ← journal_checkpoint;
              create_in_checkpoint inputs created_address c
          end
    end.

(** [match precompile { .. }] *)
Definition call_precompile (p : Precompile) (inputs : CallInputs) : evm PrecompileResult :=
  match p with
  | Standard fun_ | Custom fun_ => lift (fun_ (ci_input inputs) (ci_gas_limit inputs))
  | CustomEnterprise fun_ => fun d =>
      '(r, st) ← fun_ (ci_input inputs) (ci_gas_limit inputs) (ci_context inputs) (d_statics d);
      Val (r, set_statics d st)
  end.

Definition run_precompile (p : Precompile) (inputs : CallInputs) (c : JournalCheckpoint) :
  evm (InstructionResult * Gas * list Z) :=
  let gas := Gas_new (ci_gas_limit inputs) in
  out ← call_precompile p inputs;
  match out with
  | inl (gas_used, data) =>
      let '(gas, paid) := record_cost gas gas_used in
      if paid then journal_commit;; mret (Return, gas, data)
      else journal_revert_to c;; mret (PrecompileOOG, gas, [])
  | inr e =>
      let ret := if decide (e = POutOfGas) then PrecompileOOG else Primitives.PrecompileError in
      journal_revert_to c;; mret (ret, gas, [])
  end.

Definition run_code (bytecode : Bytecode) (inputs : CallInputs) (c : JournalCheckpoint) :
  evm (InstructionResult * Gas * list Z) :=
  let gas := Gas_new (ci_gas_limit inputs) in
  contract ← lift (Contract_new_with_context (ci_input inputs) bytecode (ci_context inputs));
  '(exit_reason, i) ← run_contract contract (limit gas) (ci_is_static inputs);
  (if return_ok exit_reason then journal_commit else journal_revert_to c);;
  out ← lift (return_value i);
  mret (exit_reason, i_gas i, out).

Definition call_inner (inputs : CallInputs) : evm (InstructionResult * Gas * list Z) :=
  let gas := Gas_new (ci_gas_limit inputs) in
  b ← code (ci_contract inputs);
  match b with
  | None => mret (FatalExternalError, gas, [])
  | Some (bytecode, _) =>
      d ← get;
      if CALL_STACK_LIMIT <? js_depth (d_journaled_state d) then mret (CallTooDeep, gas, [])
      else
        c ← journal_checkpoint;
        (if tr_value (ci_transfer inputs) =? 0 then
           load_account (cc_address (ci_context inputs));;
           on_journal (fun js => touch js (cc_address (ci_context inputs)))
         else mret tt);;
        r ← with_db (fun js db => transfer js (tr_source (ci_transfer inputs))
          (tr_target (ci_transfer inputs)) (tr_value (ci_transfer inputs)) db);
        match r with
        | inr e => journal_revert_to c;; mret (e, gas, [])
        | inl _ =>
            match Precompiles_get (d_precompiles d) (ci_contract inputs) with
            | Some precompile => run_precompile precompile inputs c
            | None => run_code bytecode inputs c
            end
        end
  end.
End frames.

(** ** Nesting

    [evm_host n]: the driver as the host of a frame below which frames may
    nest [n] deep.  The depth guard refuses to go below depth
    [CALL_STACK_LIMIT], which makes [nesting] enough for the frame of a
    transaction (proved in [EvmSafety]). *)
Fixpoint evm_host (SPEC : SpecId) (n : nat) : Host EVMData :=
  match n with
  | O => host_of (fun _ _ => Diverge) (fun _ _ => Diverge)
  | S n =>
      let HH := evm_host SPEC n in host_of (create_inner SPEC HH) (call_inner SPEC HH)
  end.

Definition nesting : nat := 1025.
Definition create_frame (SPEC : SpecId) : CreateInputs ->
  evm (InstructionResult * option Z * Gas * list Z) := create_inner SPEC (evm_host SPEC nesting).
Definition call_frame (SPEC : SpecId) : CallInputs -> evm (InstructionResult * Gas * list Z) :=
  call_inner SPEC (evm_host SPEC nesting).

(** ** Transactions

    [Result]-returning methods: [?] stops at the first error. *)
Definition evm_res (A : Type) : Type := evm (A + EVMError db_error).
#[export] Instance evm_res_bind : MBind evm_res := fun A B f m d =>
  match m d with
  | Val (inl a, d') => f a d'
  | Val (inr e, d') => Val (inr e, d')
  | Panic => Panic
  | Undef => Undef
  | Diverge => Diverge
  end.
#[export] Instance evm_res_ret : MRet evm_res := fun A a d => Val (inl a, d).
Definition no_error {A : Type} (m : evm A) : evm_res A := fun d =>
  '(a, d) ← m d; Val (inl a, d).
Definition err {A : Type} (e : EVMError db_error) : evm_res A := fun d => Val (inr e, d).
Definition reject_if (b : bool) (e : EVMError db_error) : evm_res unit :=
  if b then err e else mret tt.
(** [.map_err(EVMError::Database)?] *)
Definition db_result {R : Type}
  (f : JournaledState -> DB -> rust ((R + db_error) * JournaledState * DB)) : evm_res R :=
  fun d =>
  '(r, d) ← with_db f d;
  Val (match r with inl a => inl a | inr e => inr (DatabaseError e) end, d).

Section transact.
Context (SPEC : SpecId).

(** The loops of [initialization] over the access list. *)
Fixpoint load_slots (address : Z) (slots : list Z) : evm_res unit :=
  match slots with
  | [] => mret tt
  | slot :: slots =>
      db_result (fun js db => Journal.sload js address slot db);; load_slots address slots
  end.

Fixpoint load_access_list (l : list (Z * list Z)) (accessed_slots : Z) : evm_res Z :=
  match l with
  | [] => mret accessed_slots
  | (address, slots) :: l =>
      db_result (fun js db => Journal.load_account js address db);;
      load_slots address slots;;
      load_access_list l (wrap64 (accessed_slots + zlen slots))
  end.

Definition initialization : evm_res Z :=
  d ← (no_error get : evm_res EVMData);
  let tx := env_tx (d_env d) in
  let is_create := TransactTo_is_create (tx_transact_to tx) in
  let input := tx_data tx in
  let max_initcode_size :=
    match cfg_limit_contract_code_size (env_cfg (d_env d)) with
    | Some limit => Z.min (limit * 2) u64_max
    | None => MAX_INITCODE_SIZE
    end in
  let metered := enabled SPEC SHANGHAI && is_create in
  (reject_if (metered && (max_initcode_size <? zlen input))
    (Transaction InvalidTransaction.CreateInitcodeSizeLimit) : evm_res unit);;
  let initcode_cost := if metered then Gas.initcode_cost (zlen input) else 0 in
  let zero_data_len := zlen (filter (fun v => v = 0) input) in
  let non_zero_data_len := wrap64 (zlen input - zero_data_len) in
  '(accessed_accounts, accessed_slots) ←
    ((if enabled SPEC BERLIN then
       slots ← load_access_list (tx_access_list tx) 0;
       mret (zlen (tx_access_list tx), slots)
     else mret (0, 0)) : evm_res (Z * Z));
  let transact :=
    if is_create then if enabled SPEC HOMESTEAD then 53000 else 21000 else 21000 in
  let gas_transaction_non_zero_data := if enabled SPEC ISTANBUL then 16 else 68 in
  mret (wrap64 (transact + initcode_cost + zero_data_len * gas.TRANSACTION_ZERO_DATA
    + non_zero_data_len * gas_transaction_non_zero_data
    + accessed_accounts * gas.ACCESS_LIST_ADDRESS
    + accessed_slots * gas.ACCESS_LIST_STORAGE_KEY)).

(** Pay the caller back and the coinbase; [gas] is the counter of the
    transaction. *)
Definition settle (caller : Z) (gas : Gas) : evm (Z * Z) :=
  d ← get;
  let coinbase := block_coinbase (env_block (d_env d)) in
  let effective_gas_price := effective_gas_price (d_env d) in
  let basefee := block_basefee (env_block (d_env d)) in
  let max_refund_quotient := if enabled SPEC LONDON then 5 else 2 in
  let gas_refunded := Z.min (wrap64 (refunded gas)) (spend gas / max_refund_quotient) in
  on_journal (fun js =>
    a ← get_account js caller;
    Val (js_set_account js caller (set_balance a (u256_saturating_add
      (Primitives.balance (info a))
      (wrap256 (effective_gas_price * wrap64 (remaining gas + gas_refunded)))))));;
  let coinbase_gas_price :=
    if enabled SPEC LONDON then u256_saturating_sub effective_gas_price basefee
    else effective_gas_price in
  with_db (fun js db => Journal.load_account js coinbase db);;
  on_journal (fun js => touch js coinbase);;
  on_journal (fun js =>
    a ← get_account js coinbase;
    Val (js_set_account js coinbase (set_balance a (u256_saturating_add
      (Primitives.balance (info a))
      (wrap256 (coinbase_gas_price * wrap64 (spend gas - gas_refunded)))))));;
  mret (wrap64 (spend gas - gas_refunded), gas_refunded).

(** The loop of [finalize] over the addresses of the precompiles. *)
Fixpoint add_precompile_balances (addresses : list Z) (new_state : gmap Z Account) :
  evm (gmap Z Account) :=
  match addresses with
  | [] => mret new_state
  | address :: addresses =>
      match new_state !! address with
      | None => add_precompile_balances addresses new_state
      | Some a =>
          o ← with_db (fun js db => let '(r, db) := db_basic db address in Val (r, js, db));
          let amount :=
            match o with inl (Some acc) => Primitives.balance acc | _ => 0 end in
          add_precompile_balances addresses (<[address :=
            set_balance a (wrap256 (Primitives.balance (info a) + amount))]> new_state)
      end
  end.

Definition finalize (caller : Z) (gas : Gas) : evm (gmap Z Account * list Log * Z * Z) :=
  '(gas_used, gas_refunded) ← settle caller gas;
  d ← get;
  let '(new_state, logs, js) := Journal.finalize (d_journaled_state d) in
  modify (fun d => set_journal d js);;
  new_state ←
    (if cfg_perf_all_precompiles_have_balance (env_cfg (d_env d)) then
       add_precompile_balances (Precompiles_addresses (d_precompiles d)) new_state
     else mret new_state);
  mret (new_state, logs, gas_used, gas_refunded).

(** The checks of [transact] on the environment alone. *)
Definition validate_env (e : Env) : option (EVMError db_error) :=
  if enabled SPEC MERGE && bool_decide (block_prevrandao (env_block e) = None)
  then Some PrevrandaoNotSet
  else if enabled SPEC LONDON &&
    match tx_gas_priority_fee (env_tx e) with
    | Some priority_fee => tx_gas_price (env_tx e) <? priority_fee
    | None => false
    end
  then Some (Transaction InvalidTransaction.GasMaxFeeGreaterThanPriorityFee)
  else if enabled SPEC LONDON && negb (cfg_disable_base_fee (env_cfg e)) &&
    (effective_gas_price e <? block_basefee (env_block e))
  then Some (Transaction InvalidTransaction.GasPriceLessThanBasefee)
  else if negb (cfg_disable_block_gas_limit (env_cfg e)) &&
    (block_gas_limit (env_block e) <? tx_gas_limit (env_tx e))
  then Some (Transaction InvalidTransaction.CallerGasLimitMoreThanBlock)
  else None.

(** The checks on the loaded caller. *)
Definition validate_caller (e : Env) (acc : AccountInfo) : option InvalidTransaction.t :=
  if negb (cfg_disable_eip3607 (env_cfg e)) && negb (Primitives.code_hash acc =? KECCAK_EMPTY)
  then Some InvalidTransaction.RejectCallerWithCode
  else if match tx_chain_id (env_tx e) with
    | Some tx_chain_id => negb (tx_chain_id =? cfg_chain_id (env_cfg e))
    | None => false
    end
  then Some InvalidTransaction.InvalidChainId
  else
    match tx_nonce (env_tx e) with
    | None => None
    | Some tx_nonce =>
        match Z.compare tx_nonce (nonce acc) with
        | Gt => Some (InvalidTransaction.NonceTooHigh tx_nonce (nonce acc))
        | Lt => Some (InvalidTransaction.NonceTooLow tx_nonce (nonce acc))
        | Eq => None
        end
    end.

(** Reserve [gas_limit * gas_price] of the caller's balance. *)
Definition reserve_gas (e : Env) (caller_balance : Z) : Z + InvalidTransaction.t :=
  let gas_limit := tx_gas_limit (env_tx e) in
  match (gas_cost ← u256_checked_mul gas_limit (tx_gas_price (env_tx e));
         u256_checked_add gas_cost (tx_value (env_tx e))) with
  | None => inr InvalidTransaction.OverflowPaymentInTransaction
  | Some balance_check =>
      if caller_balance <? balance_check
      then inr (InvalidTransaction.LackOfFundForGasLimit balance_check caller_balance)
      else inl (default 0 (u256_checked_sub caller_balance
        (wrap256 (gas_limit * effective_gas_price e))))
  end.

(** The counter of the transaction after its frame came back. *)
Definition credit_frame (gas : Gas) (exit_reason : InstructionResult) (ret_gas : Gas) : Gas :=
  if return_ok exit_reason then
    record_refund (erase_cost gas (remaining ret_gas)) (refunded ret_gas)
  else if return_revert exit_reason then erase_cost gas (remaining ret_gas)
  else gas.

(** Run the frame of the transaction. *)
Definition execute (gas : Gas) (gas_limit : Z) : evm (InstructionResult * Gas * Output) :=
  d ← get;
  let tx := env_tx (d_env d) in
  match tx_transact_to tx with
  | TransactCall address =>
      n ← journal_inc_nonce (tx_caller tx);
      match n with
      | Some _ =>
          let context := mkCallContext address (tx_caller tx) address (tx_value tx) Call in
          '(exit, gas, bytes) ← call_frame SPEC (mkCallInputs address
            (mkTransfer (tx_caller tx) address (tx_value tx)) (tx_data tx) gas_limit
            context false);
          mret (exit, gas, OutputCall bytes)
      | None => mret (NonceOverflow, gas, OutputCall [])
      end
  | TransactCreate scheme =>
      '(exit, address, ret_gas, bytes) ← create_frame SPEC
        (mkCreateInputs (tx_caller tx) scheme (tx_value tx) (tx_data tx) gas_limit);
      mret (exit, ret_gas, OutputCreate bytes address)
  end.

(** [exit_reason.into()] and the result built from it. *)
Definition conclude (exit_reason : InstructionResult) (output : Output)
  (fin : gmap Z Account * list Log * Z * Z) : evm_res ResultAndState :=
  let '(state, logs, gas_used, gas_refunded) := fin in
  match SuccessOrHalt.from exit_reason with
  | SuccessOrHalt.Success reason =>
      mret (mkResultAndState
        (ExecutionResult.Success reason gas_used gas_refunded logs output) state)
  | SuccessOrHalt.Revert =>
      mret (mkResultAndState (ExecutionResult.Revert gas_used (Output_into_data output)) state)
  | SuccessOrHalt.Halt reason =>
      mret (mkResultAndState (ExecutionResult.Halt reason gas_used) state)
  | SuccessOrHalt.FatalExternalError => fun d =>
      e ← unwrap (d_error d); Val (inr (DatabaseError e), set_error d None)
  | SuccessOrHalt.InternalContinue => fun _ => Panic
  end.

Definition transact : evm_res ResultAndState :=
  d ← (no_error get : evm_res EVMData);
  let e := d_env d in
  let caller := tx_caller (env_tx e) in
  (match validate_env e with Some x => err x | None => mret tt end : evm_res unit);;
  '(acc, _) ← (db_result (fun js db => Journal.load_account js caller db) :
    evm_res (Account * bool));
  (match validate_caller e (info acc) with
   | Some x => err (Transaction x)
   | None => mret tt
   end : evm_res unit);;
  (match reserve_gas e (Primitives.balance (info acc)) with
   | inr x => err (Transaction x)
   | inl b => no_error (on_journal (fun js =>
       a ← get_account js caller; Val (js_set_account js caller (set_balance a b))))
   end : evm_res unit);;
  initial ← initialization;
  let '(gas, paid) := record_cost (Gas_new (tx_gas_limit (env_tx e))) initial in
  (reject_if (negb paid) (Transaction InvalidTransaction.CallGasCostMoreThanGasLimit) :
    evm_res unit);;
  let gas_limit := remaining gas in
  let '(gas, _) := record_cost gas gas_limit in
  ((if enabled SPEC SHANGHAI then
      db_result (fun js db => Journal.load_account js (block_coinbase (env_block e)) db);;
      mret tt
    else mret tt) : evm_res unit);;
  '(exit_reason, ret_gas, output) ←
    (no_error (execute gas gas_limit) : evm_res (InstructionResult * Gas * Output));
  let gas := credit_frame gas exit_reason ret_gas in
  fin ← (no_error (finalize caller gas) : evm_res (gmap Z Account * list Log * Z * Z));
  conclude exit_reason output fin.

Definition new (db : DB) (env : Env) (precompiles : Precompiles) (st : admin.Statics) :
  EVMData :=
  let journaled_state :=
    if enabled SPEC SPURIOUS_DRAGON then JournaledState_new (Precompiles_len precompiles)
    else JournaledState_new_legacy (Precompiles_len precompiles) in
  mkEVMData env journaled_state db None precompiles st.
End transact.
End impl.
End EVMImpl.

(** ** evm.rs *)

Definition to_precompile_id (spec_id : SpecId) : PrecompileSpec.t :=
  match spec_id with
  | FRONTIER | FRONTIER_THAWING | HOMESTEAD | DAO_FORK | TANGERINE | SPURIOUS_DRAGON =>
      PrecompileSpec.HOMESTEAD
  | BYZANTIUM | CONSTANTINOPLE | PETERSBURG => PrecompileSpec.BYZANTIUM
  | ISTANBUL | MUIR_GLACIER => PrecompileSpec.ISTANBUL
  | BERLIN | LONDON | ARROW_GLACIER | GRAY_GLACIER | MERGE | SHANGHAI | CANCUN | LATEST =>
      PrecompileSpec.BERLIN
  end.

(** The [SPEC_ID] of the specification [evm_inner] selects. *)
Definition evm_inner_spec (spec_id : SpecId) : SpecId :=
  match spec_id with
  | FRONTIER | FRONTIER_THAWING => FRONTIER
  | HOMESTEAD | DAO_FORK => HOMESTEAD
  | TANGERINE => TANGERINE
  | SPURIOUS_DRAGON => SPURIOUS_DRAGON
  | BYZANTIUM => BYZANTIUM
  | PETERSBURG | CONSTANTINOPLE => PETERSBURG
  | ISTANBUL | MUIR_GLACIER => ISTANBUL
  | BERLIN => BERLIN
  | LONDON | ARROW_GLACIER | GRAY_GLACIER => LONDON
  | MERGE => MERGE
  | SHANGHAI => SHANGHAI
  | CANCUN | LATEST => LATEST
  end.

Class DatabaseCommit (DB : Type) := { db_commit : DB -> gmap Z Account -> DB }.

Module EVM.
Record t (DB : Type) := mk { env : Env; db : option DB }.
Arguments mk {DB} _ _.
Arguments env {DB} _.
Arguments db {DB} _.

Definition with_env {DB : Type} (e : Env) : t DB := mk e None.
Definition new {DB : Type} : t DB :=
  with_env (mkEnv CfgEnv_default BlockEnv_default TxEnv_default).
Definition database {DB : Type} (self : t DB) (db : DB) : t DB := mk (env self) (Some db).
Definition take_db {DB : Type} (self : t DB) : rust (DB * t DB) :=
  db ← unwrap (db self); Val (db, mk (env self) None).

Section evm.
Context {DB : Type} {HDB : Database DB} {HC : Crypto} {HX : HashCrates} {HB : Bn} {HO : Os}.

Definition evm_inner (e : Env) (db : DB) (st : admin.Statics) : EVMImpl.EVMData :=
  let SPEC := evm_inner_spec (cfg_spec_id (env_cfg e)) in
  EVMImpl.new SPEC db e (Precompiles_new (to_precompile_id SPEC)) st.

Definition transact (self : t DB) (st : admin.Statics) :
  rust ((ResultAndState + EVMError db_error) * t DB * admin.Statics) :=
  match db self with
  | Some db =>
      let SPEC := evm_inner_spec (cfg_spec_id (env_cfg (env self))) in
      '(out, d) ← EVMImpl.transact SPEC (evm_inner (env self) db st);
      Val (out, mk (EVMImpl.d_env d) (Some (EVMImpl.d_db d)), EVMImpl.d_statics d)
  | None => Panic
  end.

Definition transact_commit `{!DatabaseCommit DB} (self : t DB) (st : admin.Statics) :
  rust ((ExecutionResult.t + EVMError db_error) * t DB * admin.Statics) :=
  '(out, self, st) ← transact self st;
  match out with
  | inr e => Val (inr e, self, st)
  | inl rs =>
      db ← unwrap (db self);
      Val (inl (rs_result rs), mk (env self) (Some (db_commit db (rs_state rs))), st)
  end.
End evm.
End EVM.
