(* ===== verification/CacheDB.v ===== *)
(** * Databases: [revm/src/db/in_memory_db.rs], [primitives/src/db.rs] and [primitives/src/db/components]

    [CacheDB] keeps in maps what it has read from an external database and
    what transactions have committed. *)

From stdpp Require Import base option list gmap.
From Stdlib Require Import ZArith Lia.
From S2P Require Import Prelude Primitives Precompile Journal EvmImpl.

(** ** db.rs: read-only databases *)
Class DatabaseRef (DB : Type) := {
  ref_error : Type;
  ref_basic : DB -> Z -> option AccountInfo + ref_error;
  ref_code_by_hash : DB -> Z -> Bytecode + ref_error;
  ref_storage : DB -> Z -> Z -> Z + ref_error;
  ref_block_hash : DB -> Z -> Z + ref_error;
}.

Record RefDBWrapper (DB : Type) := mkRefDBWrapper { wrapped : DB }.
Arguments mkRefDBWrapper {DB} _.
Arguments wrapped {DB} _.

#[export] Instance RefDBWrapper_Database (DB : Type) `{!DatabaseRef DB} :
  Database (RefDBWrapper DB) := {
  db_error := ref_error;
  db_basic w a := (ref_basic (wrapped w) a, w);
  db_code_by_hash w h := (ref_code_by_hash (wrapped w) h, w);
  db_storage w a k := (ref_storage (wrapped w) a k, w);
  db_block_hash w n := (ref_block_hash (wrapped w) n, w);
}.

(** [EVM::transact_ref]: a transaction over a database that is only read *)
Section transact_ref.
Context {DB : Type} {HR : DatabaseRef DB} {HC : Crypto} {HX : HashCrates} {HB : Bn} {HO : Os}.
Definition EVM_transact_ref (self : EVM.t DB) (st : admin.Statics) :
  rust ((ResultAndState + EVMError (db_error (DB := RefDBWrapper DB))) * admin.Statics) :=
  match EVM.db self with
  | Some db =>
      let SPEC := evm_inner_spec (cfg_spec_id (env_cfg (EVM.env self))) in
      '(out, d) ← EVMImpl.transact SPEC (EVM.evm_inner (EVM.env self) (mkRefDBWrapper db) st);
      Val (out, EVMImpl.d_statics d)
  | None => Panic
  end.
End transact_ref.

(** ** components.rs: state and block hashes from different sources *)
Class State (S : Type) := {
  state_error : Type;
  state_basic : S -> Z -> (option AccountInfo + state_error) * S;
  state_code_by_hash : S -> Z -> (Bytecode + state_error) * S;
  state_storage : S -> Z -> Z -> (Z + state_error) * S;
}.
Class BlockHash (B : Type) := {
  block_hash_error : Type;
  block_hash_of : B -> Z -> (Z + block_hash_error) * B;
}.

Record DatabaseComponents (S B : Type) := mkDatabaseComponents { dc_state : S; dc_block_hash : B }.
Arguments mkDatabaseComponents {S B} _ _.
Arguments dc_state {S B} _.
Arguments dc_block_hash {S B} _.

Inductive DatabaseComponentError (SE BHE : Type) := StateError (e : SE) | BlockHashError (e : BHE).
Arguments StateError {SE BHE} _.
Arguments BlockHashError {SE BHE} _.

Definition map_err {A E F : Type} (f : E -> F) (r : A + E) : A + F :=
  match r with inl a => inl a | inr e => inr (f e) end.

#[export] Instance DatabaseComponents_Database (S B : Type) `{!State S, !BlockHash B} :
  Database (DatabaseComponents S B) := {
  db_error := DatabaseComponentError state_error block_hash_error;
  db_basic d a :=
    let '(r, s) := state_basic (dc_state d) a in
    (map_err StateError r, mkDatabaseComponents s (dc_block_hash d));
  db_code_by_hash d h :=
    let '(r, s) := state_code_by_hash (dc_state d) h in
    (map_err StateError r, mkDatabaseComponents s (dc_block_hash d));
  db_storage d a k :=
    let '(r, s) := state_storage (dc_state d) a k in
    (map_err StateError r, mkDatabaseComponents s (dc_block_hash d));
  db_block_hash d n :=
    let '(r, b) := block_hash_of (dc_block_hash d) n in
    (map_err BlockHashError r, mkDatabaseComponents (dc_state d) b);
}.

(** The read-only components, and their use as components behind [&T] and
    [Arc<T>]. *)
Class StateRef (S : Type) := {
  state_ref_error : Type;
  state_ref_basic : S -> Z -> option AccountInfo + state_ref_error;
  state_ref_code_by_hash : S -> Z -> Bytecode + state_ref_error;
  state_ref_storage : S -> Z -> Z -> Z + state_ref_error;
}.
Class BlockHashRef (B : Type) := {
  block_hash_ref_error : Type;
  block_hash_ref_of : B -> Z -> Z + block_hash_ref_error;
}.

Record Shared (T : Type) := mkShared { deref : T }.
Arguments mkShared {T} _.
Arguments deref {T} _.

#[export] Instance Shared_State (S : Type) `{!StateRef S} : State (Shared S) := {
  state_error := state_ref_error;
  state_basic s a := (state_ref_basic (deref s) a, s);
  state_code_by_hash s h := (state_ref_code_by_hash (deref s) h, s);
  state_storage s a k := (state_ref_storage (deref s) a k, s);
}.
#[export] Instance Shared_BlockHash (B : Type) `{!BlockHashRef B} : BlockHash (Shared B) := {
  block_hash_error := block_hash_ref_error;
  block_hash_of b n := (block_hash_ref_of (deref b) n, b);
}.

#[export] Instance DatabaseComponents_DatabaseRef (S B : Type)
  `{!StateRef S, !BlockHashRef B} : DatabaseRef (DatabaseComponents S B) := {
  ref_error := DatabaseComponentError state_ref_error block_hash_ref_error;
  ref_basic d a := map_err StateError (state_ref_basic (dc_state d) a);
  ref_code_by_hash d h := map_err StateError (state_ref_code_by_hash (dc_state d) h);
  ref_storage d a k := map_err StateError (state_ref_storage (dc_state d) a k);
  ref_block_hash d n := map_err BlockHashError (block_hash_ref_of (dc_block_hash d) n);
}.

(** ** in_memory_db.rs *)

Inductive AccountState := NotExisting | Touched | StorageCleared | StateNone.
#[export] Instance AccountState_eq_dec : EqDecision AccountState.
Proof. solve_decision. Defined.

Definition is_storage_cleared (s : AccountState) : bool :=
  match s with StorageCleared => true | _ => false end.

Record DbAccount := mkDbAccount {
  da_info : AccountInfo;
  da_account_state : AccountState;
  da_storage : gmap Z Z;
}.

Definition DbAccount_default : DbAccount := mkDbAccount AccountInfo_default StateNone ∅.
Definition DbAccount_new_not_existing : DbAccount :=
  mkDbAccount AccountInfo_default NotExisting ∅.
Definition DbAccount_info (a : DbAccount) : option AccountInfo :=
  match da_account_state a with NotExisting => None | _ => Some (da_info a) end.
Definition DbAccount_from (from : option AccountInfo) : DbAccount :=
  match from with
  | Some info => mkDbAccount info StateNone ∅
  | None => DbAccount_new_not_existing
  end.

Record CacheDB (ExtDB : Type) := mkCacheDB {
  cd_accounts : gmap Z DbAccount;
  cd_contracts : gmap Z Bytecode;
  cd_logs : list Log;
  cd_block_hashes : gmap Z Z;
  cd_db : ExtDB;
}.
Arguments mkCacheDB {ExtDB} _ _ _ _ _.
Arguments cd_accounts {ExtDB} _.
Arguments cd_contracts {ExtDB} _.
Arguments cd_logs {ExtDB} _.
Arguments cd_block_hashes {ExtDB} _.
Arguments cd_db {ExtDB} _.

Section cache.
Context {ExtDB : Type} {HR : DatabaseRef ExtDB}.
Abbreviation Cache := (CacheDB ExtDB).

Definition set_accounts (c : Cache) (m : gmap Z DbAccount) : Cache :=
  mkCacheDB m (cd_contracts c) (cd_logs c) (cd_block_hashes c) (cd_db c).
Definition set_contracts (c : Cache) (m : gmap Z Bytecode) : Cache :=
  mkCacheDB (cd_accounts c) m (cd_logs c) (cd_block_hashes c) (cd_db c).
Definition set_block_hashes (c : Cache) (m : gmap Z Z) : Cache :=
  mkCacheDB (cd_accounts c) (cd_contracts c) (cd_logs c) m (cd_db c).
Definition set_account (c : Cache) (address : Z) (a : DbAccount) : Cache :=
  set_accounts c (<[address := a]> (cd_accounts c)).

Definition CacheDB_new (db : ExtDB) : Cache :=
  mkCacheDB ∅ (<[0 := Bytecode_new]> {[KECCAK_EMPTY := Bytecode_new]}) [] ∅ db.

Definition insert_contract (c : Cache) (account : AccountInfo) : Cache * AccountInfo :=
  let '(c, account) :=
    match Primitives.code account with
    | Some code =>
        if negb (Bytecode_is_empty code) then
          let account := mkAccountInfo (balance account) (nonce account) (bc_hash code)
            (Primitives.code account) in
          (match cd_contracts c !! bc_hash code with
           | Some _ => c
           | None => set_contracts c (<[bc_hash code := code]> (cd_contracts c))
           end, account)
        else (c, account)
    | None => (c, account)
    end in
  (c, if code_hash account =? 0
      then mkAccountInfo (balance account) (nonce account) KECCAK_EMPTY (Primitives.code account)
      else account).

(** [self.accounts.entry(address).or_default()] *)
Definition entry_or_default (c : Cache) (address : Z) : DbAccount :=
  default DbAccount_default (cd_accounts c !! address).

Definition insert_account_info (c : Cache) (address : Z) (info : AccountInfo) : Cache :=
  let '(c, info) := insert_contract c info in
  let a := entry_or_default c address in
  set_account c address (mkDbAccount info (da_account_state a) (da_storage a)).

Definition load_account (c : Cache) (address : Z) : (DbAccount + ref_error) * Cache :=
  match cd_accounts c !! address with
  | Some a => (inl a, c)
  | None =>
      match ref_basic (cd_db c) address with
      | inr e => (inr e, c)
      | inl o => let a := DbAccount_from o in (inl a, set_account c address a)
      end
  end.

Definition insert_account_storage (c : Cache) (address slot value : Z) :
  (unit + ref_error) * Cache :=
  match load_account c address with
  | (inr e, c) => (inr e, c)
  | (inl a, c) =>
      (inl tt, set_account c address
        (mkDbAccount (da_info a) (da_account_state a) (<[slot := value]> (da_storage a))))
  end.

Definition replace_account_storage (c : Cache) (address : Z) (storage : gmap Z Z) :
  (unit + ref_error) * Cache :=
  match load_account c address with
  | (inr e, c) => (inr e, c)
  | (inl a, c) => (inl tt, set_account c address (mkDbAccount (da_info a) StorageCleared storage))
  end.

(** ** [DatabaseCommit] *)

Definition commit_account (c : Cache) (address : Z) (account : Account) : Cache :=
  if is_destroyed account then
    set_account c address (mkDbAccount AccountInfo_default NotExisting ∅)
  else
    let '(c, info) := insert_contract c (info account) in
    let db_account := entry_or_default c address in
    let '(state, storage_) :=
      if storage_cleared account then (StorageCleared, ∅)
      else if is_storage_cleared (da_account_state db_account)
      then (StorageCleared, da_storage db_account)
      else (Touched, da_storage db_account) in
    set_account c address
      (mkDbAccount info state ((present_value <$> storage account) ∪ storage_)).

(** The changes come from a hash map; here in the order of [map_to_list]. *)
Definition commit (c : Cache) (changes : gmap Z Account) : Cache :=
  foldl (fun c '(address, account) => commit_account c address account) c (map_to_list changes).

(** ** [Database] *)

Definition CacheDB_block_hash (c : Cache) (number : Z) : (Z + ref_error) * Cache :=
  match cd_block_hashes c !! number with
  | Some h => (inl h, c)
  | None =>
      match ref_block_hash (cd_db c) number with
      | inr e => (inr e, c)
      | inl hash => (inl hash, set_block_hashes c (<[number := hash]> (cd_block_hashes c)))
      end
  end.

Definition CacheDB_basic (c : Cache) (address : Z) : (option AccountInfo + ref_error) * Cache :=
  match load_account c address with
  | (inr e, c) => (inr e, c)
  | (inl basic, c) => (inl (DbAccount_info basic), c)
  end.

(** No slot of such an account is asked of the external database. *)
Definition no_storage (s : AccountState) : bool :=
  match s with StorageCleared | NotExisting => true | _ => false end.

Definition CacheDB_storage (c : Cache) (address index : Z) : (Z + ref_error) * Cache :=
  match cd_accounts c !! address with
  | Some acc =>
      match da_storage acc !! index with
      | Some v => (inl v, c)
      | None =>
          if no_storage (da_account_state acc) then (inl 0, c)
          else
            match ref_storage (cd_db c) address index with
            | inr e => (inr e, c)
            | inl slot =>
                (inl slot, set_account c address (mkDbAccount (da_info acc)
                  (da_account_state acc) (<[index := slot]> (da_storage acc))))
            end
      end
  | None =>
      match ref_basic (cd_db c) address with
      | inr e => (inr e, c)
      | inl None => (inl 0, set_account c address (DbAccount_from None))
      | inl (Some info) =>
          match ref_storage (cd_db c) address index with
          | inr e => (inr e, c)
          | inl value =>
              (inl value, set_account c address (mkDbAccount info StateNone {[index := value]}))
          end
      end
  end.

Definition CacheDB_code_by_hash (c : Cache) (hash : Z) : (Bytecode + ref_error) * Cache :=
  match cd_contracts c !! hash with
  | Some code => (inl code, c)
  | None =>
      match ref_code_by_hash (cd_db c) hash with
      | inr e => (inr e, c)
      | inl code => (inl code, set_contracts c (<[hash := code]> (cd_contracts c)))
      end
  end.

#[export] Instance CacheDB_Database : Database Cache := {
  db_error := ref_error;
  db_basic := CacheDB_basic;
  db_code_by_hash := CacheDB_code_by_hash;
  db_storage := CacheDB_storage;
  db_block_hash := CacheDB_block_hash;
}.

#[export] Instance CacheDB_DatabaseCommit : DatabaseCommit Cache := { db_commit := commit }.

(** ** [DatabaseRef]: the same answers without filling the cache *)
#[export] Instance CacheDB_DatabaseRef : DatabaseRef Cache := {
  ref_error := ref_error;
  ref_basic c address :=
    match cd_accounts c !! address with
    | Some acc => inl (DbAccount_info acc)
    | None => ref_basic (cd_db c) address
    end;
  ref_storage c address index :=
    match cd_accounts c !! address with
    | Some acc =>
        match da_storage acc !! index with
        | Some v => inl v
        | None =>
            if no_storage (da_account_state acc) then inl 0
            else ref_storage (cd_db c) address index
        end
    | None => ref_storage (cd_db c) address index
    end;
  ref_code_by_hash c hash :=
    match cd_contracts c !! hash with
    | Some code => inl code
    | None => ref_code_by_hash (cd_db c) hash
    end;
  ref_block_hash c number :=
    match cd_block_hashes c !! number with
    | Some h => inl h
    | None => ref_block_hash (cd_db c) number
    end;
}.
End cache.

(** ** The empty database and the one for benchmarks *)

Inductive EmptyDB := mkEmptyDB.

#[export] Instance EmptyDB_DatabaseRef `{!Crypto} : DatabaseRef EmptyDB := {
  ref_error := Empty_set;
  ref_basic _ _ := inl None;
  ref_code_by_hash _ _ := inl Bytecode_new;
  ref_storage _ _ _ := inl 0;
  ref_block_hash _ number := inl (keccak256 (to_be_bytes 32 number));
}.

Definition InMemoryDB : Type := CacheDB EmptyDB.
Definition InMemoryDB_default `{!Crypto} : InMemoryDB := CacheDB_new mkEmptyDB.

Record BenchmarkDB := mkBenchmarkDB { bench_code : Bytecode; bench_hash : Z }.
Definition BenchmarkDB_new_bytecode (bytecode : Bytecode) : BenchmarkDB :=
  mkBenchmarkDB bytecode (bc_hash bytecode).

#[export] Instance BenchmarkDB_Database : Database BenchmarkDB := {
  db_error := Empty_set;
  db_basic d address :=
    (inl (if address =? 0
          then Some (mkAccountInfo 10000000 1 (bench_hash d) (Some (bench_code d)))
          else None), d);
  db_code_by_hash d _ := (inl Bytecode_new, d);
  db_storage d _ _ := (inl 0, d);
  db_block_hash d _ := (inl 0, d);
}.
