(* ===== verification/NodeDb.v ===== *)
(** * The node's database: [anvil/src/eth/backend/db.rs], [mem/in_memory_db.rs]

    The trait [Db] with the setters of the API, its implementations for the
    cache of revm and for [MemDb], which adds snapshots
    ([foundry/evm/src/executor/backend/in_memory_db.rs], [snapshot.rs]), the
    dump and load of states, the form in which old states go to disk, and
    state overrides ([mem/state.rs]).  State roots are those of a trie crate. *)

From stdpp Require Import base option list gmap sorting.
From Stdlib Require Import ZArith Lia.
From S2P Require Import Prelude Primitives Journal EvmImpl CacheDB.

(** A [BTreeMap] yields its entries by key. *)
Definition key_le {A : Type} (a b : Z * A) : Prop := a.1 <= b.1.
#[export] Instance key_le_dec {A : Type} : RelDecision (@key_le A).
Proof. intros a b. unfold key_le. apply _. Defined.
Definition btree_entries {A : Type} (m : gmap Z A) : list (Z * A) :=
  merge_sort key_le (map_to_list m).

(** ** snapshot.rs *)
Module Snapshots.
Record t (T : Type) := mk { id : Z; snapshots : gmap Z T }.
Arguments mk {T} _ _.
Arguments id {T} _.
Arguments snapshots {T} _.

Section snapshots.
Context {T : Type}.
Definition t_default : t T := mk 0 ∅.
Definition next_id (s : t T) : Z * t T :=
  (id s, mk (u256_saturating_add (id s) 1) (snapshots s)).
Definition get (s : t T) (i : Z) : option T := snapshots s !! i.

(** The loop removes every later snapshot; adding to [id] panics on overflow. *)
Definition remove (s : t T) (i : Z) : rust (option T * t T) :=
  to_revert ← unwrap (u256_checked_add i 1);
  Val (snapshots s !! i,
    mk (id s) (foldl (fun m j => delete j m) (delete i (snapshots s)) (seqZ to_revert (id s - to_revert)))).
Definition insert (s : t T) (snapshot : T) : Z * t T :=
  let '(i, s) := next_id s in (i, mk (id s) (<[i := snapshot]> (snapshots s))).
End snapshots.
End Snapshots.

(** ** db.rs *)

Record SerializableAccountRecord := mkSerializableAccountRecord {
  sr_nonce : Z;
  sr_balance : Z;
  sr_code : list Z;
  sr_storage : gmap Z Z;
}.
Definition SerializableState : Type := gmap Z SerializableAccountRecord.

(** A setter returns [Ok(())] or the error of the database. *)
Class Db (DB : Type) {HDB : Database DB} {HR : DatabaseRef DB} := {
  insert_account : DB -> Z -> AccountInfo -> DB;
  set_storage_at : DB -> Z -> Z -> Z -> (unit + db_error) * DB;
  insert_block_hash : DB -> Z -> Z -> DB;
  dump_state : DB -> rust (option SerializableState + ref_error);
  snapshot : DB -> Z * DB;
  revert : DB -> Z -> rust (bool * DB);
  maybe_state_root : DB -> option Z;
}.

(** Third-party tries and RLP. *)
Class Tries := { state_merkle_trie_root : gmap Z DbAccount -> Z }.

Section setters.
Context {DB : Type} {HDB : Database DB} {HR : DatabaseRef DB} {HD : Db DB} {HC : Crypto}.

(** The common part of the setters. *)
Definition change_account (f : AccountInfo -> AccountInfo) (db : DB) (address : Z) :
  (unit + db_error) * DB :=
  match db_basic db address with
  | (inr e, db) => (inr e, db)
  | (inl info, db) => (inl tt, insert_account db address (f (default AccountInfo_default info)))
  end.

Definition set_nonce (db : DB) (address n : Z) : (unit + db_error) * DB :=
  change_account (fun info => mkAccountInfo (balance info) n (code_hash info) (Primitives.code info)) db address.
Definition set_balance (db : DB) (address b : Z) : (unit + db_error) * DB :=
  change_account (fun info => mkAccountInfo b (nonce info) (code_hash info) (Primitives.code info)) db address.
Definition set_code (db : DB) (address : Z) (c : list Z) : (unit + db_error) * DB :=
  let code_hash := if zlen c =? 0 then KECCAK_EMPTY else keccak256 c in
  change_account (fun info => mkAccountInfo (balance info) (nonce info) code_hash
    (Some (Bytecode_to_checked (Bytecode_new_raw c)))) db address.

Fixpoint set_slots (db : DB) (address : Z) (l : list (Z * Z)) : (unit + db_error) * DB :=
  match l with
  | [] => (inl tt, db)
  | (k, v) :: l =>
      match set_storage_at db address k v with
      | (inr e, db) => (inr e, db)
      | (inl _, db) => set_slots db address l
      end
  end.

(** The account that [load_state] inserts. *)
Definition loaded_account (db : DB) (addr : Z) (account : SerializableAccountRecord) : AccountInfo :=
  let old_account_nonce :=
    match ref_basic db addr with inl (Some acc) => nonce acc | _ => 0 end in
  mkAccountInfo (sr_balance account) (Z.max old_account_nonce (sr_nonce account)) KECCAK_EMPTY
    (if zlen (sr_code account) =? 0 then None
     else Some (Bytecode_to_checked (Bytecode_new_raw (sr_code account)))).
Fixpoint load_accounts (db : DB) (l : list (Z * SerializableAccountRecord)) : (bool + db_error) * DB :=
  match l with
  | [] => (inl true, db)
  | (addr, account) :: l =>
      let db := insert_account db addr (loaded_account db addr account) in
      match set_slots db addr (btree_entries (sr_storage account)) with
      | (inr e, db) => (inr e, db)
      | (inl _, db) => load_accounts db l
      end
  end.
Definition load_state (db : DB) (state : SerializableState) : (bool + db_error) * DB :=
  load_accounts db (btree_entries state).
End setters.

(** The cache of revm, used for pending blocks. *)
#[export] Instance CacheDB_Db {T : Type} {HR : DatabaseRef T} : Db (CacheDB T) := {
  insert_account := insert_account_info;
  set_storage_at := insert_account_storage;
  insert_block_hash c number hash := set_block_hashes c (<[number := hash]> (cd_block_hashes c));
  dump_state _ := Val (inl None);
  snapshot c := (0, c);
  revert c _ := Val (false, c);
  maybe_state_root _ := None;
}.

(** The state of a block that goes to disk. *)
Record StateSnapshot := mkStateSnapshot {
  sn_accounts : gmap Z AccountInfo;
  sn_storage : gmap Z (gmap Z Z);
  sn_block_hashes : gmap Z Z;
}.

(** A state that can move its contents into a snapshot and take them back. *)
Class MaybeHashDatabase (S : Type) := {
  clear_into_snapshot : S -> S * StateSnapshot;
  init_from_snapshot : S -> StateSnapshot -> S;
}.

Section history.
Context {T : Type} {HR : DatabaseRef T}.

(** Accounts move their code out of [contracts]; in the order of
    [map_to_list]. *)
Definition clear_account (acc : gmap Z Bytecode * StateSnapshot) (entry : Z * DbAccount) :
  gmap Z Bytecode * StateSnapshot :=
  let '(contracts, s) := acc in
  let '(addr, a) := entry in
  let info := da_info a in
  let info := mkAccountInfo (balance info) (nonce info) (code_hash info) (contracts !! code_hash info) in
  (delete (code_hash info) contracts,
   mkStateSnapshot (<[addr := info]> (sn_accounts s)) (<[addr := da_storage a]> (sn_storage s))
     (sn_block_hashes s)).
Definition CacheDB_clear_into_snapshot (c : CacheDB T) : CacheDB T * StateSnapshot :=
  let '(contracts, s) := foldl clear_account (cd_contracts c, mkStateSnapshot ∅ ∅ (cd_block_hashes c))
    (map_to_list (cd_accounts c)) in
  (mkCacheDB ∅ contracts (cd_logs c) ∅ (cd_db c), s).

Definition restore_account (storage : gmap Z (gmap Z Z)) (c : CacheDB T) (entry : Z * AccountInfo) :
  CacheDB T :=
  let '(addr, acc) := entry in
  let c := match Primitives.code acc with
           | Some code => set_contracts c (<[code_hash acc := code]> (cd_contracts c))
           | None => c
           end in
  set_account c addr (mkDbAccount (mkAccountInfo (balance acc) (nonce acc) (code_hash acc) None)
    StateNone (default ∅ (storage !! addr))).
Definition CacheDB_init_from_snapshot (c : CacheDB T) (s : StateSnapshot) : CacheDB T :=
  set_block_hashes (foldl (restore_account (sn_storage s)) c (map_to_list (sn_accounts s)))
    (sn_block_hashes s).

#[export] Instance CacheDB_MaybeHashDatabase : MaybeHashDatabase (CacheDB T) := {
  clear_into_snapshot := CacheDB_clear_into_snapshot;
  init_from_snapshot := CacheDB_init_from_snapshot;
}.
End history.

(** The standalone state of a database, [StateDb]. *)
Class CurrentState (DB S : Type) := { current_state : DB -> S }.

(** ** in_memory_db.rs *)

(** [EmptyDBWrapper] knows every account. *)
Inductive EmptyDBWrapper := mkEmptyDBWrapper (db : EmptyDB).
#[export] Instance EmptyDBWrapper_DatabaseRef `{!Crypto} : DatabaseRef EmptyDBWrapper := {
  ref_error := Empty_set;
  ref_basic w address :=
    let '(mkEmptyDBWrapper db) := w in
    match ref_basic db address with
    | inl info => inl (Some (default AccountInfo_default info))
    | inr e => inr e
    end;
  ref_code_by_hash '(mkEmptyDBWrapper db) hash := ref_code_by_hash db hash;
  ref_storage '(mkEmptyDBWrapper db) address index := ref_storage db address index;
  ref_block_hash '(mkEmptyDBWrapper db) number := ref_block_hash db number;
}.

Section memdb.
Context {HC : Crypto} {HT : Tries}.

Definition FoundryEvmInMemoryDB : Type := CacheDB EmptyDBWrapper.
Record MemDb := mkMemDb {
  inner : FoundryEvmInMemoryDB;
  snapshots : Snapshots.t FoundryEvmInMemoryDB;
}.
Definition MemDb_default : MemDb :=
  mkMemDb (CacheDB_new (mkEmptyDBWrapper mkEmptyDB)) Snapshots.t_default.

(** Lift a query of the cache. *)
Definition on_inner {R : Type} (m : MemDb) (r : R * FoundryEvmInMemoryDB) : R * MemDb :=
  (r.1, mkMemDb r.2 (snapshots m)).

#[export] Instance MemDb_Database : Database MemDb := {
  db_error := Empty_set;
  db_basic m address := on_inner m (db_basic (inner m) address);
  db_code_by_hash m hash := on_inner m (db_code_by_hash (inner m) hash);
  db_storage m address index := on_inner m (db_storage (inner m) address index);
  db_block_hash m number := on_inner m (db_block_hash (inner m) number);
}.
#[export] Instance MemDb_DatabaseRef : DatabaseRef MemDb := {
  ref_error := Empty_set;
  ref_basic m address := ref_basic (inner m) address;
  ref_code_by_hash m hash := ref_code_by_hash (inner m) hash;
  ref_storage m address index := ref_storage (inner m) address index;
  ref_block_hash m number := ref_block_hash (inner m) number;
}.
#[export] Instance MemDb_DatabaseCommit : DatabaseCommit MemDb :=
  { db_commit m changes := mkMemDb (db_commit (inner m) changes) (snapshots m) }.

(** The record of one account; its code may be elsewhere. *)
Definition dump_account (c : FoundryEvmInMemoryDB) (v : DbAccount) :
  rust (SerializableAccountRecord + Empty_set) :=
  match (match Primitives.code (da_info v) with
         | Some code => inl code
         | None => ref_code_by_hash c (code_hash (da_info v))
         end) with
  | inr e => Val (inr e)
  | inl code =>
      let code := Bytecode_to_checked code in
      bytes ← slice (bc_bytecode code) 0 (Bytecode_len code);
      Val (inl (mkSerializableAccountRecord (nonce (da_info v)) (balance (da_info v)) bytes (da_storage v)))
  end.
Fixpoint dump_accounts (c : FoundryEvmInMemoryDB) (l : list (Z * DbAccount)) :
  rust (SerializableState + Empty_set) :=
  match l with
  | [] => Val (inl ∅)
  | (k, v) :: l =>
      r ← dump_account c v;
      match r with
      | inr e => Val (inr e)
      | inl record =>
          s ← dump_accounts c l;
          Val (match s with inl s => inl (<[k := record]> s) | inr e => inr e end)
      end
  end.

Definition MemDb_dump_state (m : MemDb) : rust (option SerializableState + Empty_set) :=
  s ← dump_accounts (inner m) (map_to_list (cd_accounts (inner m)));
  Val (match s with inl s => inl (Some s) | inr e => inr e end).
Definition MemDb_snapshot (m : MemDb) : Z * MemDb :=
  let '(id, s) := Snapshots.insert (snapshots m) (inner m) in (id, mkMemDb (inner m) s).
Definition MemDb_revert (m : MemDb) (id : Z) : rust (bool * MemDb) :=
  '(found, s) ← Snapshots.remove (snapshots m) id;
  Val (match found with
       | Some snapshot => (true, mkMemDb snapshot s)
       | None => (false, mkMemDb (inner m) s)
       end).

#[export] Instance MemDb_Db : Db MemDb := {
  insert_account m address account :=
    mkMemDb (insert_account_info (inner m) address account) (snapshots m);
  set_storage_at m address slot val := on_inner m (insert_account_storage (inner m) address slot val);
  insert_block_hash m number hash := mkMemDb (insert_block_hash (inner m) number hash) (snapshots m);
  dump_state := MemDb_dump_state;
  snapshot := MemDb_snapshot;
  revert := MemDb_revert;
  maybe_state_root m := Some (state_merkle_trie_root (cd_accounts (inner m)));
}.

#[export] Instance MemDb_CurrentState : CurrentState MemDb MemDb :=
  { current_state m := mkMemDb (inner m) Snapshots.t_default }.
#[export] Instance MemDb_MaybeHashDatabase : MaybeHashDatabase MemDb := {
  clear_into_snapshot m :=
    let '(c, s) := clear_into_snapshot (inner m) in (mkMemDb c (snapshots m), s);
  init_from_snapshot m s := mkMemDb (init_from_snapshot (inner m) s) (snapshots m);
}.
End memdb.

(** ** mem/state.rs *)

Record AccountOverride := mkAccountOverride {
  ov_nonce : option Z;
  ov_code : option (list Z);
  ov_balance : option Z;
  ov_state : option (gmap Z Z);
  ov_state_diff : option (gmap Z Z);
}.
Inductive OverrideError (E : Type) := OverrideDatabase (e : E) | StateOverrideError.
Arguments OverrideDatabase {E} _.
Arguments StateOverrideError {E}.

Section overrides.
Context {D : Type} {HR : DatabaseRef D} {HC : Crypto}.

Definition override_info (o : AccountOverride) (info : AccountInfo) : AccountInfo :=
  mkAccountInfo (default (balance info) (ov_balance o)) (default (nonce info) (ov_nonce o))
    (code_hash info)
    (match ov_code o with Some c => Some (Bytecode_new_raw c) | None => Primitives.code info end).

Definition override_account (c : CacheDB D) (account : Z) (o : AccountOverride) :
  CacheDB D + OverrideError ref_error :=
  match CacheDB_basic c account with
  | (inr e, _) => inr (OverrideDatabase e)
  | (inl info, c) =>
      let c := insert_account_info c account (override_info o (default AccountInfo_default info)) in
      match ov_state o, ov_state_diff o with
      | Some _, Some _ => inr StateOverrideError
      | None, None => inl c
      | Some new_account_state, None =>
          match replace_account_storage c account new_account_state with
          | (inr e, _) => inr (OverrideDatabase e)
          | (inl _, c) => inl c
          end
      | None, Some diff =>
          match set_slots c account (map_to_list diff) with
          | (inr e, _) => inr (OverrideDatabase e)
          | (inl _, c) => inl c
          end
      end
  end.
Definition apply_state_override (overrides : list (Z * AccountOverride)) (state : D) :
  CacheDB D + OverrideError ref_error :=
  foldl (fun acc '(account, o) => match acc with inl c => override_account c account o | e => e end)
    (inl (CacheDB_new state)) overrides.
End overrides.
