(* ===== verification/BlockStates.v ===== *)
(** * States of past blocks: [InMemoryBlockStates] of [anvil/src/eth/backend/mem/storage.rs]

    The node keeps the states of recent blocks in memory and moves older ones
    to disk, within limits ([mem/storage.rs]).  The files are those of
    [DiskStateCache] of [mem/cache.rs], in a temporary directory, where tasks
    of their own write them and errors are only logged.  What the operating
    system and the crates that are used for it do is behind a class. *)

From stdpp Require Import base option list gmap strings.
From Stdlib Require Import ZArith Lia.
From S2P Require Import Prelude Primitives NodeDb.

Definition DEFAULT_HISTORY_LIMIT : Z := 500.
Definition MIN_HISTORY_LIMIT : Z := 10.
Definition MAX_ON_DISK_HISTORY_LIMIT : Z := 3600.

(** ** mem/cache.rs *)

(** The file system with the tasks that write to it: files of JSON by block
    hash, in temporary directories.  A task that was spawned may be done, or
    fail, at any later operation, or never; reading a file that is not there,
    or cannot be understood, gives nothing. *)
Class FileSystem := {
  files : Type;
  files_at_start : files;
  Path : Type;
  TempDir : Type;
  home_dir : option Path;
  join : Path -> string -> Path;
  create_dir_all : files -> Path -> bool * files;
  tempdir_in : files -> Path -> option TempDir * files;
  tempdir : files -> option TempDir * files;
  spawn_write_json_file : files -> TempDir -> Z -> StateSnapshot -> files;
  read_json_file : files -> TempDir -> Z -> option StateSnapshot * files;
  remove_file : files -> TempDir -> Z -> files;
}.

(** [~/.foundry/anvil/tmp] *)
Definition foundry_dir {HFI : FileSystem} : option Path := (fun p => join p ".foundry") <$> home_dir.
Definition anvil_dir {HFI : FileSystem} : option Path := (fun p => join p "anvil") <$> foundry_dir.
Definition anvil_tmp_dir {HFI : FileSystem} : option Path := (fun p => join p "tmp") <$> anvil_dir.

(** The prefix of its name, made of the time, is left out. *)
Definition build_tmp_dir {HFI : FileSystem} (f : files) (p : option Path) : option TempDir * files :=
  match p with Some p => tempdir_in f p | None => tempdir f end.

Module DiskStateCache.
Section cache.
Context {HFI : FileSystem}.

(** The cache, and the file system that it uses. *)
Record t := mk {
  temp_path : option Path;
  temp_dir : option TempDir;
  fs : files;
}.
Definition default : t := mk anvil_tmp_dir None files_at_start.

(** The directory is made when it is first needed; if that fails, it is
    tried again the next time. *)
Definition ensure_dir (c : t) : t :=
  match temp_dir c with
  | Some _ => c
  | None =>
      let '(dir, f) :=
        match temp_path c with
        | Some p =>
            let '(made, f) := create_dir_all (fs c) p in
            if made then build_tmp_dir f (Some p) else (None, f)
        | None => build_tmp_dir (fs c) None
        end in
      mk (temp_path c) dir f
  end.
Definition with_cache_file {R : Type} (c : t) (f : files -> TempDir -> R * files) : option R * t :=
  let c := ensure_dir c in
  match temp_dir c with
  | Some dir => let '(r, fs) := f (fs c) dir in (Some r, mk (temp_path c) (temp_dir c) fs)
  | None => (None, c)
  end.

Definition write (c : t) (hash : Z) (state : StateSnapshot) : t :=
  snd (with_cache_file c (fun f dir => (tt, spawn_write_json_file f dir hash state))).
Definition read (c : t) (hash : Z) : option StateSnapshot * t :=
  let '(r, c) := with_cache_file c (fun f dir => read_json_file f dir hash) in
  (match r with Some r => r | None => None end, c).
Definition remove (c : t) (hash : Z) : t :=
  snd (with_cache_file c (fun f dir => (tt, remove_file f dir hash))).
End cache.
End DiskStateCache.

(** ** mem/storage.rs *)

Module InMemoryBlockStates.
Section states.
Context {StateDb : Type} {HM : MaybeHashDatabase StateDb} {HFI : FileSystem}.

Record t := mk {
  states : gmap Z StateDb;
  on_disk_states : gmap Z StateDb;
  in_memory_limit : Z;
  min_in_memory_limit : Z;
  max_on_disk_limit : Z;
  oldest_on_disk : list Z;
  present : list Z;
  disk_cache : DiskStateCache.t;
}.

Definition new (limit : Z) : t :=
  mk ∅ ∅ limit (Z.min limit MIN_HISTORY_LIMIT) MAX_ON_DISK_HISTORY_LIMIT [] [] DiskStateCache.default.
Definition memory_only (s : t) : t :=
  mk (states s) (on_disk_states s) (in_memory_limit s) (min_in_memory_limit s) 0 (oldest_on_disk s)
    (present s) (disk_cache s).
Definition is_memory_only (s : t) : bool := max_on_disk_limit s =? 0.
Definition set_cache_limit (s : t) (limit : Z) : t :=
  mk (states s) (on_disk_states s) limit (min_in_memory_limit s) (max_on_disk_limit s)
    (oldest_on_disk s) (present s) (disk_cache s).

(** One round of the first loop of [enforce_limits]: the oldest state in
    memory goes. *)
Definition evict (s : t) : t :=
  match present s with
  | [] => s
  | hash :: present =>
      match states s !! hash with
      | None =>
          mk (states s) (on_disk_states s) (in_memory_limit s) (min_in_memory_limit s)
            (max_on_disk_limit s) (oldest_on_disk s) present (disk_cache s)
      | Some state =>
          if is_memory_only s then
            mk (delete hash (states s)) (on_disk_states s) (in_memory_limit s)
              (min_in_memory_limit s) (max_on_disk_limit s) (oldest_on_disk s) present (disk_cache s)
          else
            let '(state, snapshot) := clear_into_snapshot state in
            mk (delete hash (states s)) (<[hash := state]> (on_disk_states s)) (in_memory_limit s)
              (min_in_memory_limit s) (max_on_disk_limit s) (oldest_on_disk s ++ [hash]) present
              (DiskStateCache.write (disk_cache s) hash snapshot)
      end
  end.
(** One round of the second: the oldest on disk goes. *)
Definition purge (s : t) : t :=
  match oldest_on_disk s with
  | [] => s
  | hash :: oldest_on_disk =>
      mk (states s) (delete hash (on_disk_states s)) (in_memory_limit s) (min_in_memory_limit s)
        (max_on_disk_limit s) oldest_on_disk (present s) (DiskStateCache.remove (disk_cache s) hash)
  end.

(** [while guard { body }], at most [fuel] rounds. *)
Fixpoint while (guard : t -> bool) (body : t -> t) (fuel : nat) (s : t) : rust t :=
  if guard s then
    match fuel with O => Diverge | S fuel => while guard body fuel (body s) end
  else Val s.

Definition memory_full (s : t) : bool := in_memory_limit s <=? zlen (present s).
Definition disk_full (s : t) : bool :=
  negb (is_memory_only s) && (max_on_disk_limit s <=? zlen (oldest_on_disk s)).

(** Each round of a loop that ends takes one element of a queue. *)
Definition enforce_limits (s : t) : rust t :=
  s ← while memory_full evict (length (present s)) s;
  while disk_full purge (length (oldest_on_disk s)) s.

Definition update_interval_mine_block_time (s : t) (block_time : Z) : rust t :=
  if block_time <=? 2 then enforce_limits (set_cache_limit s (DEFAULT_HISTORY_LIMIT * 3)) else Val s.

Definition insert (s : t) (hash : Z) (state : StateDb) : rust t :=
  let s :=
    if negb (is_memory_only s) && (in_memory_limit s <=? zlen (present s))
    then set_cache_limit s (Z.max (Z.max (in_memory_limit s - 1) 0) (min_in_memory_limit s))
    else s in
  s ← enforce_limits s;
  Val (mk (<[hash := state]> (states s)) (on_disk_states s) (in_memory_limit s)
    (min_in_memory_limit s) (max_on_disk_limit s) (oldest_on_disk s) (present s ++ [hash])
    (disk_cache s)).

Definition get (s : t) (hash : Z) : option StateDb * t :=
  match states s !! hash with
  | Some state => (Some state, s)
  | None =>
      match on_disk_states s !! hash with
      | None => (None, s)
      | Some state =>
          let '(cached, d) := DiskStateCache.read (disk_cache s) hash in
          let with_disk m := mk (states s) m (in_memory_limit s) (min_in_memory_limit s)
            (max_on_disk_limit s) (oldest_on_disk s) (present s) d in
          match cached with
          | Some cached =>
              let state := init_from_snapshot state cached in
              (Some state, with_disk (<[hash := state]> (on_disk_states s)))
          | None => (None, with_disk (on_disk_states s))
          end
      end
  end.

Definition clear (s : t) : t :=
  mk ∅ ∅ (in_memory_limit s) (min_in_memory_limit s) (max_on_disk_limit s) [] []
    (foldl DiskStateCache.remove (disk_cache s) (oldest_on_disk s)).
End states.
Arguments t _ {_}.
End InMemoryBlockStates.

(** [PruneStateHistoryConfig] of [config.rs], and the history it makes. *)
Record PruneStateHistoryConfig := mkPruneStateHistoryConfig {
  prune_enabled : bool;
  max_memory_history : option Z;
}.
Definition PruneStateHistoryConfig_from_args (val : option (option Z)) : PruneStateHistoryConfig :=
  match val with
  | Some max_memory_history => mkPruneStateHistoryConfig true max_memory_history
  | None => mkPruneStateHistoryConfig false None
  end.
Definition is_state_history_supported (c : PruneStateHistoryConfig) : bool :=
  negb (prune_enabled c) || bool_decide (is_Some (max_memory_history c)).

Definition states_of_config {StateDb : Type} {HFI : FileSystem} (c : PruneStateHistoryConfig) :
  InMemoryBlockStates.t StateDb :=
  if prune_enabled c then
    InMemoryBlockStates.memory_only
      (InMemoryBlockStates.new (default DEFAULT_HISTORY_LIMIT (max_memory_history c)))
  else InMemoryBlockStates.new DEFAULT_HISTORY_LIMIT.
