(* ===== verification/BlockStatesSpec.v ===== *)
(** * The history of states, as a list

    [InMemoryBlockStates] remembers a suffix of the states it was given: the
    last ones in memory, those before on disk.  What it answers is read off
    that list, as far as the files on disk can be read; its loops end as long
    as it may keep one state, and with a limit of zero they do not. *)

From stdpp Require Import base option list gmap.
From Stdlib Require Import ZArith Lia.
From S2P Require Import Prelude Primitives NodeDb BlockStates.
Import InMemoryBlockStates.

(** ** What is assumed of states and of the file system *)

(** A state that went to disk and back; doing it twice is doing it once. *)
Class SnapshotLaws (S : Type) {HM : MaybeHashDatabase S} := {
  restored : S -> S;
  init_cleared s : init_from_snapshot (clear_into_snapshot s).1 (clear_into_snapshot s).2 = restored s;
  init_restored s : init_from_snapshot (restored s) (clear_into_snapshot s).2 = restored s;
}.

(** A file that can be read holds what a task was given to write to it, and
    a new directory is empty.  Nothing is said of when, or whether, a task
    writes its file. *)
Class FileSystemSpec {HFI : FileSystem} := {
  file_written : files -> TempDir -> Z -> StateSnapshot -> Prop;
  tempdir_new f d h x : (tempdir f).1 = Some d -> ~ file_written (tempdir f).2 d h x;
  tempdir_in_new f p d h x : (tempdir_in f p).1 = Some d -> ~ file_written (tempdir_in f p).2 d h x;
  spawn_writes f d h x k y : file_written (spawn_write_json_file f d h x) d k y ->
    file_written f d k y \/ k = h /\ y = x;
  read_written f d h x : (read_json_file f d h).1 = Some x -> file_written f d h x;
  read_keeps f d h k y : file_written (read_json_file f d h).2 d k y -> file_written f d k y;
  remove_keeps f d h k y : file_written (remove_file f d h) d k y -> file_written f d k y;
}.

(** What the cache may read. *)
Section cache.
Context {HFI : FileSystem} {HFP : FileSystemSpec}.
Import DiskStateCache.

Definition written (c : DiskStateCache.t) (h : Z) (x : StateSnapshot) : Prop :=
  exists dir, temp_dir c = Some dir /\ file_written (fs c) dir h x.

Lemma default_unwritten h x : ~ written DiskStateCache.default h x.
Proof. by intros (dir & [=] & _). Qed.
Lemma ensure_dir_written c h x : written (ensure_dir c) h x -> written c h x.
Proof.
  unfold ensure_dir, written. destruct (temp_dir c) as [dir|] eqn:Ed; [intros (d & Hd & Hw); exists d; split; [congruence|done]|].
  unfold build_tmp_dir. destruct (temp_path c) as [p|].
  - destruct (create_dir_all (fs c) p) as [[] f]; [|by intros (dir & [=] & _)].
    pose proof (fun dir => tempdir_in_new f p dir h x) as Hn. destruct (tempdir_in f p) as [o f'].
    intros (dir & [= ->] & Hw). destruct (Hn dir eq_refl Hw).
  - pose proof (fun dir => tempdir_new (fs c) dir h x) as Hn. destruct (tempdir (fs c)) as [o f'].
    intros (dir & [= ->] & Hw). destruct (Hn dir eq_refl Hw).
Qed.
Lemma write_written c h x k y : written (write c h x) k y -> written c k y \/ k = h /\ y = x.
Proof.
  unfold write, with_cache_file. pose proof (ensure_dir_written c k y) as He. unfold written in *.
  destruct (temp_dir (ensure_dir c)) as [dir|] eqn:Ed; cbn; [|intros (d & Hd & _); congruence].
  intros (d & Hd & Hw). assert (d = dir) as -> by congruence.
  destruct (spawn_writes _ _ _ _ _ _ Hw) as [Hw'|]; [left|by right]. apply He. by exists dir.
Qed.
Lemma read_from c h x : (read c h).1 = Some x -> written c h x.
Proof.
  unfold read, with_cache_file. pose proof (ensure_dir_written c h x) as He. unfold written in *.
  destruct (temp_dir (ensure_dir c)) as [dir|] eqn:Ed; [|done].
  pose proof (read_written (fs (ensure_dir c)) dir h x) as Hr. destruct (read_json_file _ dir h) as [o f]. cbn in *.
  intros ->. apply He. exists dir. split; [done|by apply Hr].
Qed.
Lemma read_unwritten c h k y : written (read c h).2 k y -> written c k y.
Proof.
  unfold read, with_cache_file. pose proof (ensure_dir_written c k y) as He. unfold written in *.
  destruct (temp_dir (ensure_dir c)) as [dir|] eqn:Ed; cbn; [|intros (d & Hd & _); congruence].
  pose proof (read_keeps (fs (ensure_dir c)) dir h k y) as Hr. destruct (read_json_file _ dir h) as [o f]. cbn in *.
  intros (d & Hd & Hw). assert (d = dir) as -> by congruence. apply He. exists dir. split; [done|by apply Hr].
Qed.
Lemma remove_unwritten c h k y : written (remove c h) k y -> written c k y.
Proof.
  unfold remove, with_cache_file. pose proof (ensure_dir_written c k y) as He. unfold written in *.
  destruct (temp_dir (ensure_dir c)) as [dir|] eqn:Ed; cbn; [|intros (d & Hd & _); congruence].
  intros (d & Hd & Hw). assert (d = dir) as -> by congruence. apply He. exists dir. split; [done|by eapply remove_keeps].
Qed.
End cache.

Section history.
Context {StateDb : Type} {HM : MaybeHashDatabase StateDb} {HL : SnapshotLaws StateDb}.
Context {HFI : FileSystem} {HFP : FileSystemSpec}.
Abbreviation states_t := (InMemoryBlockStates.t StateDb).
Abbreviation entries := (list (Z * StateDb)).

(** ** The abstraction: a list of states split in three *)

Abbreviation as_map := (list_to_map (M := gmap Z StateDb)).

(** [D] is on disk, [M] in memory. *)
Record stores (s : states_t) (D M : entries) : Prop := mkStores {
  so_nodup : NoDup (D ++ M).*1;
  so_present : present s = M.*1;
  so_states : states s = as_map M;
  so_queue : oldest_on_disk s = D.*1;
  so_disk h st x : as_map D !! h = Some st -> written (disk_cache s) h x -> x = (clear_into_snapshot st).2;
  so_unwritten h x : h ∈ M.*1 -> ~ written (disk_cache s) h x;
  so_hollow h st : as_map D !! h = Some st -> exists x, on_disk_states s !! h = Some x /\
    (x = (clear_into_snapshot st).1 \/ x = restored st);
  so_only h : as_map D !! h = None -> on_disk_states s !! h = None;
}.

(** The file of a state can be read, by now. *)
Definition readable (s : states_t) (h : Z) : bool :=
  bool_decide (is_Some (DiskStateCache.read (disk_cache s) h).1).
(** A state in memory is answered as it is, one on disk as it is restored if
    its file can be read. *)
Definition recall (s : states_t) (D M : entries) (h : Z) : option StateDb :=
  match as_map M !! h with
  | Some st => Some st
  | None => if readable s h then restored <$> as_map D !! h else None
  end.

Lemma stores_get s D M h : stores s D M ->
  (get s h).1 = recall s D M h /\ stores (get s h).2 D M /\
  in_memory_limit (get s h).2 = in_memory_limit s /\
  min_in_memory_limit (get s h).2 = min_in_memory_limit s /\
  max_on_disk_limit (get s h).2 = max_on_disk_limit s.
Proof.
  intros Hs. pose proof Hs as [Hnd Hp Hst Hq Hd Hu Hh Ho]. unfold get, recall, readable. rewrite Hst.
  destruct (as_map M !! h) as [st|]; [done|].
  destruct (as_map D !! h) as [st|] eqn:ED; [|rewrite (Ho h ED); by case_bool_decide].
  destruct (Hh h st ED) as (x & -> & Hx). pose proof (fun y => read_from (disk_cache s) h y) as Hr.
  pose proof (fun k y => read_unwritten (disk_cache s) h k y) as Hk.
  destruct (DiskStateCache.read (disk_cache s) h) as [cached d]. cbn [fst snd] in *.
  destruct cached as [snap|]; cbn.
  2: { split; [done|]. split; [|done]. split; simpl; try done; [intros k st' y E Hw; by eapply Hd, Hk|intros k y Hin Hw; by eapply Hu, Hk]. }
  rewrite (Hd h st snap ED (Hr _ eq_refl)).
  assert (init_from_snapshot x (clear_into_snapshot st).2 = restored st) as ->
    by (destruct Hx as [-> | ->]; [apply init_cleared|apply init_restored]).
  split; [done|]. split; [|done].
  split; simpl; try done; [intros k st' y E Hw; by eapply Hd, Hk|intros k y Hin Hw; by eapply Hu, Hk|..].
  - intros h' st' E. destruct (decide (h' = h)) as [-> |Hne].
    + rewrite lookup_insert_eq. exists (restored st). split; [done|]. right. congruence.
    + rewrite lookup_insert_ne by done. by apply Hh.
  - intros h' E. rewrite lookup_insert_ne; [by apply Ho|]. congruence.
Qed.

Lemma get_written (s : states_t) h k x : written (disk_cache (get s h).2) k x -> written (disk_cache s) k x.
Proof.
  unfold get. destruct (states s !! h); [done|]. destruct (on_disk_states s !! h); [|done].
  pose proof (read_unwritten (disk_cache s) h k x) as Hr. destruct (DiskStateCache.read _ h) as [[cached|] d]; exact Hr.
Qed.

Lemma as_map_snoc (D : entries) h st : h ∉ D.*1 -> as_map (D ++ [(h, st)]) = <[h := st]> (as_map D).
Proof. intros Hh. by apply list_to_map_snoc. Qed.

(** ** The loops *)

Lemma while_ends (P : states_t -> Prop) (size : states_t -> nat) guard body :
  (forall s, P s -> guard s = true -> P (body s) /\ (size (body s) < size s)%nat) ->
  forall fuel s, P s -> (size s <= fuel)%nat ->
  exists s', while guard body fuel s = Val s' /\ P s' /\ guard s' = false.
Proof.
  intros Hb fuel. induction fuel as [|fuel IH]; intros s Hs Hf; simpl; destruct (guard s) eqn:Eg;
    try (by exists s); destruct (Hb s Hs Eg) as [Hs' Hlt]; [lia|]. apply IH; [done|lia].
Qed.

(** The settings of the limits. *)
Definition limits (s : states_t) : Z * Z * Z :=
  (in_memory_limit s, min_in_memory_limit s, max_on_disk_limit s).

(** In memory, the oldest state goes to disk or is forgotten. *)
Lemma stores_evict s D h st M : stores s D ((h, st) :: M) ->
  stores (evict s) (if is_memory_only s then D else D ++ [(h, st)]) M /\ limits (evict s) = limits s.
Proof.
  intros [Hnd Hp Hst Hq Hd Hu Hh Ho]. unfold evict. rewrite Hp, Hst. simpl. rewrite lookup_insert_eq.
  rewrite fmap_app in Hnd. simpl in Hnd. apply NoDup_app in Hnd as (HD & HDM & [HhM HM']%NoDup_cons).
  assert (HhD : h ∉ D.*1) by (intros Hin; apply (HDM h Hin); left).
  assert (Hnone : as_map M !! h = None) by by apply not_elem_of_list_to_map_1.
  destruct (is_memory_only s); (split; [|by repeat case_match]).
  - split; simpl; try done.
    + rewrite fmap_app. apply NoDup_app. split; [done|]. split; [|done]. intros k Hk HkM. apply (HDM k Hk). by right.
    + by rewrite delete_insert_id.
    + intros k x Hk. apply Hu. by right.
  - destruct (clear_into_snapshot st) as [x snap] eqn:Ec. split; simpl; try done.
    + rewrite <- app_assoc, fmap_app. simpl. apply NoDup_app. split; [done|]. split; [done|]. by constructor.
    + by rewrite delete_insert_id.
    + by rewrite Hq, fmap_app.
    + rewrite as_map_snoc by done. intros k st' y. rewrite lookup_insert. case_decide as Ek.
      * subst k. intros [= <-] [Hw|[_ ->]]%write_written; [|by rewrite Ec]. destruct (Hu h y); [by left|done].
      * intros E [Hw|[-> _]]%write_written; [by eapply Hd|done].
    + intros k y Hk [Hw|[-> _]]%write_written; [|done]. apply (Hu k y); [by right|done].
    + rewrite as_map_snoc by done. intros k st'. rewrite !lookup_insert. case_decide; [|by apply Hh].
      intros [= <-]. exists x. split; [done|]. left. by rewrite Ec.
    + rewrite as_map_snoc by done. intros k. rewrite !lookup_insert. case_decide; [done|by apply Ho].
Qed.

Lemma stores_purge s h st D M : stores s ((h, st) :: D) M ->
  stores (purge s) D M /\ limits (purge s) = limits s.
Proof.
  intros [Hnd Hp Hst Hq Hd Hu Hh Ho]. unfold purge. rewrite Hq. simpl. split; [|done].
  simpl in Hnd. apply NoDup_cons in Hnd as [HhD Hnd].
  assert (HD : as_map D !! h = None).
  { apply not_elem_of_list_to_map_1. intros Hin. apply HhD. rewrite fmap_app. apply elem_of_app. by left. }
  simpl in Hd, Hh, Ho. split; simpl; try done.
  - intros k st' x E Hw%remove_unwritten. apply (Hd k st' x); [|done]. rewrite lookup_insert_ne by congruence. done.
  - intros k x Hk Hw%remove_unwritten. by apply (Hu k x).
  - intros k st' E. rewrite lookup_delete_ne by congruence. apply Hh. rewrite lookup_insert_ne by congruence. done.
  - intros k E. rewrite lookup_delete. case_decide as Ek; [done|]. apply Ho. by rewrite lookup_insert_ne.
Qed.

(** What is on disk after a round of the loops. *)
Lemma evict_written s D h st M k x : stores s D ((h, st) :: M) -> written (disk_cache (evict s)) k x ->
  k = h \/ written (disk_cache s) k x.
Proof.
  intros [_ Hp _ _ _ _ _ _]. unfold evict. rewrite Hp. simpl. destruct (states s !! h); [|by right].
  destruct (is_memory_only s); [by right|]. destruct (clear_into_snapshot _). simpl.
  intros [Hw|[-> _]]%write_written; [by right|by left].
Qed.
Lemma purge_written (s : states_t) k x : written (disk_cache (purge s)) k x -> written (disk_cache s) k x.
Proof. unfold purge. destruct (oldest_on_disk s); [done|]. apply remove_unwritten. Qed.

(** What is remembered of the states [l] while the limits are enforced:
    nothing leaves the disk before it is full, nor memory before it holds
    nearly the limit. *)
Record split (l : entries) (s : states_t) (old D M : entries) : Prop := mkSplit {
  sp_list : l = old ++ D ++ M;
  sp_stores : stores s D M;
  sp_memory_only : is_memory_only s = true -> D = [];
  sp_disk : is_memory_only s = false -> old <> [] -> max_on_disk_limit s - 1 <= zlen D;
  sp_memory : old ++ D <> [] ->
    min_in_memory_limit s <= zlen M \/ in_memory_limit s - 1 <= zlen M;
  sp_unwritten h x : h ∉ l.*1 -> ~ written (disk_cache s) h x;
}.

Lemma memory_only_limits s s' : limits s = limits s' -> is_memory_only s = is_memory_only s'.
Proof. unfold limits, is_memory_only. by intros [= _ _ ->]. Qed.

Lemma evict_loop l s : 1 <= in_memory_limit s -> (exists old D M, split l s old D M) ->
  exists s', while memory_full evict (length (present s)) s = Val s' /\ limits s' = limits s /\
    exists old D M, split l s' old D M /\ zlen M < in_memory_limit s.
Proof.
  intros Hl Hs.
  destruct (while_ends (fun s' => limits s' = limits s /\ exists old D M, split l s' old D M)
    (fun s => length (present s)) memory_full evict) with (fuel := length (present s)) (s := s)
    as (s' & E & [Hlim (old & D & M & Hsp)] & Hfull); [|done|lia|].
  - intros s1 (Hlim & old & D & M & Hsp) Hfull. destruct Hsp as [El Hst Hmo Hd Hm Hun].
    pose proof (f_equal (fun x => x.1.1) Hlim) as Hlm. simpl in Hlm. unfold memory_full in Hfull. bool_to_prop.
    rewrite (so_present _ _ _ Hst) in Hfull. unfold zlen in Hfull. rewrite length_fmap in Hfull.
    destruct M as [|[h st] M]; [simpl in Hfull; lia|].
    assert (Hun' : forall k x, k ∉ l.*1 -> ~ written (disk_cache (evict s1)) k x).
    { intros k x Hk [->|Hw]%(evict_written _ _ _ _ _ _ _ Hst); [|by apply (Hun k x)].
      apply Hk. rewrite El, !fmap_app, !elem_of_app. do 2 right. by left. }
    destruct (stores_evict s1 D h st M Hst) as [Hst' Hl1]. pose proof (memory_only_limits _ _ Hl1) as Emo.
    pose proof Hl1 as [= E1 E2 E3].
    split; [|rewrite (so_present _ _ _ Hst), (so_present _ _ _ Hst'), !length_fmap; simpl; lia].
    split; [congruence|]. destruct (is_memory_only s1) eqn:Eo.
    + exists (old ++ [(h, st)]), D, M. rewrite (Hmo eq_refl) in *. split; simpl in *; try done.
      * by rewrite <- app_assoc.
      * rewrite Emo. done.
      * intros _. right. rewrite E1. unfold zlen in *. lia.
    + exists old, (D ++ [(h, st)]), M. split; try done.
      * by rewrite <- app_assoc.
      * rewrite Emo. done.
      * intros _ Hold. rewrite E3. specialize (Hd eq_refl Hold). unfold zlen in *. rewrite length_app. lia.
      * intros _. right. rewrite E1. simpl in Hfull. unfold zlen. lia.
  - exists s'. split; [done|]. split; [done|]. exists old, D, M. split; [done|].
    unfold memory_full in Hfull. bool_to_prop. pose proof Hlim as [= Eq _ _].
    rewrite (so_present _ _ _ (sp_stores _ _ _ _ _ Hsp)) in Hfull. unfold zlen in *. rewrite length_fmap in Hfull. lia.
Qed.

Lemma purge_loop l s n : 0 <= max_on_disk_limit s ->
  (exists old D M, split l s old D M /\ zlen M < n) ->
  exists s', while disk_full purge (length (oldest_on_disk s)) s = Val s' /\ limits s' = limits s /\
    exists old D M, split l s' old D M /\ zlen M < n /\
      (is_memory_only s = false -> zlen D < max_on_disk_limit s).
Proof.
  intros Hmax Hs.
  destruct (while_ends (fun s' => limits s' = limits s /\ exists old D M, split l s' old D M /\ zlen M < n)
    (fun s => length (oldest_on_disk s)) disk_full purge) with (fuel := length (oldest_on_disk s)) (s := s)
    as (s' & E & [Hlim (old & D & M & Hsp & HM')] & Hfull); [|done|lia|].
  - intros s1 (Hlim & old & D & M & Hsp & HM') Hfull. destruct Hsp as [El Hst Hmo Hd Hm Hun].
    pose proof (memory_only_limits _ _ Hlim) as Emo1. pose proof Hlim as [= _ _ Emax].
    unfold disk_full in Hfull. apply andb_prop in Hfull as [Hno%negb_true_iff Hfull%Z.leb_le].
    rewrite (so_queue _ _ _ Hst) in Hfull. unfold zlen in Hfull. rewrite length_fmap in Hfull.
    assert (max_on_disk_limit s1 <> 0) by (by apply Z.eqb_neq).
    destruct D as [|[h st] D]; [simpl in Hfull; lia|].
    destruct (stores_purge s1 h st D M Hst) as [Hst' Hl1]. pose proof (memory_only_limits _ _ Hl1) as Emo.
    pose proof Hl1 as [= E1 E2 E3].
    split; [|rewrite (so_queue _ _ _ Hst), (so_queue _ _ _ Hst'), !length_fmap; simpl; lia].
    split; [congruence|]. exists (old ++ [(h, st)]), D, M. split; [|done]. split; try done.
    + by rewrite <- app_assoc.
    + rewrite Emo, Hno. done.
    + intros _ _. rewrite E3. simpl in Hfull. unfold zlen. lia.
    + intros _. rewrite E1, E2. apply Hm. by destruct old.
    + intros k x Hk Hw%purge_written. by apply (Hun k x).
  - exists s'. split; [done|]. split; [done|]. exists old, D, M. split; [done|]. split; [done|]. intros Hno.
    rewrite <- (memory_only_limits _ _ Hlim) in Hno. unfold disk_full in Hfull. rewrite Hno in Hfull.
    apply Z.leb_gt in Hfull. pose proof Hlim as [= _ _ Eq].
    rewrite (so_queue _ _ _ (sp_stores _ _ _ _ _ Hsp)) in Hfull. unfold zlen in *. rewrite length_fmap in Hfull. lia.
Qed.

(** Whatever it holds, an insertion returns as long as a state may stay. *)
Definition states_ok (s : states_t) : Prop :=
  1 <= in_memory_limit s /\ 1 <= min_in_memory_limit s /\ 0 <= max_on_disk_limit s.

Lemma limits_ok s s' : limits s' = limits s -> states_ok s -> states_ok s'.
Proof. unfold limits, states_ok. by intros [= -> -> ->]. Qed.

Lemma evict_shorter s : present s <> [] ->
  limits (evict s) = limits s /\ (length (present (evict s)) < length (present s))%nat.
Proof.
  unfold evict. destruct (present s) as [|h l] eqn:Ep; [done|]. intros _.
  repeat case_match; simpl; split; done || lia.
Qed.

Lemma enforce_returns s : states_ok s -> exists s', enforce_limits s = Val s' /\ limits s' = limits s.
Proof.
  intros Hok.
  destruct (while_ends (fun s' => limits s' = limits s) (fun s => length (present s)) memory_full evict)
    with (fuel := length (present s)) (s := s) as (s1 & E1 & L1 & _); [|done|lia|].
  { intros s1 L1 Hf. pose proof (limits_ok _ _ L1 Hok) as (H1 & _). unfold memory_full in Hf.
    apply Z.leb_le in Hf. destruct (evict_shorter s1) as [-> Hs]; [|done]. intros E. rewrite E in Hf.
    unfold zlen in Hf. simpl in Hf. lia. }
  destruct (while_ends (fun s' => limits s' = limits s) (fun s => length (oldest_on_disk s)) disk_full purge)
    with (fuel := length (oldest_on_disk s1)) (s := s1) as (s2 & E2 & L2 & _); [|done|lia|].
  { intros s2 L2 Hf. pose proof (limits_ok _ _ L2 Hok) as (_ & _ & H1). unfold disk_full in Hf.
    apply andb_prop in Hf as [Hno%negb_true_iff%Z.eqb_neq Hf%Z.leb_le]. unfold purge.
    destruct (oldest_on_disk s2) as [|h l]; [unfold zlen in Hf; simpl in Hf; lia|]. split; [done|simpl; lia]. }
  exists s2. unfold enforce_limits. rewrite E1. cbn [mbind rust_bind]. by rewrite E2.
Qed.

(** A new block time raises the limit in memory, which may then be kept. *)
Lemma update_interval_returns s t : states_ok s ->
  exists s', update_interval_mine_block_time s t = Val s' /\ states_ok s'.
Proof.
  intros Hs. unfold update_interval_mine_block_time. case_if; [|by eexists].
  assert (H3 : states_ok (set_cache_limit s (DEFAULT_HISTORY_LIMIT * 3))) by (by destruct Hs as (_ & ? & ?)).
  destruct (enforce_returns _ H3) as (s' & Es & L). exists s'. split; [exact Es|by eapply limits_ok].
Qed.

Lemma insert_returns s h st : states_ok s -> exists s', insert s h st = Val s' /\ states_ok s'.
Proof.
  intros Hok. unfold insert. match goal with |- context [enforce_limits ?x] => set (s0 := x) in * end.
  assert (H0 : states_ok s0).
  { unfold s0. destruct Hok as (H1 & H2 & H3). case_if; [|done]. split_and!; simpl; lia. }
  destruct (enforce_returns s0 H0) as (s1 & -> & L1). cbn [mbind rust_bind]. eexists. split; [done|].
  apply (limits_ok s1); [done|]. by apply (limits_ok s0).
Qed.

(** ** Between operations *)
Section operations.
Context (limit : Z) (memory : bool) (Hlimit : 1 <= limit).

(** What is remembered, and the settings that stay. *)
Record kept (l : entries) (s : states_t) (old D M : entries) : Prop := mkKept {
  ke_split : split l s old D M;
  ke_limit : 1 <= min_in_memory_limit s <= in_memory_limit s /\
    min_in_memory_limit s <= MIN_HISTORY_LIMIT /\ 0 <= max_on_disk_limit s;
  ke_memory_full : zlen M <= in_memory_limit s;
  ke_disk_full : is_memory_only s = false -> zlen D < max_on_disk_limit s;
  ke_memory : old ++ D <> [] -> min_in_memory_limit s <= zlen M;
  ke_settings : min_in_memory_limit s = Z.min limit MIN_HISTORY_LIMIT /\
    max_on_disk_limit s = if memory then 0 else MAX_ON_DISK_HISTORY_LIMIT;
}.

(** Changing the limit of memory alone. *)
Lemma split_set_limit l s old D M n : split l s old D M ->
  (old ++ D <> [] -> min_in_memory_limit s <= zlen M) -> split l (set_cache_limit s n) old D M.
Proof. intros [El [] Hmo Hd Hm] Hm'. split; try done. by left; apply Hm'. Qed.

Lemma enforce_ok l s : 1 <= in_memory_limit s -> 0 <= max_on_disk_limit s ->
  (exists old D M, split l s old D M) ->
  exists s', enforce_limits s = Val s' /\ limits s' = limits s /\ exists old D M, split l s' old D M /\
    zlen M < in_memory_limit s /\ (is_memory_only s = false -> zlen D < max_on_disk_limit s).
Proof.
  intros Hl Hmax Hs. destruct (evict_loop l s Hl Hs) as (s1 & E1 & L1 & H1).
  pose proof L1 as [= _ _ Em]. destruct (purge_loop l s1 (in_memory_limit s)) as (s2 & E2 & L2 & H2); [lia|done|].
  unfold enforce_limits. rewrite E1. cbn [mbind rust_bind]. rewrite E2. exists s2. split; [done|].
  split; [congruence|]. rewrite (memory_only_limits _ _ L1), Em in H2. done.
Qed.

(** Where the limit of memory goes before an insertion. *)
Lemma insert_limit l s old D M : kept l s old D M ->
  let s0 := if negb (is_memory_only s) && (in_memory_limit s <=? zlen (present s))
    then set_cache_limit s (Z.max (Z.max (in_memory_limit s - 1) 0) (min_in_memory_limit s)) else s in
  split l s0 old D M /\ max_on_disk_limit s0 = max_on_disk_limit s /\
  min_in_memory_limit s0 = min_in_memory_limit s /\ min_in_memory_limit s <= in_memory_limit s0.
Proof.
  intros [Hsp (Hmin & _ & _) _ _ Hm _]. case_if; [|split_and!; done || lia].
  split; [by apply split_set_limit|]. simpl. split; [done|]. split; [done|lia].
Qed.

(** The last entry in memory is the new one. *)
Lemma stores_push s D M h st : stores s D M -> h ∉ (D ++ M).*1 -> (forall x, ~ written (disk_cache s) h x) ->
  stores (mk (<[h := st]> (states s)) (on_disk_states s) (in_memory_limit s) (min_in_memory_limit s)
    (max_on_disk_limit s) (oldest_on_disk s) (present s ++ [h]) (disk_cache s)) D (M ++ [(h, st)]).
Proof.
  intros [Hnd Hp Hst Hq Hd Hu Hh Ho] Hn Hnw. split; simpl; try done.
  - rewrite app_assoc, fmap_app. apply NoDup_app. split; [done|]. split; [|apply NoDup_singleton].
    by intros k Hk ->%list_elem_of_singleton.
  - by rewrite Hp, fmap_app.
  - rewrite as_map_snoc; [by rewrite Hst|]. rewrite fmap_app in Hn. set_solver.
  - intros k x. rewrite fmap_app, elem_of_app. intros [Hk|Hk%list_elem_of_singleton]; [by apply Hu|subst k; apply Hnw].
Qed.

Lemma insert_kept l s h st old D M : kept l s old D M -> h ∉ l.*1 ->
  exists s' old' D' M', insert s h st = Val s' /\ kept (l ++ [(h, st)]) s' old' D' M'.
Proof.
  intros Hk Hh. pose proof (insert_limit l s old D M Hk) as H0. unfold insert. cbv zeta in *.
  destruct Hk as [_ (Hmin & Hmin' & Hmax) _ _ Hm Hset].
  match goal with |- context [enforce_limits ?x] => set (s0 := x) in * end. clearbody s0. destruct H0 as (Hsp & Emax & Emin & Hl).
  destruct (enforce_ok l s0) as (s1 & -> & L1 & old' & D' & M' & Hsp1 & HM1 & HD1); [lia|lia|by eexists _, _, _|].
  rewrite <- (memory_only_limits _ _ L1) in HD1. pose proof L1 as [= El1 Em1 Ex1]. cbn [mbind rust_bind].
  destruct Hsp1 as [El Hst Hmo Hd Hm1 Hun]. eexists _, old', D', (M' ++ [(h, st)]). split; [done|].
  assert (Hh' : h ∉ (D' ++ M').*1) by (rewrite El, fmap_app in Hh; set_solver).
  pose proof (stores_push s1 D' M' h st Hst Hh' (fun x => Hun h x Hh)) as Hpush.
  assert (Hlen : zlen (M' ++ [(h, st)]) = zlen M' + 1) by (unfold zlen; rewrite length_app; simpl; lia).
  split; simpl; [|split_and!; lia|lia|by rewrite <- Ex1 in HD1| |by rewrite Em1, Ex1, Emin, Emax].
  - split; simpl; try done; [by rewrite El, <- !app_assoc|intros Hne; rewrite Hlen; destruct (Hm1 Hne); lia|].
    intros k x Hk. apply Hun. rewrite fmap_app in Hk. set_solver.
  - intros Hne. rewrite Hlen. destruct (Hm1 Hne); lia.
Qed.

Lemma get_kept l s h old D M : kept l s old D M ->
  (get s h).1 = recall s D M h /\ kept l (get s h).2 old D M.
Proof.
  intros [[El Hst Hmo Hd Hm1 Hun] Hlim HM' HD Hm Hset]. destruct (stores_get s D M h Hst) as (Hr & Hst' & E1 & E2 & E3).
  split; [done|]. assert (Eo : is_memory_only (get s h).2 = is_memory_only s) by (unfold is_memory_only; by rewrite E3).
  split; rewrite ?E1, ?E2, ?E3, ?Eo; try done. split; rewrite ?E1, ?E2, ?E3, ?Eo; try done.
  intros k x Hk Hw%get_written. by apply (Hun k x).
Qed.

Lemma interval_kept l s t old D M : kept l s old D M ->
  exists s' old' D' M', update_interval_mine_block_time s t = Val s' /\ kept l s' old' D' M'.
Proof.
  intros Hk. unfold update_interval_mine_block_time. case_if; [|by eexists _, _, _, _].
  destruct Hk as [Hsp (Hmin & Hmin' & Hmax) _ _ Hm Hset]. unfold DEFAULT_HISTORY_LIMIT.
  destruct (enforce_ok l (set_cache_limit s (500 * 3))) as (s1 & -> & L1 & old' & D' & M' & Hsp1 & HM1 & HD1);
    [done|done|by eexists _, _, _; apply split_set_limit|].
  rewrite <- (memory_only_limits _ _ L1) in HD1. injection L1 as El1 Em1 Ex1. simpl in *.
  eexists s1, old', D', M'. split; [done|]. pose proof (sp_memory _ _ _ _ _ Hsp1) as Hm1. unfold MIN_HISTORY_LIMIT in *.
  split; [done|unfold MIN_HISTORY_LIMIT; lia|lia|by rewrite Ex1| |by rewrite Em1, Ex1].
  intros Hne. destruct (Hm1 Hne); lia.
Qed.

(** ** Any use of the history *)
Inductive states_op := InsertState (h : Z) (st : StateDb) | GetState (h : Z) | SetInterval (block_time : Z).
Definition run_states_op (s : states_t) (op : states_op) : rust states_t :=
  match op with
  | InsertState h st => insert s h st
  | GetState h => Val (get s h).2
  | SetInterval t => update_interval_mine_block_time s t
  end.
Definition run_states (s : states_t) (ops : list states_op) : rust states_t :=
  foldl (fun acc op => s ← acc; run_states_op s op) (Val s) ops.
Definition inserted (ops : list states_op) : entries :=
  omap (fun op => match op with InsertState h st => Some (h, st) | _ => None end) ops.

Lemma run_states_kept ops l s old D M : kept l s old D M -> NoDup (l ++ inserted ops).*1 ->
  exists s' old' D' M', run_states s ops = Val s' /\ kept (l ++ inserted ops) s' old' D' M'.
Proof.
  unfold run_states. revert l s old D M. induction ops as [|op ops IH]; intros l s old D M Hk Hnd; cbn [foldl].
  { exists s, old, D, M. simpl. by rewrite app_nil_r. }
  cbn [mbind rust_bind]. destruct op as [h st|h|t]; simpl in *.
  - rewrite cons_middle, app_assoc in Hnd. assert (Hh : h ∉ l.*1).
    { rewrite !fmap_app in Hnd. apply NoDup_app in Hnd as (Hnd & _ & _). apply NoDup_app in Hnd as (_ & Hnd & _).
      intros Hin. apply (Hnd h Hin). left. }
    destruct (insert_kept l s h st old D M Hk Hh) as (s1 & old1 & D1 & M1 & -> & Hk1).
    destruct (IH _ _ _ _ _ Hk1 Hnd) as (s2 & o2 & D2 & M2 & E2 & Hk2). exists s2, o2, D2, M2.
    split; [done|]. by rewrite <- app_assoc in Hk2.
  - destruct (get_kept l s h old D M Hk) as [_ Hk1]. by eapply IH.
  - destruct (interval_kept l s t old D M Hk) as (s1 & o1 & D1 & M1 & -> & Hk1). by eapply IH.
Qed.

(** The histories of [with_genesis]. *)
Definition start : states_t := if memory then memory_only (new limit) else new limit.

Lemma start_kept : kept [] start [] [] [].
Proof.
  unfold start, MAX_ON_DISK_HISTORY_LIMIT, MIN_HISTORY_LIMIT.
  assert (stores (if memory then memory_only (new limit) else new limit) [] []).
  { destruct memory; (split; simpl; try done; apply NoDup_nil_2 || intros h x Hin; by apply elem_of_nil in Hin). }
  split; [split; try done; destruct memory; intros h x _; apply default_unwritten|..]; destruct memory; simpl; unfold MIN_HISTORY_LIMIT, MAX_ON_DISK_HISTORY_LIMIT, zlen; simpl;
    done || lia.
Qed.

Lemma history_kept ops : NoDup (inserted ops).*1 ->
  exists s old D M, run_states start ops = Val s /\ kept (inserted ops) s old D M.
Proof. intros Hnd. apply (run_states_kept ops [] start [] [] []); [apply start_kept|done]. Qed.
End operations.


(** With a limit of zero, which the command line option
    [--prune-history 0] sets, the loop that makes room in memory never ends:
    it waits for less than no state to be present. *)
Theorem prune_history_zero_hangs (fuel : nat) :
  while memory_full evict fuel
    (states_of_config (StateDb := StateDb) (PruneStateHistoryConfig_from_args (Some (Some 0)))) = Diverge.
Proof.
  assert (H : forall s : states_t, in_memory_limit s = 0 -> present s = [] ->
    while memory_full evict fuel s = Diverge); [|by apply H].
  induction fuel as [|fuel IH]; intros s Hl Hp; simpl; unfold memory_full; rewrite Hl, Hp; [done|].
  simpl. apply IH; unfold evict; by rewrite Hp.
Qed.
End history.
