(* ===== verification/EvmSafety.v ===== *)
(** * The driver is safe

    The driver keeps the contract the interpreter expects of its host, at
    every depth: calls and creations always return, they never panic, and
    the journal can always be reverted to the checkpoint of every frame.
    Transactions therefore return too. *)

From stdpp Require Import base option list gmap.
From Stdlib Require Import ZArith Lia.
From S2P Require Import Prelude Primitives Gas EvmStack EvmMemory I256 Opcode Analysis Interpreter Instructions Safety Execution Precompile PrecompileSpec Journal JournalRevert JournalSafe EvmImpl.
Import EVMImpl.

(** ** A program logic for the driver *)

Section logic.
Context {DB : Type} {HDB : Database DB} {HC : Crypto}.

Definition ewp {A : Type} (m : evm A) (d : EVMData) (Q : A -> EVMData -> Prop) : Prop :=
  wp False (m d) (fun '(a, d') => Q a d').

Lemma ewp_bind {A B : Type} (m : evm A) (f : A -> evm B) d Q :
  ewp m d (fun a d' => ewp (f a) d' Q) -> ewp (m ≫= f) d Q.
Proof. unfold ewp, mbind, evm_bind. by destruct (m d) as [[a d']| | |]. Qed.

Lemma ewp_mono {A : Type} (m : evm A) d (P Q : A -> EVMData -> Prop) :
  ewp m d P -> (forall a d', P a d' -> Q a d') -> ewp m d Q.
Proof. intros Hm HPQ. eapply wp_mono; [|exact Hm]. intros [a d']. apply HPQ. Qed.

Lemma ewp_ret {A : Type} (a : A) d Q : Q a d -> ewp (mret a) d Q.
Proof. done. Qed.
Lemma ewp_get d Q : Q d d -> ewp get d Q.
Proof. done. Qed.
Lemma ewp_modify f d Q : Q tt (f d) -> ewp (modify f) d Q.
Proof. done. Qed.
Lemma ewp_lift {A : Type} (m : rust A) d Q : wp False m (fun a => Q a d) -> ewp (lift m) d Q.
Proof. unfold ewp, lift. by rewrite wp_bind. Qed.
Lemma ewp_lift_val {A : Type} (m : rust A) a d Q : m = Val a -> Q a d -> ewp (lift m) d Q.
Proof. by intros ->. Qed.
Lemma ewp_on_journal f d Q :
  wp False (f (d_journaled_state d)) (fun js => Q tt (set_journal d js)) ->
  ewp (on_journal f) d Q.
Proof. unfold ewp, on_journal. by rewrite wp_bind. Qed.
Lemma ewp_ok_or_record {A : Type} (r : A + db_error) d Q :
  (forall a, r = inl a -> Q (Some a) d) ->
  (forall e, r = inr e -> Q None (set_error d (Some e))) -> ewp (ok_or_record r) d Q.
Proof. intros H1 H2. destruct r; [by apply H1|by apply H2]. Qed.
End logic.

Ltac estep :=
  match goal with
  | |- ewp (_ ≫= _) _ _ => apply ewp_bind
  | |- ewp (mret _) _ _ => apply ewp_ret
  | |- ewp get _ _ => apply ewp_get
  | |- ewp (modify _) _ _ => apply ewp_modify
  end; cbv beta.

(** ** The invariant *)

(** A precompile that returns a well-formed answer whatever it is given. *)
Definition precompile_ok (p : Precompile) : Prop :=
  match p with
  | Standard f | Custom f => returns_ok f
  | CustomEnterprise f => forall input gas_limit context st,
      Forall is_u8 input -> zlen input <= isize_max -> is_u64 gas_limit ->
      wp False (f input gas_limit context st) (fun '(r, _) => answer_ok gas_limit r)
  end.

Section safety.
Context {DB : Type} {HDB : Database DB} {HC : Crypto} {HCS : CryptoSpec}.
Context (db_ok : DB -> Prop) {HS : DatabaseSpec db_ok} (SPEC : SpecId).
(** The environment is never assigned. *)
Context (e0 : Env) (HE : env_wf SPEC e0) (HM : 0 <= cfg_memory_limit (env_cfg e0) <= mem_max).

(** What never changes while frames run. *)
Record data_wf (d : EVMData) : Prop := mkDataWf {
  dw_env : d_env d = e0;
  dw_db : db_ok (d_db d);
  dw_precompiles : map_Forall (fun _ => precompile_ok) (d_precompiles d);
}.

Section invariant.
Context (lo : Z) (JB : list (list JournalEntry)) (S0 : gmap Z Account) (b : bool)
  (L : gmap Z Account).

(** A frame at depth at least [lo]; the accounts [L] stay loaded. *)
Record evm_inv (d : EVMData) : Prop := mkEvmInv {
  ei_data : data_wf d;
  ei_journal : jinv JB S0 b (d_journaled_state d);
  ei_depth : lo <= js_depth (d_journaled_state d) <= 1025;
  ei_loaded : L ⊑ js_state (d_journaled_state d);
}.

Definition loaded (a : Z) (d : EVMData) : Prop := is_Some (js_state (d_journaled_state d) !! a).

Definition evm_ok (a : Z) (d : EVMData) : Prop := evm_inv d /\ is_b160 a /\ loaded a d.

Definition fatal (d : EVMData) : Prop := d_error d <> None.

(** What an operation other than entering and leaving frames does. *)
Record dstep (d d' : EVMData) : Prop := mkDstep {
  ds_inv : evm_inv d';
  ds_covers : js_state (d_journaled_state d) ⊑ js_state (d_journaled_state d');
  ds_depth : js_depth (d_journaled_state d') = js_depth (d_journaled_state d);
}.

Lemma dstep_refl d : evm_inv d -> dstep d d.
Proof. by constructor. Qed.
Lemma dstep_trans d1 d2 d3 : dstep d1 d2 -> dstep d2 d3 -> dstep d1 d3.
Proof. intros [_ C1 E1] [I2 C2 E2]. constructor; [done|by etransitivity|congruence]. Qed.
Lemma dstep_loaded d d' a : dstep d d' -> loaded a d -> loaded a d'.
Proof. intros H. eapply covers_lookup, H. Qed.
Lemma dstep_ok d d' a : dstep d d' -> evm_ok a d -> evm_ok a d'.
Proof. intros Hd (_ & Ha & Hl). split; [apply Hd|]. split; [done|]. by eapply dstep_loaded. Qed.

(** A step of the journal is a step of the driver. *)
Lemma journal_step d js db :
  evm_inv d -> db_ok db -> jstep JB S0 b (d_journaled_state d) js ->
  dstep d (set_journal_db d js db).
Proof.
  intros [[He Hdb Hp] Hj Hd Hl] Hok [Hi Hde Hc]. constructor; [|done|done].
  constructor; [by constructor|done| |].
  - simpl. by rewrite Hde.
  - by etransitivity.
Qed.

Lemma error_step d e : evm_inv d -> dstep d (set_error d e).
Proof. intros [[]]. constructor; [|done|done]. by constructor; [constructor|..]. Qed.
Lemma statics_step d st : evm_inv d -> dstep d (set_statics d st).
Proof. intros [[]]. constructor; [|done|done]. by constructor; [constructor|..]. Qed.

Lemma on_journal_safe f d :
  evm_inv d ->
  wp False (f (d_journaled_state d)) (fun js => jstep JB S0 b (d_journaled_state d) js) ->
  ewp (on_journal f) d (fun _ d' => dstep d d' /\ d_error d' = d_error d).
Proof.
  intros Hi Hf. apply ewp_on_journal. eapply wp_mono; [|exact Hf]. intros js Hjs.
  split; [|done]. by apply (journal_step d js (d_db d)); [|apply Hi|].
Qed.

Lemma with_db_safe {R : Type} (f : JournaledState -> DB -> rust (R * JournaledState * DB))
  (P : R -> JournaledState -> Prop) d :
  evm_inv d ->
  wp False (f (d_journaled_state d) (d_db d)) (jpost_safe db_ok JB S0 b (d_journaled_state d) P) ->
  ewp (with_db f) d (fun r d' => dstep d d' /\ P r (d_journaled_state d') /\
    d_error d' = d_error d).
Proof.
  intros Hi Hf. unfold ewp, with_db. rewrite wp_bind. eapply wp_mono; [|exact Hf].
  intros [[r js] db] (Hs & Hd & HP). split; [by apply journal_step|done].
Qed.

(** The pattern of the host methods. *)
Lemma query_safe {A : Type} (f : JournaledState -> DB -> rust ((A + db_error) * JournaledState * DB))
  (P : A + db_error -> JournaledState -> Prop) d :
  evm_inv d ->
  wp False (f (d_journaled_state d) (d_db d)) (jpost_safe db_ok JB S0 b (d_journaled_state d) P) ->
  ewp (r ← with_db f; ok_or_record r) d (fun o d' => dstep d d' /\
    answer fatal (fun a => P (inl a) (d_journaled_state d')) o d').
Proof.
  intros Hi Hf. estep. eapply ewp_mono; [by apply with_db_safe|].
  intros r d' (Hd & HP & _). apply ewp_ok_or_record; intros x ->; [done|].
  split; [|done]. eapply dstep_trans; [exact Hd|]. apply error_step, Hd.
Qed.

(** ** The methods of the host *)

Lemma host_load_account_safe d a : evm_inv d ->
  ewp (load_account a) d (fun o d' => dstep d d' /\ answer fatal (fun _ => loaded a d') o d').
Proof.
  intros Hi. eapply ewp_mono; [eapply query_safe; [done|]|].
  - apply load_account_exist_safe; first [exact HS|apply Hi].
  - intros [o|] d' [Hd Ho]; (split; [done|]); [|done]. by apply (Ho o).
Qed.

Lemma balance_safe d a : evm_inv d ->
  ewp (balance a) d (fun o d' => dstep d d' /\
    answer fatal (fun '(v, _) => is_u256 v /\ loaded a d') o d').
Proof.
  intros Hi. unfold balance. estep. eapply ewp_mono; [apply with_db_safe; [done|]|].
  { apply JournalSafe.load_account_safe; first [exact HS|apply Hi]. }
  intros r d' (Hd & HP & _). estep. apply ewp_ok_or_record.
  - intros [x c] ->. estep. split; [done|]. pose proof (HP x c eq_refl) as Hx. split.
    + apply (jstep_account _ _ _ _ _ _ (ei_journal _ (ds_inv _ _ Hd)) Hx).
    + unfold loaded. by rewrite Hx.
  - intros e ->. estep. split; [|done]. eapply dstep_trans; [exact Hd|]. apply error_step, Hd.
Qed.

(** Reading the account with its code, as [code] and [code_hash] do. *)
Lemma load_code_then {A : Type} d a (K : option (Account * bool) -> evm A) Q :
  evm_inv d ->
  (forall d' x c, dstep d d' -> js_state (d_journaled_state d') !! a = Some x ->
    account_wf x -> is_Some (Primitives.code (info x)) -> ewp (K (Some (x, c))) d' Q) ->
  (forall d', dstep d d' -> fatal d' -> ewp (K None) d' Q) ->
  ewp (r ← with_db (fun js db => load_code js a db); r ← ok_or_record r; K r) d Q.
Proof.
  intros Hi Hsome Hnone. estep. eapply ewp_mono; [apply with_db_safe; [done|]|].
  { apply load_code_safe; first [exact HS|apply Hi]. }
  intros r d' (Hd & HP & _). estep. apply ewp_ok_or_record.
  - intros [x c] ->. destruct (HP x c eq_refl) as [Hx Hc]. apply Hsome; try done.
    apply (jstep_account _ _ _ _ _ _ (ei_journal _ (ds_inv _ _ Hd)) Hx).
  - intros e ->. apply Hnone; [|done]. eapply dstep_trans; [exact Hd|]. apply error_step, Hd.
Qed.

Lemma code_safe d a : evm_inv d ->
  ewp (code a) d (fun o d' => dstep d d' /\
    answer fatal (fun '(v, _) => fit_bytecode v /\ loaded a d') o d').
Proof.
  intros Hi. unfold code. apply load_code_then; [done| |intros d' Hd Hf; by estep].
  intros d' x c Hd Hx Hxw [v Hv]. rewrite Hv. estep. eapply ewp_lift_val; [done|]. estep.
  split; [done|]. destruct Hxw as [(_ & _ & _ & Hc) _]. split; [by apply Hc|].
  unfold loaded. by rewrite Hx.
Qed.

Lemma code_hash_safe d a : evm_inv d ->
  ewp (code_hash a) d (fun o d' => dstep d d' /\ answer fatal (fun '(v, _) => is_u256 v) o d').
Proof.
  intros Hi. unfold code_hash. apply load_code_then; [done| |intros d' Hd Hf; by estep].
  intros d' x c Hd Hx [(_ & _ & Hh & _) _] _. do 2 estep.
  case_if; [estep; split; [done|by vm_compute]|]. by case_if; estep.
Qed.

Lemma host_sload_safe d a k : evm_inv d -> loaded a d ->
  ewp (sload a k) d (fun o d' => dstep d d' /\ answer fatal (fun '(v, _) => is_u256 v) o d').
Proof.
  intros Hi Ha. eapply ewp_mono; [eapply query_safe; [done|]|].
  - apply (JournalSafe.sload_safe db_ok); first [exact HS|apply Hi|done].
  - intros [[v c]|] d' [Hd Ho]; (split; [done|]); [|done]. by apply (Ho v c).
Qed.

Lemma host_sstore_safe d a k v : evm_inv d -> loaded a d -> is_u256 v ->
  ewp (sstore a k v) d (fun o d' => dstep d d' /\ answer fatal (fun _ => True) o d').
Proof.
  intros Hi Ha Hv. apply (query_safe _ (fun _ _ => True)); [done|].
  apply (JournalSafe.sstore_safe db_ok); first [exact HS|apply Hi|done].
Qed.

Lemma host_selfdestruct_safe d a t : evm_inv d -> loaded a d ->
  ewp (selfdestruct a t) d (fun o d' => dstep d d' /\ answer fatal (fun _ => True) o d').
Proof.
  intros Hi Ha. apply (query_safe _ (fun _ _ => True)); [done|].
  apply (JournalSafe.selfdestruct_safe db_ok); first [exact HS|apply Hi|done].
Qed.

Lemma block_hash_safe d n : evm_inv d ->
  ewp (block_hash n) d (fun o d' => dstep d d' /\ answer fatal is_u256 o d').
Proof.
  intros Hi. eapply ewp_mono;
    [apply (query_safe _ (fun r _ => forall v, r = inl v -> is_u256 v)); [done|]|].
  2:{ intros [v|] d' [Hd Ho]; (split; [done|]); [|done]. by apply Ho. }
  - destruct (db_block_hash_ok (d_db d) n) as [Hd Hv]; [apply Hi|].
    destruct (db_block_hash (d_db d) n) as [r db]. split; [apply jstep_refl, Hi|done].
Qed.

Lemma host_log_safe d a ts l : evm_inv d -> ewp (log a ts l) d (fun _ d' => dstep d d').
Proof.
  intros Hi. eapply ewp_mono; [apply on_journal_safe; [done|]|by intros u d' [? _]].
  apply JournalSafe.log_safe, Hi.
Qed.

Lemma host_inc_nonce_safe d a : evm_inv d -> loaded a d ->
  ewp (journal_inc_nonce a) d (fun _ d' => dstep d d').
Proof.
  intros Hi Ha. unfold ewp, journal_inc_nonce. rewrite wp_bind.
  eapply wp_mono; [|apply (JournalSafe.inc_nonce_safe JB S0 b); [apply Hi|done]].
  intros [r js] [Hs _]. by apply (journal_step d js (d_db d)); [|apply Hi|].
Qed.

(** Both accounts are loaded, so a failure is not a failure of the
    database. *)
Lemma host_transfer_safe d f t v : evm_inv d -> loaded f d -> loaded t d -> is_u256 v ->
  ewp (with_db (fun js db => transfer js f t v db)) d (fun r d' => dstep d d' /\
    forall e, r = inr e -> e = OutOfFund \/ e = OverflowPayment).
Proof.
  intros Hi Hf Ht Hv. unfold ewp, with_db. rewrite wp_bind.
  pose proof (JournalSafe.transfer_safe db_ok JB S0 b (d_journaled_state d) f t v (d_db d)
    (ei_journal _ Hi) (dw_db _ (ei_data _ Hi)) Hv) as Hw.
  destruct (transfer _ _ _ _ _) as [[[r js] db]| | |] eqn:E; try done.
  destruct Hw as (Hs & Hd & _). split; [by apply journal_step|].
  by apply (transfer_loaded _ _ _ _ _ _ _ _ Hf Ht E).
Qed.

End invariant.

(** ** Entering and leaving frames *)
Section frame.
Context (lo : Z) (JB : list (list JournalEntry)) (S0 : gmap Z Account) (b : bool)
  (L : gmap Z Account).
Context (d1 : EVMData) (I1 : evm_inv lo JB S0 b L d1).
Abbreviation js1 := (d_journaled_state d1).
Context (D1 : js_depth js1 <= 1024) (L1 : 0 <= lo).

(** Inside the frame opened at [d1]. *)
Definition inside (d : EVMData) : Prop :=
  evm_inv (js_depth js1 + 1) (js_journal js1) (js_state js1) b L d.

(** After it. *)
Record left (d2 d : EVMData) : Prop := mkLeft {
  lf_inv : evm_inv lo JB S0 b L d;
  lf_covers : js_state js1 ⊑ js_state (d_journaled_state d);
  lf_error : d_error d = d_error d2;
}.

Lemma left_ok d2 d a : left d2 d -> evm_ok lo JB S0 b L a d1 -> evm_ok lo JB S0 b L a d.
Proof.
  intros [Hi Hc _] (_ & Ha & Hl). split; [done|]. split; [done|]. by eapply covers_lookup.
Qed.

Lemma enter_frame :
  ewp journal_checkpoint d1 (fun c d2 => c = (checkpoint js1).1 /\ inside d2 /\
    js_state (d_journaled_state d2) = js_state js1).
Proof.
  destruct I1 as [[] Hj Hd Hl]. split; [done|]. split; [|done].
  constructor; [by constructor|by eapply checkpoint_inv| |done].
  simpl. rewrite wrap64_id by rlia. lia.
Qed.

Lemma inside_depth d : inside d -> lo <= wrap64 (js_depth (d_journaled_state d) - 1) <= 1025.
Proof. intros [_ _ Hd _]. pose proof (ei_depth _ _ _ _ _ _ I1). rewrite wrap64_id by rlia. lia. Qed.

Lemma inside_covers d : inside d -> js_state js1 ⊑ js_state (d_journaled_state d).
Proof. intros Hi. eapply jinv_covers, Hi. Qed.

(** A creation that fails in the database returns without leaving. *)
Lemma leak d : inside d -> left d d.
Proof.
  intros Hi. pose proof (inside_covers _ Hi). constructor; [|done|done].
  destruct Hi as [Hw Hj Hd Hl]. pose proof (ei_depth _ _ _ _ _ _ I1).
  constructor; [done| |lia|done]. eapply jinv_nest; [apply I1|done].
Qed.

Lemma commit_frame d :
  inside d -> ewp journal_commit d (fun _ d' => left d d' /\
    js_state (d_journaled_state d') = js_state (d_journaled_state d)).
Proof.
  intros Hi. pose proof (leak _ Hi) as [[[] Hj _ Hl] Hc _]. split; [|done].
  constructor; [|done|done]. constructor; [by constructor| | |done].
  - by apply commit_inv.
  - by apply inside_depth.
Qed.

Lemma revert_frame d :
  inside d -> ewp (journal_revert_to (checkpoint js1).1) d (fun _ d' => left d d').
Proof.
  intros Hi. apply ewp_on_journal.
  destruct (revert_inv JB S0 b js1 (d_journaled_state d)) as (js2 & -> & Hj & Hc & Hd);
    [apply I1|apply Hi|].
  pose proof (inside_depth _ Hi) as Hdep. destruct Hi as [[] _ _ _].
  constructor; [|done|done]. constructor; [by constructor|done|simpl; by rewrite Hd|].
  simpl. etransitivity; [|exact Hc]. apply I1.
Qed.

(** Reverting and answering. *)
Lemma revert_then {A : Type} d (K : evm A) Q :
  inside d -> (forall d', left d d' -> ewp K d' Q) ->
  ewp (journal_revert_to (checkpoint js1).1;; K) d Q.
Proof. intros Hi HK. estep. eapply ewp_mono; [by apply revert_frame|]. auto. Qed.
End frame.

(** ** Running a contract *)
Section run.
Context (HH : Host EVMData) (lo : Z) (JB : list (list JournalEntry)) (S0 : gmap Z Account)
  (b : bool) (L : gmap Z Account) (static : bool).
Context (HHS : HostSpec (HH := HH) False SPEC static (evm_ok lo JB S0 b L) fatal).

Lemma run_contract_safe d c gl :
  contract_wf c -> is_u64 gl -> evm_ok lo JB S0 b L (ct_address c) d ->
  ewp (run_contract SPEC HH c gl static) d (fun '(r, i) d' => r <> Continue /\ interp_wf i /\
    0 <= remaining (i_gas i) <= gl /\ evm_ok lo JB S0 b L (ct_address c) d' /\
    (r = FatalExternalError -> fatal d')).
Proof.
  intros Hc Hg Hok. unfold ewp, run_contract. rewrite wp_bind.
  rewrite (dw_env _ (ei_data _ _ _ _ _ _ (proj1 Hok))).
  destruct (fresh_wf c gl static _ Hc Hg HM) as (Hw & Hpc & Hr & Hs & Hrem).
  eapply wp_mono; [|eapply (run_spec (HH := HH) False SPEC static _ fatal); try done;
    [by rewrite Hrem; rlia]].
  intros [[r i] d'] (_ & Hnc & Hwi & _ & Hle & Hok' & Hf). rewrite Hrem in Hle.
  split; [done|]. split; [done|]. split; [|done]. split; [apply wrap64_range|done].
Qed.
End run.

(** ** Calls and creations, given that deeper frames are safe *)
Section nested.
Context (HH : Host EVMData) (lo : Z) (JB : list (list JournalEntry)) (S0 : gmap Z Account)
  (b : bool) (L : gmap Z Account) (L0 : 0 <= lo).
Context (HHS : forall lo' JB' S0' static, lo + 1 <= lo' <= 1025 ->
  HostSpec (HH := HH) False SPEC static (evm_ok lo' JB' S0' b L) fatal).
Abbreviation inv := (evm_inv lo JB S0 b L).
Abbreviation okay := (evm_ok lo JB S0 b L).

(** What a frame called from [a] answers. *)
Definition call_post (a gl : Z) (o : InstructionResult * Gas * list Z) (d : EVMData) : Prop :=
  let '(r, g, out) := o in
  r <> Continue /\ answer_gas_wf gl g /\ bytes_wf out /\
  (r = FatalExternalError -> fatal d) /\ okay a d.

Lemma fresh_gas gl : is_u64 gl -> answer_gas_wf gl (Gas_new gl).
Proof.
  intros Hg. unfold answer_gas_wf. rewrite remaining_wf by (by apply Gas_new_wf). simpl. rlia.
Qed.

Lemma bytes_wf_nil : bytes_wf [].
Proof. split; [constructor|by vm_compute]. Qed.

Lemma call_post_plain a gl r d :
  r <> Continue -> r <> FatalExternalError -> is_u64 gl -> okay a d ->
  call_post a gl (r, Gas_new gl, []) d.
Proof.
  intros. split; [done|]. split; [by apply fresh_gas|]. split; [apply bytes_wf_nil|]. done.
Qed.

Section opened.
Context (d1 : EVMData) (a : Z) (O1 : okay a d1) (D1 : js_depth (d_journaled_state d1) <= 1024).
Abbreviation within := (inside b L d1).
Abbreviation point := (checkpoint (d_journaled_state d1)).1.

Lemma within_ok d' e : left lo JB S0 b L d1 e d' -> okay a d'.
Proof. intros Hl. by eapply left_ok. Qed.

Lemma run_precompile_safe p inputs d :
  precompile_ok p -> bytes_wf (ci_input inputs) -> is_u64 (ci_gas_limit inputs) -> within d ->
  ewp (run_precompile p inputs point) d (call_post a (ci_gas_limit inputs)).
Proof.
  intros Hp [Hin Hlen] Hg Hd. unfold run_precompile. estep.
  assert (Hcall : ewp (call_precompile p inputs) d (fun r d' =>
    answer_ok (ci_gas_limit inputs) r /\ within d')).
  { unfold call_precompile. destruct p as [f|f|f]; [apply ewp_lift..|unfold ewp; rewrite wp_bind];
      (eapply wp_mono; [|by apply Hp]).
    - done.
    - done.
    - intros [r st] Hr. split; [done|]. by apply statics_step. }
  eapply ewp_mono; [exact Hcall|]. intros [[g out]|e] d' [Hr Hd'].
  - destruct Hr as (Hg1 & Hu & Hl). assert (is_u64 g) by rlia.
    destruct (record_cost _ g) as [gas paid] eqn:E. destruct paid.
    + apply record_cost_true in E as (Hgw & Hrem & _); [|by apply Gas_new_wf|done].
      pose proof (fresh_gas _ Hg) as [_ Hfr]. pose proof (wrap64_range (limit gas - all_used_gas gas)).
      estep. eapply ewp_mono; [by apply (commit_frame lo JB S0 b L d1 (proj1 O1) L0)|].
      intros ? d2 [Hl2 _]. estep. split; [done|]. unfold answer_gas_wf.
      split; [unfold remaining in *; rlia|]. split; [by split|]. split; [done|].
      by eapply within_ok.
    + apply record_cost_false in E as [-> _]; [|by apply Gas_new_wf|done].
      apply (revert_then lo JB S0 b L d1 (proj1 O1) L0); [done|]. intros d2 Hl2. estep.
      apply call_post_plain; try done. by eapply within_ok.
  - apply (revert_then lo JB S0 b L d1 (proj1 O1) L0); [done|]. intros d2 Hl2. estep.
    apply call_post_plain; try done; [by case_decide..|]. by eapply within_ok.
Qed.

Lemma run_code_safe bytecode inputs d :
  fit_bytecode bytecode -> bytes_wf (ci_input inputs) -> is_u64 (ci_gas_limit inputs) ->
  is_b160 (cc_address (ci_context inputs)) -> is_b160 (cc_caller (ci_context inputs)) ->
  is_u256 (cc_apparent_value (ci_context inputs)) ->
  within d -> loaded (cc_address (ci_context inputs)) d ->
  ewp (run_code SPEC HH bytecode inputs point) d (call_post a (ci_gas_limit inputs)).
Proof.
  intros [[Hb Hbl] _] Hin Hg Ha Hc Hv Hd Hl. unfold run_code, Contract_new_with_context. estep.
  destruct (Contract_new_wf (ci_input inputs) bytecode (cc_address (ci_context inputs))
    (cc_caller (ci_context inputs)) (cc_apparent_value (ci_context inputs)))
    as (ct & Hnew & Hw & _ & Haddr & _); try done.
  eapply ewp_lift_val; [exact Hnew|]. estep.
  pose proof (ei_depth _ _ _ _ _ _ (proj1 O1)) as Hdep.
  eapply ewp_mono; [eapply (run_contract_safe HH (js_depth (d_journaled_state d1) + 1)
    (js_journal (d_journaled_state d1)) (js_state (d_journaled_state d1)) b L);
    [apply HHS; lia|done|done|rewrite Haddr; by split]|].
  intros [r i] d2 (Hr & Hiw & Hrem & (Hd2 & _) & Hf). estep.
  destruct (return_value_wf i Hiw) as (out & Hout & Hob & _).
  assert (Hfin : forall d3, left lo JB S0 b L d1 d2 d3 ->
    ewp (out ← lift (return_value i); mret (r, i_gas i, out)) d3
      (call_post a (ci_gas_limit inputs))).
  { intros d3 Hl3. estep. eapply ewp_lift_val; [exact Hout|]. estep. split; [done|]. split; [done|].
    split; [done|]. split; [|by eapply within_ok]. intros E.
    unfold fatal. rewrite (lf_error _ _ _ _ _ _ _ _ Hl3). by apply Hf. }
  destruct (return_ok r).
  - eapply ewp_mono; [by apply (commit_frame lo JB S0 b L d1 (proj1 O1) L0)|]. intros u d3 [Hl3 _]. by apply Hfin.
  - eapply ewp_mono; [by apply (revert_frame lo JB S0 b L d1 (proj1 O1) L0)|]. intros u d3 Hl3. by apply Hfin.
Qed.
End opened.

Lemma call_inner_safe static a d inputs :
  okay a d -> call_inputs_wf static a inputs ->
  ewp (call_inner SPEC HH inputs) d (call_post a (ci_gas_limit inputs)).
Proof.
  intros Ho (Hct & Hin & Hg & Hsrc & Htg & Htgt & Hval & Hctx & Hcal & Happ & _ & _).
  unfold call_inner. estep. eapply ewp_mono; [apply code_safe, Ho|].
  intros [[bytecode c]|] d1 [Hd Hans]; simpl in Hans.
  2:{ estep. split; [done|]. split; [by apply fresh_gas|]. split; [apply bytes_wf_nil|].
      split; [done|]. by eapply dstep_ok. }
  destruct Hans as [Hfit Hlc]. pose proof (dstep_ok _ _ _ _ _ _ _ _ Hd Ho) as O1.
  do 2 estep. case_if; [estep; by apply call_post_plain|].
  unfold CALL_STACK_LIMIT in *. assert (D1 : js_depth (d_journaled_state d1) <= 1024) by lia.
  estep. eapply ewp_mono; [eapply enter_frame; [apply O1|done|done]|].
  intros c2 d2 (-> & I2 & Es). estep.
  assert (Hl2 : forall x, loaded x d1 -> loaded x d2) by (unfold loaded; by rewrite Es).
  assert (Hcaddr : loaded (cc_address (ci_context inputs)) d1 /\
    is_b160 (cc_address (ci_context inputs))).
  { destruct Hctx as [-> | ->]; [done|]. split; apply O1. }
  match goal with |- ewp ?m _ _ => assert (Hm : ewp m d2 (fun _ d3 =>
    dstep (js_depth (d_journaled_state d1) + 1) (js_journal (d_journaled_state d1))
      (js_state (d_journaled_state d1)) b L d2 d3)) end.
  { case_if; [|estep; by apply dstep_refl]. estep.
    eapply ewp_mono; [by apply host_load_account_safe|]. intros o d3 [Hd3 _].
    eapply ewp_mono; [eapply on_journal_safe; [apply Hd3|apply touch_safe, Hd3]|].
    intros ? d4 [Hd4 _]. by eapply dstep_trans. }
  eapply ewp_mono; [exact Hm|]. intros ? d3 Hd3. estep.
  assert (Hl3 : forall x, loaded x d1 -> loaded x d3).
  { intros x Hx. eapply dstep_loaded; [exact Hd3|]. by apply Hl2. }
  eapply ewp_mono; [eapply host_transfer_safe; [apply Hd3|..|done]|].
  { rewrite Hsrc. apply Hl3, O1. }
  { destruct Htgt as [-> | ->]; [by apply Hl3|apply Hl3, O1]. }
  intros [[]|e] d4 [Hd4 He].
  2:{ apply (revert_then lo JB S0 b L d1 (proj1 O1) L0); [apply Hd4|]. intros d5 Hd5. estep.
      apply call_post_plain; try done; [by destruct (He e eq_refl) as [-> | ->]..|].
      by eapply within_ok. }
  unfold Precompiles_get. destruct (d_precompiles d1 !! ci_contract inputs) as [p|] eqn:Hp.
  - eapply run_precompile_safe; try done; [|apply Hd4].
    eapply (dw_precompiles _ (ei_data _ _ _ _ _ _ (proj1 O1))). exact Hp.
  - eapply run_code_safe; try done; [apply Hcaddr|apply Hd4|].
    eapply dstep_loaded; [exact Hd4|]. apply Hl3, Hcaddr.
Qed.
(** *** Creations *)

Definition create_post (a gl : Z) (o : InstructionResult * option Z * Gas * list Z)
  (d : EVMData) : Prop :=
  let '(r, address, g, out) := o in
  (forall v, address = Some v -> is_b160 v) /\ call_post a gl (r, g, out) d.

Lemma create_post_plain a gl r address d :
  (forall v, address = Some v -> is_b160 v) ->
  r <> Continue -> r <> FatalExternalError -> is_u64 gl -> okay a d ->
  create_post a gl (r, address, Gas_new gl, []) d.
Proof. intros. split; [done|]. by apply call_post_plain. Qed.

Lemma create_post_fatal a gl address d :
  (forall v, address = Some v -> is_b160 v) -> is_u64 gl -> fatal d -> okay a d ->
  create_post a gl (FatalExternalError, address, Gas_new gl, []) d.
Proof.
  intros. split; [done|]. split; [done|]. split; [by apply fresh_gas|].
  split; [apply bytes_wf_nil|done].
Qed.

Lemma new_raw_fit bytes : Forall is_u8 bytes -> zlen bytes <= mem_max ->
  fit_bytecode (Bytecode_new_raw bytes).
Proof.
  intros Hu Hl. split; [split; [by split|simpl; lia]|]. simpl.
  case_if; [by vm_compute|apply keccak_range].
Qed.

(** The code stored for what the init code returned, in each of the three
    settings. *)
Lemma deployed_fit kind bytes : Forall is_u8 bytes -> zlen bytes <= mem_max ->
  wp False (match kind with
    | AnalysisRaw => Val (Bytecode_new_raw bytes)
    | AnalysisCheck => Val (Bytecode_to_checked (Bytecode_new_raw bytes))
    | AnalysisAnalyse => to_analysed (Bytecode_new_raw bytes)
    end) fit_bytecode.
Proof.
  intros Hu Hl. destruct (new_raw_fit bytes Hu Hl) as [[Hw Hs] Hh]. destruct kind; simpl.
  - by split.
  - split; [split|]; [by apply to_checked_wf| |done]. simpl.
    unfold zlen in *. rewrite length_resize. lia.
  - destruct (to_analysed_wf _ Hw) as (c & len & m & E & Hcw & _).
    pose proof (to_analysed_size _ _ E) as [Hsz Hhash]. rewrite E. simpl in *.
    split; [split; [done|lia]|]. by rewrite Hhash.
Qed.

Section created.
Context (d1 : EVMData) (a : Z) (O1 : okay a d1) (D1 : js_depth (d_journaled_state d1) <= 1024).
Context (created : Z) (C160 : is_b160 created).
Abbreviation within := (inside b L d1).
Abbreviation point := (checkpoint (d_journaled_state d1)).1.

Lemma some_created : forall v, Some created = Some v -> is_b160 v.
Proof. by intros ? [= <-]. Qed.

(** Revert and answer with what the interpreter left. *)
Lemma revert_create d gl r g out :
  within d -> r <> Continue -> (r = FatalExternalError -> fatal d) ->
  answer_gas_wf gl g -> bytes_wf out ->
  ewp (journal_revert_to point;; mret (r, Some created, g, out)) d (create_post a gl).
Proof.
  intros Hd Hr Hf Hg Ho. apply (revert_then lo JB S0 b L d1 (proj1 O1) L0); [done|].
  intros d2 Hd2. estep. split; [apply some_created|]. split; [done|]. split; [done|].
  split; [done|]. split; [|by eapply (within_ok d1)]. intros E.
  unfold fatal. rewrite (lf_error _ _ _ _ _ _ _ _ Hd2). by apply Hf.
Qed.

Lemma deploy_safe d gl r i :
  within d -> loaded created d -> interp_wf i -> r <> Continue ->
  0 <= remaining (i_gas i) <= gl -> is_u64 gl -> (r = FatalExternalError -> fatal d) ->
  ewp (deploy SPEC created point r i) d (create_post a gl).
Proof.
  intros Hd Hc Hi Hr Hg Hgl Hf. unfold deploy.
  destruct (return_value_wf i Hi) as (out & Hout & [Hou Hol] & Hom).
  destruct (return_ok r) eqn:Hok.
  2:{ apply (revert_then lo JB S0 b L d1 (proj1 O1) L0); [done|]. intros d2 Hd2.
      estep. eapply ewp_lift_val; [exact Hout|]. estep. split; [apply some_created|].
      split; [done|]. split; [done|]. split; [done|]. split; [|by eapply (within_ok d1)].
      intros E. unfold fatal. rewrite (lf_error _ _ _ _ _ _ _ _ Hd2). by apply Hf. }
  estep. eapply ewp_lift_val; [exact Hout|].
  case_if; [by apply revert_create|]. do 2 estep. case_if; [by apply revert_create|].
  destruct (record_cost (i_gas i) _) as [g paid] eqn:Erec.
  assert (Hg' : answer_gas_wf gl g).
  { destruct paid.
    - apply record_cost_true in Erec as (Hgw & Hrem & _); [|apply Hi|apply wrap64_range].
      pose proof (wrap64_range (zlen out * gas.CODEDEPOSIT)).
      pose proof (wrap64_range (limit g - all_used_gas g)).
      unfold answer_gas_wf, remaining in *. rlia.
    - apply record_cost_false in Erec as [-> _]; [done|apply Hi|apply wrap64_range]. }
  case_if; [by apply revert_create|].
  set (bytes := if paid then out else []).
  assert (Hb : Forall is_u8 bytes /\ zlen bytes <= mem_max)
    by (unfold bytes; destruct paid; [done|split; [constructor|by vm_compute]]).
  destruct Hb as [Hbu Hbl]. pose proof (deployed_fit
    (cfg_perf_analyse_created_bytecodes (env_cfg (d_env d))) bytes Hbu Hbl) as Hfit.
  estep. eapply ewp_mono; [by apply (commit_frame lo JB S0 b L d1 (proj1 O1) L0)|].
  intros u d2 [Hd2 Es]. estep.
  assert (Hset : forall c, fit_bytecode c ->
    ewp (on_journal (fun js => set_code js created c);; mret (Return, Some created, g, bytes))
      d2 (create_post a gl)).
  { intros c Hcf. estep. eapply ewp_mono; [eapply on_journal_safe; [apply Hd2|]|].
    - apply set_code_safe; [apply Hd2| |done]. by rewrite Es.
    - intros v d3 [Hd3 _]. estep. split; [apply some_created|]. split; [done|]. split; [done|].
      split; [split; [done|lia]|]. split; [done|]. eapply dstep_ok; [exact Hd3|].
      by eapply (within_ok d1). }
  destruct (cfg_perf_analyse_created_bytecodes _); [by estep; apply Hset..|].
  apply ewp_lift. eapply wp_mono; [|exact Hfit]. apply Hset.
Qed.

Lemma create_in_checkpoint_safe d inputs :
  create_inputs_wf a inputs -> within d -> (forall x, loaded x d1 -> loaded x d) ->
  ewp (create_in_checkpoint SPEC HH inputs created point) d (create_post a (cr_gas_limit inputs)).
Proof.
  intros (Hcal & Hval & Hcode & Hcl & Hg & _) Hd Hl. unfold create_in_checkpoint.
  pose proof (some_created) as Hsc. do 3 estep.
  eapply ewp_mono; [eapply (with_db_safe _ (js_journal (d_journaled_state d1))); [exact Hd|];
    apply create_account_safe; first [exact HS|apply Hd]|].
  intros [[|]|e] d2 (Hd2 & Hc & _).
  3:{ estep. estep. assert (He : within (set_error d2 (Some e))) by (apply error_step, Hd2).
      estep. apply create_post_fatal; try done. eapply (within_ok d1); [done|].
      by apply (leak lo JB S0 b L d1 (proj1 O1)). }
  2:{ apply revert_create; [apply Hd2|done|done|by apply fresh_gas|apply bytes_wf_nil]. }
  specialize (Hc true eq_refl).
  assert (Hl2 : forall x, loaded x d1 -> loaded x d2)
    by (intros x Hx; eapply dstep_loaded; [exact Hd2|by apply Hl]).
  estep. eapply ewp_mono; [eapply host_transfer_safe; [apply Hd2| |exact Hc|done]|].
  { rewrite Hcal. apply Hl2, O1. }
  intros [p|e] d3 [Hd3 He].
  2:{ apply revert_create; [apply Hd3|by destruct (He e eq_refl) as [-> | ->]..
        |by apply fresh_gas|apply bytes_wf_nil]. }
  estep. assert (Hc3 : loaded created d3) by (by eapply dstep_loaded).
  assert (Hn : ewp (if enabled SPEC SPURIOUS_DRAGON then journal_inc_nonce created
    else mret (Some 0)) d3 (fun _ d' => within d' /\ loaded created d')).
  { case_if; [|estep; split; [apply Hd3|done]].
    eapply ewp_mono; [apply host_inc_nonce_safe; [apply Hd3|done]|]. intros n d4 Hd4.
    split; [apply Hd4|eapply dstep_loaded; [exact Hd4|done]]. }
  eapply ewp_mono; [exact Hn|]. intros [n|] d4 [Hd4 Hc4].
  2:{ apply (revert_then lo JB S0 b L d1 (proj1 O1) L0); [done|]. intros d5 Hd5. estep.
      apply create_post_plain; try done. by eapply (within_ok d1). }
  destruct (new_raw_fit (cr_init_code inputs) (proj1 Hcode) Hcl) as [[Hw Hs] _].
  destruct (Contract_new_wf [] (Bytecode_new_raw (cr_init_code inputs)) created
    (cr_caller inputs) (cr_value inputs))
    as (ct & Hnew & Hcw & _ & Haddr & _); try done; [rewrite Hcal; apply O1|].
  estep. eapply ewp_lift_val; [exact Hnew|]. estep.
  pose proof (ei_depth _ _ _ _ _ _ (proj1 O1)) as Hdep.
  eapply ewp_mono; [eapply (run_contract_safe HH (js_depth (d_journaled_state d1) + 1)
    (js_journal (d_journaled_state d1)) (js_state (d_journaled_state d1)) b L false);
    [apply HHS; lia|done|done|rewrite Haddr; by split]|].
  intros [r i] d5 (Hr & Hiw & Hrem & Hok5 & Hf). rewrite Haddr in Hok5. destruct Hok5 as (Hd5 & _ & Hc5).
  by apply deploy_safe.
Qed.
End created.

Lemma create_inner_safe a d inputs :
  okay a d -> create_inputs_wf a inputs ->
  ewp (create_inner SPEC HH inputs) d (create_post a (cr_gas_limit inputs)).
Proof.
  intros Ho Hin. pose proof Hin as (Hcal & Hval & Hcode & Hcl & Hg & _). unfold create_inner.
  assert (Hnone : forall v, None = Some v -> is_b160 v) by done.
  estep. eapply ewp_mono; [apply host_load_account_safe, Ho|]. intros o d1 [Hd1 _].
  pose proof (dstep_ok _ _ _ _ _ _ _ _ Hd1 Ho) as O1. do 2 estep.
  case_if; [estep; by apply create_post_plain|].
  unfold CALL_STACK_LIMIT in *. assert (D1 : js_depth (d_journaled_state d1) <= 1024) by lia.
  estep. eapply ewp_mono; [apply balance_safe, O1|]. intros [[v c]|] d2 [Hd2 Hb].
  2:{ estep. apply create_post_fatal; try done. by eapply dstep_ok. }
  pose proof (dstep_ok _ _ _ _ _ _ _ _ Hd2 O1) as O2.
  case_if; [estep; by apply create_post_plain|].
  estep. eapply ewp_mono; [apply host_inc_nonce_safe; [apply O2|rewrite Hcal; apply O2]|].
  intros n d3 Hd3. pose proof (dstep_ok _ _ _ _ _ _ _ _ Hd3 O2) as O3.
  destruct n as [n|]; [|estep; by apply create_post_plain]. cbv zeta.
  match goal with |- ewp (load_account ?x ;; _) _ _ => set (created := x) end.
  assert (C160 : is_b160 created).
  { unfold created. destruct (cr_scheme inputs); [apply create_address_range|apply create2_address_range]. }
  clearbody created.
  estep. eapply ewp_mono; [apply host_load_account_safe, O3|]. intros o4 d4 [Hd4 _].
  pose proof (dstep_ok _ _ _ _ _ _ _ _ Hd4 O3) as O4.
  assert (D4 : js_depth (d_journaled_state d4) <= 1024)
    by (rewrite (ds_depth _ _ _ _ _ _ _ Hd4), (ds_depth _ _ _ _ _ _ _ Hd3), (ds_depth _ _ _ _ _ _ _ Hd2); lia).
  estep. eapply ewp_mono; [eapply enter_frame; [apply O4|done|done]|].
  intros c5 d5 (-> & I5 & Es). eapply create_in_checkpoint_safe; try done.
  intros x. unfold loaded. by rewrite Es.
Qed.
End nested.

(** ** The driver is a good host *)

Lemma host_of_spec lo JB S0 b L static create call :
  (forall a d c, evm_ok lo JB S0 b L a d -> create_inputs_wf a c ->
    ewp (create c) d (create_post lo JB S0 b L a (cr_gas_limit c))) ->
  (forall a d c, evm_ok lo JB S0 b L a d -> call_inputs_wf static a c ->
    ewp (call c) d (call_post lo JB S0 b L a (ci_gas_limit c))) ->
  HostSpec (HH := host_of create call) False SPEC static (evm_ok lo JB S0 b L) fatal.
Proof.
  intros Hcreate Hcall.
  assert (Hq : forall {A : Type} (m : evm (option A)) (P : A -> EVMData -> Prop)
    (Q : A -> Prop) a d, (forall x d', P x d' -> Q x) -> evm_ok lo JB S0 b L a d ->
    ewp m d (fun o d' => dstep lo JB S0 b L d d' /\ answer fatal (fun x => P x d') o d') ->
    wp False (m d) (fun '(o, d') => answer fatal Q o d' /\ evm_ok lo JB S0 b L a d')).
  { intros A m P Q a d HPQ Ho Hm. eapply wp_mono; [|exact Hm]. intros [[x|] d'] [Hd Hx].
    - split; [by eapply HPQ|by eapply dstep_ok].
    - split; [done|by eapply dstep_ok]. }
  constructor.
  - intros a d Ho. cbn [host_env host_of]. by rewrite (dw_env _ (ei_data _ _ _ _ _ _ (proj1 Ho))).
  - intros a d x Ho _. apply (Hq _ (load_account x) (fun _ => loaded x)); [done|done|].
    apply host_load_account_safe, Ho.
  - intros a d n Ho _. apply (Hq _ (block_hash n) (fun v _ => is_u256 v)); [done|done|].
    apply block_hash_safe, Ho.
  - intros a d x Ho _. apply (Hq _ (balance x) (fun '(v, _) d' => is_u256 v /\ loaded x d'));
      [by intros [v c] d' [? ?]|done|]. eapply ewp_mono; [apply balance_safe, Ho|].
    intros [[]|]; done.
  - intros a d x Ho _. apply (Hq _ (code x) (fun '(v, _) d' => fit_bytecode v /\ loaded x d'));
      [|done|eapply ewp_mono; [apply code_safe, Ho|by intros [[]|]]].
    intros [v c] d' [[[[Hu Hst] Hl] _] _]. pose proof (zlen_nonneg (bc_bytecode v)).
    split; [by split; [|lia]|]. unfold Bytecode_len. destruct (bc_state v); [lia|apply Hst..].
  - intros a d x Ho _. apply (Hq _ (code_hash x) (fun '(v, _) _ => is_u256 v));
      [by intros []|done|eapply ewp_mono; [apply code_hash_safe, Ho|by intros [[]|]]].
  - intros a d k Ho _. apply (Hq _ (sload a k) (fun '(v, _) _ => is_u256 v));
      [by intros []|done|eapply ewp_mono; [apply host_sload_safe; apply Ho|by intros [[]|]]].
  - intros a d k v _ Ho _ Hv. apply (Hq _ (sstore a k v) (fun _ _ => True)); [done|done|].
    apply host_sstore_safe; [apply Ho..|done].
  - intros a d ts l _ Ho _ _. cbn [host_log host_of]. rewrite wp_bind. eapply wp_mono; [|by apply host_log_safe, Ho].
    intros [u d'] Hd. by eapply dstep_ok.
  - intros a d t _ Ho _. apply (Hq _ (selfdestruct a t) (fun _ _ => True)); [done|done|].
    apply host_selfdestruct_safe; apply Ho.
  - intros a d c _ Ho Hc. eapply wp_mono; [|by apply (Hcreate a d c)].
    intros [[[[r x] g] l] d'] (? & ? & ? & ? & ? & ?). done.
  - intros a d c Ho Hc. eapply wp_mono; [|by apply (Hcall a d c)].
    intros [[[r g] l] d'] (? & ? & ? & ? & ?). done.
Qed.

Lemma evm_host_spec n lo JB S0 b L static :
  0 <= lo <= 1025 -> 1026 <= lo + Z.of_nat n ->
  HostSpec (HH := evm_host SPEC n) False SPEC static (evm_ok lo JB S0 b L) fatal.
Proof.
  revert lo JB S0 static. induction n as [|n IH]; intros lo JB S0 static Hlo Hn; [lia|].
  assert (Hdeep : forall lo' JB' S0' st, lo + 1 <= lo' <= 1025 ->
    HostSpec (HH := evm_host SPEC n) False SPEC st (evm_ok lo' JB' S0' b L) fatal)
    by (intros; apply IH; lia).
  apply host_of_spec; intros a d c Ho Hc.
  - apply create_inner_safe; try done. lia.
  - eapply call_inner_safe; try done. lia.
Qed.

(** The frame of a transaction. *)
Lemma create_frame_safe JB S0 b L a d c :
  evm_ok 0 JB S0 b L a d -> create_inputs_wf a c ->
  ewp (create_frame SPEC c) d (create_post 0 JB S0 b L a (cr_gas_limit c)).
Proof.
  intros Ho Hc. apply create_inner_safe; try done.
  intros. apply evm_host_spec; unfold nesting; lia.
Qed.

Lemma call_frame_safe JB S0 b L static a d c :
  evm_ok 0 JB S0 b L a d -> call_inputs_wf static a c ->
  ewp (call_frame SPEC c) d (call_post 0 JB S0 b L a (ci_gas_limit c)).
Proof.
  intros Ho Hc. eapply call_inner_safe; try done.
  intros. apply evm_host_spec; unfold nesting; lia.
Qed.
End safety.
