(* ===== verification/EvmTable.v ===== *)
(** * The EVM with the table of the program

    The driver returns on every transaction with precompiles that return
    ([TransactSpec]); in the program's table the administrator's precompile
    does not always.  Here its table is compared with one in which that
    precompile reports an error where it would stop the program: whatever a
    transaction does with the first it does with the second, as long as it
    returns.  So each transaction on which the program's EVM returns has the
    properties proved of the driver, and transfers that carry no gas for code
    are such transactions. *)

From stdpp Require Import base option list gmap.
From Stdlib Require Import ZArith Lia.
From S2P Require Import Prelude Primitives Gas EvmStack EvmMemory I256 Opcode Analysis Interpreter Instructions Natural Safety Precompile PrecompileSpec Journal EvmImpl EvmSafety.

(** ** The driver with two tables *)
Section driver.
Context {DB : Type} {HDB : Database DB} {HC : Crypto} (strict : bool).
(** What is done to each precompile; where it stands in the table stays. *)
Context (f : Precompile -> Precompile).
Import EVMImpl.

Definition retable (d : EVMData) : EVMData :=
  mkEVMData (d_env d) (d_journaled_state d) (d_db d) (d_error d) (f <$> d_precompiles d) (d_statics d).

Definition like {A : Type} (d : EVMData) (m n : evm A) : Prop := below strict (carry retable (m d)) (n (retable d)).

Lemma like_bind {A B : Type} d (m n : evm A) (g k : A -> evm B) :
  like d m n -> (forall a d1, like d1 (g a) (k a)) -> like d (m ≫= g) (n ≫= k).
Proof.
  intros Hm Hg. unfold like, carry, mbind, evm_bind in *. simpl in *.
  destruct (m d) as [[a d1]| | |]; cbn in *; [rewrite Hm; apply Hg|..]; destruct strict; first [by rewrite Hm|done].
Qed.
(** What is read of the data is the same, but for the table. *)
Lemma like_get {B : Type} d (g k : EVMData -> evm B) : like d (g d) (k (retable d)) -> like d (get ≫= g) (get ≫= k).
Proof. done. Qed.
Lemma like_ret {A : Type} d (a : A) : like d (mret a) (mret a).
Proof. done. Qed.
Lemma like_lift {A : Type} d (m : rust A) : like d (lift m) (lift m).
Proof. unfold like, lift, carry. destruct m; simpl; by destruct strict. Qed.
Lemma like_on_journal d g : like d (on_journal g) (on_journal g).
Proof. unfold like, on_journal, carry. simpl. destruct (g (d_journaled_state d)); simpl; by destruct strict. Qed.
Lemma like_with_db {R : Type} d (g : JournaledState -> DB -> rust (R * JournaledState * DB)) :
  like d (with_db g) (with_db g).
Proof. unfold like, with_db, carry. simpl. destruct (g (d_journaled_state d) (d_db d)) as [[[r js] db]| | |]; simpl; by destruct strict. Qed.
Lemma like_ok_or_record {A : Type} d (r : A + db_error) : like d (ok_or_record r) (ok_or_record r).
Proof. by destruct r. Qed.
Lemma like_checkpoint d : like d journal_checkpoint journal_checkpoint.
Proof. unfold like, journal_checkpoint, carry. simpl. by destruct (checkpoint (d_journaled_state d)). Qed.
Lemma like_inc_nonce d a : like d (journal_inc_nonce a) (journal_inc_nonce a).
Proof.
  unfold like, journal_inc_nonce, carry. simpl. destruct (inc_nonce (d_journaled_state d) a) as [[n js]| | |]; simpl; by destruct strict.
Qed.
Lemma like_set_error {B : Type} d e (k1 k2 : unit -> evm B) :
  (forall d1, like d1 (k1 tt) (k2 tt)) ->
  like d (modify (fun d => set_error d e) ≫= k1) (modify (fun d => set_error d e) ≫= k2).
Proof. intros Hk. exact (Hk (set_error d e)). Qed.
Lemma contains_retable m a : Precompiles_contains (f <$> m) a = Precompiles_contains m a.
Proof. unfold Precompiles_contains. rewrite lookup_fmap. by destruct (m !! a). Qed.
Lemma len_retable m : Precompiles_len (f <$> m) = Precompiles_len m.
Proof. unfold Precompiles_len. by rewrite map_size_fmap. Qed.
Lemma addresses_retable m : Precompiles_addresses (f <$> m) = Precompiles_addresses m.
Proof. unfold Precompiles_addresses. rewrite map_to_list_fmap, <- list_fmap_compose. apply list_fmap_ext. by intros i [a p]. Qed.
End driver.

Create HintDb like.
#[export] Hint Resolve like_ret like_lift like_on_journal like_with_db like_ok_or_record like_checkpoint like_inc_nonce : like.
Ltac like_step :=
  match goal with
  | |- like _ _ _ (EVMImpl.get ≫= _) _ => apply like_get; cbn [retable EVMImpl.d_env EVMImpl.d_journaled_state EVMImpl.d_precompiles]
  | |- like _ _ _ (EVMImpl.modify _ ≫= _) _ => apply like_set_error; intros ?
  | |- like _ _ _ (_ ≫= _) _ => apply like_bind; [|intros ? ?]
  | |- context [Precompiles_contains (?f <$> ?m) ?a] => rewrite (contains_retable f m a)
  | |- like _ _ _ (match ?x with _ => _ end) _ => destruct x
  | |- like _ _ _ _ _ => solve [eauto 2 with like]
  | |- like _ _ _ ?m _ =>
      let rec head m := lazymatch m with ?f _ => head f | _ => m end in
      let f := head m in progress (unfold f; cbv zeta)
  end.
Ltac like := intros; repeat like_step.

Section frames.
Context {DB : Type} {HDB : Database DB} {HC : Crypto} (strict : bool) (f : Precompile -> Precompile).
Import EVMImpl.
Abbreviation likes m := (forall d, like strict f d m m).

Lemma like_natural {A : Type} (m : evm A) : likes m -> natural_op (H := EVMData) strict (retable f) m.
Proof. intros Hm d. apply Hm. Qed.
Lemma host_natural create call : NaturalHost (HH := host_of create call) strict (retable f).
Proof.
  split; [done|..].
  - intros a. apply (like_natural (load_account a)). like.
  - intros n. apply (like_natural (block_hash n)). like.
  - intros a. apply (like_natural (balance a)). like.
  - intros a. apply (like_natural (code a)). like.
  - intros a. apply (like_natural (code_hash a)). like.
  - intros a k. apply (like_natural (sload a k)). like.
  - intros a k v. apply (like_natural (sstore a k v)). like.
  - done.
  - intros a t. apply (like_natural (selfdestruct a t)). like.
Qed.
Lemma frames_natural_of create call :
  (forall c, likes (create c)) -> (forall c, likes (call c)) ->
  NaturalFrames (HH := host_of create call) strict (retable f).
Proof. intros H1 H2. split; intros c; apply like_natural; [apply H1|apply H2]. Qed.

Lemma frame_host_natural SPEC n : NaturalHost (HH := evm_host SPEC n) strict (retable f).
Proof. destruct n; apply host_natural. Qed.

Section nested.
Context (SPEC : SpecId) (HH : Host EVMData) {HN : NaturalHost strict (retable f)} {HF : NaturalFrames strict (retable f)}.
Context (Hf : forall p inputs d, like strict f d (call_precompile p inputs) (call_precompile (f p) inputs)).

Lemma run_contract_like contract gas_limit is_static : likes (run_contract SPEC HH contract gas_limit is_static).
Proof.
  intros d. unfold like, run_contract, carry. simpl.
  pose proof (run_below strict (retable f) SPEC (Z.to_nat gas_limit + 1)
    (new_with_memory_limit contract gas_limit is_static (cfg_memory_limit (env_cfg (d_env d)))) d HF) as Hr.
  destruct (run SPEC _ _ d) as [[[r i] d1]| | |]; cbn in *; [by rewrite Hr|..]; destruct strict; first [by rewrite Hr|done].
Qed.
#[local] Hint Resolve run_contract_like : like.

Lemma deploy_like a c r i : likes (deploy SPEC a c r i).
Proof. like. Qed.
#[local] Hint Resolve deploy_like : like.
Lemma create_in_checkpoint_like inputs a c : likes (create_in_checkpoint SPEC HH inputs a c).
Proof. like. Qed.
#[local] Hint Resolve create_in_checkpoint_like : like.
Lemma create_inner_like inputs : likes (create_inner SPEC HH inputs).
Proof. like. Qed.

Lemma run_precompile_like p inputs c d : like strict f d (run_precompile p inputs c) (run_precompile (f p) inputs c).
Proof. unfold run_precompile. apply like_bind; [apply Hf|]. like. Qed.
Lemma run_code_like b inputs c : likes (run_code SPEC HH b inputs c).
Proof. like. Qed.
#[local] Hint Resolve run_precompile_like run_code_like : like.
Lemma get_retable m a : Precompiles_get (f <$> m) a = f <$> Precompiles_get m a.
Proof. apply lookup_fmap. Qed.
Lemma call_inner_like_of inputs :
  (forall p c d, like strict f d (run_precompile p inputs c) (run_precompile (f p) inputs c)) ->
  (forall b c, likes (run_code SPEC HH b inputs c)) -> likes (call_inner SPEC HH inputs).
Proof.
  intros Hrun Hcode d. unfold call_inner. cbv zeta. apply like_bind; [like|]. intros b d1. destruct b as [[code cold]|]; [|like].
  apply like_get. cbn [retable d_journaled_state d_precompiles]. case_match; [like|].
  apply like_bind; [like|]. intros c d2. apply like_bind; [like|]. intros _ d3. apply like_bind; [like|]. intros r d4.
  destruct r; [|like]. rewrite get_retable. destruct (Precompiles_get _ _); cbn [fmap option_fmap option_map]; [apply Hrun|apply Hcode].
Qed.
Lemma call_inner_like inputs : likes (call_inner SPEC HH inputs).
Proof. apply call_inner_like_of; [intros; apply run_precompile_like|intros; apply run_code_like]. Qed.
End nested.

Context (Hf : forall p inputs d, like strict f d (call_precompile p inputs) (call_precompile (f p) inputs)).
Lemma diverge_like {A : Type} d : like strict f d (fun _ => Diverge : rust (A * EVMData)) (fun _ => Diverge).
Proof. unfold like, carry. simpl. by destruct strict. Qed.
Lemma evm_host_natural SPEC n :
  NaturalHost (HH := evm_host SPEC n) strict (retable f) /\ NaturalFrames (HH := evm_host SPEC n) strict (retable f).
Proof.
  induction n as [|n [H1 H2]]; cbn [evm_host]; (split; [apply host_natural|apply frames_natural_of]).
  - intros c d. apply diverge_like. - intros c d. apply diverge_like.
  - intros c. by apply create_inner_like. - intros c. by apply call_inner_like.
Qed.
Lemma call_frame_like SPEC inputs : likes (call_frame SPEC inputs).
Proof. destruct (evm_host_natural SPEC nesting). by apply call_inner_like. Qed.
Lemma create_frame_like SPEC inputs : likes (create_frame SPEC inputs).
Proof. destruct (evm_host_natural SPEC nesting). by apply create_inner_like. Qed.
End frames.

(** ** Transactions with two tables *)
Section transactions.
Context {DB : Type} {HDB : Database DB} {HC : Crypto} (strict : bool) (f : Precompile -> Precompile).
Import EVMImpl.
Abbreviation likes m := (forall d, like strict f d m m).

(** What no part of a transaction assigns. *)
Definition same_setting (d d1 : EVMData (DB := DB)) : Prop :=
  d_env d1 = d_env d /\ d_precompiles d1 = d_precompiles d.
Definition stays {A : Type} (m : evm (DB := DB) A) : Prop := forall d a d1, m d = Val (a, d1) -> same_setting d d1.
Lemma stays_with_db {R : Type} g : stays (with_db (R := R) g).
Proof. intros d a d1. unfold with_db. destruct (g _ _) as [[[r js] db]| | |]; [|done..]. by intros [= _ <-]. Qed.
Lemma stays_on_journal g : stays (on_journal g).
Proof. intros d a d1. unfold on_journal. destruct (g _); [|done..]. by intros [= _ <-]. Qed.
Lemma stays_db_result {R : Type} g : stays (db_result (R := R) g).
Proof.
  intros d a d1. unfold db_result. destruct (with_db g d) as [[r d2]| | |] eqn:E; [|done..].
  intros [= _ <-]. by apply stays_with_db in E.
Qed.
Lemma stays_inc_nonce a : stays (journal_inc_nonce a).
Proof. intros d x d1. unfold journal_inc_nonce. destruct (inc_nonce _ _) as [[n js]| | |]; [|done..]. by intros [= _ <-]. Qed.
Lemma stays_code a : stays (code a).
Proof.
  intros d x d1. unfold code. unfold mbind, evm_bind. destruct (with_db _ d) as [[r d2]| | |] eqn:E; [|done..].
  apply stays_with_db in E. destruct r as [[acc cold]|e]; cbn.
  - destruct (unwrap _); cbn; [|done..]. by intros [= _ <-].
  - by intros [= _ <-].
Qed.

Lemma like_bind_stays {A B : Type} d (m n : evm A) (g k : A -> evm B) :
  like strict f d m n -> stays m -> (forall a d1, same_setting d d1 -> like strict f d1 (g a) (k a)) ->
  like strict f d (m ≫= g) (n ≫= k).
Proof.
  intros Hm Hs Hg. unfold like, carry, mbind, evm_bind in *. simpl in *.
  destruct (m d) as [[a d1]| | |] eqn:E; cbn in *; [rewrite Hm; eapply Hg, Hs, E|..]; destruct strict; first [by rewrite Hm|done].
Qed.
Lemma like_res_bind {A B : Type} d (m n : evm_res A) (g k : A -> evm_res B) :
  like strict f d m n -> stays m -> (forall a d1, same_setting d d1 -> like strict f d1 (g a) (k a)) ->
  like strict f d (m ≫= g : evm_res B) (n ≫= k : evm_res B).
Proof.
  intros Hm Hs Hg. unfold like, carry, mbind, evm_res_bind in *. simpl in *.
  destruct (m d) as [[[a|x] d1]| | |] eqn:E; cbn in *; [rewrite Hm; eapply Hg, Hs, E|by rewrite Hm|..];
    destruct strict; first [by rewrite Hm|done].
Qed.
Lemma like_res_bind' {A B : Type} d (m n : evm_res A) (g k : A -> evm_res B) :
  like strict f d m n -> (forall a d1, like strict f d1 (g a) (k a)) ->
  like strict f d (m ≫= g : evm_res B) (n ≫= k : evm_res B).
Proof.
  intros Hm Hg. unfold like, carry, mbind, evm_res_bind in *. simpl in *.
  destruct (m d) as [[[a|x] d1]| | |] eqn:E; cbn in *; [rewrite Hm; eapply Hg|by rewrite Hm|..];
    destruct strict; first [by rewrite Hm|done].
Qed.
Lemma like_no_error {A : Type} d (m n : evm A) : like strict f d m n -> like strict f d (no_error m) (no_error n).
Proof.
  unfold like, no_error, carry. destruct (m d) as [[a d1]| | |]; cbn; [by intros ->|..]; destruct strict; try done; by intros ->.
Qed.
Lemma like_db_result {R : Type} d g : like strict f d (db_result (R := R) g) (db_result g).
Proof.
  unfold like, db_result, carry. pose proof (like_with_db strict f d g) as Hw. unfold like, carry in Hw.
  destruct (with_db g d) as [[r d1]| | |]; cbn in *; [by rewrite Hw|..]; destruct strict; first [by rewrite Hw|done].
Qed.
Lemma like_reject d b e : like strict f d (reject_if b e) (reject_if b e).
Proof. by destruct b. Qed.
Lemma stays_err {A : Type} e : stays (err e : evm_res A).
Proof. by intros d a d1 [= _ <-]. Qed.
Lemma stays_mret {A : Type} (a : A) : stays (mret a : evm_res A).
Proof. by intros d x d1 [= _ <-]. Qed.

Section spec.
Context (SPEC : SpecId).
Lemma load_slots_like a slots : likes (load_slots a slots).
Proof.
  induction slots as [|slot slots IH]; intros d; cbn [load_slots]; [done|].
  apply like_res_bind'; [apply like_db_result|]. intros _ d1. apply IH.
Qed.
Lemma load_access_list_like l n : likes (load_access_list l n).
Proof.
  revert n. induction l as [|[a slots] l IH]; intros n d; cbn [load_access_list]; [done|].
  apply like_res_bind'; [apply like_db_result|]. intros _ d1.
  apply like_res_bind'; [apply load_slots_like|]. intros _ d2. apply IH.
Qed.
Lemma like_res_get {B : Type} d (g k : EVMData -> evm_res B) :
  like strict f d (g d) (k (retable f d)) -> like strict f d (no_error get ≫= g : evm_res B) (no_error get ≫= k : evm_res B).
Proof. done. Qed.
Lemma initialization_like : likes (initialization SPEC).
Proof.
  intros d. unfold initialization. apply like_res_get. cbn [retable d_env].
  apply like_res_bind'; [apply like_reject|]. intros _ d1.
  apply like_res_bind'; [|by intros [accounts slots] d2].
  case_match; [|done]. apply like_res_bind'; [apply load_access_list_like|done].
Qed.

Lemma like_modify {B : Type} d (u : EVMData -> EVMData) (k1 k2 : unit -> evm B) :
  retable f (u d) = u (retable f d) -> like strict f (u d) (k1 tt) (k2 tt) ->
  like strict f d (modify u ≫= k1) (modify u ≫= k2).
Proof. intros Hu Hk. unfold like, carry, mbind, evm_bind, modify in *. simpl. by rewrite <- Hu. Qed.
Lemma settle_like caller gas : likes (settle SPEC caller gas).
Proof. like. Qed.
Lemma add_precompile_balances_like l m : likes (add_precompile_balances l m).
Proof.
  revert m. induction l as [|a l IH]; intros m d; cbn [add_precompile_balances]; [done|].
  destruct (m !! a); [|apply IH]. apply like_bind; [apply like_with_db|]. intros o d1. apply IH.
Qed.
Lemma finalize_like caller gas : likes (finalize SPEC caller gas).
Proof.
  intros d. unfold finalize. apply like_bind; [apply settle_like|]. intros [used back] d1.
  apply like_get. cbn [retable d_journaled_state]. destruct (Journal.finalize _) as [[new_state logs] js].
  apply like_modify; [done|]. apply like_bind; [|like]. cbn [retable d_env d_precompiles].
  destruct (cfg_perf_all_precompiles_have_balance _); [|done].
  rewrite (addresses_retable f). apply add_precompile_balances_like.
Qed.
Lemma conclude_like exit output fin : likes (conclude exit output fin).
Proof.
  intros d. destruct fin as [[[state logs] used] back]. unfold conclude. destruct (SuccessOrHalt.from exit); try done.
  - unfold like, carry. simpl. destruct (d_error d); simpl; by destruct strict.
  - unfold like. simpl. by destruct strict.
Qed.

Lemma same_setting_trans d1 d2 d3 : same_setting d1 d2 -> same_setting d2 d3 -> same_setting d1 d3.
Proof. intros [E1 P1] [E2 P2]. split; congruence. Qed.
Lemma stays_res_bind {A B : Type} (m : evm_res A) (k : A -> evm_res B) :
  stays m -> (forall a, stays (k a)) -> stays (m ≫= k : evm_res B).
Proof.
  intros Hm Hk d b d2. unfold mbind, evm_res_bind. destruct (m d) as [[[a|x] d1]| | |] eqn:E; try done.
  - intros H. eapply same_setting_trans; [by eapply Hm|by eapply Hk].
  - intros [= _ <-]. by eapply Hm.
Qed.
Lemma stays_access_list l n : stays (load_access_list l n).
Proof.
  revert n. induction l as [|[a slots] l IH]; intros n; cbn [load_access_list]; [apply stays_mret|].
  apply stays_res_bind; [apply stays_db_result|]. intros _. apply stays_res_bind; [|intros _; apply IH].
  induction slots as [|s slots IHs]; cbn [load_slots]; [apply stays_mret|].
  apply stays_res_bind; [apply stays_db_result|by intros _].
Qed.
Lemma stays_reject b e : stays (reject_if b e).
Proof. destruct b; [apply stays_err|apply stays_mret]. Qed.
Lemma stays_res_get {B : Type} (k : EVMData -> evm_res B) :
  (forall d, stays (k d)) -> stays (no_error get ≫= k : evm_res B).
Proof. intros Hk d b d1. exact (Hk d d b d1). Qed.
Lemma stays_initialization : stays (initialization SPEC).
Proof.
  unfold initialization. apply stays_res_get. intros d0. apply stays_res_bind; [apply stays_reject|]. intros _.
  apply stays_res_bind; [|by intros [a n]; apply stays_mret].
  destruct (enabled SPEC BERLIN); [|apply stays_mret].
  apply stays_res_bind; [apply stays_access_list|intros n; apply stays_mret].
Qed.
Lemma like_res_bind_val {A B : Type} d (m n : evm_res A) (g k : A -> evm_res B) :
  like strict f d m n -> stays m ->
  (forall a d1, m d = Val (inl a, d1) -> same_setting d d1 -> like strict f d1 (g a) (k a)) ->
  like strict f d (m ≫= g : evm_res B) (n ≫= k : evm_res B).
Proof.
  intros Hm Hs Hg. unfold like, carry, mbind, evm_res_bind in *. simpl in *.
  destruct (m d) as [[[a|x] d1]| | |] eqn:E; cbn in *;
    [rewrite Hm; apply (Hg a d1 eq_refl); by eapply Hs|by rewrite Hm|..]; destruct strict; first [by rewrite Hm|done].
Qed.

(** A transaction, if its frame does the same with both tables. *)
Lemma transact_like (Q : Z -> Prop) d :
  (forall d1 v d2, same_setting d d1 -> initialization SPEC d1 = Val (inl v, d2) -> Q v) ->
  (forall d1 v gas, same_setting d d1 -> Q v ->
    let '(left, paid) := record_cost (Gas_new (tx_gas_limit (env_tx (d_env d)))) v in
    paid = true -> like strict f d1 (execute SPEC gas (remaining left)) (execute SPEC gas (remaining left))) ->
  like strict f d (transact SPEC) (transact SPEC).
Proof.
  intros HQ He. unfold transact. apply like_res_get. cbn [retable d_env].
  apply like_res_bind.
  { destruct (validate_env _ _); [done|done]. }
  { destruct (validate_env _ _); [apply stays_err|apply stays_mret]. }
  intros _ d1 S1. apply like_res_bind; [apply like_db_result|apply stays_db_result|]. intros [acc cold] d2 S2.
  apply like_res_bind.
  { destruct (validate_caller _ _); done. }
  { destruct (validate_caller _ _); [apply stays_err|apply stays_mret]. }
  intros _ d3 S3. apply like_res_bind.
  { destruct (reserve_gas _ _); [apply like_no_error, like_on_journal|done]. }
  { destruct (reserve_gas _ _); [|apply stays_err]. intros d0 a d4. unfold no_error.
    destruct (on_journal _ d0) as [[u d5]| | |] eqn:E; [|done..]. intros [= _ <-]. by apply stays_on_journal in E. }
  intros _ d4 S4. assert (same_setting d d4) as S by (repeat (eapply same_setting_trans; [eassumption|]); done).
  apply like_res_bind_val; [apply initialization_like|apply stays_initialization|]. intros v d5 Hv S5.
  pose proof (HQ _ _ _ S Hv) as Hq. specialize (He). destruct (record_cost (Gas_new _) v) as [gas paid] eqn:Eg.
  apply like_res_bind_val; [apply like_reject|apply stays_reject|]. intros [] d6 Hpaid S6.
  assert (paid = true) as -> by (by destruct paid).
  destruct (record_cost gas _) as [gas2 paid2]. apply like_res_bind.
  { destruct (enabled SPEC SHANGHAI); [|done]. apply like_res_bind'; [apply like_db_result|done]. }
  { destruct (enabled SPEC SHANGHAI); [|apply stays_mret]. apply stays_res_bind; [apply stays_db_result|intros ?; apply stays_mret]. }
  intros _ d7 S7. apply like_res_bind'.
  { apply like_no_error. specialize (He d7 v gas2). rewrite Eg in He. apply He; [|done|done].
    repeat (eapply same_setting_trans; [eassumption|]). done. }
  intros [[exit gas3] output] d8. apply like_res_bind'; [apply like_no_error, finalize_like|].
  intros fin d9. apply conclude_like.
Qed.

Lemma execute_like (Hf : forall p inputs d, like strict f d (call_precompile p inputs) (call_precompile (f p) inputs)) gas gas_limit :
  likes (execute SPEC gas gas_limit).
Proof.
  intros d. unfold execute. apply like_get. cbn [retable d_env]. destruct (tx_transact_to _) as [a|scheme].
  - apply like_bind; [apply like_inc_nonce|]. intros n d1. destruct n; [|done].
    apply like_bind; [by apply call_frame_like|]. by intros [[? ?] ?] d2.
  - apply like_bind; [by apply create_frame_like|]. by intros [[[? ?] ?] ?] d2.
Qed.
End spec.
End transactions.

(** ** The tame table *)

(** A precompile that reports an error where [p] does not return; without
    any input it is [p]. *)
Definition tame (p : Precompile) : Precompile :=
  match p with
  | CustomEnterprise f => CustomEnterprise (fun input gas_limit context st =>
      match input, f input gas_limit context st with
      | [], r => r
      | _, Val r => Val r
      | _, _ => Val (inr EnterpriseHalt, st)
      end)
  | p => p
  end.

Section tame.
Context {DB : Type} {HDB : Database DB} {HC : Crypto}.
Import EVMImpl.

Lemma tame_like p inputs (d : EVMData (DB := DB)) :
  like false tame d (call_precompile p inputs) (call_precompile (tame p) inputs).
Proof.
  destruct p as [f|f|f]; cbn [tame call_precompile]; [apply like_lift..|].
  unfold like, carry. cbn. destruct (ci_input inputs); by destruct (f _ _ _ _) as [[r st]| | |].
Qed.
Lemma new_tame SPEC db e pcs st :
  retable tame (new (DB := DB) SPEC db e pcs st) = new SPEC db e (tame <$> pcs) st.
Proof. unfold new, retable. cbn. by rewrite (len_retable tame). Qed.

(** What a transaction does with a table it does with the tame one. *)
Lemma transact_tame SPEC db e pcs st out (d : EVMData (DB := DB)) :
  transact SPEC (new SPEC db e pcs st) = Val (out, d) ->
  transact SPEC (new SPEC db e (tame <$> pcs) st) = Val (out, retable tame d).
Proof.
  intros E. rewrite <- new_tame.
  pose proof (transact_like false tame SPEC (fun _ => True) (new SPEC db e pcs st) (fun _ _ _ _ _ => I)
    (fun d1 v gas _ _ => match record_cost _ v as r return
         let '(left, paid) := r in paid = true -> like _ _ d1 (execute SPEC gas (remaining left)) _
       with (left, _) => fun _ => execute_like false tame SPEC tame_like gas (remaining left) d1 end)) as Hl.
  unfold like, carry in Hl. by rewrite E in Hl.
Qed.
End tame.

(** ** The program's tables, tamed *)
Section program.
Context {HX : HashCrates} {HXS : HashCratesSpec} {HC : Crypto} {HCS : CryptoSpec} {HB : Bn} {HBS : BnSpec} {HO : Os}.

Definition admins (p : Precompile) : Prop := match p with CustomEnterprise f => f = admin.admin_func_run | _ => True end.
Lemma extend_admins (m : Precompiles) l :
  map_Forall (fun _ => admins) m -> Forall (fun '(_, p) => admins p) l -> map_Forall (fun _ => admins) (extend m l).
Proof.
  intros Hm Hl. unfold extend. revert m Hm. induction Hl as [|[a p] l Hp Hl IH]; intros m Hm; [done|].
  apply IH. by apply map_Forall_insert_2.
Qed.
Lemma tables_admins spec : map_Forall (fun _ => admins) (Precompiles_new spec).
Proof. destruct spec; repeat (apply extend_admins; [|by repeat constructor]); done. Qed.

Lemma admin_no_input gas_limit context st :
  exists r, admin.admin_func_run [] gas_limit context st = Val (r, st).
Proof. unfold admin.admin_func_run. case_if; by eexists. Qed.
(** When the administrator's precompile returns, its answer is well formed. *)
Lemma admin_answer_ok input gas_limit context st r st' :
  is_u64 gas_limit -> admin.admin_func_run input gas_limit context st = Val (r, st') -> answer_ok gas_limit r.
Proof.
  intros Hg. unfold admin.admin_func_run. destruct (admin.REQUIRED_GAS st =? gas_limit) eqn:E; cbn [negb].
  2: by intros [= <- _].
  apply Z.eqb_eq in E. destruct input as [|k rest]; [by intros [= <- _]|].
  destruct (admin.is_multisig st context); cbn [negb]; [|by intros [= <- _]].
  match goal with |- (?m ≫= _) = _ -> _ => destruct m as [[out st1]| | |] end; [|done..]. intros [= <- _].
  repeat case_if; cbn; [| |done]; (split; [rlia|]); (split; [|by vm_compute]); by repeat constructor.
Qed.
Lemma tame_table_ok spec : map_Forall (fun _ => precompile_ok) (tame <$> Precompiles_new spec).
Proof.
  apply map_Forall_fmap. intros a p Hp. pose proof (tables_ok spec a p Hp) as Hok. pose proof (tables_admins spec a p Hp) as Ha.
  destruct p as [f|f|f]; cbn [tame precompile_ok compose] in *; [exact Hok|exact Hok|]. cbn in Ha. subst f.
  intros input gas_limit context st _ _ Hg.
  pose proof (fun r st' => admin_answer_ok input gas_limit context st r st' Hg) as Ha. revert Ha.
  destruct input as [|k input].
  - destruct (admin_no_input gas_limit context st) as [r ->]. intros Ha. cbn. by apply Ha with st.
  - destruct (admin.admin_func_run _ gas_limit context st) as [[r st']| | |]; intros Ha; cbn; [by eapply Ha|done..].
Qed.
End program.

(** ** Transfers

    A call that carries no data and 21000 gas, or less, leaves none for code:
    whatever is at its target, the first instruction ends the frame. *)
Section transfers.
Context {DB : Type} {HDB : Database DB} {HC : Crypto}.
Import EVMImpl.

(** An instruction that starts a frame needs operands: without any, it
    fails before it asks the host. *)
Lemma create_starved {H : Type} {HH : Host H} strict (phi : H -> H) IS_CREATE2 SPEC i h :
  i_stack i = [] -> below strict (carry phi (host.create IS_CREATE2 SPEC i h)) (host.create IS_CREATE2 SPEC i (phi h)).
Proof.
  intros Hi. unfold host.create, mbind, instr_bind, check_staticcall. destruct (i_is_static i); [done|].
  destruct IS_CREATE2; [destruct (enabled SPEC PETERSBURG); [|done]|]; cbn [check modify ret];
    unfold pop3, pop_with; cbn; rewrite ?Hi; cbn; done.
Qed.
Lemma call_starved {H : Type} {HH : Host H} strict (phi : H -> H) scheme SPEC i h :
  i_stack i = [] -> below strict (carry phi (host.call_inner SPEC scheme i h)) (host.call_inner SPEC scheme i (phi h)).
Proof.
  intros Hi. unfold host.call_inner, mbind, instr_bind.
  destruct scheme; [..|destruct (enabled SPEC HOMESTEAD); [|done]|destruct (enabled SPEC BYZANTIUM); [|done]];
    unfold pop1, pop_with; cbn; rewrite ?Hi; cbn; done.
Qed.
Section starved.
Context {H : Type} {HH : Host H} (strict : bool) (phi : H -> H) {HN : NaturalHost strict phi} (SPEC : SpecId).
Lemma eval_starved op i h :
  i_stack i = [] -> below strict (carry phi (eval SPEC op i h)) (eval SPEC op i (phi h)).
Proof.
  intros Hi. destruct (decide (op ∈ framing)) as [Hop|Hop]; [|by apply eval_natural; [done|right]].
  unfold framing in Hop. rewrite !elem_of_cons, elem_of_nil in Hop.
  destruct Hop as [->|[->|[->|[->|[->|[->|[]]]]]]]; [by apply create_starved|by apply create_starved|by apply call_starved..].
Qed.
Lemma run_starved i h : i_stack i = [] ->
  below strict ('(r, i, h) ← run SPEC 1 i h; Val (r, i, phi h)) (run SPEC 1 i (phi h)).
Proof.
  intros Hi. cbn [run]. case_decide; [|done]. unfold step.
  destruct (get_unchecked (code_of i) (i_pc i)) as [op| | |]; cbn; try by destruct strict.
  pose proof (eval_starved op (set_pc i (i_pc i + 1)) h Hi) as He. unfold carry in He.
  destruct (eval SPEC op _ h) as [[[o i1] h1]| | |]; cbn in *;
    [rewrite He; cbn; case_decide; by destruct strict|..]; destruct strict; first [by rewrite He|done].
Qed.
End starved.

(** A call without gas or data, with either table. *)
Section bare_call.
Context (HH : Host (EVMData (DB := DB))) {HN : NaturalHost true (retable tame)}.
Context (SPEC : SpecId) (inputs : CallInputs) (Hgas : ci_gas_limit inputs = 0) (Hin : ci_input inputs = []).

Lemma run_code_starved b c (d : EVMData (DB := DB)) :
  like true tame d (run_code SPEC HH b inputs c) (run_code SPEC HH b inputs c).
Proof.
  unfold run_code. cbv zeta. apply like_bind; [like|]. intros contract d1.
  apply like_bind; [|like]. unfold like, run_contract, carry. cbn [Gas_new limit retable d_env]. rewrite Hgas.
  change (Z.to_nat 0 + 1)%nat with 1%nat.
  pose proof (run_starved true (retable tame) SPEC
    (new_with_memory_limit contract 0 (ci_is_static inputs) (cfg_memory_limit (env_cfg (d_env d1)))) d1 eq_refl) as Hr.
  destruct (run SPEC 1 _ d1) as [[[r i] d2]| | |]; cbn in *; by rewrite Hr.
Qed.
Lemma run_precompile_starved p c (d : EVMData (DB := DB)) :
  like true tame d (run_precompile p inputs c) (run_precompile (tame p) inputs c).
Proof.
  unfold run_precompile. apply like_bind; [|like]. destruct p as [f|f|f]; cbn [tame call_precompile]; [apply like_lift..|].
  rewrite Hin. unfold like, carry. cbn. by destruct (f _ _ _ _) as [[r st]| | |].
Qed.
Lemma call_starved_like (d : EVMData (DB := DB)) : like true tame d (call_inner SPEC HH inputs) (call_inner SPEC HH inputs).
Proof. apply call_inner_like_of; [exact run_precompile_starved|exact run_code_starved]. Qed.
End bare_call.

(** A transfer: a call that pays for itself only. *)
Record transfer_tx (te : TxEnv) : Prop := mkTransferTx {
  tr_call : exists a, tx_transact_to te = TransactCall a;
  tr_data : tx_data te = [];
  tr_access_list : tx_access_list te = [];
  tr_gas : tx_gas_limit te <= 21000;
}.

Lemma initialization_transfer SPEC v (d1 d2 : EVMData (DB := DB)) :
  transfer_tx (env_tx (d_env d1)) -> initialization SPEC d1 = Val (inl v, d2) -> v = 21000.
Proof.
  intros [[a Ha] Hd Hl _]. unfold initialization, mbind, evm_res_bind, no_error, mbind, evm_bind, get. cbn.
  rewrite Ha, Hd, Hl. cbn [TransactTo_is_create]. rewrite andb_false_r. cbn [andb]. unfold reject_if.
  destruct (enabled SPEC BERLIN); cbn; intros [= <- _]; destruct (enabled SPEC ISTANBUL); reflexivity.
Qed.
Lemma paid_in_full limit left : 0 <= limit <= 21000 -> record_cost (Gas_new limit) 21000 = (left, true) -> remaining left = 0.
Proof.
  intros Hl. unfold record_cost, u64_overflowing_add. cbn. case_match; intros [= <-]. unfold remaining. cbn.
  apply orb_false_iff in H as [_ Hn%Z.ltb_ge]. cbn in Hn |- *. change (wrap64 (0 + 21000)) with 21000 in *.
  by replace limit with 21000 by lia.
Qed.
Lemma execute_transfer SPEC gas (d : EVMData (DB := DB)) : transfer_tx (env_tx (d_env d)) ->
  like true tame d (execute SPEC gas 0) (execute SPEC gas 0).
Proof.
  intros [[a Ha] Hd _ _]. unfold execute. apply like_get. cbn [retable d_env]. rewrite Ha.
  apply like_bind; [apply like_inc_nonce|]. intros n d1. destruct n; [|done].
  apply like_bind; [|by intros [[? ?] ?] d2]. unfold call_frame.
  apply (call_starved_like (evm_host SPEC nesting) (HN := frame_host_natural true tame SPEC nesting)); [done|exact Hd].
Qed.

(** A transfer does with a table exactly what it does with the tame one. *)
Lemma transact_transfer SPEC db e pcs st : transfer_tx (env_tx e) -> 0 <= tx_gas_limit (env_tx e) ->
  transact (DB := DB) SPEC (new SPEC db e (tame <$> pcs) st) =
  ('(out, d) ← transact SPEC (new SPEC db e pcs st); Val (out, retable tame d)).
Proof.
  intros Htr Hg. rewrite <- new_tame. pose proof (tr_gas _ Htr).
  assert (Hl : like true tame (new SPEC db e pcs st) (transact SPEC) (transact SPEC)).
  { apply transact_like with (fun v => v = 21000).
    - intros d1 v d2 [E _] Hv. apply (initialization_transfer SPEC v d1 d2); [by rewrite E|done].
    - intros d1 v gas [E _] ->. cbn [new d_env]. destruct (record_cost _ 21000) as [left paid] eqn:Er. intros ->.
      rewrite (paid_in_full _ _ (conj Hg H) Er). apply execute_transfer. by rewrite E. }
  unfold like, carry in Hl. destruct (transact SPEC (new SPEC db e pcs st)) as [[out d]| | |]; exact Hl.
Qed.
End transfers.
