(* ===== verification/TransactSpec.v ===== *)
(** * Transactions

    [transact] returns a result or an error for every well-formed
    environment and database, whatever the contracts it runs; what it
    charges is within the gas limit. *)

From stdpp Require Import base option list gmap.
From Stdlib Require Import ZArith Lia.
From S2P Require Import Prelude Primitives Gas EvmStack EvmMemory I256 Opcode Analysis Interpreter Instructions Safety Execution Precompile PrecompileSpec Journal JournalRevert JournalSafe EvmImpl EvmSafety.
Import EVMImpl.

(** ** Results *)
Section results.
Context {DB : Type} {HDB : Database DB} (db_ok : DB -> Prop).

(** An error ends the transaction: only the database outlives it.  It is
    never a missing prevrandao, which a well-formed environment has. *)
Definition rwp {A : Type} (m : evm_res A) (d : EVMData) (Q : A -> EVMData -> Prop) : Prop :=
  ewp m d (fun r d' => match r with inl a => Q a d' | inr x => x <> PrevrandaoNotSet /\ db_ok (d_db d') end).

Lemma rwp_bind {A B : Type} (m : evm_res A) (f : A -> evm_res B) d Q :
  rwp m d (fun a d' => rwp (f a) d' Q) -> rwp (m ≫= f) d Q.
Proof. unfold rwp, ewp, mbind, evm_res_bind. by destruct (m d) as [[[a|e] d']| | |]. Qed.

Lemma rwp_mono {A : Type} (m : evm_res A) d (P Q : A -> EVMData -> Prop) :
  rwp m d P -> (forall a d', P a d' -> Q a d') -> rwp m d Q.
Proof. intros Hm HPQ. eapply ewp_mono; [exact Hm|]. intros [a|e] d' H; [by apply HPQ|exact H]. Qed.

Lemma rwp_ret {A : Type} (a : A) d Q : Q a d -> rwp (mret a) d Q.
Proof. done. Qed.
Lemma rwp_err {A : Type} e d (Q : A -> EVMData -> Prop) :
  e <> PrevrandaoNotSet -> db_ok (d_db d) -> rwp (err e) d Q.
Proof. done. Qed.
Lemma rwp_reject_if c e d Q :
  e <> PrevrandaoNotSet -> db_ok (d_db d) -> (c = false -> Q tt d) -> rwp (reject_if c e) d Q.
Proof. intros He Hdb HQ. destruct c; [done|]. by apply HQ. Qed.
Lemma rwp_no_error {A : Type} (m : evm A) d Q : ewp m d Q -> rwp (no_error m) d Q.
Proof. unfold rwp, ewp, no_error. rewrite wp_bind. intros Hm. eapply wp_mono; [|exact Hm]. by intros []. Qed.

Lemma rwp_db_result {R : Type}
  (f : JournaledState -> DB -> rust ((R + db_error) * JournaledState * DB)) d Q :
  ewp (with_db f) d (fun r d' => db_ok (d_db d') /\ forall a, r = inl a -> Q a d') ->
  rwp (db_result f) d Q.
Proof.
  unfold rwp, ewp, db_result. rewrite wp_bind. intros Hm. eapply wp_mono; [|exact Hm].
  intros [[a|e] d'] [Hdb HQ]; simpl; auto.
Qed.
End results.

Ltac rstep :=
  match goal with
  | |- rwp _ (_ ≫= _) _ _ => apply rwp_bind
  | |- rwp _ (mret _) _ _ => apply rwp_ret
  | |- rwp _ (err _) _ _ => apply rwp_err; [first [discriminate|done]|]
  | |- rwp _ (reject_if _ _) _ _ => apply rwp_reject_if; [discriminate| |intros ?]
  | |- rwp _ (no_error _) _ _ => apply rwp_no_error
  | |- ewp _ _ _ => estep
  end; cbv beta.

(** ** Well-formed transactions *)
Record tx_wf (SPEC : SpecId) (e : Env) : Prop := mkTxWf {
  tw_env : env_wf SPEC e;
  tw_memory_limit : 0 <= cfg_memory_limit (env_cfg e) <= mem_max;
  tw_value : is_u256 (tx_value (env_tx e));
  tw_gas_limit : is_u64 (tx_gas_limit (env_tx e));
  tw_data : Forall is_u8 (tx_data (env_tx e)) /\ zlen (tx_data (env_tx e)) <= mem_max;
  tw_to : match tx_transact_to (env_tx e) with
          | TransactCall a => is_b160 a
          | TransactCreate Create => True
          | TransactCreate (Create2 salt) => is_u256 salt
          end;
}.

(** What a transaction pays at least, unless it is so long that the sum
    wraps. *)
Definition slots_of (l : list (Z * list Z)) : Z := foldr (fun x n => zlen x.2 + n) 0 l.
Definition intrinsic_fits (tx : TxEnv) : Prop :=
  zlen (tx_data tx) <= 2 ^ 56 /\ zlen (tx_access_list tx) <= 2 ^ 32 /\ slots_of (tx_access_list tx) <= 2 ^ 32.
Definition intrinsic_floor (SPEC : SpecId) (tx : TxEnv) : Z :=
  if TransactTo_is_create (tx_transact_to tx) && enabled SPEC HOMESTEAD then 53000 else 21000.

Lemma slots_of_nonneg l : 0 <= slots_of l.
Proof. induction l as [|x l IH]; simpl; [lia|]. pose proof (zlen_nonneg x.2). lia. Qed.

Section transact.
Context {DB : Type} {HDB : Database DB} {HC : Crypto} {HCS : CryptoSpec}.
Context (db_ok : DB -> Prop) {HS : DatabaseSpec db_ok} (SPEC : SpecId).
Context (e : Env) (HT : tx_wf SPEC e) (b : bool).
Abbreviation tx := (env_tx e).
Abbreviation tinv := (evm_inv db_ok e 0 [] ∅ b).
Abbreviation tstep := (dstep db_ok e 0 [] ∅ b).
Abbreviation rwp := (rwp db_ok).
Abbreviation caller := (tx_caller (env_tx e)).
Abbreviation coinbase := (block_coinbase (env_block e)).

(** What is loaded now stays loaded. *)
Lemma tinv_keep L d : tinv L d -> tinv (js_state (d_journaled_state d)) d.
Proof. intros []. by constructor. Qed.
Lemma tinv_drop L d : tinv L d -> tinv ∅ d.
Proof.
  intros [Hd Hj Hdep _]. by constructor.
Qed.

Lemma new_inv db pcs st :
  db_ok db -> map_Forall (fun _ => precompile_ok) pcs -> b = negb (enabled SPEC SPURIOUS_DRAGON) ->
  tinv ∅ (new SPEC db e pcs st).
Proof.
  intros Hdb Hp ->. unfold new.
  constructor; cbn [d_journaled_state]; [by constructor| | |].
  - destruct (enabled SPEC SPURIOUS_DRAGON); (constructor; [|done|by repeat constructor|done]);
      exists [[]], ∅; by split_and!.
  - destruct (enabled SPEC SPURIOUS_DRAGON); simpl; lia.
  - intros a x Hx. by destruct (lookup_empty_Some a x).
Qed.

Section steps.
Context (L : gmap Z Account).

Lemma tinv_db d : tinv L d -> db_ok (d_db d).
Proof. intros Hi. apply Hi. Qed.
Lemma step_db d d' : tstep L d d' -> db_ok (d_db d').
Proof. intros Hd. apply Hd. Qed.

Lemma load_safe a d : tinv L d ->
  ewp (with_db (fun js db => Journal.load_account js a db)) d (fun r d' => tstep L d d' /\
    (forall x c, r = inl (x, c) -> js_state (d_journaled_state d') !! a = Some x) /\
    d_error d' = d_error d).
Proof.
  intros Hi. apply (with_db_safe _ _ _ _ _ _ _ _ (fun r js =>
    forall x c, r = inl (x, c) -> js_state js !! a = Some x)); [done|].
  apply load_account_safe; first [exact HS|apply Hi].
Qed.

Lemma res_load_safe a d : tinv L d ->
  rwp (db_result (fun js db => Journal.load_account js a db)) d (fun '(x, _) d' =>
    tstep L d d' /\ js_state (d_journaled_state d') !! a = Some x).
Proof.
  intros Hi. apply rwp_db_result. eapply ewp_mono; [by apply load_safe|].
  intros r d' (Hs & Hr & _). split; [eapply step_db, Hs|]. intros [x c] ->.
  split; [done|]. by eapply Hr.
Qed.

Lemma load_slots_safe a slots d : tinv L d -> loaded a d ->
  rwp (load_slots a slots) d (fun _ d' => tstep L d d').
Proof.
  revert d. induction slots as [|k slots IH]; intros d Hi Ha; simpl; rstep; [by apply dstep_refl|].
  apply rwp_db_result. eapply ewp_mono; [apply with_db_safe; [done|]|].
  { apply sload_safe; first [exact HS|apply Hi|done]. }
  intros r d' (Hd & _ & _). split; [by eapply step_db|]. intros x _.
  eapply rwp_mono; [apply IH; [apply Hd|]|].
  - by eapply dstep_loaded.
  - intros u d2 Hd2. by eapply dstep_trans.
Qed.

Lemma load_access_list_safe l n d : tinv L d -> is_u64 n ->
  rwp (load_access_list l n) d (fun m d' => tstep L d d' /\ is_u64 m /\
    (n + slots_of l < u64_modulus -> m = n + slots_of l)).
Proof.
  revert n d. induction l as [|[a slots] l IH]; intros n d Hi Hn; simpl; rstep.
  { split; [by apply dstep_refl|]. split; [done|lia]. }
  eapply rwp_mono; [by apply res_load_safe|]. intros [x c] d1 [Hd1 Hx]. rstep.
  eapply rwp_mono; [apply load_slots_safe; [apply Hd1|by eexists]|]. intros u d2 Hd2.
  eapply rwp_mono; [apply IH; [apply Hd2|apply wrap64_range]|]. intros m d3 (Hd3 & Hm & Hlen).
  split; [eapply dstep_trans; [exact Hd1|]; by eapply dstep_trans; [exact Hd2|]|]. split; [done|].
  intros Hsum. pose proof (slots_of_nonneg l). pose proof (zlen_nonneg slots).
  rewrite wrap64_id in Hlen by rlia. lia.
Qed.

Lemma initial_floor n m : zlen (tx_data tx) <= 2 ^ 56 -> 0 <= n <= 2 ^ 32 /\ 0 <= m <= 2 ^ 32 ->
  let is_create := TransactTo_is_create (tx_transact_to tx) in
  let zero_data_len := zlen (filter (fun v => v = 0) (tx_data tx)) in
  intrinsic_floor SPEC tx <= wrap64 (
    (if is_create then if enabled SPEC HOMESTEAD then 53000 else 21000 else 21000)
    + (if enabled SPEC SHANGHAI && is_create then Gas.initcode_cost (zlen (tx_data tx)) else 0)
    + zero_data_len * gas.TRANSACTION_ZERO_DATA
    + wrap64 (zlen (tx_data tx) - zero_data_len) * (if enabled SPEC ISTANBUL then 16 else 68)
    + n * gas.ACCESS_LIST_ADDRESS + m * gas.ACCESS_LIST_STORAGE_KEY).
Proof.
  intros Hlen Hnm is_create z. pose proof (zlen_nonneg (tx_data tx)) as Hnn.
  assert (Hz : 0 <= z <= zlen (tx_data tx)).
  { unfold z. split; [apply zlen_nonneg|]. unfold zlen. pose proof (length_filter (fun v => v = 0) (tx_data tx)). lia. }
  unfold gas.TRANSACTION_ZERO_DATA, gas.ACCESS_LIST_ADDRESS, gas.ACCESS_LIST_STORAGE_KEY, intrinsic_floor.
  fold is_create. rewrite (wrap64_id (zlen _ - z)) by rlia.
  destruct (initcode_cost_spec (zlen (tx_data tx))) as [-> _]; [rlia|].
  assert (Hw : 0 <= words (zlen (tx_data tx)) <= 2 ^ 56) by (unfold words; case_if; zlia).
  rewrite wrap64_id; destruct is_create, (enabled SPEC SHANGHAI), (enabled SPEC HOMESTEAD),
    (enabled SPEC ISTANBUL); simpl; rlia.
Qed.

Lemma initialization_safe d : tinv L d ->
  rwp (initialization SPEC) d (fun n d' => tstep L d d' /\ is_u64 n /\
    (intrinsic_fits tx -> intrinsic_floor SPEC tx <= n)).
Proof.
  intros Hi. unfold initialization. do 4 rstep. rstep; [by apply tinv_db|].
  assert (Hacc : rwp (if enabled SPEC BERLIN then
      slots ← load_access_list (tx_access_list (env_tx (d_env d))) 0;
      mret (zlen (tx_access_list (env_tx (d_env d))), slots)
    else mret (0, 0)) d (fun '(n, m) d' => tstep L d d' /\
      (intrinsic_fits tx -> 0 <= n <= 2 ^ 32 /\ 0 <= m <= 2 ^ 32))).
  { rewrite (dw_env _ _ _ (ei_data _ _ _ _ _ _ _ _ Hi)).
    case_if; rstep; [|split; [by apply dstep_refl|lia]].
    eapply rwp_mono; [by apply load_access_list_safe|]. intros m d' (Hd & _ & Hm).
    rstep. split; [done|]. intros (_ & Hn & Hs). split; [pose proof (zlen_nonneg (tx_access_list tx)); lia|].
    pose proof (slots_of_nonneg (tx_access_list tx)). rewrite Hm by rlia. lia. }
  rstep. eapply rwp_mono; [exact Hacc|]. intros [n m] d' [Hd Hnm]. rstep.
  split; [done|]. split; [apply wrap64_range|]. intros Hf. specialize (Hnm Hf). destruct Hf as [Hdata _].
  rewrite (dw_env _ _ _ (ei_data _ _ _ _ _ _ _ _ Hi)). by apply initial_floor.
Qed.
End steps.

(** The database answers for an account. *)
Definition db_answers (a : Z) : Prop :=
  forall db, db_ok db -> exists o, (db_basic db a).1 = inl o.

Lemma map_Forall_filter_state (s : gmap Z Account) :
  state_wf s -> state_wf (filter (fun '(_, a) => is_touched a = true) s).
Proof. intros Hs a x [Hx _]%map_lookup_filter_Some. by apply (Hs a). Qed.

Section settling.
Context (L : gmap Z Account).

Lemma load_present a d : tinv L d -> loaded a d \/ db_answers a ->
  ewp (with_db (fun js db => Journal.load_account js a db)) d (fun _ d' => tstep L d d' /\
    loaded a d' /\ d_error d' = d_error d).
Proof.
  intros Hi Ha. pose proof (load_safe L a d Hi) as Hl. unfold ewp in *.
  destruct (with_db _ d) as [[r d']| | |] eqn:Ew; try done. destruct Hl as (Hs & Hx & Her).
  split; [done|]. split; [|done]. destruct r as [[x c]|er].
  { unfold loaded. rewrite (Hx x c eq_refl). by eexists. }
  exfalso. unfold with_db, Journal.load_account in Ew.
  destruct (js_state (d_journaled_state d) !! a) as [x|] eqn:Ex; [done|].
  destruct Ha as [[y Hy]|Ha]; [congruence|].
  destruct (Ha (d_db d)) as [o Ho]; [apply Hi|].
  destruct (db_basic (d_db d) a) as [[o'|?] db']; simpl in Ho; [|done].
  destruct (push_entry _ _); simpl in Ew; done.
Qed.

(** Paying an account. *)
Lemma pay_safe a (f : Z -> Z) d : tinv L d -> loaded a d ->
  (forall v, is_u256 v -> is_u256 (f v)) ->
  ewp (on_journal (fun js =>
    acc ← get_account js a;
    Val (js_set_account js a (set_balance acc (f (Primitives.balance (info acc))))))) d
    (fun _ d' => tstep L d d' /\ d_error d' = d_error d).
Proof.
  intros Hi [x Hx] Hf. apply on_journal_safe; [done|]. unfold get_account. rewrite Hx.
  pose proof (ei_journal _ _ _ _ _ _ _ _ Hi) as Hj.
  pose proof (jstep_account _ _ _ _ _ _ Hj Hx) as Hw. pose proof Hw as [(Hb & _) _].
  eapply jstep_set; [done|exact Hx| |done]. apply set_balance_wf; [done|]. by apply Hf.
Qed.

Lemma saturating_add_range v x : is_u256 v -> is_u256 (u256_saturating_add v (wrap256 x)).
Proof. pose proof (wrap256_range x). unfold u256_saturating_add, is_u256 in *. rlia. Qed.

Lemma refund_range (g : Gas) q : Gas_wf g -> 2 <= q ->
  0 <= 2 * Z.min (wrap64 (refunded g)) (spend g / q) <= spend g.
Proof.
  intros (Hu & Hm & Hs & Hl & _) Hq. pose proof (wrap64_range (refunded g)). unfold spend.
  assert (0 <= all_used_gas g / q <= all_used_gas g / 2).
  { split; [apply Z.div_pos; lia|]. apply Z.div_le_compat_l; lia. }
  zlia.
Qed.

(** The sender pays for at most its gas limit. *)
Lemma settle_safe g d :
  tinv L d -> loaded caller d -> loaded coinbase d \/ db_answers coinbase -> Gas_wf g ->
  ewp (settle SPEC caller g) d (fun '(gas_used, gas_refunded) d' =>
    gas_used + gas_refunded = spend g /\ 0 <= gas_refunded <= gas_used /\
    tstep L d d' /\ d_error d' = d_error d).
Proof.
  intros Hi Hc Hcb Hg. unfold settle. do 2 estep. cbv zeta.
  rewrite (dw_env _ _ _ (ei_data _ _ _ _ _ _ _ _ Hi)).
  assert (Hq : 2 <= (if enabled SPEC LONDON then 5 else 2)) by (case_if; lia).
  pose proof (refund_range g _ Hg Hq) as Hr. revert Hr.
  generalize (Z.min (wrap64 (refunded g)) (spend g / (if enabled SPEC LONDON then 5 else 2))) as rf.
  intros rf Hr. estep.
  eapply ewp_mono; [apply (pay_safe caller (fun v => u256_saturating_add v _)); [done|done|]|].
  { intros v. apply saturating_add_range. }
  intros u1 d1 [Hd1 He1]. estep.
  eapply ewp_mono; [apply load_present; [apply Hd1|]|].
  { destruct Hcb as [Hcb|Hcb]; [left; by eapply dstep_loaded|by right]. }
  intros r2 d2 (Hd2 & Hcb2 & He2). estep.
  eapply ewp_mono; [apply (on_journal_safe db_ok e 0 [] ∅ b L (fun js => touch js coinbase)); [apply Hd2|apply touch_safe, Hd2]|].
  intros u3 d3 [Hd3 He3]. estep.
  eapply ewp_mono; [apply (pay_safe coinbase (fun v => u256_saturating_add v _));
    [apply Hd3|by eapply dstep_loaded|intros v; apply saturating_add_range]|].
  intros u4 d4 [Hd4 He4]. estep. destruct Hg as (_ & _ & Hs & Hl & Hlim).
  unfold spend in *. rewrite wrap64_id by rlia.
  split; [lia|]. split; [lia|]. split; [|congruence].
  eapply dstep_trans; [exact Hd1|]. eapply dstep_trans; [exact Hd2|].
  by eapply dstep_trans; [exact Hd3|].
Qed.

Lemma add_precompile_balances_safe l s d : state_wf s -> db_ok (d_db d) ->
  ewp (add_precompile_balances l s) d (fun s' d' =>
    d_error d' = d_error d /\ state_wf s' /\ db_ok (d_db d')).
Proof.
  revert s d. induction l as [|x l IH]; intros s d Hs Hd; simpl; [done|].
  destruct (s !! x) as [acc|] eqn:Ex; [|by apply IH]. estep. unfold ewp at 1, with_db.
  destruct (db_basic_ok (d_db d) x Hd) as [Hd' _]. destruct (db_basic (d_db d) x) as [r db].
  simpl. apply (IH _ (set_journal_db d _ _)); [|done].
  apply map_Forall_insert_2; [|done]. apply set_balance_wf; [by apply (Hs x)|apply wrap256_range].
Qed.

Lemma tinv_state d : tinv L d -> state_wf (js_state (d_journaled_state d)).
Proof.
  intros Hi x acc Hx. apply (jstep_account _ _ _ _ _ _ (ei_journal _ _ _ _ _ _ _ _ Hi) Hx).
Qed.

Lemma finalize_safe g d :
  tinv L d -> loaded caller d -> loaded coinbase d \/ db_answers coinbase -> Gas_wf g ->
  ewp (finalize SPEC caller g) d (fun '(st, _, gas_used, gas_refunded) d' =>
    gas_used + gas_refunded = spend g /\ 0 <= gas_refunded <= gas_used /\
    d_error d' = d_error d /\ state_wf st /\ db_ok (d_db d')).
Proof.
  intros Hi Hc Hcb Hg. unfold finalize. estep. eapply ewp_mono; [by apply settle_safe|].
  intros [gu gr] d1 (H1 & H2 & Hd1 & Her). do 2 estep.
  pose proof (tinv_state d1 (ds_inv _ _ _ _ _ _ _ _ _ Hd1)) as Hst.
  pose proof (step_db L d d1 Hd1) as Hdb. cbn [Journal.finalize]. do 2 estep. estep.
  pose proof (map_Forall_filter_state _ Hst) as Hft. revert Hft.
  generalize (filter (fun '(_, a) => is_touched a = true) (js_state (d_journaled_state d1))) as st.
  intros st Hft. set (js := mkJournaledState _ _ _ _ _ _).
  assert (Hp : ewp (if cfg_perf_all_precompiles_have_balance (env_cfg (d_env d1)) then
      add_precompile_balances (Precompiles_addresses (d_precompiles d1)) st else mret st)
    (set_journal d1 js) (fun s' d' => d_error d' = d_error d1 /\ state_wf s' /\ db_ok (d_db d'))).
  { case_if; [|done]. by apply (add_precompile_balances_safe _ _ (set_journal d1 js)). }
  eapply ewp_mono; [exact Hp|]. intros st' d2 (He2 & Hs2 & Hd2). estep.
  split; [done|]. split; [done|]. split; [congruence|]. by split.
Qed.

Lemma execute_safe gas gl d :
  tinv L d -> loaded caller d -> is_u64 gl ->
  ewp (execute SPEC gas gl) d (fun '(r, g, out) d' => r <> Continue /\ tinv L d' /\
    loaded caller d' /\ (r = FatalExternalError -> fatal d') /\
    (return_ok r || return_revert r = true -> answer_gas_wf gl g)).
Proof.
  intros Hi Hc Hgl. unfold execute. do 2 estep. cbv zeta.
  rewrite (dw_env _ _ _ (ei_data _ _ _ _ _ _ _ _ Hi)).
  destruct HT as [HE HM Hv _ [Hdu Hdl] Hto]. pose proof (ewf_caller _ _ HE) as Hca.
  assert (Hok : evm_ok db_ok e 0 [] ∅ b L caller d) by done.
  assert (Hdata : bytes_wf (tx_data (env_tx e))) by (split; [done|lia]).
  destruct (tx_transact_to (env_tx e)) as [a|scheme].
  - estep. eapply ewp_mono; [by apply host_inc_nonce_safe|]. intros [n|] d1 Hd1.
    2:{ estep. split; [done|]. split; [apply Hd1|]. split; [by eapply dstep_loaded|]. done. }
    estep. eapply ewp_mono; [apply (call_frame_safe db_ok SPEC e HE HM [] ∅ b L false caller)|].
    { by eapply dstep_ok. }
    { unfold call_inputs_wf. simpl. split_and!; auto; done. }
    intros [[r g] out] d2 (Hr & Hg & _ & Hf & Hi2 & _ & Hc2). estep. by split_and!.
  - estep. eapply ewp_mono; [apply (create_frame_safe db_ok SPEC e HE HM [] ∅ b L caller)|].
    { done. }
    { unfold create_inputs_wf. simpl. by split_and!. }
    intros [[[r x] g] out] d2 (_ & Hr & Hg & _ & Hf & Hi2 & _ & Hc2). estep. by split_and!.
Qed.

Lemma conclude_safe r out st logs gu gr d :
  r <> Continue -> (r = FatalExternalError -> fatal d) -> db_ok (d_db d) ->
  rwp (conclude r out (st, logs, gu, gr)) d (fun rs d' =>
    ExecutionResult.gas_used (rs_result rs) = gu /\ rs_state rs = st /\ db_ok (d_db d')).
Proof.
  intros Hr Hf Hd. unfold conclude. destruct r; simpl; try done.
  specialize (Hf eq_refl). unfold fatal in Hf. unfold TransactSpec.rwp, ewp.
  by destruct (d_error d).
Qed.
End settling.

(** All gas is charged before the frame runs; it returns at most that. *)
Lemma credit_frame_wf gl initial g1 r ret_gas :
  is_u64 gl -> is_u64 initial -> record_cost (Gas_new gl) initial = (g1, true) ->
  (return_ok r || return_revert r = true -> answer_gas_wf (remaining g1) ret_gas) ->
  let g := credit_frame (record_cost g1 (remaining g1)).1 r ret_gas in
  Gas_wf g /\ limit g = gl /\ initial <= spend g /\ initial <= gl.
Proof.
  intros Hgl Hin H1 Hr. apply record_cost_true in H1 as (Hw1 & Hrem & Hl1 & Hu1 & _);
    [|by apply Gas_new_wf|done].
  simpl in Hl1. pose proof (remaining_wf _ Hw1) as Hrw. pose proof Hw1 as (Hu & Hm & Hs & Hle & Hlim).
  assert (is_u64 (remaining g1)) by (rewrite Hrw; rlia).
  destruct (record_cost g1 (remaining g1)) as [g2 ok] eqn:E2.
  assert (Hw2 : Gas_wf g2 /\ used g2 = used g1 + remaining g1 /\ limit g2 = limit g1).
  { destruct ok.
    - apply record_cost_true in E2 as (? & _ & ? & ? & _); [done|done|done].
    - apply record_cost_false in E2 as [_ ?]; [lia|done|done]. }
  destruct Hw2 as (Hw2 & Hu2 & Hl2). cbn [fst]. unfold credit_frame.
  simpl in Hu1. assert (Hgl' : initial <= gl) by lia.
  assert (He : forall x, 0 <= x <= remaining g1 ->
    Gas_wf (erase_cost g2 x) /\ limit (erase_cost g2 x) = gl /\ initial <= spend (erase_cost g2 x) /\ initial <= gl).
  { intros x Hx. rewrite erase_cost_spec by (done || lia). unfold spend.
    destruct Hw2 as (? & ? & ? & ? & ?). unfold Gas_wf. simpl. split; [|lia]. split_and!; lia || done. }
  unfold answer_gas_wf in Hr.
  destruct (return_ok r); [|destruct (return_revert r)]; simpl in Hr.
  - destruct (He (remaining ret_gas)) as [Hwe Hle']; [by apply Hr|]. split; [exact Hwe|done].
  - apply He. by apply Hr.
  - split; [done|]. unfold spend. destruct Hw2 as (? & ? & ? & ? & ?). lia.
Qed.

Lemma reserve_gas_range bal v :
  is_u256 bal -> reserve_gas e bal = inl v -> is_u256 v.
Proof.
  intros Hb. unfold reserve_gas. destruct (_ ≫= _); [|done]. case_if; [done|]. intros [= <-].
  unfold u256_checked_sub. case_if; simpl; [|rlia].
  pose proof (wrap256_range (tx_gas_limit (env_tx e) * effective_gas_price e)). rlia.
Qed.

Lemma validate_env_errors x : validate_env SPEC e = Some x -> x <> PrevrandaoNotSet.
Proof.
  unfold validate_env. destruct (enabled SPEC MERGE) eqn:Hm; simpl.
  - destruct (ewf_prevrandao _ _ (tw_env _ _ HT) Hm) as (v & -> & _). simpl. by repeat case_match; intros [= <-].
  - by repeat case_match; intros [= <-].
Qed.

(** What is left to do once the sender is loaded and valid. *)
Lemma transact_safe d :
  tinv ∅ d -> enabled SPEC SHANGHAI = true \/ db_answers coinbase ->
  rwp (transact SPEC) d (fun rs d' =>
    0 <= ExecutionResult.gas_used (rs_result rs) <= tx_gas_limit (env_tx e) /\
    state_wf (rs_state rs) /\ db_ok (d_db d') /\
    (intrinsic_fits tx -> intrinsic_floor SPEC tx <= 2 * ExecutionResult.gas_used (rs_result rs) /\
      intrinsic_floor SPEC tx <= tx_gas_limit tx)).
Proof.
  intros Hi Hcb. unfold transact. do 3 rstep. cbv zeta.
  rewrite (dw_env _ _ _ (ei_data _ _ _ _ _ _ _ _ Hi)).
  rstep. destruct (validate_env SPEC e) eqn:Hve; [apply rwp_err; [by apply validate_env_errors|by eapply tinv_db]|]. rstep. rstep.
  eapply rwp_mono; [by apply (res_load_safe ∅)|]. intros [acc c] d1 [Hd1 Hacc].
  rstep. destruct (validate_caller e (info acc)); [apply rwp_err; [done|by eapply step_db]|]. rstep. rstep.
  pose proof (ei_journal _ _ _ _ _ _ _ _ (ds_inv _ _ _ _ _ _ _ _ _ Hd1)) as Hj1.
  pose proof (jstep_account _ _ _ _ _ _ Hj1 Hacc) as Hw. pose proof Hw as [(Hbal & _) _].
  destruct (reserve_gas e (Primitives.balance (info acc))) as [v|] eqn:Hres; [|apply rwp_err; [done|by eapply step_db]].
  apply reserve_gas_range in Hres; [|done]. rstep.
  eapply ewp_mono; [apply (on_journal_safe db_ok e 0 [] ∅ b ∅); [apply Hd1|]|].
  { unfold get_account. rewrite Hacc. eapply jstep_set; [done|exact Hacc| |done].
    by apply set_balance_wf. }
  intros u d2 [Hd2 _]. assert (Hc2 : loaded caller d2)
    by (eapply dstep_loaded; [exact Hd2|by eexists]). rstep.
  eapply rwp_mono; [apply (initialization_safe ∅); apply Hd2|]. intros initial d3 (Hd3 & Hin & Hfloor).
  assert (Hc3 : loaded caller d3) by (by eapply dstep_loaded; [exact Hd3|]).
  destruct (record_cost (Gas_new _) initial) as [g1 paid] eqn:E1. rstep. rstep; [by eapply step_db|].
  destruct paid; [|done]. pose proof (tw_gas_limit _ _ HT) as Hgl.
  pose proof (fun r x => credit_frame_wf _ initial g1 r x Hgl Hin E1) as Hcredit. cbv zeta.
  destruct (record_cost g1 (remaining g1)) as [g2 ok2]. cbn [fst] in Hcredit. rstep.
  assert (Hload : rwp (if enabled SPEC SHANGHAI then
      db_result (fun js db => Journal.load_account js coinbase db);; mret tt else mret tt) d3
    (fun _ d' => tstep ∅ d3 d' /\ (loaded coinbase d' \/ db_answers coinbase))).
  { destruct (enabled SPEC SHANGHAI); rstep.
    - eapply rwp_mono; [apply (res_load_safe ∅), Hd3|]. intros [x cx] d4 [Hd4 Hx]. rstep.
      split; [done|]. left. by eexists.
    - split; [apply dstep_refl, Hd3|]. right. by destruct Hcb. }
  eapply rwp_mono; [exact Hload|]. intros u4 d4 [Hd4 Hcb4]. do 2 rstep.
  assert (Hc4 : loaded caller d4) by (by eapply dstep_loaded; [exact Hd4|]).
  pose proof (tinv_keep ∅ d4 (ds_inv _ _ _ _ _ _ _ _ _ Hd4)) as Hk.
  eapply ewp_mono; [eapply execute_safe; [exact Hk|done|apply wrap64_range]|].
  intros [[r ret_gas] out] d5 (Hr & Hi5 & Hc5 & Hf & Hans). do 2 rstep.
  destruct (Hcredit r ret_gas Hans) as (Hgw & Hlim & Hspend & Hpaid).
  assert (Hcb5 : loaded coinbase d5 \/ db_answers coinbase).
  { destruct Hcb4 as [Hx|Hx]; [left|by right]. by eapply covers_lookup; [apply (ei_loaded _ _ _ _ _ _ _ _ Hi5)|]. }
  eapply ewp_mono; [by eapply finalize_safe|].
  intros [[[st logs] gu] gr] d6 (Hsum & Hgr & Her & Hst & Hdb).
  eapply rwp_mono; [apply conclude_safe; [done| |done]|].
  - intros Hfat. unfold fatal. rewrite Her. by apply Hf.
  - intros rs d7 (-> & -> & Hd7). split; [destruct Hgw as (_ & _ & Hs & Hle & _); unfold spend in Hsum; lia|].
    split; [done|]. split; [done|]. intros Hfits. specialize (Hfloor Hfits). lia.
Qed.
End transact.

(** ** Charges *)
Section charges.
Context {DB : Type} {HDB : Database DB} {HC : Crypto}.

(** Intrinsic gas as the yellow paper sums it: byte by byte. *)
Definition byte_cost (SPEC : SpecId) (v : Z) : Z :=
  if v =? 0 then 4 else if enabled SPEC ISTANBUL then 16 else 68.
Definition intrinsic_cost (SPEC : SpecId) (is_create : bool) (data : list Z) : Z :=
  (if is_create && enabled SPEC HOMESTEAD then 53000 else 21000)
  + (if is_create && enabled SPEC SHANGHAI then 2 * words (zlen data) else 0)
  + foldr (fun v n => byte_cost SPEC v + n) 0 data.

Lemma data_cost_counts SPEC data :
  foldr (fun v n => byte_cost SPEC v + n) 0 data =
  4 * zlen (filter (fun v => v = 0) data) +
  (if enabled SPEC ISTANBUL then 16 else 68) * (zlen data - zlen (filter (fun v => v = 0) data)).
Proof.
  induction data as [|v data IH]; [unfold zlen; simpl; lia|]. simpl. rewrite IH. unfold byte_cost, zlen.
  destruct (Z.eqb_spec v 0) as [->|Hv].
  - rewrite filter_cons_True by done. simpl. lia.
  - rewrite filter_cons_False by done. simpl. destruct (enabled SPEC ISTANBUL); lia.
Qed.

(** C31: what [initialization] charges a transaction without an access list
    is the sum over its bytes (no more than 2^56, and init code within its
    limit) of the schedule of the fork, with the creation and init code
    surcharges, computed without any wrap-around; the state is not
    touched. *)
Theorem initialization_charges_intrinsic_gas (SPEC : SpecId) (d : EVMData) :
  let tx := env_tx (d_env d) in
  let is_create := TransactTo_is_create (tx_transact_to tx) in
  tx_access_list tx = [] -> zlen (tx_data tx) <= 2 ^ 56 ->
  (is_create = true -> zlen (tx_data tx) <=
    match cfg_limit_contract_code_size (env_cfg (d_env d)) with
    | Some limit => Z.min (2 * limit) u64_max | None => MAX_INITCODE_SIZE end) ->
  initialization SPEC d = Val (inl (intrinsic_cost SPEC is_create (tx_data tx)), d).
Proof.
  intros tx is_create Hal Hlen Hcode.
  pose proof (zlen_nonneg (tx_data tx)) as Hnn.
  assert (Hz : 0 <= zlen (filter (fun v => v = 0) (tx_data tx)) <= zlen (tx_data tx)).
  { split; [apply zlen_nonneg|]. unfold zlen. pose proof (length_filter (fun v => v = 0) (tx_data tx)). lia. }
  unfold initialization. cbv zeta. unfold no_error, get at 1. unfold mbind at 1, evm_res_bind at 1.
  cbn [mbind rust_bind]. fold tx. fold is_create. rewrite Hal.
  match goal with |- context [reject_if ?c _] => assert (Hr : c = false) end.
  { destruct is_create; [|by rewrite andb_false_r]. specialize (Hcode eq_refl).
    destruct (cfg_limit_contract_code_size _); destruct (enabled SPEC SHANGHAI); simpl; lia. }
  rewrite Hr. unfold reject_if, mbind, evm_res_bind. cbn [mret evm_res_ret].
  replace ((if enabled SPEC BERLIN then _ else _) d) with (Val (inl (B := EVMError db_error) (0, 0), d))
    by (by destruct (enabled SPEC BERLIN)).
  unfold mret, evm_res_ret. do 3 f_equal. unfold intrinsic_cost. rewrite data_cost_counts.
  unfold gas.TRANSACTION_ZERO_DATA, gas.ACCESS_LIST_ADDRESS, gas.ACCESS_LIST_STORAGE_KEY.
  rewrite (wrap64_id (zlen (tx_data tx) - _)) by rlia.
  destruct (initcode_cost_spec (zlen (tx_data tx))) as [-> _]; [rlia|].
  assert (Hw : 0 <= words (zlen (tx_data tx)) <= 2 ^ 56) by (unfold words; case_if; zlia).
  rewrite wrap64_id; destruct is_create, (enabled SPEC SHANGHAI), (enabled SPEC HOMESTEAD),
    (enabled SPEC ISTANBUL); simpl; rlia.
Qed.

(** A sender whose funds pass the check keeps, after the reservation,
    exactly its balance less [gas_limit] times the effective price: no
    product wraps, the subtraction never saturates, and the value of the
    transaction is still there. *)
Theorem reserve_gas_exact (e : Env) (bal v : Z) :
  is_u64 (tx_gas_limit (env_tx e)) -> is_u256 (tx_gas_price (env_tx e)) ->
  is_u256 (tx_value (env_tx e)) -> is_u256 bal -> reserve_gas e bal = inl v ->
  v = bal - tx_gas_limit (env_tx e) * effective_gas_price e /\ tx_value (env_tx e) <= v.
Proof.
  intros Hgl Hgp Hval Hbal. unfold reserve_gas, u256_checked_mul, u256_checked_add, u256_checked_sub.
  assert (Heff : 0 <= effective_gas_price e <= tx_gas_price (env_tx e)).
  { unfold effective_gas_price. destruct (tx_gas_priority_fee _) as [f|]; [|rlia].
    pose proof (wrap256_range (block_basefee (env_block e) + f)). rlia. }
  assert (Hle : tx_gas_limit (env_tx e) * effective_gas_price e <=
    tx_gas_limit (env_tx e) * tx_gas_price (env_tx e)) by (apply Z.mul_le_mono_nonneg_l; rlia).
  assert (0 <= tx_gas_limit (env_tx e) * effective_gas_price e) by (apply Z.mul_nonneg_nonneg; rlia).
  case_if; simpl; [|done]. case_if; [|done]. case_if; [done|]. intros [= <-].
  rewrite wrap256_id by rlia. case_if; simpl; rlia.
Qed.

(** Exact effects of the steps of [settle] on loaded accounts. *)
Lemma pay_exact a (f : Z -> Z) x (d : EVMData) :
  js_state (d_journaled_state d) !! a = Some x ->
  on_journal (fun js => acc ← get_account js a;
    Val (js_set_account js a (set_balance acc (f (Primitives.balance (info acc)))))) d =
  Val (tt, set_journal d (js_set_account (d_journaled_state d) a
    (set_balance x (f (Primitives.balance (info x)))))).
Proof. intros Hx. unfold on_journal, get_account. by rewrite Hx. Qed.

Lemma touch_exact js a x :
  has_journal js -> js_state js !! a = Some x ->
  exists js' y, touch js a = Val js' /\ js_state js' = <[a := y]> (js_state js) /\ info y = info x.
Proof.
  intros Hj Hx. unfold touch, touch_account. rewrite Hx.
  destruct (push_entry_ok js (AccountTouched a) Hj) as (js1 & Hp & Es).
  destruct (is_touched x); simpl.
  - by eexists _, x.
  - rewrite Hp. simpl. exists (js_set_account js1 a (set_touched x true)), (set_touched x true).
    split; [done|]. simpl. by rewrite Es.
Qed.

(** C25: after a transaction with counter [g], the sender has got back the
    price of all gas but what is reported as used, and the coinbase has been
    paid for the gas used, less the base fee from London on. *)
Theorem settle_balances (SPEC : SpecId) (d : EVMData) (caller : Z) (g : Gas) (c k : Account) :
  let e := d_env d in
  let coinbase := block_coinbase (env_block e) in
  let price := effective_gas_price e in
  let tip := if enabled SPEC LONDON then Z.max (price - block_basefee (env_block e)) 0 else price in
  has_journal (d_journaled_state d) -> caller <> coinbase ->
  js_state (d_journaled_state d) !! caller = Some c ->
  js_state (d_journaled_state d) !! coinbase = Some k ->
  Gas_wf g -> 0 <= price -> 0 <= block_basefee (env_block e) ->
  Primitives.balance (info c) + price * limit g < u256_modulus ->
  Primitives.balance (info k) + price * limit g < u256_modulus ->
  0 <= Primitives.balance (info c) -> 0 <= Primitives.balance (info k) ->
  exists gas_used gas_refunded d' c' k',
    settle SPEC caller g d = Val ((gas_used, gas_refunded), d') /\
    gas_used = spend g - gas_refunded /\ 0 <= gas_used /\
    js_state (d_journaled_state d') !! caller = Some c' /\
    js_state (d_journaled_state d') !! coinbase = Some k' /\
    Primitives.balance (info c') = Primitives.balance (info c) + price * (limit g - gas_used) /\
    Primitives.balance (info k') = Primitives.balance (info k) + tip * gas_used.
Proof.
  intros e coinbase price tip Hj Hne Hc Hk Hg Hp Hbf Hbc Hbk Hbc0 Hbk0.
  unfold settle. unfold get, mbind at 1, evm_bind at 1. cbv zeta. fold e.
  fold coinbase price. set (rf := Z.min _ _).
  assert (Hq : 2 <= (if enabled SPEC LONDON then 5 else 2)) by (case_if; lia).
  pose proof (refund_range g _ Hg Hq) as Hr. fold rf in Hr.
  destruct Hg as (Hu & Hm & Hs & Hl & Hlim). unfold spend in *.
  assert (Htip : 0 <= tip <= price) by (unfold tip; case_if; lia).
  set (x := remaining g + rf). assert (Hx : x = limit g - all_used_gas g + rf).
  { unfold x. by rewrite remaining_wf by (by split_and!). }
  assert (Hpay1 : 0 <= price * wrap64 x <= price * limit g).
  { rewrite wrap64_id by rlia. split; [apply Z.mul_nonneg_nonneg; rlia|].
    apply Z.mul_le_mono_nonneg_l; rlia. }
  assert (Hpay2 : 0 <= tip * wrap64 (all_used_gas g - rf) <= price * limit g).
  { rewrite wrap64_id by rlia. split; [apply Z.mul_nonneg_nonneg; rlia|].
    apply Z.mul_le_mono_nonneg; rlia. }
  rewrite (wrap64_id (all_used_gas g - rf)) in * by rlia.
  exists (all_used_gas g - rf), rf.
  unfold mbind at 1, evm_bind at 1. fold x.
  rewrite (pay_exact caller (fun v => u256_saturating_add v _) c d Hc).
  set (d1 := set_journal d _).
  assert (Hk1 : js_state (d_journaled_state d1) !! coinbase = Some k)
    by (simpl; by rewrite lookup_insert_ne).
  unfold mbind at 1, evm_bind at 1. unfold with_db. rewrite (load_account_loaded _ _ _ _ Hk1).
  cbn [mbind rust_bind]. set (d2 := set_journal_db d1 _ _).
  destruct (touch_exact (d_journaled_state d2) coinbase k Hj Hk1) as (js3 & k3 & Ht & E3 & Ek3).
  unfold mbind at 1, evm_bind at 1. unfold on_journal at 1. rewrite Ht. cbn [mbind rust_bind].
  set (d3 := set_journal d2 js3).
  assert (Hk3 : js_state (d_journaled_state d3) !! coinbase = Some k3)
    by (simpl; by rewrite E3, lookup_insert_eq).
  unfold mbind at 1, evm_bind at 1.
  rewrite (pay_exact coinbase (fun v => u256_saturating_add v _) k3 d3 Hk3).
  eexists _, _, _. split; [done|]. split; [lia|]. split; [lia|].
  split; [simpl; rewrite lookup_insert_ne by done; rewrite E3, lookup_insert_ne by done;
    simpl; by rewrite lookup_insert_eq|].
  split; [simpl; by rewrite lookup_insert_eq|]. simpl.
  rewrite (wrap64_id x) in * by rlia. fold tip. unfold u256_saturating_add, u256_saturating_sub.
  rewrite Ek3, !wrap256_id by rlia. split; [rewrite Hx; lia|].
  fold tip. lia.
Qed.
End charges.

(** ** Main results *)
Section main.
Context {DB : Type} {HDB : Database DB} {HC : Crypto} {HCS : CryptoSpec}.
Context (db_ok : DB -> Prop) {HS : DatabaseSpec db_ok} (SPEC : SpecId) (e : Env).

(** C4: a transaction always comes back.  For a well-formed environment, a
    database that answers within its ranges (or fails), and precompiles that
    return, [transact] neither panics nor diverges, whatever the contracts
    it runs and however they call and create each other; and what it reports
    as used is within the gas limit.  Before Shanghai the coinbase is only
    loaded at the end, where a failure is ignored, so that the database must
    not fail there. *)
Theorem transact_returns (db : DB) (pcs : Precompiles) (st : admin.Statics) :
  tx_wf SPEC e -> db_ok db -> map_Forall (fun _ => precompile_ok) pcs ->
  enabled SPEC SHANGHAI = true \/ db_answers db_ok (block_coinbase (env_block e)) ->
  exists out d', transact SPEC (new SPEC db e pcs st) = Val (out, d') /\ db_ok (d_db d') /\
    forall rs, out = inl rs -> state_wf (rs_state rs) /\
    0 <= ExecutionResult.gas_used (rs_result rs) <= tx_gas_limit (env_tx e).
Proof.
  intros HT Hdb Hp Hcb.
  pose proof (transact_safe db_ok SPEC e HT (negb (enabled SPEC SPURIOUS_DRAGON))
    (new SPEC db e pcs st)) as Hs. unfold rwp, ewp in Hs.
  destruct (transact SPEC (new SPEC db e pcs st)) as [[out d']| | |];
    try (exfalso; apply Hs; [by apply new_inv|done]).
  specialize (Hs (new_inv db_ok SPEC e _ db pcs st Hdb Hp eq_refl) Hcb).
  exists out, d'. split; [done|]. destruct out as [rs|x]; [|by destruct Hs].
  destruct Hs as (Hg & Hst & Hd & _). split; [done|]. by intros ? [= <-].
Qed.

(** C5: the driver keeps the contract the interpreter relies on, if its
    precompiles return (which those of the program do, but for the
    administrator's) and its database answers within its ranges: as the host
    of a frame at depth at least [lo], with [n] more levels to nest where the
    depth guard stops at 1024, every method returns a well-formed answer and
    leaves the journal revertible to every open checkpoint. *)
Theorem driver_implements_host (n : nat) (lo : Z) (JB : list (list JournalEntry))
  (S0 : gmap Z Account) (b : bool) (L : gmap Z Account) (static : bool) :
  env_wf SPEC e -> 0 <= cfg_memory_limit (env_cfg e) <= mem_max ->
  0 <= lo <= 1025 -> 1026 <= lo + Z.of_nat n ->
  HostSpec (HH := evm_host SPEC n) False SPEC static (evm_ok db_ok e lo JB S0 b L) fatal.
Proof. intros. by apply evm_host_spec. Qed.
End main.

(** ** Examples *)

(** Account 100 is rich; 200 returns the word 42; 300 calls 200. *)
#[local] Instance example_db : Database unit := {
  db_error := unit;
  db_basic _ a := (inl (
    if a =? 100 then Some (mkAccountInfo (10 ^ 18) 1 KECCAK_EMPTY None)
    else if a =? 200 then Some (mkAccountInfo 0 1 5 (Some (mkBytecode
      [0x60; 42; 0x60; 0; 0x52; 0x60; 32; 0x60; 0; 0xf3] 5 Raw)))
    else if a =? 300 then Some (mkAccountInfo 0 1 6 (Some (mkBytecode
      [0x60; 32; 0x60; 0; 0x60; 0; 0x60; 0; 0x60; 0; 0x60; 200; 0x5a; 0xf1; 0x50;
       0x60; 32; 0x60; 0; 0xf3] 6 Raw)))
    else None), tt);
  db_code_by_hash _ _ := (inl Bytecode_new, tt);
  db_storage _ _ _ := (inl 7, tt);
  db_block_hash _ _ := (inr tt, tt);
}.

Lemma raw_fit code hash : forallb (fun v => (0 <=? v) && (v <? 256)) code = true ->
  zlen code <= 100 -> is_u256 hash -> fit_bytecode (mkBytecode code hash Raw).
Proof.
  intros Hu Hl Hh. split; [split; [split; [|done]|simpl; lia]|done]. simpl. apply Forall_forall. intros v Hv.
  rewrite forallb_forall in Hu. specialize (Hu v). rewrite <- list_elem_of_In in Hu.
  specialize (Hu Hv). bool_to_prop. done.
Qed.

#[local] Instance example_db_spec : DatabaseSpec (fun _ : unit => True).
Proof.
  split.
  - intros [] a _. split; [done|]. simpl. intros i.
    repeat (case_if; [intros [= <-]; split_and!; [by vm_compute..|]|]); [done| | |done];
      intros c [= <-]; by apply raw_fit.
  - intros [] c _. split; [done|]. intros b [= <-]. apply bytecode_new_wf.
  - intros [] a k _. split; [done|]. intros v [= <-]. by vm_compute.
  - intros [] n _. by split.
Qed.

Definition example_tx : Env := mkEnv CfgEnv_default BlockEnv_default
  (mkTxEnv 100 100000 1 None (TransactCall 300) 0 [1; 0] None None []).

Lemma example_tx_wf : tx_wf LATEST example_tx.
Proof.
  constructor; [|by vm_compute..|split; [repeat constructor; rlia|by vm_compute]|by vm_compute].
  constructor; simpl; try rlia; [done|]. intros _. exists 0. split; [done|rlia].
Qed.

(** The identity precompile alone. *)
Definition example_precompiles : Precompiles := {[ 4 := Standard identity.identity_run ]}.
Lemma example_precompiles_ok : map_Forall (fun _ => precompile_ok) example_precompiles.
Proof. apply map_Forall_singleton. apply identity_ok. Qed.

(** What a caller sees of an outcome: success, gas used, and the balance of
    account 100 in the state to commit. *)
Definition outcome_view (o : rust ((ResultAndState + EVMError unit) * EVMData)) :
  option (bool * Z * option Z) :=
  match o with
  | Val (inl rs, _) => Some (ExecutionResult.is_success (rs_result rs),
      ExecutionResult.gas_used (rs_result rs),
      (Primitives.balance ∘ info) <$> rs_state rs !! 100)
  | _ => None
  end.

Definition example_start : EVMData :=
  new LATEST tt example_tx example_precompiles admin.Statics_init.

Lemma transact_returns_witness :
  exists rs d', transact LATEST example_start = Val (inl rs, d') /\
    ExecutionResult.is_success (rs_result rs) = true /\
    0 <= ExecutionResult.gas_used (rs_result rs) <= 100000 /\
    (Primitives.balance ∘ info) <$> rs_state rs !! 100 =
      Some (10 ^ 18 - ExecutionResult.gas_used (rs_result rs)).
Proof.
  destruct (transact_returns (fun _ : unit => True) LATEST example_tx tt example_precompiles
    admin.Statics_init example_tx_wf I example_precompiles_ok (or_introl eq_refl))
    as (out & d' & Ht & _ & Hg).
  assert (Hv : outcome_view (transact LATEST example_start) =
    Some (true, 23669, Some (10 ^ 18 - 23669))) by (vm_compute; reflexivity).
  unfold example_start in *. rewrite Ht in Hv. destruct out as [rs|]; [|done].
  simpl in Hv. injection Hv as Hs Hgu Hb. exists rs, d'. split; [done|]. split; [done|].
  split; [by apply Hg|]. rewrite Hgu. exact Hb.
Defined.

(** With the sender loaded, the driver meets the interpreter's demands. *)
Lemma driver_implements_host_witness :
  exists d, loaded 100 d /\
    wp False (host_balance (Host := evm_host LATEST 1026) d 100) (fun '(r, d') =>
      answer fatal (fun '(v, _) => is_u256 v) r d' /\
      evm_ok (fun _ : unit => True) example_tx 0 [] ∅ false ∅ 100 d').
Proof.
  pose proof (new_inv (fun _ : unit => True) LATEST example_tx false tt example_precompiles
    admin.Statics_init I example_precompiles_ok eq_refl) as Hn.
  pose proof (load_present (fun _ : unit => True) example_tx false ∅ 100 example_start Hn
    (or_intror (fun 'tt _ => ex_intro _ _ eq_refl))) as Hl.
  unfold ewp in Hl. destruct (with_db _ example_start) as [[r d]| | |]; try done.
  destruct Hl as (Hd & Hl & _). exists d. split; [done|].
  apply (balance_ok (HH := evm_host LATEST 1026) (HostSpec := driver_implements_host (fun _ : unit => True) LATEST example_tx
    1026 0 [] ∅ false ∅ false (tw_env _ _ example_tx_wf) (tw_memory_limit _ _ example_tx_wf)
    ltac:(lia) ltac:(lia))); [|rlia].
  split; [apply Hd|]. split; [rlia|done].
Defined.

Lemma initialization_charges_intrinsic_gas_witness :
  initialization LATEST (new LATEST tt example_tx ∅ admin.Statics_init) =
  Val (inl 21020, new LATEST tt example_tx ∅ admin.Statics_init).
Proof.
  apply (initialization_charges_intrinsic_gas LATEST (new LATEST tt example_tx ∅ admin.Statics_init));
    by vm_compute.
Defined.

Lemma reserve_gas_exact_witness :
  (10 ^ 18 - 100000 = 10 ^ 18 - 100000 * effective_gas_price example_tx) /\
  0 <= 10 ^ 18 - 100000.
Proof.
  apply (reserve_gas_exact example_tx (10 ^ 18)); by vm_compute.
Defined.

Definition example_settle : EVMData :=
  set_journal (new LATEST tt example_tx ∅ admin.Statics_init)
    (js_set_state (JournaledState_new 0)
      (<[ 100 := Account_from (mkAccountInfo 5 1 KECCAK_EMPTY None) ]>
       {[ 0 := Account_from (mkAccountInfo 9 1 KECCAK_EMPTY None) ]})).

Lemma settle_balances_witness :
  exists gas_used gas_refunded d' c' k',
    settle LATEST 100 (mkGas 1000 300 300 0 40) example_settle = Val ((gas_used, gas_refunded), d') /\
    gas_used = 260 /\ js_state (d_journaled_state d') !! 100 = Some c' /\
    js_state (d_journaled_state d') !! 0 = Some k' /\
    Primitives.balance (info c') = 745 /\ Primitives.balance (info k') = 269.
Proof.
  destruct (settle_balances LATEST example_settle 100 (mkGas 1000 300 300 0 40)
    (Account_from (mkAccountInfo 5 1 KECCAK_EMPTY None))
    (Account_from (mkAccountInfo 9 1 KECCAK_EMPTY None)))
    as (gu & gr & d' & c' & k' & Hs & _ & _ & Hc & Hk & Hbc & Hbk);
    [by vm_compute..|].
  vm_compute in Hs. injection Hs as <- <- <-.
  exists 260, 40. eexists _, c', k'. split; [vm_compute; reflexivity|].
  split; [done|]. split; [exact Hc|]. split; [exact Hk|]. split; [exact Hbc|exact Hbk].
Defined.

(** ** The administrator's precompile in a transaction *)
Section admin.
Context {HX : HashCrates} {HC : Crypto} {HB : Bn} {HO : Os}.

(** The account the static configuration first names runs
    [STATICCALL(2000, 1337, [2; 4])]: reload the configuration, dump. *)
#[local] Instance admin_db : Database unit := {
  db_error := unit;
  db_basic _ a := (inl (
    if a =? 100 then Some (mkAccountInfo (10 ^ 18) 1 KECCAK_EMPTY None)
    else if a =? 0x31337 then Some (mkAccountInfo 0 1 5 (Some (mkBytecode
      [0x61; 2; 4; 0x60; 0; 0x52; 0x60; 0; 0x60; 0; 0x60; 2; 0x60; 30; 0x61; 0x05; 0x39;
       0x61; 0x07; 0xd0; 0xfa; 0x00] 5 Raw)))
    else None), tt);
  db_code_by_hash _ _ := (inl Bytecode_new, tt);
  db_storage _ _ _ := (inl 0, tt);
  db_block_hash _ _ := (inr tt, tt);
}.

Definition admin_tx : Env := mkEnv CfgEnv_default BlockEnv_default
  (mkTxEnv 100 100000 1 None (TransactCall 0x31337) 0 [] None None []).

(** With the tables the node uses, a well-formed transaction can bring
    the whole node down: the administrator's dump indexes past its input,
    which panics inside [transact]. *)
Theorem admin_dump_aborts_transaction :
  tx_wf LATEST admin_tx /\
  transact LATEST (new LATEST tt admin_tx (Precompiles_new (to_precompile_id LATEST))
    admin.Statics_init) = Panic.
Proof.
  split; [|vm_compute; reflexivity].
  constructor; [|by vm_compute..|by split; [constructor|vm_compute]|by vm_compute].
  constructor; simpl; try rlia; [done|]. intros _. exists 0. split; [done|rlia].
Qed.

(** The journal takes the precompiles to be the addresses 1 to [len]
    when it decides whether a first access is cold; with the administrator's
    entry in the table this is wrong twice: address [len] itself counts as a
    precompile without being one, and 1337 is one without counting. *)
Theorem precompile_addresses_not_contiguous (spec : PrecompileSpec.t) :
  let m := Precompiles_new spec in
  let len := Precompiles_len m in
  is_precompile len len = true /\ Precompiles_contains m len = false /\
  is_precompile 1337 len = false /\ Precompiles_contains m 1337 = true.
Proof. by destruct spec; vm_compute. Qed.
End admin.
