(* ===== verification/CacheDBSpec.v ===== *)
(** * What the cache promises

    [CacheDB] refines a plain world of accounts, slots and block hashes;
    committing is independent of the order in which the hash map yields the
    accounts; a well-formed cache over a well-formed database implements the
    interfaces the driver relies on. *)

From stdpp Require Import base option list gmap.
From Stdlib Require Import ZArith Lia.
From S2P Require Import Prelude Primitives Gas EvmMemory Analysis Interpreter Safety Precompile Journal JournalRevert JournalSafe EvmImpl CacheDB EvmSafety TransactSpec.

(** ** The world a database stands for *)
Section world.
Context {E : Type}.

Record world := mkWorld {
  w_basic : Z -> option AccountInfo + E;
  w_slot : Z -> Z -> Z + E;
  w_hash : Z -> Z + E;
}.

#[global] Instance world_equiv : Equiv world := fun w v =>
  (forall a, w_basic w a = w_basic v a) /\ (forall a k, w_slot w a k = w_slot v a k) /\
  (forall n, w_hash w n = w_hash v n).
#[global] Instance world_equivalence : Equivalence (≡@{world}).
Proof.
  split.
  - by intros w.
  - intros w v (H1 & H2 & H3). repeat split; intros; symmetry; auto.
  - intros w v u (H1 & H2 & H3) (H4 & H5 & H6). repeat split; intros; etrans; eauto.
Qed.

Inductive query := BasicOf (a : Z) | SlotOf (a k : Z) | HashOf (n : Z).
Inductive reply :=
| ABasic (r : option AccountInfo + E) | ASlot (r : Z + E) | AHash (r : Z + E).

Definition world_answer (w : world) (q : query) : reply :=
  match q with
  | BasicOf a => ABasic (w_basic w a)
  | SlotOf a k => ASlot (w_slot w a k)
  | HashOf n => AHash (w_hash w n)
  end.

(** An account as it is committed: the hash is that of the code, and the
    hash zero stands for no code. *)
Definition committed_info (i : AccountInfo) : AccountInfo :=
  let h := match code i with
    | Some b => if Bytecode_is_empty b then code_hash i else bc_hash b
    | None => code_hash i
    end in
  mkAccountInfo (balance i) (nonce i) (if h =? 0 then KECCAK_EMPTY else h) (code i).

(** What the changes of a transaction do to the world. *)
Definition apply_changes (w : world) (changes : gmap Z Account) : world := mkWorld
  (fun a => match changes !! a with
    | Some x => inl (if is_destroyed x then None else Some (committed_info (info x)))
    | None => w_basic w a
    end)
  (fun a k => match changes !! a with
    | Some x =>
        if is_destroyed x then inl 0
        else match storage x !! k with
          | Some s => inl (present_value s)
          | None => if storage_cleared x then inl 0 else w_slot w a k
          end
    | None => w_slot w a k
    end)
  (w_hash w).

#[global] Instance world_answer_proper : Proper ((≡) ==> (=) ==> (=)) world_answer.
Proof. intros w v (H1 & H2 & H3) q ? <-. destruct q; simpl; by f_equal. Qed.
#[global] Instance apply_changes_proper : Proper ((≡) ==> (=) ==> (≡)) apply_changes.
Proof.
  intros w v (H1 & H2 & H3) ch ? <-. repeat split; intros; simpl; [|destruct (ch !! a) as [x|]|]; auto.
  - by rewrite H1.
  - destruct (is_destroyed x), (storage x !! k), (storage_cleared x); auto.
Qed.

Inductive operation := Query (q : query) | Commit (changes : gmap Z Account).

Fixpoint world_run (w : world) (ops : list operation) : list reply :=
  match ops with
  | [] => []
  | Query q :: ops => world_answer w q :: world_run w ops
  | Commit changes :: ops => world_run (apply_changes w changes) ops
  end.

#[global] Instance world_run_proper : Proper ((≡) ==> (=) ==> (=)) world_run.
Proof.
  intros w v Hwv ops ? <-. revert w v Hwv. induction ops as [|[q|ch] ops IH]; intros w v Hwv; simpl.
  - done.
  - f_equal; [by rewrite Hwv|by apply IH].
  - apply IH. by rewrite Hwv.
Qed.
End world.
Arguments world E : clear implicits.
Arguments reply E : clear implicits.

(** ** Committing, account by account *)
Lemma foldl_foldr {A B : Type} (f : A -> B -> A) a l :
  foldl f a l = foldr (fun b a => f a b) a (reverse l).
Proof.
  revert a. induction l as [|b l IH]; intros a; [done|].
  rewrite reverse_cons, foldr_app. apply IH.
Qed.

Section commit.
Context {ExtDB : Type} {HR : DatabaseRef ExtDB}.
Abbreviation Cache := (CacheDB ExtDB).

Lemma insert_contract_info (c : Cache) i : (insert_contract c i).2 = committed_info i.
Proof.
  destruct i as [bal n h [b|]]; unfold insert_contract, committed_info; simpl; [|by case_if].
  by destruct (Bytecode_is_empty b); simpl; case_if.
Qed.

(** The code an account leaves among the contracts. *)
Definition fresh_code (i : AccountInfo) : option Bytecode :=
  b ← code i; if Bytecode_is_empty b then None else Some b.
Definition committed_code (x : Account) : option Bytecode :=
  if is_destroyed x then None else fresh_code (info x).

Definition add_code (m : gmap Z Bytecode) (o : option Bytecode) : gmap Z Bytecode :=
  match o with
  | Some b => match m !! bc_hash b with Some _ => m | None => <[bc_hash b := b]> m end
  | None => m
  end.

Lemma insert_contract_eq (c : Cache) i :
  insert_contract c i = (set_contracts c (add_code (cd_contracts c) (fresh_code i)), committed_info i).
Proof.
  rewrite <- (insert_contract_info c i), (surjective_pairing (insert_contract c i)) at 1. f_equal.
  unfold insert_contract, fresh_code. destruct (code i) as [b|]; simpl; [|by destruct c].
  destruct (Bytecode_is_empty b); simpl; [by destruct c|].
  destruct (cd_contracts c !! bc_hash b); by destruct c.
Qed.

(** The record of an account after a change. *)
Definition committed (o : option DbAccount) (x : Account) : DbAccount :=
  if is_destroyed x then mkDbAccount AccountInfo_default NotExisting ∅
  else
    let old := default DbAccount_default o in
    let cleared := storage_cleared x || is_storage_cleared (da_account_state old) in
    mkDbAccount (committed_info (info x)) (if cleared then StorageCleared else Touched)
      ((present_value <$> storage x) ∪ (if storage_cleared x then ∅ else da_storage old)).

Lemma commit_account_eq (c : Cache) a x :
  commit_account c a x = mkCacheDB (<[a := committed (cd_accounts c !! a) x]> (cd_accounts c))
    (add_code (cd_contracts c) (committed_code x)) (cd_logs c) (cd_block_hashes c) (cd_db c).
Proof.
  unfold commit_account, committed, committed_code. destruct (is_destroyed x); [done|].
  rewrite insert_contract_eq.
  unfold set_account, set_accounts, entry_or_default, set_contracts. simpl.
  destruct (storage_cleared x), (cd_accounts c !! a) as [o|]; simpl; try done.
  by destruct (is_storage_cleared (da_account_state o)).
Qed.

Abbreviation commit_all :=
  (foldl (fun c '(address, account) => commit_account c address account)).

Lemma commit_all_account l (c : Cache) a : NoDup l.*1 ->
  cd_accounts (commit_all c l) !! a =
  match (list_to_map l : gmap Z Account) !! a with
  | Some x => Some (committed (cd_accounts c !! a) x)
  | None => cd_accounts c !! a
  end.
Proof.
  revert c. induction l as [|[b x] l IH]; intros c; simpl; [done|].
  intros [Hb Hl]%NoDup_cons. rewrite IH by done. rewrite commit_account_eq. simpl.
  destruct (decide (b = a)) as [->|Hne].
  - by rewrite !lookup_insert_eq, not_elem_of_list_to_map_1.
  - by rewrite !lookup_insert_ne.
Qed.

Lemma commit_accounts (c : Cache) (changes : gmap Z Account) a :
  cd_accounts (commit c changes) !! a =
  match changes !! a with
  | Some x => Some (committed (cd_accounts c !! a) x)
  | None => cd_accounts c !! a
  end.
Proof.
  unfold commit. rewrite commit_all_account by apply NoDup_fst_map_to_list.
  by rewrite list_to_map_to_list.
Qed.

Lemma commit_all_ind (P : Cache -> Prop) c l :
  P c -> (forall c a x, (a, x) ∈ l -> P c -> P (commit_account c a x)) -> P (commit_all c l).
Proof.
  revert c. induction l as [|[a x] l IH]; intros c Hc Hs; simpl; [done|].
  apply IH; [apply Hs; [left|done]|]. intros c' b y Hb. apply Hs. by right.
Qed.

Lemma commit_rest (c : Cache) changes :
  cd_block_hashes (commit c changes) = cd_block_hashes c /\ cd_db (commit c changes) = cd_db c.
Proof.
  apply (commit_all_ind (fun d => cd_block_hashes d = cd_block_hashes c /\ cd_db d = cd_db c));
    [done|]. intros d a x _ Hd. by rewrite commit_account_eq.
Qed.

(** Equal hashes mean equal codes. *)
Definition hashes_determine (changes : gmap Z Account) : Prop :=
  forall a x b a' x' b', changes !! a = Some x -> changes !! a' = Some x' ->
  committed_code x = Some b -> committed_code x' = Some b' -> bc_hash b = bc_hash b' -> b = b'.

Lemma add_code_comm m o o' :
  (forall b b', o = Some b -> o' = Some b' -> bc_hash b = bc_hash b' -> b = b') ->
  add_code (add_code m o) o' = add_code (add_code m o') o.
Proof.
  intros Hd. destruct o as [b|], o' as [b'|]; try done. specialize (Hd b b' eq_refl eq_refl).
  simpl. destruct (decide (bc_hash b = bc_hash b')) as [He|Hne].
  - by rewrite (Hd He).
  - destruct (m !! bc_hash b) eqn:E, (m !! bc_hash b') eqn:E';
      rewrite ?lookup_insert_ne, ?E, ?E' by done; try done. by apply insert_insert_ne.
Qed.

Lemma commit_account_comm (c : Cache) a x a' x' : a <> a' ->
  (forall b b', committed_code x = Some b -> committed_code x' = Some b' ->
    bc_hash b = bc_hash b' -> b = b') ->
  commit_account (commit_account c a x) a' x' = commit_account (commit_account c a' x') a x.
Proof.
  intros Hne Hd. rewrite !commit_account_eq. simpl.
  rewrite !lookup_insert_ne by done. f_equal; [by apply insert_insert_ne|by apply add_code_comm].
Qed.

(** The changes come out of a hash map in no particular order, and it
    does not matter: whatever the order, the cache after the commit is the
    same, as long as codes with equal hashes are equal. *)
Theorem commit_order_irrelevant (c : Cache) (changes : gmap Z Account) l :
  hashes_determine changes -> l ≡ₚ map_to_list changes -> commit_all c l = commit c changes.
Proof.
  intros Hd Hl. unfold commit.
  assert (Hp : reverse l ≡ₚ reverse (map_to_list changes)).
  { etrans; [apply reverse_Permutation|]. etrans; [exact Hl|]. symmetry. apply reverse_Permutation. }
  rewrite !foldl_foldr. apply (foldr_permutation (=)); [intros [] ? ? ->; done| |exact Hp].
  intros j1 [a x] j2 [a' x'] d Hj H1 H2.
  assert (Hin : forall j y, reverse l !! j = Some y -> changes !! y.1 = Some y.2).
  { intros j [b y] Hy%list_elem_of_lookup_2. rewrite elem_of_reverse, Hl in Hy.
    by apply elem_of_map_to_list in Hy. }
  pose proof (Hin _ _ H1) as Ha. pose proof (Hin _ _ H2) as Ha'. simpl in Ha, Ha'.
  apply commit_account_comm; [|by eauto using Hd].
  intros ->. apply Hj. assert (Hnd : NoDup (reverse l)).
  { apply (NoDup_Permutation_proper _ _ Hp), (NoDup_Permutation_proper _ _ (reverse_Permutation _)).
    apply NoDup_map_to_list. }
  eapply NoDup_lookup; [done|exact H1|]. rewrite H2. congruence.
Qed.

Lemma add_code_spec m o b : o = Some b -> (forall d, m !! bc_hash b = Some d -> d = b) ->
  add_code m o !! bc_hash b = Some b.
Proof.
  intros -> Hm. simpl. destruct (m !! bc_hash b) as [d|] eqn:E.
  - rewrite E. f_equal. by apply Hm.
  - by rewrite lookup_insert_eq.
Qed.

Lemma commit_all_code l (c : Cache) b :
  (forall d, cd_contracts c !! bc_hash b = Some d -> d = b) ->
  (forall a x d, (a, x) ∈ l -> committed_code x = Some d -> bc_hash d = bc_hash b -> d = b) ->
  (forall d, cd_contracts (commit_all c l) !! bc_hash b = Some d -> d = b) /\
  ((exists a x, (a, x) ∈ l /\ committed_code x = Some b) \/
    cd_contracts c !! bc_hash b = Some b -> cd_contracts (commit_all c l) !! bc_hash b = Some b).
Proof.
  revert c. induction l as [|[a x] l IH]; intros c Hc Hl; simpl.
  { split; [done|]. intros [(a & x & Hx & _)|H]; [|done]. by apply elem_of_nil in Hx. }
  assert (Hkeep : forall d, cd_contracts c !! bc_hash b = Some d ->
    add_code (cd_contracts c) (committed_code x) !! bc_hash b = Some d).
  { intros d Hd. destruct (committed_code x) as [b'|]; simpl; [|done].
    destruct (decide (bc_hash b' = bc_hash b)) as [->|Hne]; [by rewrite Hd|].
    destruct (cd_contracts c !! bc_hash b'); [done|]. by rewrite lookup_insert_ne. }
  destruct (IH (commit_account c a x)) as [IH1 IH2].
  - intros d. rewrite commit_account_eq. simpl. destruct (committed_code x) as [b'|] eqn:Ex; simpl; [|by auto].
    destruct (cd_contracts c !! bc_hash b'); [by auto|]. rewrite lookup_insert. case_decide; [|by auto].
    intros [= <-]. eapply Hl; [left|done|done].
  - intros a' x' d Hx'. apply Hl with a'. by right.
  - split; [done|]. intros Hex. apply IH2. rewrite commit_account_eq. simpl.
    destruct Hex as [(a' & x' & [[= -> ->]|Hx']%elem_of_cons & Hb)|Hb]; [|by eauto|by eauto].
    right. by apply add_code_spec.
Qed.

(** Code goes in with an account and comes back by its hash: after a
    commit, the account's record names a hash under which [code_by_hash]
    gives the very code, without asking the external database. *)
Theorem committed_code_readable (c : Cache) (changes : gmap Z Account) a x b :
  hashes_determine changes -> (forall d, cd_contracts c !! bc_hash b = Some d -> d = b) ->
  changes !! a = Some x -> committed_code x = Some b -> bc_hash b <> 0 ->
  exists i, (CacheDB_basic (commit c changes) a).1 = inl (Some i) /\
    CacheDB_code_by_hash (commit c changes) (code_hash i) = (inl b, commit c changes).
Proof.
  intros Hd Hc Hx Hb Hz. unfold CacheDB_basic, load_account. rewrite commit_accounts, Hx.
  unfold committed. unfold committed_code, fresh_code in Hb.
  destruct (is_destroyed x) eqn:Hdes; [done|]. exists (committed_info (info x)).
  split; [simpl; by destruct (_ || _)|].
  assert (Hh : code_hash (committed_info (info x)) = bc_hash b).
  { unfold committed_info. destruct (code (info x)) as [b'|]; simpl in Hb; [|done].
    destruct (Bytecode_is_empty b'); [done|]. injection Hb as ->. simpl. by case_if; [bool_to_prop|]. }
  rewrite Hh. unfold CacheDB_code_by_hash.
  destruct (commit_all_code (map_to_list changes) c b Hc) as [_ Hin].
  - intros a' x' d Hx'%elem_of_map_to_list Hd' He. eapply (Hd a' x' d a x b); try done.
    unfold committed_code. by rewrite Hdes.
  - unfold commit. rewrite Hin; [done|]. left. exists a, x.
    split; [by apply elem_of_map_to_list|]. unfold committed_code. by rewrite Hdes.
Qed.

(** ** The cache refines the world *)

(** What the read-only interface shows of a cache. *)
Definition world_of (c : Cache) : world ref_error :=
  mkWorld (ref_basic c) (ref_storage c) (ref_block_hash c).

(** What reading through [Database] answers. *)
Definition cache_answer (c : Cache) (q : query) : reply ref_error * Cache :=
  match q with
  | BasicOf a => let '(r, c) := db_basic c a in (ABasic r, c)
  | SlotOf a k => let '(r, c) := db_storage c a k in (ASlot r, c)
  | HashOf n => let '(r, c) := db_block_hash c n in (AHash r, c)
  end.

Fixpoint cache_run (c : Cache) (ops : list operation) : list (reply ref_error) :=
  match ops with
  | [] => []
  | Query q :: ops => let '(r, c) := cache_answer c q in r :: cache_run c ops
  | Commit changes :: ops => cache_run (commit c changes) ops
  end.

(** No storage where there is no account, and no half-failing. *)
Definition consistent (db : ExtDB) : Prop := forall a k,
  match ref_basic db a with
  | inl (Some _) => True
  | inl None => ref_storage db a k = inl 0
  | inr e => ref_storage db a k = inr e
  end.

Definition unstored (db : ExtDB) (a : Z) : Prop := forall k, ref_storage db a k = inl 0.

(** Accounts recorded as missing have no storage outside either. *)
Definition no_ghosts (c : Cache) : Prop := forall a acc,
  cd_accounts c !! a = Some acc -> da_account_state acc = NotExisting -> unstored (cd_db c) a.

Definition op_ok (db : ExtDB) (o : operation) : Prop :=
  match o with
  | Query _ => True
  | Commit changes => forall a x, changes !! a = Some x -> is_destroyed x = true -> unstored db a
  end.

(** Recording what the external database says is not seen. *)
Lemma set_account_view c a acc :
  inl (DbAccount_info acc) = ref_basic c a ->
  (forall k, match da_storage acc !! k with
    | Some v => inl v
    | None => if no_storage (da_account_state acc) then inl 0 else ref_storage (cd_db c) a k
    end = ref_storage c a k) ->
  world_of (set_account c a acc) ≡ world_of c.
Proof.
  intros Hb Hs. split; [|split; [|done]].
  - intros b. simpl. destruct (decide (a = b)) as [<-|Hne].
    + by rewrite lookup_insert_eq.
    + by rewrite lookup_insert_ne.
  - intros b k. simpl. destruct (decide (a = b)) as [<-|Hne].
    + rewrite lookup_insert_eq. apply Hs.
    + by rewrite lookup_insert_ne.
Qed.

Definition answers (c : Cache) (o : reply ref_error * Cache) (r : reply ref_error) : Prop :=
  o.1 = r /\ world_of o.2 ≡ world_of c /\ cd_db o.2 = cd_db c /\ no_ghosts o.2.

Lemma answers_same (c : Cache) r : no_ghosts c -> answers c (r, c) r.
Proof. by intros Hg. Qed.

Lemma no_ghosts_set (c : Cache) a acc : no_ghosts c ->
  (da_account_state acc = NotExisting -> unstored (cd_db c) a) -> no_ghosts (set_account c a acc).
Proof.
  intros Hg Ha b acc' Hb. simpl in *. rewrite lookup_insert in Hb. case_decide as Hab.
  - by simplify_eq.
  - by apply Hg.
Qed.

Lemma basic_answer (c : Cache) a : consistent (cd_db c) -> no_ghosts c ->
  answers c (cache_answer c (BasicOf a)) (ABasic (ref_basic c a)).
Proof.
  intros Hx Hg. simpl. unfold CacheDB_basic, load_account.
  destruct (cd_accounts c !! a) as [acc|] eqn:Ea; [by apply answers_same|].
  pose proof (Hx a) as Ha. destruct (ref_basic (cd_db c) a) as [o|e] eqn:Eb; [|by apply answers_same].
  split; [by destruct o|]. split; [|split; [done|]].
  - apply set_account_view; simpl; rewrite Ea, ?Eb; [by destruct o|].
    intros k. specialize (Ha k). destruct o; simpl; rewrite lookup_empty; [done|by rewrite Ha].
  - apply no_ghosts_set; [done|]. by destruct o.
Qed.

Lemma slot_answer (c : Cache) a k : consistent (cd_db c) -> no_ghosts c ->
  answers c (cache_answer c (SlotOf a k)) (ASlot (ref_storage c a k)).
Proof.
  intros Hx Hg. simpl. unfold CacheDB_storage. pose proof (Hx a) as Ha.
  destruct (cd_accounts c !! a) as [acc|] eqn:Ea.
  - destruct (da_storage acc !! k) as [v|] eqn:Ek; [by apply answers_same|].
    destruct (no_storage (da_account_state acc)) eqn:En; [by apply answers_same|].
    destruct (ref_storage (cd_db c) a k) as [v|e] eqn:Es; [|by apply answers_same].
    split; [done|]. split; [|split; [done|]].
    + apply set_account_view; simpl; rewrite Ea; [done|]. intros j. rewrite lookup_insert.
      case_decide as Hj; [|done]. subst. by rewrite Ek, En.
    + apply no_ghosts_set; [done|]. simpl. by apply Hg.
  - destruct (ref_basic (cd_db c) a) as [[i|]|e] eqn:Eb.
    + destruct (ref_storage (cd_db c) a k) as [v|e] eqn:Es; [|by apply answers_same].
      split; [done|]. split; [|split; [done|]].
      * apply set_account_view; simpl; rewrite Ea, ?Eb; [done|]. intros j.
        rewrite lookup_singleton. case_decide as Hj; [by subst|done].
      * by apply no_ghosts_set.
    + split; [simpl; by rewrite Ha|]. split; [|split; [done|]].
      * apply set_account_view; simpl; rewrite Ea, ?Eb; [done|]. intros j. by rewrite lookup_empty, Ha.
      * by apply no_ghosts_set.
    + rewrite Ha. by apply answers_same.
Qed.

Lemma hash_answer (c : Cache) n : no_ghosts c ->
  answers c (cache_answer c (HashOf n)) (AHash (ref_block_hash c n)).
Proof.
  intros Hg. simpl. unfold CacheDB_block_hash.
  destruct (cd_block_hashes c !! n) as [h|] eqn:En; [by apply answers_same|].
  destruct (ref_block_hash (cd_db c) n) as [h|e] eqn:Eh; [|by apply answers_same].
  split; [done|]. split; [|done]. split; [done|]. split; [done|]. intros m. simpl.
  rewrite lookup_insert. case_decide as Hm; [|done]. subst. by rewrite En, Eh.
Qed.

Lemma cache_answer_ok (c : Cache) q : consistent (cd_db c) -> no_ghosts c ->
  answers c (cache_answer c q) (world_answer (world_of c) q).
Proof.
  intros Hx Hg. destruct q; [by apply basic_answer|by apply slot_answer|by apply hash_answer].
Qed.

Lemma commit_world (c : Cache) changes :
  no_ghosts c -> world_of (commit c changes) ≡ apply_changes (world_of c) changes.
Proof.
  intros Hg. destruct (commit_rest c changes) as [Eh Ed]. split; [|split].
  - intros a. simpl. rewrite commit_accounts, Ed. destruct (changes !! a) as [x|]; [|done].
    unfold committed. destruct (is_destroyed x); [done|]. simpl. by destruct (_ || _).
  - intros a k. simpl. rewrite commit_accounts, Ed. destruct (changes !! a) as [x|]; [|done].
    unfold committed. destruct (is_destroyed x); [done|]. simpl.
    rewrite lookup_union, lookup_fmap. destruct (storage x !! k) as [s|]; simpl.
    { by destruct ((if storage_cleared x then _ else _) !! k). }
    rewrite (left_id_L None union). destruct (storage_cleared x); simpl; [done|].
    destruct (cd_accounts c !! a) as [acc|] eqn:Ea; simpl; [|done].
    destruct (da_storage acc !! k); [done|].
    destruct (da_account_state acc) eqn:Es; simpl; try done. by apply (Hg a acc).
  - intros n. simpl. by rewrite Eh, Ed.
Qed.

Lemma commit_no_ghosts (c : Cache) changes :
  no_ghosts c -> op_ok (cd_db c) (Commit changes) -> no_ghosts (commit c changes).
Proof.
  intros Hg Ho a acc. destruct (commit_rest c changes) as [_ ->]. rewrite commit_accounts.
  destruct (changes !! a) as [x|] eqn:Ex; [|by apply Hg]. intros [= <-]. unfold committed.
  destruct (is_destroyed x) eqn:Ed; [by eauto|]. simpl. by destruct (_ || _).
Qed.

(** C7: the cache implements the world it shows.  Any interleaving of
    queries through [Database], which fill the cache, and of commits gets the
    answers that the plain world gives: caching is invisible.  This needs an
    external database in which a missing account has no storage and fails for
    all of its slots if it fails for the account, and which holds no storage
    of the accounts that the cache has as missing or that a commit destroys:
    theirs may come back ([destroyed_storage_resurfaces]). *)
Theorem cache_refines_world (c : Cache) (ops : list operation) :
  consistent (cd_db c) -> no_ghosts c -> Forall (op_ok (cd_db c)) ops ->
  cache_run c ops = world_run (world_of c) ops.
Proof.
  revert c. induction ops as [|[q|changes] ops IH]; intros c Hx Hg Hok; simpl; [done|..].
  - apply Forall_cons in Hok as [_ Hok]. destruct (cache_answer_ok c q Hx Hg) as (Hr & Hw & Hd & Hg').
    destruct (cache_answer c q) as [r c']; simpl in *. f_equal; [done|].
    rewrite IH by (by rewrite ?Hd). by apply world_run_proper.
  - apply Forall_cons in Hok as [Ho Hok]. destruct (commit_rest c changes) as [_ Hd].
    rewrite IH by (rewrite ?Hd; try done; by apply commit_no_ghosts).
    apply world_run_proper; [|done]. by apply commit_world.
Qed.

(** The requirement on destroyed accounts is needed.  An account with
    storage in the external database is destroyed, then touched again by a
    later transaction without being created anew: the commit turns its
    record from missing to touched, and its old storage is back. *)
Theorem destroyed_storage_resurfaces (c : Cache) (changes1 changes2 : gmap Z Account)
  (a k : Z) (x y : Account) :
  changes1 !! a = Some x -> is_destroyed x = true ->
  changes2 !! a = Some y -> is_destroyed y = false -> storage_cleared y = false ->
  storage y !! k = None ->
  let c1 := commit c changes1 in
  ref_storage c1 a k = inl 0 /\
  ref_storage (commit c1 changes2) a k = ref_storage (cd_db c) a k.
Proof.
  intros H1 Hx H2 Hy Hc Hk c1. unfold c1. destruct (commit_rest c changes1) as [_ Hd].
  destruct (commit_rest (commit c changes1) changes2) as [_ Hd2].
  simpl. rewrite Hd2, Hd, !commit_accounts, H1, H2. simpl.
  unfold committed. rewrite Hx, Hy, Hc. simpl. split; [done|].
  by rewrite lookup_union, lookup_fmap, Hk, lookup_empty.
Qed.

(** An account the cache recorded as missing stays missing when its balance,
    nonce and code are set by hand. *)
Lemma insert_account_info_hidden (c : Cache) (a : Z) (acc : DbAccount) (i : AccountInfo) :
  cd_accounts c !! a = Some acc -> da_account_state acc = NotExisting ->
  (db_basic (insert_account_info c a i) a).1 = inl None.
Proof.
  intros Ha Hs. unfold insert_account_info. simpl.
  assert (Hf : cd_accounts (insert_contract c i).1 = cd_accounts c).
  { unfold insert_contract. destruct (code i) as [b|]; simpl; [|done].
    destruct (negb _); [|done]. by destruct (cd_contracts c !! bc_hash b). }
  destruct (insert_contract c i) as [c1 i1]. simpl in Hf.
  unfold CacheDB_basic, load_account, entry_or_default. simpl. rewrite Hf, Ha, lookup_insert_eq.
  unfold DbAccount_info. simpl. by rewrite Hs.
Qed.
End commit.

(** ** Well-formed caches *)

(** What is relied on of a read-only database. *)
Class DatabaseRefSpec {R : Type} {HR : DatabaseRef R} (ok : R -> Prop) : Prop := {
  ref_basic_ok r a i : ok r -> ref_basic r a = inl (Some i) -> info_wf i;
  ref_code_ok r h b : ok r -> ref_code_by_hash r h = inl b -> fit_bytecode b;
  ref_storage_ok r a k v : ok r -> ref_storage r a k = inl v -> is_u256 v;
  ref_block_hash_ok r n v : ok r -> ref_block_hash r n = inl v -> is_u256 v;
}.

(** What is relied on of a database that transactions are committed to. *)
Class CommitSpec {DB : Type} {HDB : Database DB} {HCO : DatabaseCommit DB} (ok : DB -> Prop) : Prop := {
  commit_database :: DatabaseSpec ok;
  db_commit_ok db s : ok db -> state_wf s -> ok (db_commit db s);
}.

#[export] Instance wrapper_spec {R : Type} {HR : DatabaseRef R} (ok : R -> Prop)
  {HS : DatabaseRefSpec ok} : DatabaseSpec (fun w : RefDBWrapper R => ok (wrapped w)).
Proof.
  split; intros [r]; simpl; intros; (split; [done|]).
  - intros i. by apply ref_basic_ok.
  - intros b. by eapply ref_code_ok.
  - intros v. by eapply ref_storage_ok.
  - intros v. by eapply ref_block_hash_ok.
Qed.

Section wellformed.
Context {R : Type} {HR : DatabaseRef R} (ok : R -> Prop) {HS : DatabaseRefSpec ok}.

Definition account_ok (acc : DbAccount) : Prop :=
  info_wf (da_info acc) /\ map_Forall (fun _ => is_u256) (da_storage acc).

Record cache_ok (c : CacheDB R) : Prop := mkCacheOk {
  co_db : ok (cd_db c);
  co_accounts : map_Forall (fun _ => account_ok) (cd_accounts c);
  co_contracts : map_Forall (fun _ => fit_bytecode) (cd_contracts c);
  co_hashes : map_Forall (fun _ => is_u256) (cd_block_hashes c);
}.

Lemma info_default_wf : info_wf AccountInfo_default.
Proof. split_and!; [by vm_compute..|]. intros c [= <-]. apply bytecode_new_wf. Qed.

Lemma CacheDB_new_ok r : ok r -> cache_ok (CacheDB_new r).
Proof.
  intros Hr. constructor; [done|apply map_Forall_empty| |apply map_Forall_empty].
  apply map_Forall_insert_2; [apply bytecode_new_wf|].
  apply map_Forall_singleton, bytecode_new_wf.
Qed.

Lemma set_account_ok c a acc : cache_ok c -> account_ok acc -> cache_ok (set_account c a acc).
Proof. intros [H1 H2 H3 H4] Ha. constructor; [done|by apply map_Forall_insert_2|done|done]. Qed.

Lemma DbAccount_from_ok o : (forall i, o = Some i -> info_wf i) -> account_ok (DbAccount_from o).
Proof.
  intros Ho. destruct o as [i|]; (split; [|apply map_Forall_empty]).
  - by apply Ho.
  - apply info_default_wf.
Qed.

#[export] Instance cache_spec : DatabaseSpec cache_ok.
Proof.
  split.
  - intros c a Hc. pose proof Hc as [Hd Ha _ _]. simpl. unfold CacheDB_basic, load_account.
    destruct (cd_accounts c !! a) as [acc|] eqn:Ea; simpl.
    + split; [done|]. unfold DbAccount_info. intros i. specialize (Ha _ _ Ea) as [Hi _].
      destruct (da_account_state acc); by intros [= <-].
    + destruct (ref_basic (cd_db c) a) as [o|e] eqn:Eb; simpl; [|done].
      assert (Ho : forall i, o = Some i -> info_wf i) by (intros i ->; by eapply ref_basic_ok).
      split; [apply set_account_ok; [done|by apply DbAccount_from_ok]|].
      intros i. destruct o; [|done]. intros [= <-]. by apply Ho.
  - intros c h Hc. pose proof Hc as [Hd _ Hb _]. simpl. unfold CacheDB_code_by_hash.
    destruct (cd_contracts c !! h) as [b|] eqn:Eb; simpl.
    + split; [done|]. intros b' [= <-]. by apply (Hb h).
    + destruct (ref_code_by_hash (cd_db c) h) as [b|e] eqn:Er; simpl; [|done].
      pose proof (ref_code_ok _ _ _ Hd Er) as Hw. split; [|by intros ? [= <-]].
      destruct Hc. constructor; [done|done|by apply map_Forall_insert_2|done].
  - intros c a k Hc. pose proof Hc as [Hd Ha _ _]. simpl. unfold CacheDB_storage.
    destruct (cd_accounts c !! a) as [acc|] eqn:Ea; simpl.
    + specialize (Ha _ _ Ea) as [Hi Hs]. destruct (da_storage acc !! k) as [v|] eqn:Ek; simpl.
      { split; [done|]. intros v' [= <-]. by apply (Hs k). }
      destruct (no_storage _); simpl; [split; [done|]; by intros ? [= <-]|].
      destruct (ref_storage (cd_db c) a k) as [v|e] eqn:Er; simpl; [|done].
      pose proof (ref_storage_ok _ _ _ _ Hd Er) as Hv. split; [|by intros ? [= <-]].
      apply set_account_ok; [done|]. split; [done|]. by apply map_Forall_insert_2.
    + destruct (ref_basic (cd_db c) a) as [[i|]|e] eqn:Eb; simpl; [| |done].
      * destruct (ref_storage (cd_db c) a k) as [v|e] eqn:Er; simpl; [|done].
        pose proof (ref_storage_ok _ _ _ _ Hd Er) as Hv. split; [|by intros ? [= <-]].
        apply set_account_ok; [done|]. split; [by eapply ref_basic_ok|].
        by apply map_Forall_singleton.
      * split; [|by intros ? [= <-]]. apply set_account_ok; [done|]. by apply (DbAccount_from_ok None).
  - intros c n Hc. pose proof Hc as [Hd _ _ Hh]. simpl. unfold CacheDB_block_hash.
    destruct (cd_block_hashes c !! n) as [h|] eqn:Eh; simpl.
    + split; [done|]. intros v [= <-]. by apply (Hh n).
    + destruct (ref_block_hash (cd_db c) n) as [h|e] eqn:Er; simpl; [|done].
      pose proof (ref_block_hash_ok _ _ _ Hd Er) as Hv. split; [|by intros ? [= <-]].
      destruct Hc. constructor; [done|done|done|by apply map_Forall_insert_2].
Qed.

(** Read without being filled. *)
#[export] Instance cache_ref_spec : DatabaseRefSpec cache_ok.
Proof.
  split; intros c *; intros [Hd Ha Hb Hh]; simpl.
  - destruct (cd_accounts c !! a) as [acc|] eqn:Ea; [|by apply ref_basic_ok]. intros [= E].
    destruct (Ha _ _ Ea) as [Hi _]. unfold DbAccount_info in E. by destruct (da_account_state acc); simplify_eq.
  - destruct (cd_contracts c !! h) as [code|] eqn:Ec; [|by apply ref_code_ok]. intros [= <-]. by eapply Hb.
  - destruct (cd_accounts c !! a) as [acc|] eqn:Ea; [|by apply ref_storage_ok].
    destruct (Ha _ _ Ea) as [_ Hs]. destruct (da_storage acc !! k) as [x|] eqn:Ek; [intros [= <-]; by apply (Hs k)|].
    destruct (no_storage _); [intros [= <-]; done|by apply ref_storage_ok].
  - destruct (cd_block_hashes c !! n) as [x|] eqn:En; [|by apply ref_block_hash_ok]. intros [= <-]. by apply (Hh n).
Qed.

Lemma committed_info_wf i : info_wf i -> info_wf (committed_info i).
Proof.
  intros (Hb & Hn & Hh & Hc). split_and!; [done|done| |done]. simpl.
  assert (Hk : is_u256 KECCAK_EMPTY) by by vm_compute.
  destruct (code i) as [b|]; [|by case_if]. destruct (Hc b eq_refl) as [_ Hw].
  destruct (Bytecode_is_empty b); by case_if.
Qed.

Lemma committed_ok o x : (forall acc, o = Some acc -> account_ok acc) -> account_wf x ->
  account_ok (committed o x).
Proof.
  intros Ho [Hi Hs]. unfold committed. destruct (is_destroyed x).
  { split; [apply info_default_wf|apply map_Forall_empty]. }
  assert (Hold : account_ok (default DbAccount_default o)).
  { destruct o; [by apply Ho|]. split; [apply info_default_wf|apply map_Forall_empty]. }
  split; [by apply committed_info_wf|]. simpl. apply map_Forall_union_2.
  - intros k v Hv. rewrite lookup_fmap in Hv. destruct (storage x !! k) as [s|] eqn:Ek; [|done].
    simpl in Hv. injection Hv as <-. by apply (Hs k s).
  - destruct (storage_cleared x); [apply map_Forall_empty|apply Hold].
Qed.

Lemma committed_code_wf x b : account_wf x -> committed_code x = Some b -> fit_bytecode b.
Proof.
  intros [(_ & _ & _ & Hc) _]. unfold committed_code, fresh_code. destruct (is_destroyed x); [done|].
  destruct (code (info x)) as [b'|]; simpl; [|done]. destruct (Bytecode_is_empty b'); [done|].
  intros [= <-]. by apply Hc.
Qed.

#[export] Instance cache_commit_spec : CommitSpec cache_ok.
Proof.
  split; [exact _|]. intros c s Hc Hs. simpl. unfold commit. apply commit_all_ind; [done|].
  intros c' a x Hx [H1 H2 H3 H4]. apply elem_of_map_to_list in Hx. specialize (Hs _ _ Hx).
  rewrite commit_account_eq. constructor; simpl; [done| | |done].
  - apply map_Forall_insert_2; [|done]. apply committed_ok; [|done]. intros acc. apply H2.
  - destruct (committed_code x) as [b|] eqn:Eb; simpl; [|done].
    destruct (cd_contracts c' !! bc_hash b); [done|].
    apply map_Forall_insert_2; [|done]. by eapply committed_code_wf.
Qed.
End wellformed.
