(* ===== verification/NodeDbSpec.v ===== *)
(** * What the node's database promises

    Snapshots of [MemDb] are restored whatever happened in between; a state
    goes to disk and back, and into a dump and back, with its accounts, code
    and storage; setters are read back, except those of an account that has
    destroyed itself. *)

From stdpp Require Import base option list gmap sorting.
From Stdlib Require Import ZArith Lia.
From S2P Require Import Prelude Primitives Safety Execution Journal JournalRevert EvmImpl CacheDB CacheDBSpec NodeDb BlockStates BlockStatesSpec.

(** ** To disk and back *)
Section disk.
Context {T : Type} {HR : DatabaseRef T}.

(** The record of an account without what the cache alone knows. *)
Definition strip_info (i : AccountInfo) : AccountInfo :=
  mkAccountInfo (balance i) (nonce i) (code_hash i) None.
Definition strip (a : DbAccount) : DbAccount :=
  mkDbAccount (strip_info (da_info a)) StateNone (da_storage a).
Definition stripped (c : CacheDB T) : CacheDB T :=
  mkCacheDB (strip <$> cd_accounts c) (cd_contracts c) (cd_logs c) (cd_block_hashes c) (cd_db c).

Lemma restore_fold storage l (c : CacheDB T) : NoDup l.*1 ->
  let c' := foldl (restore_account storage) c l in
  (forall a, cd_accounts c' !! a =
    match list_to_map (M := gmap Z AccountInfo) l !! a with
    | Some i => Some (mkDbAccount (strip_info i) StateNone (default ∅ (storage !! a)))
    | None => cd_accounts c !! a
    end) /\
  cd_logs c' = cd_logs c /\ cd_db c' = cd_db c.
Proof.
  revert c. induction l as [|[a i] l IH]; intros c Hnd c'; [done|].
  apply NoDup_cons in Hnd as [Ha Hnd]. specialize (IH (restore_account storage c (a, i)) Hnd) as (H1 & H2 & H3).
  split; [|split].
  - intros k. unfold c'. cbn [foldl]. rewrite H1, list_to_map_cons, lookup_insert. case_decide as Ek.
    + subst. rewrite not_elem_of_list_to_map_1 by done.
      unfold restore_account. destruct (Primitives.code i); simpl; by rewrite lookup_insert_eq.
    + destruct (list_to_map (M := gmap Z AccountInfo) l !! k); [done|].
      unfold restore_account. destruct (Primitives.code i); simpl; by rewrite lookup_insert_ne.
  - unfold c'. cbn [foldl]. rewrite H2. unfold restore_account. by destruct (Primitives.code i).
  - unfold c'. cbn [foldl]. rewrite H3. unfold restore_account. by destruct (Primitives.code i).
Qed.

(** Contracts that come back are those of [C]. *)
Lemma restore_contracts storage l (c : CacheDB T) (C : gmap Z Bytecode) :
  cd_contracts c ⊆ C ->
  (forall a i b, (a, i) ∈ l -> Primitives.code i = Some b -> C !! code_hash i = Some b) ->
  let c' := foldl (restore_account storage) c l in
  cd_contracts c ⊆ cd_contracts c' /\ cd_contracts c' ⊆ C /\
  forall a i b, (a, i) ∈ l -> Primitives.code i = Some b -> cd_contracts c' !! code_hash i = Some b.
Proof.
  revert c. induction l as [|[a i] l IH]; intros c Hc Hl c'.
  { split; [done|]. split; [done|]. by intros a i b ?%elem_of_nil. }
  assert (Hstep : cd_contracts c ⊆ cd_contracts (restore_account storage c (a, i)) /\
    cd_contracts (restore_account storage c (a, i)) ⊆ C /\
    forall b, Primitives.code i = Some b -> cd_contracts (restore_account storage c (a, i)) !! code_hash i = Some b).
  { unfold restore_account. destruct (Primitives.code i) as [b|] eqn:Eb; simpl; [|done].
    pose proof (Hl a i b ltac:(left) Eb) as HC. split; [|split].
    - apply map_subseteq_spec. intros h x Hx. rewrite lookup_insert. case_decide; [|done]. subst.
      eapply map_subseteq_spec in Hx; [|exact Hc]. congruence.
    - by apply insert_subseteq_l.
    - intros ? [= <-]. by rewrite lookup_insert_eq. }
  destruct Hstep as (H1 & H2 & H3).
  destruct (IH _ H2) as (K1 & K2 & K3); [by intros a' i' b Hin; apply (Hl a'); right|].
  split; [by etrans|]. split; [done|]. intros a' i' b [[= -> ->]|Hin]%elem_of_cons Hb; [|by eapply K3].
  eapply map_subseteq_spec; [exact K1|]. by apply H3.
Qed.

(** Clearing takes the contracts of the accounts, each for the first. *)
Record cleared (C0 : gmap Z Bytecode) (l : list (Z * DbAccount)) (C : gmap Z Bytecode)
  (s0 s : StateSnapshot) (C' : gmap Z Bytecode) : Prop := mkCleared {
  cl_left : C' ⊆ C;
  cl_kept h b : C !! h = Some b -> C' !! h = Some b \/
    exists a i, (a, i) ∈ map_to_list (sn_accounts s) /\ code_hash i = h /\ Primitives.code i = Some b;
  cl_accounts a : match list_to_map (M := gmap Z DbAccount) l !! a with
    | Some x => exists o, sn_accounts s !! a = Some (mkAccountInfo (balance (da_info x)) (nonce (da_info x))
          (code_hash (da_info x)) o) /\ (forall b, o = Some b -> C0 !! code_hash (da_info x) = Some b) /\
        sn_storage s !! a = Some (da_storage x)
    | None => sn_accounts s !! a = sn_accounts s0 !! a /\ sn_storage s !! a = sn_storage s0 !! a
    end;
  cl_hashes : sn_block_hashes s = sn_block_hashes s0;
}.

Lemma clear_fold C0 l C s : NoDup l.*1 -> C ⊆ C0 ->
  let r := foldl clear_account (C, s) l in cleared C0 l C s r.2 r.1.
Proof.
  revert C s. induction l as [|[a x] l IH]; intros C s Hnd HC r.
  { split; [done|by left|by intros a|done]. }
  apply NoDup_cons in Hnd as [Ha Hnd]. unfold r. cbn [foldl]. unfold clear_account at 2.
  set (s1 := mkStateSnapshot _ _ _). set (C1 := delete _ C).
  assert (HC1 : C1 ⊆ C) by apply delete_subseteq.
  destruct (IH C1 s1 Hnd) as [K1 K2 K3 K4]; [by etrans|]. set (r1 := foldl clear_account (C1, s1) l) in *.
  pose proof (K3 a) as Ka. rewrite not_elem_of_list_to_map_1 in Ka by done. destruct Ka as [Ka1 Ka2].
  unfold s1 in Ka1, Ka2. simpl in Ka1, Ka2. rewrite lookup_insert_eq in Ka1. rewrite lookup_insert_eq in Ka2.
  split; simpl.
  - by etrans.
  - intros h b Hb. destruct (decide (h = code_hash (da_info x))) as [-> |Hne].
    + right. eexists a, _. split; [apply elem_of_map_to_list; exact Ka1|]. done.
    + apply K2. unfold C1. by rewrite lookup_delete_ne.
  - intros k. rewrite lookup_insert. case_decide as Ek.
    + subst k. eexists. split; [exact Ka1|]. split; [|done]. intros b Hb. eapply map_subseteq_spec; [exact HC|]. done.
    + specialize (K3 k). destruct (list_to_map l !! k); [done|]. unfold s1 in K3. simpl in K3.
      by rewrite !lookup_insert_ne in K3 by done.
  - exact K4.
Qed.

(** What clearing leaves and what it gives, back together. *)
Lemma init_clear (c d : CacheDB T) : (cd_accounts d = ∅ \/ cd_accounts d = strip <$> cd_accounts c) ->
  (CacheDB_clear_into_snapshot c).1.(cd_contracts) ⊆ cd_contracts d -> cd_contracts d ⊆ cd_contracts c ->
  cd_logs d = cd_logs c -> cd_db d = cd_db c ->
  CacheDB_init_from_snapshot d (CacheDB_clear_into_snapshot c).2 = stripped c.
Proof.
  intros Hacc Hlow Hup Hlogs Hdb. unfold CacheDB_clear_into_snapshot, CacheDB_init_from_snapshot in *.
  pose proof (clear_fold (cd_contracts c) (map_to_list (cd_accounts c)) (cd_contracts c)
    (mkStateSnapshot ∅ ∅ (cd_block_hashes c)) (NoDup_fst_map_to_list _) (reflexivity _)) as Hcl.
  cbv zeta in Hcl. destruct (foldl clear_account _ _) as [C' s]. simpl in *.
  destruct Hcl as [K1 K2 K3 K4]. rewrite list_to_map_to_list in K3.
  destruct (restore_fold (sn_storage s) (map_to_list (sn_accounts s)) d (NoDup_fst_map_to_list _)) as (R1 & R2 & R3).
  destruct (restore_contracts (sn_storage s) (map_to_list (sn_accounts s)) d (cd_contracts c) Hup) as (Q1 & Q2 & Q3).
  { intros a i b Hi%elem_of_map_to_list Hb. specialize (K3 a). destruct (cd_accounts c !! a) as [x|].
    - destruct K3 as (o & E & Ho & _). rewrite Hi in E. injection E as ->. simpl in *. by apply Ho.
    - destruct K3 as [E _]. by rewrite Hi in E. }
  set (c' := foldl _ _ _) in *. unfold set_block_hashes, stripped. f_equal; try congruence.
  - apply map_eq. intros a. rewrite R1, list_to_map_to_list, lookup_fmap. specialize (K3 a).
    destruct (cd_accounts c !! a) as [x|] eqn:Ex; simpl.
    + destruct K3 as (o & -> & _ & ->). done.
    + destruct K3 as [-> _]. destruct Hacc as [-> | ->]; [done|]. by rewrite lookup_fmap, Ex.
  - apply (anti_symm (⊆)); [done|]. apply map_subseteq_spec. intros h b Hb.
    destruct (K2 h b Hb) as [Hl|(a & i & Hi & <- & Hc)]; [|by eapply Q3].
    eapply map_subseteq_spec; [exact Q1|]. by eapply map_subseteq_spec.
  - exact K4.
Qed.

Lemma clear_contracts (c : CacheDB T) : (CacheDB_clear_into_snapshot c).1.(cd_contracts) ⊆ cd_contracts c /\
  (CacheDB_clear_into_snapshot c).1.(cd_accounts) = ∅ /\ (CacheDB_clear_into_snapshot c).1.(cd_logs) = cd_logs c /\
  (CacheDB_clear_into_snapshot c).1.(cd_db) = cd_db c.
Proof.
  unfold CacheDB_clear_into_snapshot. pose proof (clear_fold (cd_contracts c) (map_to_list (cd_accounts c)) (cd_contracts c)
    (mkStateSnapshot ∅ ∅ (cd_block_hashes c)) (NoDup_fst_map_to_list _) (reflexivity _)) as Hcl.
  cbv zeta in Hcl. destruct (foldl clear_account _ _) as [C' s]. simpl in *. by destruct Hcl.
Qed.

#[export] Instance CacheDB_SnapshotLaws : SnapshotLaws (CacheDB T).
Proof.
  refine {| restored := stripped |}.
  - intros c. destruct (clear_contracts c) as (H1 & H2 & H3 & H4). apply init_clear; auto.
  - intros c. destruct (clear_contracts c) as (H1 & _). apply init_clear; auto.
Defined.
End disk.

(** ** Accounts *)
Section accounts.
Context {T : Type} {HR : DatabaseRef T}.

Lemma insert_account_info_eq (c : CacheDB T) a i :
  insert_account_info c a i = mkCacheDB
    (<[a := mkDbAccount (committed_info i) (da_account_state (entry_or_default c a))
              (da_storage (entry_or_default c a))]> (cd_accounts c))
    (add_code (cd_contracts c) (fresh_code i)) (cd_logs c) (cd_block_hashes c) (cd_db c).
Proof. unfold insert_account_info. by rewrite insert_contract_eq. Qed.

(** A setter is read back, unless the account is marked as missing. *)
Lemma basic_insert (c : CacheDB T) a i :
  (CacheDB_basic (insert_account_info c a i) a).1 =
  inl (if bool_decide (da_account_state (entry_or_default c a) = NotExisting)
       then None else Some (committed_info i)).
Proof.
  rewrite insert_account_info_eq. unfold CacheDB_basic, load_account. simpl.
  rewrite lookup_insert_eq. unfold DbAccount_info. simpl.
  by destruct (da_account_state (entry_or_default c a)).
Qed.
End accounts.

Section memdb.
Context {HC : Crypto} {HT : Tries}.

#[export] Instance MemDb_SnapshotLaws : SnapshotLaws MemDb.
Proof.
  refine {| restored m := mkMemDb (restored (inner m)) (snapshots m) |}.
  - intros m. simpl. pose proof (init_cleared (inner m)) as H. simpl in H.
    destruct (CacheDB_clear_into_snapshot (inner m)) as [c s]. simpl in *. by rewrite H.
  - intros m. simpl. pose proof (init_restored (inner m)) as H. simpl in H.
    destruct (CacheDB_clear_into_snapshot (inner m)) as [c s]. simpl in *. by rewrite H.
Defined.

(** What [MemDb] knows of an account: everyone exists, but for those that
    destroyed themselves. *)
Definition known (m : MemDb) (a : Z) : option AccountInfo :=
  match cd_accounts (inner m) !! a with
  | Some acc => DbAccount_info acc
  | None => Some AccountInfo_default
  end.

Lemma db_basic_known m a : (db_basic m a).1 = inl (known m a).
Proof.
  simpl. unfold CacheDB_basic, load_account, known.
  destruct (cd_accounts (inner m) !! a); [done|]. simpl. by destruct (cd_db (inner m)).
Qed.

Lemma change_account_known f m a :
  (change_account f m a).1 = inl tt /\
  known (change_account f m a).2 a =
    (if bool_decide (known m a = None) then None
     else Some (committed_info (f (default AccountInfo_default (known m a))))) /\
  forall b, b <> a -> known (change_account f m a).2 b = known m b.
Proof.
  unfold change_account. pose proof (db_basic_known m a) as Hb. simpl in Hb |- *.
  unfold on_inner in *. pose proof (basic_insert (CacheDB_basic (inner m) a).2 a) as Hi.
  destruct (CacheDB_basic (inner m) a) as [r c] eqn:Ec. simpl in *. subst r. simpl.
  split; [done|].
  assert (Hc : cd_accounts c = <[a := default (DbAccount_from (Some AccountInfo_default)) (cd_accounts (inner m) !! a)]>
    (cd_accounts (inner m))).
  { unfold CacheDB_basic, load_account in Ec. destruct (cd_accounts (inner m) !! a) as [x|] eqn:Ex.
    - injection Ec as _ <-. simpl. by rewrite insert_id.
    - simpl in Ec. destruct (cd_db (inner m)). by injection Ec as _ <-. }
  rewrite insert_account_info_eq. unfold known. simpl. split.
  - rewrite lookup_insert_eq. unfold entry_or_default. rewrite Hc, lookup_insert_eq. simpl.
    destruct (cd_accounts (inner m) !! a) as [x|] eqn:Ex; simpl; [|done].
    unfold DbAccount_info. simpl. by destruct (da_account_state x).
  - intros b Hne. rewrite lookup_insert_ne by done. rewrite Hc. by rewrite lookup_insert_ne.
Qed.

(** The API cannot fund an account that has destroyed itself.  The
    commit marks it as missing; a setter answers that all is well, and the
    account stays missing.  Any other account has the new value, and nothing
    else changes. *)
Theorem set_balance_effect (m : MemDb) (a b : Z) :
  let '(r, m') := set_balance m a b in
  r = inl tt /\
  (known m a = None -> known m' a = None) /\
  (forall i, known m a = Some i -> exists i', known m' a = Some i' /\ balance i' = b /\
     nonce i' = nonce i /\ Primitives.code i' = Primitives.code i) /\
  (forall a', a' <> a -> known m' a' = known m a') /\
  forall changes x, changes !! a = Some x -> is_destroyed x = true ->
    known (set_balance (db_commit m changes) a b).2 a = None.
Proof.
  unfold set_balance. pose proof (change_account_known
    (fun info => mkAccountInfo b (nonce info) (code_hash info) (Primitives.code info))) as Hk.
  pose proof (Hk m a) as (H1 & H2 & H3). destruct (change_account _ m a) as [r m']. simpl in *.
  split; [done|]. split; [by intros E; rewrite H2, E|]. split.
  { intros i E. rewrite H2, E. simpl. by eexists. }
  split; [done|]. intros changes x Hx Hd. destruct (Hk (db_commit m changes) a) as (_ & E & _).
  simpl in E. rewrite E. case_bool_decide as Hn; [done|]. destruct Hn.
  unfold known. simpl. rewrite commit_accounts, Hx. unfold committed. by rewrite Hd.
Qed.

(** ** [MemDb] under transactions *)
Section memdb_ok.
Context {HCS : CryptoSpec}.

#[export] Instance EmptyDBWrapper_spec : DatabaseRefSpec (fun _ : EmptyDBWrapper => True).
Proof.
  split; intros [db]; intros *; intros _; simpl.
  - intros [= <-]. apply info_default_wf.
  - intros [= <-]. apply bytecode_new_wf.
  - by intros [= <-].
  - intros [= <-]. apply keccak_range.
Qed.

(** Its cache is well-formed, and its snapshots are [S]. *)
Definition memdb_ok (S : Snapshots.t FoundryEvmInMemoryDB) (m : MemDb) : Prop :=
  cache_ok (fun _ => True) (inner m) /\ snapshots m = S.

Lemma MemDb_default_ok : memdb_ok Snapshots.t_default MemDb_default.
Proof. split; [by apply CacheDB_new_ok|done]. Qed.

#[export] Instance memdb_spec S : CommitSpec (memdb_ok S).
Proof.
  split; [split|].
  - intros m a [Hc Hs]. destruct (db_basic_ok (inner m) a Hc) as [H1 H2]. split; [by split|exact H2].
  - intros m h [Hc Hs]. destruct (db_code_ok (inner m) h Hc) as [H1 H2]. split; [by split|exact H2].
  - intros m a k [Hc Hs]. destruct (db_storage_ok (inner m) a k Hc) as [H1 H2]. split; [by split|exact H2].
  - intros m n [Hc Hs]. destruct (db_block_hash_ok (inner m) n Hc) as [H1 H2]. split; [by split|exact H2].
  - intros m s [Hc Hs] Hw. split; [|done]. apply (db_commit_ok (ok := cache_ok (fun _ => True)) (inner m) s Hc Hw).
Qed.

#[export] Instance memdb_ref_spec S : DatabaseRefSpec (memdb_ok S).
Proof.
  split; intros m *; intros [Hc _].
  - exact (ref_basic_ok (ok := cache_ok (fun _ => True)) (inner m) a i Hc).
  - exact (ref_code_ok (ok := cache_ok (fun _ => True)) (inner m) h b Hc).
  - exact (ref_storage_ok (ok := cache_ok (fun _ => True)) (inner m) a k v Hc).
  - exact (ref_block_hash_ok (ok := cache_ok (fun _ => True)) (inner m) n v Hc).
Qed.

Lemma memdb_block_hash_ok S m n h : memdb_ok S m -> is_u256 h -> memdb_ok S (insert_block_hash m n h).
Proof.
  intros [[H1 H2 H3 H4] Hs] Hh. split; [|done]. split; simpl; try done. by apply map_Forall_insert_2.
Qed.
Lemma memdb_insert_ok S m a i : memdb_ok S m -> info_wf i -> memdb_ok S (insert_account m a i).
Proof.
  intros [[H1 H2 H3 H4] Hs] Hi. split; [|done]. cbn [insert_account MemDb_Db inner]. rewrite insert_account_info_eq.
  assert (Ho : account_ok (entry_or_default (inner m) a)).
  { unfold entry_or_default. destruct (cd_accounts (inner m) !! a) as [x|] eqn:Ex; [by eapply H2|].
    split; [apply info_default_wf|apply map_Forall_empty]. }
  split; simpl; [done| | |done].
  - apply map_Forall_insert_2; [|done]. split; [by apply committed_info_wf|apply Ho].
  - unfold fresh_code, add_code. destruct (Primitives.code i) as [b|] eqn:Eb; simpl; [|done].
    destruct (Bytecode_is_empty b); [done|]. destruct (cd_contracts (inner m) !! bc_hash b); [done|].
    apply map_Forall_insert_2; [|done]. by apply Hi.
Qed.
End memdb_ok.

(** ** Snapshots *)

Inductive db_op :=
| InsertAccount (a : Z) (i : AccountInfo)
| SetStorage (a k v : Z)
| InsertBlockHash (n h : Z)
| CommitChanges (changes : gmap Z Account)
| LoadAccount (a : Z)
| TakeSnapshot
| RevertTo (id : Z).
Definition run_db_op (m : MemDb) (op : db_op) : rust MemDb :=
  match op with
  | InsertAccount a i => Val (insert_account m a i)
  | SetStorage a k v => Val (set_storage_at m a k v).2
  | InsertBlockHash n h => Val (insert_block_hash m n h)
  | CommitChanges changes => Val (db_commit m changes)
  | LoadAccount a => Val (db_basic m a).2
  | TakeSnapshot => Val (snapshot m).2
  | RevertTo id => '(_, m) ← revert m id; Val m
  end.
Definition run_db (m : MemDb) (ops : list db_op) : rust MemDb :=
  foldl (fun acc op => m ← acc; run_db_op m op) (Val m) ops.

(** Snapshots have the ids given out. *)
Definition snapshots_wf (m : MemDb) : Prop :=
  0 <= Snapshots.id (snapshots m) /\
  forall j, is_Some (Snapshots.snapshots (snapshots m) !! j) -> 0 <= j < Snapshots.id (snapshots m).

Lemma lookup_delete_seq {A : Type} (M : gmap Z A) lo n j :
  foldl (fun m j => delete j m) M (seqZ lo n) !! j = if decide (lo <= j < lo + n) then None else M !! j.
Proof.
  assert (H : forall l (M : gmap Z A), foldl (fun m j => delete j m) M l !! j = if decide (j ∈ l) then None else M !! j).
  { induction l as [|k l IH]; intros M'; cbn [foldl]; [by rewrite decide_False by apply not_elem_of_nil|].
    rewrite IH, lookup_delete. repeat case_decide; set_solver. }
  rewrite H. repeat case_decide; rewrite ?elem_of_seqZ in *; done || lia.
Qed.

(** [remove] takes the snapshot and all later ones. *)
Lemma remove_spec {T : Type} (s : Snapshots.t T) i : 0 <= i < u256_modulus - 1 ->
  exists s', Snapshots.remove s i = Val (Snapshots.snapshots s !! i, s') /\ Snapshots.id s' = Snapshots.id s /\
    forall j, Snapshots.snapshots s' !! j =
      if decide (i <= j < Z.max (i + 1) (Snapshots.id s)) then None else Snapshots.snapshots s !! j.
Proof.
  intros Hi. unfold Snapshots.remove, u256_checked_add. rewrite (proj2 (Z.ltb_lt _ _)) by lia. simpl.
  eexists. split; [done|]. split; [done|]. intros j. simpl. rewrite lookup_delete_seq, lookup_delete.
  repeat case_decide; done || lia.
Qed.

(** While no snapshot up to [id] is reverted to, those are as they were. *)
Definition keeps_to (id : Z) (m m' : MemDb) : Prop :=
  Snapshots.id (snapshots m) <= Snapshots.id (snapshots m') /\
  (snapshots_wf m -> snapshots_wf m') /\
  forall j, j <= id -> Snapshots.snapshots (snapshots m') !! j = Snapshots.snapshots (snapshots m) !! j.
Definition op_after (id : Z) (op : db_op) : Prop :=
  match op with RevertTo j => id < j < u256_modulus - 1 | _ => True end.

Lemma run_db_op_keeps id m op : op_after id op -> 0 <= id < Snapshots.id (snapshots m) ->
  Snapshots.id (snapshots m) + 1 < u256_modulus -> 
  exists m', run_db_op m op = Val m' /\ keeps_to id m m' /\
    Snapshots.id (snapshots m') <= Snapshots.id (snapshots m) + 1.
Proof.
  intros Hop Hid Hmax. destruct op as [a i|a k v|n h|ch|a| |j]; simpl in *;
    try (eexists; split; [done|]; split; [done|]; simpl; lia).
  - eexists. split; [done|]. unfold u256_saturating_add. split; [|simpl; lia]. split; simpl; [lia|]. split.
    + intros [H0 Hwf]. split; simpl; [lia|]. intros j. rewrite lookup_insert. case_decide; [lia|].
      intros Hj%Hwf. lia.
    + intros j Hj. by rewrite lookup_insert_ne by lia.
  - unfold MemDb_revert. destruct (remove_spec (snapshots m) j) as (s' & -> & Ei & Hs); [lia|].
    cbn [mbind rust_bind].
    destruct (Snapshots.snapshots (snapshots m) !! j); (eexists; split; [done|]; split; [|simpl; lia]);
      (split; simpl; [lia|]; split;
        [intros [H0 Hwf]; (split; simpl; [lia|]); intros k; rewrite Hs, ?Ei; case_decide; [by intros []|apply Hwf]
        |intros k Hk; rewrite Hs; by rewrite decide_False by lia]).
Qed.

Lemma run_db_keeps id ops m : Forall (op_after id) ops -> 0 <= id < Snapshots.id (snapshots m) ->
  Snapshots.id (snapshots m) + zlen ops < u256_modulus ->
  exists m', run_db m ops = Val m' /\ keeps_to id m m'.
Proof.
  unfold run_db. intros Hops. revert m. induction Hops as [|op ops Hop _ IH]; intros m Hid Hmax; cbn [foldl].
  { by exists m. }
  unfold zlen in *. simpl in Hmax.
  destruct (run_db_op_keeps id m op Hop Hid) as (m1 & E & (K1 & W1 & K2) & Hle); [lia|]. cbn [mbind rust_bind]. rewrite E.
  destruct (IH m1) as (m2 & E2 & (K3 & W2 & K4)); [lia|lia|]. exists m2. split; [done|]. split; [lia|].
  split; [by auto|].  intros j Hj. rewrite K4 by done. by apply K2.
Qed.

(** C19: reverting to a snapshot restores the state it was taken of,
    whatever was set, committed, loaded, snapshotted and reverted to a later
    snapshot since; the snapshot and all later ones are then gone, and
    earlier ones are still there. *)
Theorem snapshot_restores (m : MemDb) (ops : list db_op) :
  let '(id, m1) := snapshot m in
  snapshots_wf m -> Forall (op_after id) ops ->
  Snapshots.id (snapshots m) + 1 + zlen ops < u256_modulus ->
  exists m2 m3, run_db m1 ops = Val m2 /\ revert m2 id = Val (true, m3) /\
    inner m3 = inner m /\
    forall j, Snapshots.snapshots (snapshots m3) !! j =
      if decide (j < id) then Snapshots.snapshots (snapshots m) !! j else None.
Proof.
  destruct (snapshot m) as [id m1] eqn:Es. intros [Hid Hwf] Hops Hmax. simpl in Es. unfold MemDb_snapshot in Es.
  simpl in Es. injection Es as <- <-. unfold u256_saturating_add. pose proof (zlen_nonneg ops) as Hlen.
  destruct (run_db_keeps (Snapshots.id (snapshots m)) ops (mkMemDb (inner m) (Snapshots.mk
    (Z.min (Snapshots.id (snapshots m) + 1) (u256_modulus - 1))
    (<[Snapshots.id (snapshots m) := inner m]> (Snapshots.snapshots (snapshots m))))) Hops) as (m2 & E & K1 & W & K2);
    [simpl; lia|simpl; lia|]. simpl in K1, K2. exists m2.
  assert (Hwf2 : snapshots_wf m2).
  { apply W. split; simpl; [lia|]. intros j. rewrite lookup_insert. case_decide; [lia|]. intros Hj%Hwf. lia. }
  simpl. unfold MemDb_revert. destruct (remove_spec (snapshots m2) (Snapshots.id (snapshots m))) as (s' & -> & Ei & Hs);
    [lia|]. cbn [mbind rust_bind]. rewrite (K2 (Snapshots.id (snapshots m))), lookup_insert_eq by lia.
  eexists. split; [done|]. split; [done|]. split; [done|]. intros j. simpl. rewrite Hs.
  destruct (decide (j < Snapshots.id (snapshots m))) as [Hj|Hj].
  - rewrite decide_False by lia. rewrite K2 by lia. by rewrite lookup_insert_ne by lia.
  - case_decide as Hin; [done|]. apply eq_None_not_Some. intros Hj'%Hwf2. lia.
Qed.

(** An id that is not that of a snapshot is refused only after all
    later snapshots have been dropped; and the largest id is not refused,
    it panics. *)
Theorem revert_unknown_id (m : MemDb) :
  (forall i, 0 <= i < u256_modulus - 1 -> Snapshots.snapshots (snapshots m) !! i = None ->
    exists m', revert m i = Val (false, m') /\ inner m' = inner m /\
      forall j, i < j < Snapshots.id (snapshots m) -> Snapshots.snapshots (snapshots m') !! j = None) /\
  revert m (u256_modulus - 1) = Panic.
Proof.
  split; [|done]. intros i Hi Hn. simpl. unfold MemDb_revert.
  destruct (remove_spec (snapshots m) i Hi) as (s' & -> & _ & Hs). cbn [mbind rust_bind]. rewrite Hn.
  eexists. split; [done|]. split; [done|]. intros j Hj. simpl. rewrite Hs. by rewrite decide_True by lia.
Qed.

(** ** Dump and load *)

Definition code_of (c : FoundryEvmInMemoryDB) (x : DbAccount) : Bytecode :=
  match Primitives.code (da_info x) with
  | Some b => b
  | None => default Bytecode_new (cd_contracts c !! code_hash (da_info x))
  end.
Definition code_fits (b : Bytecode) : Prop :=
  match bc_state b with
  | Raw => True
  | Checked len | Analysed len _ => 0 <= len <= zlen (bc_bytecode b)
  end.
Definition bytes_of (b : Bytecode) : list Z :=
  match Bytecode_original_bytes b with Val l => l | _ => [] end.
Definition dump_record (c : FoundryEvmInMemoryDB) (x : DbAccount) : SerializableAccountRecord :=
  mkSerializableAccountRecord (nonce (da_info x)) (balance (da_info x)) (bytes_of (code_of c x)) (da_storage x).

Lemma checked_bytes b : code_fits b ->
  slice (bc_bytecode (Bytecode_to_checked b)) 0 (Bytecode_len (Bytecode_to_checked b)) = Val (bytes_of b) /\
  Bytecode_original_bytes b = Val (bytes_of b).
Proof.
  intros Hb. unfold bytes_of, Bytecode_original_bytes, code_fits in *.
  destruct (bc_state b) as [|len|len jm] eqn:Es; [|unfold Bytecode_to_checked; rewrite Es; unfold Bytecode_len;
    rewrite Es; rewrite slice_val by lia; done..].
  rewrite to_checked_padded by done. unfold Bytecode_to_checked. rewrite Es. unfold Bytecode_len. simpl.
  rewrite slice_val; [|split; [lia|apply zlen_nonneg]|unfold zlen; rewrite length_app; lia].
  split; [|done]. f_equal. rewrite Z.sub_0_r. unfold zlen. rewrite Nat2Z.id, drop_0. by rewrite take_app_length.
Qed.

Lemma dump_account_eq c x : code_fits (code_of c x) -> dump_account c x = Val (inl (dump_record c x)).
Proof.
  intros Hc. unfold dump_account, dump_record. destruct (checked_bytes _ Hc) as [Hs _].
  assert (E : (match Primitives.code (da_info x) with Some code => inl code
    | None => ref_code_by_hash c (code_hash (da_info x)) end) = inl (code_of c x)).
  { unfold code_of. destruct (Primitives.code (da_info x)); [done|]. simpl. destruct (cd_db c).
    by destruct (cd_contracts c !! _). }
  rewrite E. by rewrite Hs.
Qed.

Lemma dump_accounts_eq c l : Forall (fun kx => code_fits (code_of c kx.2)) l ->
  dump_accounts c l = Val (inl (list_to_map (prod_map Datatypes.id (dump_record c) <$> l))).
Proof.
  induction 1 as [|[k x] l Hx _ IH]; [done|]. cbn [dump_accounts]. rewrite dump_account_eq by done.
  cbn [mbind rust_bind]. rewrite IH. done.
Qed.

(** A loaded account. *)
Definition loaded_entry (r : SerializableAccountRecord) : DbAccount :=
  mkDbAccount (committed_info (mkAccountInfo (sr_balance r) (sr_nonce r) KECCAK_EMPTY
    (if zlen (sr_code r) =? 0 then None else Some (Bytecode_to_checked (Bytecode_new_raw (sr_code r))))))
    StateNone (sr_storage r).

Lemma set_slots_eq l (m : MemDb) a x : cd_accounts (inner m) !! a = Some x ->
  set_slots m a l = (inl tt, mkMemDb (set_account (inner m) a (mkDbAccount (da_info x) (da_account_state x)
    (foldl (fun s '(k, v) => <[k := v]> s) (da_storage x) l))) (snapshots m)).
Proof.
  revert m x. induction l as [|[k v] l IH]; intros m x Hx; cbn [set_slots foldl].
  { f_equal. destruct m as [[ac cs lo bh d] sn], x. unfold set_account, set_accounts. simpl in *. by rewrite insert_id. }
  simpl. unfold on_inner, insert_account_storage, load_account. rewrite Hx. simpl.
  rewrite (IH _ (mkDbAccount (da_info x) (da_account_state x) (<[k := v]> (da_storage x))))
    by (simpl; by rewrite lookup_insert_eq).
  unfold set_account, set_accounts. simpl. by rewrite insert_insert_eq.
Qed.

Lemma insert_all {A : Type} (l : list (Z * A)) (M : gmap Z A) : NoDup l.*1 ->
  foldl (fun s '(k, v) => <[k := v]> s) M l = list_to_map l ∪ M.
Proof.
  revert M. induction l as [|[k v] l IH]; intros M Hnd; cbn [foldl]; [by rewrite list_to_map_nil, (left_id_L ∅ (∪))|].
  apply NoDup_cons in Hnd as [Hk Hnd]. rewrite IH, list_to_map_cons by done.
  rewrite <- insert_union_l, insert_union_r; [done|]. by apply not_elem_of_list_to_map_1.
Qed.

Lemma btree_entries_map {A : Type} (M : gmap Z A) :
  NoDup (btree_entries M).*1 /\ list_to_map (btree_entries M) = M.
Proof.
  assert (Hp : btree_entries M ≡ₚ map_to_list M) by apply merge_sort_Permutation.
  assert (Hnd : NoDup (btree_entries M).*1) by (rewrite Hp; apply NoDup_fst_map_to_list).
  split; [done|]. etrans; [by apply (list_to_map_proper _ _ Hnd Hp)|]. apply list_to_map_to_list.
Qed.

(** Loading one account into a database that lacks it. *)
Lemma load_one (m : MemDb) a r : cd_accounts (inner m) !! a = None -> 0 <= sr_nonce r ->
  set_slots (insert_account m a (loaded_account m a r)) a (btree_entries (sr_storage r)) =
  (inl tt, mkMemDb (mkCacheDB (<[a := loaded_entry r]> (cd_accounts (inner m)))
    (add_code (cd_contracts (inner m)) (fresh_code (loaded_account m a r)))
    (cd_logs (inner m)) (cd_block_hashes (inner m)) (cd_db (inner m))) (snapshots m)).
Proof.
  intros Ha Hn. assert (El : loaded_account m a r = mkAccountInfo (sr_balance r) (sr_nonce r) KECCAK_EMPTY
    (if zlen (sr_code r) =? 0 then None else Some (Bytecode_to_checked (Bytecode_new_raw (sr_code r))))).
  { unfold loaded_account. simpl. rewrite Ha. simpl. destruct (cd_db (inner m)). simpl. by rewrite Z.max_r. }
  destruct (btree_entries_map (sr_storage r)) as [Hnd Hm]. cbn [insert_account MemDb_Db].
  rewrite insert_account_info_eq. unfold entry_or_default. rewrite Ha. simpl.
  erewrite set_slots_eq by (simpl; by rewrite lookup_insert_eq). simpl.
  unfold set_account, set_accounts. simpl. rewrite insert_insert_eq, insert_all, Hm, (right_id_L ∅ (∪)) by done.
  unfold loaded_entry. by rewrite <- El.
Qed.

Lemma add_code_keeps C o h b : C !! h = Some b -> add_code C o !! h = Some b.
Proof.
  intros Hb. destruct o as [d|]; [|done]. simpl. destruct (C !! bc_hash d) eqn:Ed; [done|].
  rewrite lookup_insert_ne by congruence. done.
Qed.

Lemma load_accounts_spec l (m : MemDb) : NoDup l.*1 ->
  (forall a r, (a, r) ∈ l -> cd_accounts (inner m) !! a = None /\ 0 <= sr_nonce r) ->
  exists m', load_accounts m l = (inl true, m') /\
    (forall a, cd_accounts (inner m') !! a =
      match list_to_map (M := gmap Z SerializableAccountRecord) l !! a with
      | Some r => Some (loaded_entry r)
      | None => cd_accounts (inner m) !! a
      end) /\
    forall h b, cd_contracts (inner m) !! h = Some b -> cd_contracts (inner m') !! h = Some b.
Proof.
  revert m. induction l as [|[a r] l IH]; intros m Hnd Hl; [by exists m|].
  apply NoDup_cons in Hnd as [Ha Hnd]. destruct (Hl a r ltac:(left)) as [Hm Hn].
  cbn [load_accounts]. rewrite load_one by done. set (m1 := mkMemDb _ _).
  destruct (IH m1 Hnd) as (m' & -> & H1 & H2).
  { intros b q Hq. destruct (Hl b q ltac:(by right)) as [Hb Hq']. split; [|done]. simpl.
    rewrite lookup_insert_ne; [done|]. intros ->. apply Ha, list_elem_of_fmap. by exists (b, q). }
  exists m'. split; [done|]. split.
  - intros b. rewrite H1, list_to_map_cons, lookup_insert. simpl. rewrite lookup_insert. case_decide as Eb; [|done].
    subst. by rewrite not_elem_of_list_to_map_1.
  - intros h b Hb. apply H2. simpl. by apply add_code_keeps.
Qed.

Lemma loaded_code (c : FoundryEvmInMemoryDB) r : cd_contracts c !! KECCAK_EMPTY = Some Bytecode_new ->
  Bytecode_original_bytes (code_of c (loaded_entry r)) = Val (sr_code r).
Proof.
  intros Hc. unfold code_of, loaded_entry, committed_info. simpl. destruct (Z.eqb_spec (zlen (sr_code r)) 0) as [E|E]; simpl.
  - rewrite Hc. destruct (sr_code r); [done|]. unfold zlen in E. simpl in E. lia.
  - destruct (checked_bytes (Bytecode_new_raw (sr_code r)) I) as [Hs _].
    unfold Bytecode_original_bytes, bytes_of in *. exact Hs.
Qed.

(** C20: dumping the state of a node and loading it into a fresh one gives
    back every account: balance, nonce, storage, and the code it runs. *)
Theorem dump_load_roundtrip (m : MemDb) :
  (forall a x, cd_accounts (inner m) !! a = Some x ->
    code_fits (code_of (inner m) x) /\ 0 <= nonce (da_info x)) ->
  exists st m', dump_state m = Val (inl (Some st)) /\ load_state MemDb_default st = (inl true, m') /\
  forall a, match cd_accounts (inner m) !! a with
    | None => cd_accounts (inner m') !! a = None
    | Some x => exists y, cd_accounts (inner m') !! a = Some y /\
        balance (da_info y) = balance (da_info x) /\ nonce (da_info y) = nonce (da_info x) /\
        da_storage y = da_storage x /\
        Bytecode_original_bytes (code_of (inner m') y) = Bytecode_original_bytes (code_of (inner m) x)
    end.
Proof.
  intros Hm. set (c := inner m) in *. pose (st := dump_record c <$> cd_accounts c).
  destruct (btree_entries_map st) as [Hnd Hst].
  destruct (load_accounts_spec (btree_entries st) MemDb_default Hnd) as (m' & El & Hacc & Hcode).
  { intros a r Hr. split; [done|]. apply (elem_of_list_to_map_1 (M := gmap Z)) in Hr; [|done].
    rewrite Hst in Hr. unfold st in Hr. rewrite lookup_fmap in Hr. apply fmap_Some in Hr as (x & Hx & ->).
    by destruct (Hm a x Hx). }
  exists st, m'. split; [|split; [done|]].
  - simpl. unfold MemDb_dump_state. fold c. rewrite dump_accounts_eq.
    + cbn [mbind rust_bind]. unfold st. do 3 f_equal. rewrite <- map_to_list_fmap. apply list_to_map_to_list.
    + apply Forall_forall. intros [a x] Hx%elem_of_map_to_list. by destruct (Hm a x Hx).
  - intros a. rewrite Hacc, Hst. unfold st. rewrite lookup_fmap. destruct (cd_accounts c !! a) as [x|] eqn:Ex; [|done].
    simpl. eexists. split; [done|]. split; [done|]. split; [done|]. split; [done|].
    destruct (checked_bytes _ (proj1 (Hm a x Ex))) as [_ ->]. rewrite loaded_code; [done|]. by apply Hcode.
Qed.
End memdb.

(** ** Examples *)
Section examples.
#[local] Instance no_tries : Tries := { state_merkle_trie_root _ := 0 }.

(** A disk that is written at once, if [prompt], or never: its directories,
    by number. *)
Definition disk_of (prompt : bool) : FileSystem := {|
  files := list (gmap Z StateSnapshot);
  files_at_start := [];
  Path := unit;
  TempDir := nat;
  home_dir := None;
  join p _ := p;
  create_dir_all f _ := (true, f);
  tempdir_in f _ := (Some (length f), f ++ [∅]);
  tempdir f := (Some (length f), f ++ [∅]);
  spawn_write_json_file f d h x := if prompt then alter (<[h := x]>) d f else f;
  read_json_file f d h := (m ← f !! d; m !! h, f);
  remove_file f d h := alter (delete h) d f;
|}.
Lemma disk_of_spec prompt : FileSystemSpec (HFI := disk_of prompt).
Proof.
  refine {| file_written (f : @files (disk_of prompt)) (d : @TempDir (disk_of prompt)) h x :=
    (m ← (f : list (gmap Z StateSnapshot)) !! d; m !! h) = Some x |}.
  - intros f d h x [= <-]. cbn [snd tempdir tempdir_in disk_of]. rewrite list_lookup_middle by done. cbn. intros E. by rewrite lookup_empty in E.
  - intros f p d h x [= <-]. cbn [snd tempdir tempdir_in disk_of]. rewrite list_lookup_middle by done. cbn. intros E. by rewrite lookup_empty in E.
  - intros f d h x k y. cbn in *. destruct prompt; [|intros Hw; by left]. rewrite list_lookup_alter_eq.
    destruct (f !! d) as [m|]; [|intros [=]]. cbn. destruct (decide (k = h)) as [->|Hne].
    + rewrite lookup_insert_eq. intros [= <-]. by right.
    + rewrite lookup_insert_ne by done. intros Hw. by left.
  - done.
  - done.
  - intros f d h k y. cbn in *. rewrite list_lookup_alter_eq.
    destruct (f !! d) as [m|]; [|intros [=]]. cbn. rewrite lookup_delete. by case_decide.
Defined.
#[local] Instance map_disk : FileSystem := disk_of true.
#[local] Instance map_disk_spec : FileSystemSpec := disk_of_spec true.

(** Account 5 has code and storage. *)
Definition example_info : AccountInfo :=
  mkAccountInfo 1000 3 KECCAK_EMPTY (Some (Bytecode_new_raw [0x60; 1; 0x00])).
Definition example_memdb : MemDb :=
  (set_storage_at (insert_account MemDb_default 5 example_info) 5 7 8).2.

(** Three states with room for two in memory. *)
Definition example_states : list (states_op (StateDb := MemDb)) :=
  [InsertState 1 MemDb_default; InsertState 2 example_memdb; GetState 1; InsertState 3 MemDb_default; GetState 1].


(** The state of block 1 is on disk by now.  On a disk that is written at
    once it is answered; with a write that is still under way, or has failed,
    the block is known and its state is not. *)
Theorem late_write_answers_nothing :
  let answered (HFI : FileSystem) :=
    s ← run_states (HFI := HFI) (start 2 false) example_states;
    Val (bool_decide (is_Some (InMemoryBlockStates.on_disk_states s !! 1)),
         bool_decide (is_Some (InMemoryBlockStates.get s 1).1)) in
  answered (disk_of true) = Val (true, true) /\ answered (disk_of false) = Val (true, false).
Proof. split; vm_compute; reflexivity. Qed.

Lemma set_balance_effect_witness :
  let m := db_commit example_memdb {[ 5 := mkAccount example_info ∅ true true true false ]} in
  known (set_balance example_memdb 5 77).2 6 = known example_memdb 6 /\
  known (set_balance m 5 77).2 5 = None.
Proof.
  pose proof (set_balance_effect example_memdb 5 77) as H.
  destruct (set_balance example_memdb 5 77) as [r m']. destruct H as (_ & _ & _ & H1 & H2).
  split; [by apply H1|]. by eapply (H2 {[ 5 := mkAccount example_info ∅ true true true false ]}); [apply lookup_singleton_eq|].
Defined.

Lemma snapshot_restores_witness :
  exists m2 m3, run_db (snapshot example_memdb).2
      [InsertAccount 5 AccountInfo_default; TakeSnapshot; SetStorage 5 7 9; RevertTo 1; LoadAccount 6] = Val m2 /\
    revert m2 0 = Val (true, m3) /\ inner m3 = inner example_memdb.
Proof.
  destruct (snapshot_restores example_memdb
    [InsertAccount 5 AccountInfo_default; TakeSnapshot; SetStorage 5 7 9; RevertTo 1; LoadAccount 6])
    as (m2 & m3 & H1 & H2 & H3 & _).
  - split; [done|]. intros j [x Hx]. done.
  - repeat constructor.
  - done.
  - by exists m2, m3.
Defined.

Lemma revert_unknown_id_witness :
  exists m', revert (snapshot (snapshot example_memdb).2).2 5 = Val (false, m') /\
    revert example_memdb (u256_modulus - 1) = Panic.
Proof.
  destruct (revert_unknown_id (snapshot (snapshot example_memdb).2).2) as [H _].
  destruct (H 5) as (m' & E & _); [done|reflexivity|]. exists m'. split; [exact E|].
  apply (revert_unknown_id example_memdb).
Defined.

Lemma dump_load_roundtrip_witness : exists st m',
  dump_state example_memdb = Val (inl (Some st)) /\ load_state MemDb_default st = (inl true, m').
Proof.
  destruct (dump_load_roundtrip example_memdb) as (st & m' & H1 & H2 & _); [|by exists st, m'].
  assert (H : map_Forall (fun _ x => code_fits (code_of (inner example_memdb) x) /\ 0 <= nonce (da_info x))
    (cd_accounts (inner example_memdb))); [|done].
  apply map_Forall_insert_2; [split; [exact I|done]|]. apply map_Forall_insert_2; [split; [exact I|done]|apply map_Forall_empty].
Defined.
End examples.
