(* ===== verification/ChainSpec.v ===== *)
(** * Sequences of transactions

    A node runs one transaction after another and commits the changes of
    each; with a well-behaved database it only ever stops for the
    administrator's precompile.  The cache over a read-only database is an
    instance, and so are the examples of what the cache does with destroyed
    accounts. *)

From stdpp Require Import base option list gmap.
From Stdlib Require Import ZArith Lia.
From S2P Require Import Prelude Primitives Gas EvmMemory Analysis Interpreter Safety Execution Precompile PrecompileSpec Journal JournalRevert JournalSafe EvmImpl CacheDB EvmSafety TransactSpec CacheDBSpec EvmTable.
Import EVMImpl.

Section chain.
Context {DB : Type} {HDB : Database DB} {HCO : DatabaseCommit DB} {HC : Crypto}.

(** One transaction and its commit, with a table of precompiles. *)
Definition run_commit (SPEC : SpecId) (pcs : Precompiles) (db : DB) (st : admin.Statics) (e : Env) :
  rust ((ExecutionResult.t + EVMError db_error) * DB * admin.Statics) :=
  '(out, d) ← transact SPEC (new SPEC db e pcs st);
  Val (match out with
       | inl rs => (inl (rs_result rs), db_commit (d_db d) (rs_state rs), d_statics d)
       | inr x => (inr x, d_db d, d_statics d)
       end).

(** That is what the node does, with the table of its fork. *)
Lemma run_commit_evm {HX : HashCrates} {HB : Bn} {HO : Os} (e : Env) (db : DB) (st : admin.Statics) :
  let SPEC := evm_inner_spec (cfg_spec_id (env_cfg e)) in
  ('(out, evm, st) ← EVM.transact_commit (EVM.mk e (Some db)) st; Val (out, EVM.db evm, st)) =
  ('(out, db, st) ← run_commit SPEC (Precompiles_new (to_precompile_id SPEC)) db st e;
   Val (out, Some db, st)).
Proof.
  intros SPEC. unfold EVM.transact_commit, EVM.transact, run_commit, EVM.evm_inner. simpl.
  fold SPEC. by destruct (transact SPEC _) as [[[rs|x] d]| | |].
Qed.

Fixpoint run_chain (SPEC : SpecId) (pcs : Precompiles) (db : DB) (st : admin.Statics) (txs : list Env) :
  rust (list (ExecutionResult.t + EVMError db_error) * DB * admin.Statics) :=
  match txs with
  | [] => Val ([], db, st)
  | e :: txs =>
      '(out, db, st) ← run_commit SPEC pcs db st e;
      '(outs, db, st) ← run_chain SPEC pcs db st txs;
      Val (out :: outs, db, st)
  end.

Context {HCS : CryptoSpec} (ok : DB -> Prop) {HS : CommitSpec ok} (SPEC : SpecId).

(** The outcome of a transaction: an error, which a missing prevrandao is
    not, or a result within the limit. *)
Definition within_limit (e : Env) (out : ExecutionResult.t + EVMError db_error) : Prop :=
  match out with
  | inl r => 0 <= ExecutionResult.gas_used r <= tx_gas_limit (env_tx e)
  | inr x => x <> PrevrandaoNotSet
  end.

Definition coinbase_answers (e : Env) : Prop :=
  enabled SPEC SHANGHAI = true \/ db_answers ok (block_coinbase (env_block e)).

Lemma run_commit_returns pcs db st e :
  tx_wf SPEC e -> coinbase_answers e -> ok db -> map_Forall (fun _ => precompile_ok) pcs ->
  exists out db' st', run_commit SPEC pcs db st e = Val (out, db', st') /\
    ok db' /\ within_limit e out.
Proof.
  intros HT Hcb Hdb Hp. unfold run_commit.
  pose proof (transact_safe ok SPEC e HT (negb (enabled SPEC SPURIOUS_DRAGON))
    (new SPEC db e pcs st) (new_inv ok SPEC e _ db pcs st Hdb Hp eq_refl) Hcb) as Hs.
  unfold rwp, ewp in Hs. destruct (transact SPEC _) as [[[rs|x] d]| | |]; try done; simpl.
  - destruct Hs as (Hg & Hw & Hd & _). eexists _, _, _. split; [done|]. split; [|done].
    by apply db_commit_ok.
  - destruct Hs. eexists _, _, _. by split.
Qed.

(** The same with the tame table (see [EvmTable]). *)
Lemma run_commit_tame pcs db st e r :
  run_commit SPEC pcs db st e = Val r -> run_commit SPEC (tame <$> pcs) db st e = Val r.
Proof.
  unfold run_commit. intros E. destruct (transact SPEC (new SPEC db e pcs st)) as [[out d]| | |] eqn:Et; [|done..].
  by rewrite (transact_tame _ _ _ _ _ _ _ Et).
Qed.
Lemma run_commit_transfer pcs db st e : transfer_tx (env_tx e) -> tx_wf SPEC e ->
  run_commit SPEC (tame <$> pcs) db st e = run_commit SPEC pcs db st e.
Proof.
  intros Htr HT. unfold run_commit. rewrite transact_transfer; [|done|apply (tw_gas_limit _ _ HT)].
  by destruct (transact SPEC (new SPEC db e pcs st)) as [[out d]| | |].
Qed.

(** With a table that is fit once tamed, as those of the program are: what
    a transaction returns is in order, and transfers return. *)
Section tamed.
Context (pcs : Precompiles) (Hpcs : map_Forall (fun _ => precompile_ok) (tame <$> pcs)).
Lemma run_commit_answer db st e out db' st' :
  tx_wf SPEC e -> coinbase_answers e -> ok db -> run_commit SPEC pcs db st e = Val (out, db', st') ->
  ok db' /\ within_limit e out.
Proof.
  intros HT Hcb Hdb E%run_commit_tame.
  destruct (run_commit_returns (tame <$> pcs) db st e HT Hcb Hdb Hpcs) as (out1 & db1 & st1 & E1 & H).
  rewrite E in E1. by injection E1 as <- <- <-.
Qed.
Lemma transfer_returns db st e : tx_wf SPEC e -> coinbase_answers e -> ok db -> transfer_tx (env_tx e) ->
  exists r, run_commit SPEC pcs db st e = Val r.
Proof.
  intros HT Hcb Hdb Htr. rewrite <- (run_commit_transfer pcs db st e Htr HT).
  destruct (run_commit_returns (tame <$> pcs) db st e HT Hcb Hdb Hpcs) as (out & db' & st' & -> & _). by eexists.
Qed.
End tamed.

Definition returns {A : Type} (m : rust A) : Prop := exists a, m = Val a.

Lemma run_chain_snoc pcs db st txs e : run_chain SPEC pcs db st (txs ++ [e]) =
  ('(outs, db, st) ← run_chain SPEC pcs db st txs;
   '(out, db, st) ← run_commit SPEC pcs db st e; Val (outs ++ [out], db, st)).
Proof.
  revert db st. induction txs as [|e1 txs IH]; intros db st; simpl.
  { by destruct (run_commit SPEC pcs db st e) as [[[? ?] ?]| | |]. }
  destruct (run_commit SPEC pcs db st e1) as [[[out1 db1] st1]| | |]; simpl; [|done..]. rewrite IH.
  destruct (run_chain SPEC pcs db1 st1 txs) as [[[outs db2] st2]| | |]; simpl; [|done..].
  by destruct (run_commit SPEC pcs db2 st2 e) as [[[? ?] ?]| | |].
Qed.
Lemma returns_dec {A : Type} (m : rust A) : {returns m} + {~ returns m}.
Proof. destruct m as [a| | |]; [left; by exists a|right; by intros [a [=]]..]. Qed.

(** C6: a node keeps running, but for its administrator.  With the tables
    of the program, well-formed transactions run one after another, each
    returns a result or an error within its gas limit, its changes are
    committed and the database is fit for the next one.  The only
    transaction at which this can end before the last is one that does not
    return only because the administrator's precompile does not, as it
    returns, from the same state, when that precompile reports an error
    instead.  It does not end at transfers: calls without data or access
    list that pay for no more than themselves.  Before Shanghai the database
    has to answer about the coinbase, which is only loaded at the end. *)
Theorem chain_keeps_running {HX : HashCrates} {HXS : HashCratesSpec} {HB : Bn} {HBS : BnSpec} {HO : Os}
  (spec : PrecompileSpec.t) (db : DB) (st : admin.Statics) (txs : list Env) :
  Forall (tx_wf SPEC) txs -> Forall coinbase_answers txs -> ok db ->
  let pcs := Precompiles_new spec in
  exists n outs db' st', (n <= length txs)%nat /\
    run_chain SPEC pcs db st (take n txs) = Val (outs, db', st') /\
    ok db' /\ Forall2 within_limit (take n txs) outs /\
    (n = length txs \/ exists e, txs !! n = Some e /\ ~ transfer_tx (env_tx e) /\
       ~ returns (run_commit SPEC pcs db' st' e) /\ returns (run_commit SPEC (tame <$> pcs) db' st' e)).
Proof.
  intros Htx Hcb Hdb pcs. pose proof (tame_table_ok spec) as Hp. fold pcs in Hp.
  induction txs as [|e txs IH] using rev_ind.
  { exists 0%nat, [], db, st. simpl. split_and!; [lia|done..|by left]. }
  apply Forall_app in Htx as [Htx He]. apply Forall_app in Hcb as [Hcb Hc].
  rewrite Forall_singleton in He. rewrite Forall_singleton in Hc.
  destruct (IH Htx Hcb) as (n & outs & db' & st' & Hn & E & Hdb' & Hw & [->|(x & Hx & Hstop)]).
  2: { exists n, outs, db', st'. rewrite take_app_le by done. split_and!; [rewrite length_app; lia|done..|].
       right. exists x. split; [by apply lookup_app_l_Some|done]. }
  rewrite take_ge in E, Hw by done.
  destruct (returns_dec (run_commit SPEC pcs db' st' e)) as [[[[out db2] st2] Er]|Hnot].
  - destruct (run_commit_answer pcs Hp db' st' e out db2 st2 He Hc Hdb' Er) as [Hdb2 Hout].
    exists (length (txs ++ [e])), (outs ++ [out]), db2, st2. rewrite firstn_all. split_and!; [done| |done| |by left].
    + rewrite run_chain_snoc, E. simpl. by rewrite Er.
    + apply Forall2_app; [done|]. by constructor.
  - exists (length txs), outs, db', st'. rewrite take_app_length. split_and!; [rewrite length_app; lia|done..|].
    right. exists e. split; [by rewrite lookup_app_r, Nat.sub_diag by done|]. split; [|split; [done|]].
    + intros Htr. apply Hnot. by apply (transfer_returns pcs Hp).
    + destruct (run_commit_returns (tame <$> pcs) db' st' e He Hc Hdb' Hp) as (out & db2 & st2 & -> & _). by eexists.
Qed.
End chain.

(** ** Examples *)

(** Account 100 is rich; 700 holds 7 in every slot and destroys itself in
    favour of its caller when called. *)
#[local] Instance example_ref : DatabaseRef unit := {
  ref_error := unit;
  ref_basic _ a := inl (
    if a =? 100 then Some (mkAccountInfo (10 ^ 18) 1 KECCAK_EMPTY None)
    else if a =? 700 then Some (mkAccountInfo 0 1 5 (Some (mkBytecode [0x33; 0xff] 5 Raw)))
    else None);
  ref_code_by_hash _ _ := inl Bytecode_new;
  ref_storage _ a _ := inl (if a =? 700 then 7 else 0);
  ref_block_hash _ _ := inr tt;
}.

#[local] Instance example_ref_spec : DatabaseRefSpec (fun _ : unit => True).
Proof.
  split.
  - intros [] a i _. simpl. repeat (case_if; [intros [= <-]; split_and!; [by vm_compute..|]|]); [done| |done].
    intros c [= <-]. by apply raw_fit.
  - intros [] h b _ [= <-]. apply bytecode_new_wf.
  - intros [] a k v _. simpl. intros [= <-]. by case_if.
  - done.
Qed.

Definition example_cache : CacheDB unit := CacheDB_new tt.

Definition call_tx (nonce value : Z) : Env := mkEnv CfgEnv_default BlockEnv_default
  (mkTxEnv 100 100000 1 None (TransactCall 700) value [] None (Some nonce) []).

Lemma call_tx_wf nonce value : is_u256 value -> tx_wf LATEST (call_tx nonce value).
Proof.
  intros Hv. constructor; [|by vm_compute|exact Hv|by vm_compute|by split; [constructor|vm_compute]|by vm_compute].
  constructor; simpl; try rlia; [done|]. intros _. exists 0. split; [done|rlia].
Qed.

(** Destroy, then pay one wei. *)
Definition example_txs : list Env := [call_tx 1 0; call_tx 2 1].

Lemma example_txs_wf : Forall (tx_wf LATEST) example_txs.
Proof. by do 2 (constructor; [apply call_tx_wf; rlia|]). Qed.

#[local] Existing Instances zero_hashes zero_hashes_spec point_bn point_bn_spec willing_os.
Lemma chain_keeps_running_witness : exists n outs db' st', (n <= 2)%nat /\
  run_chain LATEST (Precompiles_new (to_precompile_id LATEST)) example_cache admin.Statics_init (take n example_txs) =
    Val (outs, db', st') /\ cache_ok (fun _ => True) db' /\ Forall2 within_limit (take n example_txs) outs.
Proof.
  destruct (chain_keeps_running (cache_ok (fun _ : unit => True)) LATEST (to_precompile_id LATEST)
    example_cache admin.Statics_init example_txs) as (n & outs & db' & st' & H1 & H2 & H3 & H4 & _).
  - apply example_txs_wf.
  - by do 2 (constructor; [by left|]).
  - by apply CacheDB_new_ok.
  - exists n, outs, db', st'. split; [exact H1|]. split; [exact H2|]. split; [exact H3|exact H4].
Defined.
(** Both run. *)
Lemma example_txs_run : match run_chain LATEST (Precompiles_new (to_precompile_id LATEST)) example_cache
  admin.Statics_init example_txs with Val (outs, _, _) => length outs = 2%nat | _ => False end.
Proof. vm_compute. reflexivity. Qed.

(** What a transaction on the example leaves to commit, and where. *)
Definition changes_of (o : rust ((ResultAndState + EVMError unit) * EVMData (DB := CacheDB unit))) :
  gmap Z Account := match o with Val (inl rs, _) => rs_state rs | _ => ∅ end.
Definition cache_of (o : rust ((ResultAndState + EVMError unit) * EVMData (DB := CacheDB unit))) :
  CacheDB unit := match o with Val (_, d) => d_db d | _ => example_cache end.

Definition run_example (c : CacheDB unit) (e : Env) :=
  transact LATEST (new LATEST c e ∅ admin.Statics_init).
Definition first_run := run_example example_cache (call_tx 1 0).
Definition after_first : CacheDB unit := commit (cache_of first_run) (changes_of first_run).
Definition second_run := run_example after_first (call_tx 2 1).

Lemma destroyed_storage_resurfaces_witness :
  ref_storage example_cache 700 3 = inl 7 /\ ref_storage after_first 700 3 = inl 0 /\
  ref_storage (commit after_first (changes_of second_run)) 700 3 = inl 7.
Proof.
  split; [reflexivity|].
  assert (H1 : is_destroyed <$> changes_of first_run !! 700 = Some true) by (vm_compute; reflexivity).
  assert (H2 : (fun y => (is_destroyed y, storage_cleared y, storage y !! 3)) <$>
    changes_of second_run !! 700 = Some (false, false, None)) by (vm_compute; reflexivity).
  destruct (changes_of first_run !! 700) as [x|] eqn:E1; [|discriminate H1].
  destruct (changes_of second_run !! 700) as [y|] eqn:E2; [|discriminate H2].
  injection H1 as Hx. injection H2 as Hy Hc Hk.
  destruct (destroyed_storage_resurfaces (cache_of first_run) _ _ 700 3 x y E1 Hx E2 Hy Hc Hk)
    as [Ha Hb].
  split; [exact Ha|]. etrans; [exact Hb|reflexivity].
Defined.

(** Two accounts with the same code are changed. *)
Definition example_code : Bytecode := mkBytecode [0x33; 0xff] 5 Raw.
Definition example_account (bal : Z) : Account := mkAccount
  (mkAccountInfo bal 1 0 (Some example_code)) {[ 3 := mkStorageSlot 7 9 ]} false false true false.
Definition example_changes : gmap Z Account :=
  <[ 700 := example_account 1 ]> {[ 800 := example_account 2 ]}.

Lemma example_changes_determine : hashes_determine example_changes.
Proof.
  assert (Hc : map_Forall (fun _ x => committed_code x = Some example_code) example_changes).
  { apply map_Forall_insert_2; [done|]. by apply map_Forall_singleton. }
  intros a x b a' x' b' Hx Hx' Hb Hb' _. pose proof (Hc _ _ Hx). pose proof (Hc _ _ Hx'). congruence.
Qed.

Lemma commit_order_irrelevant_witness :
  commit_account (commit_account example_cache 800 (example_account 2)) 700 (example_account 1) =
  commit example_cache example_changes /\
  commit_account (commit_account example_cache 700 (example_account 1)) 800 (example_account 2) =
  commit example_cache example_changes.
Proof.
  assert (Hp : [(700, example_account 1); (800, example_account 2)] ≡ₚ map_to_list example_changes).
  { symmetry. etrans; [by apply map_to_list_insert|]. by rewrite map_to_list_singleton. }
  split.
  - apply (commit_order_irrelevant example_cache example_changes
      [(800, example_account 2); (700, example_account 1)]); [apply example_changes_determine|].
    etrans; [apply perm_swap|exact Hp].
  - apply (commit_order_irrelevant example_cache example_changes
      [(700, example_account 1); (800, example_account 2)]); [apply example_changes_determine|exact Hp].
Defined.

Lemma committed_code_readable_witness :
  exists i, (CacheDB_basic (commit example_cache example_changes) 800).1 = inl (Some i) /\
    CacheDB_code_by_hash (commit example_cache example_changes) (Primitives.code_hash i) =
      (inl example_code, commit example_cache example_changes).
Proof.
  apply (committed_code_readable example_cache example_changes 800 (example_account 2));
    [apply example_changes_determine|intros d [=]|reflexivity..|done].
Defined.

(** Read, commit, read again. *)
Definition example_ops : list operation :=
  [Query (SlotOf 700 3); Commit example_changes; Query (SlotOf 700 3); Query (SlotOf 700 4);
   Query (BasicOf 900)].

Lemma cache_refines_world_witness :
  cache_run example_cache example_ops = world_run (world_of example_cache) example_ops /\
  cache_run example_cache example_ops =
    [ASlot (inl 7); ASlot (inl 9); ASlot (inl 7); ABasic (inl None)].
Proof.
  split; [|vm_compute; reflexivity].
  apply (cache_refines_world example_cache example_ops).
  - intros a k. simpl. case_if; [done|]. by destruct (a =? 700).
  - done.
  - repeat constructor. intros a x. assert (Hc : map_Forall (fun _ x => is_destroyed x = false) example_changes).
    { apply map_Forall_insert_2; [done|]. by apply map_Forall_singleton. }
    intros Hx Hd. specialize (Hc _ _ Hx). simpl in Hc. congruence.
Defined.
