(* ===== verification/EthTransaction.v ===== *)
(** * Signed transactions: [anvil/core/src/eth/transaction/mod.rs]

    The three kinds of transaction the node accepts, what the pool and the
    block builder read of them, and the environment the EVM runs them in.
    The sender and the hash are data of [PendingTransaction]; Codec.v has the
    encodings, the hashes and the recovery that they come from. *)

From stdpp Require Import base option list.
From Stdlib Require Import ZArith Lia.
From S2P Require Import Prelude Primitives.

(** [U256::as_u64] panics on a larger number. *)
Definition as_u64 (x : Z) : rust Z := if x <? u64_modulus then Val x else Panic.

Module TransactionKind.
Inductive t := Call (to : Z) | Create.
#[global] Instance t_eq_dec : EqDecision t.
Proof. solve_decision. Defined.
End TransactionKind.

Record Signature := mkSignature { sig_r : Z; sig_s : Z; sig_v : Z }.

(** Addresses with their storage keys. *)
Definition AccessList : Type := list (Z * list Z).

Record LegacyTransaction := mkLegacyTransaction {
  lt_nonce : Z;
  lt_gas_price : Z;
  lt_gas_limit : Z;
  lt_kind : TransactionKind.t;
  lt_value : Z;
  lt_input : list Z;
  lt_signature : Signature;
}.

Record EIP2930Transaction := mkEIP2930Transaction {
  at_chain_id : Z;
  at_nonce : Z;
  at_gas_price : Z;
  at_gas_limit : Z;
  at_kind : TransactionKind.t;
  at_value : Z;
  at_input : list Z;
  at_access_list : AccessList;
  at_odd_y_parity : bool;
  at_r : Z;
  at_s : Z;
}.

Record EIP1559Transaction := mkEIP1559Transaction {
  ft_chain_id : Z;
  ft_nonce : Z;
  ft_max_priority_fee_per_gas : Z;
  ft_max_fee_per_gas : Z;
  ft_gas_limit : Z;
  ft_kind : TransactionKind.t;
  ft_value : Z;
  ft_input : list Z;
  ft_access_list : AccessList;
  ft_odd_y_parity : bool;
  ft_r : Z;
  ft_s : Z;
}.

Definition LegacyTransaction_chain_id (tx : LegacyTransaction) : option Z :=
  if 36 <? sig_v (lt_signature tx) then Some ((sig_v (lt_signature tx) - 35) / 2) else None.
Definition meets_eip155 (tx : LegacyTransaction) (chain_id : Z) : bool :=
  let double_chain_id := u64_saturating_mul chain_id 2 in
  let v := sig_v (lt_signature tx) in
  (v =? wrap64 (double_chain_id + 35)) || (v =? wrap64 (double_chain_id + 36)).

Inductive TypedTransaction :=
| Legacy (tx : LegacyTransaction)
| EIP2930 (tx : EIP2930Transaction)
| EIP1559 (tx : EIP1559Transaction).

Module TypedTransaction.
Definition gas_price (tx : TypedTransaction) : Z :=
  match tx with
  | Legacy tx => lt_gas_price tx
  | EIP2930 tx => at_gas_price tx
  | EIP1559 tx => ft_max_fee_per_gas tx
  end.
Definition gas_limit (tx : TypedTransaction) : Z :=
  match tx with
  | Legacy tx => lt_gas_limit tx
  | EIP2930 tx => at_gas_limit tx
  | EIP1559 tx => ft_gas_limit tx
  end.
Definition value (tx : TypedTransaction) : Z :=
  match tx with
  | Legacy tx => lt_value tx
  | EIP2930 tx => at_value tx
  | EIP1559 tx => ft_value tx
  end.
Definition data (tx : TypedTransaction) : list Z :=
  match tx with
  | Legacy tx => lt_input tx
  | EIP2930 tx => at_input tx
  | EIP1559 tx => ft_input tx
  end.
(** [r#type] *)
Definition type (tx : TypedTransaction) : option Z :=
  match tx with Legacy _ => None | EIP2930 _ => Some 1 | EIP1559 _ => Some 2 end.
Definition nonce (tx : TypedTransaction) : Z :=
  match tx with
  | Legacy tx => lt_nonce tx
  | EIP2930 tx => at_nonce tx
  | EIP1559 tx => ft_nonce tx
  end.
Definition chain_id (tx : TypedTransaction) : option Z :=
  match tx with
  | Legacy tx => LegacyTransaction_chain_id tx
  | EIP2930 tx => Some (at_chain_id tx)
  | EIP1559 tx => Some (ft_chain_id tx)
  end.
Definition kind (tx : TypedTransaction) : TransactionKind.t :=
  match tx with
  | Legacy tx => lt_kind tx
  | EIP2930 tx => at_kind tx
  | EIP1559 tx => ft_kind tx
  end.
(** [TransactionKind::as_call] *)
Definition to (tx : TypedTransaction) : option Z :=
  match kind tx with TransactionKind.Call c => Some c | TransactionKind.Create => None end.
Definition signature (tx : TypedTransaction) : Signature :=
  match tx with
  | Legacy tx => lt_signature tx
  | EIP2930 tx => mkSignature (at_r tx) (at_s tx) (Z.b2z (at_odd_y_parity tx))
  | EIP1559 tx => mkSignature (ft_r tx) (ft_s tx) (Z.b2z (ft_odd_y_parity tx))
  end.
Definition as_legacy (tx : TypedTransaction) : option LegacyTransaction :=
  match tx with Legacy tx => Some tx | _ => None end.
Definition is_legacy (tx : TypedTransaction) : bool :=
  match tx with Legacy _ => true | _ => false end.
Definition is_eip1559 (tx : TypedTransaction) : bool :=
  match tx with EIP1559 _ => true | _ => false end.

(** [U256::saturating_mul] *)
Definition max_cost (tx : TypedTransaction) : Z :=
  Z.min (gas_limit tx * gas_price tx) (u256_modulus - 1).
End TypedTransaction.

Record TransactionEssentials := mkTransactionEssentials {
  te_kind : TransactionKind.t;
  te_input : list Z;
  te_nonce : Z;
  te_gas_limit : Z;
  te_gas_price : option Z;
  te_max_fee_per_gas : option Z;
  te_max_priority_fee_per_gas : option Z;
  te_value : Z;
  te_chain_id : option Z;
  te_access_list : AccessList;
}.

Definition essentials (tx : TypedTransaction) : TransactionEssentials :=
  match tx with
  | Legacy t => mkTransactionEssentials (lt_kind t) (lt_input t) (lt_nonce t) (lt_gas_limit t)
      (Some (lt_gas_price t)) None None (lt_value t) (LegacyTransaction_chain_id t) []
  | EIP2930 t => mkTransactionEssentials (at_kind t) (at_input t) (at_nonce t) (at_gas_limit t)
      (Some (at_gas_price t)) None None (at_value t) (Some (at_chain_id t)) (at_access_list t)
  | EIP1559 t => mkTransactionEssentials (ft_kind t) (ft_input t) (ft_nonce t) (ft_gas_limit t)
      None (Some (ft_max_fee_per_gas t)) (Some (ft_max_priority_fee_per_gas t)) (ft_value t)
      (Some (ft_chain_id t)) (ft_access_list t)
  end.

Record PendingTransaction := mkPendingTransaction {
  pt_transaction : TypedTransaction;
  pt_sender : Z;
  pt_hash : Z;
}.

(** [to_revm_tx_env] *)
Definition transact_to (kind : TransactionKind.t) : TransactTo :=
  match kind with
  | TransactionKind.Call c => TransactCall c
  | TransactionKind.Create => TransactCreate Create
  end.

Definition to_revm_access_list (l : AccessList) : list (Z * list Z) :=
  (fun '(address, storage_keys) => (address, storage_keys)) <$> l.

Definition to_revm_tx_env (self : PendingTransaction) : rust TxEnv :=
  let caller := pt_sender self in
  match pt_transaction self with
  | Legacy tx =>
      nonce ← as_u64 (lt_nonce tx);
      gas_limit ← as_u64 (lt_gas_limit tx);
      Val (mkTxEnv caller gas_limit (lt_gas_price tx) None (transact_to (lt_kind tx))
        (lt_value tx) (lt_input tx) (LegacyTransaction_chain_id tx) (Some nonce) [])
  | EIP2930 tx =>
      nonce ← as_u64 (at_nonce tx);
      gas_limit ← as_u64 (at_gas_limit tx);
      Val (mkTxEnv caller gas_limit (at_gas_price tx) None (transact_to (at_kind tx))
        (at_value tx) (at_input tx) (Some (at_chain_id tx)) (Some nonce)
        (to_revm_access_list (at_access_list tx)))
  | EIP1559 tx =>
      nonce ← as_u64 (ft_nonce tx);
      gas_limit ← as_u64 (ft_gas_limit tx);
      Val (mkTxEnv caller gas_limit (ft_max_fee_per_gas tx) (Some (ft_max_priority_fee_per_gas tx))
        (transact_to (ft_kind tx)) (ft_value tx) (ft_input tx) (Some (ft_chain_id tx)) (Some nonce)
        (to_revm_access_list (ft_access_list tx)))
  end.

#[global] Instance Signature_eq_dec : EqDecision Signature.
Proof. solve_decision. Defined.
#[global] Instance LegacyTransaction_eq_dec : EqDecision LegacyTransaction.
Proof. solve_decision. Defined.
#[global] Instance EIP2930Transaction_eq_dec : EqDecision EIP2930Transaction.
Proof. solve_decision. Defined.
#[global] Instance EIP1559Transaction_eq_dec : EqDecision EIP1559Transaction.
Proof. solve_decision. Defined.
#[global] Instance TypedTransaction_eq_dec : EqDecision TypedTransaction.
Proof. solve_decision. Defined.
#[global] Instance PendingTransaction_eq_dec : EqDecision PendingTransaction.
Proof. solve_decision. Defined.
