(* ===== verification/EthRequest.v ===== *)
(** * Requests for transactions: [anvil/core/src/eth/transaction/mod.rs], [anvil/src/eth/sign.rs]

    What the API is given, the typed request it makes of it
    ([into_typed_request], [build_typed_tx_request] of [anvil/src/eth/api.rs])
    and the transaction that a signature makes of that. *)

From stdpp Require Import base option list.
From Stdlib Require Import ZArith Lia.
From S2P Require Import Prelude Primitives EthTransaction.

Record EthTransactionRequest := mkEthTransactionRequest {
  rq_from : option Z;
  rq_to : option Z;
  rq_gas_price : option Z;
  rq_max_fee_per_gas : option Z;
  rq_max_priority_fee_per_gas : option Z;
  rq_gas : option Z;
  rq_value : option Z;
  rq_data : option (list Z);
  rq_nonce : option Z;
  rq_chain_id : option Z;
  rq_access_list : option AccessList;
  rq_transaction_type : option Z;
}.

Definition set_request_gas (r : EthTransactionRequest) (gas : Z) : EthTransactionRequest :=
  mkEthTransactionRequest (rq_from r) (rq_to r) (rq_gas_price r) (rq_max_fee_per_gas r)
    (rq_max_priority_fee_per_gas r) (Some gas) (rq_value r) (rq_data r) (rq_nonce r) (rq_chain_id r)
    (rq_access_list r) (rq_transaction_type r).

Record LegacyTransactionRequest := mkLegacyTransactionRequest {
  lr_nonce : Z;
  lr_gas_price : Z;
  lr_gas_limit : Z;
  lr_kind : TransactionKind.t;
  lr_value : Z;
  lr_input : list Z;
  lr_chain_id : option Z;
}.
Record EIP2930TransactionRequest := mkEIP2930TransactionRequest {
  ar_chain_id : Z;
  ar_nonce : Z;
  ar_gas_price : Z;
  ar_gas_limit : Z;
  ar_kind : TransactionKind.t;
  ar_value : Z;
  ar_input : list Z;
  ar_access_list : AccessList;
}.
Record EIP1559TransactionRequest := mkEIP1559TransactionRequest {
  fr_chain_id : Z;
  fr_nonce : Z;
  fr_max_priority_fee_per_gas : Z;
  fr_max_fee_per_gas : Z;
  fr_gas_limit : Z;
  fr_kind : TransactionKind.t;
  fr_value : Z;
  fr_input : list Z;
  fr_access_list : AccessList;
}.
Inductive TypedTransactionRequest :=
| LegacyRequest (tx : LegacyTransactionRequest)
| EIP2930Request (tx : EIP2930TransactionRequest)
| EIP1559Request (tx : EIP1559TransactionRequest).

Definition kind_of_to (to : option Z) : TransactionKind.t :=
  match to with Some to => TransactionKind.Call to | None => TransactionKind.Create end.

(** The scrutinee takes the list out of [access_list], so that the arms find
    [None] there. *)
Definition into_typed_request (r : EthTransactionRequest) : rust (option TypedTransactionRequest) :=
  transaction_type ← match rq_transaction_type r with
    | Some id => id ← as_u64 id; Val (Some id)
    | None => Val None
    end;
  let access_list : option AccessList := None in
  let kind := kind_of_to (rq_to r) in
  let nonce := default 0 (rq_nonce r) in
  let gas_limit := default 0 (rq_gas r) in
  let value := default 0 (rq_value r) in
  let input := default [] (rq_data r) in
  let legacy := Some (LegacyRequest (mkLegacyTransactionRequest nonce (default 0 (rq_gas_price r))
    gas_limit kind value input (rq_chain_id r))) in
  let eip2930 := Some (EIP2930Request (mkEIP2930TransactionRequest (default 0 (rq_chain_id r)) nonce
    (default 0 (rq_gas_price r)) gas_limit kind value input (default [] access_list))) in
  let eip1559 := Some (EIP1559Request (mkEIP1559TransactionRequest (default 0 (rq_chain_id r)) nonce
    (default 0 (rq_max_priority_fee_per_gas r)) (default 0 (rq_max_fee_per_gas r)) gas_limit kind value
    input (default [] access_list))) in
  let t0 := bool_decide (transaction_type = Some 0) in
  let t1 := bool_decide (transaction_type = Some 1) in
  let t2 := bool_decide (transaction_type = Some 2) in
  Val match transaction_type, rq_gas_price r, rq_max_fee_per_gas r, rq_max_priority_fee_per_gas r,
      rq_access_list r with
  | None, Some _, None, None, None => legacy
  | None, _, None, None, Some _ => eip2930
  | None, None, Some _, _, _ | None, None, _, Some _, _ | None, None, None, None, None => eip1559
  | None, _, _, _, _ => None
  | Some _, gas_price, max_fee, max_priority, l =>
      if t0 && bool_decide (max_fee = None) && bool_decide (max_priority = None) && bool_decide (l = None)
      then legacy
      else if t1 && bool_decide (max_fee = None) && bool_decide (max_priority = None) then eip2930
      else if t2 && bool_decide (gas_price = None) then eip1559
      else None
  end.

(** [From] the signed transactions. *)
Definition LegacyTransactionRequest_from (tx : LegacyTransaction) : LegacyTransactionRequest :=
  mkLegacyTransactionRequest (lt_nonce tx) (lt_gas_price tx) (lt_gas_limit tx) (lt_kind tx)
    (lt_value tx) (lt_input tx) (LegacyTransaction_chain_id tx).
Definition EIP2930TransactionRequest_from (tx : EIP2930Transaction) : EIP2930TransactionRequest :=
  mkEIP2930TransactionRequest (at_chain_id tx) (at_nonce tx) (at_gas_price tx) (at_gas_limit tx)
    (at_kind tx) (at_value tx) (at_input tx) (at_access_list tx).
Definition EIP1559TransactionRequest_from (t : EIP1559Transaction) : EIP1559TransactionRequest :=
  mkEIP1559TransactionRequest (ft_chain_id t) (ft_nonce t) (ft_max_priority_fee_per_gas t)
    (ft_max_fee_per_gas t) (ft_gas_limit t) (ft_kind t) (ft_value t) (ft_input t) (ft_access_list t).

(** [None] when [recovery_id], of the signature crate, fails. *)
Definition build_typed_transaction (recovery_id : Signature -> option Z)
  (request : TypedTransactionRequest) (signature : Signature) : option TypedTransaction :=
  match request with
  | LegacyRequest tx =>
      Some (Legacy (mkLegacyTransaction (lr_nonce tx) (lr_gas_price tx) (lr_gas_limit tx) (lr_kind tx)
        (lr_value tx) (lr_input tx) signature))
  | EIP2930Request tx =>
      recid ← recovery_id signature;
      Some (EIP2930 (mkEIP2930Transaction (ar_chain_id tx) (ar_nonce tx) (ar_gas_price tx)
        (ar_gas_limit tx) (ar_kind tx) (ar_value tx) (ar_input tx) (ar_access_list tx)
        (negb (recid =? 0)) (sig_r signature) (sig_s signature)))
  | EIP1559Request tx =>
      recid ← recovery_id signature;
      Some (EIP1559 (mkEIP1559Transaction (fr_chain_id tx) (fr_nonce tx) (fr_max_priority_fee_per_gas tx)
        (fr_max_fee_per_gas tx) (fr_gas_limit tx) (fr_kind tx) (fr_value tx) (fr_input tx)
        (fr_access_list tx) (negb (recid =? 0)) (sig_r signature) (sig_s signature)))
  end.

(** [build_typed_tx_request] of the API: [chain_id], [gas_limit] and
    [gas_price] are those of the backend; [None] is
    [BlockchainError::FailedToDecodeTransaction]. *)
Definition build_typed_tx_request (chain_id gas_limit gas_price : Z) (request : EthTransactionRequest)
  (nonce : Z) : rust (option TypedTransactionRequest) :=
  let chain_id := default chain_id (rq_chain_id request) in
  let gas_limit := default gas_limit (rq_gas request) in
  typed ← into_typed_request request;
  Val match typed with
  | Some (LegacyRequest m) =>
      Some (LegacyRequest (mkLegacyTransactionRequest nonce
        (match rq_gas_price request with None => gas_price | Some _ => lr_gas_price m end)
        gas_limit (lr_kind m) (lr_value m) (lr_input m) (Some chain_id)))
  | Some (EIP2930Request m) =>
      Some (EIP2930Request (mkEIP2930TransactionRequest chain_id nonce
        (match rq_gas_price request with None => gas_price | Some _ => ar_gas_price m end)
        gas_limit (ar_kind m) (ar_value m) (ar_input m) (ar_access_list m)))
  | Some (EIP1559Request m) =>
      Some (EIP1559Request (mkEIP1559TransactionRequest chain_id nonce (fr_max_priority_fee_per_gas m)
        (match rq_max_fee_per_gas request with None => gas_price | Some _ => fr_max_fee_per_gas m end)
        gas_limit (fr_kind m) (fr_value m) (fr_input m) (fr_access_list m)))
  | None => None
  end.
