(* ===== verification/Fees.v ===== *)
(** * Fees and block times of the node: [anvil/src/eth/fees.rs], [backend/time.rs]

    The base fee of the next block, the history of fees, and the times of
    blocks.  The clock is an argument.  Fee percentiles and the gas ratio,
    which the code computes with floating point, are not modelled: an entry
    of the history is any data. *)

From stdpp Require Import base option list gmap.
From Stdlib Require Import ZArith Lia.
From S2P Require Import Prelude Primitives EthTransaction.

(** ** fees.rs *)

Definition MAX_FEE_HISTORY_CACHE_SIZE : Z := 2048.
Definition INITIAL_BASE_FEE : Z := 1000000000.
Definition INITIAL_GAS_PRICE : Z := 1875000000.
Definition BASE_FEE_CHANGE_DENOMINATOR : Z := 8.
Definition EIP1559_ELASTICITY_MULTIPLIER : Z := 2.

(** Division of integers panics when the divisor is zero. *)
Definition rust_div (a b : Z) : rust Z := if b =? 0 then Panic else Val (a / b).

Definition calculate_next_block_base_fee (gas_used gas_limit base_fee : Z) : rust Z :=
  gas_target ← rust_div gas_limit EIP1559_ELASTICITY_MULTIPLIER;
  if gas_used =? gas_target then Val base_fee
  else if gas_target <? gas_used then
    let gas_used_delta := gas_used - gas_target in
    q ← rust_div (base_fee * gas_used_delta) gas_target;
    q ← rust_div q BASE_FEE_CHANGE_DENOMINATOR;
    let base_fee_delta := Z.max 1 q in
    Val (wrap64 (base_fee + wrap64 base_fee_delta))
  else
    let gas_used_delta := gas_target - gas_used in
    q ← rust_div (base_fee * gas_used_delta) gas_target;
    base_fee_per_gas_delta ← rust_div q BASE_FEE_CHANGE_DENOMINATOR;
    Val (Z.max (base_fee - wrap64 base_fee_per_gas_delta) 0).

Module FeeManager.
Record t := mk {
  spec_id : SpecId;
  base_fee_ : Z;
  gas_price_ : Z;
}.

Definition new (spec_id : SpecId) (base_fee gas_price : Z) : t := mk spec_id base_fee gas_price.
Definition is_eip1559 (f : t) : bool := enabled (spec_id f) LONDON.
Definition suggested_priority_fee : Z := 1000000000.
Definition base_fee (f : t) : Z := if is_eip1559 f then base_fee_ f else 0.
Definition gas_price (f : t) : Z :=
  if is_eip1559 f then u256_saturating_add (base_fee f) suggested_priority_fee else gas_price_ f.

(** The operators on [U256] panic on overflow. *)
Definition max_priority_fee_per_gas (f : t) : rust Z :=
  double ← unwrap (u256_checked_mul (base_fee_ f) 2);
  unwrap (u256_checked_add suggested_priority_fee double).
Definition set_gas_price (f : t) (price : Z) : t := mk (spec_id f) (base_fee_ f) price.
Definition set_base_fee (f : t) (fee : Z) : t := mk (spec_id f) fee (gas_price_ f).

Definition get_next_block_base_fee_per_gas (f : t) (gas_used gas_limit last_fee_per_gas : Z) : rust Z :=
  if base_fee f =? 0 then Val 0
  else
    gas_used ← as_u64 gas_used;
    gas_limit ← as_u64 gas_limit;
    last_fee_per_gas ← as_u64 last_fee_per_gas;
    calculate_next_block_base_fee gas_used gas_limit last_fee_per_gas.
End FeeManager.

(** [FeeHistoryService::insert_cache_entry]; the keys of the entries to be
    removed wrap in a release build. *)
Section history.
Context {Item : Type}.

Definition insert_cache_entry (fee_history_limit : Z) (cache : gmap Z Item) (item : Item)
  (block_number : option Z) : gmap Z Item :=
  match block_number with
  | None => cache
  | Some block_number =>
      let cache := <[block_number := item]> cache in
      let pop_next := Z.max (block_number - fee_history_limit) 0 in
      let num_remove := Z.max (Z.of_nat (size cache) - fee_history_limit) 0 in
      foldl (fun cache num => delete (wrap64 (pop_next - num)) cache) cache (seqZ 0 num_remove)
  end.
End history.

Record FeeDetails := mkFeeDetails {
  fd_gas_price : option Z;
  fd_max_fee_per_gas : option Z;
  fd_max_priority_fee_per_gas : option Z;
}.

Definition FeeDetails_zero : FeeDetails := mkFeeDetails (Some 0) (Some 0) (Some 0).
Definition or_zero_fees (d : FeeDetails) : FeeDetails :=
  let no_fees := bool_decide (fd_gas_price d = None) && bool_decide (fd_max_fee_per_gas d = None) in
  mkFeeDetails (if no_fees then Some 0 else fd_gas_price d)
    (if no_fees then Some 0 else fd_max_fee_per_gas d) (fd_max_priority_fee_per_gas d).
Definition split (d : FeeDetails) : option Z * option Z * option Z :=
  (fd_gas_price d, fd_max_fee_per_gas d, fd_max_priority_fee_per_gas d).

(** [None] is [BlockchainError::InvalidFeeInput]. *)
Definition FeeDetails_new (request_gas_price request_max_fee request_priority : option Z) :
  option FeeDetails :=
  match request_max_fee, request_priority with
  | None, None => Some (mkFeeDetails request_gas_price request_gas_price request_gas_price)
  | max_fee, max_priority =>
      let invalid :=
        match max_priority with Some p => default 0 max_fee <? p | None => false end in
      if invalid then None else Some (mkFeeDetails max_fee max_fee max_priority)
  end.

(** ** time.rs *)

(** Dates, of the crate chrono.  A line that is not logged is not formatted:
    [to_rfc2822] is what becomes of the line the node logs with its date. *)
Class Chrono := {
  NaiveDateTime : Type;
  from_timestamp_opt : Z -> Z -> option NaiveDateTime;
  to_rfc2822 : NaiveDateTime -> rust (list Z);
}.

(** [secs as i64]; in UTC the date is that of the naive time. *)
Definition utc_from_secs {HTC : Chrono} (secs : Z) : rust NaiveDateTime :=
  unwrap (from_timestamp_opt (wrap_i64 secs) 0).

Definition i128_saturating_add (a b : Z) : Z := Z.max (- 2 ^ 127) (Z.min (a + b) (2 ^ 127 - 1)).

Module TimeManager.
Record t := mk {
  offset : Z;
  last_timestamp : Z;
  next_exact_timestamp : option Z;
  interval : option Z;
}.

(** [now]: the seconds since the epoch. *)
Definition reset (m : t) (now start_timestamp : Z) : t :=
  mk (start_timestamp - now) start_timestamp None (interval m).
Definition new (now start_timestamp : Z) : t := reset (mk 0 0 None None) now start_timestamp.
Definition add_offset (m : t) (o : Z) : Z * t :=
  let next := i128_saturating_add (offset m) o in
  (next, mk next (last_timestamp m) (next_exact_timestamp m) (interval m)).
Definition increase_time (m : t) (seconds : Z) : Z * t := add_offset m seconds.
Definition set_next_block_timestamp (m : t) (timestamp : Z) : option t :=
  if timestamp <=? last_timestamp m then None
  else Some (mk (offset m) (last_timestamp m) (Some timestamp) (interval m)).
Definition set_block_timestamp_interval (m : t) (i : Z) : t :=
  mk (offset m) (last_timestamp m) (next_exact_timestamp m) (Some i).
Definition remove_block_timestamp_interval (m : t) : bool * t :=
  (bool_decide (is_Some (interval m)),
   mk (offset m) (last_timestamp m) (next_exact_timestamp m) None).

Definition compute_next_timestamp (m : t) (now : Z) : Z * option Z :=
  let '(next_timestamp, update_offset) :=
    match next_exact_timestamp m, interval m with
    | Some next, _ => (next, true)
    | None, Some interval => (Z.min (last_timestamp m + interval) u64_max, false)
    | None, None => (wrap64 (i128_saturating_add now (offset m)), false)
    end in
  let next_timestamp :=
    if next_timestamp <=? last_timestamp m then wrap64 (last_timestamp m + 1) else next_timestamp in
  (next_timestamp, if (update_offset : bool) then Some (next_timestamp - now) else None).

Definition next_timestamp (m : t) (now : Z) : Z * t :=
  let '(next, next_offset) := compute_next_timestamp m now in
  (next, mk (default (offset m) next_offset) next None (interval m)).
Definition current_call_timestamp (m : t) (now : Z) : Z := fst (compute_next_timestamp m now).
End TimeManager.
