(* ===== verification/FeesSpec.v ===== *)
(** * What the fee and time managers promise

    The base fee of the next block is that of EIP-1559 as long as nothing
    overflows; it moves by at most an eighth when blocks keep to their gas
    limit, and it never falls to zero.  Block times increase.  The history of
    fees keeps to its limit when blocks follow one another. *)

From stdpp Require Import base option list gmap sets.
From Stdlib Require Import ZArith Lia.
From S2P Require Import Prelude Primitives EthTransaction Fees.

(** ** The base fee *)

(** The formula of EIP-1559, on integers without bound. *)
Definition eip1559_base_fee (gas_used gas_limit base_fee : Z) : Z :=
  let gas_target := gas_limit / 2 in
  if gas_target <? gas_used
  then base_fee + Z.max 1 (base_fee * (gas_used - gas_target) / gas_target / 8)
  else base_fee - base_fee * (gas_target - gas_used) / gas_target / 8.

Section formula.
Context (gas_limit base_fee : Z) (Hl : 2 <= gas_limit) (Hb : 1 <= base_fee).
Abbreviation target := (gas_limit / 2).

Lemma target_pos : 1 <= target.
Proof. apply Z.div_le_lower_bound; lia. Qed.

(** What a full block adds, and what an empty one takes. *)
Lemma rise_bound g : target <= g -> g <= gas_limit ->
  0 <= base_fee * (g - target) / target / 8 <= (base_fee + base_fee / target) / 8.
Proof.
  pose proof target_pos as Ht. intros H1 H2. split.
  - apply Z.div_pos; [|lia]. apply Z.div_pos; [nia|lia].
  - apply Z.div_le_mono; [lia|]. rewrite <- Z.div_add_l by lia. apply Z.div_le_mono; [lia|].
    assert (g - target <= target + 1); [|nia]. pose proof (Z.div_mod gas_limit 2). 
    pose proof (Z.mod_pos_bound gas_limit 2). lia.
Qed.

Lemma fall_bound g : 0 <= g -> g <= target ->
  0 <= base_fee * (target - g) / target / 8 <= base_fee / 8.
Proof.
  pose proof target_pos as Ht. intros H1 H2. split.
  - apply Z.div_pos; [|lia]. apply Z.div_pos; [nia|lia].
  - apply Z.div_le_mono; [lia|]. apply Z.div_le_upper_bound; nia.
Qed.

Lemma at_target : eip1559_base_fee target gas_limit base_fee = base_fee.
Proof.
  pose proof target_pos as Ht. unfold eip1559_base_fee.
  rewrite Z.ltb_irrefl, Z.sub_diag, Z.mul_0_r, !Z.div_0_l by lia. lia.
Qed.

Lemma eip1559_monotone g g' : 0 <= g -> g <= g' -> 
  eip1559_base_fee g gas_limit base_fee <= eip1559_base_fee g' gas_limit base_fee.
Proof.
  pose proof target_pos as Ht. intros Hg Hle. unfold eip1559_base_fee.
  destruct (Z.ltb_spec target g), (Z.ltb_spec target g'); try lia.
  - assert (base_fee * (g - target) / target / 8 <= base_fee * (g' - target) / target / 8); [|lia].
    apply Z.div_le_mono; [lia|]. apply Z.div_le_mono; nia.
  - assert (0 <= base_fee * (target - g) / target / 8); [|lia].
    apply Z.div_pos; [|lia]. apply Z.div_pos; [nia|lia].
  - assert (base_fee * (target - g') / target / 8 <= base_fee * (target - g) / target / 8); [|lia].
    apply Z.div_le_mono; [lia|]. apply Z.div_le_mono; nia.
Qed.

(** The program computes the formula. *)
Lemma calculate_eq g : base_fee <= 2 ^ 62 -> 0 <= g <= gas_limit ->
  calculate_next_block_base_fee g gas_limit base_fee = Val (eip1559_base_fee g gas_limit base_fee).
Proof.
  pose proof target_pos as Ht. intros Hb' Hg. unfold calculate_next_block_base_fee, rust_div, eip1559_base_fee.
  change (EIP1559_ELASTICITY_MULTIPLIER =? 0) with false. change EIP1559_ELASTICITY_MULTIPLIER with 2.
  change BASE_FEE_CHANGE_DENOMINATOR with 8. cbn [mbind rust_bind]. change (8 =? 0) with false.
  rewrite (proj2 (Z.eqb_neq target 0)) by lia. cbn [mbind rust_bind].
  destruct (Z.eqb_spec g target) as [->|Hne].
  { f_equal. symmetry. exact at_target. }
  destruct (Z.ltb_spec target g) as [Hlt|Hlt].
  - assert ((base_fee + base_fee / target) / 8 <= 2 ^ 61).
    { apply Z.div_le_upper_bound; [lia|]. pose proof (Z.div_le_upper_bound base_fee target base_fee). nia. }
    pose proof (rise_bound g). rewrite (wrap64_id (Z.max _ _)) by rlia. f_equal. apply wrap64_id. rlia.
  - pose proof (fall_bound g). assert (base_fee / 8 <= base_fee) by (apply Z.div_le_upper_bound; lia).
    rewrite wrap64_id by rlia. f_equal. lia.
Qed.
End formula.

(** Whatever block, a base fee of 64 bits is followed by one: no division by
    zero, no panic. *)
Lemma next_base_fee_returns (f : FeeManager.t) gas_used gas_limit base_fee :
  is_u64 gas_used -> 2 <= gas_limit -> is_u64 gas_limit -> is_u64 base_fee ->
  exists v, FeeManager.get_next_block_base_fee_per_gas f gas_used gas_limit base_fee = Val v /\ is_u64 v.
Proof.
  intros Hg Hl Hl' Hb. unfold FeeManager.get_next_block_base_fee_per_gas, as_u64.
  case_if; [exists 0; by split|]. rewrite !(proj2 (Z.ltb_lt _ _)) by rlia. cbn [mbind rust_bind].
  unfold calculate_next_block_base_fee, rust_div.
  change (EIP1559_ELASTICITY_MULTIPLIER =? 0) with false. change EIP1559_ELASTICITY_MULTIPLIER with 2.
  cbn [mbind rust_bind]. pose proof (target_pos gas_limit Hl).
  case_if; [by eexists|]. rewrite (proj2 (Z.eqb_neq (gas_limit / 2) 0)) by lia.
  change (BASE_FEE_CHANGE_DENOMINATOR =? 0) with false. cbn [mbind rust_bind].
  case_if; (eexists; split; [done|]); [apply wrap64_range|].
  match goal with |- is_u64 (Z.max (_ - wrap64 ?x) _) => pose proof (wrap64_range x) end. rlia.
Qed.

(** C21: the base fee of the next block is that of EIP-1559, for fees from 1
    to 2^62, gas limits from 2 to 64 bits and blocks that kept to theirs: it
    rises by at most an eighth (of the fee and its share per unit of the gas
    target, which counts for tiny or odd limits), or by one where that is
    less, and by at least one, or falls by at most an eighth; it grows with
    the gas used, and it stays positive, as the fee manager takes for
    granted.  (A limit of 1 divides by zero and the largest fees wrap.) *)
Theorem base_fee_correct (f : FeeManager.t) (gas_used gas_limit base_fee : Z) :
  0 < FeeManager.base_fee f -> 0 <= gas_used <= gas_limit -> 2 <= gas_limit < 2 ^ 64 ->
  1 <= base_fee <= 2 ^ 62 ->
  let next g := eip1559_base_fee g gas_limit base_fee in
  FeeManager.get_next_block_base_fee_per_gas f gas_used gas_limit base_fee = Val (next gas_used) /\
  1 <= next gas_used /\
  (gas_used = gas_limit / 2 -> next gas_used = base_fee) /\
  (gas_limit / 2 < gas_used -> base_fee < next gas_used <=
     base_fee + Z.max 1 ((base_fee + base_fee / (gas_limit / 2)) / 8)) /\
  (gas_used < gas_limit / 2 -> base_fee - base_fee / 8 <= next gas_used <= base_fee) /\
  forall less, 0 <= less <= gas_used -> next less <= next gas_used.
Proof.
  intros Hf Hg Hl Hb next. unfold FeeManager.get_next_block_base_fee_per_gas, as_u64.
  rewrite (proj2 (Z.eqb_neq _ _)) by lia. rewrite !(proj2 (Z.ltb_lt _ _)) by lia. cbn [mbind rust_bind].
  pose proof (rise_bound gas_limit base_fee ltac:(lia) ltac:(lia) gas_used).
  pose proof (fall_bound gas_limit base_fee ltac:(lia) ltac:(lia) gas_used).
  assert (base_fee / 8 < base_fee) by (apply Z.div_lt; lia).
  split; [apply calculate_eq; lia|]. unfold next.
  split; [unfold eip1559_base_fee; destruct (Z.ltb_spec (gas_limit / 2) gas_used); lia|].
  split; [intros ->; apply at_target; lia|].
  split; [unfold eip1559_base_fee; destruct (Z.ltb_spec (gas_limit / 2) gas_used); lia|].
  split; [unfold eip1559_base_fee; destruct (Z.ltb_spec (gas_limit / 2) gas_used); lia|].
  intros less Hless. apply eip1559_monotone; lia.
Qed.

Definition example_fees : FeeManager.t := FeeManager.new LATEST 1000000000 1875000000.

Lemma base_fee_correct_witness :
  let next g := eip1559_base_fee g 30000000 1000000000 in
  FeeManager.get_next_block_base_fee_per_gas example_fees 30000000 30000000 1000000000 = Val (next 30000000) /\
  1 <= next 30000000 /\
  (30000000 = 30000000 / 2 -> next 30000000 = 1000000000) /\
  (30000000 / 2 < 30000000 -> 1000000000 < next 30000000 <=
     1000000000 + Z.max 1 ((1000000000 + 1000000000 / (30000000 / 2)) / 8)) /\
  (30000000 < 30000000 / 2 -> 1000000000 - 1000000000 / 8 <= next 30000000 <= 1000000000) /\
  forall less, 0 <= less <= 30000000 -> next less <= next 30000000.
Proof. apply (base_fee_correct example_fees); [vm_compute; reflexivity|lia..]. Defined.

(** ** Block times *)

Record time_ok (m : TimeManager.t) : Prop := mkTimeOk {
  ti_last : is_u64 (TimeManager.last_timestamp m);
  ti_next t : TimeManager.next_exact_timestamp m = Some t -> is_u64 t;
  ti_interval i : TimeManager.interval m = Some i -> is_u64 i;
}.

(** The time of a block is later than that of the one before, until the
    64 bits run out; the next block is no different. *)
Lemma next_timestamp_spec m now : time_ok m ->
  let '(t, m') := TimeManager.next_timestamp m now in
  is_u64 t /\ (TimeManager.last_timestamp m < u64_max -> TimeManager.last_timestamp m < t) /\
  time_ok m' /\ TimeManager.last_timestamp m' = t.
Proof.
  intros [Hl Hn Hi]. unfold TimeManager.next_timestamp, TimeManager.compute_next_timestamp.
  set (p := match TimeManager.next_exact_timestamp m with Some _ => _ | None => _ end).
  assert (Hp : is_u64 p.1).
  { unfold p. destruct (TimeManager.next_exact_timestamp m) as [t|]; [by apply Hn|].
    destruct (TimeManager.interval m) as [i|]; [|apply wrap64_range]. specialize (Hi i eq_refl). simpl. rlia. }
  destruct p as [t0 update]. simpl in Hp.
  set (t := if t0 <=? TimeManager.last_timestamp m then _ else t0).
  assert (Ht : is_u64 t /\ (TimeManager.last_timestamp m < u64_max -> TimeManager.last_timestamp m < t)).
  { unfold t. destruct (Z.leb_spec t0 (TimeManager.last_timestamp m)); [|split; [done|lia]].
    split; [apply wrap64_range|]. intros Hlt. rewrite wrap64_id by rlia. lia. }
  destruct Ht as [H1 H2]. split; [done|]. split; [done|]. split; [|done]. by split.
Qed.

(** ** The history of fees *)

Lemma delete_seq_lookup {A : Type} (f : Z -> Z) l (m : gmap Z A) k :
  foldl (fun m num => delete (f num) m) m l !! k = if decide (k ∈ f <$> l) then None else m !! k.
Proof.
  revert m. induction l as [|x l IH]; intros m; cbn [foldl fmap list_fmap]; [by rewrite decide_False by apply not_elem_of_nil|].
  rewrite IH, lookup_delete. repeat case_decide; set_solver.
Qed.

(** Blocks that follow one another keep the history at its limit: it holds
    the last [limit] of them. *)
Lemma insert_cache_entry_next {Item : Type} (limit : Z) (cache : gmap Z Item) (item : Item) n :
  0 <= limit -> 0 <= n <= u64_max -> size cache = Z.to_nat (Z.min n limit) ->
  (forall k, is_Some (cache !! k) <-> Z.max (n - limit) 0 <= k < n) ->
  forall k, is_Some (insert_cache_entry limit cache item (Some n) !! k) <-> Z.max (n + 1 - limit) 0 <= k < n + 1.
Proof.
  intros Hl Hn Hsz Hc k. unfold insert_cache_entry.
  assert (Hnone : cache !! n = None).
  { apply eq_None_not_Some. rewrite Hc. lia. }
  rewrite map_size_insert_None by done. rewrite Hsz, delete_seq_lookup.
  assert (Hin : k ∈ (fun num => wrap64 (Z.max (n - limit) 0 - num)) <$>
      seqZ 0 (Z.max (Z.of_nat (S (Z.to_nat (Z.min n limit))) - limit) 0) <->
    limit <= n /\ k = n - limit).
  { rewrite list_elem_of_fmap. split.
    - intros (j & -> & Hj%elem_of_seqZ). assert (limit <= n) by lia. assert (j = 0) as -> by lia.
      split; [done|]. rewrite wrap64_id by rlia. lia.
    - intros [Hle ->]. exists 0. split; [rewrite wrap64_id by rlia; lia|]. apply elem_of_seqZ. lia. }
  case_decide as Hd.
  - apply Hin in Hd as [? ->]. split; [by intros []|lia].
  - rewrite lookup_insert. case_decide as Ek.
    + subst k. split; [|by eexists]. intros _. destruct (decide (limit = 0)) as [-> |]; [|lia].
      destruct Hd. apply Hin. lia.
    + rewrite Hc. split; [|lia]. intros Hk. assert (k <> n - limit \/ n < limit); [|lia].
      destruct (decide (k = n - limit)); [|by left]. right. destruct (decide (limit <= n)); [|lia].
      destruct Hd. by apply Hin.
Qed.

(** ** Dates *)

(** The last second of the year 9999. *)
Definition calendar_end : Z := 253402300799.
(** Dates until then exist, and have the four digits of their year that
    RFC 2822 gives it. *)
Class ChronoSpec {HTC : Chrono} : Prop := {
  dates_exist secs : 0 <= secs <= calendar_end ->
    exists d line, from_timestamp_opt secs 0 = Some d /\ to_rfc2822 d = Val line;
}.

Lemma dated {HTC : Chrono} {HTS : ChronoSpec} secs : 0 <= secs <= calendar_end ->
  exists d line, utc_from_secs secs = Val d /\ to_rfc2822 d = Val line.
Proof.
  intros Hs. destruct (dates_exist secs Hs) as (d & line & Ed & El). exists d, line. split; [|done].
  unfold utc_from_secs. rewrite wrap_i64_id by (unfold calendar_end in Hs; lia). by rewrite Ed.
Qed.

(** The calendar of chrono, to whole years; lines are not composed. *)
Definition chrono_calendar : Chrono := {|
  NaiveDateTime := Z;
  from_timestamp_opt secs _ := if (-8334632851200 <=? secs) && (secs <=? 8210298412799) then Some secs else None;
  to_rfc2822 secs := if (-62167219200 <=? secs) && (secs <=? calendar_end) then Val [] else Panic;
|}.
Lemma chrono_calendar_spec : ChronoSpec (HTC := chrono_calendar).
Proof.
  split. intros secs Hs. unfold calendar_end in Hs. exists secs, []. cbn. unfold calendar_end.
  repeat (rewrite (proj2 (Z.leb_le _ _)) by lia). done.
Qed.

(** A time beyond the calendar that fits 64 bits: as a signed number it may
    even be negative. *)
Theorem dates_end :
  utc_from_secs (HTC := chrono_calendar) 8210298412800 = Panic /\
  utc_from_secs (HTC := chrono_calendar) (2 ^ 63) = Panic /\
  utc_from_secs (HTC := chrono_calendar) (u64_modulus - 1) = Val (-1) /\
  (d ← utc_from_secs (HTC := chrono_calendar) 253402300800; to_rfc2822 d) = Panic.
Proof. by vm_compute. Qed.
