(* ===== verification/TxPool.v ===== *)
(** * The node's transaction pool: [anvil/src/eth/pool]

    [pool/transactions.rs], [pool/mod.rs] and the markers [api.rs] gives to
    transactions, of [src/enterprise-blockchain/foundry].  Operations are run
    one at a time, as under the pool's locks.  A [Vec] that is used as a
    stack is a list whose head is the vector's end; a [BTreeSet] is the
    ascending list of its elements; a [HashSet] is iterated in the order of
    [elements]. *)

From stdpp Require Import base option list gmap sets.
From Stdlib Require Import ZArith Lia.
From S2P Require Import Prelude EthTransaction.

(** ** transactions.rs: pool transactions *)

Definition TxMarker : Type := list Z.
#[global] Instance TxMarker_eq_dec : EqDecision TxMarker := _.
#[global] Instance TxMarker_countable : Countable TxMarker := _.

Definition to_marker (nonce from : Z) : TxMarker :=
  reverse (to_be_bytes 8 nonce) ++ to_be_bytes 20 from.

Inductive TransactionOrder := Fifo | Fees.

Definition priority_of (order : TransactionOrder) (tx : TypedTransaction) : Z :=
  match order with Fifo => 0 | Fees => TypedTransaction.gas_price tx end.

Record PoolTransaction := mkPoolTransaction {
  pending_transaction : PendingTransaction;
  requires : list TxMarker;
  provides : list TxMarker;
  priority : Z;
}.

#[global] Instance PoolTransaction_eq_dec : EqDecision PoolTransaction.
Proof. solve_decision. Defined.

Definition hash (tx : PoolTransaction) : Z := pt_hash (pending_transaction tx).
Definition gas_price (tx : PoolTransaction) : Z :=
  TypedTransaction.gas_price (pt_transaction (pending_transaction tx)).

Inductive PoolError :=
| CyclicTransaction
| ReplacementUnderpriced (tx : PoolTransaction)
| AlreadyImported (tx : PoolTransaction).

Definition rassert (b : bool) : rust unit := if b then Val tt else Panic.

(** ** Pending transactions *)

Record PendingPoolTransaction := mkPendingPoolTransaction {
  pp_transaction : PoolTransaction;
  missing_markers : gset TxMarker;
}.

Definition PendingPoolTransaction_new (transaction : PoolTransaction)
  (provided : gmap TxMarker Z) : PendingPoolTransaction :=
  mkPendingPoolTransaction transaction
    (list_to_set (filter (fun m => provided !! m = None) (requires transaction))).

Definition mark (tx : PendingPoolTransaction) (marker : TxMarker) : PendingPoolTransaction :=
  mkPendingPoolTransaction (pp_transaction tx) (missing_markers tx ∖ {[ marker ]}).
Definition is_ready (tx : PendingPoolTransaction) : bool := bool_decide (missing_markers tx = ∅).

Module PendingTransactions.
Record t := mk {
  required_markers : gmap TxMarker (gset Z);
  waiting_markers : gmap (list TxMarker) Z;
  waiting_queue : gmap Z PendingPoolTransaction;
}.

Definition t_default : t := mk ∅ ∅ ∅.
Definition len (p : t) : Z := Z.of_nat (size (waiting_queue p)).
Definition is_empty (p : t) : bool := bool_decide (waiting_queue p = ∅).
Definition transactions (p : t) : list PoolTransaction :=
  (fun '(_, tx) => pp_transaction tx) <$> map_to_list (waiting_queue p).
Definition contains (p : t) (h : Z) : bool := bool_decide (is_Some (waiting_queue p !! h)).
Definition get (p : t) (h : Z) : option PendingPoolTransaction := waiting_queue p !! h.

Definition add_transaction (p : t) (tx : PendingPoolTransaction) :
  rust ((unit + PoolError) * t) :=
  rassert (negb (is_ready tx));;
  rassert (negb (contains p (hash (pp_transaction tx))));;
  let replace :=
    h ← waiting_markers p !! provides (pp_transaction tx); waiting_queue p !! h in
  let underpriced :=
    match replace with
    | Some replace => gas_price (pp_transaction tx) <? gas_price (pp_transaction replace)
    | None => false
    end in
  if underpriced then Val (inr (ReplacementUnderpriced (pp_transaction tx)), p)
  else
    let h := hash (pp_transaction tx) in
    let required := set_fold (fun marker (req : gmap TxMarker (gset Z)) =>
      <[marker := {[ h ]} ∪ default ∅ (req !! marker)]> req)
      (required_markers p) (missing_markers tx) in
    Val (inl tt, mk required (<[provides (pp_transaction tx) := h]> (waiting_markers p))
      (<[h := tx]> (waiting_queue p))).

(** The body of the loops of [mark_and_unlock]. *)
Definition unlock_hash (marker : TxMarker) (acc : rust (t * list PendingPoolTransaction)) (h : Z) :
  rust (t * list PendingPoolTransaction) :=
  '(p, unlocked) ← acc;
  tx ← unwrap (waiting_queue p !! h);
  let tx := mark tx marker in
  if is_ready tx then
    Val (mk (required_markers p) (delete (provides (pp_transaction tx)) (waiting_markers p))
           (delete h (waiting_queue p)), unlocked ++ [tx])
  else
    Val (mk (required_markers p) (waiting_markers p) (<[h := tx]> (waiting_queue p)), unlocked).

Definition unlock_marker (acc : rust (t * list PendingPoolTransaction)) (marker : TxMarker) :
  rust (t * list PendingPoolTransaction) :=
  '(p, unlocked) ← acc;
  match required_markers p !! marker with
  | None => Val (p, unlocked)
  | Some tx_hashes =>
      foldl (unlock_hash marker)
        (Val (mk (delete marker (required_markers p)) (waiting_markers p) (waiting_queue p), unlocked))
        (elements tx_hashes)
  end.

Definition mark_and_unlock (p : t) (markers : list TxMarker) :
  rust (t * list PendingPoolTransaction) :=
  foldl unlock_marker (Val (p, [])) markers.

(** [remove]: the missing markers of a removed transaction are checked off. *)
Definition remove_required (h : Z) (req : gmap TxMarker (gset Z)) (marker : TxMarker) :
  gmap TxMarker (gset Z) :=
  match req !! marker with
  | Some required =>
      let required := required ∖ {[ h ]} in
      if bool_decide (required = ∅) then delete marker req else <[marker := required]> req
  | None => req
  end.

Definition remove_one (acc : t * list PoolTransaction) (h : Z) : t * list PoolTransaction :=
  let '(p, removed) := acc in
  match waiting_queue p !! h with
  | None => (p, removed)
  | Some waiting_tx =>
      (mk (set_fold (fun m req => remove_required h req m) (required_markers p)
             (missing_markers waiting_tx))
         (delete (provides (pp_transaction waiting_tx)) (waiting_markers p))
         (delete h (waiting_queue p)), removed ++ [pp_transaction waiting_tx])
  end.

Definition remove (p : t) (hashes : list Z) : t * list PoolTransaction :=
  foldl remove_one (p, []) hashes.
End PendingTransactions.

(** ** Ready transactions *)

Record PoolTransactionRef := mkPoolTransactionRef {
  rf_transaction : PoolTransaction;
  rf_id : Z;
}.

(** By priority, and the transaction that came first on top. *)
Definition cmp (self other : PoolTransactionRef) : comparison :=
  match priority (rf_transaction self) ?= priority (rf_transaction other) with
  | Eq => rf_id other ?= rf_id self
  | c => c
  end.

(** [BTreeSet::insert] keeps an equal element; [remove] and [take]. *)
Fixpoint btree_insert (x : PoolTransactionRef) (l : list PoolTransactionRef) :
  list PoolTransactionRef :=
  match l with
  | [] => [x]
  | y :: l' => match cmp x y with Lt => x :: l | Eq => l | Gt => y :: btree_insert x l' end
  end.
Fixpoint btree_remove (x : PoolTransactionRef) (l : list PoolTransactionRef) :
  list PoolTransactionRef :=
  match l with
  | [] => []
  | y :: l => match cmp x y with Eq => l | _ => y :: btree_remove x l end
  end.

Record ReadyTransaction := mkReadyTransaction {
  transaction : PoolTransactionRef;
  unlocks : list Z;
  requires_offset : Z;
}.

Definition rt_transaction (r : ReadyTransaction) : PoolTransaction := rf_transaction (transaction r).
Definition rt_provides (r : ReadyTransaction) : list TxMarker := provides (rt_transaction r).
Definition rt_gas_price (r : ReadyTransaction) : Z := gas_price (rt_transaction r).
Definition set_unlocks (r : ReadyTransaction) (u : list Z) : ReadyTransaction :=
  mkReadyTransaction (transaction r) u (requires_offset r).

(** [Vec::swap_remove] of the first position of [h], if it has one. *)
Definition swap_remove (l : list Z) (i : nat) : list Z :=
  match last l with
  | Some x => take (length l - 1) (<[i := x]> l)
  | None => l
  end.
Definition remove_unlock (h : Z) (r : ReadyTransaction) : ReadyTransaction :=
  match list_find (fun i => i = h) (unlocks r) with
  | Some (idx, _) => set_unlocks r (swap_remove (unlocks r) idx)
  | None => r
  end.

Module TransactionsIterator.
Record t := mk {
  all : gmap Z ReadyTransaction;
  awaiting : gmap Z (Z * PoolTransactionRef);
  independent : list PoolTransactionRef;
}.

Definition independent_or_awaiting (it : t) (satisfied : Z) (tx_ref : PoolTransactionRef) : t :=
  if Z.of_nat (length (requires (rf_transaction tx_ref))) <=? satisfied
  then mk (all it) (awaiting it) (btree_insert tx_ref (independent it))
  else mk (all it) (<[hash (rf_transaction tx_ref) := (satisfied, tx_ref)]> (awaiting it))
         (independent it).

(** One of the transactions that [ready] unlocks. *)
Definition unlock (it : t) (h : Z) : t :=
  match awaiting it !! h with
  | Some (satisfied, tx_ref) =>
      independent_or_awaiting (mk (all it) (delete h (awaiting it)) (independent it))
        (satisfied + 1) tx_ref
  | None =>
      match all it !! h with
      | Some next => independent_or_awaiting it (requires_offset next + 1) (transaction next)
      | None => it
      end
  end.

(** [next]: the loop takes the best of [independent], here from the top. *)
Fixpoint next_from (it : t) (descending : list PoolTransactionRef) : option PoolTransaction * t :=
  match descending with
  | [] => (None, mk (all it) (awaiting it) [])
  | best :: rest =>
      match all it !! hash (rf_transaction best) with
      | None => next_from it rest
      | Some ready =>
          (Some (rf_transaction best),
           foldl unlock (mk (all it) (awaiting it) (reverse rest)) (unlocks ready))
      end
  end.
Definition next (it : t) : option PoolTransaction * t := next_from it (reverse (independent it)).

(** The transactions an iterator yields, at most [fuel] of them. *)
Fixpoint collect (fuel : nat) (it : t) : rust (list PoolTransaction) :=
  match next it with
  | (None, _) => Val []
  | (Some tx, it) =>
      match fuel with
      | O => Diverge
      | S fuel => l ← collect fuel it; Val (tx :: l)
      end
  end.

(** [take(n)], collected. *)
Fixpoint take (n : nat) (it : t) : list PoolTransaction :=
  match n with
  | O => []
  | S n => match next it with (None, _) => [] | (Some tx, it) => tx :: take n it end
  end.
End TransactionsIterator.

Module ReadyTransactions.
Record t := mk {
  id : Z;
  provided_markers : gmap TxMarker Z;
  ready_tx : gmap Z ReadyTransaction;
  independent_transactions : list PoolTransactionRef;
}.

Definition t_default : t := mk 0 ∅ ∅ [].
Definition get_transactions (r : t) : TransactionsIterator.t :=
  TransactionsIterator.mk (ready_tx r) ∅ (independent_transactions r).
Definition contains (r : t) (h : Z) : bool := bool_decide (is_Some (ready_tx r !! h)).
Definition get (r : t) (h : Z) : option ReadyTransaction := ready_tx r !! h.
Definition next_id (r : t) : Z * t :=
  (id r, mk (wrap64 (id r + 1)) (provided_markers r) (ready_tx r) (independent_transactions r)).

Definition outside (marker_filter : option (gset TxMarker)) (m : TxMarker) : bool :=
  match marker_filter with Some f => negb (bool_decide (m ∈ f)) | None => true end.

(** The body of the loop of [remove_with_markers] on a transaction that was
    found.  In the loop over [requires] the name [hash] of the provider hides
    that of the removed transaction. *)
Definition remove_found (marker_filter : option (gset TxMarker)) (r : t) (h : Z)
  (tx : ReadyTransaction) : t * bool :=
  let ready := delete h (ready_tx r) in
  let invalidated := filter (fun m => outside marker_filter m = true) (rt_provides tx) in
  let provided := foldl (fun p m => delete m p) (provided_markers r) invalidated in
  let ready := foldl (fun ready mark =>
    match provided !! mark with
    | Some hash =>
        match ready !! hash with
        | Some tx => <[hash := remove_unlock hash tx]> ready
        | None => ready
        end
    | None => ready
    end) ready (requires (rt_transaction tx)) in
  (mk (id r) provided ready (btree_remove (transaction tx) (independent_transactions r)),
   negb (bool_decide (invalidated = []))).

(** [while let Some(hash) = tx_hashes.pop()]: [fuel] bounds the
    transactions that are found. *)
Fixpoint remove_loop (marker_filter : option (gset TxMarker)) (fuel : nat) (r : t)
  (removed : list PoolTransaction) : list Z -> rust (t * list PoolTransaction) :=
  fix pop tx_hashes :=
    match tx_hashes with
    | [] => Val (r, removed)
    | h :: tx_hashes =>
        match ready_tx r !! h with
        | None => pop tx_hashes
        | Some tx =>
            match fuel with
            | O => Diverge
            | S fuel =>
                let '(r, removed_some_marks) := remove_found marker_filter r h tx in
                remove_loop marker_filter fuel r (removed ++ [rt_transaction tx])
                  (if removed_some_marks then reverse (unlocks tx) ++ tx_hashes else tx_hashes)
            end
        end
    end.

Definition remove_with_markers (r : t) (tx_hashes : list Z)
  (marker_filter : option (gset TxMarker)) : rust (t * list PoolTransaction) :=
  remove_loop marker_filter (size (ready_tx r)) r [] (reverse tx_hashes).

Definition clear_transactions (r : t) (tx_hashes : list Z) : rust (t * list PoolTransaction) :=
  remove_with_markers r tx_hashes None.

(** [replaced_transactions]: the removed transactions and what they unlock. *)
Definition replaced_transactions (r : t) (tx : PoolTransaction) :
  rust ((list PoolTransaction * list Z + PoolError) * t) :=
  let remove_hashes : gset Z := list_to_set (omap (fun m => provided_markers r !! m) (provides tx)) in
  if bool_decide (remove_hashes = ∅) then Val (inl ([], []), r)
  else
    let to_remove := omap (fun h => ready_tx r !! h) (elements remove_hashes) in
    if existsb (fun x => bool_decide (rt_provides x = provides tx) &&
                  (gas_price tx <=? rt_gas_price x)) to_remove
    then Val (inr (ReplacementUnderpriced tx), r)
    else
      let unlocked_tx := mjoin (unlocks <$> to_remove) in
      '(r, removed_tx) ← remove_with_markers r (elements remove_hashes)
        (Some (list_to_set (provides tx)));
      Val (inl (removed_tx, unlocked_tx), r).

(** The links from the transactions that unlock the current one. *)
Definition link (h : Z) (provided : gmap TxMarker Z)
  (acc : rust (gmap Z ReadyTransaction * bool * Z)) (marker : TxMarker) :
  rust (gmap Z ReadyTransaction * bool * Z) :=
  '(ready, independent, requires_offset) ← acc;
  match provided !! marker with
  | Some other =>
      tx ← unwrap (ready !! other);
      Val (<[other := set_unlocks tx (unlocks tx ++ [h])]> ready, false, requires_offset)
  | None => Val (ready, independent, requires_offset + 1)
  end.

Definition add_transaction (r : t) (tx : PendingPoolTransaction) :
  rust ((list PoolTransaction + PoolError) * t) :=
  rassert (is_ready tx);;
  let tx := pp_transaction tx in
  rassert (negb (contains r (hash tx)));;
  '(out, r) ← replaced_transactions r tx;
  match out with
  | inr e => Val (inr e, r)
  | inl (replaced_tx, unlocks) =>
      let '(id_, r) := next_id r in
      let h := hash tx in
      '(ready, independent, requires_offset) ←
        foldl (link h (provided_markers r)) (Val (ready_tx r, true, 0)) (requires tx);
      let provided := foldl (fun p m => <[m := h]> p) (provided_markers r) (provides tx) in
      let transaction := mkPoolTransactionRef tx id_ in
      let independents :=
        if (independent : bool) then btree_insert transaction (independent_transactions r)
        else independent_transactions r in
      Val (inl replaced_tx,
           mk (id r) provided (<[h := mkReadyTransaction transaction unlocks requires_offset]> ready)
             independents)
  end.

(** [prune_tags]: one of the transactions before the pruned one, which is
    pruned too if it unlocks nothing else. *)
Definition previous_markers (h : Z) (provided : gmap TxMarker Z)
  (acc : gmap Z ReadyTransaction * list TxMarker) (marker : TxMarker) :
  gmap Z ReadyTransaction * list TxMarker :=
  let '(ready, stack) := acc in
  match (prev_hash ← provided !! marker; tx2 ← ready !! prev_hash; Some (prev_hash, tx2)) with
  | Some (prev_hash, tx2) =>
      let tx2 := remove_unlock h tx2 in
      (<[prev_hash := tx2]> ready,
       if bool_decide (unlocks tx2 = []) then reverse (rt_provides tx2) ++ stack else stack)
  | None => (ready, stack)
  end.

(** One of the transactions that the pruned one unlocks. *)
Definition prune_unlock (acc : gmap Z ReadyTransaction * list PoolTransactionRef) (h : Z) :
  gmap Z ReadyTransaction * list PoolTransactionRef :=
  let '(ready, independents) := acc in
  match ready !! h with
  | None => (ready, independents)
  | Some tx =>
      let tx := mkReadyTransaction (transaction tx) (unlocks tx) (requires_offset tx + 1) in
      (<[h := tx]> ready,
       if requires_offset tx =? Z.of_nat (length (requires (rt_transaction tx)))
       then btree_insert (transaction tx) independents else independents)
  end.

(** The markers of the pruned transaction; the assertion of the code. *)
Definition unprovide (current_marker : TxMarker) (h : Z) (acc : rust (gmap TxMarker Z))
  (marker : TxMarker) : rust (gmap TxMarker Z) :=
  provided ← acc;
  rassert (bool_decide (provided !! marker =
    if bool_decide (current_marker = marker) then None else Some h));;
  Val (delete marker provided).

Definition prune_found (r : t) (marker : TxMarker) (stack : list TxMarker) (h : Z)
  (tx : ReadyTransaction) : rust (t * list TxMarker) :=
  let ready := delete h (ready_tx r) in
  let independents := btree_remove (transaction tx) (independent_transactions r) in
  let '(ready, stack) := foldl (previous_markers (hash (rt_transaction tx)) (provided_markers r))
    (ready, stack) (requires (rt_transaction tx)) in
  let '(ready, independents) := foldl prune_unlock (ready, independents) (unlocks tx) in
  provided ← foldl (unprovide marker (hash (rt_transaction tx))) (Val (provided_markers r))
    (rt_provides tx);
  Val (mk (id r) provided ready independents, stack).

Definition set_provided (r : t) (p : gmap TxMarker Z) : t :=
  mk (id r) p (ready_tx r) (independent_transactions r).

(** [while let Some(marker) = remove.pop()] *)
Fixpoint prune_loop (fuel : nat) (r : t) (removed_tx : list PoolTransaction)
  (stack : list TxMarker) : rust (t * list PoolTransaction) :=
  (fix pop (provided : gmap TxMarker Z) stack :=
    match stack with
    | [] => Val (set_provided r provided, removed_tx)
    | marker :: stack =>
        match (h ← provided !! marker; tx ← ready_tx r !! h; Some (h, tx)) with
        | None => pop (delete marker provided) stack
        | Some (h, tx) =>
            match fuel with
            | O => Diverge
            | S fuel =>
                '(r, stack) ← prune_found (set_provided r (delete marker provided)) marker stack h tx;
                prune_loop fuel r (removed_tx ++ [rt_transaction tx]) stack
            end
        end
    end) (provided_markers r) stack.

Definition prune_tags (r : t) (marker : TxMarker) : rust (t * list PoolTransaction) :=
  prune_loop (size (ready_tx r)) r [] [marker].
End ReadyTransactions.

(** ** mod.rs *)

Module pool.
(** What adding a ready transaction did. *)
Record ReadyOutcome := mkReadyOutcome {
  ro_hash : Z;
  promoted : list Z;
  discarded : list Z;
  ro_removed : list PoolTransaction;
}.
Definition ReadyOutcome_new (hash : Z) : ReadyOutcome := mkReadyOutcome hash [] [] [].

Inductive AddedTransaction := Ready (r : ReadyOutcome) | Pending (hash : Z).
Definition AddedTransaction_hash (a : AddedTransaction) : Z :=
  match a with Ready r => ro_hash r | Pending h => h end.

Record PruneResult := mkPruneResult {
  pr_promoted : list AddedTransaction;
  pr_failed : list Z;
  pr_pruned : list PoolTransaction;
}.

Record PoolInner := mkPoolInner {
  ready_transactions : ReadyTransactions.t;
  pending_transactions : PendingTransactions.t;
}.
Definition PoolInner_default : PoolInner :=
  mkPoolInner ReadyTransactions.t_default PendingTransactions.t_default.

Definition iter_ready (p : PoolInner) : TransactionsIterator.t :=
  ReadyTransactions.get_transactions (ready_transactions p).
Definition get_transaction (p : PoolInner) (h : Z) : option PendingTransaction :=
  match PendingTransactions.get (pending_transactions p) h with
  | Some pending => Some (pending_transaction (pp_transaction pending))
  | None =>
      r ← ReadyTransactions.get (ready_transactions p) h;
      Some (pending_transaction (rt_transaction r))
  end.
Definition contains (p : PoolInner) (h : Z) : bool :=
  PendingTransactions.contains (pending_transactions p) h ||
  ReadyTransactions.contains (ready_transactions p) h.

(** [while let Some(current_tx) = tx_queue.pop_front()]: every transaction
    that enters the queue leaves the waiting queue. *)
Fixpoint promote_loop (fuel : nat) (p : PoolInner) (ready : ReadyOutcome) (is_new_tx : bool)
  (tx_queue : list PendingPoolTransaction) : rust ((ReadyOutcome + PoolError) * PoolInner) :=
  match tx_queue with
  | [] => Val (inl ready, p)
  | current_tx :: tx_queue =>
      match fuel with
      | O => Diverge
      | S fuel =>
          '(pending, unlocked) ← PendingTransactions.mark_and_unlock (pending_transactions p)
            (provides (pp_transaction current_tx));
          let tx_queue := tx_queue ++ unlocked in
          let current_hash := hash (pp_transaction current_tx) in
          '(out, r) ← ReadyTransactions.add_transaction (ready_transactions p) current_tx;
          let p := mkPoolInner r pending in
          match out with
          | inl replaced_transactions =>
              let ready := mkReadyOutcome (ro_hash ready)
                (if is_new_tx then promoted ready else promoted ready ++ [current_hash])
                (discarded ready) (ro_removed ready ++ replaced_transactions) in
              promote_loop fuel p ready false tx_queue
          | inr err =>
              if is_new_tx then Val (inr err, p)
              else
                let ready := mkReadyOutcome (ro_hash ready) (promoted ready)
                  (discarded ready ++ [current_hash]) (ro_removed ready) in
                promote_loop fuel p ready false tx_queue
          end
      end
  end.

Definition add_ready_transaction (p : PoolInner) (tx : PendingPoolTransaction) :
  rust ((AddedTransaction + PoolError) * PoolInner) :=
  let h := hash (pp_transaction tx) in
  '(out, p) ← promote_loop
    (S (size (PendingTransactions.waiting_queue (pending_transactions p)))) p
    (ReadyOutcome_new h) true [tx];
  match out with
  | inr err => Val (inr err, p)
  | inl ready =>
      if existsb (fun tx => hash tx =? h) (ro_removed ready) then
        '(r, _) ← ReadyTransactions.clear_transactions (ready_transactions p) (promoted ready);
        Val (inr CyclicTransaction, mkPoolInner r (pending_transactions p))
      else Val (inl (Ready ready), p)
  end.

Definition add_transaction (p : PoolInner) (tx : PoolTransaction) :
  rust ((AddedTransaction + PoolError) * PoolInner) :=
  if contains p (hash tx) then Val (inr (AlreadyImported tx), p)
  else
    let tx := PendingPoolTransaction_new tx
      (ReadyTransactions.provided_markers (ready_transactions p)) in
    if negb (is_ready tx) then
      '(out, pending) ← PendingTransactions.add_transaction (pending_transactions p) tx;
      let p := mkPoolInner (ready_transactions p) pending in
      Val (match out with
           | inl _ => inl (Pending (hash (pp_transaction tx)))
           | inr e => inr e
           end, p)
    else add_ready_transaction p tx.

(** The two loops of [prune_markers]. *)
Definition prune_marker
  (acc : rust (PoolInner * list PendingPoolTransaction * list PoolTransaction)) (marker : TxMarker) :
  rust (PoolInner * list PendingPoolTransaction * list PoolTransaction) :=
  '(p, imports, pruned) ← acc;
  '(pending, unlocked) ← PendingTransactions.mark_and_unlock (pending_transactions p) [marker];
  '(r, removed) ← ReadyTransactions.prune_tags (ready_transactions p) marker;
  Val (mkPoolInner r pending, imports ++ unlocked, pruned ++ removed).

Definition import (acc : rust (PoolInner * list AddedTransaction * list Z))
  (tx : PendingPoolTransaction) : rust (PoolInner * list AddedTransaction * list Z) :=
  '(p, promoted, failed) ← acc;
  '(out, p) ← add_ready_transaction p tx;
  Val (match out with
       | inl res => (p, promoted ++ [res], failed)
       | inr _ => (p, promoted, failed ++ [hash (pp_transaction tx)])
       end).

Definition prune_markers (p : PoolInner) (markers : list TxMarker) : rust (PruneResult * PoolInner) :=
  '(p, imports, pruned) ← foldl prune_marker (Val (p, [], [])) markers;
  '(p, promoted, failed) ← foldl import (Val (p, [], [])) imports;
  Val (mkPruneResult promoted failed pruned, p).

Definition remove_invalid (p : PoolInner) (tx_hashes : list Z) :
  rust (list PoolTransaction * PoolInner) :=
  if bool_decide (tx_hashes = []) then Val ([], p)
  else
    '(r, removed) ← ReadyTransactions.remove_with_markers (ready_transactions p) tx_hashes None;
    let '(pending, removed2) := PendingTransactions.remove (pending_transactions p) tx_hashes in
    Val (removed ++ removed2, mkPoolInner r pending).

(** *** [Pool]: the pool with its listeners *)

(** The channels of the futures crate; [try_send] updates its [Sender]. *)
Inductive SendResult := Sent | Full | Disconnected.
Class Channel := {
  Sender : Type;
  Receiver : Type;
  channel : Z -> Sender * Receiver;
  try_send : Sender -> Z -> SendResult * Sender;
}.

Record MinedBlockOutcome := mkMinedBlockOutcome {
  block_number : Z;
  included : list PoolTransaction;
  invalid : list PoolTransaction;
}.

Section listeners.
Context {HC : Channel}.

Record Pool := mkPool { inner : PoolInner; transaction_listener : list Sender }.

(** [notify_listener]: [n] counts down, the listener is taken out with
    [swap_remove] and pushed back unless it is gone. *)
Fixpoint notify_loop (h : Z) (n : nat) (listener : list Sender) : list Sender :=
  match n with
  | O => listener
  | S n =>
      match listener !! n, last listener with
      | Some tx, Some l =>
          let listener := take (length listener - 1) (<[n := l]> listener) in
          let '(r, tx) := try_send tx h in
          notify_loop h n
            (match r with Disconnected => listener | Sent | Full => listener ++ [tx] end)
      | _, _ => listener
      end
  end.
Definition notify_listener (p : Pool) (h : Z) : Pool :=
  mkPool (inner p) (notify_loop h (length (transaction_listener p)) (transaction_listener p)).

Definition Pool_add_transaction (p : Pool) (tx : PoolTransaction) :
  rust ((AddedTransaction + PoolError) * Pool) :=
  '(out, i) ← add_transaction (inner p) tx;
  let p := mkPool i (transaction_listener p) in
  Val (out,
    match out with
    | inl (Ready ready) => foldl notify_listener (notify_listener p (ro_hash ready)) (promoted ready)
    | _ => p
    end).

Definition Pool_prune_markers (p : Pool) (markers : list TxMarker) : rust (PruneResult * Pool) :=
  '(r, i) ← prune_markers (inner p) markers; Val (r, mkPool i (transaction_listener p)).
Definition Pool_remove_invalid (p : Pool) (tx_hashes : list Z) : rust (list PoolTransaction * Pool) :=
  '(r, i) ← remove_invalid (inner p) tx_hashes; Val (r, mkPool i (transaction_listener p)).

Definition on_mined_block (p : Pool) (outcome : MinedBlockOutcome) : rust (PruneResult * Pool) :=
  '(_, p) ← Pool_remove_invalid p (hash <$> invalid outcome);
  Pool_prune_markers p (mjoin (provides <$> included outcome)).

Definition drop_transaction (p : Pool) (tx : Z) : rust (option PoolTransaction * Pool) :=
  '(r, removed) ← ReadyTransactions.remove_with_markers (ready_transactions (inner p)) [tx] None;
  Val (snd <$> list_find (fun t => hash t = tx) removed,
       mkPool (mkPoolInner r (pending_transactions (inner p))) (transaction_listener p)).

Definition add_ready_listener (p : Pool) : Receiver * Pool :=
  let '(tx, rx) := channel 2048 in (rx, mkPool (inner p) (transaction_listener p ++ [tx])).

Definition pending_transactions_of (p : Pool) : list PoolTransaction :=
  PendingTransactions.transactions (pending_transactions (inner p)).
(** [txpool_status]: the numbers of ready and of waiting transactions. *)
Definition txpool_status (fuel : nat) (p : Pool) : rust (Z * Z) :=
  l ← TransactionsIterator.collect fuel (iter_ready (inner p));
  Val (zlen l, PendingTransactions.len (pending_transactions (inner p))).
End listeners.
End pool.

(** ** api.rs *)

Definition required_marker (provided_nonce on_chain_nonce from : Z) : rust (list TxMarker) :=
  if provided_nonce =? on_chain_nonce then Val []
  else
    let prev_nonce := u256_saturating_sub provided_nonce 1 in
    if on_chain_nonce <=? prev_nonce then n ← as_u64 prev_nonce; Val [to_marker n from]
    else Val [].

(** The transaction that [send_transaction], [send_raw_transaction] and
    [eth_send_unsigned_transaction] give to the pool. *)
Definition pool_transaction (order : TransactionOrder) (pending : PendingTransaction)
  (on_chain_nonce : Z) : rust PoolTransaction :=
  let from := pt_sender pending in
  let nonce := TypedTransaction.nonce (pt_transaction pending) in
  requires ← required_marker nonce on_chain_nonce from;
  n ← as_u64 nonce;
  Val (mkPoolTransaction pending requires [to_marker n from]
    (priority_of order (pt_transaction pending))).
