(* ===== verification/Miner.v ===== *)
(** * Building blocks: [anvil/src/eth/backend], [anvil/src/eth/miner.rs], [anvil/src/service.rs]

    The validation of transactions, the executor that runs those of a block
    ([backend/executor.rs]), [do_mine_block] of [backend/mem/mod.rs] with the
    storage of blocks it updates, the miner, and the round of the node's
    service in which the transactions of the pool go into a block and out of
    the pool.

    The EVM is behind a class ([Evm]), as are the hash functions, tries,
    blooms and dates of third-party crates; the inspector only prints and
    records traces, which are left out, as are notifications and what is
    logged, but for the date of the block, which may panic. *)

From stdpp Require Import base option list gmap.
From Stdlib Require Import ZArith Lia.
From S2P Require Import Prelude Primitives Precompile Journal EvmImpl CacheDB NodeDb BlockStates EthTransaction Fees TxPool.

(** ** error.rs *)
Module InvalidTransactionError.
Inductive t :=
| NonceTooLow | NonceTooHigh | NonceMaxValue | InsufficientFundsForTransfer
| MaxInitCodeSizeExceeded | InsufficientFunds | GasUintOverflow | GasTooLow | GasTooHigh
| TipAboveFeeCap | FeeCapTooLow | BasicOutOfGas (gas : Z) | Revert (data : option (list Z))
| SenderNoEOA | InvalidChainId | IncompatibleEIP155.

Definition from (err : InvalidTransaction.t) : t :=
  match err with
  | InvalidTransaction.InvalidChainId => InvalidChainId
  | InvalidTransaction.GasMaxFeeGreaterThanPriorityFee => TipAboveFeeCap
  | InvalidTransaction.GasPriceLessThanBasefee => FeeCapTooLow
  | InvalidTransaction.CallerGasLimitMoreThanBlock => GasTooHigh
  | InvalidTransaction.CallGasCostMoreThanGasLimit => GasTooHigh
  | InvalidTransaction.RejectCallerWithCode => SenderNoEOA
  | InvalidTransaction.LackOfFundForGasLimit _ _ => InsufficientFunds
  | InvalidTransaction.OverflowPaymentInTransaction => GasUintOverflow
  | InvalidTransaction.NonceOverflowInTransaction => NonceMaxValue
  | InvalidTransaction.CreateInitcodeSizeLimit => MaxInitCodeSizeExceeded
  | InvalidTransaction.NonceTooHigh _ _ => NonceTooHigh
  | InvalidTransaction.NonceTooLow _ _ => NonceTooLow
  end.
End InvalidTransactionError.

(** ** Validation, backend/mem/mod.rs *)

Definition MIN_TRANSACTION_GAS : Z := 21000.

(** [chain_id] is that of the backend. *)
Definition validate_chain_id (chain_id : Z) (tx : TypedTransaction) (env : Env) :
  option InvalidTransactionError.t :=
  match TypedTransaction.chain_id tx with
  | Some tx_chain_id =>
      if chain_id =? tx_chain_id then None
      else
        match TypedTransaction.as_legacy tx with
        | Some legacy =>
            if enabled (cfg_spec_id (env_cfg env)) SPURIOUS_DRAGON && negb (meets_eip155 legacy chain_id)
            then Some InvalidTransactionError.IncompatibleEIP155 else None
        | None => Some InvalidTransactionError.InvalidChainId
        end
  | None => None
  end.

Definition validate_fees (tx : TypedTransaction) (env : Env) : option InvalidTransactionError.t :=
  if enabled (cfg_spec_id (env_cfg env)) LONDON then
    if TypedTransaction.gas_price tx <? block_basefee (env_block env)
    then Some InvalidTransactionError.FeeCapTooLow
    else
      match te_max_priority_fee_per_gas (essentials tx), te_max_fee_per_gas (essentials tx) with
      | Some max_priority_fee_per_gas, Some max_fee_per_gas =>
          if max_fee_per_gas <? max_priority_fee_per_gas
          then Some InvalidTransactionError.TipAboveFeeCap else None
      | _, _ => None
      end
  else None.

(** [None] when the transaction is valid. *)
Definition validate_pool_transaction_for (chain_id : Z) (pending : PendingTransaction)
  (account : AccountInfo) (env : Env) : option InvalidTransactionError.t :=
  let tx := pt_transaction pending in
  match validate_chain_id chain_id tx env with
  | Some e => Some e
  | None =>
      if TypedTransaction.gas_limit tx <? MIN_TRANSACTION_GAS
      then Some InvalidTransactionError.GasTooLow
      else if negb (cfg_disable_block_gas_limit (env_cfg env)) &&
        (block_gas_limit (env_block env) <? TypedTransaction.gas_limit tx)
      then Some InvalidTransactionError.GasTooHigh
      else if u64_modulus <=? TypedTransaction.nonce tx
      then Some InvalidTransactionError.NonceMaxValue
      else if TypedTransaction.nonce tx <? nonce account
      then Some InvalidTransactionError.NonceTooLow
      else
        match validate_fees tx env with
        | Some e => Some e
        | None =>
            match u256_checked_add (TypedTransaction.max_cost tx) (TypedTransaction.value tx) with
            | None => Some InvalidTransactionError.InsufficientFunds
            | Some req_funds =>
                if balance account <? req_funds
                then Some InvalidTransactionError.InsufficientFunds else None
            end
        end
  end.

Definition validate_for (chain_id : Z) (tx : PendingTransaction) (account : AccountInfo)
  (env : Env) : rust (option InvalidTransactionError.t) :=
  match validate_pool_transaction_for chain_id tx account env with
  | Some e => Val (Some e)
  | None =>
      n ← as_u64 (TypedTransaction.nonce (pt_transaction tx));
      Val (if nonce account <? n then Some InvalidTransactionError.NonceTooHigh else None)
  end.

(** ** What the block builder uses of other crates *)

(** The EVM: a transaction and its commit, [inspect_commit]. *)
Class Evm (DB : Type) {HDB : Database DB} := {
  inspect_commit : Env -> DB -> admin.Statics ->
    rust ((ExecutionResult.t + EVMError db_error) * DB * admin.Statics);
}.

(** That of the node. *)
Definition node_evm {DB : Type} {HDB : Database DB} {HCO : DatabaseCommit DB} {HC : Crypto}
  {HX : HashCrates} {HB : Bn} {HO : Os} : Evm DB := {|
  inspect_commit e db st :=
    '(out, evm, st) ← EVM.transact_commit (EVM.database (EVM.with_env e) db) st;
    db ← unwrap (EVM.db evm);
    Val (out, db, st);
|}.

(** [Bloom::accrue] *)
Class Blooms := {
  Bloom : Type;
  Bloom_default : Bloom;
  accrue : Bloom -> list Z -> Bloom;
}.

Section block.
Context {HBL : Blooms}.

(** ** receipt.rs and block.rs *)

Record EIP658Receipt := mkEIP658Receipt {
  status_code : Z;
  receipt_gas_used : Z;
  receipt_logs_bloom : Bloom;
  receipt_logs : list Log;
}.
Inductive TypedReceipt :=
| LegacyReceipt (r : EIP658Receipt)
| EIP2930Receipt (r : EIP658Receipt)
| EIP1559Receipt (r : EIP658Receipt).

Definition TypedReceipt_receipt (r : TypedReceipt) : EIP658Receipt :=
  match r with LegacyReceipt r | EIP2930Receipt r | EIP1559Receipt r => r end.
Definition TypedReceipt_gas_used (r : TypedReceipt) : Z := receipt_gas_used (TypedReceipt_receipt r).
Definition TypedReceipt_logs_bloom (r : TypedReceipt) : Bloom :=
  receipt_logs_bloom (TypedReceipt_receipt r).

Record PartialHeader := mkPartialHeader {
  ph_parent_hash : Z;
  ph_beneficiary : Z;
  ph_state_root : Z;
  ph_receipts_root : Z;
  ph_logs_bloom : Bloom;
  ph_difficulty : Z;
  ph_number : Z;
  ph_gas_limit : Z;
  ph_gas_used : Z;
  ph_timestamp : Z;
  ph_extra_data : list Z;
  ph_mix_hash : Z;
  ph_nonce : Z;
  ph_base_fee : option Z;
}.

Record Header := mkHeader {
  hd_parent_hash : Z;
  hd_ommers_hash : Z;
  hd_beneficiary : Z;
  hd_state_root : Z;
  hd_transactions_root : Z;
  hd_receipts_root : Z;
  hd_logs_bloom : Bloom;
  hd_difficulty : Z;
  hd_number : Z;
  hd_gas_limit : Z;
  hd_gas_used : Z;
  hd_timestamp : Z;
  hd_extra_data : list Z;
  hd_mix_hash : Z;
  hd_nonce : Z;
  hd_base_fee_per_gas : option Z;
}.

Definition Header_new (p : PartialHeader) (ommers_hash transactions_root : Z) : Header :=
  mkHeader (ph_parent_hash p) ommers_hash (ph_beneficiary p) (ph_state_root p) transactions_root
    (ph_receipts_root p) (ph_logs_bloom p) (ph_difficulty p) (ph_number p) (ph_gas_limit p)
    (ph_gas_used p) (ph_timestamp p) (ph_extra_data p) (ph_mix_hash p) (ph_nonce p) (ph_base_fee p).

(** A transaction of a block keeps the hash it was accepted with. *)
Record Block := mkBlock {
  bl_header : Header;
  bl_transactions : list PendingTransaction;
  bl_ommers : list Header;
}.

(** Keccak and tries over RLP encodings. *)
Class BlockHashing := {
  header_hash : Header -> Z;
  ommers_hash_of : list Header -> Z;
  transactions_root_of : list PendingTransaction -> Z;
  receipts_root_of : list TypedReceipt -> Z;
}.
End block.

(** ** backend/executor.rs *)

Definition eval_to_instruction_result (eval : Eval.t) : InstructionResult :=
  match eval with
  | Eval.Return => Primitives.Return
  | Eval.Stop => Primitives.Stop
  | Eval.SelfDestruct => Primitives.SelfDestruct
  end.

Definition halt_to_instruction_result (halt : Halt.t) : InstructionResult :=
  match halt with
  | Halt.OutOfGas _ => Primitives.OutOfGas
  | Halt.OpcodeNotFound => Primitives.OpcodeNotFound
  | Halt.InvalidFEOpcode => Primitives.InvalidFEOpcode
  | Halt.InvalidJump => Primitives.InvalidJump
  | Halt.NotActivated => Primitives.NotActivated
  | Halt.StackOverflow => Primitives.StackOverflow
  | Halt.StackUnderflow => Primitives.StackUnderflow
  | Halt.OutOfOffset => Primitives.OutOfOffset
  | Halt.CreateCollision => Primitives.CreateCollision
  | Halt.PrecompileError => Primitives.PrecompileError
  | Halt.NonceOverflow => Primitives.NonceOverflow
  | Halt.CreateContractSizeLimit => Primitives.CreateContractSizeLimit
  | Halt.CreateContractStartingWithEF => Primitives.CreateContractStartingWithEF
  | Halt.CreateInitcodeSizeLimit => Primitives.CreateInitcodeSizeLimit
  | Halt.OverflowPayment => Primitives.OverflowPayment
  | Halt.StateChangeDuringStaticCall => Primitives.StateChangeDuringStaticCall
  | Halt.CallNotAllowedInsideStatic => Primitives.CallNotAllowedInsideStatic
  | Halt.OutOfFund => Primitives.OutOfFund
  | Halt.CallTooDeep => Primitives.CallTooDeep
  end.

(** [exit_reason as u8 <= SelfDestruct as u8] *)
Definition is_success_code (r : InstructionResult) : bool :=
  match r with
  | Primitives.Continue | Primitives.Stop | Primitives.Return | Primitives.SelfDestruct => true
  | _ => false
  end.

Record ExecutedTransaction := mkExecutedTransaction {
  ex_transaction : PoolTransaction;
  ex_exit_reason : InstructionResult;
  ex_out : option Output;
  ex_gas_used : Z;
  ex_logs : list Log;
}.

Section logs_bloom.
Context {HBL : Blooms}.

Definition log_bloom (bloom : Bloom) (log : Log) : Bloom :=
  foldl (fun bloom topic => accrue bloom (to_be_bytes 32 topic))
    (accrue bloom (to_be_bytes 20 (log_address log))) (log_topics log).
Definition logs_bloom (logs : list Log) (bloom : Bloom) : Bloom := foldl log_bloom bloom logs.

Definition create_receipt (tx : ExecutedTransaction) : TypedReceipt :=
  let status_code := if is_success_code (ex_exit_reason tx) then 1 else 0 in
  let receipt := mkEIP658Receipt status_code (ex_gas_used tx)
    (logs_bloom (ex_logs tx) Bloom_default) (ex_logs tx) in
  match pt_transaction (pending_transaction (ex_transaction tx)) with
  | Legacy _ => LegacyReceipt receipt
  | EIP2930 _ => EIP2930Receipt receipt
  | EIP1559 _ => EIP1559Receipt receipt
  end.

Record TransactionInfo := mkTransactionInfo {
  ti_transaction_hash : Z;
  ti_transaction_index : Z;
  ti_from : Z;
  ti_to : option Z;
  ti_contract_address : option Z;
  ti_logs : list Log;
  ti_logs_bloom : Bloom;
  ti_exit : InstructionResult;
  ti_out : option (list Z);
}.

Record BlockInfo := mkBlockInfo {
  bi_block : Block;
  bi_transactions : list TransactionInfo;
  bi_receipts : list TypedReceipt;
}.

Record ExecutedTransactions := mkExecutedTransactions {
  et_block : BlockInfo;
  et_included : list PoolTransaction;
  et_invalid : list PoolTransaction;
}.
End logs_bloom.

Module TransactionExecutor.
Section executor.
Context {DB : Type} {HDB : Database DB} {HR : DatabaseRef DB} {HEV : Evm DB} {HD : Db DB}.
Context {HBL : Blooms} {HBH : BlockHashing} {HTC : Chrono}.

(** The validator is the backend, of which its chain id is used; [statics]
    are those of the admin precompile. *)
Record t := mk {
  db : DB;
  chain_id : Z;
  block_env : BlockEnv;
  cfg_env : CfgEnv;
  parent_hash : Z;
  gas_used : Z;
  statics : admin.Statics;
}.

Definition set_db (x : t) (d : DB) : t :=
  mk d (chain_id x) (block_env x) (cfg_env x) (parent_hash x) (gas_used x) (statics x).

Inductive Outcome :=
| Executed (tx : ExecutedTransaction)
| Invalid (tx : PoolTransaction) (e : InvalidTransactionError.t)
| Exhausted (tx : PoolTransaction)
| DatabaseFailed (tx : PoolTransaction) (e : db_error).

Definition env_for (x : t) (tx : PendingTransaction) : rust Env :=
  tx ← to_revm_tx_env tx; Val (mkEnv (cfg_env x) (block_env x) tx).

(** The reason, the gas, the output and the logs of a result. *)
Definition conclude (r : ExecutionResult.t) : InstructionResult * Z * option Output * list Log :=
  match r with
  | ExecutionResult.Success reason gas_used _ logs output =>
      (eval_to_instruction_result reason, gas_used, Some output, logs)
  | ExecutionResult.Revert gas_used output =>
      (Primitives.Revert, gas_used, Some (OutputCall output), [])
  | ExecutionResult.Halt reason gas_used => (halt_to_instruction_result reason, gas_used, None, [])
  end.

(** [next] on the transaction at the head of [pending].  What
    [self.gas_used.saturating_add] computes at the end is dropped. *)
Definition next (x : t) (transaction : PoolTransaction) : rust (Outcome * t) :=
  let pending := pending_transaction transaction in
  let '(account, d) := db_basic (db x) (pt_sender pending) in
  let x := set_db x d in
  match account with
  | inr err => Val (DatabaseFailed transaction err, x)
  | inl account =>
      let account := default AccountInfo_default account in
      env ← env_for x pending;
      let max_gas := u256_saturating_add (gas_used x) (tx_gas_limit (env_tx env)) in
      if block_gas_limit (env_block env) <? max_gas then Val (Exhausted transaction, x)
      else
        match validate_pool_transaction_for (chain_id x) pending account env with
        | Some err => Val (Invalid transaction err, x)
        | None =>
            '(exec_result, d, st) ← inspect_commit env (db x) (statics x);
            let x := mk d (chain_id x) (block_env x) (cfg_env x) (parent_hash x) (gas_used x) st in
            match exec_result with
            | inr (DatabaseError err) => Val (DatabaseFailed transaction err, x)
            | inr (Transaction err) =>
                Val (Invalid transaction (InvalidTransactionError.from err), x)
            | inr PrevrandaoNotSet => Panic
            | inl r =>
                let '(exit_reason, gas_used, out, logs) := conclude r in
                Val (Executed (mkExecutedTransaction transaction exit_reason out gas_used logs), x)
            end
        end
  end.

(** What the loop of [execute] collects. *)
Record totals := mkTotals {
  transactions : list PendingTransaction;
  transaction_infos : list TransactionInfo;
  receipts : list TypedReceipt;
  bloom : Bloom;
  cumulative_gas_used : Z;
  invalid : list PoolTransaction;
  included : list PoolTransaction;
}.
Definition totals_default : totals := mkTotals [] [] [] Bloom_default 0 [] [].

Definition collect (a : totals) (outcome : Outcome) : totals :=
  match outcome with
  | Executed tx =>
      let receipt := create_receipt tx in
      let contract_address :=
        match ex_out tx with Some (OutputCreate _ contract_address) => contract_address | _ => None end in
      let pending := pending_transaction (ex_transaction tx) in
      let info := mkTransactionInfo (hash (ex_transaction tx)) (zlen (transaction_infos a) mod 2 ^ 32)
        (pt_sender pending) (TypedTransaction.to (pt_transaction pending)) contract_address
        (ex_logs tx) (TypedReceipt_logs_bloom receipt) (ex_exit_reason tx)
        (Output_into_data <$> ex_out tx) in
      mkTotals (transactions a ++ [pending]) (transaction_infos a ++ [info])
        (receipts a ++ [receipt]) (logs_bloom (ex_logs tx) (bloom a))
        (u256_saturating_add (cumulative_gas_used a) (TypedReceipt_gas_used receipt))
        (invalid a) (included a ++ [ex_transaction tx])
  | Invalid tx _ =>
      mkTotals (transactions a) (transaction_infos a) (receipts a) (bloom a)
        (cumulative_gas_used a) (invalid a ++ [tx]) (included a)
  | Exhausted _ | DatabaseFailed _ _ => a
  end.

Fixpoint run (x : t) (a : totals) (pending : list PoolTransaction) : rust (totals * t) :=
  match pending with
  | [] => Val (a, x)
  | transaction :: pending =>
      '(outcome, x) ← next x transaction;
      run x (collect a outcome) pending
  end.

Definition execute (x : t) (pending : list PoolTransaction) : rust (ExecutedTransactions * t) :=
  let gas_limit := block_gas_limit (block_env x) in
  timestamp ← as_u64 (block_timestamp (block_env x));
  let base_fee :=
    if enabled (cfg_spec_id (cfg_env x)) LONDON then Some (block_basefee (block_env x)) else None in
  '(a, x) ← run x totals_default pending;
  let partial_header := mkPartialHeader (parent_hash x) (block_coinbase (block_env x))
    (default 0 (maybe_state_root (db x))) (receipts_root_of (receipts a)) (bloom a)
    (block_difficulty (block_env x)) (block_number (block_env x)) gas_limit
    (cumulative_gas_used a) timestamp [] 0 0 base_fee in
  let header := Header_new partial_header (ommers_hash_of []) (transactions_root_of (transactions a)) in
  Val (mkExecutedTransactions
    (mkBlockInfo (mkBlock header (transactions a) []) (transaction_infos a) (receipts a))
    (included a) (invalid a), x).
End executor.
End TransactionExecutor.

(** ** backend/mem/storage.rs and mod.rs *)

Section backend.
Context {DB : Type} {HDB : Database DB} {HR : DatabaseRef DB} {HEV : Evm DB} {HD : Db DB}.
Context {StateDb : Type} {HM : MaybeHashDatabase StateDb} {HCS : CurrentState DB StateDb} {HFI : FileSystem}.
Context {HBL : Blooms} {HBH : BlockHashing} {HTC : Chrono}.

Record MinedTransaction := mkMinedTransaction {
  mt_info : TransactionInfo;
  mt_receipt : TypedReceipt;
  mt_block_hash : Z;
  mt_block_number : Z;
}.

Record BlockchainStorage := mkBlockchainStorage {
  st_blocks : gmap Z Block;
  st_hashes : gmap Z Z;
  st_best_hash : Z;
  st_best_number : Z;
  st_genesis_hash : Z;
  st_transactions : gmap Z MinedTransaction;
  st_total_difficulty : Z;
}.

(** A dummy genesis block. *)
Definition BlockchainStorage_new (env : Env) (base_fee : option Z) (timestamp : Z) : BlockchainStorage :=
  let partial_header := mkPartialHeader 0 (block_coinbase (env_block env)) 0 0 Bloom_default
    (block_difficulty (env_block env)) 0 (block_gas_limit (env_block env)) 0 timestamp [] 0 0 base_fee in
  let block := mkBlock (Header_new partial_header (ommers_hash_of []) (transactions_root_of [])) [] [] in
  let genesis_hash := header_hash (bl_header block) in
  let best_hash := genesis_hash in
  let best_number := 0 in
  mkBlockchainStorage {[genesis_hash := block]} {[best_number := genesis_hash]} best_hash best_number
    genesis_hash ∅ 0.
Definition BlockchainStorage_forked (block_number block_hash total_difficulty : Z) : BlockchainStorage :=
  mkBlockchainStorage ∅ {[block_number := block_hash]} block_hash block_number 0 ∅ total_difficulty.

(** [BlockchainStorage::hash] for the tags and numbers of the API. *)
Inductive BlockNumber := Latest | Finalized | Safe | Earliest | PendingBlock | Number (n : Z).
Definition storage_hash (s : BlockchainStorage) (number : BlockNumber) : option Z :=
  let slots_in_an_epoch := 32 in
  match number with
  | Latest => Some (st_best_hash s)
  | Earliest => Some (st_genesis_hash s)
  | PendingBlock => None
  | Number num => st_hashes s !! num
  | Safe =>
      if slots_in_an_epoch <? st_best_number s
      then st_hashes s !! (st_best_number s - slots_in_an_epoch) else Some (st_genesis_hash s)
  | Finalized =>
      if slots_in_an_epoch * 2 <? st_best_number s
      then st_hashes s !! (st_best_number s - slots_in_an_epoch * 2) else Some (st_genesis_hash s)
  end.

Record Backend := mkBackend {
  b_env : Env;
  b_db : DB;
  b_fees : FeeManager.t;
  b_time : TimeManager.t;
  b_storage : BlockchainStorage;
  b_states : InMemoryBlockStates.t StateDb;
  b_prune_config : PruneStateHistoryConfig;
  b_active_snapshots : gmap Z (Z * Z);
  b_transaction_block_keeper : option Z;
  b_statics : admin.Statics;
}.

(** [do_mine_block] up to the executor: the environment of the block. *)
Definition next_block_env (env : Env) (base_fee timestamp : Z) : Env :=
  let cfg := env_cfg env in let block := env_block env in
  let cfg :=
    if block_basefee block =? 0 then
      mkCfgEnv (cfg_chain_id cfg) (cfg_spec_id cfg) (cfg_perf_all_precompiles_have_balance cfg)
        (cfg_perf_analyse_created_bytecodes cfg) (cfg_limit_contract_code_size cfg)
        (cfg_memory_limit cfg) (cfg_disable_block_gas_limit cfg) (cfg_disable_eip3607 cfg) true
    else cfg in
  mkEnv cfg
    (mkBlockEnv (u256_saturating_add (block_number block) 1) (block_coinbase block) timestamp
      (block_difficulty block) (block_prevrandao block) base_fee (block_gas_limit block))
    (env_tx env).

(** The mined transactions, by hash. *)
Definition store_transactions (block_hash block_number : Z)
  (mined : list (TransactionInfo * TypedReceipt)) (m : gmap Z MinedTransaction) :
  gmap Z MinedTransaction :=
  foldl (fun m '(info, receipt) =>
    <[ti_transaction_hash info := mkMinedTransaction info receipt block_hash block_number]> m) m mined.

(** The transactions of the block that is too old are forgotten. *)
Definition forget_transactions (keeper : option Z) (block_number : Z) (blocks : gmap Z Block)
  (hashes : gmap Z Z) (m : gmap Z MinedTransaction) : gmap Z MinedTransaction :=
  match keeper with
  | None => m
  | Some transaction_block_keeper =>
      if transaction_block_keeper <? Z.of_nat (size blocks) then
        let n := Z.max (block_number - transaction_block_keeper) 0 in
        match (hash ← hashes !! n; blocks !! hash) with
        | Some block => foldl (fun m tx => delete (pt_hash tx) m) m (bl_transactions block)
        | None => m
        end
      else m
  end.

Definition store_block (keeper : option Z) (is_eip3675 : bool) (s : BlockchainStorage)
  (info : BlockInfo) (block_number block_hash : Z) : BlockchainStorage :=
  let block := bi_block info in
  let blocks := <[block_hash := block]> (st_blocks s) in
  let hashes := <[block_number := block_hash]> (st_hashes s) in
  let transactions := store_transactions block_hash block_number
    (zip (bi_transactions info) (bi_receipts info)) (st_transactions s) in
  mkBlockchainStorage blocks hashes block_hash block_number (st_genesis_hash s)
    (forget_transactions keeper block_number blocks hashes transactions)
    (if is_eip3675 then st_total_difficulty s
     else u256_saturating_add (st_total_difficulty s) (hd_difficulty (bl_header block))).

(** [now] is the clock. *)
Definition do_mine_block (b : Backend) (now : Z) (pool_transactions : list PoolTransaction) :
  rust (pool.MinedBlockOutcome * Backend) :=
  let current_base_fee := FeeManager.base_fee (b_fees b) in
  let '(timestamp, time) := TimeManager.next_timestamp (b_time b) now in
  let env := next_block_env (b_env b) current_base_fee timestamp in
  let best_hash := st_best_hash (b_storage b) in
  states ← (if is_state_history_supported (b_prune_config b)
    then InMemoryBlockStates.insert (b_states b) best_hash (current_state (b_db b)) else Val (b_states b));
  '(executed, x) ← TransactionExecutor.execute
    (TransactionExecutor.mk (b_db b) (cfg_chain_id (env_cfg (b_env b))) (env_block env) (env_cfg env)
      best_hash 0 (b_statics b)) pool_transactions;
  let header := bl_header (bi_block (et_block executed)) in
  let block_hash := header_hash header in
  let db := insert_block_hash (TransactionExecutor.db x) (hd_number header) block_hash in
  block_number ← as_u64 (Primitives.block_number (env_block env));
  let storage := store_block (b_transaction_block_keeper b)
    (enabled (cfg_spec_id (env_cfg (b_env b))) MERGE) (b_storage b) (et_block executed)
    block_number block_hash in
  let env := mkEnv (env_cfg env)
    (mkBlockEnv (Primitives.block_number (env_block env)) (block_coinbase (env_block env))
      (block_timestamp (env_block env)) 0 (block_prevrandao (env_block env))
      (block_basefee (env_block env)) (block_gas_limit (env_block env))) (env_tx env) in
  timestamp ← utc_from_secs (hd_timestamp header);
  _ ← to_rfc2822 timestamp;
  next_block_base_fee ← FeeManager.get_next_block_base_fee_per_gas (b_fees b) (hd_gas_used header)
    (hd_gas_limit header) (default 0 (hd_base_fee_per_gas header));
  Val (pool.mkMinedBlockOutcome block_number (et_included executed) (et_invalid executed),
    mkBackend env db (FeeManager.set_base_fee (b_fees b) next_block_base_fee) time storage states
      (b_prune_config b) (b_active_snapshots b) (b_transaction_block_keeper b)
      (TransactionExecutor.statics x)).

(** ** Snapshots of the node: [create_snapshot], [revert_snapshot] *)

(** The height is that of the environment. *)
Definition best_number (b : Backend) : Z := Z.min (block_number (env_block (b_env b))) u64_max.

Definition create_snapshot (b : Backend) : Z * Backend :=
  let num := best_number b in
  let hash := st_best_hash (b_storage b) in
  let '(id, db) := snapshot (b_db b) in
  (id, mkBackend (b_env b) db (b_fees b) (b_time b) (b_storage b) (b_states b) (b_prune_config b)
    (<[id := (num, hash)]> (b_active_snapshots b))
    (b_transaction_block_keeper b) (b_statics b)).

(** The block with number [n] is forgotten, and its transactions. *)
Definition revert_block (s : BlockchainStorage) (n : Z) : BlockchainStorage :=
  match st_hashes s !! n with
  | None => s
  | Some hash =>
      let hashes := delete n (st_hashes s) in
      match st_blocks s !! hash with
      | None =>
          mkBlockchainStorage (st_blocks s) hashes (st_best_hash s) (st_best_number s)
            (st_genesis_hash s) (st_transactions s) (st_total_difficulty s)
      | Some block =>
          mkBlockchainStorage (delete hash (st_blocks s)) hashes (st_best_hash s) (st_best_number s)
            (st_genesis_hash s)
            (foldl (fun m tx => delete (pt_hash tx) m) (st_transactions s) (bl_transactions block))
            (st_total_difficulty s)
      end
  end.
(** From the current height down to the block after the snapshot's. *)
Definition revert_blocks (s : BlockchainStorage) (current_height num hash : Z) : BlockchainStorage :=
  let s := foldl revert_block s (reverse (seqZ (num + 1) (current_height - num))) in
  mkBlockchainStorage (st_blocks s) (st_hashes s) hash num (st_genesis_hash s) (st_transactions s)
    (st_total_difficulty s).
Definition set_block_number (env : Env) (n : Z) : Env :=
  let block := env_block env in
  mkEnv (env_cfg env)
    (mkBlockEnv n (block_coinbase block) (block_timestamp block) (block_difficulty block)
      (block_prevrandao block) (block_basefee block) (block_gas_limit block)) (env_tx env).

(** [None] is [BlockchainError::BlockNotFound], for a node without a fork. *)
Definition revert_snapshot (b : Backend) (now id : Z) : rust (option bool * Backend) :=
  let with_db b r db := (r, mkBackend (b_env b) db (b_fees b) (b_time b) (b_storage b) (b_states b)
    (b_prune_config b) (b_active_snapshots b) (b_transaction_block_keeper b) (b_statics b)) in
  match b_active_snapshots b !! id with
  | None => '(r, db) ← revert (b_db b) id; Val (with_db b (Some r) db)
  | Some (num, hash) =>
      let storage := revert_blocks (b_storage b) (best_number b) num hash in
      let active := delete id (b_active_snapshots b) in
      match st_blocks storage !! hash with
      | None =>
          Val (None, mkBackend (b_env b) (b_db b) (b_fees b) (b_time b) storage (b_states b)
            (b_prune_config b) active (b_transaction_block_keeper b) (b_statics b))
      | Some block =>
          let reset_time := Z.max (hd_timestamp (bl_header block) - 1) 0 in
          let b := mkBackend (set_block_number (b_env b) num) (b_db b) (b_fees b)
            (TimeManager.reset (b_time b) now reset_time) storage (b_states b) (b_prune_config b) active
            (b_transaction_block_keeper b) (b_statics b) in
          '(r, db) ← revert (b_db b) id; Val (with_db b (Some r) db)
      end
  end.
End backend.

(** ** miner.rs *)

(** A miner that takes what is ready when it was notified; the channel it
    listens to is an argument of [poll]. *)
Record ReadyTransactionMiner := mkReadyTransactionMiner {
  max_transactions : Z;
  has_pending_txs : option bool;
}.
Inductive MiningMode := NoMining | Auto (m : ReadyTransactionMiner) | FixedBlockTime.

Definition instant (max_transactions : Z) : MiningMode :=
  Auto (mkReadyTransactionMiner max_transactions None).

(** [None] is [Poll::Pending]. *)
Definition ReadyTransactionMiner_poll (m : ReadyTransactionMiner) (notified : bool)
  (p : pool.PoolInner) : option (list PoolTransaction) * ReadyTransactionMiner :=
  let has_pending_txs := if notified then Some true else has_pending_txs m in
  if bool_decide (has_pending_txs = Some false)
  then (None, mkReadyTransactionMiner (max_transactions m) has_pending_txs)
  else
    let transactions := TransactionsIterator.take (Z.to_nat (max_transactions m)) (pool.iter_ready p) in
    let m := mkReadyTransactionMiner (max_transactions m)
      (Some (max_transactions m <=? zlen transactions)) in
    (if bool_decide (transactions = []) then None else Some transactions, m).

(** The pool is drained; [fuel] bounds what the iterator yields. *)
Definition FixedBlockTimeMiner_poll (fuel : nat) (tick : bool) (p : pool.PoolInner) :
  rust (option (list PoolTransaction)) :=
  if tick then l ← TransactionsIterator.collect fuel (pool.iter_ready p); Val (Some l)
  else Val None.

Definition MiningMode_poll (mode : MiningMode) (fuel : nat) (event : bool) (p : pool.PoolInner) :
  rust (option (list PoolTransaction) * MiningMode) :=
  match mode with
  | NoMining => Val (None, mode)
  | Auto miner =>
      let '(r, miner) := ReadyTransactionMiner_poll miner event p in Val (r, Auto miner)
  | FixedBlockTime => r ← FixedBlockTimeMiner_poll fuel event p; Val (r, mode)
  end.

(** ** service.rs *)

Section service.
Context {DB : Type} {HDB : Database DB} {HR : DatabaseRef DB} {HEV : Evm DB} {HD : Db DB}.
Context {StateDb : Type} {HM : MaybeHashDatabase StateDb} {HCS : CurrentState DB StateDb} {HFI : FileSystem}.
Context {HBL : Blooms} {HBH : BlockHashing} {HTC : Chrono} {HCH : pool.Channel}.

(** The pool, the block producer with its backlog and the block it is
    working on, and the miner. *)
Record NodeService := mkNodeService {
  ns_pool : pool.Pool;
  ns_backend : Backend (DB := DB) (StateDb := StateDb);
  ns_block_mining : option (list PoolTransaction);
  ns_queued : list (list PoolTransaction);
  ns_miner : MiningMode;
}.

Definition set_pool (n : NodeService) (p : pool.Pool) : NodeService :=
  mkNodeService p (ns_backend n) (ns_block_mining n) (ns_queued n) (ns_miner n).

(** [BlockProducer::poll_next]: an idle backend takes a block from the
    backlog. *)
Definition start_block (n : NodeService) : NodeService :=
  match ns_block_mining n, ns_queued n with
  | None, transactions :: queued =>
      mkNodeService (ns_pool n) (ns_backend n) (Some transactions) queued (ns_miner n)
  | _, _ => n
  end.
(** The block is mined, and the pool is told. *)
Definition finish_block (n : NodeService) (now : Z) : rust NodeService :=
  match ns_block_mining n with
  | None => Val n
  | Some transactions =>
      '(outcome, backend) ← do_mine_block (ns_backend n) now transactions;
      '(_, p) ← pool.on_mined_block (ns_pool n) outcome;
      Val (mkNodeService p backend None (ns_queued n) (ns_miner n))
  end.
(** The miner is polled; what it returns joins the backlog. *)
Definition poll_miner (n : NodeService) (event : bool) : rust NodeService :=
  let p := pool.inner (ns_pool n) in
  let fuel := size (ReadyTransactions.ready_tx (pool.ready_transactions p)) in
  '(r, miner) ← MiningMode_poll (ns_miner n) fuel event p;
  Val (mkNodeService (ns_pool n) (ns_backend n) (ns_block_mining n)
    (match r with Some transactions => ns_queued n ++ [transactions] | None => ns_queued n end) miner).

(** What happens at the node, in any order: requests at the API, and the
    steps of its service. *)
Inductive node_event :=
| Submit (tx : PoolTransaction)
| Drop (tx : Z)
| PollMiner (event : bool)
| StartBlock
| FinishBlock (now : Z).

Definition handle (n : NodeService) (e : node_event) : rust NodeService :=
  match e with
  | Submit tx => '(_, p) ← pool.Pool_add_transaction (ns_pool n) tx; Val (set_pool n p)
  | Drop tx => '(_, p) ← pool.drop_transaction (ns_pool n) tx; Val (set_pool n p)
  | PollMiner event => poll_miner n event
  | StartBlock => Val (start_block n)
  | FinishBlock now => finish_block n now
  end.
Definition run_node (n : NodeService) (events : list node_event) : rust NodeService :=
  foldl (fun acc e => n ← acc; handle n e) (Val n) events.
End service.
