(* ===== verification/Codec.v ===== *)
(** * Encodings and hashes: [anvil/core/src/eth/transaction/mod.rs], [receipt.rs], [block.rs], [proof.rs], [utils.rs]

    The [rlp::Encodable] and [rlp::Decodable] implementations of transactions,
    requests, receipts, headers and blocks; the hashes that are taken of the
    encodings; the recovery of the sender.  The crate [rlp] itself, the
    encodings of the types of [ethers], Keccak and the elliptic curve are
    parameters. *)

From stdpp Require Import base option list gmap.
From Stdlib Require Import ZArith Lia.
From S2P Require Import Prelude Primitives CacheDB NodeDb EthTransaction EthRequest TxPool Miner.

(** ** The crates: encoders make bytes, [Rlp] is a view of bytes *)
Class Rlp := {
  (** [encode_value], also [append] of a byte slice or vector *)
  encode_value : list Z -> list Z;
  (** [begin_list(n)] followed by [n] items *)
  encode_list : list (list Z) -> list Z;
  (** [u8], [u64] and [U256] *)
  encode_uint : Z -> list Z;
  encode_bool : bool -> list Z;
  (** [H64], [H160] and [H256] *)
  encode_fixed : nat -> Z -> list Z;
  encode_access_list_item : Z * list Z -> list Z;
  encode_access_list : AccessList -> list Z;
  rlp_data : list Z -> option (list Z);
  rlp_is_list : list Z -> bool;
  rlp_is_data : list Z -> bool;
  rlp_is_empty : list Z -> bool;
  rlp_item_count : list Z -> option nat;
  rlp_at : list Z -> nat -> option (list Z);
  rlp_iter : list Z -> list (list Z);
  decode_bytes : list Z -> option (list Z);
  decode_uint : Z -> list Z -> option Z;
  decode_bool : list Z -> option bool;
  decode_fixed : nat -> list Z -> option Z;
  decode_access_list : list Z -> option AccessList;
}.

Class BloomRlp {HBL : Blooms} := {
  encode_bloom : Bloom -> list Z;
  decode_bloom : list Z -> option Bloom;
}.

(** The crates of signatures: [Signature::recover] and [recovery_id]. *)
Class Signatures := {
  recovery_id : Signature -> option Z;
  signature_recover : Signature -> Z -> option Z;
}.

Section rlp.
Context {HRL : Rlp}.

Definition val_at {A : Type} (decode : list Z -> option A) (rlp : list Z) (i : nat) : option A :=
  x ← rlp_at rlp i; decode x.
Definition list_at {A : Type} (decode : list Z -> option A) (rlp : list Z) (i : nat) : option (list A) :=
  x ← rlp_at rlp i; mapM decode (rlp_iter x).
(** [append_list] and [encode_list] of a slice. *)
Definition append_list {A : Type} (encode : A -> list Z) (l : list A) : list Z := encode_list (encode <$> l).

(** [utils.rs] *)
Definition enveloped (id : Z) (encoded : list Z) : list Z := encode_value (id :: encoded).

(** ** Transactions *)
Definition TransactionKind_encode (k : TransactionKind.t) : list Z :=
  match k with
  | TransactionKind.Call address => encode_value (to_be_bytes 20 address)
  | TransactionKind.Create => encode_value []
  end.
Definition TransactionKind_decode (rlp : list Z) : option TransactionKind.t :=
  if rlp_is_empty rlp then
    if rlp_is_data rlp then Some TransactionKind.Create else None
  else TransactionKind.Call <$> decode_fixed 20 rlp.

Definition LegacyTransaction_encode (t : LegacyTransaction) : list Z :=
  encode_list [encode_uint (lt_nonce t); encode_uint (lt_gas_price t); encode_uint (lt_gas_limit t);
    TransactionKind_encode (lt_kind t); encode_uint (lt_value t); encode_value (lt_input t);
    encode_uint (sig_v (lt_signature t)); encode_uint (sig_r (lt_signature t));
    encode_uint (sig_s (lt_signature t))].
Definition LegacyTransaction_decode (rlp : list Z) : option LegacyTransaction :=
  n ← rlp_item_count rlp;
  if negb (n =? 9)%nat then None
  else
    v ← val_at (decode_uint 64) rlp 6;
    r ← val_at (decode_uint 256) rlp 7;
    s ← val_at (decode_uint 256) rlp 8;
    nonce ← val_at (decode_uint 256) rlp 0;
    gas_price ← val_at (decode_uint 256) rlp 1;
    gas_limit ← val_at (decode_uint 256) rlp 2;
    kind ← val_at TransactionKind_decode rlp 3;
    value ← val_at (decode_uint 256) rlp 4;
    input ← val_at decode_bytes rlp 5;
    Some (mkLegacyTransaction nonce gas_price gas_limit kind value input (mkSignature r s v)).

Definition EIP2930Transaction_encode (t : EIP2930Transaction) : list Z :=
  encode_list [encode_uint (at_chain_id t); encode_uint (at_nonce t); encode_uint (at_gas_price t);
    encode_uint (at_gas_limit t); TransactionKind_encode (at_kind t); encode_uint (at_value t);
    encode_value (at_input t); encode_access_list (at_access_list t); encode_bool (at_odd_y_parity t);
    encode_uint (at_r t); encode_uint (at_s t)].
Definition EIP2930Transaction_decode (rlp : list Z) : option EIP2930Transaction :=
  n ← rlp_item_count rlp;
  if negb (n =? 11)%nat then None
  else
    chain_id ← val_at (decode_uint 64) rlp 0;
    nonce ← val_at (decode_uint 256) rlp 1;
    gas_price ← val_at (decode_uint 256) rlp 2;
    gas_limit ← val_at (decode_uint 256) rlp 3;
    kind ← val_at TransactionKind_decode rlp 4;
    value ← val_at (decode_uint 256) rlp 5;
    input ← val_at decode_bytes rlp 6;
    access_list ← val_at decode_access_list rlp 7;
    odd_y_parity ← val_at decode_bool rlp 8;
    r ← val_at (decode_uint 256) rlp 9;
    s ← val_at (decode_uint 256) rlp 10;
    Some (mkEIP2930Transaction chain_id nonce gas_price gas_limit kind value input access_list
      odd_y_parity r s).

Definition EIP1559Transaction_encode (t : EIP1559Transaction) : list Z :=
  encode_list [encode_uint (ft_chain_id t); encode_uint (ft_nonce t);
    encode_uint (ft_max_priority_fee_per_gas t); encode_uint (ft_max_fee_per_gas t);
    encode_uint (ft_gas_limit t); TransactionKind_encode (ft_kind t); encode_uint (ft_value t);
    encode_value (ft_input t); encode_access_list (ft_access_list t); encode_bool (ft_odd_y_parity t);
    encode_uint (ft_r t); encode_uint (ft_s t)].
Definition EIP1559Transaction_decode (rlp : list Z) : option EIP1559Transaction :=
  n ← rlp_item_count rlp;
  if negb (n =? 12)%nat then None
  else
    chain_id ← val_at (decode_uint 64) rlp 0;
    nonce ← val_at (decode_uint 256) rlp 1;
    max_priority_fee_per_gas ← val_at (decode_uint 256) rlp 2;
    max_fee_per_gas ← val_at (decode_uint 256) rlp 3;
    gas_limit ← val_at (decode_uint 256) rlp 4;
    kind ← val_at TransactionKind_decode rlp 5;
    value ← val_at (decode_uint 256) rlp 6;
    input ← val_at decode_bytes rlp 7;
    access_list ← val_at decode_access_list rlp 8;
    odd_y_parity ← val_at decode_bool rlp 9;
    r ← val_at (decode_uint 256) rlp 10;
    s ← val_at (decode_uint 256) rlp 11;
    Some (mkEIP1559Transaction chain_id nonce max_priority_fee_per_gas max_fee_per_gas gas_limit kind
      value input access_list odd_y_parity r s).

Definition TypedTransaction_encode (tx : TypedTransaction) : list Z :=
  match tx with
  | Legacy tx => LegacyTransaction_encode tx
  | EIP2930 tx => enveloped 1 (EIP2930Transaction_encode tx)
  | EIP1559 tx => enveloped 2 (EIP1559Transaction_encode tx)
  end.
Definition TypedTransaction_decode (rlp : list Z) : option TypedTransaction :=
  data ← rlp_data rlp;
  match data with
  | [] => None
  | first :: s =>
      if rlp_is_list rlp then Legacy <$> LegacyTransaction_decode rlp
      else if first =? 1 then EIP2930 <$> EIP2930Transaction_decode s
      else if first =? 2 then EIP1559 <$> EIP1559Transaction_decode s
      else None
  end.

(** ** Requests *)
Definition LegacyTransactionRequest_encode (r : LegacyTransactionRequest) : list Z :=
  let body := [encode_uint (lr_nonce r); encode_uint (lr_gas_price r); encode_uint (lr_gas_limit r);
    TransactionKind_encode (lr_kind r); encode_uint (lr_value r); encode_value (lr_input r)] in
  match lr_chain_id r with
  | Some chain_id => encode_list (body ++ [encode_uint chain_id; encode_uint 0; encode_uint 0])
  | None => encode_list body
  end.
Definition EIP2930TransactionRequest_encode (r : EIP2930TransactionRequest) : list Z :=
  encode_list [encode_uint (ar_chain_id r); encode_uint (ar_nonce r); encode_uint (ar_gas_price r);
    encode_uint (ar_gas_limit r); TransactionKind_encode (ar_kind r); encode_uint (ar_value r);
    encode_value (ar_input r); append_list encode_access_list_item (ar_access_list r)].
Definition EIP1559TransactionRequest_encode (r : EIP1559TransactionRequest) : list Z :=
  encode_list [encode_uint (fr_chain_id r); encode_uint (fr_nonce r);
    encode_uint (fr_max_priority_fee_per_gas r); encode_uint (fr_max_fee_per_gas r);
    encode_uint (fr_gas_limit r); TransactionKind_encode (fr_kind r); encode_uint (fr_value r);
    encode_value (fr_input r); append_list encode_access_list_item (fr_access_list r)].
End rlp.

(** ** Hashes and senders *)
Section hash.
Context {HRL : Rlp} {HCR : Crypto} {HSG : Signatures}.

Definition LegacyTransactionRequest_hash (r : LegacyTransactionRequest) : Z :=
  keccak256 (LegacyTransactionRequest_encode r).
Definition EIP2930TransactionRequest_hash (r : EIP2930TransactionRequest) : Z :=
  keccak256 (1 :: EIP2930TransactionRequest_encode r).
Definition EIP1559TransactionRequest_hash (r : EIP1559TransactionRequest) : Z :=
  keccak256 (2 :: EIP1559TransactionRequest_encode r).

Definition LegacyTransaction_hash (t : LegacyTransaction) : Z := keccak256 (LegacyTransaction_encode t).
Definition EIP2930Transaction_hash (t : EIP2930Transaction) : Z :=
  keccak256 (1 :: EIP2930Transaction_encode t).
Definition EIP1559Transaction_hash (t : EIP1559Transaction) : Z :=
  keccak256 (2 :: EIP1559Transaction_encode t).

Definition LegacyTransaction_recover (t : LegacyTransaction) : option Z :=
  signature_recover (lt_signature t) (LegacyTransactionRequest_hash (LegacyTransactionRequest_from t)).
(** The signature is made of the 65 bytes of [r], [s] and the parity. *)
Definition EIP2930Transaction_recover (t : EIP2930Transaction) : option Z :=
  signature_recover (mkSignature (at_r t) (at_s t) (Z.b2z (at_odd_y_parity t)))
    (EIP2930TransactionRequest_hash (EIP2930TransactionRequest_from t)).
Definition EIP1559Transaction_recover (t : EIP1559Transaction) : option Z :=
  signature_recover (mkSignature (ft_r t) (ft_s t) (Z.b2z (ft_odd_y_parity t)))
    (EIP1559TransactionRequest_hash (EIP1559TransactionRequest_from t)).

Definition TypedTransaction_hash (tx : TypedTransaction) : Z :=
  match tx with
  | Legacy t => LegacyTransaction_hash t
  | EIP2930 t => EIP2930Transaction_hash t
  | EIP1559 t => EIP1559Transaction_hash t
  end.
Definition TypedTransaction_recover (tx : TypedTransaction) : option Z :=
  match tx with
  | Legacy t => LegacyTransaction_recover t
  | EIP2930 t => EIP2930Transaction_recover t
  | EIP1559 t => EIP1559Transaction_recover t
  end.

Definition IMPERSONATED_SIGNATURE : Signature := mkSignature 0 0 0.
Definition TypedTransaction_is_impersonated (tx : TypedTransaction) : bool :=
  bool_decide (TypedTransaction.signature tx = IMPERSONATED_SIGNATURE).
Definition impersonated_hash (tx : TypedTransaction) (sender : Z) : Z :=
  keccak256 (TypedTransaction_encode tx ++ to_be_bytes 20 sender).

(** The wrapper that keeps the impersonated sender. *)
Record MaybeImpersonatedTransaction := mkMaybeImpersonated {
  mi_transaction : TypedTransaction;
  mi_impersonated_sender : option Z;
}.
Definition MaybeImpersonatedTransaction_recover (t : MaybeImpersonatedTransaction) : option Z :=
  match mi_impersonated_sender t with
  | Some sender => Some sender
  | None => TypedTransaction_recover (mi_transaction t)
  end.
Definition MaybeImpersonatedTransaction_hash (t : MaybeImpersonatedTransaction) : Z :=
  match (if TypedTransaction_is_impersonated (mi_transaction t) then mi_impersonated_sender t else None) with
  | Some sender => impersonated_hash (mi_transaction t) sender
  | None => TypedTransaction_hash (mi_transaction t)
  end.

(** [PendingTransaction::new] and [with_impersonated]. *)
Definition PendingTransaction_new (tx : TypedTransaction) : option PendingTransaction :=
  sender ← TypedTransaction_recover tx; Some (mkPendingTransaction tx sender (TypedTransaction_hash tx)).
Definition with_impersonated (tx : TypedTransaction) (sender : Z) : PendingTransaction :=
  mkPendingTransaction tx sender (impersonated_hash tx sender).
End hash.

(** ** Receipts *)
Section receipt.
Context {HRL : Rlp} {HBL : Blooms} {HBR : BloomRlp}.

Definition Log_encode (l : Log) : list Z :=
  encode_list [encode_fixed 20 (log_address l); append_list (encode_fixed 32) (log_topics l);
    encode_value (log_data l)].
Definition Log_decode (rlp : list Z) : option Log :=
  address ← val_at (decode_fixed 20) rlp 0;
  topics ← list_at (decode_fixed 32) rlp 1;
  data ← val_at decode_bytes rlp 2;
  Some (mkLog address topics data).

Definition EIP658Receipt_encode (r : EIP658Receipt) : list Z :=
  encode_list [encode_uint (status_code r); encode_uint (receipt_gas_used r);
    encode_bloom (receipt_logs_bloom r); append_list Log_encode (receipt_logs r)].
Definition EIP658Receipt_decode (rlp : list Z) : option EIP658Receipt :=
  status_code ← val_at (decode_uint 8) rlp 0;
  gas_used ← val_at (decode_uint 256) rlp 1;
  logs_bloom ← val_at decode_bloom rlp 2;
  logs ← list_at Log_decode rlp 3;
  Some (mkEIP658Receipt status_code gas_used logs_bloom logs).

Definition TypedReceipt_encode (r : TypedReceipt) : list Z :=
  match r with
  | LegacyReceipt r => EIP658Receipt_encode r
  | EIP2930Receipt r => enveloped 1 (EIP658Receipt_encode r)
  | EIP1559Receipt r => enveloped 2 (EIP658Receipt_encode r)
  end.
Definition TypedReceipt_decode (rlp : list Z) : option TypedReceipt :=
  slice ← rlp_data rlp;
  match slice with
  | [] => None
  | first :: s =>
      if rlp_is_list rlp then LegacyReceipt <$> EIP658Receipt_decode rlp
      else if first =? 1 then EIP2930Receipt <$> EIP658Receipt_decode s
      else if first =? 2 then EIP1559Receipt <$> EIP658Receipt_decode s
      else None
  end.

(** ** Blocks *)
Definition Header_encode (h : Header) : list Z :=
  encode_list ([encode_fixed 32 (hd_parent_hash h); encode_fixed 32 (hd_ommers_hash h);
    encode_fixed 20 (hd_beneficiary h); encode_fixed 32 (hd_state_root h);
    encode_fixed 32 (hd_transactions_root h); encode_fixed 32 (hd_receipts_root h);
    encode_bloom (hd_logs_bloom h); encode_uint (hd_difficulty h); encode_uint (hd_number h);
    encode_uint (hd_gas_limit h); encode_uint (hd_gas_used h); encode_uint (hd_timestamp h);
    encode_value (hd_extra_data h); encode_fixed 32 (hd_mix_hash h); encode_fixed 8 (hd_nonce h)] ++
    match hd_base_fee_per_gas h with Some base_fee => [encode_uint base_fee] | None => [] end).
Definition Header_decode (rlp : list Z) : option Header :=
  parent_hash ← val_at (decode_fixed 32) rlp 0;
  ommers_hash ← val_at (decode_fixed 32) rlp 1;
  beneficiary ← val_at (decode_fixed 20) rlp 2;
  state_root ← val_at (decode_fixed 32) rlp 3;
  transactions_root ← val_at (decode_fixed 32) rlp 4;
  receipts_root ← val_at (decode_fixed 32) rlp 5;
  logs_bloom ← val_at decode_bloom rlp 6;
  difficulty ← val_at (decode_uint 256) rlp 7;
  number ← val_at (decode_uint 256) rlp 8;
  gas_limit ← val_at (decode_uint 256) rlp 9;
  gas_used ← val_at (decode_uint 256) rlp 10;
  timestamp ← val_at (decode_uint 64) rlp 11;
  extra_data ← val_at decode_bytes rlp 12;
  mix_hash ← val_at (decode_fixed 32) rlp 13;
  nonce ← val_at (decode_fixed 8) rlp 14;
  base_fee_per_gas ← match rlp_at rlp 15 with
    | Some base_fee => Some <$> decode_uint 256 base_fee
    | None => Some None
    end;
  Some (mkHeader parent_hash ommers_hash beneficiary state_root transactions_root receipts_root
    logs_bloom difficulty number gas_limit gas_used timestamp extra_data mix_hash nonce
    base_fee_per_gas).

Definition Block_encode (b : Block) : list Z :=
  encode_list [Header_encode (bl_header b);
    append_list (fun t => TypedTransaction_encode (pt_transaction t)) (bl_transactions b);
    append_list Header_encode (bl_ommers b)].

(** What [Block::new] and the executor hash. *)
Context {HCR : Crypto} (ordered_trie_root : list (list Z) -> Z).
#[local] Instance rlp_block_hashing : BlockHashing := {
  header_hash h := keccak256 (Header_encode h);
  ommers_hash_of ommers := keccak256 (append_list Header_encode ommers);
  transactions_root_of txs :=
    ordered_trie_root ((fun t => TypedTransaction_encode (pt_transaction t)) <$> txs);
  receipts_root_of receipts := ordered_trie_root (TypedReceipt_encode <$> receipts);
}.
End receipt.

(** ** Accounts, for proofs and the state root *)
Section account.
Context {HRL : Rlp}.

(** The Keccak hash of the encoding of the empty string. *)
Definition KECCAK_NULL_RLP : Z :=
  0x56e81f171bcc55a6ff8345e692c0f86e5b48e01b996cadc001622fb5e363b421.

Record BasicAccount := mkBasicAccount {
  ba_nonce : Z;
  ba_balance : Z;
  ba_storage_root : Z;
  ba_code_hash : Z;
}.
Definition BasicAccount_default : BasicAccount := mkBasicAccount 0 0 KECCAK_NULL_RLP KECCAK_EMPTY.
Definition BasicAccount_encode (a : BasicAccount) : list Z :=
  encode_list [encode_uint (ba_nonce a); encode_uint (ba_balance a); encode_fixed 32 (ba_storage_root a);
    encode_fixed 32 (ba_code_hash a)].
Definition BasicAccount_decode (rlp : list Z) : option BasicAccount :=
  nonce ← val_at (decode_uint 256) rlp 0;
  balance ← val_at (decode_uint 256) rlp 1;
  storage_root ← val_at (decode_fixed 32) rlp 2;
  code_hash ← val_at (decode_fixed 32) rlp 3;
  Some (mkBasicAccount nonce balance storage_root code_hash).

(** [backend/mem/state.rs]: the secure trie, whose keys have a width, is
    third-party. *)
Context {HCR : Crypto} (sec_trie_root : nat -> gmap Z (list Z) -> Z).
Definition log_rlp_hash (logs : list Log) : Z := keccak256 (append_list Log_encode logs).
Definition storage_trie_db (storage : gmap Z Z) : Z :=
  sec_trie_root 32 (encode_uint <$> filter (fun '(_, v) => v <> 0) storage).
Definition trie_account_rlp (info : AccountInfo) (storage : gmap Z Z) : list Z :=
  encode_list [encode_uint (nonce info); encode_uint (balance info);
    encode_fixed 32 (storage_trie_db storage); encode_value (to_be_bytes 32 (code_hash info))].
Definition trie_accounts (accounts : gmap Z DbAccount) : gmap Z (list Z) :=
  (fun account => trie_account_rlp (da_info account) (da_storage account)) <$> accounts.
#[local] Instance rlp_tries : Tries := {
  state_merkle_trie_root accounts := sec_trie_root 20 (trie_accounts accounts);
}.
End account.
