(* ===== verification/RlpCrate.v ===== *)
(** * What the code relies on of the crate [rlp], and an RLP that does it

    [RlpSpec] states the documented behaviour of the encoders and decoders
    that are parameters of [Codec]: what an encoder wrote is one item, of
    which the view reads it back.  [yellow_rlp] is the encoding of Appendix B
    of the yellow paper; it meets the specification, so that theorems that
    assume it can be instantiated. *)

From stdpp Require Import base option list gmap.
From Stdlib Require Import ZArith Lia.
From S2P Require Import Prelude Primitives EthTransaction Miner Codec.

Definition access_item_ok (item : Z * list Z) : Prop := is_b160 item.1 /\ Forall is_u256 item.2.

(** Lengths are u64. *)
Class RlpSpec {HRL : Rlp} := {
  rlp_item : list Z -> Prop;
  value_fits : list Z -> Prop := fun b => Forall is_u8 b /\ zlen b < 2 ^ 64;
  list_fits : list (list Z) -> Prop := fun l => Forall rlp_item l /\ zlen (encode_list l) < 2 ^ 64;
  item_bytes : forall x, rlp_item x -> Forall is_u8 x;
  item_nonempty : forall x, rlp_item x -> x <> [];
  value_item : forall b, value_fits b -> rlp_item (encode_value b);
  value_data : forall b, value_fits b -> rlp_data (encode_value b) = Some b;
  value_not_list : forall b, value_fits b -> rlp_is_list (encode_value b) = false;
  value_is_data : forall b, value_fits b -> rlp_is_data (encode_value b) = true;
  value_empty : forall b, value_fits b -> rlp_is_empty (encode_value b) = bool_decide (b = []);
  value_bytes : forall b, value_fits b -> decode_bytes (encode_value b) = Some b;
  value_length : forall b, zlen b <= zlen (encode_value b);
  uint_item : forall z, is_u256 z -> rlp_item (encode_uint z);
  uint_decode : forall w z, 0 <= z < 2 ^ w -> w <= 256 -> decode_uint w (encode_uint z) = Some z;
  bool_item : forall b, rlp_item (encode_bool b);
  bool_decode_encode : forall b, decode_bool (encode_bool b) = Some b;
  fixed_value : forall n z, encode_fixed n z = encode_value (to_be_bytes n z);
  fixed_decode : forall n z, (n <= 32)%nat -> 0 <= z < 256 ^ Z.of_nat n ->
    decode_fixed n (encode_value (to_be_bytes n z)) = Some z;
  list_item : forall l, list_fits l -> rlp_item (encode_list l);
  list_data : forall l, list_fits l -> rlp_data (encode_list l) = Some (mjoin l);
  list_is_list : forall l, list_fits l -> rlp_is_list (encode_list l) = true;
  list_count : forall l, list_fits l -> rlp_item_count (encode_list l) = Some (length l);
  list_nth : forall l i, list_fits l -> rlp_at (encode_list l) i = l !! i;
  list_iter : forall l, list_fits l -> rlp_iter (encode_list l) = l;
  list_length : forall l, zlen (mjoin l) <= zlen (encode_list l);
  list_head : forall l, exists h t, encode_list l = h :: t /\ 0x7f < h;
  access_list_encoded : forall l, encode_access_list l = append_list encode_access_list_item l;
  access_list_fits : forall l, Forall access_item_ok l -> zlen (encode_access_list l) < 2 ^ 64 ->
    rlp_item (encode_access_list l);
  access_list_decode : forall l, Forall access_item_ok l -> zlen (encode_access_list l) < 2 ^ 64 ->
    decode_access_list (encode_access_list l) = Some l;
}.

(** ** Appendix B *)
Module yellow.
(** The shortest big-endian bytes of a number. *)
Definition byte_count (z : Z) : nat := if z =? 0 then 0 else Z.to_nat (Z.log2 z / 8 + 1).
Definition minimal (z : Z) : list Z := to_be_bytes (byte_count z) z.
Definition header (base n : Z) : list Z :=
  if n <? 56 then [base + n] else base + 55 + zlen (minimal n) :: minimal n.
Definition value (b : list Z) : list Z :=
  match b with
  | [x] => if x <? 128 then b else header 0x80 1 ++ b
  | _ => header 0x80 (zlen b) ++ b
  end.
Definition lst (l : list (list Z)) : list Z := header 0xc0 (zlen (mjoin l)) ++ mjoin l.

(** Whether the first item is a list, its payload, and what follows it. *)
Definition payload (is_list : bool) (n : Z) (x : list Z) : option (bool * list Z * list Z) :=
  if n <=? zlen x then Some (is_list, take (Z.to_nat n) x, drop (Z.to_nat n) x) else None.
Definition long (is_list : bool) (n : Z) (x : list Z) : option (bool * list Z * list Z) :=
  if n <=? zlen x
  then payload is_list (from_be_bytes (take (Z.to_nat n) x)) (drop (Z.to_nat n) x) else None.
Definition parse (x : list Z) : option (bool * list Z * list Z) :=
  match x with
  | [] => None
  | h :: t =>
      if h <? 0x80 then Some (false, [h], t)
      else if h <? 0xb8 then payload false (h - 0x80) t
      else if h <? 0xc0 then long false (h - 0xb7) t
      else if h <? 0xf8 then payload true (h - 0xc0) t
      else long true (h - 0xf7) t
  end.
Fixpoint split (fuel : nat) (x : list Z) : option (list (list Z)) :=
  match fuel, x with
  | _, [] => Some []
  | O, _ => None
  | S fuel, _ =>
      '(_, _, rest) ← parse x;
      items ← split fuel rest;
      Some (take (length x - length rest)%nat x :: items)
  end.
Definition items (x : list Z) : option (list (list Z)) :=
  '(is_list, p, _) ← parse x; if (is_list : bool) then split (length p) p else None.
Definition data (x : list Z) : option (list Z) := '(_, p, _) ← parse x; Some p.
Definition is_list (x : list Z) : bool :=
  match parse x with Some (b, _, _) => b | None => false end.
Definition bytes (x : list Z) : option (list Z) :=
  '(is_list, p, _) ← parse x; if (is_list : bool) then None else Some p.
Definition uint (w : Z) (x : list Z) : option Z :=
  p ← bytes x;
  let z := from_be_bytes p in
  if bool_decide (head p = Some 0) || (2 ^ w <=? z) then None else Some z.
Definition fixed (n : nat) (x : list Z) : option Z :=
  p ← bytes x; if (length p =? n)%nat then Some (from_be_bytes p) else None.
Definition boolean (x : list Z) : option bool :=
  z ← uint 8 x; if z =? 0 then Some false else if z =? 1 then Some true else None.
Definition list_of {A : Type} (f : list Z -> option A) (x : list Z) : option (list A) :=
  l ← items x; mapM f l.
Definition access_item (item : Z * list Z) : list Z :=
  lst [value (to_be_bytes 20 item.1); lst ((fun k => value (to_be_bytes 32 k)) <$> item.2)].
Definition access_item_decode (x : list Z) : option (Z * list Z) :=
  l ← items x;
  match l with
  | [a; ks] => a ← fixed 20 a; ks ← list_of (fixed 32) ks; Some (a, ks)
  | _ => None
  end.
Definition access_list_decode : list Z -> option AccessList := list_of access_item_decode.
End yellow.

Definition yellow_rlp : Rlp := {|
  encode_value := yellow.value;
  encode_list := yellow.lst;
  encode_uint z := yellow.value (yellow.minimal z);
  encode_bool b := yellow.value (yellow.minimal (Z.b2z b));
  encode_fixed n z := yellow.value (to_be_bytes n z);
  encode_access_list_item := yellow.access_item;
  encode_access_list l := yellow.lst (yellow.access_item <$> l);
  rlp_data := yellow.data;
  rlp_is_list := yellow.is_list;
  rlp_is_data x := negb (yellow.is_list x);
  rlp_is_empty x := bool_decide (yellow.data x = Some []);
  rlp_item_count x := length <$> yellow.items x;
  rlp_at x i := yellow.items x ≫= (fun l => l !! i);
  rlp_iter x := default [] (yellow.items x);
  decode_bytes := yellow.bytes;
  decode_uint := yellow.uint;
  decode_bool := yellow.boolean;
  decode_fixed := yellow.fixed;
  decode_access_list := yellow.access_list_decode;
|}.

(** ** Its proofs *)
Module yellow_spec.
Import yellow.

Lemma byte_count_bound (z : Z) : 0 <= z -> z < 256 ^ Z.of_nat (byte_count z).
Proof.
  intros Hz. unfold byte_count. destruct (Z.eqb_spec z 0) as [->|]; [done|].
  pose proof (Z.log2_nonneg z). pose proof (Z.log2_spec z ltac:(lia)) as [_ H1].
  rewrite Z2Nat.id by (Z.to_euclidean_division_equations; lia).
  change 256 with (2 ^ 8). rewrite <- Z.pow_mul_r by (Z.to_euclidean_division_equations; lia).
  eapply Z.lt_le_trans; [apply H1|]. apply Z.pow_le_mono_r; Z.to_euclidean_division_equations; lia.
Qed.
Lemma byte_count_least (n : nat) (z : Z) : 0 <= z < 256 ^ Z.of_nat n -> (byte_count z <= n)%nat.
Proof.
  intros [H0 Hz]. unfold byte_count. destruct (Z.eqb_spec z 0); [lia|].
  change 256 with (2 ^ 8) in Hz. rewrite <- Z.pow_mul_r in Hz by lia.
  apply Z.log2_lt_pow2 in Hz; [|lia]. pose proof (Z.log2_nonneg z).
  apply Nat2Z.inj_le. rewrite Z2Nat.id by (Z.to_euclidean_division_equations; lia).
  Z.to_euclidean_division_equations; lia.
Qed.
Lemma minimal_bytes (z : Z) : Forall is_u8 (minimal z).
Proof. apply to_be_u8. Qed.
Lemma zlen_minimal (z : Z) : zlen (minimal z) = Z.of_nat (byte_count z).
Proof. apply zlen_to_be. Qed.
Lemma from_minimal (z : Z) : 0 <= z -> from_be_bytes (minimal z) = z.
Proof.
  intros Hz. unfold minimal. rewrite from_to_be. apply Z.mod_small.
  split; [done|by apply byte_count_bound].
Qed.
Lemma minimal_head (z : Z) : 0 <= z -> head (minimal z) ≠ Some 0.
Proof.
  intros Hz. unfold minimal. destruct (byte_count z) as [|n] eqn:Hn; [done|].
  cbn [to_be_bytes head]. intros [= H0].
  destruct (Z.lt_ge_cases z (256 ^ Z.of_nat n)) as [Hl|Hl].
  { pose proof (byte_count_least n z ltac:(lia)). lia. }
  pose proof (byte_count_bound z Hz) as Hb. rewrite Hn, Nat2Z.inj_succ, Z.pow_succ_r in Hb by lia.
  assert (1 <= z / 256 ^ Z.of_nat n < 256).
  { split; [apply Z.div_le_lower_bound; lia|apply Z.div_lt_upper_bound; lia]. }
  rewrite Z.mod_small in H0 by lia. lia.
Qed.
Lemma minimal_u64 (z : Z) : 0 <= z < 2 ^ 64 -> zlen (minimal z) <= 8.
Proof. intros Hz. rewrite zlen_minimal. pose proof (byte_count_least 8 z ltac:(lia)). lia. Qed.

Lemma payload_app (b : bool) (p rest : list Z) : payload b (zlen p) (p ++ rest) = Some (b, p, rest).
Proof.
  unfold payload. rewrite zlen_app. pose proof (zlen_nonneg rest).
  rewrite (proj2 (Z.leb_le _ _)) by lia. unfold zlen. rewrite Nat2Z.id.
  by rewrite take_app_length, drop_app_length.
Qed.
Lemma long_app (b : bool) (p rest : list Z) :
  long b (zlen (minimal (zlen p))) (minimal (zlen p) ++ p ++ rest) = Some (b, p, rest).
Proof.
  unfold long. rewrite zlen_app. pose proof (zlen_nonneg (p ++ rest)).
  rewrite (proj2 (Z.leb_le _ _)) by lia. unfold zlen at 1 4. rewrite Nat2Z.id.
  rewrite take_app_length, drop_app_length, from_minimal by apply zlen_nonneg. apply payload_app.
Qed.
Lemma parse_header (b : bool) (p rest : list Z) :
  zlen p < 2 ^ 64 ->
  parse ((header (if b then 0xc0 else 0x80) (zlen p) ++ p) ++ rest) = Some (b, p, rest).
Proof.
  intros Hp. pose proof (zlen_nonneg p). unfold header.
  rewrite <- app_assoc. destruct (Z.ltb_spec (zlen p) 56).
  - cbn [app parse]. destruct b.
    + rewrite !(proj2 (Z.ltb_ge _ _)) by lia. rewrite (proj2 (Z.ltb_lt _ _)) by lia.
      replace (192 + zlen p - 192) with (zlen p) by lia. apply payload_app.
    + rewrite (proj2 (Z.ltb_ge _ _)) by lia. rewrite (proj2 (Z.ltb_lt _ _)) by lia.
      replace (128 + zlen p - 128) with (zlen p) by lia. apply payload_app.
  - pose proof (minimal_u64 (zlen p) ltac:(lia)) as H8.
    assert (1 <= zlen (minimal (zlen p))).
    { pose proof (byte_count_bound (zlen p) ltac:(lia)) as Hb. rewrite zlen_minimal.
      destruct (byte_count (zlen p)); [simpl in Hb; lia|lia]. }
    cbn [app parse]. destruct b.
    + rewrite !(proj2 (Z.ltb_ge _ _)) by lia.
      replace (192 + 55 + _ - 247) with (zlen (minimal (zlen p))) by lia. apply long_app.
    + rewrite !(proj2 (Z.ltb_ge _ _)) by lia. rewrite (proj2 (Z.ltb_lt _ 192)) by lia.
      replace (128 + 55 + _ - 183) with (zlen (minimal (zlen p))) by lia. apply long_app.
Qed.

Lemma header_bytes (base n : Z) : 0 <= base <= 0xc0 -> 0 <= n < 2 ^ 64 -> Forall is_u8 (header base n).
Proof.
  intros Hb Hn. unfold header. pose proof (minimal_u64 n Hn). pose proof (zlen_nonneg (minimal n)).
  destruct (Z.ltb_spec n 56); constructor; [range_unfold; lia|constructor| |apply minimal_bytes].
  unfold is_u8. lia.
Qed.

(** Bytes that start with an item can be told from what follows. *)
Definition item (x : list Z) : Prop :=
  Forall is_u8 x /\ exists b p, forall rest, parse (x ++ rest) = Some (b, p, rest).

Lemma parse_value (b rest : list Z) :
  Forall is_u8 b -> zlen b < 2 ^ 64 -> parse (value b ++ rest) = Some (false, b, rest).
Proof.
  intros H8 Hb. destruct b as [|x [|y b]]; [apply (parse_header false)|..|apply (parse_header false)]; [done| |done].
  unfold value. destruct (Z.ltb_spec x 128) as [Hx|Hx]; [|by apply (parse_header false [x])].
  cbn [app parse]. by rewrite (proj2 (Z.ltb_lt _ _)) by lia.
Qed.
Lemma parse_list (l : list (list Z)) (rest : list Z) :
  zlen (mjoin l) < 2 ^ 64 -> parse (lst l ++ rest) = Some (true, mjoin l, rest).
Proof. apply (parse_header true). Qed.
Lemma item_value (b : list Z) : Forall is_u8 b -> zlen b < 2 ^ 64 -> item (value b).
Proof.
  intros H8 Hb. split; [|exists false, b; intros rest; by apply parse_value].
  pose proof (zlen_nonneg b). unfold value.
  destruct b as [|x [|y b]]; [|destruct (x <? 128); [done|]|]; apply Forall_app; (split; [|done]);
    apply header_bytes; range_unfold; simpl in *; lia.
Qed.
Lemma items_bytes (l : list (list Z)) : Forall item l -> Forall is_u8 (mjoin l).
Proof.
  induction 1 as [|x l [Hx _] Hl IH]; [done|].
  change (mjoin (x :: l)) with (x ++ mjoin l). by apply Forall_app.
Qed.
Lemma item_list (l : list (list Z)) : Forall item l -> zlen (mjoin l) < 2 ^ 64 -> item (lst l).
Proof.
  intros Hl H. split; [|exists true, (mjoin l); intros rest; by apply parse_list].
  apply Forall_app. split; [|by apply items_bytes].
  apply header_bytes; [lia|]. pose proof (zlen_nonneg (mjoin l)). lia.
Qed.

Lemma split_items (l : list (list Z)) (fuel : nat) :
  Forall item l -> (length (mjoin l) <= fuel)%nat -> split fuel (mjoin l) = Some l.
Proof.
  intros Hl. revert fuel. induction Hl as [|x l Hx Hl IH]; intros fuel Hf; [by destruct fuel|].
  destruct Hx as (_ & b & p & Hx). change (mjoin (x :: l)) with (x ++ mjoin l) in *.
  assert (Hlen : (1 <= length x)%nat).
  { destruct x; [by specialize (Hx [])|simpl; lia]. }
  rewrite length_app in Hf.
  destruct fuel as [|fuel]; [lia|].
  destruct (x ++ mjoin l) as [|y t] eqn:Hxl; [destruct x; simpl in *; [lia|done]|].
  cbn [split]. rewrite <- Hxl, Hx. cbn [mbind option_bind].
  rewrite IH by lia. cbn [mbind option_bind].
  rewrite length_app. replace (length x + _ - _)%nat with (length x) by lia. by rewrite take_app_length.
Qed.
Lemma items_list (l : list (list Z)) :
  Forall item l -> zlen (mjoin l) < 2 ^ 64 -> items (lst l) = Some l.
Proof.
  intros Hl Hn. unfold items. rewrite <- (app_nil_r (lst l)), parse_list by done. cbn [mbind option_bind].
  by apply split_items.
Qed.
Lemma lst_length (l : list (list Z)) : zlen (mjoin l) <= zlen (lst l).
Proof. unfold lst. rewrite zlen_app. pose proof (zlen_nonneg (header 192 (zlen (mjoin l)))). lia. Qed.
Lemma value_len (b : list Z) : zlen b <= zlen (value b).
Proof.
  unfold value. destruct b as [|x [|y b]]; [done|destruct (x <? 128); [done|]|];
    rewrite zlen_app; match goal with |- context [zlen (header ?a ?b)] => pose proof (zlen_nonneg (header a b)) end; lia.
Qed.
Lemma bytes_value (b : list Z) : Forall is_u8 b -> zlen b < 2 ^ 64 -> bytes (value b) = Some b.
Proof. intros H8 Hb. unfold bytes. by rewrite <- (app_nil_r (value b)), parse_value. Qed.
Lemma minimal_small (z : Z) : is_u256 z -> zlen (minimal z) < 2 ^ 64.
Proof.
  intros Hz. rewrite zlen_minimal. pose proof (byte_count_least 32 z ltac:(range_unfold; lia)). lia.
Qed.
Lemma uint_minimal (w z : Z) : 0 <= z < 2 ^ w -> w <= 256 -> uint w (value (minimal z)) = Some z.
Proof.
  intros Hz Hw. assert (is_u256 z).
  { range_unfold. pose proof (Z.pow_le_mono_r 2 w 256). lia. }
  unfold uint. rewrite bytes_value by (apply minimal_bytes || by apply minimal_small).
  cbn [mbind option_bind]. rewrite from_minimal by lia.
  rewrite bool_decide_eq_false_2 by (apply minimal_head; lia).
  by rewrite (proj2 (Z.leb_gt _ _)) by lia.
Qed.
Lemma fixed_value (n : nat) (z : Z) : (n <= 32)%nat -> 0 <= z < 256 ^ Z.of_nat n ->
  fixed n (value (to_be_bytes n z)) = Some z.
Proof.
  intros Hn Hz. unfold fixed. rewrite bytes_value; [|apply to_be_u8|rewrite zlen_to_be; lia].
  cbn [mbind option_bind]. rewrite length_to_be, Nat.eqb_refl, from_to_be. by rewrite Z.mod_small.
Qed.
Lemma fixed_item (n : nat) (z : Z) : (n <= 32)%nat -> item (value (to_be_bytes n z)).
Proof. intros Hn. apply item_value; [apply to_be_u8|rewrite zlen_to_be; lia]. Qed.
End yellow_spec.

Section instance.
Import yellow_spec.
#[local] Existing Instance yellow_rlp.

Lemma yellow_list (l : list (list Z)) (fits : Forall item l /\ zlen (encode_list l) < 2 ^ 64) :
  yellow.parse (yellow.lst l) = Some (true, mjoin l, []) /\ yellow.items (yellow.lst l) = Some l.
Proof.
  destruct fits as [Hl Hn]. cbn [encode_list yellow_rlp] in Hn. pose proof (lst_length l).
  split; [rewrite <- (app_nil_r (yellow.lst l)); apply parse_list; lia|apply items_list; [done|lia]].
Qed.
Lemma yellow_value (b : list Z) : Forall is_u8 b -> zlen b < 2 ^ 64 ->
  yellow.parse (yellow.value b) = Some (false, b, []).
Proof. intros H8 Hb. rewrite <- (app_nil_r (yellow.value b)). by apply parse_value. Qed.

Lemma join_member (l : list (list Z)) (x : list Z) : x ∈ l -> zlen x <= zlen (mjoin l).
Proof.
  induction 1 as [x l|x y l H IH]; change (mjoin (?y :: l)) with (y ++ mjoin l);
    rewrite zlen_app; [pose proof (zlen_nonneg (mjoin l))|pose proof (zlen_nonneg y)]; lia.
Qed.
Lemma lst_member (l : list (list Z)) (x : list Z) : x ∈ l -> zlen x <= zlen (yellow.lst l).
Proof. intros H. etrans; [by apply join_member|apply lst_length]. Qed.
Lemma list_of_back {A : Type} (f : A -> list Z) (g : list Z -> option A) (l : list A) :
  (forall a, a ∈ l -> item (f a) /\ g (f a) = Some a) -> zlen (yellow.lst (f <$> l)) < 2 ^ 64 ->
  item (yellow.lst (f <$> l)) /\ yellow.list_of g (yellow.lst (f <$> l)) = Some l.
Proof.
  intros Hf Hn. pose proof (lst_length (f <$> l)). unfold yellow.list_of.
  assert (Hl : Forall item (f <$> l)).
  { apply Forall_fmap, Forall_forall. intros a Ha. by apply Hf. }
  split; [apply item_list; [done|lia]|]. rewrite items_list; [|done|lia].
  cbn [mbind option_bind]. apply mapM_fmap_Forall_Some, Forall_forall. intros a Ha. by apply Hf.
Qed.

Lemma keys_back (ks : list Z) (keys := yellow.lst ((fun k => yellow.value (to_be_bytes 32 k)) <$> ks)) :
  Forall is_u256 ks -> zlen keys < 2 ^ 64 ->
  item keys /\ yellow.list_of (yellow.fixed 32) keys = Some ks.
Proof.
  intros Hks Hk. apply list_of_back; [|apply Hk]. intros k Hin. rewrite Forall_forall in Hks.
  split; [apply fixed_item; lia|apply fixed_value; [lia|by apply Hks]].
Qed.
Lemma pair_back (a keys : list Z) : item a -> item keys -> zlen (yellow.lst [a; keys]) < 2 ^ 64 ->
  item (yellow.lst [a; keys]) /\ yellow.items (yellow.lst [a; keys]) = Some [a; keys].
Proof.
  intros Ha Hk Hn. pose proof (lst_length [a; keys]).
  assert (Forall item [a; keys]) by (constructor; [done|constructor; [done|constructor]]).
  split; [apply item_list|apply items_list]; (done || lia).
Qed.
Lemma address_back (a : Z) : is_b160 a ->
  item (yellow.value (to_be_bytes 20 a)) /\ yellow.fixed 20 (yellow.value (to_be_bytes 20 a)) = Some a.
Proof.
  intros Ha. split; [apply fixed_item; lia|apply fixed_value; [lia|]].
  change (256 ^ Z.of_nat 20) with (2 ^ 160). exact Ha.
Qed.
Lemma access_item_back (i : Z * list Z) : access_item_ok i -> zlen (yellow.access_item i) < 2 ^ 64 ->
  item (yellow.access_item i) /\ yellow.access_item_decode (yellow.access_item i) = Some i.
Proof.
  destruct i as [a ks]. intros [Ha Hks] Hn. cbn [fst snd] in *.
  destruct (address_back a Ha) as [Ia Ba]. pose proof (keys_back ks Hks) as Hback. cbv zeta in Hback.
  unfold yellow.access_item_decode, yellow.access_item in *. cbn [fst snd] in *.
  generalize dependent (yellow.lst ((fun k => yellow.value (to_be_bytes 32 k)) <$> ks)).
  generalize dependent (yellow.value (to_be_bytes 20 a)). intros ab Ia Ba keys Hn Hback.
  assert (Hin : keys ∈ [ab; keys]) by (right; left).
  apply lst_member in Hin. destruct Hback as [Hi Hb]; [lia|].
  destruct (pair_back ab keys Ia Hi Hn) as [Hp Hs].
  split; [done|]. rewrite Hs. cbn [mbind option_bind]. rewrite Ba. cbn [mbind option_bind]. by rewrite Hb.
Qed.
Lemma access_list_back (l : AccessList) :
  Forall access_item_ok l -> zlen (yellow.lst (yellow.access_item <$> l)) < 2 ^ 64 ->
  item (yellow.lst (yellow.access_item <$> l)) /\
  yellow.access_list_decode (yellow.lst (yellow.access_item <$> l)) = Some l.
Proof.
  intros Hl Hn. apply list_of_back; [|done]. intros i Hi. rewrite Forall_forall in Hl.
  apply access_item_back; [by apply Hl|]. assert (Hin : yellow.access_item i ∈ yellow.access_item <$> l) by (apply list_elem_of_fmap; by exists i).
  apply lst_member in Hin. lia.
Qed.

#[export] Instance yellow_rlp_spec : RlpSpec (HRL := yellow_rlp).
Proof.
  unshelve refine {| rlp_item := item |}; cbn [encode_value encode_list encode_uint encode_bool encode_fixed
    encode_access_list encode_access_list_item rlp_data rlp_is_list rlp_is_data rlp_is_empty rlp_item_count
    rlp_at rlp_iter decode_bytes decode_uint decode_bool decode_fixed decode_access_list yellow_rlp].
  - by intros x [Hx _].
  - intros x (_ & b & p & Hx) ->. by specialize (Hx []).
  - intros b [H8 Hb]. by apply item_value.
  - intros b [H8 Hb]. unfold yellow.data. by rewrite yellow_value.
  - intros b [H8 Hb]. unfold yellow.is_list. by rewrite yellow_value.
  - intros b [H8 Hb]. unfold yellow.is_list. by rewrite yellow_value.
  - intros b [H8 Hb]. unfold yellow.data. rewrite yellow_value by done. cbn [mbind option_bind].
    apply bool_decide_ext. split; [by intros [= ->]|by intros ->].
  - intros b [H8 Hb]. by apply bytes_value.
  - apply value_len.
  - intros z Hz. apply item_value; [apply minimal_bytes|by apply minimal_small].
  - apply uint_minimal.
  - intros b. apply item_value; [apply minimal_bytes|by apply minimal_small; destruct b].
  - intros b. unfold yellow.boolean. rewrite uint_minimal by (destruct b; simpl; lia). by destruct b.
  - done.
  - apply fixed_value.
  - intros l [Hl Hn]. apply item_list; [done|]. pose proof (lst_length l). lia.
  - intros l Hl. apply yellow_list in Hl as [Hp _]. unfold yellow.data. by rewrite Hp.
  - intros l Hl. apply yellow_list in Hl as [Hp _]. unfold yellow.is_list. by rewrite Hp.
  - intros l Hl. apply yellow_list in Hl as [_ Hi]. by rewrite Hi.
  - intros l i Hl. apply yellow_list in Hl as [_ Hi]. by rewrite Hi.
  - intros l Hl. apply yellow_list in Hl as [_ Hi]. by rewrite Hi.
  - apply lst_length.
  - intros l. unfold yellow.lst, yellow.header. pose proof (zlen_nonneg (mjoin l)).
    pose proof (zlen_nonneg (yellow.minimal (zlen (mjoin l)))).
    destruct (_ <? _); eexists _, _; (split; [reflexivity|lia]).
  - done.
  - intros l Hl Hn. by apply access_list_back.
  - intros l Hl Hn. by apply access_list_back.
Qed.
End instance.
