(* ===== verification/Calls.v ===== *)
(** * Calls and gas estimation: [anvil/src/eth/backend/mem/mod.rs], [anvil/src/eth/api.rs]

    Requests that read the chain: the database and the block a request is
    about ([with_database_at]), a call that is executed without writing
    ([call_with_state]), and the binary search of [eth_estimateGas]
    ([do_estimate_gas_with_state]), for a node without a fork.

    The EVM is behind a class ([EvmRef]), as for building blocks; the state
    of the admin precompile, which is global in the code, goes through every
    call.  The inspector only records logs to be printed. *)

From stdpp Require Import base option list gmap.
From Stdlib Require Import ZArith Lia.
From S2P Require Import Prelude Primitives Precompile Journal EvmImpl CacheDB NodeDb BlockStates EthTransaction EthRequest Fees TxPool Miner.

(** ** error.rs: the variants of [BlockchainError] that requests end with *)
Inductive BlockchainError (E : Type) :=
| InvalidFeeInput
| BlockPrevrandaoNotSet
| InvalidTransactionErr (e : InvalidTransactionError.t)
| EvmErr (reason : InstructionResult)
| BlockOutOfRange (height requested : Z)
| BlockNotFound
| StateOverrideErr
| DatabaseErr (e : E)
| NoSignerAvailable
| EmptyRawTransactionData
| FailedToDecodeSignedTransaction
| FailedToDecodeTransaction
| SignatureErr
| PoolErr (e : PoolError)
| EIP1559TransactionUnsupportedAtHardfork
| EIP2930TransactionUnsupportedAtHardfork
| TimestampError
| UintConversion
| RpcInvalidParams
| RpcUnimplemented
| FailedToDecodeStateDump.
Arguments InvalidFeeInput {E}.
Arguments BlockPrevrandaoNotSet {E}.
Arguments InvalidTransactionErr {E} _.
Arguments EvmErr {E} _.
Arguments BlockOutOfRange {E} _ _.
Arguments BlockNotFound {E}.
Arguments StateOverrideErr {E}.
Arguments DatabaseErr {E} _.
Arguments NoSignerAvailable {E}.
Arguments EmptyRawTransactionData {E}.
Arguments FailedToDecodeSignedTransaction {E}.
Arguments FailedToDecodeTransaction {E}.
Arguments SignatureErr {E}.
Arguments PoolErr {E} _.
Arguments EIP1559TransactionUnsupportedAtHardfork {E}.
Arguments EIP2930TransactionUnsupportedAtHardfork {E}.
Arguments TimestampError {E}.
Arguments UintConversion {E}.
Arguments RpcInvalidParams {E}.
Arguments RpcUnimplemented {E}.
Arguments FailedToDecodeStateDump {E}.

(** [From<EVMError>] *)
Definition BlockchainError_from {E : Type} (err : EVMError E) : BlockchainError E :=
  match err with
  | Transaction err => InvalidTransactionErr (InvalidTransactionError.from err)
  | PrevrandaoNotSet => BlockPrevrandaoNotSet
  | DatabaseError err => DatabaseErr err
  end.
Definition of_override_error {E : Type} (err : OverrideError E) : BlockchainError E :=
  match err with OverrideDatabase e => DatabaseErr e | StateOverrideError => StateOverrideErr end.

(** ** Trait objects: [Box<dyn MaybeHashDatabase>], as far as calls read it *)
Record DynDatabase (E : Type) := mkDynDatabase {
  dyn_basic : Z -> option AccountInfo + E;
  dyn_code_by_hash : Z -> Bytecode + E;
  dyn_storage : Z -> Z -> Z + E;
  dyn_block_hash : Z -> Z + E;
}.
Arguments mkDynDatabase {E} _ _ _ _.
Arguments dyn_basic {E} _ _.
Arguments dyn_code_by_hash {E} _ _.
Arguments dyn_storage {E} _ _ _.
Arguments dyn_block_hash {E} _ _.

#[export] Instance DynDatabase_DatabaseRef (E : Type) : DatabaseRef (DynDatabase E) := {
  ref_error := E;
  ref_basic := dyn_basic;
  ref_code_by_hash := dyn_code_by_hash;
  ref_storage := dyn_storage;
  ref_block_hash := dyn_block_hash;
}.
Definition boxed {D : Type} {HR : DatabaseRef D} (d : D) : DynDatabase ref_error :=
  mkDynDatabase (ref_basic d) (ref_code_by_hash d) (ref_storage d) (ref_block_hash d).

(** The EVM over a database that is only read, [inspect_ref]. *)
Class EvmRef (D : Type) {HR : DatabaseRef D} := {
  inspect_ref : Env -> D -> admin.Statics ->
    rust ((ResultAndState + EVMError ref_error) * admin.Statics);
}.
Definition node_evm_ref {D : Type} {HR : DatabaseRef D} {HC : Crypto} {HX : HashCrates} {HB : Bn}
  {HO : Os} : EvmRef D :=
  {| inspect_ref e db st := EVM_transact_ref (EVM.database (EVM.with_env e) db) st |}.

(** ** Calls *)

(** Gas per transaction creating a contract. *)
Definition MIN_CREATE_GAS : Z := 53000.

(** [env] and [current_gas_price] are those of the backend. *)
Definition build_call_env (env : Env) (current_gas_price : Z) (request : EthTransactionRequest)
  (fee_details : FeeDetails) (block_env : BlockEnv) : rust Env :=
  let gas_limit := default (block_gas_limit block_env) (rq_gas request) in
  let cfg := env_cfg env in
  let basefee := default (block_basefee block_env) (fd_max_fee_per_gas fee_details) in
  let block := mkBlockEnv (block_number block_env) (block_coinbase block_env)
    (block_timestamp block_env) (block_difficulty block_env) (block_prevrandao block_env) basefee
    (block_gas_limit block_env) in
  let gas_price :=
    match fd_gas_price fee_details with
    | Some p => p
    | None => default current_gas_price (fd_max_fee_per_gas fee_details)
    end in
  let caller := default 0 (rq_from request) in
  gas_limit ← as_u64 gas_limit;
  nonce ← match rq_nonce request with Some n => n ← as_u64 n; Val (Some n) | None => Val None end;
  let tx := mkTxEnv caller gas_limit gas_price (fd_max_priority_fee_per_gas fee_details)
    (match rq_to request with Some addr => TransactCall addr | None => TransactCreate Create end)
    (default 0 (rq_value request)) (default [] (rq_data request)) None nonce
    (to_revm_access_list (default [] (rq_access_list request))) in
  let disable_base_fee := (basefee =? 0) || cfg_disable_base_fee cfg in
  Val (mkEnv (mkCfgEnv (cfg_chain_id cfg) (cfg_spec_id cfg) (cfg_perf_all_precompiles_have_balance cfg)
    (cfg_perf_analyse_created_bytecodes cfg) (cfg_limit_contract_code_size cfg) (cfg_memory_limit cfg)
    true (cfg_disable_eip3607 cfg) disable_base_fee) block tx).

(** The reason, the output, the gas and the state of a call. *)
Definition call_result (r : ResultAndState) :
  InstructionResult * option Output * Z * gmap Z Account :=
  match rs_result r with
  | ExecutionResult.Success reason gas_used _ _ output =>
      (eval_to_instruction_result reason, Some output, gas_used, rs_state r)
  | ExecutionResult.Revert gas_used output =>
      (Primitives.Revert, Some (OutputCall output), gas_used, rs_state r)
  | ExecutionResult.Halt reason gas_used =>
      (halt_to_instruction_result reason, None, gas_used, rs_state r)
  end.

(** What a request that may fail returns, with the state of the precompile. *)
Abbreviation answer A E := (rust ((A + BlockchainError E) * admin.Statics)).

Section state.
Context {D : Type} {HR : DatabaseRef D} {HEV : EvmRef D}.

Definition call_with_state (env : Env) (current_gas_price : Z) (st : admin.Statics) (state : D)
  (request : EthTransactionRequest) (fee_details : FeeDetails) (block_env : BlockEnv) :
  answer (InstructionResult * option Output * Z * gmap Z Account) ref_error :=
  env ← build_call_env env current_gas_price request fee_details block_env;
  '(result, st) ← inspect_ref env state st;
  Val (match result with inl r => inl (call_result r) | inr e => inr (BlockchainError_from e) end, st).

Definition get_code_with_state (state : D) (address : Z) :
  rust (list Z + BlockchainError ref_error) :=
  match ref_basic state address with
  | inr e => Val (inr (DatabaseErr e))
  | inl account =>
      let account := default AccountInfo_default account in
      if code_hash account =? KECCAK_EMPTY then Val (inl [])
      else
        match (match Primitives.code account with
               | Some code => inl code
               | None => ref_code_by_hash state (code_hash account)
               end) with
        | inr e => Val (inr (DatabaseErr e))
        | inl code => bytes ← slice (bc_bytecode code) 0 (Bytecode_len code); Val (inl bytes)
        end
  end.
Definition get_balance_with_state (state : D) (address : Z) : Z + BlockchainError ref_error :=
  match ref_basic state address with
  | inr e => inr (DatabaseErr e)
  | inl account => inl (balance (default AccountInfo_default account))
  end.
End state.

Definition convert_transact_out (out : option Output) : list Z :=
  match out with
  | None => []
  | Some (OutputCall out) => out
  | Some (OutputCreate out _) => out
  end.

Definition ensure_return_ok {E : Type} (exit : InstructionResult) (out : option Output) :
  list Z + BlockchainError E :=
  let out := convert_transact_out out in
  if return_ok exit then inl out
  else if return_revert exit
  then inr (InvalidTransactionErr (InvalidTransactionError.Revert (Some out)))
  else inr (EvmErr exit).

(** ** eth_estimateGas *)

(** [None] means a transaction type that is unknown, or that does not go with
    the fee fields. *)
Definition determine_base_gas_by_kind (request : EthTransactionRequest) : rust Z :=
  typed ← into_typed_request request;
  Val match typed with
  | Some (LegacyRequest req) =>
      match lr_kind req with TransactionKind.Call _ => MIN_TRANSACTION_GAS | TransactionKind.Create => MIN_CREATE_GAS end
  | Some (EIP1559Request req) =>
      match fr_kind req with TransactionKind.Call _ => MIN_TRANSACTION_GAS | TransactionKind.Create => MIN_CREATE_GAS end
  | Some (EIP2930Request req) =>
      match ar_kind req with TransactionKind.Call _ => MIN_TRANSACTION_GAS | TransactionKind.Create => MIN_CREATE_GAS end
  | None => MIN_CREATE_GAS
  end.

(** [(highest_gas_limit + lowest_gas_limit) / 2]: the operators on [U256]
    panic on overflow. *)
Definition midpoint (highest_gas_limit lowest_gas_limit : Z) : rust Z :=
  s ← unwrap (u256_checked_add highest_gas_limit lowest_gas_limit); Val (s / 2).

Section estimate.
Context {D : Type} {HR : DatabaseRef D} {HEV : EvmRef D}.

(** The environment and the gas price are those of the backend. *)
Context (env : Env) (current_gas_price : Z) (state : D) (block_env : BlockEnv).

Definition map_out_of_gas_err (st : admin.Statics) (request : EthTransactionRequest)
  (fees : FeeDetails) (gas_limit : Z) :
  rust (BlockchainError ref_error * admin.Statics) :=
  let request := set_request_gas request (block_gas_limit (Primitives.env_block env)) in
  '(res, st) ← call_with_state env current_gas_price st state request fees block_env;
  Val (match res with
    | inr err => err
    | inl (exit, out, _, _) =>
        if return_ok exit then InvalidTransactionErr (InvalidTransactionError.BasicOutOfGas gas_limit)
        else if return_revert exit
        then InvalidTransactionErr (InvalidTransactionError.Revert (Some (convert_transact_out out)))
        else EvmErr exit
    end, st).

Definition out_of_gas (st : admin.Statics) (request : EthTransactionRequest) (fees : FeeDetails)
  (gas_limit : Z) : answer Z ref_error :=
  '(err, st) ← map_out_of_gas_err st request fees gas_limit; Val (inr err, st).

Definition is_gas_too_high {A : Type} (ethres : A + BlockchainError ref_error) : bool :=
  match ethres with
  | inr (InvalidTransactionErr InvalidTransactionError.GasTooHigh) => true
  | _ => false
  end.
(** The results that raise the floor of the search. *)
Definition lacks_gas (exit : InstructionResult) : bool :=
  match exit with Primitives.Revert | Primitives.OutOfGas | Primitives.OutOfFund => true | _ => false end.

(** The loop, at most [fuel] rounds. *)
Fixpoint search (fuel : nat) (st : admin.Statics) (request : EthTransactionRequest) (fees : FeeDetails)
  (highest_gas_limit lowest_gas_limit mid_gas_limit : Z) : answer Z ref_error :=
  gap ← unwrap (u256_checked_sub highest_gas_limit lowest_gas_limit);
  if gap <=? 1 then Val (inl highest_gas_limit, st)
  else
    match fuel with
    | O => Diverge
    | S fuel =>
        let request := set_request_gas request mid_gas_limit in
        '(ethres, st) ← call_with_state env current_gas_price st state request fees block_env;
        if is_gas_too_high ethres then
          mid ← midpoint highest_gas_limit mid_gas_limit;
          search fuel st request fees highest_gas_limit mid_gas_limit mid
        else
          match ethres with
          | inl (exit, _, _, _) =>
              if return_ok exit then
                mid ← midpoint mid_gas_limit lowest_gas_limit;
                search fuel st request fees mid_gas_limit lowest_gas_limit mid
              else if lacks_gas exit then
                mid ← midpoint highest_gas_limit mid_gas_limit;
                search fuel st request fees highest_gas_limit mid_gas_limit mid
              else Val (inr (EvmErr exit), st)
          | inr reason => Val (inr reason, st)
          end
    end.

(** 2^257 is more than the two bounds can be apart. *)
Definition search_fuel : nat := 258.

(** What the sender can pay for, when the request has a price. *)
Definition highest_affordable (request : EthTransactionRequest) (fees : FeeDetails)
  (highest_gas_limit : Z) : Z + BlockchainError ref_error :=
  match rq_from request with
  | None => inl highest_gas_limit
  | Some from =>
      let gas_price := default 0 (fd_gas_price fees) in
      if 0 <? gas_price then
        match get_balance_with_state state from with
        | inr e => inr e
        | inl available_funds =>
            let value := default 0 (rq_value request) in
            if available_funds <? value
            then inr (InvalidTransactionErr InvalidTransactionError.InsufficientFunds)
            else
              let allowance := (available_funds - value) / gas_price in
              inl (if allowance <? highest_gas_limit then allowance else highest_gas_limit)
        end
      else inl highest_gas_limit
  end.

(** A simple transfer is not executed. *)
Definition is_simple_transfer (request : EthTransactionRequest) : rust bool :=
  if match rq_data request with None | Some [] => true | _ => false end then
    match rq_to request with
    | None => Val false
    | Some to =>
        target_code ← get_code_with_state state to;
        Val match target_code with inl [] => true | _ => false end
    end
  else Val false.

(** The first call went through: the search. *)
Definition estimate_from (st : admin.Statics) (request : EthTransactionRequest) (fees : FeeDetails)
  (highest_gas_limit gas : Z) : answer Z ref_error :=
  lowest_gas_limit ← determine_base_gas_by_kind request;
  triple ← unwrap (u256_checked_mul gas 3);
  mid ← midpoint highest_gas_limit lowest_gas_limit;
  search search_fuel st request fees highest_gas_limit lowest_gas_limit (Z.min triple mid).

Definition do_estimate_gas_with_state (st : admin.Statics) (request : EthTransactionRequest) :
  answer Z ref_error :=
  simple ← is_simple_transfer request;
  if (simple : bool) then Val (inl MIN_TRANSACTION_GAS, st)
  else
    match FeeDetails_new (rq_gas_price request) (rq_max_fee_per_gas request)
      (rq_max_priority_fee_per_gas request) with
    | None => Val (inr InvalidFeeInput, st)
    | Some fees =>
        let fees := or_zero_fees fees in
        let retried := bool_decide (is_Some (rq_gas request)) || bool_decide (is_Some (rq_gas_price request)) in
        match highest_affordable request fees (default (block_gas_limit block_env) (rq_gas request)) with
        | inr e => Val (inr e, st)
        | inl highest_gas_limit =>
            let gas_limit := Z.min (default highest_gas_limit (rq_gas request)) highest_gas_limit in
            '(ethres, st) ← call_with_state env current_gas_price st state
              (set_request_gas request gas_limit) fees block_env;
            if is_gas_too_high ethres && retried then out_of_gas st request fees gas_limit
            else
              match ethres with
              | inr e => Val (inr e, st)
              | inl (exit, out, gas, _) =>
                  if return_ok exit then estimate_from st request fees highest_gas_limit gas
                  else
                    match exit with
                    | Primitives.OutOfGas | Primitives.OutOfFund =>
                        Val (inr (InvalidTransactionErr (InvalidTransactionError.BasicOutOfGas gas_limit)), st)
                    | Primitives.Revert | Primitives.CallTooDeep =>
                        if retried then out_of_gas st request fees gas_limit
                        else Val (inr (InvalidTransactionErr
                          (InvalidTransactionError.Revert (Some (convert_transact_out out)))), st)
                    | reason => Val (inr (EvmErr reason), st)
                    end
              end
        end
    end.
End estimate.

(** ** The database a request is about *)
Inductive BlockRequest :=
| RequestPending (pool_transactions : list PoolTransaction)
| RequestNumber (n : Z).
Inductive BlockId := IdHash (hash : Z) | IdNumber (n : BlockNumber).

(** The environment that a stored or pending block is that of. *)
Definition block_env_of `{!Blooms} (header : Header) : BlockEnv :=
  mkBlockEnv (hd_number header) (hd_beneficiary header) (hd_timestamp header) (hd_difficulty header)
    (Some (hd_mix_hash header)) (default 0 (hd_base_fee_per_gas header)) (hd_gas_limit header).

Section backend.
Context {DB : Type} {HDB : Database DB} {HR : DatabaseRef DB} {HEV : Evm (CacheDB DB)}.
Context {StateDb : Type} {HM : MaybeHashDatabase StateDb} {HFI : FileSystem}.
Context {HBL : Blooms} {HBH : BlockHashing} {HTC : Chrono}.
Abbreviation backend := (Backend (DB := DB) (StateDb := StateDb)).
Abbreviation dyn := (DynDatabase ref_error).

(** The states kept for old blocks have the errors of the database. *)
Context (boxed_state : StateDb -> dyn).

Definition backend_gas_price (b : backend) : Z := FeeManager.gas_price (b_fees b).

Definition next_env (b : backend) (now : Z) : Env :=
  let block := env_block (b_env b) in
  mkEnv (env_cfg (b_env b))
    (mkBlockEnv (u256_saturating_add (block_number block) 1) (block_coinbase block)
      (TimeManager.current_call_timestamp (b_time b) now) (block_difficulty block)
      (block_prevrandao block) (FeeManager.base_fee (b_fees b)) (block_gas_limit block))
    (env_tx (b_env b)).

(** The transactions run on a cache over the database. *)
Definition with_pending_block (b : backend) (now : Z) (pool_transactions : list PoolTransaction) :
  rust (CacheDB DB * BlockInfo * admin.Statics) :=
  let env := next_env b now in
  '(executed, x) ← TransactionExecutor.execute
    (TransactionExecutor.mk (CacheDB_new (b_db b)) (cfg_chain_id (env_cfg (b_env b))) (env_block env)
      (env_cfg env) (st_best_hash (b_storage b)) 0 (b_statics b)) pool_transactions;
  Val (TransactionExecutor.db x, et_block executed, TransactionExecutor.statics x).
Definition pending_block (b : backend) (now : Z) (pool_transactions : list PoolTransaction) :
  rust (BlockInfo * admin.Statics) :=
  '(_, info, st) ← with_pending_block b now pool_transactions; Val (info, st).

Definition get_block (b : backend) (id : BlockId) : option Block :=
  hash ← match id with IdHash hash => Some hash | IdNumber number => storage_hash (b_storage b) number end;
  st_blocks (b_storage b) !! hash.

(** For a node without a fork. *)
Definition ensure_block_number (b : backend) (block_id : option BlockId) :
  rust (Z + BlockchainError (ref_error (DB := DB))) :=
  let current := best_number b in
  requested ← match default (IdNumber Latest) block_id with
    | IdHash hash =>
        match get_block b (IdHash hash) with
        | Some block => n ← as_u64 (hd_number (bl_header block)); Val (inl n)
        | None => Val (inr BlockNotFound)
        end
    | IdNumber (Latest | PendingBlock) => Val (inl current)
    | IdNumber Earliest => Val (inl 0)
    | IdNumber (Number num) => Val (inl num)
    | IdNumber Safe => Val (inl (Z.max (current - 32) 0))
    | IdNumber Finalized => Val (inl (Z.max (current - 64) 0))
    end;
  Val match requested with
  | inl requested => if current <? requested then inr (BlockOutOfRange current requested) else inl requested
  | e => e
  end.

Definition convert_block_number (b : backend) (block : option BlockNumber) : Z :=
  let current := best_number b in
  match default Latest block with
  | Latest | PendingBlock => current
  | Earliest => 0
  | Number num => num
  | Safe => Z.max (current - 32) 0
  | Finalized => Z.max (current - 64) 0
  end.

Definition set_states (b : backend) (states : InMemoryBlockStates.t StateDb) (st : admin.Statics) :
  backend :=
  mkBackend (b_env b) (b_db b) (b_fees b) (b_time b) (b_storage b) states (b_prune_config b)
    (b_active_snapshots b) (b_transaction_block_keeper b) st.

(** The block with the number and the state kept for it; reading a state
    that is on disk changes the cache of states. *)
Definition historic_state (b : backend) (n : Z) :
  option (StateDb * Block) * InMemoryBlockStates.t StateDb :=
  match get_block b (IdNumber (Number n)) with
  | Some block =>
      let '(state, states) := InMemoryBlockStates.get (b_states b) (header_hash (bl_header block)) in
      (match state with Some state => Some (state, block) | None => None end, states)
  | None => (None, b_states b)
  end.

Definition boxed_cache (c : CacheDB DB) : dyn :=
  @boxed (CacheDB DB) (CacheDB_DatabaseRef) c.

(** [f] is given the database of the block, as a trait object, and its
    environment. *)
Section closure.
Context {T : Type} (f : dyn -> BlockEnv -> admin.Statics -> rust (T * admin.Statics)).
Abbreviation result := (rust ((T + BlockchainError (ref_error (DB := DB))) * backend)).

Definition with_database_at_number (b : backend) (block_number : Z) : result :=
  if block_number <? Primitives.block_number (env_block (b_env b)) then
    match historic_state b block_number with
    | (Some (state, block), states) =>
        '(t, st) ← f (boxed_state state) (block_env_of (bl_header block)) (b_statics b);
        Val (inl t, set_states b states st)
    | (None, states) =>
        height ← as_u64 (Primitives.block_number (env_block (b_env b)));
        Val (inr (BlockOutOfRange height block_number), set_states b states (b_statics b))
    end
  else
    '(t, st) ← f (boxed (b_db b)) (env_block (b_env b)) (b_statics b);
    Val (inl t, set_states b (b_states b) st).

Definition with_database_pending (b : backend) (now : Z) (pool_transactions : list PoolTransaction) :
  result :=
  '(state, info, st) ← with_pending_block b now pool_transactions;
  '(t, st) ← f (boxed_cache state) (block_env_of (bl_header (bi_block info))) st;
  Val (inl t, set_states b (b_states b) st).

Definition with_database_at (b : backend) (now : Z) (block_request : option BlockRequest) : result :=
  match block_request with
  | Some (RequestPending pool_transactions) =>
      with_database_pending b now pool_transactions
  | Some (RequestNumber bn) => with_database_at_number b (convert_block_number b (Some (Number bn)))
  | None => with_database_at_number b (convert_block_number b None)
  end.
End closure.

(** ** Requests: [eth_call], [eth_estimateGas], [eth_getCode], [eth_getBalance], [eth_getTransactionCount] *)
Context {HER : forall D (R : DatabaseRef D), EvmRef D} {HCR : Crypto}.

(** [block_request] of the API: [ready] are the ready transactions of the pool. *)
Definition block_request (b : backend) (ready : list PoolTransaction) (block_number : option BlockId) :
  rust (BlockRequest + BlockchainError (ref_error (DB := DB))) :=
  match block_number with
  | Some (IdNumber PendingBlock) => Val (inl (RequestPending ready))
  | _ =>
      number ← ensure_block_number b block_number;
      Val (match number with inl n => inl (RequestNumber n) | inr e => inr e end)
  end.

(** [.await?]: the errors of the closure are those of the request. *)
Definition flatten {T : Type} (r : ((T + BlockchainError (ref_error (DB := DB))) + BlockchainError ref_error) * backend) :
  (T + BlockchainError ref_error) * backend :=
  (match r.1 with inl t => t | inr e => inr e end, r.2).

(** [call] of the backend: the overrides put a cache over the state. *)
Definition call_on (b : backend) (overrides : option (list (Z * AccountOverride)))
  (request : EthTransactionRequest) (fees : FeeDetails) (state : dyn) (block : BlockEnv)
  (st : admin.Statics) : answer (InstructionResult * option Output * Z * gmap Z Account) (ref_error (DB := DB)) :=
  let called : answer (InstructionResult * option Output * Z * gmap Z Account) (ref_error (DB := DB)) :=
    match overrides with
    | None => call_with_state (b_env b) (backend_gas_price b) st state request fees block
    | Some overrides =>
        match apply_state_override overrides state with
        | inr e => Val (inr (of_override_error e), st)
        | inl state => call_with_state (b_env b) (backend_gas_price b) st state request fees block
        end
    end in
  _ ← as_u64 (Primitives.block_number block);
  called.
Definition backend_call (b : backend) (now : Z) (request : EthTransactionRequest) (fees : FeeDetails)
  (request_block : option BlockRequest) (overrides : option (list (Z * AccountOverride))) :
  rust ((InstructionResult * option Output * Z * gmap Z Account + BlockchainError (ref_error (DB := DB))) * backend) :=
  r ← with_database_at (call_on b overrides request fees) b now request_block; Val (flatten r).

Definition eth_call (b : backend) (now : Z) (ready : list PoolTransaction)
  (request : EthTransactionRequest) (block_number : option BlockId)
  (overrides : option (list (Z * AccountOverride))) :
  rust ((list Z + BlockchainError (ref_error (DB := DB))) * backend) :=
  block ← block_request b ready block_number;
  match block with
  | inr e => Val (inr e, b)
  | inl block =>
      match FeeDetails_new (rq_gas_price request) (rq_max_fee_per_gas request)
        (rq_max_priority_fee_per_gas request) with
      | None => Val (inr InvalidFeeInput, b)
      | Some fees =>
          '(res, b) ← backend_call b now request (or_zero_fees fees) (Some block) overrides;
          Val (match res with inl (exit, out, _, _) => ensure_return_ok exit out | inr e => inr e end, b)
      end
  end.

Definition estimate_on (b : backend) (request : EthTransactionRequest) (state : dyn) (block : BlockEnv)
  (st : admin.Statics) : answer Z (ref_error (DB := DB)) :=
  do_estimate_gas_with_state (b_env b) (backend_gas_price b) state block st request.
Definition do_estimate_gas (b : backend) (now : Z) (ready : list PoolTransaction)
  (request : EthTransactionRequest) (block_number : option BlockId) :
  rust ((Z + BlockchainError (ref_error (DB := DB))) * backend) :=
  block ← block_request b ready block_number;
  match block with
  | inr e => Val (inr e, b)
  | inl block =>
      r ← with_database_at (estimate_on b request) b now (Some block);
      Val (flatten r)
  end.

(** The highest nonce of the address among the pending transactions. *)
Definition get_pool_transactions_nonce (pool_transactions : list PoolTransaction) (address : Z) :
  option Z :=
  let nonce tx := TypedTransaction.nonce (pt_transaction (pending_transaction tx)) in
  match filter (fun tx => pt_sender (pending_transaction tx) = address) pool_transactions with
  | [] => None
  | tx :: txs =>
      let highest := foldl (fun accum item => if nonce accum <? nonce item then item else accum) tx txs in
      Some (u256_saturating_add (nonce highest) 1)
  end.

Definition nonce_on (address : Z) (db : dyn) (_ : BlockEnv) (st : admin.Statics) :
  answer Z (ref_error (DB := DB)) :=
  Val (match ref_basic db address with
       | inr e => inr (DatabaseErr e)
       | inl account => inl (nonce (default AccountInfo_default account))
       end, st).
Definition get_nonce (b : backend) (now : Z) (address : Z) (request : option BlockRequest) :
  rust ((Z + BlockchainError (ref_error (DB := DB))) * backend) :=
  let final_block_request :=
    match request with
    | Some (RequestPending _) => Some (RequestNumber (best_number b))
    | r => r
    end in
  match (match request with
         | Some (RequestPending txs) => get_pool_transactions_nonce txs address
         | _ => None
         end) with
  | Some value => Val (inl value, b)
  | None => r ← with_database_at (nonce_on address) b now final_block_request; Val (flatten r)
  end.

Definition balance_on (address : Z) (db : dyn) (_ : BlockEnv) (st : admin.Statics) :
  answer Z (ref_error (DB := DB)) := Val (get_balance_with_state db address, st).
Definition code_on (address : Z) (db : dyn) (_ : BlockEnv) (st : admin.Statics) :
  answer (list Z) (ref_error (DB := DB)) :=
  let code : rust (list Z + BlockchainError (ref_error (DB := DB))) := get_code_with_state db address in
  code ← code; Val (code, st).

Definition get_balance (b : backend) (now address : Z) (request : option BlockRequest) :
  rust ((Z + BlockchainError (ref_error (DB := DB))) * backend) :=
  r ← with_database_at (balance_on address) b now request;
  Val (flatten r).
Definition get_code (b : backend) (now address : Z) (request : option BlockRequest) :
  rust ((list Z + BlockchainError (ref_error (DB := DB))) * backend) :=
  r ← with_database_at (code_on address) b now request;
  Val (flatten r).

(** [request_nonce] of the API: the nonce of the request and the next one of
    the sender. *)
Definition request_nonce (b : backend) (now : Z) (ready : list PoolTransaction)
  (request : EthTransactionRequest) (from : Z) :
  rust ((Z * Z + BlockchainError (ref_error (DB := DB))) * backend) :=
  '(highest_nonce, b) ← get_nonce b now from (Some (RequestPending ready));
  Val (match highest_nonce with
       | inl highest_nonce => inl (default highest_nonce (rq_nonce request), highest_nonce)
       | inr e => inr e
       end, b).
End backend.
