(* ===== verification/Api.v ===== *)
(** * Sending transactions: [anvil/src/eth/api.rs], [anvil/src/eth/sign.rs], [backend/cheats.rs]

    How a request or the bytes of a signed transaction get into the pool:
    the sender and its nonce, the typed request, the signature (or none, for
    an impersonated sender), the checks of the backend, and the markers.
    Wallets are parameters. *)

From stdpp Require Import base option list gmap sets.
From Stdlib Require Import ZArith Lia.
From S2P Require Import Prelude Primitives Precompile Journal EvmImpl CacheDB NodeDb BlockStates EthTransaction EthRequest Fees TxPool Miner Codec Calls.

(** ** cheats.rs *)
Record CheatsState := mkCheatsState {
  impersonated_accounts : gset Z;
  bypass_signature : Signature;
  auto_impersonate_accounts : bool;
}.
Definition CheatsState_default : CheatsState := mkCheatsState ∅ IMPERSONATED_SIGNATURE false.
(** [insert] answers whether the account was not in the set. *)
Definition impersonate (s : CheatsState) (addr : Z) : bool * CheatsState :=
  if bool_decide (addr ∈ impersonated_accounts s) then (true, s)
  else (true, mkCheatsState ({[addr]} ∪ impersonated_accounts s) (bypass_signature s) (auto_impersonate_accounts s)).
Definition stop_impersonating (s : CheatsState) (addr : Z) : CheatsState :=
  mkCheatsState (impersonated_accounts s ∖ {[addr]}) (bypass_signature s) (auto_impersonate_accounts s).
Definition is_impersonated (s : CheatsState) (addr : Z) : bool :=
  if auto_impersonate_accounts s then true else bool_decide (addr ∈ impersonated_accounts s).
Definition set_auto_impersonate_account (s : CheatsState) (enabled : bool) : CheatsState :=
  mkCheatsState (impersonated_accounts s) (bypass_signature s) enabled.

(** ** Signers: what [sign.rs] asks of one; a wallet is third-party *)
Record Signer (err : Type) := mkSigner {
  signer_accounts : list Z;
  is_signer_for : Z -> bool;
  sign_transaction_with : TypedTransactionRequest -> Z -> Signature + err;
}.
Arguments mkSigner {err}.
Arguments signer_accounts {err}.
Arguments is_signer_for {err}.
Arguments sign_transaction_with {err}.

(** The developer keys. *)
Section dev_signer.
Context {Wallet err : Type} (wallet_address : Wallet -> Z).
Context (sign_transaction_sync : Wallet -> TypedTransactionRequest -> Signature + err) (no_signer : err).
Record DevSigner := mkDevSigner {
  addresses : list Z;
  wallets : gmap Z Wallet;
}.
(** [collect] inserts in order: the last wallet of an address stays. *)
Definition DevSigner_new (accounts : list Wallet) : DevSigner :=
  mkDevSigner (wallet_address <$> accounts)
    (foldl (fun m w => <[wallet_address w := w]> m) ∅ accounts).
Definition DevSigner_sign_transaction (s : DevSigner) (request : TypedTransactionRequest) (address : Z) :
  Signature + err :=
  match wallets s !! address with
  | None => inr no_signer
  | Some signer => sign_transaction_sync signer request
  end.
Definition DevSigner_Signer (s : DevSigner) : Signer err :=
  mkSigner (addresses s) (fun addr => bool_decide (is_Some (wallets s !! addr)))
    (DevSigner_sign_transaction s).
End dev_signer.

Section api.
Context {DB : Type} {HDB : Database DB} {HR : DatabaseRef DB} {HEV : Evm (CacheDB DB)} {HEM : Evm DB} {HD : Db DB}.
Context {StateDb : Type} {HM : MaybeHashDatabase StateDb} {HFI : FileSystem} {HCS : CurrentState DB StateDb}.
Context {HBL : Blooms} {HBH : BlockHashing} {HTC : Chrono} {HCH : pool.Channel} {HRL : Rlp} {HCR : Crypto} {HSG : Signatures}.
Context (boxed_state : StateDb -> DynDatabase (ref_error (DB := DB))).
Abbreviation backend := (Backend (DB := DB) (StateDb := StateDb)).
Abbreviation err := (BlockchainError (ref_error (DB := DB))).

Record EthApi := mkEthApi {
  api_backend : backend;
  api_pool : pool.Pool;
  api_signers : list (Signer err);
  api_cheats : CheatsState;
  api_transaction_order : TransactionOrder;
  api_miner : MiningMode;
}.
Definition set_api_backend (a : EthApi) (b : backend) : EthApi :=
  mkEthApi b (api_pool a) (api_signers a) (api_cheats a) (api_transaction_order a) (api_miner a).
Definition set_api_pool (a : EthApi) (p : pool.Pool) : EthApi :=
  mkEthApi (api_backend a) p (api_signers a) (api_cheats a) (api_transaction_order a) (api_miner a).

Definition accounts (a : EthApi) : list Z := mjoin (signer_accounts <$> api_signers a).
Definition get_signer (a : EthApi) (address : Z) : option (Signer err) :=
  snd <$> list_find (fun s => is_signer_for s address) (api_signers a).
Definition sign_request (a : EthApi) (from : Z) (request : TypedTransactionRequest) : TypedTransaction + err :=
  match list_find (fun s => from ∈ signer_accounts s) (api_signers a) with
  | None => inr NoSignerAvailable
  | Some (_, signer) =>
      match sign_transaction_with signer request from with
      | inr e => inr e
      | inl signature =>
          match build_typed_transaction recovery_id request signature with
          | Some tx => inl tx
          | None => inr SignatureErr
          end
      end
  end.

Definition ready_list (a : EthApi) : rust (list PoolTransaction) :=
  let p := pool.inner (api_pool a) in
  TransactionsIterator.collect (size (ReadyTransactions.ready_tx (pool.ready_transactions p))) (pool.iter_ready p).

Definition ensure_typed_transaction_supported (b : backend) (tx : TypedTransaction) : option err :=
  let spec_id := cfg_spec_id (env_cfg (b_env b)) in
  match tx with
  | EIP2930 _ => if enabled spec_id BERLIN then None else Some EIP2930TransactionUnsupportedAtHardfork
  | EIP1559 _ => if enabled spec_id LONDON then None else Some EIP1559TransactionUnsupportedAtHardfork
  | Legacy _ => None
  end.
Definition validate_pool_transaction (b : backend) (now : Z) (tx : PendingTransaction) : option err :=
  match ref_basic (b_db b) (pt_sender tx) with
  | inr e => Some (DatabaseErr e)
  | inl account =>
      InvalidTransactionErr <$> validate_pool_transaction_for (cfg_chain_id (env_cfg (b_env b))) tx
        (default AccountInfo_default account) (next_env b now)
  end.

Definition add_pending_transaction (a : EthApi) (pending : PendingTransaction)
  (requires provides : list TxMarker) : rust ((Z + err) * EthApi) :=
  let tx := mkPoolTransaction pending requires provides
    (priority_of (api_transaction_order a) (pt_transaction pending)) in
  '(out, p) ← pool.Pool_add_transaction (api_pool a) tx;
  Val (match out with inl _ => inl (pt_hash pending) | inr e => inr (PoolErr e) end, set_api_pool a p).

(** The end of [send_transaction] and [eth_send_unsigned_transaction]. *)
Definition submit (a : EthApi) (now nonce on_chain_nonce from : Z) (pending : PendingTransaction) :
  rust ((Z + err) * EthApi) :=
  match validate_pool_transaction (api_backend a) now pending with
  | Some e => Val (inr e, a)
  | None =>
      requires ← required_marker nonce on_chain_nonce from;
      n ← as_u64 nonce;
      add_pending_transaction a pending requires [to_marker n from]
  end.

(** The transaction of the request, signed or impersonated. *)
Definition pending_for (a : EthApi) (from : Z) (bypass : bool) (request : TypedTransactionRequest) :
  PendingTransaction + err :=
  let tx :=
    if bypass then
      match build_typed_transaction recovery_id request (bypass_signature (api_cheats a)) with
      | Some tx => inl tx
      | None => inr SignatureErr
      end
    else sign_request a from request in
  match tx with
  | inr e => inr e
  | inl tx =>
      match ensure_typed_transaction_supported (api_backend a) tx with
      | Some e => inr e
      | None =>
          if bypass then inl (with_impersonated tx from)
          else match PendingTransaction_new tx with Some p => inl p | None => inr SignatureErr end
      end
  end.

(** [backend_gas_limit] and the gas price of [build_typed_tx_request]. *)
Definition typed_for (b : backend) (request : EthTransactionRequest) (nonce : Z) :
  rust (option TypedTransactionRequest) :=
  let cfg_id := cfg_chain_id (env_cfg (b_env b)) in
  build_typed_tx_request cfg_id (block_gas_limit (env_block (b_env b))) (backend_gas_price b) request nonce.

Definition send_from (a : EthApi) (now : Z) (request : EthTransactionRequest) (from : Z) (bypass : bool) :
  rust ((Z + err) * EthApi) :=
  ready ← ready_list a;
  '(nonces, b) ← request_nonce boxed_state (api_backend a) now ready request from;
  let a := set_api_backend a b in
  match nonces with
  | inr e => Val (inr e, a)
  | inl (nonce, on_chain_nonce) =>
      typed ← typed_for b request nonce;
      match typed with
      | None => Val (inr FailedToDecodeTransaction, a)
      | Some typed =>
          match pending_for a from bypass typed with
          | inr e => Val (inr e, a)
          | inl pending => submit a now nonce on_chain_nonce from pending
          end
      end
  end.

Definition send_transaction (a : EthApi) (now : Z) (request : EthTransactionRequest) :
  rust ((Z + err) * EthApi) :=
  match (match rq_from request with Some from => Some from | None => head (accounts a) end) with
  | None => Val (inr NoSignerAvailable, a)
  | Some from => send_from a now request from (is_impersonated (api_cheats a) from)
  end.
Definition eth_send_unsigned_transaction (a : EthApi) (now : Z) (request : EthTransactionRequest) :
  rust ((Z + err) * EthApi) :=
  match rq_from request with
  | None => Val (inr NoSignerAvailable, a)
  | Some from => send_from a now request from true
  end.

(** The signature alone. *)
Definition sign_transaction (a : EthApi) (now : Z) (request : EthTransactionRequest) :
  rust ((Signature + err) * EthApi) :=
  match (match rq_from request with Some from => Some from | None => head (accounts a) end) with
  | None => Val (inr NoSignerAvailable, a)
  | Some from =>
      ready ← ready_list a;
      '(nonces, b) ← request_nonce boxed_state (api_backend a) now ready request from;
      let a := set_api_backend a b in
      match nonces with
      | inr e => Val (inr e, a)
      | inl (nonce, _) =>
          typed ← typed_for b request nonce;
          Val (match typed, get_signer a from with
               | None, _ => inr FailedToDecodeTransaction
               | Some _, None => inr NoSignerAvailable
               | Some typed, Some signer =>
                   sign_transaction_with signer typed from
               end, a)
      end
  end.

(** The bytes of a typed transaction become an RLP string, of which the
    decoder takes the type off. *)
Definition decode_raw (b : backend) (data : list Z) : TypedTransaction + err :=
  match data with
  | [] => inr EmptyRawTransactionData
  | first :: _ =>
      if 0x7f <? first then
        match LegacyTransaction_decode data with
        | Some tx => inl (Legacy tx)
        | None => inr FailedToDecodeSignedTransaction
        end
      else
        match TypedTransaction_decode (encode_value data) with
        | None => inr FailedToDecodeSignedTransaction
        | Some tx =>
            match ensure_typed_transaction_supported b tx with Some e => inr e | None => inl tx end
        end
  end.
Definition send_raw_transaction (a : EthApi) (now : Z) (data : list Z) : rust ((Z + err) * EthApi) :=
  match decode_raw (api_backend a) data with
  | inr e => Val (inr e, a)
  | inl tx =>
      match PendingTransaction_new tx with
      | None => Val (inr SignatureErr, a)
      | Some pending =>
          match validate_pool_transaction (api_backend a) now pending with
          | Some e => Val (inr e, a)
          | None =>
              match ref_basic (b_db (api_backend a)) (pt_sender pending) with
              | inr e => Val (inr (DatabaseErr e), a)
              | inl account =>
                  let on_chain_nonce := nonce (default AccountInfo_default account) in
                  tx ← pool_transaction (api_transaction_order a) pending on_chain_nonce;
                  '(out, p) ← pool.Pool_add_transaction (api_pool a) tx;
                  Val (match out with inl _ => inl (pt_hash pending) | inr e => inr (PoolErr e) end,
                       set_api_pool a p)
              end
          end
      end
  end.

(** [mine_one]: what is ready goes into a block and out of the pool. *)
Definition mine_one (a : EthApi) (now : Z) : rust EthApi :=
  transactions ← ready_list a;
  '(outcome, b) ← do_mine_block (api_backend a) now transactions;
  '(_, p) ← pool.on_mined_block (api_pool a) outcome;
  Val (set_api_pool (set_api_backend a b) p).
End api.
