(* ===== verification/Queries.v ===== *)
(** * Looking at the chain: the queries of [anvil/src/eth/backend/mem/mod.rs]

    Blocks, transactions, receipts and logs in the form in which the API
    returns them ([convert_block], [transaction_build],
    [mined_transaction_receipt], [mined_logs_for_block], ...), the matching of
    logs for subscriptions ([pubsub.rs]) and the polling filters
    ([filter.rs]).  The types of the answers are records of the fields that
    the code sets; filters, and what matches them, are of another crate and a
    parameter. *)

From stdpp Require Import base option list gmap sets strings.
From Stdlib Require Import ZArith Lia.
From S2P Require Import Prelude Primitives Precompile Journal EvmImpl CacheDB NodeDb BlockStates EthTransaction Fees TxPool Miner Codec Calls.

(** ** The types of the answers *)

(** Without [log_type], which is never set. *)
Record EthersLog := mkEthersLog {
  el_address : Z;
  el_topics : list Z;
  el_data : list Z;
  el_block_hash : option Z;
  el_block_number : option Z;
  el_transaction_hash : option Z;
  el_transaction_index : option Z;
  el_log_index : option Z;
  el_transaction_log_index : option Z;
  el_removed : option bool;
}.

Record EthersTransaction := mkEthersTransaction {
  etx_hash : Z;
  etx_nonce : Z;
  etx_block_hash : option Z;
  etx_block_number : option Z;
  etx_transaction_index : option Z;
  etx_from : Z;
  etx_to : option Z;
  etx_value : Z;
  etx_gas_price : option Z;
  etx_max_fee_per_gas : option Z;
  etx_max_priority_fee_per_gas : option Z;
  etx_gas : Z;
  etx_input : list Z;
  etx_chain_id : option Z;
  etx_v : Z;
  etx_r : Z;
  etx_s : Z;
  etx_access_list : option AccessList;
  etx_transaction_type : option Z;
}.

Section answers.
Context {HBL : Blooms}.

(** A block with its transactions, or with their hashes. *)
Record EthersBlock (T : Type) := mkEthersBlock {
  eb_hash : option Z;
  eb_parent_hash : Z;
  eb_uncles_hash : Z;
  eb_author : option Z;
  eb_state_root : Z;
  eb_transactions_root : Z;
  eb_receipts_root : Z;
  eb_number : option Z;
  eb_gas_used : Z;
  eb_gas_limit : Z;
  eb_extra_data : list Z;
  eb_logs_bloom : option Bloom;
  eb_timestamp : Z;
  eb_difficulty : Z;
  eb_total_difficulty : option Z;
  eb_seal_fields : list (list Z);
  eb_uncles : list Z;
  eb_transactions : list T;
  eb_size : option Z;
  eb_mix_hash : option Z;
  eb_nonce : option Z;
  eb_base_fee_per_gas : option Z;
}.

(** Without [root], which is never set. *)
Record TransactionReceipt := mkTransactionReceipt {
  tr_transaction_hash : Z;
  tr_transaction_index : Z;
  tr_block_hash : option Z;
  tr_block_number : option Z;
  tr_from : Z;
  tr_to : option Z;
  tr_cumulative_gas_used : Z;
  tr_gas_used : option Z;
  tr_contract_address : option Z;
  tr_logs : list EthersLog;
  tr_status : option Z;
  tr_logs_bloom : Bloom;
  tr_transaction_type : option Z;
  tr_effective_gas_price : option Z;
}.
Record MinedTransactionReceipt := mkMinedTransactionReceipt {
  mr_inner : TransactionReceipt;
  mr_out : option (list Z);
}.
End answers.
Arguments mkEthersBlock {HBL T}.
Arguments eb_hash {HBL T}.
Arguments eb_parent_hash {HBL T}.
Arguments eb_uncles_hash {HBL T}.
Arguments eb_author {HBL T}.
Arguments eb_state_root {HBL T}.
Arguments eb_transactions_root {HBL T}.
Arguments eb_receipts_root {HBL T}.
Arguments eb_number {HBL T}.
Arguments eb_gas_used {HBL T}.
Arguments eb_gas_limit {HBL T}.
Arguments eb_extra_data {HBL T}.
Arguments eb_logs_bloom {HBL T}.
Arguments eb_timestamp {HBL T}.
Arguments eb_difficulty {HBL T}.
Arguments eb_total_difficulty {HBL T}.
Arguments eb_seal_fields {HBL T}.
Arguments eb_uncles {HBL T}.
Arguments eb_transactions {HBL T}.
Arguments eb_size {HBL T}.
Arguments eb_mix_hash {HBL T}.
Arguments eb_nonce {HBL T}.
Arguments eb_base_fee_per_gas {HBL T}.

(** ** Filters of the crate: [Filter] and [FilteredParams] *)
Class LogFilters := {
  Filter : Type;
  filter_has_address : Filter -> bool;
  filter_has_topics : Filter -> bool;
  filter_get_block_hash : Filter -> option Z;
  filter_get_from_block : Filter -> option BlockNumber;
  filter_get_to_block : Filter -> option BlockNumber;
  params_filter_address : Filter -> EthersLog -> bool;
  params_filter_topics : Filter -> EthersLog -> bool;
  params_filter_block_range : Filter -> Z -> bool;
  params_filter_block_hash : Filter -> Z -> bool;
}.

(** A log before it is known where it is. *)
Definition unplaced (log : Log) : EthersLog :=
  mkEthersLog (log_address log) (log_topics log) (log_data log) None None None None None None (Some false).

(** The conditions of [mined_logs_for_block]. *)
Definition is_match {HF : LogFilters} (filter : Filter) (log : EthersLog) : bool :=
  if filter_has_address filter && filter_has_topics filter then
    if negb (params_filter_address filter log) || negb (params_filter_topics filter log) then false else true
  else if filter_has_address filter then
    if negb (params_filter_address filter log) then false else true
  else if filter_has_topics filter && negb (params_filter_topics filter log) then false
  else true.

(** ** Transactions: [ethers_compat.rs] and [transaction_build] *)
Section transactions.
Context {HBL : Blooms} {HBH : BlockHashing} {HTC : Chrono} {HRL : Rlp} {HCR : Crypto} {HSG : Signatures}.

Definition to_ethers_transaction_with_hash_and_sender (transaction : TypedTransaction) (hash from : Z) :
  EthersTransaction :=
  match transaction with
  | Legacy t =>
      mkEthersTransaction hash (lt_nonce t) None None None from None (lt_value t) (Some (lt_gas_price t))
        (Some (lt_gas_price t)) (Some (lt_gas_price t)) (lt_gas_limit t) (lt_input t)
        (LegacyTransaction_chain_id t) (sig_v (lt_signature t)) (sig_r (lt_signature t))
        (sig_s (lt_signature t)) None None
  | EIP2930 t =>
      mkEthersTransaction hash (at_nonce t) None None None from None (at_value t) (Some (at_gas_price t))
        (Some (at_gas_price t)) (Some (at_gas_price t)) (at_gas_limit t) (at_input t)
        (Some (at_chain_id t)) (Z.b2z (at_odd_y_parity t)) (at_r t) (at_s t) (Some (at_access_list t)) (Some 1)
  | EIP1559 t =>
      mkEthersTransaction hash (ft_nonce t) None None None from None (ft_value t) None
        (Some (ft_max_fee_per_gas t)) (Some (ft_max_priority_fee_per_gas t)) (ft_gas_limit t) (ft_input t)
        (Some (ft_chain_id t)) (Z.b2z (ft_odd_y_parity t)) (ft_r t) (ft_s t) (Some (ft_access_list t)) (Some 2)
  end.

Definition EthersTransaction_from (transaction : MaybeImpersonatedTransaction) : EthersTransaction :=
  let hash := MaybeImpersonatedTransaction_hash transaction in
  let sender := default 0 (MaybeImpersonatedTransaction_recover transaction) in
  to_ethers_transaction_with_hash_and_sender (mi_transaction transaction) hash sender.

(** The prices that the API reports. *)
Definition set_prices (is_eip1559 mined : bool) (base_fee : option Z) (tx : TypedTransaction)
  (transaction : EthersTransaction) : EthersTransaction :=
  let '(mkEthersTransaction hash nonce block_hash block_number index from to value gas_price max_fee
    max_priority gas input chain_id v r s access_list type) := transaction in
  if TypedTransaction.is_eip1559 tx then
    let gas_price :=
      if mined then
        Some (default (u256_modulus - 1) (u256_checked_add (default 0 base_fee) (default 0 max_priority)))
      else max_fee in
    mkEthersTransaction hash nonce block_hash block_number index from to value gas_price max_fee
      max_priority gas input chain_id v r s access_list type
  else if is_eip1559 then transaction
  else
    mkEthersTransaction hash nonce block_hash block_number index from to value gas_price None None gas
      input chain_id v r s access_list None.

(** [recover().expect(..)] on a transaction that nobody signed. *)
Definition transaction_build (tx_hash : option Z) (eth_transaction : MaybeImpersonatedTransaction)
  (block : option Block) (info : option TransactionInfo) (is_eip1559 : bool) (base_fee : option Z) :
  rust EthersTransaction :=
  let tx := mi_transaction eth_transaction in
  let mined := bool_decide (is_Some block) || bool_decide (is_Some info) in
  let transaction := set_prices is_eip1559 mined base_fee tx (EthersTransaction_from eth_transaction) in
  block_number ← match block with
    | Some block => n ← as_u64 (hd_number (bl_header block)); Val (Some n)
    | None => Val None
    end;
  '(from, hash) ← (if TypedTransaction_is_impersonated tx then
      let from := default 0 (ti_from <$> info) in Val (from, impersonated_hash tx from)
    else
      from ← unwrap (MaybeImpersonatedTransaction_recover eth_transaction);
      Val (from, etx_hash transaction));
  Val (mkEthersTransaction (default hash tx_hash) (etx_nonce transaction)
    ((header_hash ∘ bl_header) <$> block) block_number (ti_transaction_index <$> info) from
    (match info with Some status => ti_to status | None => TypedTransaction.to tx end)
    (etx_value transaction) (etx_gas_price transaction) (etx_max_fee_per_gas transaction)
    (etx_max_priority_fee_per_gas transaction) (etx_gas transaction) (etx_input transaction)
    (etx_chain_id transaction) (etx_v transaction) (etx_r transaction) (etx_s transaction)
    (etx_access_list transaction) (etx_transaction_type transaction)).

(** The wrapper in which a block holds the transaction: the sender is kept
    when the transaction has the signature of impersonation. *)
Definition wrapped (p : PendingTransaction) : MaybeImpersonatedTransaction :=
  mkMaybeImpersonated (pt_transaction p)
    (if TypedTransaction_is_impersonated (pt_transaction p) then Some (pt_sender p) else None).
End transactions.

(** ** Queries of the backend *)
Section backend.
Context {DB : Type} {HDB : Database DB} {HR : DatabaseRef DB}.
Context {StateDb : Type} {HM : MaybeHashDatabase StateDb} {HFI : FileSystem}.
Context {HBL : Blooms} {HBH : BlockHashing} {HTC : Chrono} {HRL : Rlp} {HBR : BloomRlp} {HCR : Crypto} {HSG : Signatures}.
Abbreviation backend := (Backend (DB := DB) (StateDb := StateDb)).

(** *** Blocks *)

Definition get_block_by_hash (b : backend) (hash : Z) : option Block := st_blocks (b_storage b) !! hash.

Definition convert_block (b : backend) (block : Block) : rust (EthersBlock Z) :=
  let size := zlen (Block_encode block) mod 2 ^ 32 in
  let header := bl_header block in
  number ← as_u64 (hd_number header);
  Val (mkEthersBlock (Some (header_hash header)) (hd_parent_hash header) (hd_ommers_hash header)
    (Some (hd_beneficiary header)) (hd_state_root header) (hd_transactions_root header)
    (hd_receipts_root header) (Some number) (hd_gas_used header) (hd_gas_limit header)
    (hd_extra_data header) (Some (hd_logs_bloom header)) (hd_timestamp header) (hd_difficulty header)
    (Some (st_total_difficulty (b_storage b)))
    [to_be_bytes 32 (hd_mix_hash header); to_be_bytes 8 (hd_nonce header)] [] (pt_hash <$> bl_transactions block)
    (Some size) (Some (hd_mix_hash header)) (Some (hd_nonce header)) (hd_base_fee_per_gas header)).

(** [None] when a part is not there, as with the operator [?]. *)
Definition converted (b : backend) (block : option Block) : rust (option (EthersBlock Z)) :=
  match block with
  | None => Val None
  | Some block => eb ← convert_block b block; Val (Some eb)
  end.
Definition mined_block_by_hash (b : backend) (hash : Z) : rust (option (EthersBlock Z)) :=
  converted b (get_block_by_hash b hash).
Definition mined_block_by_number (b : backend) (number : BlockNumber) : rust (option (EthersBlock Z)) :=
  converted b (get_block b (IdNumber number)).

(** The transactions of the block in order: the hash gives the index, and the
    index the transaction. *)
Fixpoint mined_transactions (b : backend) (block : Block) (hashes : list Z) :
  rust (option (list EthersTransaction)) :=
  match hashes with
  | [] => Val (Some [])
  | hash :: hashes =>
      match (m ← st_transactions (b_storage b) !! hash;
             tx ← bl_transactions block !! Z.to_nat (ti_transaction_index (mt_info m)); Some (mt_info m, tx)) with
      | None => Val None
      | Some (info, tx) =>
          tx ← transaction_build (Some hash) (wrapped tx) (Some block) (Some info) true
            (hd_base_fee_per_gas (bl_header block));
          rest ← mined_transactions b block hashes;
          Val match rest with Some rest => Some (tx :: rest) | None => None end
      end
  end.
Definition mined_transactions_in_block (b : backend) (block : Block) : rust (option (list EthersTransaction)) :=
  mined_transactions b block (pt_hash <$> bl_transactions block).

(** [into_full_block] of the crate. *)
Definition into_full_block {T : Type} (eb : EthersBlock Z) (transactions : list T) : EthersBlock T :=
  mkEthersBlock (eb_hash eb) (eb_parent_hash eb) (eb_uncles_hash eb) (eb_author eb) (eb_state_root eb)
    (eb_transactions_root eb) (eb_receipts_root eb) (eb_number eb) (eb_gas_used eb)
    (eb_gas_limit eb) (eb_extra_data eb) (eb_logs_bloom eb) (eb_timestamp eb) (eb_difficulty eb)
    (eb_total_difficulty eb) (eb_seal_fields eb) (eb_uncles eb) transactions (eb_size eb)
    (eb_mix_hash eb) (eb_nonce eb) (eb_base_fee_per_gas eb).

Definition get_full_block (b : backend) (id : BlockId) : rust (option (EthersBlock EthersTransaction)) :=
  match get_block b id with
  | None => Val None
  | Some block =>
      transactions ← mined_transactions_in_block b block;
      match transactions with
      | None => Val None
      | Some transactions => eb ← convert_block b block; Val (Some (into_full_block eb transactions))
      end
  end.

(** The answers of the API, for a node without a fork. *)
Definition block_by_hash (b : backend) (hash : Z) : rust (option (EthersBlock Z)) := mined_block_by_hash b hash.
Definition block_by_hash_full (b : backend) (hash : Z) : rust (option (EthersBlock EthersTransaction)) :=
  get_full_block b (IdHash hash).
Definition block_by_number (b : backend) (number : BlockNumber) : rust (option (EthersBlock Z)) :=
  mined_block_by_number b number.
Definition block_by_number_full (b : backend) (number : BlockNumber) :
  rust (option (EthersBlock EthersTransaction)) := get_full_block b (IdNumber number).

(** *** Transactions *)

Definition mined_transaction_by_hash (b : backend) (hash : Z) : rust (option EthersTransaction) :=
  match (m ← st_transactions (b_storage b) !! hash;
         block ← st_blocks (b_storage b) !! mt_block_hash m;
         tx ← bl_transactions block !! Z.to_nat (ti_transaction_index (mt_info m));
         Some (mt_info m, block, tx)) with
  | None => Val None
  | Some (info, block, tx) =>
      tx ← transaction_build (Some (ti_transaction_hash info)) (wrapped tx) (Some block) (Some info) true
        (hd_base_fee_per_gas (bl_header block));
      Val (Some tx)
  end.
Definition mined_transaction_by_block_hash_and_index (b : backend) (block_hash index : Z) :
  rust (option EthersTransaction) :=
  match (block ← st_blocks (b_storage b) !! block_hash;
         tx ← bl_transactions block !! Z.to_nat index;
         m ← st_transactions (b_storage b) !! pt_hash tx;
         Some (mt_info m, block, tx)) with
  | None => Val None
  | Some (info, block, tx) =>
      tx ← transaction_build (Some (ti_transaction_hash info)) (wrapped tx) (Some block) (Some info) true
        (hd_base_fee_per_gas (bl_header block));
      Val (Some tx)
  end.
Definition transaction_by_block_number_and_index (b : backend) (number : BlockNumber) (index : Z) :
  rust (option EthersTransaction) :=
  block ← mined_block_by_number b number;
  match match block with Some block => eb_hash block | None => None end with
  | Some hash => mined_transaction_by_block_hash_and_index b hash index
  | None => Val None
  end.

(** *** Receipts *)

Definition get_receipts (b : backend) (tx_hashes : list Z) : list TypedReceipt :=
  omap (fun hash => mt_receipt <$> st_transactions (b_storage b) !! hash) tx_hashes.

(** All receipts of the block, or none. *)
Definition mined_receipts (b : backend) (hash : Z) : rust (option (list TypedReceipt)) :=
  block ← mined_block_by_hash b hash;
  Val match block with
  | Some block => mapM (fun tx => mt_receipt <$> st_transactions (b_storage b) !! tx) (eb_transactions block)
  | None => None
  end.

(** What the receipt says the transaction paid for its gas; [base_fee] is
    that of the node now. *)
Definition effective_gas_price (base_fee : Z) (block : Block) (tx : TypedTransaction) : Z :=
  match tx with
  | Legacy t => lt_gas_price t
  | EIP2930 t => at_gas_price t
  | EIP1559 t =>
      default (u256_modulus - 1)
        (u256_checked_add (default base_fee (hd_base_fee_per_gas (bl_header block)))
          (ft_max_priority_fee_per_gas t))
  end.

(** The index in the block of the first log of a receipt: the number of its
    own logs for each receipt before it.  The sum is of 32 bits and wraps. *)
Definition pre_receipts_log_index (logs : list Log) (cumulative_receipts : list TypedReceipt) : option Z :=
  match cumulative_receipts with
  | [] => None
  | _ :: _ =>
      Some (foldl (fun n (_r : TypedReceipt) => (n + zlen logs mod 2 ^ 32) mod 2 ^ 32) 0
        (take (length cumulative_receipts - 1) cumulative_receipts))
  end.
Definition placed (block_hash number transaction_hash transaction_index log_index i : Z) (log : Log) : EthersLog :=
  mkEthersLog (log_address log) (log_topics log) (log_data log) (Some block_hash) (Some number)
    (Some transaction_hash) (Some transaction_index) (Some log_index) (Some i) (Some false).

(** [block.transactions[index]] panics out of bounds. *)
Definition mined_transaction_receipt (b : backend) (hash : Z) : rust (option MinedTransactionReceipt) :=
  match (m ← st_transactions (b_storage b) !! hash;
         block ← st_blocks (b_storage b) !! mt_block_hash m; Some (m, block)) with
  | None => Val None
  | Some (m, block) =>
      let info := mt_info m in
      let receipt := TypedReceipt_receipt (mt_receipt m) in
      let logs := receipt_logs receipt in
      let index := Z.to_nat (ti_transaction_index info) in
      let receipts := get_receipts b (pt_hash <$> bl_transactions block) in
      let cumulative_gas_used := foldl (fun n r => u256_saturating_add n (TypedReceipt_gas_used r)) 0
        (take (index + 1) receipts) in
      let cumulative_receipts := take (index + 1) receipts in
      transaction ← unwrap (bl_transactions block !! index);
      let price := effective_gas_price (FeeManager.base_fee (b_fees b)) block (pt_transaction transaction) in
      number ← as_u64 (hd_number (bl_header block));
      let pre := default 0 (pre_receipts_log_index logs cumulative_receipts) in
      let ethers_logs := imap (fun i log =>
        placed (mt_block_hash m) number (ti_transaction_hash info) (ti_transaction_index info)
          ((pre + Z.of_nat i mod 2 ^ 32) mod 2 ^ 32) (Z.of_nat i) log) logs in
      Val (Some (mkMinedTransactionReceipt
        (mkTransactionReceipt (ti_transaction_hash info) (ti_transaction_index info) (Some (mt_block_hash m))
          (Some number) (ti_from info) (ti_to info) cumulative_gas_used (Some (receipt_gas_used receipt))
          (ti_contract_address info) ethers_logs (Some (status_code receipt)) (receipt_logs_bloom receipt)
          (TypedTransaction.type (pt_transaction transaction)) (Some price))
        (ti_out info)))
  end.
Definition transaction_receipt (b : backend) (hash : Z) : rust (option TransactionReceipt) :=
  r ← mined_transaction_receipt b hash; Val match r with Some r => Some (mr_inner r) | None => None end.

(** *** Logs *)
Context {HF : LogFilters}.

(** The logs of one transaction, appended to those found; the index in the
    block is of 32 bits and wraps. *)
Definition push_log (filter : Filter) (block : Block) (transaction : TransactionInfo)
  (acc : rust (Z * list EthersLog)) (entry : nat * Log) : rust (Z * list EthersLog) :=
  '(block_log_index, all_logs) ← acc;
  let '(log_idx, log) := entry in
  all_logs ← (if is_match filter (unplaced log) then
      number ← as_u64 (hd_number (bl_header block));
      Val (all_logs ++ [placed (header_hash (bl_header block)) number (ti_transaction_hash transaction)
        (ti_transaction_index transaction) block_log_index (Z.of_nat log_idx) log])
    else Val all_logs);
  Val ((block_log_index + 1) mod 2 ^ 32, all_logs).
Definition push_logs (filter : Filter) (block : Block) (acc : rust (Z * list EthersLog))
  (transaction : TransactionInfo) : rust (Z * list EthersLog) :=
  foldl (push_log filter block transaction) acc (imap pair (ti_logs transaction)).
Definition mined_logs_for_block (b : backend) (filter : Filter) (block : Block) : rust (list EthersLog) :=
  let transactions := omap (fun tx => mt_info <$> st_transactions (b_storage b) !! pt_hash tx)
    (bl_transactions block) in
  '(_, all_logs) ← foldl (push_logs filter block) (Val (0, [])) transactions;
  Val all_logs.

Definition logs_for_block (b : backend) (filter : Filter) (hash : Z) : rust (list EthersLog) :=
  match st_blocks (b_storage b) !! hash with
  | Some block => mined_logs_for_block b filter block
  | None => Val []
  end.

Definition push_block_logs (b : backend) (filter : Filter) (acc : rust (list EthersLog)) (number : Z) :
  rust (list EthersLog) :=
  all_logs ← acc;
  match get_block b (IdNumber (Number number)) with
  | Some block => logs ← mined_logs_for_block b filter block; Val (all_logs ++ logs)
  | None => Val all_logs
  end.
Definition logs_for_range (b : backend) (filter : Filter) (from to : Z) : rust (list EthersLog) :=
  foldl (push_block_logs b filter) (Val []) (seqZ from (to - from + 1)).
Definition logs (b : backend) (filter : Filter) : rust (list EthersLog) :=
  match filter_get_block_hash filter with
  | Some hash => logs_for_block b filter hash
  | None =>
      let best := best_number b in
      let to_block := Z.min (convert_block_number b (filter_get_to_block filter)) best in
      let from_block := convert_block_number b (filter_get_from_block filter) in
      if best <? from_block then Val []
      else logs_for_range b filter from_block to_block
  end.

(** *** pubsub.rs *)

(** [params] wraps an optional filter. *)
Definition add_log (block_hash : Z) (l : Log) (block : Block) (params : option Filter) : rust bool :=
  let log := unplaced l in
  match params with
  | None => Val true
  | Some filter =>
      block_number ← as_u64 (hd_number (bl_header block));
      Val (if negb (params_filter_block_range filter block_number) ||
              negb (params_filter_block_hash filter block_hash) ||
              negb (params_filter_address filter log) || negb (params_filter_topics filter log)
           then false else true)
  end.
Definition filter_log (block : Block) (filter : option Filter) (receipt_index : nat) (transaction_hash : Z)
  (acc : rust (Z * list EthersLog)) (entry : nat * Log) : rust (Z * list EthersLog) :=
  '(log_index, logs) ← acc;
  let '(transaction_log_index, log) := entry in
  let block_hash := header_hash (bl_header block) in
  add ← add_log block_hash log block filter;
  logs ← (if (add : bool) then
      number ← as_u64 (hd_number (bl_header block));
      Val (logs ++ [placed block_hash number transaction_hash (Z.of_nat receipt_index) log_index
        (Z.of_nat transaction_log_index) log])
    else Val logs);
  Val ((log_index + 1) mod 2 ^ 32, logs).
(** The hash is looked up when there are logs, and panics out of bounds. *)
Definition filter_receipt (block : Block) (filter : option Filter) (acc : rust (Z * list EthersLog))
  (entry : nat * TypedReceipt) : rust (Z * list EthersLog) :=
  '(log_index, logs) ← acc;
  let '(receipt_index, receipt) := entry in
  let receipt_logs := receipt_logs (TypedReceipt_receipt receipt) in
  match receipt_logs with
  | [] => Val (log_index, logs)
  | _ :: _ =>
      tx ← unwrap (bl_transactions block !! receipt_index);
      foldl (filter_log block filter receipt_index (pt_hash tx)) (Val (log_index, logs)) (imap pair receipt_logs)
  end.
Definition filter_logs (block : Block) (receipts : list TypedReceipt) (filter : option Filter) :
  rust (list EthersLog) :=
  '(_, logs) ← foldl (filter_receipt block filter) (Val (0, [])) (imap pair receipts);
  Val logs.
End backend.
