(* ===== verification/Filters.v ===== *)
(** * Polling filters: [anvil/src/filter.rs]

    The filters that clients install and poll: for logs, for new blocks, for
    pending transactions.  What the listeners of a filter have received since
    the last poll is kept with it, in order; ids are drawn at random and are
    an argument, as is the clock. *)

From stdpp Require Import base option list gmap strings.
From Stdlib Require Import ZArith Lia.
From S2P Require Import Prelude Primitives Precompile Journal EvmImpl CacheDB NodeDb BlockStates EthTransaction Fees TxPool Miner Codec Calls Queries.

Definition ACTIVE_FILTER_TIMEOUT_SECS : Z := 60 * 5.

Section filters.
Context {DB : Type} {HDB : Database DB} {HR : DatabaseRef DB}.
Context {StateDb : Type} {HM : MaybeHashDatabase StateDb} {HFI : FileSystem}.
Context {HBL : Blooms} {HBH : BlockHashing} {HTC : Chrono} {HRL : Rlp} {HBR : BloomRlp} {HF : LogFilters}.
Abbreviation backend := (Backend (DB := DB) (StateDb := StateDb)).

(** [lf_blocks]: the hashes of the blocks announced since the last poll;
    [lf_filter]: the optional filter that its parameters wrap. *)
Record LogsFilter := mkLogsFilter {
  lf_blocks : list Z;
  lf_filter : option Filter;
  lf_historic : option (list EthersLog);
}.

(** The matching logs of the blocks, of those that are still there. *)
Fixpoint drain_blocks (b : backend) (filter : option Filter) (blocks : list Z) (logs : list EthersLog) :
  rust (list EthersLog) :=
  match blocks with
  | [] => Val logs
  | hash :: blocks =>
      let block := get_block_by_hash b hash in
      receipts ← mined_receipts b hash;
      logs ← match receipts, block with
        | Some receipts, Some block => new ← filter_logs block receipts filter; Val (logs ++ new)
        | _, _ => Val logs
        end;
      drain_blocks b filter blocks logs
  end.
Definition LogsFilter_poll (b : backend) (f : LogsFilter) : rust (list EthersLog * LogsFilter) :=
  logs ← drain_blocks b (lf_filter f) (lf_blocks f) (default [] (lf_historic f));
  Val (logs, mkLogsFilter [] (lf_filter f) None).

Inductive EthFilter :=
| FilterLogs (logs : LogsFilter)
| FilterBlocks (blocks : list Z)
| FilterPendingTransactions (txs : list Z).

(** The array of the response. *)
Inductive FilterChanges := LogChanges (logs : list EthersLog) | HashChanges (hashes : list Z).

Definition EthFilter_next (b : backend) (f : EthFilter) : rust (FilterChanges * EthFilter) :=
  match f with
  | FilterLogs logs => '(l, logs) ← LogsFilter_poll b logs; Val (LogChanges l, FilterLogs logs)
  | FilterBlocks blocks => Val (HashChanges blocks, FilterBlocks [])
  | FilterPendingTransactions txs => Val (HashChanges txs, FilterPendingTransactions [])
  end.

(** A new block or transaction is announced to the listeners of a filter. *)
Definition announce_block (hash : Z) (f : EthFilter) : EthFilter :=
  match f with
  | FilterLogs l => FilterLogs (mkLogsFilter (lf_blocks l ++ [hash]) (lf_filter l) (lf_historic l))
  | FilterBlocks blocks => FilterBlocks (blocks ++ [hash])
  | FilterPendingTransactions _ => f
  end.
Definition announce_transaction (hash : Z) (f : EthFilter) : EthFilter :=
  match f with FilterPendingTransactions txs => FilterPendingTransactions (txs ++ [hash]) | _ => f end.

(** Times in seconds. *)
Record Filters := mkFilters {
  active_filters : gmap string (EthFilter * Z);
  keepalive : Z;
}.
Definition Filters_default : Filters := mkFilters ∅ ACTIVE_FILTER_TIMEOUT_SECS.
Definition next_deadline (fs : Filters) (now : Z) : Z := now + keepalive fs.

Definition add_filter (fs : Filters) (now : Z) (id : string) (filter : EthFilter) : string * Filters :=
  (id, mkFilters (<[id := (filter, next_deadline fs now)]> (active_filters fs)) (keepalive fs)).
Definition get_filter_changes (fs : Filters) (b : backend) (now : Z) (id : string) :
  rust (FilterChanges * Filters) :=
  match active_filters fs !! id with
  | Some (filter, _) =>
      '(resp, filter) ← EthFilter_next b filter;
      Val (resp, mkFilters (<[id := (filter, next_deadline fs now)]> (active_filters fs)) (keepalive fs))
  | None => Val (HashChanges [], fs)
  end.
Definition get_log_filter (fs : Filters) (id : string) : option Filter :=
  match active_filters fs !! id with
  | Some (FilterLogs log, _) => lf_filter log
  | _ => None
  end.
Definition uninstall_filter (fs : Filters) (id : string) : option EthFilter * Filters :=
  (fst <$> active_filters fs !! id, mkFilters (delete id (active_filters fs)) (keepalive fs)).
Definition evict (fs : Filters) (now : Z) : Filters :=
  mkFilters (base.filter (fun entry => ~ (entry.2.2 < now)) (active_filters fs)) (keepalive fs).

(** All listeners hear of it. *)
Definition notify_filters (announce : EthFilter -> EthFilter) (fs : Filters) : Filters :=
  mkFilters ((fun entry => (announce entry.1, entry.2)) <$> active_filters fs) (keepalive fs).

(** ** pubsub.rs: subscriptions to logs, as long as the node runs *)
Record LogsSubscription := mkLogsSubscription {
  ls_blocks : list Z;
  ls_filter : option Filter;
  ls_queued : list EthersLog;
}.
(** [None] is [Poll::Pending]: no block is announced, or the one that is
    cannot be found.  The loop takes a block in each round. *)
Fixpoint subscription_loop (b : backend) (filter : option Filter) (blocks : list Z) :
  rust (option EthersLog * LogsSubscription) :=
  match blocks with
  | [] => Val (None, mkLogsSubscription [] filter [])
  | hash :: blocks =>
      let block := get_block_by_hash b hash in
      receipts ← mined_receipts b hash;
      match receipts, block with
      | Some receipts, Some block =>
          logs ← filter_logs block receipts filter;
          match logs with
          | [] => subscription_loop b filter blocks
          | log :: logs => Val (Some log, mkLogsSubscription blocks filter logs)
          end
      | _, _ => Val (None, mkLogsSubscription blocks filter [])
      end
  end.
Definition LogsSubscription_poll (b : backend) (s : LogsSubscription) :
  rust (option EthersLog * LogsSubscription) :=
  match ls_queued s with
  | log :: queued => Val (Some log, mkLogsSubscription (ls_blocks s) (ls_filter s) queued)
  | [] => subscription_loop b (ls_filter s) (ls_blocks s)
  end.

(** ** api.rs: installing and asking *)
Definition new_filter (b : backend) (fs : Filters) (now : Z) (id : string) (filter : Filter) :
  rust (string * Filters) :=
  historic ← match filter_get_from_block filter with Some _ => logs b filter | None => Val [] end;
  Val (add_filter fs now id (FilterLogs (mkLogsFilter [] (Some filter) (Some historic)))).
Definition new_block_filter (fs : Filters) (now : Z) (id : string) : string * Filters :=
  add_filter fs now id (FilterBlocks []).
Definition new_pending_transaction_filter (fs : Filters) (now : Z) (id : string) : string * Filters :=
  add_filter fs now id (FilterPendingTransactions []).
Definition get_filter_logs (b : backend) (fs : Filters) (id : string) : rust (list EthersLog) :=
  match get_log_filter fs id with
  | Some filter => logs b filter
  | None => Val []
  end.
End filters.
