(* ===== verification/NodeApi.v ===== *)
(** * Controlling the node: the [anvil_*] and [evm_*] calls of [anvil/src/eth/api.rs]

    The handlers that change the node: mining on demand and its mode, the
    setters of accounts, fees, gas limit, coinbase and time, snapshots,
    impersonation, and the dispatch of requests to them; and those that look
    at the chain together with the pool.  The service runs beside them on the
    same pool, backend and miner ([Node]); a request is one step of it. *)

From stdpp Require Import base option list gmap sets strings pretty.
From Stdlib Require Import ZArith Lia.
From S2P Require Import Prelude Primitives Precompile Journal EvmImpl CacheDB NodeDb BlockStates EthTransaction EthRequest Fees TxPool Miner Codec Calls Api Queries.

Inductive EvmMineOptions :=
| MineTimestamp (timestamp : option Z)
| MineOptions (timestamp blocks : option Z).

(** [TxpoolInspect] and [TxpoolContent]: by sender, and by nonce in decimal. *)
Record Txpool (T : Type) := mkTxpool {
  tp_pending : gmap Z (gmap string T);
  tp_queued : gmap Z (gmap string T);
}.
Arguments mkTxpool {T} _ _.
Arguments tp_pending {T} _.
Arguments tp_queued {T} _.
Record TxpoolInspectSummary := mkTxpoolInspectSummary {
  tis_to : option Z;
  tis_value : Z;
  tis_gas : Z;
  tis_gas_price : Z;
}.

Section node.
Context {DB : Type} {HDB : Database DB} {HR : DatabaseRef DB} {HEV : Evm (CacheDB DB)} {HEM : Evm DB} {HD : Db DB}.
Context {StateDb : Type} {HM : MaybeHashDatabase StateDb} {HFI : FileSystem} {HCS : CurrentState DB StateDb}.
Context {HBL : Blooms} {HBH : BlockHashing} {HTC : Chrono} {HCH : pool.Channel} {HRL : Rlp} {HBR : BloomRlp} {HCR : Crypto} {HSG : Signatures}.
Context (boxed_state : StateDb -> DynDatabase (ref_error (DB := DB))).
Abbreviation backend := (Backend (DB := DB) (StateDb := StateDb)).
Abbreviation err := (BlockchainError (ref_error (DB := DB))).
Abbreviation api := (EthApi (DB := DB) (StateDb := StateDb)).
(** In the code the errors of both interfaces of the database are of one type. *)
Context (as_ref_error : db_error (DB := DB) -> ref_error (DB := DB)).

(** ** Setters of the backend, backend/mem/mod.rs *)
Definition with_env (b : backend) (env : Env) : backend :=
  mkBackend env (b_db b) (b_fees b) (b_time b) (b_storage b) (b_states b) (b_prune_config b)
    (b_active_snapshots b) (b_transaction_block_keeper b) (b_statics b).
Definition with_db (b : backend) (db : DB) : backend :=
  mkBackend (b_env b) db (b_fees b) (b_time b) (b_storage b) (b_states b) (b_prune_config b)
    (b_active_snapshots b) (b_transaction_block_keeper b) (b_statics b).
Definition with_fees (b : backend) (fees : FeeManager.t) : backend :=
  mkBackend (b_env b) (b_db b) fees (b_time b) (b_storage b) (b_states b) (b_prune_config b)
    (b_active_snapshots b) (b_transaction_block_keeper b) (b_statics b).
Definition with_time (b : backend) (time : TimeManager.t) : backend :=
  mkBackend (b_env b) (b_db b) (b_fees b) time (b_storage b) (b_states b) (b_prune_config b)
    (b_active_snapshots b) (b_transaction_block_keeper b) (b_statics b).
Definition with_block_states (b : backend) (states : InMemoryBlockStates.t StateDb) : backend :=
  mkBackend (b_env b) (b_db b) (b_fees b) (b_time b) (b_storage b) states (b_prune_config b)
    (b_active_snapshots b) (b_transaction_block_keeper b) (b_statics b).

Definition backend_set_coinbase (b : backend) (address : Z) : backend :=
  let env := b_env b in let block := env_block env in
  with_env b (mkEnv (env_cfg env) (mkBlockEnv (block_number block) address (block_timestamp block)
    (block_difficulty block) (block_prevrandao block) (block_basefee block) (block_gas_limit block)) (env_tx env)).
Definition backend_set_gas_limit (b : backend) (gas_limit : Z) : backend :=
  let env := b_env b in let block := env_block env in
  with_env b (mkEnv (env_cfg env) (mkBlockEnv (block_number block) (block_coinbase block) (block_timestamp block)
    (block_difficulty block) (block_prevrandao block) (block_basefee block) gas_limit) (env_tx env)).
Definition disable_eip3607 (b : backend) : backend :=
  let env := b_env b in let cfg := env_cfg env in
  with_env b (mkEnv (mkCfgEnv (cfg_chain_id cfg) (cfg_spec_id cfg) (cfg_perf_all_precompiles_have_balance cfg)
    (cfg_perf_analyse_created_bytecodes cfg) (cfg_limit_contract_code_size cfg) (cfg_memory_limit cfg)
    (cfg_disable_block_gas_limit cfg) true (cfg_disable_base_fee cfg)) (env_block env) (env_tx env)).
Definition backend_is_eip1559 (b : backend) : bool := enabled (cfg_spec_id (env_cfg (b_env b))) LONDON.
Definition backend_set_base_fee (b : backend) (basefee : Z) : backend :=
  with_fees b (FeeManager.set_base_fee (b_fees b) basefee).
Definition backend_set_gas_price (b : backend) (price : Z) : backend :=
  with_fees b (FeeManager.set_gas_price (b_fees b) price).
Definition set_block_number_of (b : backend) (number : Z) : backend :=
  with_env b (set_block_number (b_env b) number).

(** The setters of accounts: [?] on the result of the database. *)
Definition on_db {A : Type} (b : backend) (r : (A + db_error) * DB) : (A + db_error) * backend :=
  (r.1, with_db b r.2).
Definition backend_set_nonce (b : backend) (address nonce : Z) : (unit + db_error) * backend :=
  on_db b (set_nonce (b_db b) address (Z.min nonce u64_max)).
Definition backend_set_balance (b : backend) (address balance : Z) : (unit + db_error) * backend :=
  on_db b (set_balance (b_db b) address balance).
Definition backend_set_code (b : backend) (address : Z) (code : list Z) : (unit + db_error) * backend :=
  on_db b (set_code (b_db b) address code).
Definition backend_set_storage_at (b : backend) (address slot val : Z) : (unit + db_error) * backend :=
  on_db b (set_storage_at (b_db b) address slot val).
Definition serialized_state (b : backend) : rust (SerializableState + err) :=
  state ← dump_state (b_db b);
  Val match state with
  | inl (Some state) => inl state
  | inl None => inr RpcInvalidParams
  | inr e => inr (DatabaseErr e)
  end.
(** [None] is a buffer that cannot be decoded: gzip and JSON are third-party. *)
Definition backend_load_state (b : backend) (state : option SerializableState) : (bool + err) * backend :=
  match state with
  | None => (inr FailedToDecodeStateDump, b)
  | Some state =>
      let '(r, b) := on_db b (load_state (b_db b) state) in
      (match r with
       | inl true => inl true
       | inl false => inr RpcInvalidParams
       | inr e => inr (DatabaseErr (as_ref_error e))
       end, b)
  end.
Definition backend_impersonate (b : backend) (cheats : CheatsState) (addr : Z) : bool * backend * CheatsState :=
  if is_impersonated cheats addr then (true, b, cheats)
  else let '(r, cheats) := impersonate cheats addr in (r, disable_eip3607 b, cheats).

(** ** Handlers of the API *)

(** What a request is answered with. *)
Inductive Response :=
| RNull
| RBool (b : bool)
| RNumber (n : Z)
| ROptional (n : option Z)
| RBytes (bytes : list Z)
| RAddresses (addresses : list Z)
| RSignature (signature : Signature)
| RState (state : SerializableState)
| RBlock (block : option (EthersBlock Z))
| RFullBlock (block : option (EthersBlock EthersTransaction))
| RTransaction (tx : option EthersTransaction)
| RReceipt (receipt : option TransactionReceipt)
| RLogs (logs : list EthersLog)
| RStatus (pending queued : Z)
| RInspect (inspect : Txpool TxpoolInspectSummary)
| RContent (content : Txpool EthersTransaction).
Abbreviation answered := (rust ((Response + err) * api)).

Definition set_api_cheats (a : api) (cheats : CheatsState) : api :=
  mkEthApi (api_backend a) (api_pool a) (api_signers a) cheats (api_transaction_order a) (api_miner a).
Definition set_mining_mode (a : api) (mode : MiningMode) : api :=
  mkEthApi (api_backend a) (api_pool a) (api_signers a) (api_cheats a) (api_transaction_order a) mode.
Definition is_auto_mine (mode : MiningMode) : bool := match mode with Auto _ => true | _ => false end.
Definition is_interval (mode : MiningMode) : bool := match mode with FixedBlockTime => true | _ => false end.

(** A setter of an account that ends with [?]. *)
Definition setter (a : api) (r : (unit + db_error) * backend) (response : Response) : answered :=
  Val (match r.1 with inl _ => inl response | inr e => inr (DatabaseErr (as_ref_error e)) end,
    set_api_backend a r.2).

Definition anvil_get_auto_mine (a : api) : bool := is_auto_mine (api_miner a).
(** The new miner listens to the pool. *)
Definition anvil_set_auto_mine (a : api) (enable_automine : bool) : api :=
  if is_auto_mine (api_miner a) then
    if enable_automine then a else set_mining_mode a NoMining
  else if enable_automine then
    let '(_, p) := pool.add_ready_listener (api_pool a) in
    set_mining_mode (set_api_pool a p) (instant 1000)
  else a.

(** Block after block; [clock i] is the time at which the [i]th is mined. *)
Fixpoint mine_many (a : api) (clock : nat -> Z) (i n : nat) : rust api :=
  match n with
  | O => Val a
  | S n => a ← mine_one a (clock i); mine_many a clock (S i) n
  end.
(** It sleeps for the interval after each block. *)
Definition anvil_mine (a : api) (clock : nat -> Z) (num_blocks interval : option Z) : rust api :=
  _ ← match interval with Some i => n ← as_u64 i; Val (Some n) | None => Val None end;
  let blocks := default 1 num_blocks in
  if blocks =? 0 then Val a
  else n ← as_u64 blocks; mine_many a clock 0 (Z.to_nat n).
Definition anvil_set_interval_mining (a : api) (secs : Z) : rust api :=
  if secs =? 0 then Val (set_mining_mode a NoMining)
  else
    states ← InMemoryBlockStates.update_interval_mine_block_time (b_states (api_backend a)) secs;
    Val (set_mining_mode (set_api_backend a (with_block_states (api_backend a) states)) FixedBlockTime).
Definition anvil_drop_transaction (a : api) (tx_hash : Z) : rust (option Z * api) :=
  '(tx, p) ← pool.drop_transaction (api_pool a) tx_hash;
  let h : option Z := match tx with Some tx => Some (hash tx) | None => None end in
  Val (h, set_api_pool a p).
(** For a node without a fork. *)
Definition anvil_reset (forking : bool) : err := if forking then RpcInvalidParams else RpcUnimplemented.

Definition anvil_set_balance (a : api) (address balance : Z) : answered :=
  setter a (backend_set_balance (api_backend a) address balance) RNull.
Definition anvil_set_code (a : api) (address : Z) (code : list Z) : answered :=
  setter a (backend_set_code (api_backend a) address code) RNull.
Definition anvil_set_nonce (a : api) (address nonce : Z) : answered :=
  setter a (backend_set_nonce (api_backend a) address nonce) RNull.
Definition anvil_set_storage_at (a : api) (address slot val : Z) : answered :=
  setter a (backend_set_storage_at (api_backend a) address slot val) (RBool true).
Definition anvil_set_min_gas_price (a : api) (gas : Z) : (unit + err) * api :=
  if backend_is_eip1559 (api_backend a) then (inr RpcInvalidParams, a)
  else (inl tt, set_api_backend a (backend_set_gas_price (api_backend a) gas)).
Definition anvil_set_next_block_base_fee_per_gas (a : api) (basefee : Z) : (unit + err) * api :=
  if negb (backend_is_eip1559 (api_backend a)) then (inr RpcInvalidParams, a)
  else (inl tt, set_api_backend a (backend_set_base_fee (api_backend a) basefee)).
Definition anvil_set_coinbase (a : api) (address : Z) : api :=
  set_api_backend a (backend_set_coinbase (api_backend a) address).
Definition anvil_load_state (a : api) (state : option SerializableState) : (bool + err) * api :=
  let '(r, b) := backend_load_state (api_backend a) state in (r, set_api_backend a b).
Definition anvil_impersonate_account (a : api) (address : Z) : api :=
  let '(_, b, cheats) := backend_impersonate (api_backend a) (api_cheats a) address in
  set_api_cheats (set_api_backend a b) cheats.
Definition anvil_stop_impersonating_account (a : api) (address : Z) : api :=
  set_api_cheats a (stop_impersonating (api_cheats a) address).
Definition anvil_auto_impersonate_account (a : api) (enabled : bool) : api :=
  set_api_cheats a (set_auto_impersonate_account (api_cheats a) enabled).

Definition evm_snapshot (a : api) : Z * api :=
  let '(id, b) := create_snapshot (api_backend a) in (id, set_api_backend a b).
Definition evm_revert (a : api) (now id : Z) : rust ((bool + err) * api) :=
  '(r, b) ← revert_snapshot (api_backend a) now id;
  let r : bool + err := match r with Some r => inl r | None => inr BlockNotFound end in
  Val (r, set_api_backend a b).

(** [as i64] *)
Definition wrap_i64 (x : Z) : Z := (x + 2 ^ 63) mod 2 ^ 64 - 2 ^ 63.
Definition evm_increase_time (a : api) (seconds : Z) : Z * api :=
  let b := api_backend a in
  let '(offset, time) := TimeManager.increase_time (b_time b) (Z.min seconds u64_max) in
  (wrap_i64 offset, set_api_backend a (with_time b time)).
Definition evm_set_next_block_timestamp (a : api) (seconds : Z) : (unit + err) * api :=
  let b := api_backend a in
  match TimeManager.set_next_block_timestamp (b_time b) seconds with
  | Some time => (inl tt, set_api_backend a (with_time b time))
  | None => (inr TimestampError, a)
  end.
(** The difference of the two times in seconds is taken for milliseconds. *)
Definition evm_set_time (a : api) (now timestamp : Z) : Z * api :=
  let b := api_backend a in
  let before := TimeManager.current_call_timestamp (b_time b) now in
  let offset := Z.max (timestamp - before) 0 in
  (offset / 1000, set_api_backend a (with_time b (TimeManager.reset (b_time b) now timestamp))).
Definition evm_set_block_gas_limit (a : api) (gas_limit : Z) : api :=
  set_api_backend a (backend_set_gas_limit (api_backend a) gas_limit).
Definition evm_set_block_timestamp_interval (a : api) (seconds : Z) : api :=
  let b := api_backend a in
  set_api_backend a (with_time b (TimeManager.set_block_timestamp_interval (b_time b) seconds)).
Definition evm_remove_block_timestamp_interval (a : api) : bool * api :=
  let b := api_backend a in
  let '(r, time) := TimeManager.remove_block_timestamp_interval (b_time b) in
  (r, set_api_backend a (with_time b time)).

(** [do_evm_mine]: the number of blocks that were mined. *)
Definition do_evm_mine (a : api) (clock : nat -> Z) (opts : option EvmMineOptions) : rust ((Z + err) * api) :=
  let '(timestamp, blocks_to_mine) := match opts with
    | None => (None, 1)
    | Some (MineTimestamp timestamp) => (timestamp, 1)
    | Some (MineOptions timestamp blocks) => (timestamp, default 1 blocks)
    end in
  let '(set, a) := match timestamp with
    | Some timestamp => evm_set_next_block_timestamp a timestamp
    | None => (inl tt, a)
    end in
  match set with
  | inr e => Val (inr e, a)
  | inl _ => a ← mine_many a clock 0 (Z.to_nat blocks_to_mine); Val (inl blocks_to_mine, a)
  end.
(** Not among the requests that are dispatched. *)
Definition anvil_set_block (a : api) (block_number : Z) : api :=
  set_api_backend a (set_block_number_of (api_backend a) block_number).

(** ** What looks at the pool and the chain together *)

Definition eth_chain_id (a : api) : rust (option Z) :=
  n ← as_u64 (cfg_chain_id (env_cfg (b_env (api_backend a)))); Val (Some n).
Definition gas_price (a : api) : Z := backend_gas_price (api_backend a).
Definition gas_max_priority_fee_per_gas (a : api) : rust Z :=
  FeeManager.max_priority_fee_per_gas (b_fees (api_backend a)).
Definition api_block_number (a : api) : Z := best_number (api_backend a).

Definition backend_storage_on (index address : Z) (db : DynDatabase (ref_error (DB := DB))) (_ : BlockEnv)
  (st : admin.Statics) : answer Z (ref_error (DB := DB)) :=
  Val (match ref_storage db address index with inl val => inl val | inr e => inr (DatabaseErr e) end, st).
(** [storage_at] of the backend. *)
Definition get_storage_at (b : backend) (now address index : Z) (request : option BlockRequest) :
  rust ((Z + err) * backend) :=
  r ← with_database_at boxed_state (backend_storage_on index address) b now request; Val (flatten r).

(** The block of the request, with the transactions that are ready. *)
Definition requested_block (a : api) (block_number : option BlockId) : rust (BlockRequest + err) :=
  ready ← ready_list a; block_request (api_backend a) ready block_number.
(** A query of the backend at the block of a request. *)
Definition at_block {T : Type} (a : api) (block_number : option BlockId)
  (query : option BlockRequest -> rust ((T + err) * backend)) : rust ((T + err) * api) :=
  block ← requested_block a block_number;
  match block with
  | inr e => Val (inr e, a)
  | inl block => '(r, b) ← query (Some block); Val (r, set_api_backend a b)
  end.
Definition balance_at (a : api) (now address : Z) (block_number : option BlockId) : rust ((Z + err) * api) :=
  at_block a block_number (get_balance boxed_state (api_backend a) now address).
Definition storage_at (a : api) (now address index : Z) (block_number : option BlockId) : rust ((Z + err) * api) :=
  at_block a block_number (get_storage_at (api_backend a) now address index).
Definition transaction_count (a : api) (now address : Z) (block_number : option BlockId) : rust ((Z + err) * api) :=
  at_block a block_number (get_nonce boxed_state (api_backend a) now address).
Definition code_at (a : api) (now address : Z) (block_number : option BlockId) : rust ((list Z + err) * api) :=
  at_block a block_number (get_code boxed_state (api_backend a) now address).

(** *** The pending block *)

Definition api_with_statics (a : api) (st : admin.Statics) : api :=
  set_api_backend a (set_states (api_backend a) (b_states (api_backend a)) st).
Definition api_pending_block (a : api) (now : Z) : rust (EthersBlock Z * api) :=
  transactions ← ready_list a;
  '(info, st) ← pending_block (api_backend a) now transactions;
  block ← convert_block (api_backend a) (bi_block info);
  Val (block, api_with_statics a st).

(** [None] when the index of a transaction is not one of the block, as with
    the operator [?]. *)
Fixpoint pending_transactions_of_block (block : Block) (base_fee : Z) (infos : list TransactionInfo) :
  rust (option (list EthersTransaction)) :=
  match infos with
  | [] => Val (Some [])
  | info :: infos =>
      match bl_transactions block !! Z.to_nat (ti_transaction_index info) with
      | None => Val None
      | Some tx =>
          tx ← transaction_build (Some (ti_transaction_hash info)) (wrapped tx) (Some block) (Some info) true (Some base_fee);
          rest ← pending_transactions_of_block block base_fee infos;
          Val match rest with Some rest => Some (tx :: rest) | None => None end
      end
  end.
Definition pending_block_full (a : api) (now : Z) : rust (option (EthersBlock EthersTransaction) * api) :=
  transactions ← ready_list a;
  '(info, st) ← pending_block (api_backend a) now transactions;
  ethers_block ← convert_block (api_backend a) (bi_block info);
  transactions ← pending_transactions_of_block (bi_block info) (FeeManager.base_fee (b_fees (api_backend a)))
    (bi_transactions info);
  Val (match transactions with
       | Some transactions => Some (into_full_block ethers_block transactions)
       | None => None
       end, api_with_statics a st).

Definition api_block_by_number (a : api) (now : Z) (number : BlockNumber) : rust (option (EthersBlock Z) * api) :=
  match number with
  | PendingBlock => '(block, a) ← api_pending_block a now; Val (Some block, a)
  | _ => block ← block_by_number (api_backend a) number; Val (block, a)
  end.
Definition api_block_by_number_full (a : api) (now : Z) (number : BlockNumber) :
  rust (option (EthersBlock EthersTransaction) * api) :=
  match number with
  | PendingBlock => pending_block_full a now
  | _ => block ← block_by_number_full (api_backend a) number; Val (block, a)
  end.

Definition transactions_len (block : option (EthersBlock Z)) : option Z :=
  match block with Some block => Some (zlen (eb_transactions block)) | None => None end.
Definition block_transaction_count_by_hash (a : api) (hash : Z) : rust (option Z) :=
  block ← block_by_hash (api_backend a) hash; Val (transactions_len block).
Definition block_transaction_count_by_number (a : api) (now : Z) (number : BlockNumber) :
  rust ((option Z + err) * api) :=
  block ← requested_block a (Some (IdNumber number));
  match block with
  | inr e => Val (inr e, a)
  | inl (RequestPending txs) =>
      '(info, st) ← pending_block (api_backend a) now txs;
      Val (inl (Some (zlen (bl_transactions (bi_block info)))), api_with_statics a st)
  | inl (RequestNumber _) => block ← block_by_number (api_backend a) number; Val (inl (transactions_len block), a)
  end.
Definition uncles_len (block : option (EthersBlock Z)) : Z + err :=
  match block with Some block => inl (zlen (eb_uncles block)) | None => inr BlockNotFound end.
Definition block_uncles_count_by_hash (a : api) (hash : Z) : rust (Z + err) :=
  block ← block_by_hash (api_backend a) hash; Val (uncles_len block).
Definition block_uncles_count_by_number (a : api) (number : BlockNumber) : rust (Z + err) :=
  block ← block_by_number (api_backend a) number; Val (uncles_len block).
(** Without a fork there are no uncles. *)
Definition uncle_by_block (a : api) (id : BlockId) : rust (option (EthersBlock Z) + err) :=
  number ← ensure_block_number (api_backend a) (Some id);
  Val match number with inl _ => inl None | inr e => inr e end.

(** *** Transactions that are in the pool *)

Definition with_from (tx : EthersTransaction) (from : Z) : EthersTransaction :=
  mkEthersTransaction (etx_hash tx) (etx_nonce tx) (etx_block_hash tx) (etx_block_number tx)
    (etx_transaction_index tx) from (etx_to tx) (etx_value tx) (etx_gas_price tx) (etx_max_fee_per_gas tx)
    (etx_max_priority_fee_per_gas tx) (etx_gas tx) (etx_input tx) (etx_chain_id tx) (etx_v tx) (etx_r tx)
    (etx_s tx) (etx_access_list tx) (etx_transaction_type tx).
(** The sender is that of the pending transaction, which may be impersonated. *)
Definition pooled_transaction (pending : PendingTransaction) (base_fee : option Z) : rust EthersTransaction :=
  tx ← transaction_build (Some (pt_hash pending)) (wrapped pending) None None true base_fee;
  Val (with_from tx (pt_sender pending)).
Definition transaction_by_hash (a : api) (hash : Z) : rust (option EthersTransaction) :=
  match pool.get_transaction (pool.inner (api_pool a)) hash with
  | Some pending =>
      tx ← pooled_transaction pending (Some (FeeManager.base_fee (b_fees (api_backend a)))); Val (Some tx)
  | None => mined_transaction_by_hash (api_backend a) hash
  end.
Definition api_transaction_receipt (a : api) (hash : Z) : rust (option TransactionReceipt) :=
  match pool.get_transaction (pool.inner (api_pool a)) hash with
  | Some _ => Val None
  | None => transaction_receipt (api_backend a) hash
  end.

Definition txpool_entry {T : Type} (m : gmap Z (gmap string T)) (tx : PoolTransaction) (value : T) :
  gmap Z (gmap string T) :=
  let p := pending_transaction tx in
  <[pt_sender p := <[pretty (TypedTransaction.nonce (pt_transaction p)) := value]> (default ∅ (m !! pt_sender p))]> m.
Definition inspect_summary (tx : PoolTransaction) : TxpoolInspectSummary :=
  let t := pt_transaction (pending_transaction tx) in
  mkTxpoolInspectSummary (TypedTransaction.to t) (TypedTransaction.value t) (TypedTransaction.gas_limit t)
    (TypedTransaction.gas_price t).
(** Queued transactions are put with the pending ones. *)
Definition txpool_inspect (a : api) : rust (Txpool TxpoolInspectSummary) :=
  ready ← ready_list a;
  let add m tx := txpool_entry m tx (inspect_summary tx) in
  let pending := foldl add ∅ ready in
  let pending := foldl add pending (pool.pending_transactions_of (api_pool a)) in
  Val (mkTxpool pending ∅).
Definition add_content (acc : rust (gmap Z (gmap string EthersTransaction))) (tx : PoolTransaction) :
  rust (gmap Z (gmap string EthersTransaction)) :=
  m ← acc; t ← pooled_transaction (pending_transaction tx) None; Val (txpool_entry m tx t).
Definition txpool_content (a : api) : rust (Txpool EthersTransaction) :=
  ready ← ready_list a;
  pending ← foldl add_content (Val ∅) ready;
  pending ← foldl add_content (Val pending) (pool.pending_transactions_of (api_pool a));
  Val (mkTxpool pending ∅).

(** ** Requests *)
Context {HER : forall D (R : DatabaseRef D), EvmRef D} {HF : LogFilters}.

(** The requests whose handlers are modelled; those for filters have their
    own state ([Filters]). *)
Inductive EthRequest :=
| EthGetBalance (addr : Z) (block : option BlockId)
| EthGetTransactionByHash (hash : Z)
| EthSendTransaction (request : EthTransactionRequest)
| EthChainId
| EthGasPrice
| EthMaxPriorityFeePerGas
| EthAccounts
| EthBlockNumber
| EthGetStorageAt (addr slot : Z) (block : option BlockId)
| EthGetBlockByHash (hash : Z) (full : bool)
| EthGetBlockByNumber (num : BlockNumber) (full : bool)
| EthGetTransactionCount (addr : Z) (block : option BlockId)
| EthGetTransactionCountByHash (hash : Z)
| EthGetTransactionCountByNumber (num : BlockNumber)
| EthGetUnclesCountByHash (hash : Z)
| EthGetUnclesCountByNumber (num : BlockNumber)
| EthGetCodeAt (addr : Z) (block : option BlockId)
| EthSignTransaction (request : EthTransactionRequest)
| EthSignTypedData
| EthSignTypedDataV3
| EthSendRawTransaction (tx : list Z)
| EthCall (call : EthTransactionRequest) (block : option BlockId) (overrides : option (list (Z * AccountOverride)))
| EthEstimateGas (call : EthTransactionRequest) (block : option BlockId)
| EthGetTransactionByBlockHashAndIndex (hash index : Z)
| EthGetTransactionByBlockNumberAndIndex (num : BlockNumber) (index : Z)
| EthGetTransactionReceipt (tx : Z)
| EthGetUncleByBlockHashAndIndex (hash index : Z)
| EthGetUncleByBlockNumberAndIndex (num : BlockNumber) (index : Z)
| EthGetLogs (filter : Filter)
| EthGetWork
| EthSyncing
| EthSubmitWork
| EthSubmitHashRate
| ImpersonateAccount (addr : Z)
| StopImpersonatingAccount (addr : Z)
| AutoImpersonateAccount (enable : bool)
| GetAutoMine
| Mine (blocks interval : option Z)
| SetAutomine (enabled : bool)
| SetIntervalMining (interval : Z)
| DropTransaction (tx : Z)
| Reset (fork : bool)
| SetBalance (addr val : Z)
| SetCode (addr : Z) (code : list Z)
| SetNonce (addr nonce : Z)
| SetStorageAt (addr slot val : Z)
| SetCoinbase (addr : Z)
| SetMinGasPrice (gas : Z)
| SetNextBlockBaseFeePerGas (gas : Z)
| DumpState
| LoadState (buf : option SerializableState)
| EvmSnapshot
| EvmRevert (id : Z)
| EvmIncreaseTime (time : Z)
| EvmSetNextBlockTimeStamp (time : Z)
| EvmSetTime (timestamp : Z)
| EvmSetBlockGasLimit (gas_limit : Z)
| EvmSetBlockTimeStampInterval (time : Z)
| EvmRemoveBlockTimeStampInterval
| EvmMine (mine : option EvmMineOptions)
| EthSendUnsignedTransaction (tx : EthTransactionRequest)
| EnableTraces
| TxPoolStatus
| TxPoolInspect
| TxPoolContent.

(** Answers of handlers that do not change the node, and of those that do. *)
Definition answer_pure (a : api) (r : Response) : answered := Val (inl r, a).
Definition answer_refused (a : api) (e : err) : answered := Val (inr e, a).
Definition answer_read {T : Type} (a : api) (f : T -> Response) (r : rust T) : answered :=
  t ← r; Val (inl (f t), a).
Definition answer_fallible {T : Type} (a : api) (f : T -> Response) (r : rust (T + err)) : answered :=
  t ← r; Val (match t with inl t => inl (f t) | inr e => inr e end, a).
Definition answer_with {T : Type} (f : T -> Response) (r : rust (T * api)) : answered :=
  '(t, a) ← r; Val (inl (f t), a).
Definition answer_result {T : Type} (f : T -> Response) (r : rust ((T + err) * api)) : answered :=
  '(t, a) ← r; Val (match t with inl t => inl (f t) | inr e => inr e end, a).
(** [u64::try_from(..).map_err(BlockchainError::UintConversion)] *)
Definition with_u64 (a : api) (n : Z) (k : Z -> answered) : answered :=
  if n <=? u64_max then k n else answer_refused a UintConversion.
Definition on_backend {T : Type} (a : api) (r : rust (T * backend)) : rust (T * api) :=
  '(t, b) ← r; Val (t, set_api_backend a b).

(** [clock i] is what the clock says when it is read for the [i]th time. *)
Definition execute (a : api) (clock : nat -> Z) (request : EthRequest) : answered :=
  let b := api_backend a in
  let now := clock 0%nat in
  match request with
  | EthGetBalance addr block => answer_result RNumber (balance_at a now addr block)
  | EthGetTransactionByHash hash => answer_read a RTransaction (transaction_by_hash a hash)
  | EthSendTransaction request => answer_result RNumber (send_transaction boxed_state a now request)
  | EthChainId => answer_read a ROptional (eth_chain_id a)
  | EthGasPrice => answer_pure a (RNumber (gas_price a))
  | EthMaxPriorityFeePerGas => answer_read a RNumber (gas_max_priority_fee_per_gas a)
  | EthAccounts => answer_pure a (RAddresses (accounts a))
  | EthBlockNumber => answer_pure a (RNumber (api_block_number a))
  | EthGetStorageAt addr slot block => answer_result RNumber (storage_at a now addr slot block)
  | EthGetBlockByHash hash full =>
      if full then answer_read a RFullBlock (block_by_hash_full b hash)
      else answer_read a RBlock (block_by_hash b hash)
  | EthGetBlockByNumber num full =>
      if full then answer_with RFullBlock (api_block_by_number_full a now num)
      else answer_with RBlock (api_block_by_number a now num)
  | EthGetTransactionCount addr block => answer_result RNumber (transaction_count a now addr block)
  | EthGetTransactionCountByHash hash => answer_read a ROptional (block_transaction_count_by_hash a hash)
  | EthGetTransactionCountByNumber num => answer_result ROptional (block_transaction_count_by_number a now num)
  | EthGetUnclesCountByHash hash => answer_fallible a RNumber (block_uncles_count_by_hash a hash)
  | EthGetUnclesCountByNumber num => answer_fallible a RNumber (block_uncles_count_by_number a num)
  | EthGetCodeAt addr block => answer_result RBytes (code_at a now addr block)
  | EthSignTransaction request => answer_result RSignature (sign_transaction boxed_state a now request)
  | EthSignTypedData | EthSignTypedDataV3 => answer_refused a RpcUnimplemented
  | EthSendRawTransaction tx => answer_result RNumber (send_raw_transaction a now tx)
  | EthCall call block overrides =>
      ready ← ready_list a;
      answer_result RBytes (on_backend a (eth_call boxed_state b now ready call block overrides))
  | EthEstimateGas call block =>
      ready ← ready_list a;
      answer_result RNumber (on_backend a (do_estimate_gas boxed_state b now ready call
        (Some (default (IdNumber PendingBlock) block))))
  | EthGetTransactionByBlockHashAndIndex hash index =>
      answer_read a RTransaction (mined_transaction_by_block_hash_and_index b hash index)
  | EthGetTransactionByBlockNumberAndIndex num index =>
      answer_read a RTransaction (transaction_by_block_number_and_index b num index)
  | EthGetTransactionReceipt tx => answer_read a RReceipt (api_transaction_receipt a tx)
  | EthGetUncleByBlockHashAndIndex hash _ => answer_fallible a RBlock (uncle_by_block a (IdHash hash))
  | EthGetUncleByBlockNumberAndIndex num _ => answer_fallible a RBlock (uncle_by_block a (IdNumber num))
  | EthGetLogs filter => answer_read a RLogs (logs b filter)
  | EthGetWork | EthSubmitWork | EthSubmitHashRate => answer_refused a RpcUnimplemented
  | EthSyncing => answer_pure a (RBool false)
  | ImpersonateAccount addr => answer_pure (anvil_impersonate_account a addr) RNull
  | StopImpersonatingAccount addr => answer_pure (anvil_stop_impersonating_account a addr) RNull
  | AutoImpersonateAccount enable => answer_pure (anvil_auto_impersonate_account a enable) RNull
  | GetAutoMine => answer_pure a (RBool (anvil_get_auto_mine a))
  | Mine blocks interval => a ← anvil_mine a clock blocks interval; answer_pure a RNull
  | SetAutomine enabled => answer_pure (anvil_set_auto_mine a enabled) RNull
  | SetIntervalMining interval => a ← anvil_set_interval_mining a interval; answer_pure a RNull
  | DropTransaction tx => answer_with ROptional (anvil_drop_transaction a tx)
  | Reset fork => answer_refused a (anvil_reset fork)
  | SetBalance addr val => anvil_set_balance a addr val
  | SetCode addr code => anvil_set_code a addr code
  | SetNonce addr nonce => anvil_set_nonce a addr nonce
  | SetStorageAt addr slot val => anvil_set_storage_at a addr slot val
  | SetCoinbase addr => answer_pure (anvil_set_coinbase a addr) RNull
  | SetMinGasPrice gas => answer_result (fun _ => RNull) (Val (anvil_set_min_gas_price a gas))
  | SetNextBlockBaseFeePerGas gas => answer_result (fun _ => RNull) (Val (anvil_set_next_block_base_fee_per_gas a gas))
  | DumpState => answer_fallible a RState (serialized_state b)
  | LoadState buf => answer_result RBool (Val (anvil_load_state a buf))
  | EvmSnapshot => answer_with RNumber (Val (evm_snapshot a))
  | EvmRevert id => answer_result RBool (evm_revert a now id)
  | EvmIncreaseTime time => answer_with RNumber (Val (evm_increase_time a time))
  | EvmSetNextBlockTimeStamp time =>
      with_u64 a time (fun time => answer_result (fun _ => RNull) (Val (evm_set_next_block_timestamp a time)))
  | EvmSetTime timestamp => with_u64 a timestamp (fun timestamp => answer_with RNumber (Val (evm_set_time a now timestamp)))
  | EvmSetBlockGasLimit gas_limit => answer_pure (evm_set_block_gas_limit a gas_limit) (RBool true)
  | EvmSetBlockTimeStampInterval time => answer_pure (evm_set_block_timestamp_interval a time) RNull
  | EvmRemoveBlockTimeStampInterval => answer_with RBool (Val (evm_remove_block_timestamp_interval a))
  | EvmMine mine => answer_result (fun _ => RNumber 0) (do_evm_mine a clock mine)
  | EthSendUnsignedTransaction tx => answer_result RNumber (eth_send_unsigned_transaction boxed_state a now tx)
  | EnableTraces => answer_refused a RpcUnimplemented
  | TxPoolStatus =>
      let p := api_pool a in
      answer_read a (fun s => RStatus s.1 s.2)
        (pool.txpool_status (size (ReadyTransactions.ready_tx (pool.ready_transactions (pool.inner p)))) p)
  | TxPoolInspect => answer_read a RInspect (txpool_inspect a)
  | TxPoolContent => answer_read a RContent (txpool_content a)
  end.

(** ** The node: the API and the service, of which the pool, the backend and
    the mode of mining are shared *)
Record Node := mkNode {
  nd_api : api;
  nd_block_mining : option (list PoolTransaction);
  nd_queued : list (list PoolTransaction);
}.
Definition service_of (n : Node) : NodeService :=
  mkNodeService (api_pool (nd_api n)) (api_backend (nd_api n)) (nd_block_mining n) (nd_queued n) (api_miner (nd_api n)).
Definition with_service (n : Node) (s : NodeService) : Node :=
  mkNode (set_mining_mode (set_api_backend (set_api_pool (nd_api n) (ns_pool s)) (ns_backend s)) (ns_miner s))
    (ns_block_mining s) (ns_queued s).

Inductive node_step :=
| Service (e : node_event)
| Request (request : EthRequest) (clock : nat -> Z).
Definition node_handle (n : Node) (step : node_step) : rust Node :=
  match step with
  | Service e => s ← handle (service_of n) e; Val (with_service n s)
  | Request request clock =>
      '(_, a) ← execute (nd_api n) clock request; Val (mkNode a (nd_block_mining n) (nd_queued n))
  end.
Definition node_run (n : Node) (steps : list node_step) : rust Node :=
  foldl (fun acc step => n ← acc; node_handle n step) (Val n) steps.
End node.
