(* ===== verification/NodeConfig.v ===== *)
(** * Starting a node: [anvil/src/hardfork.rs], [genesis.rs], [backend/genesis.rs], [config.rs], [cmd.rs], [lib.rs]

    The arguments of the command line become a configuration, and that a node
    in memory: its environment, database, chain, pool, signers and miner.
    Forks of a remote chain, printing, files and servers are left out. *)

From stdpp Require Import base option list gmap sets strings pretty.
From Stdlib Require Import ZArith Lia.
From coqutil Require Import Datatypes.RecordSetters.
From S2P Require Import Prelude Primitives Precompile Journal EvmImpl CacheDB NodeDb BlockStates EthTransaction EthRequest Fees TxPool Miner Codec Calls Api Queries NodeApi.
Import DoubleBraceUpdate.

(** ** hardfork.rs *)
Module Hardfork.
Inductive t :=
| Frontier | Homestead | Dao | Tangerine | SpuriousDragon | Byzantium | Constantinople
| Petersburg | Istanbul | Muirglacier | Berlin | London | ArrowGlacier | GrayGlacier
| Paris | Shanghai | Latest.
#[export] Instance t_eq_dec : EqDecision t.
Proof. solve_decision. Defined.
Definition t_default : t := Latest.

Definition fork_block (f : t) : Z :=
  match f with
  | Frontier => 0
  | Homestead => 1150000
  | Dao => 1920000
  | Tangerine => 2463000
  | SpuriousDragon => 2675000
  | Byzantium => 4370000
  | Constantinople | Petersburg => 7280000
  | Istanbul => 9069000
  | Muirglacier => 9200000
  | Berlin => 12244000
  | London => 12965000
  | ArrowGlacier => 13773000
  | GrayGlacier => 15050000
  | Paris => 15537394
  | Shanghai | Latest => 17034870
  end.

Record ForkId := mkForkId { fork_hash : list Z; next : Z }.
Definition fork_id (f : t) : ForkId :=
  match f with
  | Frontier => mkForkId [0xfc; 0x64; 0xec; 0x04] 1150000
  | Homestead => mkForkId [0x97; 0xc2; 0xc3; 0x4c] 1920000
  | Dao => mkForkId [0x91; 0xd1; 0xf9; 0x48] 2463000
  | Tangerine => mkForkId [0x7a; 0x64; 0xda; 0x13] 2675000
  | SpuriousDragon => mkForkId [0x3e; 0xdd; 0x5b; 0x10] 4370000
  | Byzantium => mkForkId [0xa0; 0x0b; 0xc3; 0x24] 7280000
  | Constantinople | Petersburg => mkForkId [0x66; 0x8d; 0xb0; 0xaf] 9069000
  | Istanbul => mkForkId [0x87; 0x9d; 0x6e; 0x30] 9200000
  | Muirglacier => mkForkId [0xe0; 0x29; 0xe9; 0x91] 12244000
  | Berlin => mkForkId [0x0e; 0xb4; 0x40; 0xf6] 12965000
  | London => mkForkId [0xb7; 0x15; 0x07; 0x7d] 13773000
  | ArrowGlacier => mkForkId [0x20; 0xc3; 0x27; 0xfc] 15050000
  | GrayGlacier => mkForkId [0xf0; 0xaf; 0xd0; 0xe3] 15537394
  | Paris => mkForkId [0x4f; 0xb8; 0xa8; 0x72] 17034870
  | Shanghai | Latest => mkForkId [0xc1; 0xfd; 0xf1; 0x81] 0
  end.

(** [str::to_lowercase], of ASCII strings. *)
Definition ascii_lowercase (c : Ascii.ascii) : Ascii.ascii :=
  let n := Ascii.nat_of_ascii c in
  if (65 <=? n)%nat && (n <=? 90)%nat then Ascii.ascii_of_nat (n + 32) else c.
Fixpoint to_lowercase (s : string) : string :=
  match s with
  | EmptyString => EmptyString
  | String c s => String (ascii_lowercase c) (to_lowercase s)
  end.

Definition from_str (s : string) : t + string :=
  let s := to_lowercase s in
  let named (l : list string) := bool_decide (s ∈ l) in
  if named ["frontier"; "1"] then inl Frontier
  else if named ["homestead"; "2"] then inl Homestead
  else if named ["dao"; "3"] then inl Dao
  else if named ["tangerine"; "4"] then inl Tangerine
  else if named ["spuriousdragon"; "5"] then inl SpuriousDragon
  else if named ["byzantium"; "6"] then inl Byzantium
  else if named ["constantinople"; "7"] then inl Constantinople
  else if named ["petersburg"; "8"] then inl Petersburg
  else if named ["istanbul"; "9"] then inl Istanbul
  else if named ["muirglacier"; "10"] then inl Muirglacier
  else if named ["berlin"; "11"] then inl Berlin
  else if named ["london"; "12"] then inl London
  else if named ["arrowglacier"; "13"] then inl ArrowGlacier
  else if named ["grayglacier"; "14"] then inl GrayGlacier
  else if named ["paris"; "merge"; "15"] then inl Paris
  else if named ["shanghai"; "16"] then inl Shanghai
  else if named ["latest"] then inl Latest
  else inr ("Unknown hardfork " +:+ s).

Definition into_spec_id (f : t) : SpecId :=
  match f with
  | Frontier => FRONTIER
  | Homestead => HOMESTEAD
  | Dao => HOMESTEAD
  | Tangerine => TANGERINE
  | SpuriousDragon => SPURIOUS_DRAGON
  | Byzantium => BYZANTIUM
  | Constantinople => CONSTANTINOPLE
  | Petersburg => PETERSBURG
  | Istanbul => ISTANBUL
  | Muirglacier => MUIR_GLACIER
  | Berlin => BERLIN
  | London => LONDON
  | ArrowGlacier => LONDON
  | GrayGlacier => GRAY_GLACIER
  | Paris => MERGE
  | Shanghai | Latest => SHANGHAI
  end.

(** [impl From<T: Into<BlockNumber>> for Hardfork]. *)
Definition of_block (block : BlockNumber) : t :=
  let num := match block with Earliest => 0 | Number num => num | _ => u64_max end in
  if num <? 1150000 then Frontier
  else if num <? 1920000 then Dao
  else if num <? 2463000 then Homestead
  else if num <? 2675000 then Tangerine
  else if num <? 4370000 then SpuriousDragon
  else if num <? 7280000 then Byzantium
  else if num <? 9069000 then Constantinople
  else if num <? 9200000 then Istanbul
  else if num <? 12244000 then Muirglacier
  else if num <? 12965000 then Berlin
  else if num <? 13773000 then London
  else if num <? 15050000 then ArrowGlacier
  else if num <? 17034870 then Paris
  else Latest.
End Hardfork.

(** ** Wallets and mnemonics, which are third-party *)
Class Wallets {err : Type} := {
  Wallet : Type;
  wallet_address : Wallet -> Z;
  wallet_with_chain_id : Wallet -> Z -> Wallet;
  sign_transaction_sync : Wallet -> TypedTransactionRequest -> Signature + err;
  build_wallet : string -> string -> option Wallet;
}.
Arguments Wallets : clear implicits.
Arguments Wallet _ {_}.

(** [Duration]: nanoseconds. *)
Definition Duration : Type := Z.
Definition from_secs (secs : Z) : Duration := secs * 10 ^ 9.
Definition from_millis (millis : Z) : Duration := millis * 10 ^ 6.
Definition as_secs (d : Duration) : Z := d / 10 ^ 9.

Section config.
Context {HCR : Crypto}.

(** ** genesis.rs *)
Record Config := mkConfig {
  gcf_chain_id : option Z;
  gcf_homestead_block : option Z;
  gcf_dao_fork_block : option Z;
  gcf_dao_fork_support : option bool;
  gcf_eip150_block : option Z;
  gcf_eip150_hash : option Z;
  gcf_eip155_block : option Z;
  gcf_eip158_block : option Z;
  gcf_byzantium_block : option Z;
  gcf_constantinople_block : option Z;
  gcf_petersburg_block : option Z;
  gcf_istanbul_block : option Z;
  gcf_muir_glacier_block : option Z;
  gcf_berlin_block : option Z;
  gcf_london_block : option Z;
  gcf_arrow_glacier_block : option Z;
  gcf_gray_glacier_block : option Z;
  gcf_merge_netsplit_block : option Z;
  gcf_shanghai_block : option Z;
  gcf_cancun_block : option Z;
  gcf_terminal_total_difficulty : option Z;
  gcf_terminal_total_difficulty_passed : option bool;
  gcf_ethash : option unit;
  gcf_clique : option (Z * Z);
}.

Context {err : Type} {HW : Wallets err}.

Record GenesisAccount := mkGenesisAccount {
  ga_code : option (list Z);
  ga_storage : gmap Z Z;
  ga_balance : Z;
  ga_nonce : option Z;
  ga_private_key : option (Wallet err);
}.
Definition AccountInfo_of_genesis (acc : GenesisAccount) : AccountInfo :=
  let code := Bytecode_new_raw <$> ga_code acc in
  mkAccountInfo (ga_balance acc) (default 0 (ga_nonce acc))
    (match code with Some code => bc_hash code | None => KECCAK_EMPTY end) code.

(** [alloc] is a [BTreeMap]. *)
Record Genesis := mkGenesis {
  gn_config : option Config;
  gn_nonce : option Z;
  gn_timestamp : option Z;
  gn_extra_data : option (list Z);
  gn_gas_limit : Z;
  gn_difficulty : Z;
  gn_mix_hash : option Z;
  gn_coinbase : option Z;
  gn_alloc : gmap Z GenesisAccount;
  gn_number : option Z;
  gn_gas_used : option Z;
  gn_parent_hash : option Z;
  gn_base_fee_per_gas : option Z;
}.
Definition Genesis_chain_id (g : Genesis) : option Z := gn_config g ≫= gcf_chain_id.
Definition Genesis_apply (g : Genesis) (env : Env) : Env :=
  let cfg := env_cfg env in let block := env_block env in
  let cfg := match Genesis_chain_id g with Some chain_id => cfg {{ cfg_chain_id := chain_id }} | None => cfg end in
  let block := match gn_timestamp g with Some timestamp => block {{ block_timestamp := timestamp }} | None => block end in
  let block := match gn_base_fee_per_gas g with Some base_fee => block {{ block_basefee := base_fee }} | None => block end in
  let block := match gn_number g with Some number => block {{ block_number := number }} | None => block end in
  let block := match gn_coinbase g with Some coinbase => block {{ block_coinbase := coinbase }} | None => block end in
  mkEnv cfg (block {{ block_difficulty := gn_difficulty g; block_gas_limit := gn_gas_limit g }}) (env_tx env).
Definition private_keys (g : Genesis) : list (Wallet err) :=
  omap (fun acc => ga_private_key acc.2) (btree_entries (gn_alloc g)).

(** ** backend/genesis.rs *)
Record GenesisConfig := mkGenesisConfig {
  gc_timestamp : Z;
  gc_balance : Z;
  gc_accounts : list Z;
  gc_fork_genesis_account_infos : list AccountInfo;
  gc_genesis_init : option Genesis;
}.
Definition account_infos (c : GenesisConfig) : list (Z * AccountInfo) :=
  (fun address => (address, mkAccountInfo (gc_balance c) 0 KECCAK_EMPTY (Some Bytecode_new))) <$> gc_accounts c.

Section db.
Context {DB : Type} {HDB : Database DB} {HR : DatabaseRef DB} {HD : Db DB}.

Fixpoint apply_alloc (db : DB) (l : list (Z * GenesisAccount)) : (unit + db_error) * DB :=
  match l with
  | [] => (inl tt, db)
  | (addr, acc) :: l =>
      let db := insert_account db addr (AccountInfo_of_genesis acc) in
      match set_slots db addr (map_to_list (ga_storage acc)) with
      | (inr e, db) => (inr e, db)
      | (inl _, db) => apply_alloc db l
      end
  end.
Definition apply_genesis_json_alloc (c : GenesisConfig) (db : DB) : (unit + db_error) * DB :=
  match gc_genesis_init c with
  | Some genesis => apply_alloc db (btree_entries (gn_alloc genesis))
  | None => (inl tt, db)
  end.
(** [Backend::apply_genesis] without a fork. *)
Definition apply_genesis (c : GenesisConfig) (db : DB) : (unit + db_error) * DB :=
  apply_genesis_json_alloc c (foldl (fun db '(account, info) => insert_account db account info) db (account_infos c)).
End db.

(** The state at genesis, in front of a database. *)
Record AtGenesisStateDb (D : Type) := mkAtGenesisStateDb {
  ag_genesis : option Genesis;
  ag_accounts : gmap Z AccountInfo;
  ag_db : D;
}.
Arguments mkAtGenesisStateDb {D}.
Arguments ag_genesis {D}.
Arguments ag_accounts {D}.
Arguments ag_db {D}.
Definition state_db_at_genesis {D : Type} (c : GenesisConfig) (db : D) : AtGenesisStateDb D :=
  mkAtGenesisStateDb (gc_genesis_init c) (foldl (fun m '(a, i) => <[a := i]> m) ∅ (account_infos c)) db.
#[export] Instance AtGenesisStateDb_DatabaseRef {D : Type} {HR : DatabaseRef D} : DatabaseRef (AtGenesisStateDb D) := {
  ref_error := ref_error (DB := D);
  ref_basic s address :=
    match ag_accounts s !! address with
    | Some acc => inl (Some acc)
    | None => ref_basic (ag_db s) address
    end;
  ref_code_by_hash s hash :=
    match list_find (fun acc => code_hash acc.2 = hash) (map_to_list (ag_accounts s)) with
    | Some (_, (_, acc)) => inl (default Bytecode_new (Primitives.code acc))
    | None => ref_code_by_hash (ag_db s) hash
    end;
  ref_storage s address index :=
    match ag_genesis s ≫= (fun genesis => gn_alloc genesis !! address) with
    | Some acc => inl (default 0 (ga_storage acc !! index))
    | None => ref_storage (ag_db s) address index
    end;
  ref_block_hash s number := ref_block_hash (ag_db s) number;
}.
#[export] Instance AtGenesisStateDb_MaybeHashDatabase {D : Type} {HM : MaybeHashDatabase D} :
  MaybeHashDatabase (AtGenesisStateDb D) := {
  clear_into_snapshot s :=
    let '(db, snapshot) := clear_into_snapshot (ag_db s) in
    (mkAtGenesisStateDb (ag_genesis s) (ag_accounts s) db, snapshot);
  init_from_snapshot s snapshot :=
    mkAtGenesisStateDb (ag_genesis s) (ag_accounts s) (init_from_snapshot (ag_db s) snapshot);
}.

(** ** config.rs: the configuration *)
Definition NODE_PORT : Z := 8545.
Definition CHAIN_ID : Z := 31337.
Definition DEFAULT_MNEMONIC : string := "test test test test test test test test test test test junk".
Definition DEFAULT_IPC_ENDPOINT : string := "/tmp/anvil.ipc".
Definition REQUEST_TIMEOUT : Duration := from_secs 45.
Definition ALCHEMY_FREE_TIER_CUPS : Z := 330.
Definition WEI_IN_ETHER : Z := 10 ^ 18.
Definition u256_saturating_mul (a b : Z) : Z := Z.min (a * b) (u256_modulus - 1).

Inductive IpAddr := V4 (octets : list Z) | V6 (segments : list Z).
Definition LOCALHOST : IpAddr := V4 [127; 0; 0; 1].

Record AccountGenerator := mkAccountGenerator {
  gen_chain_id : Z;
  gen_amount : Z;
  gen_phrase : string;
  gen_derivation_path : option string;
}.
(** [random]: the phrase that is drawn. *)
Definition AccountGenerator_new (random : string) (amount : Z) : AccountGenerator :=
  mkAccountGenerator CHAIN_ID amount random None.
Definition AccountGenerator_phrase (g : AccountGenerator) (phrase : string) : AccountGenerator :=
  g {{ gen_phrase := phrase }}.
Definition AccountGenerator_chain_id (g : AccountGenerator) (chain_id : Z) : AccountGenerator :=
  g {{ gen_chain_id := chain_id }}.
Fixpoint ends_with_slash (s : string) : bool :=
  match s with
  | EmptyString => false
  | String c EmptyString => bool_decide (String c EmptyString = "/"%string)
  | String _ s => ends_with_slash s
  end.
Definition AccountGenerator_derivation_path (g : AccountGenerator) (derivation_path : string) : AccountGenerator :=
  g {{ gen_derivation_path :=
    Some (if ends_with_slash derivation_path then derivation_path else derivation_path +:+ "/") }}.
Definition get_derivation_path (g : AccountGenerator) : string :=
  default "m/44'/60'/0'/0/"%string (gen_derivation_path g).
(** Each wallet is built from the phrase and its own path; a phrase or path
    that is none panics. *)
Fixpoint gen_from (g : AccountGenerator) (idx : N) (n : nat) : rust (list (Wallet err)) :=
  match n with
  | O => Val []
  | S n =>
      w ← unwrap (build_wallet (gen_phrase g) (get_derivation_path g +:+ pretty idx));
      ws ← gen_from g (idx + 1) n;
      Val (wallet_with_chain_id w (gen_chain_id g) :: ws)
  end.
Definition gen (g : AccountGenerator) : rust (list (Wallet err)) := gen_from g 0 (Z.to_nat (gen_amount g)).

Record NodeConfig := mkNodeConfig {
  nc_chain_id : option Z;
  nc_gas_limit : Z;
  nc_disable_block_gas_limit : bool;
  nc_gas_price : option Z;
  nc_base_fee : option Z;
  nc_hardfork : option Hardfork.t;
  nc_genesis_accounts : list (Wallet err);
  nc_genesis_balance : Z;
  nc_genesis_timestamp : option Z;
  nc_signer_accounts : list (Wallet err);
  nc_block_time : option Duration;
  nc_no_mining : bool;
  nc_port : Z;
  nc_max_transactions : Z;
  nc_silent : bool;
  nc_eth_rpc_url : option string;
  nc_fork_block_number : option Z;
  nc_fork_chain_id : option Z;
  nc_account_generator : option AccountGenerator;
  nc_enable_tracing : bool;
  nc_no_storage_caching : bool;
  nc_host : list IpAddr;
  nc_transaction_order : TransactionOrder;
  nc_config_out : option string;
  nc_genesis : option Genesis;
  nc_fork_request_timeout : Duration;
  nc_fork_request_retries : Z;
  nc_fork_retry_backoff : Duration;
  nc_compute_units_per_second : Z;
  nc_ipc_path : option (option string);
  nc_enable_steps_tracing : bool;
  nc_enable_auto_impersonate : bool;
  nc_code_size_limit : option Z;
  nc_prune_history : PruneStateHistoryConfig;
  nc_init_state : option SerializableState;
  nc_transaction_block_keeper : option Z;
}.

(** [Default for NodeConfig]; the wallets are built first. *)
Definition NodeConfig_default (random : string) : rust NodeConfig :=
  genesis_accounts ← gen (AccountGenerator_phrase (AccountGenerator_new random 10) DEFAULT_MNEMONIC);
  Val {|
    nc_chain_id := None;
    nc_gas_limit := 30000000;
    nc_disable_block_gas_limit := false;
    nc_gas_price := None;
    nc_hardfork := None;
    nc_signer_accounts := genesis_accounts;
    nc_genesis_timestamp := None;
    nc_genesis_accounts := genesis_accounts;
    nc_genesis_balance := u256_saturating_mul WEI_IN_ETHER 100;
    nc_block_time := None;
    nc_no_mining := false;
    nc_port := NODE_PORT;
    nc_max_transactions := 1000;
    nc_silent := false;
    nc_eth_rpc_url := None;
    nc_fork_block_number := None;
    nc_account_generator := None;
    nc_base_fee := None;
    nc_enable_tracing := true;
    nc_enable_steps_tracing := false;
    nc_enable_auto_impersonate := false;
    nc_no_storage_caching := false;
    nc_host := [LOCALHOST];
    nc_transaction_order := Fees;
    nc_config_out := None;
    nc_genesis := None;
    nc_fork_request_timeout := REQUEST_TIMEOUT;
    nc_fork_request_retries := 5;
    nc_fork_retry_backoff := from_millis 1000;
    nc_fork_chain_id := None;
    nc_compute_units_per_second := ALCHEMY_FREE_TIER_CUPS;
    nc_ipc_path := None;
    nc_code_size_limit := None;
    nc_prune_history := mkPruneStateHistoryConfig false None;
    nc_init_state := None;
    nc_transaction_block_keeper := None;
  |}.
Definition NodeConfig_test (random : string) : rust NodeConfig :=
  c ← NodeConfig_default random;
  Val (c {{ nc_enable_tracing := false; nc_silent := true; nc_port := 0 }}).

Definition get_base_fee (c : NodeConfig) : Z :=
  default INITIAL_BASE_FEE
    (match nc_base_fee c with Some fee => Some fee | None => nc_genesis c ≫= gn_base_fee_per_gas end).
Definition get_gas_price (c : NodeConfig) : Z := default INITIAL_GAS_PRICE (nc_gas_price c).
Definition get_hardfork (c : NodeConfig) : Hardfork.t := default Hardfork.t_default (nc_hardfork c).
Definition get_chain_id (c : NodeConfig) : Z :=
  default CHAIN_ID
    (match nc_chain_id c with Some id => Some id | None => nc_genesis c ≫= Genesis_chain_id end).
(** [now]: the seconds since the epoch. *)
Definition get_genesis_timestamp (c : NodeConfig) (now : Z) : Z :=
  default now
    (match nc_genesis_timestamp c with Some t => Some t | None => nc_genesis c ≫= gn_timestamp end).

Definition with_code_size_limit (c : NodeConfig) (code_size_limit : option Z) : NodeConfig :=
  c {{ nc_code_size_limit := code_size_limit }}.
Definition with_init_state (c : NodeConfig) (init_state : option SerializableState) : NodeConfig :=
  c {{ nc_init_state := init_state }}.
Definition set_chain_id (c : NodeConfig) (chain_id : option Z) : NodeConfig :=
  let c := c {{ nc_chain_id := chain_id }} in
  let chain_id := get_chain_id c in
  let update (wallets : list (Wallet err)) := (fun w => wallet_with_chain_id w chain_id) <$> wallets in
  c {{ nc_genesis_accounts := update (nc_genesis_accounts c); nc_signer_accounts := update (nc_signer_accounts c) }}.
Definition with_chain_id (c : NodeConfig) (chain_id : option Z) : NodeConfig := set_chain_id c chain_id.
Definition with_gas_limit (c : NodeConfig) (gas_limit : option Z) : NodeConfig :=
  match gas_limit with Some gas_limit => c {{ nc_gas_limit := gas_limit }} | None => c end.
Definition disable_block_gas_limit (c : NodeConfig) (disable : bool) : NodeConfig :=
  c {{ nc_disable_block_gas_limit := disable }}.
Definition with_gas_price (c : NodeConfig) (gas_price : option Z) : NodeConfig := c {{ nc_gas_price := gas_price }}.
Definition set_pruned_history (c : NodeConfig) (prune_history : option (option Z)) : NodeConfig :=
  c {{ nc_prune_history := PruneStateHistoryConfig_from_args prune_history }}.
Definition with_transaction_block_keeper (c : NodeConfig) (keeper : option Z) : NodeConfig :=
  c {{ nc_transaction_block_keeper := keeper }}.
Definition with_base_fee (c : NodeConfig) (base_fee : option Z) : NodeConfig := c {{ nc_base_fee := base_fee }}.
Definition with_genesis_json (c : NodeConfig) (genesis : option Genesis) : NodeConfig := c {{ nc_genesis := genesis }}.
Definition with_genesis_timestamp (c : NodeConfig) (timestamp : option Z) : NodeConfig :=
  match timestamp with Some timestamp => c {{ nc_genesis_timestamp := Some timestamp }} | None => c end.
Definition with_hardfork (c : NodeConfig) (hardfork : option Hardfork.t) : NodeConfig := c {{ nc_hardfork := hardfork }}.
Definition with_genesis_accounts (c : NodeConfig) (accounts : list (Wallet err)) : NodeConfig :=
  c {{ nc_genesis_accounts := accounts }}.
Definition with_signer_accounts (c : NodeConfig) (accounts : list (Wallet err)) : NodeConfig :=
  c {{ nc_signer_accounts := accounts }}.
Definition with_account_generator (c : NodeConfig) (generator : AccountGenerator) : rust NodeConfig :=
  accounts ← gen generator;
  let c := c {{ nc_account_generator := Some generator }} in
  Val (with_genesis_accounts (with_signer_accounts c accounts) accounts).
Definition with_genesis_balance (c : NodeConfig) (balance : Z) : NodeConfig := c {{ nc_genesis_balance := balance }}.
Definition with_blocktime (c : NodeConfig) (block_time : option Duration) : NodeConfig := c {{ nc_block_time := block_time }}.
Definition with_no_mining (c : NodeConfig) (no_mining : bool) : NodeConfig := c {{ nc_no_mining := no_mining }}.
Definition with_port (c : NodeConfig) (port : Z) : NodeConfig := c {{ nc_port := port }}.
Definition set_silent (c : NodeConfig) (silent : bool) : NodeConfig := c {{ nc_silent := silent }}.
Definition silent (c : NodeConfig) : NodeConfig := set_silent c true.
Definition with_ipc (c : NodeConfig) (ipc_path : option (option string)) : NodeConfig := c {{ nc_ipc_path := ipc_path }}.
Definition set_config_out (c : NodeConfig) (config_out : option string) : NodeConfig := c {{ nc_config_out := config_out }}.
Definition with_storage_caching (c : NodeConfig) (storage_caching : bool) : NodeConfig :=
  c {{ nc_no_storage_caching := storage_caching }}.
Definition no_storage_caching (c : NodeConfig) : NodeConfig := with_storage_caching c true.
Definition with_eth_rpc_url (c : NodeConfig) (url : option string) : NodeConfig := c {{ nc_eth_rpc_url := url }}.
Definition with_fork_block_number (c : NodeConfig) (n : option Z) : NodeConfig := c {{ nc_fork_block_number := n }}.
Definition with_fork_chain_id (c : NodeConfig) (id : option Z) : NodeConfig := c {{ nc_fork_chain_id := id }}.
Definition fork_request_timeout (c : NodeConfig) (timeout : option Duration) : NodeConfig :=
  match timeout with Some timeout => c {{ nc_fork_request_timeout := timeout }} | None => c end.
Definition fork_request_retries (c : NodeConfig) (retries : option Z) : NodeConfig :=
  match retries with Some retries => c {{ nc_fork_request_retries := retries }} | None => c end.
Definition fork_retry_backoff (c : NodeConfig) (backoff : option Duration) : NodeConfig :=
  match backoff with Some backoff => c {{ nc_fork_retry_backoff := backoff }} | None => c end.
Definition fork_compute_units_per_second (c : NodeConfig) (cups : option Z) : NodeConfig :=
  match cups with Some cups => c {{ nc_compute_units_per_second := cups }} | None => c end.
Definition with_tracing (c : NodeConfig) (enable : bool) : NodeConfig := c {{ nc_enable_tracing := enable }}.
Definition with_steps_tracing (c : NodeConfig) (enable : bool) : NodeConfig := c {{ nc_enable_steps_tracing := enable }}.
Definition with_auto_impersonate (c : NodeConfig) (enable : bool) : NodeConfig := c {{ nc_enable_auto_impersonate := enable }}.
Definition with_host (c : NodeConfig) (host : list IpAddr) : NodeConfig :=
  c {{ nc_host := match host with [] => [LOCALHOST] | _ => host end }}.
Definition with_transaction_order (c : NodeConfig) (order : TransactionOrder) : NodeConfig :=
  c {{ nc_transaction_order := order }}.
Definition get_ipc_path (c : NodeConfig) : option string :=
  match nc_ipc_path c with
  | Some path => match path with Some p => Some p | None => Some DEFAULT_IPC_ENDPOINT end
  | None => None
  end.

(** ** cmd.rs: the command line *)

(** [str::parse::<u64>]. *)
Definition digit_of (c : Ascii.ascii) : option Z :=
  let n := Z.of_nat (Ascii.nat_of_ascii c) in if (48 <=? n) && (n <=? 57) then Some (n - 48) else None.
Fixpoint parse_digits (acc : Z) (s : string) : option Z :=
  match s with
  | EmptyString => Some acc
  | String c s =>
      d ← digit_of c;
      let acc := acc * 10 + d in
      if acc <=? u64_max then parse_digits acc s else None
  end.
Definition parse_u64 (s : string) : option Z :=
  match s with
  | EmptyString => None
  | String c rest =>
      if bool_decide (String c EmptyString = "+"%string)
      then match rest with EmptyString => None | _ => parse_digits 0 rest end
      else parse_digits 0 s
  end.

Fixpoint contains_char (c : Ascii.ascii) (s : string) : bool :=
  match s with
  | EmptyString => false
  | String c' s => bool_decide (c' = c) || contains_char c s
  end.
(** [str::rsplit_once] at a character. *)
Fixpoint rsplit_once (c : Ascii.ascii) (s : string) : option (string * string) :=
  match s with
  | EmptyString => None
  | String c' s =>
      match rsplit_once c s with
      | Some (before, after) => Some (String c' before, after)
      | None => if bool_decide (c' = c) then Some (EmptyString, s) else None
      end
  end.

Record ForkUrl := mkForkUrl { fu_url : string; fu_block : option Z }.
Definition ForkUrl_fmt (f : ForkUrl) : string :=
  match fu_block f with
  | Some block => fu_url f +:+ "@" +:+ pretty (Z.to_N block)
  | None => fu_url f
  end.
Definition at_sign : Ascii.ascii := Ascii.ascii_of_nat 64.
Definition colon : Ascii.ascii := Ascii.ascii_of_nat 58.
Definition dot : Ascii.ascii := Ascii.ascii_of_nat 46.
Definition ForkUrl_from_str (s : string) : ForkUrl + string :=
  match rsplit_once at_sign s with
  | Some (url, block) =>
      if bool_decide (block = "latest"%string) then inl (mkForkUrl url None)
      else if negb (bool_decide (block = EmptyString)) && negb (contains_char colon block) && negb (contains_char dot block) then
        match parse_u64 block with
        | Some block => inl (mkForkUrl url (Some block))
        | None => inr ("Failed to parse block number: `" +:+ block +:+ "`")
        end
      else inl (mkForkUrl s None)
  | None => inl (mkForkUrl s None)
  end.

(** A file with a state, read when the arguments are parsed. *)
Record StateFile := mkStateFile { sf_path : string; sf_state : option SerializableState }.

Record AnvilEvmArgs := mkAnvilEvmArgs {
  ea_fork_url : option ForkUrl;
  ea_fork_request_timeout : option Z;
  ea_fork_request_retries : option Z;
  ea_fork_block_number : option Z;
  ea_fork_retry_backoff : option Z;
  ea_fork_chain_id : option Z;
  ea_compute_units_per_second : option Z;
  ea_no_rate_limit : bool;
  ea_no_storage_caching : bool;
  ea_gas_limit : option Z;
  ea_disable_block_gas_limit : bool;
  ea_code_size_limit : option Z;
  ea_gas_price : option Z;
  ea_block_base_fee_per_gas : option Z;
  ea_chain_id : option Z;
  ea_steps_tracing : bool;
  ea_auto_impersonate : bool;
}.
Record NodeArgs := mkNodeArgs {
  na_port : Z;
  na_accounts : Z;
  na_balance : Z;
  na_timestamp : option Z;
  na_mnemonic : option string;
  na_derivation_path : option string;
  na_silent : bool;
  na_hardfork : option Hardfork.t;
  na_block_time : option Z;
  na_config_out : option string;
  na_no_mining : bool;
  na_host : list IpAddr;
  na_order : TransactionOrder;
  na_init : option Genesis;
  na_state : option StateFile;
  na_state_interval : option Z;
  na_dump_state : option string;
  na_load_state : option SerializableState;
  na_ipc : option (option string);
  na_prune_history : option (option Z);
  na_transaction_block_keeper : option Z;
  na_evm_opts : AnvilEvmArgs;
}.

Definition account_generator (a : NodeArgs) (random : string) : AccountGenerator :=
  let g := AccountGenerator_chain_id (AccountGenerator_phrase (AccountGenerator_new random (na_accounts a)) DEFAULT_MNEMONIC)
    (default CHAIN_ID (ea_chain_id (na_evm_opts a))) in
  let g := match na_mnemonic a with Some mnemonic => AccountGenerator_phrase g mnemonic | None => g end in
  match na_derivation_path a with Some derivation => AccountGenerator_derivation_path g derivation | None => g end.

Definition into_node_config (a : NodeArgs) (random : string) : rust NodeConfig :=
  let opts := na_evm_opts a in
  let genesis_balance := u256_saturating_mul WEI_IN_ETHER (na_balance a) in
  let compute_units_per_second := if ea_no_rate_limit opts then Some u64_max else ea_compute_units_per_second opts in
  c ← NodeConfig_default random;
  let c := with_gas_limit c (ea_gas_limit opts) in
  let c := disable_block_gas_limit c (ea_disable_block_gas_limit opts) in
  let c := with_gas_price c (ea_gas_price opts) in
  let c := with_hardfork c (na_hardfork a) in
  let c := with_blocktime c (from_secs <$> na_block_time a) in
  let c := with_no_mining c (na_no_mining a) in
  c ← with_account_generator c (account_generator a random);
  let c := with_genesis_balance c genesis_balance in
  let c := with_genesis_timestamp c (na_timestamp a) in
  let c := with_port c (na_port a) in
  let c := with_fork_block_number c
    (match ea_fork_block_number opts with Some n => Some n | None => ea_fork_url opts ≫= fu_block end) in
  let c := with_fork_chain_id c (ea_fork_chain_id opts) in
  let c := fork_request_timeout c (from_millis <$> ea_fork_request_timeout opts) in
  let c := fork_request_retries c (ea_fork_request_retries opts) in
  let c := fork_retry_backoff c (from_millis <$> ea_fork_retry_backoff opts) in
  let c := fork_compute_units_per_second c compute_units_per_second in
  let c := with_eth_rpc_url c (fu_url <$> ea_fork_url opts) in
  let c := with_base_fee c (ea_block_base_fee_per_gas opts) in
  let c := with_storage_caching c (ea_no_storage_caching opts) in
  let c := with_host c (na_host a) in
  let c := set_silent c (na_silent a) in
  let c := set_config_out c (na_config_out a) in
  let c := with_chain_id c (ea_chain_id opts) in
  let c := with_transaction_order c (na_order a) in
  let c := with_genesis_json c (na_init a) in
  let c := with_steps_tracing c (ea_steps_tracing opts) in
  let c := with_auto_impersonate c (ea_auto_impersonate opts) in
  let c := with_ipc c (na_ipc a) in
  let c := with_code_size_limit c (ea_code_size_limit opts) in
  let c := set_pruned_history c (na_prune_history a) in
  let c := with_init_state c (match na_load_state a with Some s => Some s | None => na_state a ≫= sf_state end) in
  Val (with_transaction_block_keeper c (na_transaction_block_keeper a)).
Definition dump_state_path (a : NodeArgs) : option string :=
  match na_dump_state a with Some path => Some path | None => sf_path <$> na_state a end.
End config.

(** ** Starting *)
Section start.
Context {HCR : Crypto} {HT : Tries} {HFI : FileSystem} {HBL : Blooms} {HBH : BlockHashing} {HTC : Chrono} {HCH : pool.Channel}.
Abbreviation api_error := (BlockchainError (ref_error (DB := MemDb))).
Context {HW : Wallets api_error}.
Abbreviation backend := (Backend (DB := MemDb) (StateDb := MemDb)).
Abbreviation api := (EthApi (DB := MemDb) (StateDb := MemDb)).

(** [Backend::with_genesis] without a fork; [now] is read for the time
    manager.  The settings of the administrator's precompile are those of the
    process. *)
Definition with_genesis (db : MemDb) (env : Env) (genesis : GenesisConfig) (fees : FeeManager.t)
  (prune_state_history_config : PruneStateHistoryConfig) (transaction_block_keeper : option Z)
  (automine_block_time : option Duration) (now : Z) (statics : admin.Statics) : rust backend :=
  let blockchain := BlockchainStorage_new env
    (if FeeManager.is_eip1559 fees then Some (FeeManager.base_fee fees) else None) (gc_timestamp genesis) in
  let start_timestamp := gc_timestamp genesis in
  let states := states_of_config prune_state_history_config in
  let b := mkBackend env db fees (TimeManager.new now start_timestamp) blockchain states
    prune_state_history_config ∅ transaction_block_keeper statics in
  b ← match automine_block_time with
      | Some interval_block_time =>
          states ← InMemoryBlockStates.update_interval_mine_block_time (b_states b) (as_secs interval_block_time);
          Val (with_block_states b states)
      | None => Val b
      end;
  match apply_genesis genesis (b_db b) with
  | (inl _, db) => Val (with_db b db)
  | (inr _, _) => Panic
  end.

Definition setup_env (c : NodeConfig (err := api_error)) : Env :=
  mkEnv
    (CfgEnv_default {{ cfg_spec_id := Hardfork.into_spec_id (get_hardfork c);
       cfg_chain_id := get_chain_id c;
       cfg_limit_contract_code_size := nc_code_size_limit c;
       cfg_disable_eip3607 := true;
       cfg_disable_block_gas_limit := nc_disable_block_gas_limit c }})
    (BlockEnv_default {{ block_gas_limit := nc_gas_limit c; block_basefee := get_base_fee c }})
    (TxEnv_default {{ tx_chain_id := Some (get_chain_id c) }}).
(** [setup] of a node without a fork: [eth_rpc_url] is [None].  The clock is
    read for the genesis block and for the time manager. *)
Definition setup (c : NodeConfig (err := api_error)) (clock : nat -> Z) (statics : admin.Statics) : rust backend :=
  let env := setup_env c in
  let fees := FeeManager.new (cfg_spec_id (env_cfg env)) (get_base_fee c) (get_gas_price c) in
  let db := MemDb_default in
  let env := match nc_genesis c with Some genesis => Genesis_apply genesis env | None => env end in
  let genesis := mkGenesisConfig (get_genesis_timestamp c (clock 0%nat)) (nc_genesis_balance c)
    (wallet_address <$> nc_genesis_accounts c) [] (nc_genesis c) in
  b ← with_genesis db env genesis fees (nc_prune_history c) (nc_transaction_block_keeper c) (nc_block_time c)
        (clock 1%nat) statics;
  match nc_init_state c with
  | Some state =>
      match load_state (b_db b) state with
      | (inl _, db) => Val (with_db b db)
      | (inr _, _) => Panic
      end
  | None => Val b
  end.

(** [tokio::time::interval_at] panics if the period is zero. *)
Definition interval (duration : Duration) : rust MiningMode :=
  if duration =? 0 then Panic else Val FixedBlockTime.

(** [spawn]: the API, and the service beside it with nothing to do. *)
Definition spawn (c : NodeConfig (err := api_error)) (clock : nat -> Z) (statics : admin.Statics) :
  rust (Node (DB := MemDb) (StateDb := MemDb)) :=
  b ← setup c clock statics;
  let cheats := CheatsState_default in
  let cheats := if nc_enable_auto_impersonate c then set_auto_impersonate_account cheats true else cheats in
  let p := pool.mkPool pool.PoolInner_default [] in
  '(mode, p) ← match nc_block_time c with
               | Some block_time => mode ← interval block_time; Val (mode, p)
               | None =>
                   if nc_no_mining c then Val (NoMining, p)
                   else
                     let '(_, p) := pool.add_ready_listener p in
                     Val (instant (nc_max_transactions c), p)
               end;
  let dev_signer (wallets : list (Wallet api_error)) :=
    DevSigner_Signer sign_transaction_sync (NoSignerAvailable : api_error) (DevSigner_new wallet_address wallets) in
  let signers := [dev_signer (nc_signer_accounts c)] in
  let signers := match nc_genesis c with
                 | Some genesis =>
                     match private_keys genesis with
                     | [] => signers
                     | genesis_signers => signers ++ [dev_signer genesis_signers]
                     end
                 | None => signers
                 end in
  let a : api := mkEthApi b p signers cheats (nc_transaction_order c) mode in
  Val (mkNode a None []).

(** What [NodeHandle] tells of its configuration. *)
Definition dev_accounts (c : NodeConfig (err := api_error)) : list Z := wallet_address <$> nc_signer_accounts c.
Definition genesis_accounts (c : NodeConfig (err := api_error)) : list Z := wallet_address <$> nc_genesis_accounts c.
End start.
