(* ===== verification/Fork.v ===== *)
(** * Forking a remote chain: [foundry/evm/src/executor/fork], [anvil/src/eth/backend/mem/fork_db.rs]

    The handler that fetches accounts, slots and blocks from a provider for
    everyone who asks, one request for each of them at a time; the cache it
    fills; and the database on top of it.  The provider is third-party: it is
    an argument of each poll, and says which of its futures have answered. *)

From stdpp Require Import base option list gmap sets strings.
From Stdlib Require Import ZArith Lia.
From coqutil Require Import Datatypes.RecordSetters.
From S2P Require Import Prelude Primitives Precompile Journal EvmImpl CacheDB NodeDb BlockStates EthTransaction Fees TxPool Miner Calls.
Import DoubleBraceUpdate.

(** ** cache.rs: the cache of remote data *)

(** [MemDb], of the same shape as a snapshot of it. *)
Definition ForkMemDb : Type := StateSnapshot.
Definition ForkMemDb_default : ForkMemDb := mkStateSnapshot ∅ ∅ ∅.
Definition ForkMemDb_clear (m : ForkMemDb) : ForkMemDb := mkStateSnapshot ∅ ∅ ∅.
Definition do_insert_account (m : ForkMemDb) (address : Z) (account : AccountInfo) : ForkMemDb :=
  m {{ sn_accounts := <[address := account]> (sn_accounts m) }}.

(** The hash of the code that an account comes with. *)
Definition rehashed (i : AccountInfo) : AccountInfo :=
  match Primitives.code i with
  | Some code =>
      if negb (Bytecode_is_empty code) then i {{ code_hash := bc_hash code }}
      else if code_hash i =? 0 then i {{ code_hash := KECCAK_EMPTY }} else i
  | None => if code_hash i =? 0 then i {{ code_hash := KECCAK_EMPTY }} else i
  end.
Definition commit_slot (s : gmap Z Z) (entry : Z * StorageSlot) : gmap Z Z :=
  if present_value entry.2 =? 0 then delete entry.1 s else <[entry.1 := present_value entry.2]> s.
Definition commit_account (m : ForkMemDb) (change : Z * Account) : ForkMemDb :=
  let '(add, acc) := change in
  if Account_is_empty acc || is_destroyed acc then
    m {{ sn_accounts := delete add (sn_accounts m); sn_storage := delete add (sn_storage m) }}
  else
    let acc_storage := default ∅ (sn_storage m !! add) in
    let acc_storage := if storage_cleared acc then ∅ else acc_storage in
    let acc_storage := foldl commit_slot acc_storage (map_to_list (Primitives.storage acc)) in
    m {{ sn_accounts := <[add := rehashed (info acc)]> (sn_accounts m);
         sn_storage := if bool_decide (acc_storage = ∅) then delete add (sn_storage m)
                       else <[add := acc_storage]> (sn_storage m) }}.
Definition do_commit (m : ForkMemDb) (changes : gmap Z Account) : ForkMemDb :=
  foldl commit_account m (map_to_list changes).

#[export] Instance AnalysisKind_eq_dec : EqDecision AnalysisKind.
Proof. solve_decision. Defined.
#[export] Instance CfgEnv_eq_dec : EqDecision CfgEnv.
Proof. solve_decision. Defined.
#[export] Instance BlockEnv_eq_dec : EqDecision BlockEnv.
Proof. solve_decision. Defined.
Record BlockchainDbMeta := mkBlockchainDbMeta {
  meta_cfg_env : CfgEnv;
  meta_block_env : BlockEnv;
  meta_hosts : gset string;
}.
(** [host_of]: the host of a url that can be parsed. *)
Definition BlockchainDbMeta_new (host_of : string -> option string) (env : Env) (url : string) : BlockchainDbMeta :=
  mkBlockchainDbMeta (env_cfg env) (env_block env) {[default url (host_of url)]}.
Definition BlockchainDbMeta_eq (a b : BlockchainDbMeta) : bool :=
  bool_decide (meta_cfg_env a = meta_cfg_env b) && bool_decide (meta_block_env a = meta_block_env b).

Record BlockchainDb := mkBlockchainDb { bd_db : ForkMemDb; bd_meta : BlockchainDbMeta }.
(** [loaded]: what the file of the cache holds, if it can be read. *)
Definition new_db (meta : BlockchainDbMeta) (loaded : option BlockchainDb) (skip_check : bool) : BlockchainDb :=
  let fresh := mkBlockchainDb ForkMemDb_default meta in
  match loaded with
  | None => fresh
  | Some cache =>
      if skip_check then cache
      else
        let existing := (bd_meta cache) {{ meta_hosts := meta_hosts (bd_meta cache) ∪ meta_hosts meta }} in
        if negb (BlockchainDbMeta_eq meta existing) then fresh else mkBlockchainDb (bd_db cache) existing
  end.
Definition BlockchainDb_new (meta : BlockchainDbMeta) (loaded : option BlockchainDb) : BlockchainDb := new_db meta loaded false.
Definition BlockchainDb_new_skip_check (meta : BlockchainDbMeta) (loaded : option BlockchainDb) : BlockchainDb :=
  new_db meta loaded true.

(** ** backend.rs: the handler *)
Section handler.
Context {HC : Crypto} {Err FullBlock RemoteTransaction : Type}.

(** error.rs *)
Inductive DatabaseError :=
| MissingAccount (address : Z)
| MissingCode (hash : Z)
| Recv
| Send
| Message (msg : string)
| GetAccount (address : Z) (e : Err)
| GetStorage (address index : Z) (e : Err)
| GetBlockHash (number : Z) (e : Err)
| GetFullBlock (id : BlockId) (e : Err)
| BlockNotFound (id : BlockId)
| GetTransaction (hash : Z) (e : Err)
| TransactionNotFound (hash : Z)
| MissingCreate2Deployer
| JoinError.
Definition get_rpc_error (e : DatabaseError) : option Err :=
  match e with
  | GetAccount _ err | GetStorage _ _ err | GetBlockHash _ err | GetFullBlock _ err | GetTransaction _ err => Some err
  | _ => None
  end.

(** A sender of a one-shot channel is its number. *)
Inductive Response :=
| AccountResponse (r : AccountInfo + DatabaseError)
| StorageResponse (r : Z + DatabaseError)
| BlockHashResponse (r : Z + DatabaseError)
| FullBlockResponse (r : FullBlock + DatabaseError)
| TransactionResponse (r : RemoteTransaction + DatabaseError).
Inductive BackendRequest :=
| Basic (address : Z) (sender : Z)
| Storage (address index : Z) (sender : Z)
| BlockHash (number : Z) (sender : Z)
| FullBlockOf (id : BlockId) (sender : Z)
| TransactionOf (hash : Z) (sender : Z)
| SetPinnedBlock (id : BlockId).
(** A future has the arguments of its request. *)
Inductive ProviderRequest :=
| AccountFuture (address : Z) (block_id : option BlockId)
| StorageFuture (address index : Z) (block_id : option BlockId)
| BlockHashFuture (number : Z)
| FullBlockFuture (id : BlockId) (sender : Z)
| TransactionFuture (hash : Z) (sender : Z).

(** What the futures of the provider answer when they are polled; [None] is
    [Pending].  Of the block for a hash, only its hash matters. *)
Record Provider := mkProvider {
  get_balance : Z -> option BlockId -> option (Z + Err);
  get_transaction_count : Z -> option BlockId -> option (Z + Err);
  get_code : Z -> option BlockId -> option (list Z + Err);
  get_storage_at : Z -> Z -> option BlockId -> option (Z + Err);
  get_block : Z -> option (option (option Z) + Err);
  get_block_with_txs : BlockId -> option (option FullBlock + Err);
  get_transaction : Z -> option (option RemoteTransaction + Err);
}.
(** [try_join!]: an error at once, otherwise all three. *)
Definition try_join {A B C : Type} (a : option (A + Err)) (b : option (B + Err)) (c : option (C + Err)) :
  option (A * B * C + Err) :=
  match a, b, c with
  | Some (inr e), _, _ => Some (inr e)
  | _, Some (inr e), _ => Some (inr e)
  | _, _, Some (inr e) => Some (inr e)
  | Some (inl a), Some (inl b), Some (inl c) => Some (inl (a, b, c))
  | _, _, _ => None
  end.

Record BackendHandler := mkBackendHandler {
  bh_db : ForkMemDb;
  pending_requests : list ProviderRequest;
  account_requests : gmap Z (list Z);
  storage_requests : gmap (Z * Z) (list Z);
  block_requests : gmap Z (list Z);
  incoming : list BackendRequest;
  senders_alive : bool;
  queued_requests : list BackendRequest;
  block_id : option BlockId;
  sent : list (Z * Response);
}.
Definition BackendHandler_new (db : ForkMemDb) (block_id : option BlockId) : BackendHandler :=
  mkBackendHandler db [] ∅ ∅ ∅ [] true [] block_id [].
Definition send (h : BackendHandler) (sender : Z) (r : Response) : BackendHandler :=
  h {{ sent := sent h ++ [(sender, r)] }}.
Definition push_pending (h : BackendHandler) (r : ProviderRequest) : BackendHandler :=
  h {{ pending_requests := pending_requests h ++ [r] }}.

Definition get_account_req (h : BackendHandler) (address : Z) : ProviderRequest := AccountFuture address (block_id h).
Definition request_account (h : BackendHandler) (address listener : Z) : BackendHandler :=
  match account_requests h !! address with
  | Some listeners => h {{ account_requests := <[address := listeners ++ [listener]]> (account_requests h) }}
  | None =>
      let h := h {{ account_requests := <[address := [listener]]> (account_requests h) }} in
      push_pending h (get_account_req h address)
  end.
Definition request_account_storage (h : BackendHandler) (address idx listener : Z) : BackendHandler :=
  match storage_requests h !! (address, idx) with
  | Some listeners => h {{ storage_requests := <[(address, idx) := listeners ++ [listener]]> (storage_requests h) }}
  | None =>
      let h := h {{ storage_requests := <[(address, idx) := [listener]]> (storage_requests h) }} in
      push_pending h (StorageFuture address idx (block_id h))
  end.
Definition request_hash (h : BackendHandler) (number listener : Z) : BackendHandler :=
  match block_requests h !! number with
  | Some listeners => h {{ block_requests := <[number := listeners ++ [listener]]> (block_requests h) }}
  | None => push_pending (h {{ block_requests := <[number := [listener]]> (block_requests h) }}) (BlockHashFuture number)
  end.
Definition request_full_block (h : BackendHandler) (id : BlockId) (sender : Z) : BackendHandler :=
  push_pending h (FullBlockFuture id sender).
Definition request_transaction (h : BackendHandler) (tx sender : Z) : BackendHandler :=
  push_pending h (TransactionFuture tx sender).

Definition on_request (h : BackendHandler) (req : BackendRequest) : BackendHandler :=
  match req with
  | Basic addr sender =>
      match sn_accounts (bh_db h) !! addr with
      | Some basic => send h sender (AccountResponse (inl basic))
      | None => request_account h addr sender
      end
  | BlockHash number sender =>
      match sn_block_hashes (bh_db h) !! number with
      | Some hash => send h sender (BlockHashResponse (inl hash))
      | None => request_hash h number sender
      end
  | FullBlockOf number sender => request_full_block h number sender
  | TransactionOf tx sender => request_transaction h tx sender
  | Storage addr idx sender =>
      match sn_storage (bh_db h) !! addr ≫= (fun acc => acc !! idx) with
      | Some value => send h sender (StorageResponse (inl value))
      | None => request_account_storage h addr idx sender
      end
  | SetPinnedBlock id => h {{ block_id := Some id }}
  end.

(** What is told to all who wait for a key. *)
Definition notify_account (h : BackendHandler) (addr : Z) (r : AccountInfo + DatabaseError) : BackendHandler :=
  match account_requests h !! addr with
  | Some listeners =>
      foldl (fun h l => send h l (AccountResponse r)) (h {{ account_requests := delete addr (account_requests h) }}) listeners
  | None => h
  end.
Definition notify_storage (h : BackendHandler) (key : Z * Z) (r : Z + DatabaseError) : BackendHandler :=
  match storage_requests h !! key with
  | Some listeners =>
      foldl (fun h l => send h l (StorageResponse r)) (h {{ storage_requests := delete key (storage_requests h) }}) listeners
  | None => h
  end.
Definition notify_block (h : BackendHandler) (number : Z) (r : Z + DatabaseError) : BackendHandler :=
  match block_requests h !! number with
  | Some listeners =>
      foldl (fun h l => send h l (BlockHashResponse r)) (h {{ block_requests := delete number (block_requests h) }}) listeners
  | None => h
  end.

(** The account that three answers make. *)
Definition fetched_account (balance nonce : Z) (code : list Z) : AccountInfo :=
  mkAccountInfo balance nonce (if zlen code =? 0 then KECCAK_EMPTY else keccak256 code)
    (Some (Bytecode_to_checked (Bytecode_new_raw code))).
Definition fetched_slot (m : ForkMemDb) (addr idx value : Z) : ForkMemDb :=
  m {{ sn_storage := <[addr := <[idx := value]> (default ∅ (sn_storage m !! addr))]> (sn_storage m) }}.
(** The hash that is taken for a block: of one that does not exist, that of
    nothing; a block without a hash panics. *)
Definition hash_of_block (r : option (option Z) + Err) : rust (Z + Err) :=
  match r with
  | inl (Some hash) => hash ← unwrap hash; Val (inl hash)
  | inl None => Val (inl KECCAK_EMPTY)
  | inr e => Val (inr e)
  end.

(** One arm of the match in [poll]; [None]: the future is not ready. *)
Definition poll_request (p : Provider) (h : BackendHandler) (request : ProviderRequest) : rust (option BackendHandler) :=
  match request with
  | AccountFuture addr id =>
      match try_join (get_balance p addr id) (get_transaction_count p addr id) (get_code p addr id) with
      | None => Val None
      | Some (inr err) => Val (Some (notify_account h addr (inr (GetAccount addr err))))
      | Some (inl (balance, nonce, code)) =>
          nonce ← as_u64 nonce;
          let acc := fetched_account balance nonce code in
          Val (Some (notify_account (h {{ bh_db := do_insert_account (bh_db h) addr acc }}) addr (inl acc)))
      end
  | StorageFuture addr idx id =>
      match get_storage_at p addr idx id with
      | None => Val None
      | Some (inr err) => Val (Some (notify_storage h (addr, idx) (inr (GetStorage addr idx err))))
      | Some (inl value) =>
          Val (Some (notify_storage (h {{ bh_db := fetched_slot (bh_db h) addr idx value }}) (addr, idx) (inl value)))
      end
  | BlockHashFuture number =>
      match get_block p number with
      | None => Val None
      | Some answer =>
          hash ← hash_of_block answer;
          Val (Some (match hash with
            | inr err => notify_block h number (inr (GetBlockHash number err))
            | inl value =>
                notify_block
                  (h {{ bh_db := (bh_db h) {{ sn_block_hashes := <[number := value]> (sn_block_hashes (bh_db h)) }} }})
                  number (inl value)
            end))
      end
  | FullBlockFuture number sender =>
      match get_block_with_txs p number with
      | None => Val None
      | Some answer =>
          Val (Some (send h sender (FullBlockResponse (match answer with
            | inl (Some block) => inl block
            | inl None => inr (BlockNotFound number)
            | inr err => inr (GetFullBlock number err)
            end))))
      end
  | TransactionFuture tx_hash sender =>
      match get_transaction p tx_hash with
      | None => Val None
      | Some answer =>
          Val (Some (send h sender (TransactionResponse (match answer with
            | inl (Some tx) => inl tx
            | inl None => inr (TransactionNotFound tx_hash)
            | inr err => inr (GetTransaction tx_hash err)
            end))))
      end
  end.

(** [Vec::swap_remove]: the last element takes the place of the one removed. *)
Definition vec_swap_remove {A : Type} (l : list A) (i : nat) : rust (A * list A) :=
  match l !! i, last l with
  | Some x, Some y =>
      let rest := take (length l - 1) l in
      Val (x, if bool_decide (i = length rest) then rest else <[i := y]> rest)
  | _, _ => Panic
  end.
(** The loop over the requests in progress, from the last down. *)
Fixpoint poll_pending (p : Provider) (n : nat) (h : BackendHandler) : rust BackendHandler :=
  match n with
  | O => Val h
  | S n =>
      '(request, rest) ← vec_swap_remove (pending_requests h) n;
      let h := h {{ pending_requests := rest }} in
      r ← poll_request p h request;
      poll_pending p n (match r with Some h => h | None => push_pending h request end)
  end.

(** [Future::poll]: whether the handler is done.  [fuel] rounds. *)
Fixpoint poll_handler (fuel : nat) (p : Provider) (h : BackendHandler) : rust (bool * BackendHandler) :=
  match fuel with
  | O => Diverge
  | S fuel =>
      let h := foldl on_request (h {{ queued_requests := [] }}) (queued_requests h) in
      let h := h {{ queued_requests := incoming h; incoming := [] }} in
      if negb (senders_alive h) then Val (true, h)
      else
        h ← poll_pending p (length (pending_requests h)) h;
        match queued_requests h with
        | [] => Val (false, h)
        | _ => poll_handler fuel p h
        end
  end.

(** ** SharedBackend: a request over the channel, and the wait for its answer *)

(** [try_send]: every clone of the sender has room for one message. *)
Definition try_send (h : BackendHandler) (req : BackendRequest) : BackendHandler :=
  h {{ incoming := incoming h ++ [req] }}.
Definition answer_to (h : BackendHandler) (sender : Z) : option Response :=
  snd <$> (snd <$> list_find (fun m => m.1 = sender) (sent h)).
(** The caller blocks while the handler is polled: once for each provider of
    [polls], until the answer is there. *)
Fixpoint wait_for (polls : list Provider) (h : BackendHandler) (sender : Z) : rust (Response * BackendHandler) :=
  match answer_to h sender with
  | Some r => Val (r, h)
  | None =>
      match polls with
      | [] => Diverge
      | p :: polls => '(_, h) ← poll_handler 2 p h; wait_for polls h sender
      end
  end.
Definition call_handler (polls : list Provider) (h : BackendHandler) (req : BackendRequest) (sender : Z) :
  rust (Response * BackendHandler) := wait_for polls (try_send h req) sender.

Definition set_pinned_block (h : BackendHandler) (id : BlockId) : BackendHandler := try_send h (SetPinnedBlock id).
Definition get_full_block (polls : list Provider) (h : BackendHandler) (id : BlockId) (sender : Z) :
  rust ((FullBlock + DatabaseError) * BackendHandler) :=
  '(r, h) ← call_handler polls h (FullBlockOf id sender) sender;
  match r with FullBlockResponse r => Val (r, h) | _ => Panic end.
Definition get_remote_transaction (polls : list Provider) (h : BackendHandler) (tx : Z) (sender : Z) :
  rust ((RemoteTransaction + DatabaseError) * BackendHandler) :=
  '(r, h) ← call_handler polls h (TransactionOf tx sender) sender;
  match r with TransactionResponse r => Val (r, h) | _ => Panic end.
Definition do_get_basic (polls : list Provider) (h : BackendHandler) (address : Z) (sender : Z) :
  rust ((option AccountInfo + DatabaseError) * BackendHandler) :=
  '(r, h) ← call_handler polls h (Basic address sender) sender;
  match r with
  | AccountResponse (inl i) => Val (inl (Some i), h)
  | AccountResponse (inr e) => Val (inr e, h)
  | _ => Panic
  end.
Definition do_get_storage (polls : list Provider) (h : BackendHandler) (address index : Z) (sender : Z) :
  rust ((Z + DatabaseError) * BackendHandler) :=
  '(r, h) ← call_handler polls h (Storage address index sender) sender;
  match r with StorageResponse r => Val (r, h) | _ => Panic end.
Definition do_get_block_hash (polls : list Provider) (h : BackendHandler) (number : Z) (sender : Z) :
  rust ((Z + DatabaseError) * BackendHandler) :=
  '(r, h) ← call_handler polls h (BlockHash number sender) sender;
  match r with BlockHashResponse r => Val (r, h) | _ => Panic end.
(** [DatabaseRef for SharedBackend]. *)
Definition shared_code_by_hash (hash : Z) : Bytecode + DatabaseError := inr (MissingCode hash).
Definition shared_block_hash (polls : list Provider) (h : BackendHandler) (number : Z) (sender : Z) :
  rust ((Z + DatabaseError) * BackendHandler) :=
  if u64_max <? number then Val (inl KECCAK_EMPTY, h)
  else n ← as_u64 number; do_get_block_hash polls h n sender.
End handler.

(** ** database.rs: the database on top, and snapshots of it

    [T] is the handle of the shared backend, whose answers are those of the
    handler; the store behind it, the cache of remote data, is the handler's,
    and shared: an operation that touches it takes the handler and gives it
    back. *)
Record ForkDbSnapshot (T : Type) := mkForkDbSnapshot { fs_local : CacheDB T; fs_snapshot : StateSnapshot }.
Arguments mkForkDbSnapshot {T} _ _.
Arguments fs_local {T} _.
Arguments fs_snapshot {T} _.
Record ForkedDatabase (T : Type) := mkForkedDatabase {
  fd_backend : T;
  fd_cache_db : CacheDB T;
  fd_snapshots : Snapshots.t (ForkDbSnapshot T);
}.
Arguments mkForkedDatabase {T} _ _ _.
Arguments fd_backend {T} _.
Arguments fd_cache_db {T} _.
Arguments fd_snapshots {T} _.

Section database.
Context {HC : Crypto} {Err FullBlock RemoteTransaction T : Type} {HR : DatabaseRef T}.
Abbreviation Handler := (@BackendHandler Err FullBlock RemoteTransaction).
Abbreviation Forked := (ForkedDatabase T).
Definition with_store (h : Handler) (m : ForkMemDb) : Handler := h {{ bh_db := m }}.
Definition with_cache (d : Forked) (c : CacheDB T) : Forked := mkForkedDatabase (fd_backend d) c (fd_snapshots d).

Definition ForkedDatabase_new (backend : T) : Forked :=
  mkForkedDatabase backend (CacheDB_new backend) Snapshots.t_default.
(** The pin goes through the channel, the store is cleared at once. *)
Definition reset (h : Handler) (d : Forked) (block_number : BlockId) : Handler * Forked :=
  let h := set_pinned_block h block_number in
  (with_store h (ForkMemDb_clear (bh_db h)), with_cache d (CacheDB_new (fd_backend d))).
Definition create_snapshot (h : Handler) (d : Forked) : ForkDbSnapshot T :=
  mkForkDbSnapshot (fd_cache_db d)
    (mkStateSnapshot (sn_accounts (bh_db h)) (sn_storage (bh_db h)) (sn_block_hashes (bh_db h))).
Definition insert_snapshot (h : Handler) (d : Forked) : Z * Forked :=
  let '(id, s) := Snapshots.insert (fd_snapshots d) (create_snapshot h d) in
  (id, mkForkedDatabase (fd_backend d) (fd_cache_db d) s).
Definition revert_snapshot (h : Handler) (d : Forked) (id : Z) : rust (bool * (Handler * Forked)) :=
  '(found, s) ← Snapshots.remove (fd_snapshots d) id;
  let d := mkForkedDatabase (fd_backend d) (fd_cache_db d) s in
  Val (match found with
       | Some snapshot =>
           let '(mkStateSnapshot accounts storage block_hashes) := fs_snapshot snapshot in
           (true, (with_store h (mkStateSnapshot accounts storage block_hashes), with_cache d (fs_local snapshot)))
       | None => (false, (h, d))
       end).

(** [Database for ForkedDatabase] *)
Definition Forked_basic (d : Forked) (address : Z) : (option AccountInfo + @ref_error T HR) * Forked :=
  let '(r, c) := CacheDB_basic (fd_cache_db d) address in (r, with_cache d c).
Definition Forked_code_by_hash (d : Forked) (hash : Z) : (Bytecode + @ref_error T HR) * Forked :=
  let '(r, c) := CacheDB_code_by_hash (fd_cache_db d) hash in (r, with_cache d c).
Definition Forked_storage (d : Forked) (address index : Z) : (Z + @ref_error T HR) * Forked :=
  let '(r, c) := CacheDB_storage (fd_cache_db d) address index in (r, with_cache d c).
Definition Forked_block_hash (d : Forked) (number : Z) : (Z + @ref_error T HR) * Forked :=
  let '(r, c) := CacheDB_block_hash (fd_cache_db d) number in (r, with_cache d c).
Definition Forked_commit (d : Forked) (changes : gmap Z Account) : Forked :=
  with_cache d (commit (fd_cache_db d) changes).

(** [DatabaseRef for ForkedDatabase] *)
#[export] Instance ForkedDatabase_DatabaseRef : DatabaseRef Forked := {
  ref_error := @ref_error T HR;
  ref_basic d address := ref_basic (fd_cache_db d) address;
  ref_code_by_hash d hash := ref_code_by_hash (fd_cache_db d) hash;
  ref_storage d address index := ref_storage (fd_cache_db d) address index;
  ref_block_hash d number := ref_block_hash (fd_cache_db d) number;
}.

(** [DatabaseRef for ForkDbSnapshot] *)
Definition get_storage (s : ForkDbSnapshot T) (address index : Z) : option Z :=
  cd_accounts (fs_local s) !! address ≫= (fun account => da_storage account !! index).
Definition snapshot_basic (s : ForkDbSnapshot T) (address : Z) : option AccountInfo + @ref_error T HR :=
  match cd_accounts (fs_local s) !! address with
  | Some account => inl (Some (da_info account))
  | None =>
      match sn_accounts (fs_snapshot s) !! address with
      | Some acc => inl (Some acc)
      | None => ref_basic (fs_local s) address
      end
  end.
Definition snapshot_storage (s : ForkDbSnapshot T) (address index : Z) : Z + @ref_error T HR :=
  match cd_accounts (fs_local s) !! address with
  | Some account =>
      match da_storage account !! index with
      | Some entry => inl entry
      | None =>
          match get_storage s address index with
          | None => ref_storage (fs_local s) address index
          | Some storage => inl storage
          end
      end
  | None =>
      match get_storage s address index with
      | None => ref_storage (fs_local s) address index
      | Some storage => inl storage
      end
  end.
Definition snapshot_block_hash (s : ForkDbSnapshot T) (number : Z) : Z + @ref_error T HR :=
  match sn_block_hashes (fs_snapshot s) !! number with
  | None => ref_block_hash (fs_local s) number
  | Some block_hash => inl block_hash
  end.
#[export] Instance ForkDbSnapshot_DatabaseRef : DatabaseRef (ForkDbSnapshot T) := {
  ref_error := @ref_error T HR;
  ref_basic := snapshot_basic;
  ref_code_by_hash s hash := ref_code_by_hash (fs_local s) hash;
  ref_storage := snapshot_storage;
  ref_block_hash := snapshot_block_hash;
}.

(** ** fork_db.rs: [Db for ForkedDatabase] and the snapshots as states of blocks *)
Definition Forked_insert_account (d : Forked) (address : Z) (account : AccountInfo) : Forked :=
  with_cache d (insert_account_info (fd_cache_db d) address account).
Definition Forked_set_storage_at (d : Forked) (address slot val : Z) : (unit + @ref_error T HR) * Forked :=
  match Forked_basic d address with
  | (inr e, d) => (inr e, d)
  | (inl _, d) =>
      let '(r, c) := insert_account_storage (fd_cache_db d) address slot val in (r, with_cache d c)
  end.
Definition Forked_insert_block_hash (h : Handler) (number hash : Z) : Handler :=
  with_store h ((bh_db h) {{ sn_block_hashes := <[number := hash]> (sn_block_hashes (bh_db h)) }}).
Definition Forked_dump_account (db : CacheDB T) (v : DbAccount) :
  rust ((SerializableAccountRecord + @ref_error T HR) * CacheDB T) :=
  let '(code, db) := match Primitives.code (da_info v) with
                     | Some code => (inl code, db)
                     | None => CacheDB_code_by_hash db (code_hash (da_info v))
                     end in
  match code with
  | inr e => Val (inr e, db)
  | inl code =>
      let code := Bytecode_to_checked code in
      bytes ← slice (bc_bytecode code) 0 (Bytecode_len code);
      Val (inl (mkSerializableAccountRecord (nonce (da_info v)) (balance (da_info v)) bytes (da_storage v)), db)
  end.
Fixpoint Forked_dump_accounts (db : CacheDB T) (l : list (Z * DbAccount)) : rust (SerializableState + @ref_error T HR) :=
  match l with
  | [] => Val (inl ∅)
  | (k, v) :: l =>
      '(r, db) ← Forked_dump_account db v;
      match r with
      | inr e => Val (inr e)
      | inl record =>
          s ← Forked_dump_accounts db l;
          Val (match s with inl s => inl (<[k := record]> s) | inr e => inr e end)
      end
  end.
Definition Forked_dump_state (d : Forked) : rust (option SerializableState + @ref_error T HR) :=
  s ← Forked_dump_accounts (fd_cache_db d) (map_to_list (cd_accounts (fd_cache_db d)));
  Val (match s with inl s => inl (Some s) | inr e => inr e end).
Definition Forked_current_state (h : Handler) (d : Forked) : ForkDbSnapshot T := create_snapshot h d.

Definition Forked_clear_into_snapshot (h : Handler) : Handler * StateSnapshot :=
  (with_store h ForkMemDb_default, bh_db h).
Definition Forked_clear (h : Handler) : Handler := (Forked_clear_into_snapshot h).1.
Definition Forked_init_from_snapshot (h : Handler) (s : StateSnapshot) : Handler := with_store h s.
#[export] Instance ForkDbSnapshot_MaybeHashDatabase : MaybeHashDatabase (ForkDbSnapshot T) := {
  clear_into_snapshot s := (mkForkDbSnapshot (fs_local s) ForkMemDb_default, fs_snapshot s);
  init_from_snapshot s snapshot := mkForkDbSnapshot (fs_local s) snapshot;
}.
End database.
