(* ===== verification/TxReady.v ===== *)
(** * What the pool's ready queue promises

    For transactions that provide one marker and require at most one other
    ([single]): the operations on [ReadyTransactions] keep it well-formed
    ([ready_wf]) and never panic, and its iterator yields every transaction
    once, after the one it depends on and the best of those that may come
    next ([iterator_yields]). *)

From stdpp Require Import base option list gmap sets sorting.
From Stdlib Require Import ZArith Lia.
From S2P Require Import Prelude EthTransaction TxPool.

(** ** The ordered set of independent transactions *)
Definition above (x y : PoolTransactionRef) : Prop := cmp x y = Lt.

Lemma cmp_eq x y :
  cmp x y = Eq <-> priority (rf_transaction x) = priority (rf_transaction y) /\ rf_id x = rf_id y.
Proof.
  unfold cmp. destruct (Z.compare_spec (priority (rf_transaction x)) (priority (rf_transaction y)));
    [|split; [done|lia]..]. rewrite Z.compare_eq_iff. intuition.
Qed.
Lemma cmp_lt x y :
  cmp x y = Lt <-> priority (rf_transaction x) < priority (rf_transaction y) \/
    priority (rf_transaction x) = priority (rf_transaction y) /\ rf_id y < rf_id x.
Proof.
  unfold cmp. destruct (Z.compare_spec (priority (rf_transaction x)) (priority (rf_transaction y)));
    [rewrite Z.compare_lt_iff|split..]; try lia; done.
Qed.
Lemma cmp_gt x y : cmp x y = Gt <-> cmp y x = Lt.
Proof.
  rewrite cmp_lt. unfold cmp.
  destruct (Z.compare_spec (priority (rf_transaction x)) (priority (rf_transaction y)));
    [rewrite Z.compare_gt_iff|split..]; try lia; done.
Qed.

#[global] Instance above_trans : Transitive above.
Proof. intros x y z. unfold above. rewrite !cmp_lt. lia. Qed.
Lemma above_irrefl x : ~ above x x.
Proof. unfold above. rewrite cmp_lt. lia. Qed.

Abbreviation sorted := (StronglySorted above).

(** Equal elements are the same. *)
Definition keyed (x : PoolTransactionRef) (l : list PoolTransactionRef) : Prop :=
  forall y, y ∈ l -> cmp x y = Eq -> y = x.

Lemma keyed_cons x y l : keyed x (y :: l) -> keyed x l.
Proof. intros H z Hz. apply H. by right. Qed.

Lemma elem_of_btree_insert x l z : keyed x l -> z ∈ btree_insert x l <-> z = x \/ z ∈ l.
Proof.
  intros Hk. induction l as [|y l IH]; simpl; [set_solver|].
  destruct (cmp x y) eqn:E.
  - rewrite (Hk y) by (done || left). set_solver.
  - set_solver.
  - rewrite !elem_of_cons, IH by (by eapply keyed_cons). tauto.
Qed.

Lemma btree_insert_sorted x l : keyed x l -> sorted l -> sorted (btree_insert x l).
Proof.
  intros Hk Hl. induction Hl as [|y l Hl IH Hy]; simpl; [by repeat constructor|].
  destruct (cmp x y) eqn:E; [by constructor| |].
  - constructor; [by constructor|]. constructor; [done|].
    eapply Forall_impl; [exact Hy|]. intros z. by apply above_trans.
  - apply keyed_cons in Hk. constructor; [by apply IH|]. apply Forall_forall. intros z.
    rewrite elem_of_btree_insert by done. intros [->|Hz]; [by apply cmp_gt in E|].
    by apply (proj1 (Forall_forall _ _) Hy).
Qed.

Lemma btree_remove_spec x l : sorted l -> keyed x l ->
  sorted (btree_remove x l) /\ forall z, z ∈ btree_remove x l <-> z ∈ l /\ z <> x.
Proof.
  intros Hl. induction Hl as [|y l Hl IH Hy]; intros Hk; simpl; [split; [constructor|set_solver]|].
  destruct (IH (keyed_cons _ _ _ Hk)) as [IH1 IH2].
  assert (Hrec : cmp x y <> Eq -> sorted (y :: btree_remove x l) /\
    forall z, z ∈ y :: btree_remove x l <-> z ∈ y :: l /\ z <> x).
  { intros E. assert (y <> x) by (intros ->; apply E; by apply cmp_eq). split.
    - constructor; [done|]. apply Forall_forall. intros z [Hz _]%IH2.
      by apply (proj1 (Forall_forall _ _) Hy).
    - intros z. rewrite !elem_of_cons, IH2. split; [|tauto]. intros [->|[]]; tauto. }
  destruct (cmp x y) eqn:E; [|by apply Hrec..].
  split; [done|]. intros z. rewrite elem_of_cons.
  assert (y = x) as -> by (apply Hk; [left|done]). split; [|intros [[->|] ?]; done].
  intros Hz. split; [by right|]. intros ->. eapply above_irrefl, (proj1 (Forall_forall _ _) Hy), Hz.
Qed.

(** The last element is the best. *)
Lemma sorted_best l x : sorted (l ++ [x]) -> forall y, y ∈ l -> above y x.
Proof.
  induction l as [|z l IH]; intros Hs y Hy; [set_solver|].
  simpl in Hs. apply StronglySorted_inv in Hs as [Hs Hz].
  apply elem_of_cons in Hy as [->|Hy]; [|by apply IH].
  apply (proj1 (Forall_forall _ _) Hz). set_solver.
Qed.
Lemma sorted_snoc l x : sorted (l ++ [x]) -> sorted l.
Proof.
  induction l as [|z l IH]; intros Hs; [constructor|].
  simpl in Hs. apply StronglySorted_inv in Hs as [Hs Hz]. constructor; [by apply IH|].
  apply Forall_app in Hz. tauto.
Qed.

(** What is assumed of the transactions: a rank that puts what a transaction
    requires before what it provides, what the transaction with a given hash
    requires and provides, and what else is known of all of them. *)
Class TxShape := {
  rank : TxMarker -> nat;
  shape : Z -> list TxMarker * list TxMarker;
  admissible : PoolTransaction -> Prop;
}.

Section spec.
Context {TS : TxShape}.

Definition single (t : PoolTransaction) : Prop :=
  exists m, provides t = [m] /\
  (requires t = [] \/ exists m', requires t = [m'] /\ (rank m' < rank m)%nat).
Record tx_ok (t : PoolTransaction) : Prop := mkTxOk {
  to_single : single t;
  to_shape : (requires t, provides t) = shape (hash t);
  to_admissible : admissible t;
}.

Lemma single_requires_ne t m : single t -> requires t = [m] -> provides t <> [m].
Proof. intros (p & -> & [->|(q & -> & Hr)]) [= ->] [= ->]. lia. Qed.
Lemma shape_provides t t' : tx_ok t -> tx_ok t' -> hash t = hash t' ->
  provides t = provides t' /\ requires t = requires t'.
Proof. intros [_ H _] [_ H' _] Hh. rewrite Hh, <- H' in H. by simplify_eq. Qed.

(** ** The ready queue *)

(** Nothing in the queue has to come first. *)
Definition free (x : ReadyTransaction) : Prop :=
  requires (rt_transaction x) = [] \/ 1 <= requires_offset x.

#[global] Instance free_dec x : Decision (free x) := _.

(** The queue is well-formed, but for links of the transactions [orphans]. *)
Record ready_wf (orphans : Z -> Prop) (r : ReadyTransactions.t) : Prop := mkReadyWf {
  rw_tx h x : ReadyTransactions.ready_tx r !! h = Some x ->
    hash (rt_transaction x) = h /\ tx_ok (rt_transaction x) /\ 0 <= requires_offset x;
  rw_provided m h : ReadyTransactions.provided_markers r !! m = Some h <->
    exists x, ReadyTransactions.ready_tx r !! h = Some x /\ rt_provides x = [m];
  rw_linked h x m : ReadyTransactions.ready_tx r !! h = Some x ->
    requires (rt_transaction x) = [m] -> requires_offset x = 0 ->
    orphans h \/ exists k y, ReadyTransactions.ready_tx r !! k = Some y /\
      rt_provides y = [m] /\ h ∈ unlocks y;
  rw_unlocks h x k : ReadyTransactions.ready_tx r !! h = Some x -> k ∈ unlocks x ->
    (shape k).1 = rt_provides x /\
    forall y, ReadyTransactions.ready_tx r !! k = Some y -> requires_offset y = 0;
  rw_sorted : sorted (ReadyTransactions.independent_transactions r);
  rw_independent e : e ∈ ReadyTransactions.independent_transactions r <->
    exists h x, ReadyTransactions.ready_tx r !! h = Some x /\ transaction x = e /\ free x;
  rw_id h x : ReadyTransactions.ready_tx r !! h = Some x ->
    0 <= rf_id (transaction x) < ReadyTransactions.id r;
  rw_id_inj h x k y : ReadyTransactions.ready_tx r !! h = Some x ->
    ReadyTransactions.ready_tx r !! k = Some y ->
    rf_id (transaction x) = rf_id (transaction y) -> h = k;
  rw_id_range : 0 <= ReadyTransactions.id r;
}.

Lemma ready_wf_default : ready_wf (fun _ => False) ReadyTransactions.t_default.
Proof.
  split; simpl; try (intros *; rewrite lookup_empty; done); [|constructor| |lia].
  - intros m h. split; [done|]. intros (x & Hx & _). by rewrite lookup_empty in Hx.
  - intros e. split; [by intros ?%elem_of_nil|]. intros (h & x & Hx & _). by rewrite lookup_empty in Hx.
Qed.

Section ready.
Context {orphans : Z -> Prop} (r : ReadyTransactions.t) (Hr : ready_wf orphans r).

Lemma ready_single h x : ReadyTransactions.ready_tx r !! h = Some x -> single (rt_transaction x).
Proof. intros Hx. by destruct (rw_tx _ _ Hr h x Hx) as (_ & [? _ _] & _). Qed.

(** One transaction per marker. *)
Lemma provider_unique h k x y m : ReadyTransactions.ready_tx r !! h = Some x ->
  ReadyTransactions.ready_tx r !! k = Some y -> rt_provides x = [m] -> rt_provides y = [m] -> h = k.
Proof.
  intros Hx Hy Px Py.
  assert (ReadyTransactions.provided_markers r !! m = Some h) by (apply (rw_provided _ _ Hr); eauto).
  assert (ReadyTransactions.provided_markers r !! m = Some k) by (apply (rw_provided _ _ Hr); eauto).
  congruence.
Qed.

Lemma independent_keyed h x : ReadyTransactions.ready_tx r !! h = Some x ->
  keyed (transaction x) (ReadyTransactions.independent_transactions r).
Proof.
  intros Hx e He Hc. apply (rw_independent _ _ Hr) in He as (k & y & Hy & <- & _).
  apply cmp_eq in Hc as [_ Hid]. pose proof (rw_id_inj _ _ Hr _ _ _ _ Hx Hy Hid) as <-. congruence.
Qed.

(** No transaction unlocks what it requires. *)
Lemma unlocks_not_self h x : ReadyTransactions.ready_tx r !! h = Some x -> h ∉ unlocks x.
Proof.
  intros Hx Hin. destruct (rw_tx _ _ Hr h x Hx) as (Hh & [Hs Hsh _] & _).
  destruct (rw_unlocks _ _ Hr h x h Hx Hin) as [Hsh2 _]. rewrite Hh in Hsh. rewrite <- Hsh in Hsh2.
  simpl in Hsh2. destruct (Hs) as (m & Hp & _). unfold rt_provides in Hsh2. rewrite Hp in Hsh2.
  by eapply single_requires_ne.
Qed.

Lemma remove_unlock_id h x : ReadyTransactions.ready_tx r !! h = Some x -> remove_unlock h x = x.
Proof.
  intros Hx. unfold remove_unlock.
  destruct (list_find (fun i => i = h) (unlocks x)) as [[i k]|] eqn:E; [|done].
  apply list_find_Some in E as (Hk & -> & _). apply list_elem_of_lookup_2 in Hk.
  by apply unlocks_not_self in Hk.
Qed.
End ready.

Lemma remove_unlock_subseteq h x k : k ∈ unlocks (remove_unlock h x) -> k ∈ unlocks x.
Proof.
  unfold remove_unlock. destruct (list_find _ _) as [[i j]|]; [|done]. simpl. unfold swap_remove.
  destruct (last (unlocks x)) as [l|] eqn:El; [|done]. intros Hk.
  apply elem_of_take in Hk as (n & Hn & _). apply list_lookup_insert_Some in Hn as [(_ & <- & _)|[_ Hn]].
  - apply last_Some in El as [l' ->]. set_solver.
  - by eapply list_elem_of_lookup_2.
Qed.

Lemma elem_of_remove_unlock h x k : k ∈ unlocks x -> k <> h -> k ∈ unlocks (remove_unlock h x).
Proof.
  intros Hk Hne. unfold remove_unlock. destruct (list_find _ _) as [[i j]|] eqn:E; [|done].
  apply list_find_Some in E as (Hi & -> & _). simpl. unfold swap_remove.
  destruct (last (unlocks x)) as [l|] eqn:El; [|done]. apply last_Some in El as [l' El].
  pose proof (lookup_lt_Some _ _ _ Hi) as Hlt. rewrite El in *. rewrite length_app in *. simpl in *.
  apply list_elem_of_lookup in Hk as [n Hn].
  assert (n <> i) by (intros ->; congruence).
  apply list_elem_of_lookup. destruct (decide (n = length l')) as [->|Hnl].
  - rewrite lookup_app_r, Nat.sub_diag in Hn by lia. simpl in Hn. injection Hn as ->.
    exists i. rewrite lookup_take, decide_True by lia. apply list_lookup_insert_eq. rewrite length_app. simpl. lia.
  - exists n. assert (n < length (l' ++ [l]))%nat by (by eapply lookup_lt_Some).
    rewrite length_app in *. simpl in *. rewrite lookup_take, decide_True by lia. by rewrite list_lookup_insert_ne.
Qed.

Lemma ready_wf_weaken (P Q : Z -> Prop) r :
  ready_wf P r -> (forall h x, ReadyTransactions.ready_tx r !! h = Some x -> P h -> Q h) -> ready_wf Q r.
Proof.
  intros [] HPQ. split; try done. intros h x m Hx Hq Ho.
  destruct (rw_linked0 h x m Hx Hq Ho) as [HP|]; [left; by eapply HPQ|by right].
Qed.

(** *** Removal *)

Lemma remove_found_eq orphans r f h x m : ready_wf orphans r ->
  ReadyTransactions.ready_tx r !! h = Some x -> rt_provides x = [m] ->
  ReadyTransactions.remove_found f r h x =
    (ReadyTransactions.mk (ReadyTransactions.id r)
       (if ReadyTransactions.outside f m then delete m (ReadyTransactions.provided_markers r)
        else ReadyTransactions.provided_markers r)
       (delete h (ReadyTransactions.ready_tx r))
       (btree_remove (transaction x) (ReadyTransactions.independent_transactions r)),
     ReadyTransactions.outside f m).
Proof.
  intros Hr Hx Hp. unfold ReadyTransactions.remove_found. rewrite Hp.
  assert (Hinv : filter (fun m => ReadyTransactions.outside f m = true) [m] =
    if ReadyTransactions.outside f m then [m] else []).
  { rewrite filter_cons, filter_nil. destruct (ReadyTransactions.outside f m); by case_decide. }
  rewrite Hinv. set (prov := foldl _ (ReadyTransactions.provided_markers r) _).
  assert (Hprov : prov = if ReadyTransactions.outside f m
    then delete m (ReadyTransactions.provided_markers r) else ReadyTransactions.provided_markers r).
  { unfold prov. by destruct (ReadyTransactions.outside f m). }
  rewrite <- Hprov. f_equal; [f_equal|by destruct (ReadyTransactions.outside f m)].
  destruct (ready_single r Hr h x Hx) as (p & _ & [->|(m' & -> & _)]); simpl; [done|].
  destruct (prov !! m') as [k|]; [|done].
  destruct (delete h (ReadyTransactions.ready_tx r) !! k) as [y|] eqn:Ey; [|done].
  pose proof Ey as [_ Ey']%lookup_delete_Some. rewrite (remove_unlock_id r Hr k y Ey').
  by apply insert_id.
Qed.

Definition without (r : ReadyTransactions.t) (h : Z) (x : ReadyTransaction) (m : TxMarker) :=
  ReadyTransactions.mk (ReadyTransactions.id r) (delete m (ReadyTransactions.provided_markers r))
    (delete h (ReadyTransactions.ready_tx r))
    (btree_remove (transaction x) (ReadyTransactions.independent_transactions r)).

Lemma without_wf orphans r h x m : ready_wf orphans r ->
  ReadyTransactions.ready_tx r !! h = Some x -> rt_provides x = [m] ->
  ready_wf (fun k => orphans k \/ k ∈ unlocks x) (without r h x m).
Proof.
  intros Hr Hx Hp.
  destruct (btree_remove_spec _ _ (rw_sorted _ _ Hr) (independent_keyed r Hr h x Hx)) as [Hs Hi].
  split; unfold without; simpl; [| | | |done| | | |apply Hr].
  - intros k y [_ Hy]%lookup_delete_Some. by apply (rw_tx _ _ Hr).
  - intros n k. rewrite lookup_delete_Some, (rw_provided _ _ Hr). setoid_rewrite lookup_delete_Some.
    split.
    + intros (Hne & y & Hy & Py). exists y. split; [|done]. split; [|done].
      intros <-. rewrite Hx in Hy. simplify_eq. by rewrite Hp in Py; simplify_eq.
    + intros (y & (Hne & Hy) & Py). split; [|by exists y]. intros <-.
      apply Hne. by eapply (provider_unique r Hr).
  - intros k y n [Hne Hy]%lookup_delete_Some Hq Ho.
    destruct (rw_linked _ _ Hr k y n Hy Hq Ho) as [?|(k' & z & Hz & Pz & Hin)]; [by left; left|].
    destruct (decide (k' = h)) as [->|Hk']; [left; right; by rewrite Hx in Hz; simplify_eq|].
    right. exists k', z. by rewrite lookup_delete_ne.
  - intros k y n [Hne Hy]%lookup_delete_Some Hin. destruct (rw_unlocks _ _ Hr k y n Hy Hin) as [Hsh Ho].
    split; [done|]. intros z [_ Hz]%lookup_delete_Some. by apply Ho.
  - intros e. rewrite Hi, (rw_independent _ _ Hr). setoid_rewrite lookup_delete_Some. split.
    + intros ((k & y & Hy & <- & Hf) & Hne). exists k, y. split_and!; [|done..].
      intros <-. apply Hne. congruence.
    + intros (k & y & (Hne & Hy) & <- & Hf). split; [by exists k, y|]. intros He.
      apply Hne. eapply (rw_id_inj _ _ Hr); [exact Hx|exact Hy|by rewrite He].
  - intros k y [_ Hy]%lookup_delete_Some. by apply (rw_id _ _ Hr k).
  - intros k y k' y' [_ Hy]%lookup_delete_Some [_ Hy']%lookup_delete_Some.
    by apply (rw_id_inj _ _ Hr k y k' y').
Qed.

Lemma remove_loop_cons f fuel r removed h hs :
  ReadyTransactions.remove_loop f fuel r removed (h :: hs) =
  match ReadyTransactions.ready_tx r !! h with
  | None => ReadyTransactions.remove_loop f fuel r removed hs
  | Some tx =>
      match fuel with
      | O => Diverge
      | S fuel =>
          let '(r, b) := ReadyTransactions.remove_found f r h tx in
          ReadyTransactions.remove_loop f fuel r (removed ++ [rt_transaction tx])
            (if b then reverse (unlocks tx) ++ hs else hs)
      end
  end.
Proof. by destruct fuel. Qed.
Lemma remove_loop_nil f fuel r removed :
  ReadyTransactions.remove_loop f fuel r removed [] = Val (r, removed).
Proof. by destruct fuel. Qed.

(** What removing leaves: part of the queue. *)
Definition shrinks (r r' : ReadyTransactions.t) : Prop :=
  ReadyTransactions.ready_tx r' ⊆ ReadyTransactions.ready_tx r /\
  ReadyTransactions.provided_markers r' ⊆ ReadyTransactions.provided_markers r /\
  ReadyTransactions.id r' = ReadyTransactions.id r.

Lemma remove_loop_spec fuel r removed hs : ready_wf (fun k => k ∈ hs) r ->
  (size (ReadyTransactions.ready_tx r) <= fuel)%nat ->
  exists r' l, ReadyTransactions.remove_loop None fuel r removed hs = Val (r', removed ++ l) /\
    ready_wf (fun _ => False) r' /\ shrinks r r' /\
    forall h, h ∈ hs -> ReadyTransactions.ready_tx r' !! h = None.
Proof.
  revert r removed hs. induction fuel as [|fuel IH].
  - intros r removed hs Hr Hsz. assert (He : ReadyTransactions.ready_tx r = ∅) by (apply map_size_empty_iff; lia).
    exists r, []. rewrite app_nil_r. split; [|split; [|split; [done|]]].
    + induction hs as [|h hs IHh]; [apply remove_loop_nil|]. rewrite remove_loop_cons, He, lookup_empty.
      apply IHh. eapply ready_wf_weaken; [exact Hr|]. intros k x. by rewrite He, lookup_empty.
    + eapply ready_wf_weaken; [exact Hr|]. intros k x. by rewrite He, lookup_empty.
    + intros h _. by rewrite He, lookup_empty.
  - intros r removed hs. revert r removed. induction hs as [|h hs IHh]; intros r removed Hr Hsz.
    { exists r, []. rewrite app_nil_r, remove_loop_nil. split; [done|]. split; [|split; [done|set_solver]].
      eapply ready_wf_weaken; [exact Hr|]. set_solver. }
    rewrite remove_loop_cons. destruct (ReadyTransactions.ready_tx r !! h) as [x|] eqn:Hx.
    + pose proof (ready_single r Hr h x Hx) as (m & Hp & _).
      rewrite (remove_found_eq _ r None h x m Hr Hx Hp). simpl. fold (without r h x m).
      pose proof (without_wf _ r h x m Hr Hx Hp) as Hw.
      destruct (IH (without r h x m) (removed ++ [rt_transaction x]) (reverse (unlocks x) ++ hs))
        as (r' & l & -> & Hr' & (H1 & H2 & H3) & Hn).
      * eapply ready_wf_weaken; [exact Hw|]. intros k y Hy. simpl in Hy.
        apply lookup_delete_Some in Hy as [Hne _].
        rewrite elem_of_cons, elem_of_app, elem_of_reverse. intros [[->|?]|?]; [done|by right|by left].
      * simpl. rewrite map_size_delete_Some by eauto. lia.
      * exists r', (rt_transaction x :: l). rewrite <- app_assoc. split; [done|]. split; [done|].
        split; [split_and!; [|etrans; [exact H2|apply delete_subseteq]|done]|].
        -- etrans; [exact H1|apply delete_subseteq].
        -- intros k [->|Hk]%elem_of_cons; [|by apply Hn; set_solver].
           apply eq_None_not_Some. intros [y Hy]. eapply lookup_weaken in Hy; [|exact H1].
           simpl in Hy. by rewrite lookup_delete_eq in Hy.
    + destruct (IHh r removed) as (r' & l & -> & Hr' & Hs & Hn); [|done|].
      { eapply ready_wf_weaken; [exact Hr|]. intros k x Hk [->|?]%elem_of_cons; [congruence|done]. }
      exists r', l. split_and!; [done|done|apply Hs..|]. intros k [->|Hk]%elem_of_cons; [|by apply Hn].
      apply eq_None_not_Some. intros [y Hy]. eapply lookup_weaken in Hy; [|apply Hs]. congruence.
Qed.

Lemma remove_with_markers_spec r hs : ready_wf (fun _ => False) r ->
  exists r' l, ReadyTransactions.remove_with_markers r hs None = Val (r', l) /\
    ready_wf (fun _ => False) r' /\ shrinks r r' /\
    forall h, h ∈ hs -> ReadyTransactions.ready_tx r' !! h = None.
Proof.
  intros Hr. destruct (remove_loop_spec (size (ReadyTransactions.ready_tx r)) r [] (reverse hs))
    as (r' & l & H1 & H2 & H3 & H4); [by eapply ready_wf_weaken; [exact Hr|]|done|].
  exists r', l. split_and!; [done|done|apply H3..|]. intros h Hh. apply H4. by rewrite elem_of_reverse.
Qed.

(** *** Insertion *)

(** What linking the transaction [t] to its provider makes of the queue. *)
Record links (r : ReadyTransactions.t) (t : PoolTransaction) (R : gmap Z ReadyTransaction)
  (ind : bool) (off : Z) : Prop := mkLinks {
  lk_back j z : R !! j = Some z -> exists y, ReadyTransactions.ready_tx r !! j = Some y /\
    transaction z = transaction y /\ requires_offset z = requires_offset y /\
    (forall k, k ∈ unlocks y -> k ∈ unlocks z) /\
    (forall k, k ∈ unlocks z -> k ∈ unlocks y \/ k = hash t /\ requires t = rt_provides y);
  lk_forth j y : ReadyTransactions.ready_tx r !! j = Some y -> exists z, R !! j = Some z /\
    transaction z = transaction y /\ requires_offset z = requires_offset y /\
    (forall k, k ∈ unlocks y -> k ∈ unlocks z);
  lk_kind :
    ind = true /\ requires t = [] /\ off = 0 \/
    ind = true /\ off = 1 /\ (forall k y, ReadyTransactions.ready_tx r !! k = Some y ->
      rt_provides y <> requires t) \/
    ind = false /\ off = 0 /\ exists m k z, requires t = [m] /\ R !! k = Some z /\
      rt_provides z = [m] /\ hash t ∈ unlocks z;
}.

Lemma links_same r t ind off :
  ind = true /\ requires t = [] /\ off = 0 \/
  ind = true /\ off = 1 /\ (forall k y, ReadyTransactions.ready_tx r !! k = Some y ->
    rt_provides y <> requires t) -> links r t (ReadyTransactions.ready_tx r) ind off.
Proof. intros H. split; [| |tauto]; intros j y Hy; exists y; split_and!; auto. Qed.

(** The loop over [requires] makes these links; its provider is looked up in
    a map that may have a stale entry for the transaction's own marker. *)
Lemma link_spec orphans r t m provided : ready_wf orphans r -> tx_ok t -> provides t = [m] ->
  (forall n, n <> m -> provided !! n = ReadyTransactions.provided_markers r !! n) ->
  exists R ind off, foldl (ReadyTransactions.link (hash t) provided)
    (Val (ReadyTransactions.ready_tx r, true, 0)) (requires t) = Val (R, ind, off) /\
    links r t R ind off.
Proof.
  intros Hr [Hs _ _] Hp Hpr. pose proof (single_requires_ne t) as Hne.
  destruct Hs as (m0 & Hp0 & Hs). rewrite Hp in Hp0. injection Hp0 as <-.
  destruct Hs as [Hq|(m' & Hq & Hlt)]; rewrite Hq; simpl.
  { eexists _, _, _. split; [done|]. apply links_same. tauto. }
  rewrite Hpr by (intros ->; lia). destruct (ReadyTransactions.provided_markers r !! m') as [k|] eqn:Ek.
  - pose proof Ek as Ek'. apply (rw_provided _ _ Hr) in Ek' as (y & Hy & Py). rewrite Hy. simpl.
    eexists _, _, _. split; [done|]. split.
    + intros j z. rewrite lookup_insert. case_decide as Hj; [intros [= <-]; subst j|intros Hz].
      * exists y. simpl. split_and!; try done; [set_solver|]. intros i. rewrite elem_of_app, list_elem_of_singleton.
        intros [?| ->]; [by left|]. right. by rewrite Py.
      * exists z. split_and!; auto.
    + intros j z Hz. destruct (decide (k = j)) as [<-|Hj].
      * exists (set_unlocks y (unlocks y ++ [hash t])). rewrite lookup_insert_eq.
        rewrite Hy in Hz. injection Hz as <-. split_and!; [done..|]. simpl. set_solver.
      * exists z. rewrite lookup_insert_ne by done. split_and!; auto.
    + right; right. split; [done|]. split; [done|]. eexists m', k, _. rewrite lookup_insert_eq.
      split_and!; [done|done|done|]. simpl. set_solver.
  - eexists _, _, _. split; [done|]. apply links_same. right. split_and!; [done|done|].
    intros k y Hy Py. assert (ReadyTransactions.provided_markers r !! m' = Some k); [|congruence].
    apply (rw_provided _ _ Hr). exists y. by rewrite Py, Hq.
Qed.

Lemma same_tx z y : transaction z = transaction y ->
  rt_transaction z = rt_transaction y /\ rt_provides z = rt_provides y.
Proof. intros E. unfold rt_provides, rt_transaction. by rewrite E. Qed.

Lemma same_free z y : transaction z = transaction y -> requires_offset z = requires_offset y ->
  free z <-> free y.
Proof. intros Et Eo. unfold free. by rewrite Eo, (proj1 (same_tx _ _ Et)). Qed.

Section insertion.
Context (r : ReadyTransactions.t) (t : PoolTransaction) (u : list Z) (m : TxMarker).
Context (R : gmap Z ReadyTransaction) (ind : bool) (off : Z).
Context (Hr : ready_wf (fun k => k ∈ u) r) (Ht : tx_ok t) (Hp : provides t = [m]).
Context (Hh : ReadyTransactions.ready_tx r !! hash t = None).
Context (Hm : ReadyTransactions.provided_markers r !! m = None).
Context (Hu : forall k, k ∈ u -> (shape k).1 = [m] /\
  forall y, ReadyTransactions.ready_tx r !! k = Some y -> requires_offset y = 0).
Context (HL : links r t R ind off).

Abbreviation new := (mkPoolTransactionRef t (ReadyTransactions.id r)).
Abbreviation entry := (mkReadyTransaction new u off).
Abbreviation R1 := (<[hash t := entry]> R).

Lemma entry_free : free entry <-> ind = true.
Proof.
  unfold free, rt_transaction. simpl.
  destruct (lk_kind _ _ _ _ _ HL) as [(-> & -> & ->)|[(-> & -> & _)|(-> & -> & n & k & z & -> & _)]].
  - tauto.
  - split; [done|]. right. lia.
  - split; [|done]. intros [|]; [done|lia].
Qed.

Lemma off_nonneg : 0 <= off.
Proof. destruct (lk_kind _ _ _ _ _ HL) as [(_ & _ & ->)|[(_ & -> & _)|(_ & -> & _)]]; lia. Qed.

(** A transaction of the new queue is the new one or an old one. *)
Lemma inserted_back j z : R1 !! j = Some z -> j = hash t /\ z = entry \/
  j <> hash t /\ exists y, ReadyTransactions.ready_tx r !! j = Some y /\ transaction z = transaction y /\
    requires_offset z = requires_offset y /\
    (forall k, k ∈ unlocks z -> k ∈ unlocks y \/ k = hash t /\ requires t = rt_provides y).
Proof.
  rewrite lookup_insert. case_decide as Hj; [intros [= <-]; by left|]. intros Hz. right.
  split; [done|]. destruct (lk_back _ _ _ _ _ HL _ _ Hz) as (y & Hy & Et & Eo & _ & Hk). by exists y.
Qed.

Lemma inserted_forth j y : ReadyTransactions.ready_tx r !! j = Some y -> exists z, R1 !! j = Some z /\
  transaction z = transaction y /\ requires_offset z = requires_offset y /\
  (forall k, k ∈ unlocks y -> k ∈ unlocks z).
Proof.
  intros Hy. destruct (lk_forth _ _ _ _ _ HL _ _ Hy) as (z & Hz & ?). exists z.
  rewrite lookup_insert_ne by congruence. done.
Qed.

Lemma inserted_provided n h : <[m := hash t]> (ReadyTransactions.provided_markers r) !! n = Some h <->
  exists x, R1 !! h = Some x /\ rt_provides x = [n].
Proof.
  split.
  - rewrite lookup_insert. case_decide as Hn.
    + intros [= <-]. exists entry. rewrite lookup_insert_eq. split; [done|]. unfold rt_provides. simpl. by subst.
    + intros (y & Hy & Py)%(rw_provided _ _ Hr). destruct (inserted_forth h y Hy) as (z & Hz & Et & _).
      exists z. split; [done|]. by destruct (same_tx _ _ Et) as [_ ->].
  - intros (x & Hx & Px). apply inserted_back in Hx as [[-> ->]|(Hne & y & Hy & Et & _)].
    + unfold rt_provides, rt_transaction in Px. simpl in Px. rewrite Hp in Px. injection Px as <-. apply lookup_insert_eq.
    + destruct (same_tx _ _ Et) as [_ Ep]. rewrite Ep in Px.
      assert (ReadyTransactions.provided_markers r !! n = Some h) by (apply (rw_provided _ _ Hr); by exists y).
      rewrite lookup_insert_ne; [done|congruence].
Qed.

(** What waited for a replaced transaction waits for the new one. *)
Lemma inserted_linked h x n : R1 !! h = Some x -> requires (rt_transaction x) = [n] ->
  requires_offset x = 0 -> exists k y, R1 !! k = Some y /\ rt_provides y = [n] /\ h ∈ unlocks y.
Proof.
  intros Hx Hq Ho. apply inserted_back in Hx as [[-> ->]|(Hne & y & Hy & Et & Eo & _)].
  - unfold rt_transaction in Hq. simpl in *.
    destruct (lk_kind _ _ _ _ _ HL) as [(_ & Hq' & _)|[(_ & -> & _)|(_ & _ & n' & k & z & Hq' & Hz & Pz & Hin)]];
      [by rewrite Hq' in Hq|lia|]. rewrite Hq in Hq'. injection Hq' as <-. exists k, z.
    rewrite lookup_insert_ne; [done|]. intros <-.
    destruct (lk_back _ _ _ _ _ HL _ _ Hz) as (y & Hy & _). congruence.
  - destruct (same_tx _ _ Et) as [Et' _]. rewrite Et' in Hq.
    destruct (rw_linked _ _ Hr h y n Hy Hq) as [Hku|(k & y' & Hy' & Py' & Hin)]; [by rewrite <- Eo| |].
    + exists (hash t), entry. rewrite lookup_insert_eq. split; [done|]. split; [|done].
      destruct (Hu h Hku) as [Hk _]. destruct (rw_tx _ _ Hr h y Hy) as (Hhy & [_ Hshy _] & _).
      rewrite Hhy in Hshy. rewrite <- Hshy in Hk. simpl in Hk. unfold rt_provides, rt_transaction in *. simpl. congruence.
    + destruct (inserted_forth k y' Hy') as (z & Hz & Et2 & _ & Hsub). exists k, z. split; [done|].
      destruct (same_tx _ _ Et2) as [_ ->]. split; [done|by apply Hsub].
Qed.

Lemma inserted_unlocks h x k : R1 !! h = Some x -> k ∈ unlocks x ->
  (shape k).1 = rt_provides x /\ forall y, R1 !! k = Some y -> requires_offset y = 0.
Proof.
  assert (Hreq : requires t <> [m]) by (intros Hq; by eapply (single_requires_ne t m (to_single _ Ht))).
  pose proof (to_shape _ Ht) as Hsh. intros Hx Hk.
  apply inserted_back in Hx as [[-> ->]|(Hne & y & Hy & Et & _ & Hb)].
  - simpl in *. destruct (Hu k Hk) as [Hk1 Hk2]. split; [unfold rt_provides, rt_transaction; simpl; congruence|].
    intros y [[-> _]|(_ & z & Hz & _ & -> & _)]%inserted_back; [|by apply Hk2].
    rewrite <- Hsh in Hk1. done.
  - destruct (same_tx _ _ Et) as [_ ->].
    destruct (Hb k Hk) as [Hk'|[-> Hq]].
    + destruct (rw_unlocks _ _ Hr h y k Hy Hk') as [H1 H2]. split; [done|].
      intros z [[-> ->]|(_ & z' & Hz' & _ & -> & _)]%inserted_back; [|by apply H2].
      rewrite <- Hsh in H1. simpl in *.
      destruct (lk_kind _ _ _ _ _ HL) as [(_ & _ & ->)|[(_ & _ & Hno)|(_ & -> & _)]]; [done| |done].
      by destruct (Hno h y Hy).
    + rewrite <- Hsh. split; [done|]. intros z [[_ ->]|(Hn & _)]%inserted_back; [|done]. simpl.
      destruct (lk_kind _ _ _ _ _ HL) as [(_ & _ & ->)|[(_ & _ & Hno)|(_ & -> & _)]]; [done| |done].
      by destruct (Hno h y Hy).
Qed.

Lemma inserted_keyed : keyed new (ReadyTransactions.independent_transactions r).
Proof.
  intros e He [_ Hid]%cmp_eq. apply (rw_independent _ _ Hr) in He as (k & y & Hy & <- & _).
  pose proof (rw_id _ _ Hr k y Hy). simpl in Hid. lia.
Qed.

Lemma inserted_independent e :
  e ∈ (if ind then btree_insert new (ReadyTransactions.independent_transactions r)
       else ReadyTransactions.independent_transactions r) <->
  exists h x, R1 !! h = Some x /\ transaction x = e /\ free x.
Proof.
  assert (He : e ∈ (if ind then btree_insert new (ReadyTransactions.independent_transactions r)
      else ReadyTransactions.independent_transactions r) <->
    (ind = true /\ e = new) \/ e ∈ ReadyTransactions.independent_transactions r).
  { destruct ind; [rewrite elem_of_btree_insert by apply inserted_keyed|]; intuition done. }
  rewrite He, (rw_independent _ _ Hr). split.
  - intros [[Hi ->]|(k & y & Hy & <- & Hf)].
    + exists (hash t), entry. rewrite lookup_insert_eq. split; [done|]. split; [done|]. by apply entry_free.
    + destruct (inserted_forth k y Hy) as (z & Hz & Et & Eo & _). exists k, z.
      split; [done|]. split; [done|]. by rewrite (same_free z y).
  - intros (k & x & Hx & <- & Hf). apply inserted_back in Hx as [[-> ->]|(Hne & y & Hy & Et & Eo & _)].
    + left. split; [by apply entry_free|done].
    + right. exists k, y. split; [done|]. split; [done|]. by rewrite <- (same_free x y).
Qed.

Lemma inserted_id h x : R1 !! h = Some x -> 0 <= rf_id (transaction x) < ReadyTransactions.id r + 1.
Proof.
  pose proof (rw_id_range _ _ Hr). intros [[-> ->]|(_ & y & Hy & -> & _)]%inserted_back; [simpl; lia|].
  pose proof (rw_id _ _ Hr h y Hy). lia.
Qed.

Lemma inserted_id_inj h x k y : R1 !! h = Some x -> R1 !! k = Some y ->
  rf_id (transaction x) = rf_id (transaction y) -> h = k.
Proof.
  intros [[-> ->]|(_ & x' & Hx & -> & _)]%inserted_back [[-> ->]|(_ & y' & Hy & -> & _)]%inserted_back; simpl.
  - done.
  - pose proof (rw_id _ _ Hr k y' Hy). lia.
  - pose proof (rw_id _ _ Hr h x' Hx). lia.
  - by apply (rw_id_inj _ _ Hr).
Qed.

Lemma insert_wf : ready_wf (fun _ => False) (ReadyTransactions.mk (ReadyTransactions.id r + 1)
  (<[m := hash t]> (ReadyTransactions.provided_markers r)) R1
  (if ind then btree_insert new (ReadyTransactions.independent_transactions r)
   else ReadyTransactions.independent_transactions r)).
Proof.
  split; simpl.
  - intros k x [[-> ->]|(_ & y & Hy & Et & -> & _)]%inserted_back.
    + simpl. pose proof off_nonneg. done.
    + destruct (same_tx _ _ Et) as [-> _]. by apply (rw_tx _ _ Hr).
  - exact inserted_provided.
  - intros h x n Hx Hq Ho. right. by eapply inserted_linked.
  - exact inserted_unlocks.
  - destruct ind; [|apply Hr]. apply btree_insert_sorted; [apply inserted_keyed|apply Hr].
  - exact inserted_independent.
  - exact inserted_id.
  - exact inserted_id_inj.
  - pose proof (rw_id_range _ _ Hr). lia.
Qed.
End insertion.

(** Replacing a transaction takes just that one out. *)
Lemma replaced_spec r t m : ready_wf (fun _ => False) r -> tx_ok t -> provides t = [m] ->
  match ReadyTransactions.provided_markers r !! m with
  | None => ReadyTransactions.replaced_transactions r t = Val (inl ([], []), r)
  | Some h => exists x, ReadyTransactions.ready_tx r !! h = Some x /\ rt_provides x = [m] /\
      (ReadyTransactions.replaced_transactions r t = Val (inr (ReplacementUnderpriced t), r) \/
       ReadyTransactions.replaced_transactions r t = Val (inl ([rt_transaction x], unlocks x),
         ReadyTransactions.set_provided (without r h x m) (ReadyTransactions.provided_markers r)))
  end.
Proof.
  intros Hr Ht Hp. unfold ReadyTransactions.replaced_transactions. rewrite Hp. simpl.
  destruct (ReadyTransactions.provided_markers r !! m) as [h|] eqn:Hm; simpl.
  2:{ by rewrite bool_decide_true. }
  apply (rw_provided _ _ Hr) in Hm as (x & Hx & Px). exists x. split; [done|]. split; [done|].
  rewrite (right_id_L ∅ (∪)), bool_decide_false by set_solver. rewrite elements_singleton. simpl.
  rewrite Hx. simpl. rewrite Px, bool_decide_true by done. simpl.
  destruct (gas_price t <=? rt_gas_price x); [by left|right]. cbn [orb].
  unfold ReadyTransactions.remove_with_markers. rewrite reverse_singleton.
  destruct (size (ReadyTransactions.ready_tx r)) as [|n] eqn:Hn.
  { apply map_size_empty_inv in Hn. by rewrite Hn, lookup_empty in Hx. }
  rewrite remove_loop_cons, Hx, (remove_found_eq _ r _ h x m Hr Hx Px).
  unfold ReadyTransactions.outside. rewrite bool_decide_true by set_solver. cbn [negb].
  rewrite remove_loop_nil. simpl. by rewrite app_nil_r.
Qed.

(** What adding a transaction does to the queue. *)
Record ready_grown (r : ReadyTransactions.t) (t : PoolTransaction) (r' : ReadyTransactions.t)
  (replaced : list PoolTransaction) : Prop := mkReadyGrown {
  rg_wf : ready_wf (fun _ => False) r';
  rg_in : is_Some (ReadyTransactions.ready_tx r' !! hash t);
  rg_dom h : is_Some (ReadyTransactions.ready_tx r' !! h) ->
    h = hash t \/ is_Some (ReadyTransactions.ready_tx r !! h);
  rg_keep h : is_Some (ReadyTransactions.ready_tx r !! h) ->
    is_Some (ReadyTransactions.ready_tx r' !! h) \/ exists t', t' ∈ replaced /\ hash t' = h;
  rg_provided n : is_Some (ReadyTransactions.provided_markers r' !! n) ->
    n ∈ provides t \/ is_Some (ReadyTransactions.provided_markers r !! n);
  rg_id : ReadyTransactions.id r' = ReadyTransactions.id r + 1;
  rg_replaced t' : t' ∈ replaced -> provides t' = provides t /\ exists h x,
    ReadyTransactions.ready_tx r !! h = Some x /\ rt_transaction x = t';
}.

Lemma add_grows r0 r t u m R ind off :
  ready_wf (fun k => k ∈ u) r -> tx_ok t -> provides t = [m] ->
  ReadyTransactions.ready_tx r !! hash t = None ->
  ReadyTransactions.provided_markers r !! m = None ->
  (forall k, k ∈ u -> (shape k).1 = [m] /\
    forall y, ReadyTransactions.ready_tx r !! k = Some y -> requires_offset y = 0) ->
  links r t R ind off -> shrinks r0 r -> forall replaced,
  (forall t', t' ∈ replaced -> provides t' = provides t /\ exists h x,
    ReadyTransactions.ready_tx r0 !! h = Some x /\ rt_transaction x = t') ->
  (forall h, is_Some (ReadyTransactions.ready_tx r0 !! h) -> is_Some (ReadyTransactions.ready_tx r !! h) \/
    exists t', t' ∈ replaced /\ hash t' = h) ->
  ready_grown r0 t (ReadyTransactions.mk (ReadyTransactions.id r + 1)
    (<[m := hash t]> (ReadyTransactions.provided_markers r))
    (<[hash t := mkReadyTransaction (mkPoolTransactionRef t (ReadyTransactions.id r)) u off]> R)
    (if ind then btree_insert (mkPoolTransactionRef t (ReadyTransactions.id r))
       (ReadyTransactions.independent_transactions r)
     else ReadyTransactions.independent_transactions r)) replaced.
Proof.
  intros Hr Ht Hp Hh Hm Hu HL (HR & HP & Hid) replaced Hrep Hkeep. split; simpl.
  - by apply insert_wf.
  - by rewrite lookup_insert_eq.
  - intros k. rewrite lookup_insert. case_decide; [by left|]. intros [z Hz]. right.
    destruct (lk_back _ _ _ _ _ HL _ _ Hz) as (y & Hy & _). exists y. by eapply lookup_weaken.
  - intros k [[y Hy]|?]%Hkeep; [left|by right]. rewrite lookup_insert. case_decide; [done|].
    destruct (lk_forth _ _ _ _ _ HL _ _ Hy) as (z & Hz & _). by exists z.
  - intros n. rewrite lookup_insert, Hp. case_decide as Hn; [left; by apply list_elem_of_singleton|].
    intros [k Hk]. right. exists k. by eapply lookup_weaken.
  - by rewrite Hid.
  - done.
Qed.

Lemma ready_add_spec r pp : ready_wf (fun _ => False) r ->
  is_ready pp = true -> tx_ok (pp_transaction pp) ->
  ReadyTransactions.ready_tx r !! hash (pp_transaction pp) = None ->
  ReadyTransactions.id r < u64_max ->
  exists out r', ReadyTransactions.add_transaction r pp = Val (out, r') /\
  match out with
  | inl replaced => ready_grown r (pp_transaction pp) r' replaced
  | inr e => r' = r /\ exists m, provides (pp_transaction pp) = [m] /\
      is_Some (ReadyTransactions.provided_markers r !! m)
  end.
Proof.
  intros Hr Hrd Ht Hh Hid. unfold ReadyTransactions.add_transaction, ReadyTransactions.contains.
  set (t := pp_transaction pp) in *. rewrite Hrd, Hh. simpl. pose proof Ht as [(m & Hp & _) _ _].
  assert (Hw : wrap64 (ReadyTransactions.id r + 1) = ReadyTransactions.id r + 1)
    by (pose proof (rw_id_range _ _ Hr); apply wrap64_id; rlia).
  pose proof (replaced_spec r t m Hr Ht Hp) as Hrep.
  destruct (ReadyTransactions.provided_markers r !! m) as [h|] eqn:Hm.
  - destruct Hrep as (x & Hx & Px & [->| ->]); simpl.
    { eexists _, _. split; [done|]. split; [done|]. exists m. by rewrite Hm. }
    pose proof (without_wf _ r h x m Hr Hx Px) as Hwo.
    destruct (link_spec _ (without r h x m) t m (ReadyTransactions.provided_markers r) Hwo Ht Hp)
      as (R & ind & off & HL & Hlinks); [intros n Hn; simpl; by rewrite lookup_delete_ne|].
    simpl in HL. rewrite HL. simpl. rewrite Hp, Hw. simpl. eexists _, _. split; [done|].
    rewrite <- insert_delete_eq. eapply (add_grows r (without r h x m)); try done; simpl.
    + eapply ready_wf_weaken; [exact Hwo|]. intros k y _ [[]|]. done.
    + rewrite lookup_delete_ne; [done|]. intros ->. congruence.
    + by rewrite lookup_delete_eq.
    + intros k Hk. destruct (rw_unlocks _ _ Hr h x k Hx Hk) as [-> Ho]. split; [done|].
      intros y [_ Hy]%lookup_delete_Some. by apply Ho.
    + split_and!; [apply delete_subseteq..|done].
    + intros t' ->%list_elem_of_singleton. split; [unfold rt_provides in Px; by rewrite Px|]. by exists h, x.
    + intros k [y Hy]. destruct (decide (k = h)) as [->|Hk]; [right|left; exists y; by rewrite lookup_delete_ne].
      exists (rt_transaction x). split; [set_solver|]. by destruct (rw_tx _ _ Hr h x Hx) as (-> & _).
  - rewrite Hrep. simpl.
    destruct (link_spec _ r t m (ReadyTransactions.provided_markers r) Hr Ht Hp)
      as (R & ind & off & HL & Hlinks); [done|].
    rewrite HL. simpl. rewrite Hp, Hw. simpl. eexists _, _. split; [done|].
    eapply (add_grows r r); try done; [|set_solver|set_solver|by left].
    eapply ready_wf_weaken; [exact Hr|done].
Qed.

(** *** Pruning *)

(** What pruning the transaction [x] makes of the others. *)
Record pruned (r : ReadyTransactions.t) (h : Z) (x : ReadyTransaction)
  (R : gmap Z ReadyTransaction) (I : list PoolTransactionRef) : Prop := mkPruned {
  pn_back j z : R !! j = Some z -> j <> h /\ exists y,
    ReadyTransactions.ready_tx r !! j = Some y /\ transaction z = transaction y /\
    (forall k, k ∈ unlocks z -> k ∈ unlocks y) /\
    (forall k, k ∈ unlocks y -> k <> h -> k ∈ unlocks z) /\
    (j ∉ unlocks x -> requires_offset z = requires_offset y) /\
    (j ∈ unlocks x -> 1 <= requires_offset z);
  pn_forth j : is_Some (ReadyTransactions.ready_tx r !! j) -> j <> h -> is_Some (R !! j);
  pn_sorted : sorted I;
  pn_independent e : e ∈ I <->
    (e ∈ ReadyTransactions.independent_transactions r /\ e <> transaction x) \/
    exists j y, j ∈ unlocks x /\ ReadyTransactions.ready_tx r !! j = Some y /\ e = transaction y;
}.

Section pruning.
Context (r : ReadyTransactions.t) (h : Z) (x : ReadyTransaction) (m : TxMarker).
Context (R : gmap Z ReadyTransaction) (I : list PoolTransactionRef).
Context (Hr : ready_wf (fun _ => False) r).
Context (Hx : ReadyTransactions.ready_tx r !! h = Some x) (Hp : rt_provides x = [m]).
Context (HP : pruned r h x R I).

(** Another transaction is still there. *)
Lemma pruned_old j y : ReadyTransactions.ready_tx r !! j = Some y -> j <> h ->
  exists z, R !! j = Some z /\ transaction z = transaction y /\
    (forall k, k ∈ unlocks y -> k <> h -> k ∈ unlocks z) /\
    (j ∉ unlocks x -> requires_offset z = requires_offset y) /\ (j ∈ unlocks x -> 1 <= requires_offset z).
Proof.
  intros Hy Hne. destruct (pn_forth _ _ _ _ _ HP j) as [z Hz]; [by eexists|done|]. exists z.
  destruct (pn_back _ _ _ _ _ HP j z Hz) as (_ & y' & Hy' & Et & _ & ? & ? & ?).
  rewrite Hy in Hy'. by injection Hy' as <-.
Qed.

Lemma pruned_provided n j : delete m (ReadyTransactions.provided_markers r) !! n = Some j <->
  exists z, R !! j = Some z /\ rt_provides z = [n].
Proof.
  rewrite lookup_delete_Some, (rw_provided _ _ Hr). split.
  - intros (Hne & y & Hy & Py). destruct (pruned_old j y Hy) as (z & Hz & Et & _); [intros ->; congruence|].
    exists z. split; [done|]. by rewrite (proj2 (same_tx _ _ Et)).
  - intros (z & Hz & Pz). destruct (pn_back _ _ _ _ _ HP j z Hz) as (Hne & y & Hy & Et & _).
    rewrite (proj2 (same_tx _ _ Et)) in Pz. split; [|by exists y].
    intros <-. apply Hne. by eapply (provider_unique r Hr).
Qed.

Lemma pruned_linked j z n : R !! j = Some z -> requires (rt_transaction z) = [n] ->
  requires_offset z = 0 -> exists k y, R !! k = Some y /\ rt_provides y = [n] /\ j ∈ unlocks y.
Proof.
  intros Hz Hq Ho. destruct (pn_back _ _ _ _ _ HP j z Hz) as (Hjh & y & Hy & Et & _ & _ & Ho1 & Ho2).
  rewrite (proj1 (same_tx _ _ Et)) in Hq.
  destruct (decide (j ∈ unlocks x)) as [Hj|Hj]; [specialize (Ho2 Hj); lia|]. specialize (Ho1 Hj).
  destruct (rw_linked _ _ Hr j y n Hy Hq) as [[]|(k & w & Hw & Pw & Hin)]; [lia|].
  destruct (pruned_old k w Hw) as (w' & Hw' & Ew & Hsub & _); [intros ->; rewrite Hx in Hw; simplify_eq; done|].
  exists k, w'. rewrite (proj2 (same_tx _ _ Ew)). split_and!; [done..|by apply Hsub].
Qed.

Lemma pruned_unlocks j z k : R !! j = Some z -> k ∈ unlocks z ->
  (shape k).1 = rt_provides z /\ forall w, R !! k = Some w -> requires_offset w = 0.
Proof.
  intros Hz Hk. destruct (pn_back _ _ _ _ _ HP j z Hz) as (Hjh & y & Hy & Et & Hsub & _).
  rewrite (proj2 (same_tx _ _ Et)). destruct (rw_unlocks _ _ Hr j y k Hy (Hsub k Hk)) as [Hsh Ho].
  split; [done|]. intros w Hw. destruct (pn_back _ _ _ _ _ HP k w Hw) as (_ & w' & Hw' & _ & _ & _ & Ho1 & _).
  rewrite Ho1; [by apply Ho|]. intros Hkx. destruct (rw_unlocks _ _ Hr h x k Hx Hkx) as [Hsh' _].
  apply Hjh. eapply (provider_unique r Hr); [exact Hy|exact Hx| |exact Hp]. congruence.
Qed.

Lemma pruned_independent e : e ∈ I <-> exists j z, R !! j = Some z /\ transaction z = e /\ free z.
Proof.
  rewrite (pn_independent _ _ _ _ _ HP), (rw_independent _ _ Hr). split.
  - intros [[(j & y & Hy & <- & Hf) Hne]|(j & y & Hj & Hy & ->)].
    + destruct (pruned_old j y Hy) as (z & Hz & Et & _ & Ho1 & Ho2); [intros ->; congruence|].
      exists j, z. split_and!; [done..|]. destruct (decide (j ∈ unlocks x)); [right; by apply Ho2|].
      rewrite (same_free z y); [done|done|by apply Ho1].
    + destruct (pruned_old j y Hy) as (z & Hz & Et & _ & _ & Ho2);
        [intros ->; by apply (unlocks_not_self r Hr) in Hj|].
      exists j, z. split_and!; [done..|]. right. by apply Ho2.
  - intros (j & z & Hz & <- & Hf). destruct (pn_back _ _ _ _ _ HP j z Hz) as (Hjh & y & Hy & Et & _ & _ & Ho1 & _).
    rewrite Et. destruct (decide (j ∈ unlocks x)) as [Hj|Hj]; [right; by exists j, y|left]. split.
    + exists j, y. split_and!; [done..|]. by rewrite <- (same_free z y); [|done|apply Ho1].
    + intros E. apply Hjh. eapply (rw_id_inj _ _ Hr); [exact Hy|exact Hx|]. by rewrite E.
Qed.

Lemma prune_wf : ready_wf (fun _ => False) (ReadyTransactions.mk (ReadyTransactions.id r)
  (delete m (ReadyTransactions.provided_markers r)) R I).
Proof.
  split; simpl; [|exact pruned_provided| |exact pruned_unlocks|apply HP|exact pruned_independent| | |apply Hr].
  - intros j z Hz. destruct (pn_back _ _ _ _ _ HP j z Hz) as (_ & y & Hy & Et & _ & _ & Ho & Ho').
    rewrite (proj1 (same_tx _ _ Et)). destruct (rw_tx _ _ Hr j y Hy) as (? & ? & ?). split; [done|]. split; [done|].
    destruct (decide (j ∈ unlocks x)) as [Hj|Hj]; [specialize (Ho' Hj); lia|by rewrite Ho].
  - intros j z n Hz Hq Ho. right. by eapply pruned_linked.
  - intros j z Hz. destruct (pn_back _ _ _ _ _ HP j z Hz) as (_ & y & Hy & -> & _). by apply (rw_id _ _ Hr j).
  - intros j z k w Hz Hw. destruct (pn_back _ _ _ _ _ HP j z Hz) as (_ & y & Hy & -> & _).
    destruct (pn_back _ _ _ _ _ HP k w Hw) as (_ & y' & Hy' & -> & _). by apply (rw_id_inj _ _ Hr).
Qed.
End pruning.

(** What counting one more requirement of the transactions [l] does. *)
Record counted (l : list Z) (R : gmap Z ReadyTransaction) (I : list PoolTransactionRef)
  (R' : gmap Z ReadyTransaction) (I' : list PoolTransactionRef) : Prop := mkCounted {
  ct_back j z : R' !! j = Some z -> exists y, R !! j = Some y /\ transaction z = transaction y /\
    unlocks z = unlocks y /\ (j ∉ l -> requires_offset z = requires_offset y) /\
    requires_offset y <= requires_offset z /\ (j ∈ l -> 1 <= requires_offset z);
  ct_forth j : is_Some (R !! j) -> is_Some (R' !! j);
  ct_sorted : sorted I';
  ct_independent e : e ∈ I' <-> e ∈ I \/ exists j y, j ∈ l /\ R !! j = Some y /\ e = transaction y;
}.

Lemma counted_nil R I : sorted I -> counted [] R I R I.
Proof.
  intros Hs. split; [|done|done|].
  - intros j z Hz. exists z. split_and!; try done. by intros ?%elem_of_nil.
  - intros e. split; [by left|]. intros [?|(j & y & ?%elem_of_nil & _)]; done.
Qed.

Lemma counted_cons h l R I R1 I1 R2 I2 :
  counted [h] R I R1 I1 -> counted l R1 I1 R2 I2 -> counted (h :: l) R I R2 I2.
Proof.
  intros H1 H2. split; [| |apply H2|].
  - intros j z Hz. destruct (ct_back _ _ _ _ _ H2 j z Hz) as (y1 & Hy1 & E1 & U1 & N1 & L1 & O1).
    destruct (ct_back _ _ _ _ _ H1 j y1 Hy1) as (y & Hy & E & U & N & L & O). exists y.
    split; [done|]. split; [congruence|]. split; [congruence|]. split; [|split; [lia|]].
    + intros Hj. rewrite N1, N by set_solver. done.
    + intros [->|Hj]%elem_of_cons; [|by apply O1]. specialize (O (list_elem_of_here _ _)). lia.
  - intros j Hj. by apply (ct_forth _ _ _ _ _ H2), (ct_forth _ _ _ _ _ H1).
  - intros e. rewrite (ct_independent _ _ _ _ _ H2), (ct_independent _ _ _ _ _ H1). split.
    + intros [[?|(j & y & ->%list_elem_of_singleton & Hy & ->)]|(j & y1 & Hj & Hy1 & ->)];
        [by left|right; exists h, y; split; [left|done]|].
      destruct (ct_back _ _ _ _ _ H1 j y1 Hy1) as (y & Hy & -> & _). right. exists j, y. split; [by right|done].
    + intros [?|(j & y & [->|Hj]%elem_of_cons & Hy & ->)]; [by left; left|left; right; exists h, y; set_solver|].
      destruct (ct_forth _ _ _ _ _ H1 j) as [y1 Hy1]; [by eexists|]. right. exists j, y1.
      destruct (ct_back _ _ _ _ _ H1 j y1 Hy1) as (y' & Hy' & -> & _). rewrite Hy in Hy'. by injection Hy' as <-.
Qed.

(** The set [I] has no two transactions of the same priority and id, nor
    would it with those of [R]; those of [l] have one requirement, and are in
    [I] if it was counted before. *)
Record countable (l : list Z) (R : gmap Z ReadyTransaction) (I : list PoolTransactionRef) : Prop := mkCountable {
  cb_keyed j z e : R !! j = Some z ->
    (e ∈ I \/ exists k y, R !! k = Some y /\ e = transaction y) ->
    cmp (transaction z) e = Eq -> e = transaction z;
  cb_one j z : j ∈ l -> R !! j = Some z -> length (requires (rt_transaction z)) = 1%nat /\
    (requires_offset z = 0 \/ 1 <= requires_offset z /\ transaction z ∈ I);
}.

Lemma prune_unlock_spec h R I : sorted I -> countable [h] R I ->
  exists R' I', ReadyTransactions.prune_unlock (R, I) h = (R', I') /\ counted [h] R I R' I'.
Proof.
  intros Hs Hc. unfold ReadyTransactions.prune_unlock. destruct (R !! h) as [x|] eqn:Hx.
  2:{ exists R, I. split; [done|]. split; [|done|done|].
      - intros j z Hz. exists z. split_and!; try done. intros ->%list_elem_of_singleton. congruence.
      - intros e. split; [by left|]. intros [?|(j & y & ->%list_elem_of_singleton & Hy & _)]; [done|congruence]. }
  destruct (cb_one _ _ _ Hc h x (list_elem_of_here _ _) Hx) as [Hlen Hoff].
  set (x' := mkReadyTransaction (transaction x) (unlocks x) (requires_offset x + 1)).
  change (rt_transaction x') with (rt_transaction x). rewrite Hlen. simpl.
  assert (Hkx : keyed (transaction x) I) by (intros e He; apply (cb_keyed _ _ _ Hc h x e Hx); by left).
  eexists _, _. split; [done|]. split.
  - intros j z. rewrite lookup_insert. case_decide as Hj.
    + intros [= <-]. subst. exists x. split_and!; try done; simpl; [set_solver|lia|].
      intros _. destruct Hoff as [?|[? _]]; lia.
    + intros Hz. exists z. split_and!; try done. by intros ->%list_elem_of_singleton.
  - intros j Hj. rewrite lookup_insert. by case_decide.
  - case_match; [by apply btree_insert_sorted|done].
  - intros e. transitivity (e = transaction x \/ e ∈ I).
    + destruct (Z.eqb_spec (requires_offset x + 1) (Z.of_nat 1)) as [E|E]; [by apply elem_of_btree_insert|].
      destruct Hoff as [?|[? ?]]; [lia|]. split; [by right|]. by intros [->|].
    + split; [intros [->|?]; [right; exists h, x; set_solver|by left]|].
      intros [?|(j & y & ->%list_elem_of_singleton & Hy & ->)]; [by right|left; congruence].
Qed.

(** The loop over what the pruned transaction unlocks. *)
Lemma prune_unlocks_spec l R I : sorted I -> countable l R I ->
  exists R' I', foldl ReadyTransactions.prune_unlock (R, I) l = (R', I') /\ counted l R I R' I'.
Proof.
  revert R I. induction l as [|h l IH]; intros R I Hs Hc; cbn [foldl].
  { exists R, I. split; [done|]. by apply counted_nil. }
  destruct (prune_unlock_spec h R I Hs) as (R1 & I1 & -> & H1).
  { split; [apply Hc|]. intros j z ->%list_elem_of_singleton. apply Hc. left. }
  destruct (IH R1 I1) as (R2 & I2 & E & H2); [apply H1| |exists R2, I2; split; [done|by eapply counted_cons]].
  split.
  - intros j z e Hz He. destruct (ct_back _ _ _ _ _ H1 j z Hz) as (y & Hy & -> & _).
    apply (cb_keyed _ _ _ Hc j y e Hy). destruct He as [He|(k & w & Hw & ->)].
    + apply (ct_independent _ _ _ _ _ H1) in He as [?|(k & w & _ & Hw & ->)]; [by left|right; by exists k, w].
    + destruct (ct_back _ _ _ _ _ H1 k w Hw) as (w' & Hw' & -> & _). right. by exists k, w'.
  - intros j z Hj Hz. destruct (ct_back _ _ _ _ _ H1 j z Hz) as (y & Hy & Et & _ & N & _ & O).
    destruct (cb_one _ _ _ Hc j y) as [Hlen Hoff]; [by right|done|].
    rewrite (proj1 (same_tx _ _ Et)). split; [done|]. rewrite Et.
    destruct (decide (j = h)) as [->|Hne].
    + right. split; [apply O; left|]. apply (ct_independent _ _ _ _ _ H1). right. exists h, y. set_solver.
    + rewrite N by set_solver. destruct Hoff as [?|[? ?]]; [by left|right]. split; [done|].
      apply (ct_independent _ _ _ _ _ H1). by left.
Qed.

(** The loop over what the pruned transaction requires: its provider may lose
    a link to it. *)
Lemma previous_spec r h x m stack : ready_wf (fun _ => False) r ->
  ReadyTransactions.ready_tx r !! h = Some x -> rt_provides x = [m] ->
  exists R stack', foldl (ReadyTransactions.previous_markers h
      (delete m (ReadyTransactions.provided_markers r)))
    (delete h (ReadyTransactions.ready_tx r), stack) (requires (rt_transaction x)) = (R, stack') /\
  (forall j, is_Some (R !! j) <-> is_Some (ReadyTransactions.ready_tx r !! j) /\ j <> h) /\
  (forall j z, R !! j = Some z -> exists y, ReadyTransactions.ready_tx r !! j = Some y /\
    transaction z = transaction y /\ requires_offset z = requires_offset y /\
    (forall k, k ∈ unlocks z -> k ∈ unlocks y) /\
    (forall k, k ∈ unlocks y -> k <> h -> k ∈ unlocks z)).
Proof.
  intros Hr Hx Hp.
  assert (Hdel : forall j, is_Some (delete h (ReadyTransactions.ready_tx r) !! j) <->
    is_Some (ReadyTransactions.ready_tx r !! j) /\ j <> h).
  { intros j. rewrite lookup_delete_is_Some. naive_solver. }
  assert (Hid : forall stack' : list TxMarker, exists R stack'', (delete h (ReadyTransactions.ready_tx r), stack') = (R, stack'') /\
    (forall j, is_Some (R !! j) <-> is_Some (ReadyTransactions.ready_tx r !! j) /\ j <> h) /\
    (forall j z, R !! j = Some z -> exists y, ReadyTransactions.ready_tx r !! j = Some y /\
      transaction z = transaction y /\ requires_offset z = requires_offset y /\
      (forall k, k ∈ unlocks z -> k ∈ unlocks y) /\ (forall k, k ∈ unlocks y -> k <> h -> k ∈ unlocks z))).
  { intros stack'. eexists _, _. split; [done|]. split; [done|].
    intros j z [_ Hz]%lookup_delete_Some. exists z. split_and!; auto. }
  destruct (ready_single r Hr h x Hx) as (_ & _ & [->|(m' & -> & _)]); simpl; [apply Hid|].
  destruct (delete m (ReadyTransactions.provided_markers r) !! m') as [k|]; simpl; [|apply Hid].
  destruct (delete h (ReadyTransactions.ready_tx r) !! k) as [y|] eqn:Ey; simpl; [|apply Hid].
  eexists _, _. split; [done|]. pose proof Ey as [Hkh Ey']%lookup_delete_Some. split.
  - intros j. rewrite <- Hdel, lookup_insert. case_decide as Hj; [|done]. subst. by rewrite Ey.
  - intros j z. rewrite lookup_insert. case_decide as Hj.
    + intros [= <-]. subst. exists y. split; [done|].
      assert (Heq : transaction (remove_unlock h y) = transaction y /\
        requires_offset (remove_unlock h y) = requires_offset y)
        by (unfold remove_unlock; by destruct (list_find _ _) as [[]|]).
      destruct Heq. split_and!; try done.
      * apply remove_unlock_subseteq.
      * intros i. by apply elem_of_remove_unlock.
    + intros [_ Hz]%lookup_delete_Some. exists z. split_and!; auto.
Qed.

Lemma prune_found_spec r h x m stack : ready_wf (fun _ => False) r ->
  ReadyTransactions.ready_tx r !! h = Some x -> rt_provides x = [m] ->
  exists r' stack', ReadyTransactions.prune_found
      (ReadyTransactions.set_provided r (delete m (ReadyTransactions.provided_markers r))) m stack h x =
    Val (r', stack') /\ ready_wf (fun _ => False) r' /\
  dom (ReadyTransactions.ready_tx r') = dom (ReadyTransactions.ready_tx r) ∖ {[ h ]} /\
  ReadyTransactions.provided_markers r' = delete m (ReadyTransactions.provided_markers r) /\
  ReadyTransactions.id r' = ReadyTransactions.id r.
Proof.
  intros Hr Hx Hp. unfold ReadyTransactions.prune_found. simpl.
  destruct (rw_tx _ _ Hr h x Hx) as (-> & _ & _).
  destruct (previous_spec r h x m stack Hr Hx Hp) as (R1 & stack' & -> & Hd1 & Hb1).
  destruct (btree_remove_spec _ _ (rw_sorted _ _ Hr) (independent_keyed r Hr h x Hx)) as [Hs Hi].
  destruct (prune_unlocks_spec (unlocks x) R1
    (btree_remove (transaction x) (ReadyTransactions.independent_transactions r)))
    as (R2 & I2 & -> & [Hb2 Hf2 Hs2 Hi2]); [done|split|].
  - intros j z e Hz He. destruct (Hb1 j z Hz) as (y & Hy & -> & _).
    assert (He' : exists k w, ReadyTransactions.ready_tx r !! k = Some w /\ e = transaction w).
    { destruct He as [[He _]%Hi|(k & w & Hw & ->)].
      - apply (rw_independent _ _ Hr) in He as (k & w & Hw & <- & _). by exists k, w.
      - destruct (Hb1 k w Hw) as (w' & Hw' & -> & _). by exists k, w'. }
    destruct He' as (k & w & Hw & ->). intros [_ Hid]%cmp_eq.
    pose proof (rw_id_inj _ _ Hr _ _ _ _ Hy Hw Hid) as ->. congruence.
  - intros j z Hj Hz. destruct (Hb1 j z Hz) as (y & Hy & Et & -> & _).
    destruct (rw_unlocks _ _ Hr h x j Hx Hj) as [Hsh Ho]. split; [|left; by apply Ho].
    destruct (rw_tx _ _ Hr j y Hy) as (Hh & [_ Hsh' _] & _). rewrite Hh in Hsh'. rewrite <- Hsh', Hp in Hsh.
    simpl in Hsh. unfold rt_transaction in *. by rewrite Et, Hsh.
  - rewrite Hp. simpl. unfold ReadyTransactions.unprovide. simpl.
    rewrite (bool_decide_true (m = m)), lookup_delete_eq, bool_decide_true by done. simpl.
    rewrite delete_delete_eq. eexists _, _. split; [done|]. split; [|simpl; split_and!; [|done..]].
    + eapply prune_wf; try done. split.
      * intros j z Hz. destruct (Hb2 j z Hz) as (y & Hy & Et & Eu & Ho & _ & Ho').
        destruct (Hb1 j y Hy) as (w & Hw & Et' & Eo & Hsub & Hsup).
        split; [by apply (Hd1 j); eexists|]. exists w. rewrite Et, Eu, <- Eo. split_and!; try done.
      * intros j Hj Hne. apply Hf2. by apply Hd1.
      * done.
      * intros e. rewrite Hi2, Hi. split; (intros [?|(j & y & Hj & Hy & ->)]; [by left|right]).
        -- destruct (Hb1 j y Hy) as (w & Hw & -> & _). by exists j, w.
        -- assert (j <> h) by (intros ->; by apply (unlocks_not_self r Hr) in Hj).
           destruct (proj2 (Hd1 j)) as [z Hz]; [split; [by eexists|done]|].
           destruct (Hb1 j z Hz) as (w & Hw & Et & _). rewrite Hy in Hw. injection Hw as <-.
           exists j, z. by rewrite Et.
    + apply set_eq. intros j. rewrite elem_of_difference, elem_of_singleton, !elem_of_dom, <- Hd1.
      split; [intros [z Hz]; by destruct (Hb2 j z Hz) as (y & Hy & _); eexists|apply Hf2].
Qed.

Lemma prune_loop_cons fuel r removed marker stack :
  ReadyTransactions.prune_loop fuel r removed (marker :: stack) =
  match (h ← ReadyTransactions.provided_markers r !! marker;
         tx ← ReadyTransactions.ready_tx r !! h; Some (h, tx)) with
  | None => ReadyTransactions.prune_loop fuel (ReadyTransactions.set_provided r
      (delete marker (ReadyTransactions.provided_markers r))) removed stack
  | Some (h, tx) =>
      match fuel with
      | O => Diverge
      | S fuel =>
          '(r, stack) ← ReadyTransactions.prune_found (ReadyTransactions.set_provided r
            (delete marker (ReadyTransactions.provided_markers r))) marker stack h tx;
          ReadyTransactions.prune_loop fuel r (removed ++ [rt_transaction tx]) stack
      end
  end.
Proof. by destruct fuel. Qed.
Lemma prune_loop_nil fuel r removed :
  ReadyTransactions.prune_loop fuel r removed [] =
  Val (ReadyTransactions.set_provided r (ReadyTransactions.provided_markers r), removed).
Proof. by destruct fuel. Qed.

(** What pruning leaves. *)
Definition prunes (r r' : ReadyTransactions.t) : Prop :=
  dom (ReadyTransactions.ready_tx r') ⊆ dom (ReadyTransactions.ready_tx r) /\
  ReadyTransactions.provided_markers r' ⊆ ReadyTransactions.provided_markers r /\
  ReadyTransactions.id r' = ReadyTransactions.id r.

Lemma prune_loop_spec fuel r removed stack : ready_wf (fun _ => False) r ->
  (size (ReadyTransactions.ready_tx r) <= fuel)%nat ->
  exists r' l, ReadyTransactions.prune_loop fuel r removed stack = Val (r', removed ++ l) /\
    ready_wf (fun _ => False) r' /\ prunes r r' /\
    forall m, head stack = Some m -> ReadyTransactions.provided_markers r' !! m = None.
Proof.
  revert r removed stack. induction fuel as [|fuel IH]; intros r removed stack; revert r removed;
    induction stack as [|m stack IHs]; intros r removed Hr Hsz;
    rewrite ?prune_loop_nil, ?prune_loop_cons.
  1,3: exists r, []; rewrite app_nil_r; split; [by destruct r|]; split; [done|]; split; [done|done].
  all: destruct (ReadyTransactions.provided_markers r !! m) as [h|] eqn:Hm; cbn [mbind option_bind].
  2,4: rewrite delete_id by done;
    assert (ReadyTransactions.set_provided r (ReadyTransactions.provided_markers r) = r) as -> by (by destruct r);
    destruct (IHs r removed Hr Hsz) as (r' & l & -> & Hr' & Hp & _); exists r', l;
    (split; [done|]; split; [done|]; split; [done|]); intros n [= <-];
    apply eq_None_not_Some; intros [k Hk]; eapply lookup_weaken in Hk; [|apply Hp]; congruence.
  all: apply (rw_provided _ _ Hr) in Hm as (x & Hx & Px); rewrite Hx; cbn [mbind option_bind].
  - assert (He : ReadyTransactions.ready_tx r = ∅) by (apply map_size_empty_iff; lia).
    by rewrite He, lookup_empty in Hx.
  - destruct (prune_found_spec r h x m stack Hr Hx Px) as (r1 & stack' & -> & Hr1 & Hd & Hpr & Hid). simpl.
    destruct (IH r1 (removed ++ [rt_transaction x]) stack' Hr1) as (r' & l & -> & Hr' & (H1 & H2 & H3) & _).
    { rewrite <- !size_dom in *. rewrite Hd, size_difference, size_singleton; [lia|].
      apply singleton_subseteq_l, elem_of_dom. by eexists. }
    exists r', (rt_transaction x :: l). rewrite <- app_assoc. rewrite Hd in H1. rewrite Hpr in H2.
    split; [done|]. split; [done|]. split; [split_and!; [set_solver| |congruence]|].
    + etrans; [exact H2|apply delete_subseteq].
    + intros n [= <-]. apply eq_None_not_Some. intros [k Hk]. eapply lookup_weaken in Hk; [|exact H2].
      by rewrite lookup_delete_eq in Hk.
Qed.

Lemma prune_tags_spec r m : ready_wf (fun _ => False) r ->
  exists r' l, ReadyTransactions.prune_tags r m = Val (r', l) /\
    ready_wf (fun _ => False) r' /\ prunes r r' /\ ReadyTransactions.provided_markers r' !! m = None.
Proof.
  intros Hr. destruct (prune_loop_spec (size (ReadyTransactions.ready_tx r)) r [] [m])
    as (r' & l & H1 & H2 & H3 & H4); [done..|]. exists r', l. split_and!; try apply H3; auto.
Qed.

(** ** The order in which the block builder gets the transactions *)

(** A transaction can be yielded after those of [done]: it was not, and it is
    free or what it requires was. *)
Definition available (done : list PoolTransaction) (x : ReadyTransaction) : Prop :=
  rt_transaction x ∉ done /\
  (free x \/ exists t, t ∈ done /\ provides t = requires (rt_transaction x)).

(** The specification: the best of the available transactions, until none is. *)
Inductive greedy (R : gmap Z ReadyTransaction) : list PoolTransaction -> list PoolTransaction -> Prop :=
| greedy_nil done : (forall h x, R !! h = Some x -> ~ available done x) -> greedy R done []
| greedy_cons done h x l : R !! h = Some x -> available done x ->
    (forall k y, R !! k = Some y -> available done y -> k = h \/ above (transaction y) (transaction x)) ->
    greedy R (done ++ [rt_transaction x]) l -> greedy R done (rt_transaction x :: l).

Section iterator.
Context (r : ReadyTransactions.t) (Hr : ready_wf (fun _ => False) r).
Abbreviation R := (ReadyTransactions.ready_tx r).

Lemma ready_inj h k x y : R !! h = Some x -> R !! k = Some y ->
  rt_transaction x = rt_transaction y \/ transaction x = transaction y -> h = k.
Proof.
  intros Hx Hy [E|E].
  - destruct (rw_tx _ _ Hr h x Hx) as (<- & _). destruct (rw_tx _ _ Hr k y Hy) as (<- & _). by rewrite E.
  - eapply (rw_id_inj _ _ Hr); [exact Hx|exact Hy|by rewrite E].
Qed.

(** A transaction that is not free waits for the one that unlocks it. *)
Lemma not_free_linked h x : R !! h = Some x -> ~ free x ->
  exists k y, R !! k = Some y /\ rt_provides y = requires (rt_transaction x) /\ h ∈ unlocks y.
Proof.
  intros Hx Hf. destruct (rw_tx _ _ Hr h x Hx) as (_ & [Hs _ _] & Ho).
  destruct Hs as (m & _ & [Hq|(m' & Hq & _)]); [by destruct Hf; left|]. rewrite Hq.
  destruct (rw_linked _ _ Hr h x m' Hx Hq) as [[]|(k & y & Hy)]; [|by exists k, y].
  destruct (decide (requires_offset x = 0)); [done|]. destruct Hf. right. lia.
Qed.

(** And it is in the list of only that one. *)
Lemma unlocked_not_free h x k y : R !! h = Some x -> k ∈ unlocks x -> R !! k = Some y ->
  requires (rt_transaction y) = rt_provides x /\ ~ free y.
Proof.
  intros Hx Hk Hy. destruct (rw_unlocks _ _ Hr h x k Hx Hk) as [Hsh Ho].
  destruct (rw_tx _ _ Hr k y Hy) as (Hhy & [_ Hshy _] & _). rewrite Hhy in Hshy. rewrite <- Hshy in Hsh.
  simpl in Hsh. split; [done|]. destruct (ready_single r Hr h x Hx) as (m & Hp & _).
  unfold free. rewrite Hsh, (Ho y Hy). unfold rt_provides. rewrite Hp. intros [|]; [done|lia].
Qed.

Definition yielded_ok (done : list PoolTransaction) : Prop := forall t, t ∈ done ->
  exists h x, R !! h = Some x /\ rt_transaction x = t /\
    (free x \/ exists t', t' ∈ done /\ provides t' = requires t).

Record it_wf (done : list PoolTransaction) (it : TransactionsIterator.t) : Prop := mkItWf {
  iw_all : TransactionsIterator.all it = R;
  iw_awaiting : TransactionsIterator.awaiting it = ∅;
  iw_sorted : sorted (TransactionsIterator.independent it);
  iw_independent e : e ∈ TransactionsIterator.independent it <->
    exists h x, R !! h = Some x /\ transaction x = e /\ available done x;
}.

Lemma unlock_all_spec l ind : sorted ind ->
  (forall e, e ∈ ind -> exists h x, R !! h = Some x /\ transaction x = e) ->
  exists ind', foldl TransactionsIterator.unlock (TransactionsIterator.mk R ∅ ind) l =
    TransactionsIterator.mk R ∅ ind' /\ sorted ind' /\
    forall e, e ∈ ind' <-> e ∈ ind \/ exists k y, k ∈ l /\ R !! k = Some y /\ e = transaction y.
Proof.
  revert ind. induction l as [|k l IH]; intros ind Hs Hi; cbn [foldl].
  { exists ind. split_and!; [done|done|set_solver]. }
  unfold TransactionsIterator.unlock at 2. simpl. rewrite lookup_empty.
  destruct (R !! k) as [y|] eqn:Hy.
  - unfold TransactionsIterator.independent_or_awaiting.
    assert (Hlen : Z.of_nat (length (requires (rf_transaction (transaction y)))) <= requires_offset y + 1).
    { destruct (rw_tx _ _ Hr k y Hy) as (_ & [(m & _ & [Hq|(m' & Hq & _)]) _ _] & Ho);
        unfold rt_transaction in Hq; rewrite Hq; simpl; lia. }
    rewrite (proj2 (Z.leb_le _ _) Hlen). simpl.
    assert (Hk : keyed (transaction y) ind).
    { intros e (h & x & Hx & <-)%Hi [_ Hid]%cmp_eq. pose proof (rw_id_inj _ _ Hr _ _ _ _ Hy Hx Hid) as ->. congruence. }
    destruct (IH (btree_insert (transaction y) ind)) as (ind' & -> & Hs' & Hi').
    + by apply btree_insert_sorted.
    + intros e. rewrite elem_of_btree_insert by done. intros [->|?]; [by exists k, y|by apply Hi].
    + exists ind'. split_and!; [done|done|]. intros e. rewrite Hi', elem_of_btree_insert by done. split.
      * intros [[->|?]|(j & z & Hj & Hz & ->)]; [right; exists k, y|by left|right; exists j, z];
          split_and!; try done; [left|by right].
      * intros [?|(j & z & [->|Hj]%elem_of_cons & Hz & ->)]; [by left; right|left; left; congruence|].
        right. by exists j, z.
  - destruct (IH ind Hs Hi) as (ind' & -> & Hs' & Hi'). exists ind'. split_and!; [done|done|].
    intros e. rewrite Hi'. split; (intros [?|(j & z & Hj & Hz & ->)]; [by left|right; exists j, z]);
      split_and!; try done; [by right|]. apply elem_of_cons in Hj as [->|?]; [congruence|done].
Qed.

Lemma iter_ready_wf p : pool.ready_transactions p = r -> it_wf [] (pool.iter_ready p).
Proof.
  intros Hp. unfold pool.iter_ready. rewrite Hp. split; simpl; [done|done|apply Hr|].
  intros e. rewrite (rw_independent _ _ Hr).
  split; intros (h & x & Hx & He & Ha); exists h, x; (split; [done|]; split; [done|]).
  - split; [set_solver|by left].
  - destruct Ha as [_ [?|(t & Ht & _)]]; [done|set_solver].
Qed.

(** What becomes available when [x] was yielded: what it unlocks. *)
Section yielding.
Context (seen : list PoolTransaction) (h : Z) (x : ReadyTransaction) (ind : list PoolTransactionRef).
Context (Hseen : yielded_ok seen) (Hx : R !! h = Some x) (Hav : available seen x).
Context (Hs : sorted (ind ++ [transaction x])).
Context (Hi : forall e, e ∈ ind ++ [transaction x] <->
  exists k y, R !! k = Some y /\ transaction y = e /\ available seen y).

Lemma not_seen_snoc y : rt_transaction y ∉ seen ++ [rt_transaction x] <->
  rt_transaction y ∉ seen /\ rt_transaction y <> rt_transaction x.
Proof. by rewrite not_elem_of_app, list_elem_of_singleton. Qed.

Lemma provides_yielded j z : R !! j = Some z -> rt_provides z = rt_provides x -> z = x.
Proof.
  intros Hz Pz. destruct (ready_single r Hr h x Hx) as (m & Hpm & _).
  assert (j = h) as ->; [|congruence]. unfold rt_provides in *.
  apply (provider_unique r Hr j h z x m); unfold rt_provides; congruence.
Qed.

Lemma still_available e : e ∈ ind -> exists k y, R !! k = Some y /\ transaction y = e /\
  available (seen ++ [rt_transaction x]) y.
Proof.
  intros He. destruct (proj1 (Hi e)) as (k & y & Hy & <- & Hny & Hay); [set_solver|]. exists k, y.
  split; [done|]. split; [done|]. split.
  - apply not_seen_snoc. split; [done|]. intros Eq.
    pose proof (ready_inj _ _ _ _ Hy Hx (or_introl Eq)) as ->. rewrite Hx in Hy. injection Hy as <-.
    eapply above_irrefl, sorted_best; [exact Hs|exact He].
  - destruct Hay as [?|(t & Ht & Ep)]; [by left|right]. exists t. set_solver.
Qed.

Lemma unlocked_available k y : k ∈ unlocks x -> R !! k = Some y ->
  available (seen ++ [rt_transaction x]) y.
Proof.
  intros Hk Hy. destruct (unlocked_not_free h x k y Hx Hk Hy) as [Hq Hnf]. split.
  - apply not_seen_snoc. split.
    + intros Hin. destruct (Hseen _ Hin) as (j & z & Hz & Ez & Hav').
      pose proof (ready_inj _ _ _ _ Hz Hy (or_introl Ez)) as ->. rewrite Hy in Hz. injection Hz as <-.
      destruct Hav' as [?|(t' & Ht' & Ep)]; [done|]. rewrite Hq in Ep. apply (proj1 Hav).
      destruct (Hseen _ Ht') as (i & w & Hw & <- & _). by rewrite <- (provides_yielded i w Hw Ep).
    + intros Eq. pose proof (ready_inj _ _ _ _ Hy Hx (or_introl Eq)) as ->.
      by apply (unlocks_not_self r Hr) in Hk.
  - right. exists (rt_transaction x). split; [set_solver|]. by rewrite Hq.
Qed.

Lemma available_next k y : R !! k = Some y -> available (seen ++ [rt_transaction x]) y ->
  transaction y ∈ ind \/ k ∈ unlocks x.
Proof.
  intros Hy [[Hny Hne]%not_seen_snoc Hay].
  assert (Hold : available seen y -> transaction y ∈ ind).
  { intros Hav'. assert (He : transaction y ∈ ind ++ [transaction x]) by (apply Hi; by exists k, y).
    apply elem_of_app in He as [He|He%list_elem_of_singleton]; [done|].
    pose proof (ready_inj _ _ _ _ Hy Hx (or_intror He)) as ->. destruct Hne. congruence. }
  destruct (decide (free y)) as [Hf|Hf]; [left; apply Hold; split; [done|by left]|].
  destruct Hay as [?|(t & Ht & Ep)]; [done|]. apply elem_of_app in Ht as [Ht|Ht%list_elem_of_singleton].
  { left. apply Hold. split; [done|]. right. by exists t. }
  right. subst t. destruct (not_free_linked k y Hy Hf) as (j & z & Hz & Pz & Hin).
  rewrite (provides_yielded j z Hz) in Hin; [done|]. unfold rt_provides in *. congruence.
Qed.

Lemma yielded_best k y : R !! k = Some y -> available seen y -> k = h \/ above (transaction y) (transaction x).
Proof.
  intros Hy Hay. assert (He : transaction y ∈ ind ++ [transaction x]) by (apply Hi; by exists k, y).
  apply elem_of_app in He as [He|He%list_elem_of_singleton].
  - right. by eapply sorted_best.
  - left. eapply ready_inj; [exact Hy|exact Hx|by right].
Qed.
End yielding.

(** One step of the iterator is one step of the specification. *)
Lemma next_spec seen it : it_wf seen it -> yielded_ok seen ->
  (exists it', TransactionsIterator.next it = (None, it') /\
     forall h x, R !! h = Some x -> ~ available seen x) \/
  (exists h x it', TransactionsIterator.next it = (Some (rt_transaction x), it') /\
     R !! h = Some x /\ available seen x /\
     (forall k y, R !! k = Some y -> available seen y -> k = h \/ above (transaction y) (transaction x)) /\
     it_wf (seen ++ [rt_transaction x]) it').
Proof.
  intros [Ha Hw Hs Hi] Hd. destruct it as [all awaiting ind]. simpl in *. subst.
  unfold TransactionsIterator.next. simpl. destruct ind as [|e ind _] using rev_ind; simpl.
  { left. eexists. split; [done|]. intros h x Hx Hav. eapply elem_of_nil, Hi. by exists h, x. }
  rewrite reverse_app. simpl. destruct (proj1 (Hi e)) as (h & x & Hx & <- & Hav); [set_solver|].
  change (rf_transaction (transaction x)) with (rt_transaction x).
  destruct (rw_tx _ _ Hr h x Hx) as (Hh & _ & _). rewrite Hh, Hx, reverse_involutive.
  destruct (unlock_all_spec (unlocks x) ind) as (ind' & E & Hs' & Hi').
  { by eapply sorted_snoc. }
  { intros e He. destruct (proj1 (Hi e)) as (k & y & Hy & <- & _); [set_solver|]. by exists k, y. }
  right. exists h, x. eexists. split; [done|]. split; [done|]. split; [done|].
  split; [by eapply yielded_best|]. rewrite E. split; simpl; [done..|]. intros e. rewrite Hi'. split.
  - intros [He|(k & y & Hk & Hy & ->)]; [by eapply still_available|]. exists k, y.
    split; [done|]. split; [done|]. by eapply unlocked_available.
  - intros (k & y & Hy & <- & Hay).
    destruct (available_next _ _ _ _ Hx Hi k y Hy Hay); [by left|right; by exists k, y].
Qed.

Lemma yielded_snoc done h x : yielded_ok done -> R !! h = Some x -> available done x ->
  yielded_ok (done ++ [rt_transaction x]).
Proof.
  intros Hd Hx [_ Hav] t [Ht|Ht%list_elem_of_singleton]%elem_of_app.
  - destruct (Hd t Ht) as (k & y & Hy & E & [?|(t' & ? & ?)]); exists k, y; (split; [done|]; split; [done|]);
      [by left|right; exists t'; set_solver].
  - subst. exists h, x. split; [done|]. split; [done|].
    destruct Hav as [?|(t' & ? & ?)]; [by left|right; exists t'; set_solver].
Qed.

(** What is yielded once is at most what is ready. *)
Lemma yielded_size done : yielded_ok done -> NoDup done -> (length done <= size R)%nat.
Proof.
  intros Hd Hnd. rewrite <- size_dom, <- (length_fmap hash), <- (size_list_to_set (C := gset Z)).
  - apply subseteq_size. intros k. rewrite elem_of_list_to_set, elem_of_dom.
    intros (t & -> & Ht)%list_elem_of_fmap. destruct (Hd t Ht) as (h & x & Hx & <- & _).
    destruct (rw_tx _ _ Hr h x Hx) as (-> & _). by exists x.
  - apply NoDup_fmap_2_strong; [|done]. intros t t' Ht Ht' Eh.
    destruct (Hd t Ht) as (h & x & Hx & <- & _). destruct (Hd t' Ht') as (k & y & Hy & <- & _).
    destruct (rw_tx _ _ Hr h x Hx) as (Hh & _). destruct (rw_tx _ _ Hr k y Hy) as (Hk & _). congruence.
Qed.

Lemma collect_spec n seen it : it_wf seen it -> yielded_ok seen -> NoDup seen ->
  (size R <= n + length seen)%nat ->
  exists l, TransactionsIterator.collect n it = Val l /\ greedy R seen l /\
    yielded_ok (seen ++ l) /\ NoDup (seen ++ l) /\
    forall h x, R !! h = Some x -> ~ available (seen ++ l) x.
Proof.
  revert seen it. induction n as [|n IH]; intros seen it Hit Hd Hnd Hsz;
    (destruct (next_spec seen it Hit Hd) as [(it' & E & Hno)|(h & x & it' & E & Hx & Hav & Hbest & Hit')];
      [exists []; rewrite app_nil_r; split; [simpl; by rewrite E|]; split; [by apply greedy_nil|by split_and!]|]);
    pose proof (yielded_snoc seen h x Hd Hx Hav) as Hd';
    assert (Hnd' : NoDup (seen ++ [rt_transaction x]))
      by (apply NoDup_app; split_and!; [done| |apply NoDup_singleton];
          intros t Ht ->%list_elem_of_singleton; by apply (proj1 Hav)).
  - pose proof (yielded_size _ Hd' Hnd') as Hlen. rewrite length_app in Hlen. simpl in Hlen. lia.
  - destruct (IH _ it' Hit' Hd' Hnd') as (l & El & Hg & Hl & Hndl & Hno).
    { rewrite length_app. simpl. lia. }
    exists (rt_transaction x :: l). simpl. rewrite E, El. rewrite <- app_assoc in *. simpl in *.
    split_and!; try done. by econstructor.
Qed.

(** When nothing is available any more, everything was yielded. *)
Lemma all_yielded done : yielded_ok done ->
  (forall h x, R !! h = Some x -> ~ available done x) ->
  forall h x, R !! h = Some x -> rt_transaction x ∈ done.
Proof.
  intros Hd Hno.
  assert (H : forall n h x m, R !! h = Some x -> rt_provides x = [m] -> (rank m < n)%nat ->
    rt_transaction x ∈ done).
  { induction n as [|n IH]; intros h x m Hx Hp Hn; [lia|].
    destruct (decide (rt_transaction x ∈ done)) as [|Hni]; [done|]. exfalso.
    apply (Hno h x Hx). split; [done|]. destruct (decide (free x)) as [|Hf]; [by left|right].
    destruct (not_free_linked h x Hx Hf) as (k & y & Hy & Py & _). exists (rt_transaction y).
    split; [|done]. destruct (ready_single r Hr h x Hx) as (m2 & Hp2 & Hq).
    unfold rt_provides in Hp. rewrite Hp in Hp2. injection Hp2 as <-.
    destruct Hq as [Hq|(m' & Hq & Hrk)]; [destruct Hf; by left|].
    apply (IH k y m' Hy); [congruence|lia]. }
  intros h x Hx. destruct (ready_single r Hr h x Hx) as (m & Hp & _).
  apply (H (S (rank m)) h x m); [done|done|lia].
Qed.

(** The iterator ends, and it yields every ready transaction once, each the
    best of those whose requirements were yielded. *)
Lemma iterator_yields p : pool.ready_transactions p = r ->
  exists l, TransactionsIterator.collect (size R) (pool.iter_ready p) = Val l /\ greedy R [] l /\
    l ≡ₚ (fun hx => rt_transaction hx.2) <$> map_to_list R.
Proof.
  intros Hp. destruct (collect_spec (size R) [] (pool.iter_ready p)) as (l & El & Hg & Hl & Hnd & Hno);
    [by apply iter_ready_wf|by intros t ?%elem_of_nil|constructor|lia|].
  exists l. split; [done|]. split; [done|]. simpl in *. apply NoDup_Permutation; [done| |].
  - apply NoDup_fmap_2_strong; [|apply NoDup_map_to_list].
    intros [h x] [k y] Hx%elem_of_map_to_list Hy%elem_of_map_to_list E. simpl in *.
    pose proof (ready_inj _ _ _ _ Hx Hy (or_introl E)) as ->. congruence.
  - intros t. split.
    + intros Ht. destruct (Hl t Ht) as (h & x & Hx & <- & _).
      apply list_elem_of_fmap. exists (h, x). split; [done|]. by apply elem_of_map_to_list.
    + intros ([h x] & -> & Hx%elem_of_map_to_list)%list_elem_of_fmap. by eapply all_yielded.
Qed.
End iterator.
End spec.
