(* ===== verification/TxPoolSpec.v ===== *)
(** * What the transaction pool promises

    The waiting queue ([pending_wf]), the pool of the two queues ([pool_wf])
    and its operations: for the transactions the node submits none of them
    panics, a refused transaction changes nothing, and an accepted one is in
    the queue it belongs to. *)

From stdpp Require Import base option list gmap sets sorting.
From Stdlib Require Import ZArith Lia.
From S2P Require Import Prelude EthTransaction TxPool TxReady.

Section spec.
Context {TS : TxShape}.

(** ** The waiting queue *)

Abbreviation waiting := PendingTransactions.waiting_queue.

(** The transaction waits for the marker [m] and nothing else. *)
Definition waits (pp : PendingPoolTransaction) (m : TxMarker) : Prop :=
  requires (pp_transaction pp) = [m] /\ missing_markers pp = {[ m ]}.

Record pending_wf (p : PendingTransactions.t) : Prop := mkPendingWf {
  pw_tx h pp : waiting p !! h = Some pp ->
    hash (pp_transaction pp) = h /\ tx_ok (pp_transaction pp) /\ exists m, waits pp m;
  pw_required m h : h ∈ default ∅ (PendingTransactions.required_markers p !! m) <->
    exists pp, waiting p !! h = Some pp /\ waits pp m;
  pw_nonempty m : PendingTransactions.required_markers p !! m <> Some ∅;
}.

Lemma waits_inj pp m n : waits pp m -> waits pp n -> m = n.
Proof. intros [H _] [H' _]. congruence. Qed.

Lemma pending_wf_default : pending_wf PendingTransactions.t_default.
Proof.
  split; simpl; [intros h pp; by rewrite lookup_empty| |intros m; by rewrite lookup_empty]. intros m h. rewrite lookup_empty. simpl. split; [set_solver|].
  intros (pp & Hpp & _). by rewrite lookup_empty in Hpp.
Qed.

(** What leaves the waiting queue enters the ready one. *)
Definition entering (pp : PendingPoolTransaction) : Prop :=
  is_ready pp = true /\ tx_ok (pp_transaction pp).

Lemma mark_ready pp m : waits pp m -> is_ready (mark pp m) = true.
Proof. intros [_ H]. unfold is_ready, mark. simpl. rewrite H. apply bool_decide_true. set_solver. Qed.

(** The loop over the transactions that wait for [m]. *)
Lemma unlock_hashes_spec m hs p acc : NoDup hs ->
  (forall h, h ∈ hs -> exists pp, waiting p !! h = Some pp /\ waits pp m) ->
  exists p', foldl (PendingTransactions.unlock_hash m) (Val (p, acc)) hs =
    Val (p', acc ++ omap (fun h => pp ← waiting p !! h; Some (mark pp m)) hs) /\
  PendingTransactions.required_markers p' = PendingTransactions.required_markers p /\
  (forall h, waiting p' !! h = if decide (h ∈ hs) then None else waiting p !! h) /\
  (size (waiting p') + length hs = size (waiting p))%nat.
Proof.
  revert p acc. induction hs as [|h hs IH]; intros p acc Hnd Hin; cbn [foldl].
  { exists p. simpl. rewrite app_nil_r. by split_and!. }
  apply NoDup_cons in Hnd as [Hh Hnd]. destruct (Hin h (list_elem_of_here _ _)) as (pp & Hpp & Hw).
  assert (PendingTransactions.unlock_hash m (Val (p, acc)) h =
    Val (PendingTransactions.mk (PendingTransactions.required_markers p)
      (delete (provides (pp_transaction pp)) (PendingTransactions.waiting_markers p))
      (delete h (waiting p)), acc ++ [mark pp m])) as ->.
  { unfold PendingTransactions.unlock_hash. cbn [mbind rust_bind]. rewrite Hpp. simpl.
    by rewrite (mark_ready pp m Hw). }
  destruct (IH (PendingTransactions.mk (PendingTransactions.required_markers p)
      (delete (provides (pp_transaction pp)) (PendingTransactions.waiting_markers p))
      (delete h (waiting p))) (acc ++ [mark pp m]) Hnd) as (p' & -> & Hreq & Hq & Hsz).
  { intros k Hk. simpl. destruct (Hin k) as (pk & Hpk & Hwk); [by right|]. exists pk.
    rewrite lookup_delete_ne; [done|]. by intros ->. }
  exists p'. simpl in *. rewrite Hpp. simpl. rewrite <- app_assoc. simpl. split; [|split; [done|split]].
  - do 4 f_equal. clear -Hh. induction hs as [|k hs IH]; [done|]. cbn [omap list_omap].
    rewrite IH by set_solver. rewrite lookup_delete_ne; [done|]. intros ->. apply Hh. left.
  - intros k. rewrite Hq. destruct (decide (k = h)) as [->|Hk].
    + by rewrite lookup_delete_eq, (decide_True (P := h ∈ h :: hs)) by left; case_decide.
    + rewrite lookup_delete_ne by done. do 2 case_decide; try done; set_solver.
  - rewrite map_size_delete_Some in Hsz by eauto.
    assert (size (waiting p) <> 0)%nat; [|lia]. intros He%map_size_empty_inv. by rewrite He, lookup_empty in Hpp.
Qed.

(** What taking out the transactions that wait for [m] does. *)
Record taken (p : PendingTransactions.t) (m : TxMarker) (p' : PendingTransactions.t)
  (l : list PendingPoolTransaction) : Prop := mkTaken {
  tk_wf : pending_wf p';
  tk_out pp : pp ∈ l -> entering pp /\ exists pp0, waiting p !! hash (pp_transaction pp) = Some pp0 /\
    waits pp0 m /\ pp_transaction pp = pp_transaction pp0;
  tk_nodup : NoDup ((hash ∘ pp_transaction) <$> l);
  tk_left h pp : waiting p' !! h = Some pp <-> waiting p !! h = Some pp /\ ~ waits pp m;
  tk_size : (size (waiting p') + length l = size (waiting p))%nat;
  tk_none : (forall h pp, waiting p !! h = Some pp -> ~ waits pp m) -> p' = p /\ l = [];
}.

(** The taken transactions are those of the set of [m], each once. *)
Lemma taken_list p m (s : list Z) : pending_wf p -> NoDup s ->
  (forall h, h ∈ s -> exists pp, waiting p !! h = Some pp /\ waits pp m) ->
  let l := omap (fun h => pp ← waiting p !! h; Some (mark pp m)) s in
  (hash ∘ pp_transaction) <$> l = s /\
  forall pp, pp ∈ l -> entering pp /\ exists pp0, waiting p !! hash (pp_transaction pp) = Some pp0 /\
    waits pp0 m /\ pp_transaction pp = pp_transaction pp0.
Proof.
  intros Hp Hnd Hs l. split.
  - unfold l. clear l Hnd. induction s as [|h s IH]; [done|].
    destruct (Hs h (list_elem_of_here _ _)) as (pp & Hpp & _). cbn [omap list_omap].
    rewrite Hpp. cbn [mbind option_bind fmap list_fmap]. f_equal; [by destruct (pw_tx _ Hp h pp Hpp)|].
    apply IH. intros k Hk. apply Hs. by right.
  - intros pp (h & Hh & E)%list_elem_of_omap. destruct (Hs h Hh) as (pp0 & Hpp & Hw).
    rewrite Hpp in E. injection E as <-. destruct (pw_tx _ Hp h pp0 Hpp) as (<- & Hok & _).
    split; [split; [by apply mark_ready|done]|]. by exists pp0.
Qed.

Lemma mark_and_unlock_spec p m : pending_wf p ->
  exists p' l, PendingTransactions.mark_and_unlock p [m] = Val (p', l) /\ taken p m p' l.
Proof.
  intros Hp. unfold PendingTransactions.mark_and_unlock. simpl.
  destruct (PendingTransactions.required_markers p !! m) as [s|] eqn:Hm; simpl.
  - assert (Hs : forall h, h ∈ elements s <-> exists pp, waiting p !! h = Some pp /\ waits pp m).
    { intros h. rewrite elem_of_elements, <- (pw_required _ Hp). by rewrite Hm. }
    set (p0 := PendingTransactions.mk _ _ _).
    destruct (unlock_hashes_spec m (elements s) p0 [] (NoDup_elements s) (fun h => proj1 (Hs h)))
      as (p' & -> & Hreq & Hq & Hsz).
    destruct (taken_list p m (elements s) Hp (NoDup_elements s) (fun h => proj1 (Hs h))) as [Hl1 Hl2].
    assert (Hleft : forall h pp, waiting p' !! h = Some pp <-> waiting p !! h = Some pp /\ ~ waits pp m).
    { intros h pp. rewrite Hq. simpl. case_decide as Hin.
      - apply Hs in Hin as (pp' & Hpp' & Hw). split; [done|]. intros [? []]. congruence.
      - split; [|tauto]. intros Hpp. split; [done|]. intros Hw. apply Hin, Hs. by exists pp. }
    eexists _, _. split; [done|]. split; simpl.
    + split.
      * intros h pp [Hpp _]%Hleft. by apply (pw_tx _ Hp).
      * intros n h. rewrite Hreq. simpl. setoid_rewrite Hleft. rewrite lookup_delete. case_decide as Hn.
        -- subst. simpl. split; [set_solver|]. intros (pp & [_ Hnw] & Hw). by destruct Hnw.
        -- rewrite (pw_required _ Hp). split; intros (pp & Hpp & Hw); exists pp; [|naive_solver].
           split_and!; try done. intros Hw'. by pose proof (waits_inj _ _ _ Hw Hw').
      * intros n. rewrite Hreq. simpl. rewrite lookup_delete_Some. intros [_ Hn]. by apply (pw_nonempty _ Hp) in Hn.
    + done.
    + by rewrite Hl1; apply NoDup_elements.
    + done.
    + rewrite <- (length_fmap (hash ∘ pp_transaction)), Hl1. done.
    + intros Hno. destruct (pw_nonempty _ Hp m). rewrite Hm. f_equal. apply leibniz_equiv, elements_empty_inv.
      destruct (elements s) as [|h hs]; [done|]. destruct (proj1 (Hs h)) as (pp & Hpp & Hw); [left|]. by destruct (Hno h pp).
  - eexists _, _. split; [done|]. split; [done|set_solver|constructor| |simpl; lia|done].
    intros h pp. split; [|tauto]. intros Hpp. split; [done|]. intros Hw.
    assert (h ∈ default ∅ (PendingTransactions.required_markers p !! m)) as H
      by (apply (pw_required _ Hp); by exists pp).
    rewrite Hm in H. simpl in H. set_solver.
Qed.

(** A transaction that requires what nothing provides can wait. *)
Lemma pending_new t provided : tx_ok t ->
  is_ready (PendingPoolTransaction_new t provided) = false ->
  exists m, waits (PendingPoolTransaction_new t provided) m /\ provided !! m = None.
Proof.
  intros [(m & _ & Hq) _ _]. unfold PendingPoolTransaction_new, is_ready, waits. simpl.
  destruct Hq as [->|(m' & -> & _)]; [done|]. rewrite filter_cons, filter_nil.
  case_decide as Hm; [|done]. intros _. exists m'. split; [|done]. split; [done|]. simpl.
  by rewrite (right_id_L ∅ (∪)).
Qed.

Lemma pending_add_spec p pp m : pending_wf p -> tx_ok (pp_transaction pp) -> waits pp m ->
  waiting p !! hash (pp_transaction pp) = None ->
  exists out p', PendingTransactions.add_transaction p pp = Val (out, p') /\
  match out with
  | inl _ => pending_wf p' /\ waiting p' = <[hash (pp_transaction pp) := pp]> (waiting p)
  | inr e => p' = p
  end.
Proof.
  intros Hp Hok Hw Hn. unfold PendingTransactions.add_transaction, PendingTransactions.contains.
  assert (is_ready pp = false) as ->.
  { destruct Hw as [_ Hm]. unfold is_ready. rewrite Hm. apply bool_decide_false. set_solver. }
  rewrite Hn. simpl. match goal with |- context [if ?b then _ else _] => destruct b end.
  { eexists _, _. by split. }
  eexists _, _. split; [done|]. simpl. split; [|done]. pose proof Hw as [_ Hm]. rewrite Hm, set_fold_singleton.
  split; simpl.
  - intros h x. rewrite lookup_insert. case_decide as Hh; [|apply (pw_tx _ Hp)].
    intros [= <-]. split; [done|]. split; [done|]. by exists m.
  - intros n h. rewrite (lookup_insert _ m n). setoid_rewrite lookup_insert.
    destruct (decide (hash (pp_transaction pp) = h)) as [<-|Hh].
    + assert (Hx : hash (pp_transaction pp) ∉ default ∅ (PendingTransactions.required_markers p !! n)).
      { rewrite (pw_required _ Hp). intros (y & Hy & _). congruence. }
      case_decide as Hmn; simpl; [split; [intros _; exists pp; by subst|set_solver]|].
      split; [done|]. intros (y & [= <-] & Hy). by pose proof (waits_inj _ _ _ Hw Hy).
    + rewrite <- (pw_required _ Hp). case_decide as Hmn; simpl; [subst; set_solver|done].
  - intros n. rewrite lookup_insert. case_decide; [|apply (pw_nonempty _ Hp)]. intros [= He]. set_solver.
Qed.

Lemma remove_required_spec h (req : gmap TxMarker (gset Z)) m n :
  default ∅ (PendingTransactions.remove_required h req m !! n) =
  if decide (m = n) then default ∅ (req !! n) ∖ {[ h ]} else default ∅ (req !! n).
Proof.
  unfold PendingTransactions.remove_required. case_decide as Hn.
  - subst. destruct (req !! n) as [s|] eqn:E; simpl.
    + case_bool_decide as He; [by rewrite lookup_delete_eq, He|by rewrite lookup_insert_eq].
    + rewrite E. simpl. set_solver.
  - destruct (req !! m) as [s|]; simpl; [|done].
    case_bool_decide; [by rewrite lookup_delete_ne|by rewrite lookup_insert_ne].
Qed.

Lemma pending_remove_one p h removed : pending_wf p ->
  pending_wf (PendingTransactions.remove_one (p, removed) h).1 /\
  waiting (PendingTransactions.remove_one (p, removed) h).1 = delete h (waiting p).
Proof.
  intros Hp. simpl. destruct (waiting p !! h) as [pp|] eqn:Hpp; simpl; [|by rewrite delete_id].
  split; [|done]. destruct (pw_tx _ Hp h pp Hpp) as (_ & _ & m & Hw). pose proof Hw as [_ Hm].
  rewrite Hm, set_fold_singleton. split; simpl.
  - intros k y [_ Hy]%lookup_delete_Some. by apply (pw_tx _ Hp).
  - intros n k. rewrite remove_required_spec. setoid_rewrite lookup_delete_Some.
    case_decide as Hn; [rewrite elem_of_difference, elem_of_singleton|]; rewrite (pw_required _ Hp).
    + split; [intros [(y & Hy & Hwy) Hk]|intros (y & [Hk Hy] & Hwy)].
      * exists y. split_and!; done || congruence.
      * split; [by exists y|congruence].
    + split; [intros (y & Hy & Hwy)|intros (y & [Hk Hy] & Hwy); by exists y].
      exists y. split; [|done]. split; [|done]. intros ->. rewrite Hpp in Hy. injection Hy as <-.
      apply Hn. by eapply waits_inj.
  - intros n. unfold PendingTransactions.remove_required.
    destruct (PendingTransactions.required_markers p !! m) as [s|] eqn:E; [|apply (pw_nonempty _ Hp)].
    case_bool_decide as He.
    + intros [_ Hs]%lookup_delete_Some. by apply (pw_nonempty _ Hp) in Hs.
    + rewrite lookup_insert. case_decide; [congruence|apply (pw_nonempty _ Hp)].
Qed.

Lemma pending_remove_spec p hs : pending_wf p ->
  pending_wf (PendingTransactions.remove p hs).1 /\
  waiting (PendingTransactions.remove p hs).1 ⊆ waiting p /\
  forall h, h ∈ hs -> waiting (PendingTransactions.remove p hs).1 !! h = None.
Proof.
  unfold PendingTransactions.remove. generalize (@nil PoolTransaction). revert p.
  induction hs as [|h hs IH]; intros p removed Hp; cbn [foldl]; [split_and!; [done..|set_solver]|].
  destruct (pending_remove_one p h removed Hp) as [H1 H2].
  destruct (PendingTransactions.remove_one (p, removed) h) as [p1 removed1]. simpl in *.
  destruct (IH p1 removed1 H1) as (H3 & H4 & H5). split; [done|]. rewrite H2 in H4. split.
  - etrans; [exact H4|apply delete_subseteq].
  - intros k [->|Hk]%elem_of_cons; [|by apply H5]. apply eq_None_not_Some. intros [y Hy].
    eapply lookup_weaken in Hy; [|exact H4]. by rewrite lookup_delete_eq in Hy.
Qed.

(** ** The pool *)

Abbreviation ready_of p := (ReadyTransactions.ready_tx (pool.ready_transactions p)).
Abbreviation provided_of p := (ReadyTransactions.provided_markers (pool.ready_transactions p)).
Abbreviation waiting_of p := (waiting (pool.pending_transactions p)).

Record pool_wf (p : pool.PoolInner) : Prop := mkPoolWf {
  po_ready : ready_wf (fun _ => False) (pool.ready_transactions p);
  po_pending : pending_wf (pool.pending_transactions p);
  (** No transaction is in both queues. *)
  po_disjoint h : is_Some (ready_of p !! h) -> waiting_of p !! h = None;
  (** Nothing waits for a marker that a ready transaction provides. *)
  po_waits h pp m : waiting_of p !! h = Some pp -> waits pp m -> provided_of p !! m = None;
}.

Lemma pool_wf_default : pool_wf pool.PoolInner_default.
Proof.
  split; simpl.
  - apply ready_wf_default.
  - apply pending_wf_default.
  - intros h _. apply lookup_empty.
  - intros h pp m Hpp. by rewrite lookup_empty in Hpp.
Qed.

(** The ids that may still be given out: those given and one per waiting
    transaction. *)
Definition ids (p : pool.PoolInner) : Z :=
  ReadyTransactions.id (pool.ready_transactions p) + Z.of_nat (size (waiting_of p)).

(** Removals shrink both queues. *)
Lemma pool_shrinks p r' q' : pool_wf p -> ready_wf (fun _ => False) r' -> pending_wf q' ->
  dom (ReadyTransactions.ready_tx r') ⊆ dom (ready_of p) ->
  ReadyTransactions.provided_markers r' ⊆ provided_of p ->
  ReadyTransactions.id r' = ReadyTransactions.id (pool.ready_transactions p) ->
  waiting q' ⊆ waiting_of p ->
  pool_wf (pool.mkPoolInner r' q') /\ ids (pool.mkPoolInner r' q') <= ids p.
Proof.
  intros Hp Hr' Hq' Hd Hm Hid Hw. split; [split; simpl; [done|done|..]|].
  - intros h Hh. apply eq_None_not_Some. intros [pp Hpp]. eapply lookup_weaken in Hpp; [|done].
    rewrite (po_disjoint p Hp) in Hpp; [done|]. apply elem_of_dom, Hd. by apply elem_of_dom.
  - intros h pp m Hpp Hwt. apply eq_None_not_Some. intros [k Hk]. eapply lookup_weaken in Hpp; [|done].
    eapply lookup_weaken in Hk; [|done]. by rewrite (po_waits p Hp h pp m Hpp Hwt) in Hk.
  - unfold ids. simpl. apply map_subseteq_size in Hw. lia.
Qed.

Lemma pool_wf_taken p m q l : pool_wf p -> taken (pool.pending_transactions p) m q l ->
  pool_wf (pool.mkPoolInner (pool.ready_transactions p) q) /\
  (forall pp, pp ∈ l -> ready_of p !! hash (pp_transaction pp) = None) /\
  (forall pp, pp ∈ l -> waiting q !! hash (pp_transaction pp) = None) /\
  ids (pool.mkPoolInner (pool.ready_transactions p) q) + zlen l = ids p.
Proof.
  intros Hp Ht. split; [|split; [|split]].
  - apply (pool_shrinks p); try done; [by apply (po_ready p Hp)|by apply Ht|].
    apply map_subseteq_spec. intros h pp Hpp. by apply (tk_left _ _ _ _ Ht) in Hpp as [? _].
  - intros pp Hin. destruct (tk_out _ _ _ _ Ht pp Hin) as [_ (pp0 & Hpp0 & _)]. apply eq_None_not_Some.
    intros Hs. by rewrite (po_disjoint p Hp) in Hpp0.
  - intros pp Hin. destruct (tk_out _ _ _ _ Ht pp Hin) as [_ (pp0 & Hpp0 & Hw & _)]. apply eq_None_not_Some.
    intros [y Hy]. apply (tk_left _ _ _ _ Ht) in Hy as [Hy Hn]. congruence.
  - unfold ids, zlen. simpl. pose proof (tk_size _ _ _ _ Ht). lia.
Qed.

(** One turn of the loop of [add_ready_transaction]. *)
Lemma promote_step p pp m : pool_wf p -> entering pp -> provides (pp_transaction pp) = [m] ->
  ready_of p !! hash (pp_transaction pp) = None -> waiting_of p !! hash (pp_transaction pp) = None ->
  ReadyTransactions.id (pool.ready_transactions p) < u64_max ->
  exists q l out r, PendingTransactions.mark_and_unlock (pool.pending_transactions p) [m] = Val (q, l) /\
    taken (pool.pending_transactions p) m q l /\
    ReadyTransactions.add_transaction (pool.ready_transactions p) pp = Val (out, r) /\
    pool_wf (pool.mkPoolInner r q) /\
  match out with
  | inl replaced => ready_grown (pool.ready_transactions p) (pp_transaction pp) r replaced
  | inr e => pool.mkPoolInner r q = p /\ l = []
  end.
Proof.
  intros Hp [Hrd Hok] Hm Hnr Hnw Hid.
  destruct (mark_and_unlock_spec _ m (po_pending p Hp)) as (q & l & Hq & Ht).
  destruct (ready_add_spec _ pp (po_ready p Hp) Hrd Hok Hnr Hid) as (out & r & Hr & Hout).
  exists q, l, out, r. split; [done|]. split; [done|]. split; [done|]. destruct out as [replaced|e].
  - split; [|done]. split; simpl; [apply Hout|apply Ht|..].
    + intros h Hh. apply eq_None_not_Some. intros [y Hy].
      apply (tk_left _ _ _ _ Ht) in Hy as [Hy _].
      destruct (rg_dom _ _ _ _ Hout h Hh) as [->|Hh']; [congruence|].
      by rewrite (po_disjoint p Hp) in Hy.
    + intros h y n [Hy Hn]%(tk_left _ _ _ _ Ht) Hw. apply eq_None_not_Some. intros Hs.
      destruct (rg_provided _ _ _ _ Hout n Hs) as [Hin|Hs'].
      * rewrite Hm in Hin. apply list_elem_of_singleton in Hin as ->. done.
      * by rewrite (po_waits p Hp h y n Hy Hw) in Hs'; destruct Hs'.
  - destruct Hout as [-> (m' & Hm' & Hs)]. rewrite Hm in Hm'. injection Hm' as <-.
    destruct (tk_none _ _ _ _ Ht) as [-> ->].
    { intros h y Hy Hw. rewrite (po_waits p Hp h y m Hy Hw) in Hs. by destruct Hs. }
    destruct p; done.
Qed.

Definition present (p : pool.PoolInner) (h : Z) : Prop :=
  is_Some (ready_of p !! h) \/ is_Some (waiting_of p !! h).

Lemma not_present p h : ~ present p h <-> ready_of p !! h = None /\ waiting_of p !! h = None.
Proof. unfold present. rewrite !eq_None_not_Some. tauto. Qed.

(** What is in the queue of [add_ready_transaction]: transactions of neither
    queue, each once, of rank at least [k]. *)
Record queue_ok (k : nat) (p : pool.PoolInner) (q : list PendingPoolTransaction) : Prop := mkQueueOk {
  qo_in pp : pp ∈ q -> entering pp /\ ~ present p (hash (pp_transaction pp)) /\
    exists m, provides (pp_transaction pp) = [m] /\ (k <= rank m)%nat;
  qo_nodup : NoDup ((hash ∘ pp_transaction) <$> q);
}.

Lemma entering_provides pp : entering pp -> exists m, provides (pp_transaction pp) = [m].
Proof. intros [_ [(m & Hm & _) _ _]]. by exists m. Qed.

(** The rest of the queue, with what the current transaction unlocks. *)
Lemma queue_next k k' p pp m q q' l r : pool_wf p -> queue_ok k p (pp :: q) ->
  provides (pp_transaction pp) = [m] -> taken (pool.pending_transactions p) m q' l ->
  (forall h, is_Some (ReadyTransactions.ready_tx r !! h) -> h = hash (pp_transaction pp) \/ is_Some (ready_of p !! h)) ->
  (k' <= S (rank m))%nat -> (q = [] \/ k' = k) -> queue_ok k' (pool.mkPoolInner r q') (q ++ l).
Proof.
  intros Hp Hq Hm Ht Hd Hk Hkk. pose proof (qo_nodup _ _ _ Hq) as Hnd. simpl in Hnd.
  apply NoDup_cons in Hnd as [Hni Hnd]. destruct (qo_in _ _ _ Hq pp) as (_ & Hpp & _); [left|].
  apply not_present in Hpp as [Hpr Hpw].
  assert (Hsub : forall h, is_Some (waiting q' !! h) -> is_Some (waiting_of p !! h)).
  { intros h [y Hy]. apply (tk_left _ _ _ _ Ht) in Hy as [Hy _]. by exists y. }
  split.
  - intros x [Hx|Hx]%elem_of_app.
    + destruct (qo_in _ _ _ Hq x) as (He & Hn & n & Hpn & Hkn); [by right|]. split; [done|]. split.
      * intros [Hs|Hs]; apply Hn; [|by right; apply Hsub]. left.
        destruct (Hd _ Hs) as [E|]; [|done]. destruct Hni. apply list_elem_of_fmap. by exists x.
      * exists n. split; [done|]. destruct Hkk as [-> | ->]; [by apply elem_of_nil in Hx|done].
    + destruct (tk_out _ _ _ _ Ht x Hx) as [He (x0 & Hx0 & Hw & Et)]. split; [done|]. split.
      * destruct (pool_wf_taken p m q' l Hp Ht) as (_ & H1 & H2 & _). apply not_present. simpl.
        split; [|by apply H2]. apply eq_None_not_Some. intros Hs.
        destruct (Hd _ Hs) as [E|Hs']; [rewrite E in Hx0; congruence|]. rewrite (H1 x Hx) in Hs'. by destruct Hs'.
      * destruct He as [_ [(n & Hn & Hr) _ _]]. exists n. split; [done|].
        destruct Hw as [Hw _]. rewrite Et, Hw in Hr. destruct Hr as [|(m' & [= <-] & Hlt)]; [done|lia].
  - rewrite fmap_app. apply NoDup_app. split; [done|]. split; [|by apply Ht].
    intros h (x & -> & Hx)%list_elem_of_fmap (y & E & Hy)%list_elem_of_fmap. simpl in E.
    destruct (tk_out _ _ _ _ Ht y Hy) as [_ (y0 & Hy0 & _)].
    destruct (qo_in _ _ _ Hq x) as (_ & Hn & _); [by right|]. apply Hn. right. rewrite E. by exists y0.
Qed.

(** What is left of the pool, and what a loop that replaced [l] did. *)
Record promotes (p p' : pool.PoolInner) (n : Z) (entered : list Z) (l : list PoolTransaction) : Prop :=
  mkPromotes {
  pm_wf : pool_wf p';
  pm_ids : ids p' <= ids p + n;
  pm_in h : present p' h -> present p h \/ h ∈ entered;
  pm_keep h : is_Some (ready_of p !! h) ->
    is_Some (ready_of p' !! h) \/ exists t, t ∈ l /\ hash t = h;
}.

Lemma grown_promotes p pp m q l r replaced : pool_wf (pool.mkPoolInner r q) ->
  taken (pool.pending_transactions p) m q l ->
  ready_grown (pool.ready_transactions p) (pp_transaction pp) r replaced ->
  promotes p (pool.mkPoolInner r q) (1 - zlen l) [hash (pp_transaction pp)] replaced.
Proof.
  intros Hp Ht Hg. split; [done|..].
  - unfold ids, zlen. simpl. rewrite (rg_id _ _ _ _ Hg). pose proof (tk_size _ _ _ _ Ht). lia.
  - intros h [Hh|[y Hy]]; simpl in *.
    + destruct (rg_dom _ _ _ _ Hg h Hh) as [->|?]; [right; by left|left; by left].
    + apply (tk_left _ _ _ _ Ht) in Hy as [Hy _]. left. right. by exists y.
  - apply (rg_keep _ _ _ _ Hg).
Qed.

Lemma promotes_trans p p1 p2 n1 n2 e1 e2 l1 l2 :
  promotes p p1 n1 e1 l1 -> promotes p1 p2 n2 e2 l2 -> promotes p p2 (n1 + n2) (e1 ++ e2) (l1 ++ l2).
Proof.
  intros H1 H2. split; [apply H2|..].
  - pose proof (pm_ids _ _ _ _ _ H1). pose proof (pm_ids _ _ _ _ _ H2). lia.
  - intros h Hh. destruct (pm_in _ _ _ _ _ H2 h Hh) as [Hh'|?]; [|right; set_solver].
    destruct (pm_in _ _ _ _ _ H1 h Hh'); [by left|right; set_solver].
  - intros h Hh. destruct (pm_keep _ _ _ _ _ H1 h Hh) as [Hh'|(t & ? & ?)]; [|right; exists t; set_solver].
    destruct (pm_keep _ _ _ _ _ H2 h Hh') as [?|(t & ? & ?)]; [by left|right; exists t; set_solver].
Qed.

Lemma promotes_refl p e n : pool_wf p -> 0 <= n -> promotes p p n e [].
Proof. intros Hp Hn. split; [done|lia|by left|by left]. Qed.

Lemma promotes_weaken p p' n n' e e' l : promotes p p' n e l -> n <= n' ->
  (forall h, h ∈ e -> present p h \/ h ∈ e') -> promotes p p' n' e' l.
Proof.
  intros H Hn He. split; [apply H| | |apply H].
  - pose proof (pm_ids _ _ _ _ _ H). lia.
  - intros h Hh. destruct (pm_in _ _ _ _ _ H h Hh); [by left|by apply He].
Qed.

(** What the loop takes out of the ready queue. *)
Definition outranked (k : nat) (l : list PoolTransaction) : Prop :=
  forall t, t ∈ l -> tx_ok t /\ exists m, provides t = [m] /\ (k <= rank m)%nat.

Lemma replaced_outranked k p t r replaced m : pool_wf p ->
  ready_grown (pool.ready_transactions p) t r replaced -> provides t = [m] -> (k <= rank m)%nat ->
  outranked k replaced.
Proof.
  intros Hp Hg Hm Hk t' Ht'. destruct (rg_replaced _ _ _ _ Hg t' Ht') as (Hpt & h & x & Hx & <-).
  split; [by apply (rw_tx _ _ (po_ready p Hp) h x)|]. exists m. by rewrite Hpt.
Qed.

(** The loop on what was unlocked: a transaction that cannot replace
    another is discarded. *)
Lemma promote_rest fuel k p rd q : pool_wf p -> queue_ok k p q ->
  (length q + size (waiting_of p) <= fuel)%nat -> ids p + zlen q <= u64_max ->
  exists rd' p' l, pool.promote_loop fuel p rd false q = Val (inl rd', p') /\
    promotes p p' (zlen q) ((hash ∘ pp_transaction) <$> q) l /\ outranked k l /\
    pool.ro_removed rd' = pool.ro_removed rd ++ l /\ pool.ro_hash rd' = pool.ro_hash rd.
Proof.
  revert p rd q. induction fuel as [|fuel IH]; intros p rd [|pp q] Hp Hq Hf Hid; simpl in Hf; try lia;
    try (exists rd, p, []; rewrite app_nil_r; split_and!; try done; [by apply promotes_refl|]; by intros t ?%elem_of_nil).
  destruct (qo_in _ _ _ Hq pp) as (He & Hn & m & Hm & Hk); [left|]. pose proof Hn as [Hnr Hnw]%not_present.
  destruct (promote_step p pp m Hp He Hm Hnr Hnw) as (q' & l & out & r & Emark & Ht & Eadd & Hp' & Hout).
  { unfold ids, zlen in Hid. simpl in Hid. lia. }
  cbn [pool.promote_loop]. rewrite Hm, Emark. cbn [mbind rust_bind]. rewrite Eadd. cbn [mbind rust_bind].
  assert (Hd : forall h, is_Some (ReadyTransactions.ready_tx r !! h) ->
    h = hash (pp_transaction pp) \/ is_Some (ready_of p !! h)).
  { destruct out as [replaced|e]; [apply Hout|]. destruct Hout as [<- _]. by right. }
  pose proof (queue_next k k p pp m q q' l r Hp Hq Hm Ht Hd ltac:(lia) (or_intror eq_refl)) as Hq2.
  pose proof (tk_size _ _ _ _ Ht) as Hsz.
  assert (Hl : forall h, h ∈ ((hash ∘ pp_transaction) <$> q ++ l) ->
    present p h \/ h ∈ ((hash ∘ pp_transaction) <$> pp :: q)).
  { intros h (x & -> & [Hx|Hx]%elem_of_app)%list_elem_of_fmap.
    - right. apply list_elem_of_fmap. exists x. split; [done|by right].
    - left. right. destruct (tk_out _ _ _ _ Ht x Hx) as [_ (x0 & Hx0 & _)]. by exists x0. }
  destruct out as [replaced|e].
  - pose proof (grown_promotes p pp m q' l r replaced Hp' Ht Hout) as Hg.
    destruct (IH (pool.mkPoolInner r q') (pool.mkReadyOutcome (pool.ro_hash rd)
      (pool.promoted rd ++ [hash (pp_transaction pp)]) (pool.discarded rd) (pool.ro_removed rd ++ replaced)) (q ++ l))
      as (rd' & p' & l' & -> & Hpm & Hol & Hrem & Hh); [done|done|..].
    { rewrite length_app. simpl. lia. }
    { pose proof (pm_ids _ _ _ _ _ Hg). unfold zlen in *. rewrite length_app. simpl in *. lia. }
    exists rd', p', (replaced ++ l'). simpl in Hrem. rewrite <- app_assoc in Hrem. split_and!; try done.
    + eapply promotes_weaken; [exact (promotes_trans _ _ _ _ _ _ _ _ _ Hg Hpm)| |].
      * unfold zlen. rewrite length_app. simpl. lia.
      * intros h [Hh'%list_elem_of_singleton|Hh']%elem_of_app; [right; subst; by left|by apply Hl].
    + intros t [Ht'|Ht']%elem_of_app; [|by apply Hol].
      exact (replaced_outranked k p _ r replaced m Hp Hout Hm Hk t Ht').
  - destruct Hout as [Eq ->]. rewrite app_nil_r, Eq in *.
    destruct (IH p (pool.mkReadyOutcome (pool.ro_hash rd) (pool.promoted rd)
      (pool.discarded rd ++ [hash (pp_transaction pp)]) (pool.ro_removed rd)) q)
      as (rd' & p' & l' & -> & Hpm & Hol & Hrem & Hh); [done|done|lia|unfold zlen in *; simpl in *; lia|].
    exists rd', p', l'. split_and!; try done. eapply promotes_weaken; [exact Hpm|unfold zlen; simpl; lia|].
    intros h Hh'. right. by right.
Qed.

(** A transaction that may be executed is added, with those that waited for
    it, or it is refused and nothing changes. *)
Lemma add_ready_spec p pp : pool_wf p -> entering pp -> ~ present p (hash (pp_transaction pp)) ->
  ids p + 1 <= u64_max ->
  exists out p', pool.add_ready_transaction p pp = Val (out, p') /\
  match out with
  | inl (pool.Ready rd) => pool.ro_hash rd = hash (pp_transaction pp) /\
      is_Some (ready_of p' !! hash (pp_transaction pp)) /\
      exists l, promotes p p' 1 [hash (pp_transaction pp)] l
  | inl (pool.Pending _) => False
  | inr e => p' = p
  end.
Proof.
  intros Hp He Hn Hid. pose proof Hn as [Hnr Hnw]%not_present. destruct (entering_provides pp He) as [m Hm].
  destruct (promote_step p pp m Hp He Hm Hnr Hnw) as (q' & l & out & r & Emark & Ht & Eadd & Hp' & Hout).
  { unfold ids in Hid. lia. }
  unfold pool.add_ready_transaction. cbn [pool.promote_loop]. rewrite Hm, Emark. cbn [mbind rust_bind].
  rewrite Eadd. cbn [mbind rust_bind]. destruct out as [replaced|e]; [|eexists _, _; split; [done|]; by apply Hout].
  pose proof (grown_promotes p pp m q' l r replaced Hp' Ht Hout) as Hg.
  pose proof (tk_size _ _ _ _ Ht) as Hsz.
  assert (Hq : queue_ok (S (rank m)) (pool.mkPoolInner r q') ([] ++ l)).
  { apply (queue_next (rank m) _ p pp m [] q' l r); try done; [|by apply Hout|by left]. split; [|by apply NoDup_singleton].
    intros x ->%list_elem_of_singleton. split_and!; try done. by exists m. }
  destruct (promote_rest (size (waiting_of p)) (S (rank m)) (pool.mkPoolInner r q')
    (pool.mkReadyOutcome (hash (pp_transaction pp)) [] [] ([] ++ replaced)) l)
    as (rd' & p' & l' & E & Hpm & Hol & Hrem & Hh); [done|done|simpl; lia|..].
  { pose proof (pm_ids _ _ _ _ _ Hg). unfold zlen in *. lia. }
  simpl in *. rewrite E. cbn [mbind rust_bind].
  assert (Hno : forall t, t ∈ replaced ++ l' -> hash t <> hash (pp_transaction pp)).
  { intros t [Hin|Hin]%elem_of_app Eh.
    - destruct (rg_replaced _ _ _ _ Hout t Hin) as (_ & h & x & Hx & <-).
      destruct (rw_tx _ _ (po_ready p Hp) h x Hx) as (<- & _). congruence.
    - destruct (Hol t Hin) as (Htok & m' & Hm' & Hr). destruct He as [_ Hok].
      destruct (shape_provides _ _ Htok Hok Eh) as [Hpe _]. rewrite Hm, Hm' in Hpe. injection Hpe as ->. lia. }
  rewrite Hrem. destruct (existsb _ _) eqn:Ex.
  { apply existsb_exists in Ex as (t & Hin & Eh%Z.eqb_eq). exfalso. apply (Hno t); [by apply list_elem_of_In|done]. }
  eexists _, _. split; [done|]. simpl. split; [done|]. split.
  - destruct (pm_keep _ _ _ _ _ Hpm (hash (pp_transaction pp))) as [?|(t & Hin & Eh)]; [apply Hout|done|].
    exfalso. apply (Hno t); [set_solver|done].
  - exists (replaced ++ l'). eapply promotes_weaken; [exact (promotes_trans _ _ _ _ _ _ _ _ _ Hg Hpm)|unfold zlen; lia|].
    intros h [Hh'|(x & -> & Hx)%list_elem_of_fmap]%elem_of_app; [by right|].
    left. right. destruct (tk_out _ _ _ _ Ht x Hx) as [_ (x0 & Hx0 & _)]. by exists x0.
Qed.

(** *** Adding *)
Lemma add_spec p t : pool_wf p -> tx_ok t -> ids p + 1 <= u64_max ->
  exists out p', pool.add_transaction p t = Val (out, p') /\ pool_wf p' /\ ids p' <= ids p + 1 /\
  match out with
  | inl (pool.Ready rd) => pool.ro_hash rd = hash t /\ is_Some (ready_of p' !! hash t) /\
      Forall (fun m => is_Some (provided_of p !! m)) (requires t)
  | inl (pool.Pending h) => h = hash t /\
      exists m, requires t = [m] /\ provided_of p !! m = None /\
        waiting_of p' = <[h := PendingPoolTransaction_new t (provided_of p)]> (waiting_of p) /\
        pool.ready_transactions p' = pool.ready_transactions p
  | inr e => p' = p
  end.
Proof.
  intros Hp Hok Hid. unfold pool.add_transaction.
  destruct (pool.contains p (hash t)) eqn:Hc; [eexists _, _; split_and!; done || lia|].
  apply orb_false_iff in Hc as [Hcw Hcr]. unfold PendingTransactions.contains, ReadyTransactions.contains in *.
  apply bool_decide_eq_false, eq_None_not_Some in Hcw. apply bool_decide_eq_false, eq_None_not_Some in Hcr.
  set (pp := PendingPoolTransaction_new t (provided_of p)).
  assert (Hh : pp_transaction pp = t) by done. destruct (is_ready pp) eqn:Hrd; cbn [negb].
  - destruct (add_ready_spec p pp Hp) as (out & p' & -> & Hout); [done|by apply not_present|done|].
    exists out, p'. split; [done|]. destruct out as [[rd|h]|e]; [|done|rewrite Hout; split_and!; done || lia].
    destruct Hout as (Hro & Hin & l & Hpm). split; [apply Hpm|]. split; [apply Hpm|]. split_and!; try done.
    apply Forall_forall. intros m Hm. destruct (provided_of p !! m) eqn:Em; [done|].
    apply bool_decide_eq_true in Hrd. assert (m ∈ missing_markers pp) as Hmm; [|set_solver].
    apply elem_of_list_to_set, list_elem_of_filter. by split.
  - destruct (pending_new t _ Hok Hrd) as (m & Hw & Hm). fold pp in Hw.
    destruct (pending_add_spec _ pp m (po_pending p Hp) Hok Hw Hcw) as (out & q & -> & Hout).
    cbn [mbind rust_bind]. eexists _, _. split; [done|]. destruct out as [[]|e].
    2:{ subst q. assert (pool.mkPoolInner (pool.ready_transactions p) (pool.pending_transactions p) = p) as ->
          by (by destruct p). split_and!; done || lia. }
    destruct Hout as [Hq Hqw]. split; [|split].
    + split; simpl; [apply Hp|done|..].
      * intros h Hh'. rewrite Hqw, lookup_insert_ne; [by apply (po_disjoint p Hp)|].
        rewrite Hh. intros <-. rewrite Hcr in Hh'. by destruct Hh'.
      * intros h y n. rewrite Hqw, lookup_insert. case_decide as Hk; [|apply (po_waits p Hp)].
        intros E Hwn. injection E as E. rewrite <- E in Hwn. by rewrite (waits_inj _ _ _ Hwn Hw).
    + unfold ids. simpl. rewrite Hqw, map_size_insert_None by done. lia.
    + split; [done|]. exists m. split; [apply Hw|]. by rewrite Hh in *.
Qed.

(** *** Pruning *)
Lemma queue_shrinks k p p' q : queue_ok k p q -> (forall h, present p' h -> present p h) -> queue_ok k p' q.
Proof.
  intros Hq Hs. split; [|apply Hq]. intros pp Hpp. destruct (qo_in _ _ _ Hq pp Hpp) as (? & Hn & ?).
  split; [done|]. split; [|done]. intros Hp. by apply Hn, Hs.
Qed.

Lemma queue_taken p m q l : pool_wf p -> taken (pool.pending_transactions p) m q l ->
  queue_ok 0 (pool.mkPoolInner (pool.ready_transactions p) q) l.
Proof.
  intros Hp Ht. destruct (pool_wf_taken p m q l Hp Ht) as (_ & H1 & H2 & _). split; [|apply Ht].
  intros pp Hpp. destruct (tk_out _ _ _ _ Ht pp Hpp) as [He _]. split; [done|]. split.
  - apply not_present. split; [by apply H1|by apply H2].
  - destruct (entering_provides pp He) as [n Hn]. exists n. split; [done|lia].
Qed.

Lemma queue_app p p' l1 l2 : queue_ok 0 p l1 -> queue_ok 0 p' l1 -> queue_ok 0 p' l2 ->
  (forall pp, pp ∈ l2 -> present p (hash (pp_transaction pp))) -> queue_ok 0 p' (l1 ++ l2).
Proof.
  intros H1 H1' H2 Hin. split.
  - intros pp [Hpp|Hpp]%elem_of_app; [by apply H1'|by apply H2].
  - rewrite fmap_app. apply NoDup_app. split; [apply H1|]. split; [|apply H2].
    intros h (x & -> & Hx)%list_elem_of_fmap (y & E & Hy)%list_elem_of_fmap. simpl in E.
    destruct (qo_in _ _ _ H1 x Hx) as (_ & Hn & _). apply Hn. rewrite E. by apply Hin.
Qed.

Lemma prune_marker_spec p imports removed marker : pool_wf p -> queue_ok 0 p imports ->
  exists p' imports' removed', pool.prune_marker (Val (p, imports, removed)) marker =
    Val (p', imports', removed') /\ pool_wf p' /\ queue_ok 0 p' imports' /\
    ids p' + zlen imports' <= ids p + zlen imports.
Proof.
  intros Hp Hq. unfold pool.prune_marker. cbn [mbind rust_bind].
  destruct (mark_and_unlock_spec _ marker (po_pending p Hp)) as (q & l & -> & Ht). cbn [mbind rust_bind].
  destruct (prune_tags_spec _ marker (po_ready p Hp)) as (r & l' & -> & Hr & (Hd & Hm & Hi) & _).
  cbn [mbind rust_bind]. destruct (pool_wf_taken p marker q l Hp Ht) as (Hp1 & _ & _ & Hids).
  destruct (pool_shrinks _ r q Hp1 Hr) as [Hp' Hids']; [apply Ht|done|done|done|done|].
  eexists _, _, _. split; [done|]. split; [done|].
  assert (Hs : forall h, present (pool.mkPoolInner r q) h ->
    present (pool.mkPoolInner (pool.ready_transactions p) q) h).
  { intros h [Hh|Hh]; [left|by right]. apply elem_of_dom, Hd. by apply elem_of_dom. }
  split.
  - apply (queue_app p); [done| | |].
    + eapply queue_shrinks; [exact Hq|]. intros h [Hh|[y Hy]]%Hs; [by left|right].
      apply (tk_left _ _ _ _ Ht) in Hy as [Hy _]. by exists y.
    + exact (queue_shrinks _ _ _ _ (queue_taken p marker q l Hp Ht) Hs).
    + intros pp Hpp. destruct (tk_out _ _ _ _ Ht pp Hpp) as [_ (x & Hx & _)]. right. by exists x.
  - unfold zlen in *. rewrite length_app. lia.
Qed.

Lemma import_spec p promoted failed pp l : pool_wf p -> queue_ok 0 p (pp :: l) ->
  ids p + zlen (pp :: l) <= u64_max ->
  exists p' promoted' failed', pool.import (Val (p, promoted, failed)) pp = Val (p', promoted', failed') /\
    pool_wf p' /\ queue_ok 0 p' l /\ ids p' + zlen l <= ids p + zlen (pp :: l).
Proof.
  intros Hp Hq Hid. destruct (qo_in _ _ _ Hq pp) as (He & Hn & _); [left|].
  pose proof (qo_nodup _ _ _ Hq) as Hnd. simpl in Hnd. apply NoDup_cons in Hnd as [Hni Hnd].
  assert (Hql : queue_ok 0 p l) by (split; [intros x Hx; apply Hq; by right|done]).
  destruct (add_ready_spec p pp Hp He Hn) as (out & p' & E & Hout); [unfold zlen in Hid; simpl in Hid; lia|].
  unfold pool.import. cbn [mbind rust_bind]. rewrite E. cbn [mbind rust_bind].
  destruct out as [[rd|h]|e]; [|done|subst; eexists _, _, _; split_and!; try done; unfold zlen; simpl; lia].
  destruct Hout as (_ & _ & l' & Hpm). eexists _, _, _. split; [done|]. split; [apply Hpm|]. split.
  - split; [|done]. intros x Hx. destruct (qo_in _ _ _ Hql x Hx) as (Hex & Hnx & Hmx). split; [done|].
    split; [|done]. intros Hin. destruct (pm_in _ _ _ _ _ Hpm _ Hin) as [?|Eh%list_elem_of_singleton]; [done|].
    apply Hni, list_elem_of_fmap. by exists x.
  - pose proof (pm_ids _ _ _ _ _ Hpm). unfold zlen. simpl. lia.
Qed.

Lemma prune_markers_loop markers p imports removed : pool_wf p -> queue_ok 0 p imports ->
  exists p' imports' removed', foldl pool.prune_marker (Val (p, imports, removed)) markers =
    Val (p', imports', removed') /\ pool_wf p' /\ queue_ok 0 p' imports' /\
    ids p' + zlen imports' <= ids p + zlen imports.
Proof.
  revert p imports removed. induction markers as [|m ms IH]; intros p imports removed Hp Hq; cbn [foldl].
  - eexists _, _, _. split_and!; done || lia.
  - destruct (prune_marker_spec p imports removed m Hp Hq) as (p1 & i1 & r1 & -> & Hp1 & Hq1 & Hle).
    destruct (IH p1 i1 r1 Hp1 Hq1) as (p2 & i2 & r2 & -> & ? & ? & ?).
    eexists _, _, _. split_and!; done || lia.
Qed.

Lemma import_loop imports p promoted failed : pool_wf p -> queue_ok 0 p imports ->
  ids p + zlen imports <= u64_max ->
  exists p' promoted' failed', foldl pool.import (Val (p, promoted, failed)) imports =
    Val (p', promoted', failed') /\ pool_wf p' /\ ids p' <= ids p + zlen imports.
Proof.
  revert p promoted failed. induction imports as [|pp l IH]; intros p promoted failed Hp Hq Hid; cbn [foldl].
  - eexists _, _, _. unfold zlen; simpl; split_and!; done || lia.
  - destruct (import_spec p promoted failed pp l Hp Hq Hid) as (p1 & q1 & f1 & -> & Hp1 & Hq1 & Hle).
    destruct (IH p1 q1 f1 Hp1 Hq1) as (p2 & q2 & f2 & -> & ? & ?); [lia|].
    eexists _, _, _. split_and!; done || lia.
Qed.

Lemma prune_spec p markers : pool_wf p -> ids p <= u64_max ->
  exists res p', pool.prune_markers p markers = Val (res, p') /\ pool_wf p' /\ ids p' <= ids p.
Proof.
  intros Hp Hid. unfold pool.prune_markers.
  destruct (prune_markers_loop markers p [] [] Hp) as (p1 & imports & removed & -> & Hp1 & Hq1 & Hle1).
  { split; [by intros pp ?%elem_of_nil|constructor]. }
  change (zlen []) with 0 in Hle1. cbn [mbind rust_bind].
  destruct (import_loop imports p1 [] [] Hp1 Hq1) as (p2 & promoted & failed & -> & Hp2 & Hle2); [lia|].
  cbn [mbind rust_bind]. eexists _, _. split; [done|]. split; [done|lia].
Qed.

(** *** Removing *)
Lemma ready_remove_spec p hs q : pool_wf p -> pending_wf q -> waiting q ⊆ waiting_of p ->
  exists r l, ReadyTransactions.remove_with_markers (pool.ready_transactions p) hs None = Val (r, l) /\
    pool_wf (pool.mkPoolInner r q) /\ ids (pool.mkPoolInner r q) <= ids p /\
    forall h, h ∈ hs -> ReadyTransactions.ready_tx r !! h = None.
Proof.
  intros Hp Hq Hw.
  destruct (remove_with_markers_spec _ hs (po_ready p Hp)) as (r & l & E & Hr & (Hd & Hm & Hi) & Hout).
  exists r, l. split; [done|].
  destruct (pool_shrinks p r q Hp Hr Hq (subseteq_dom _ _ Hd) Hm Hi Hw) as [H1 H2]. by split_and!.
Qed.

Lemma remove_invalid_spec p hs : pool_wf p ->
  exists l p', pool.remove_invalid p hs = Val (l, p') /\ pool_wf p' /\ ids p' <= ids p /\
    forall h, h ∈ hs -> ~ present p' h.
Proof.
  intros Hp. unfold pool.remove_invalid. case_bool_decide as Hn.
  { subst. exists [], p. split; [done|]. split; [done|]. split; [lia|]. by intros h ?%elem_of_nil. }
  destruct (pending_remove_spec _ hs (po_pending p Hp)) as (Hq & Hw & Hout).
  destruct (ready_remove_spec p hs _ Hp Hq Hw) as (r & l & -> & Hp' & Hids & Hout').
  cbn [mbind rust_bind]. destruct (PendingTransactions.remove _ hs) as [q l'].
  eexists _, _. split; [done|]. split_and!; try done. intros h Hh. apply not_present.
  split; [by apply Hout'|by apply Hout].
Qed.

(** ** The pool under its operations *)
Section operations.
Context {HC : pool.Channel}.

Inductive pool_op :=
| AddTransaction (tx : PoolTransaction)
| MinedBlock (outcome : pool.MinedBlockOutcome)
| DropTransaction (tx : Z)
| AddListener.

Definition run_op (p : pool.Pool) (op : pool_op) : rust pool.Pool :=
  match op with
  | AddTransaction tx => '(_, p) ← pool.Pool_add_transaction p tx; Val p
  | MinedBlock outcome => '(_, p) ← pool.on_mined_block p outcome; Val p
  | DropTransaction tx => '(_, p) ← pool.drop_transaction p tx; Val p
  | AddListener => Val (pool.add_ready_listener p).2
  end.
Definition run_ops (p : pool.Pool) (ops : list pool_op) : rust pool.Pool :=
  foldl (fun acc op => p ← acc; run_op p op) (Val p) ops.

Definition op_ok (op : pool_op) : Prop :=
  match op with AddTransaction tx => tx_ok tx | _ => True end.

Lemma run_op_spec p op : pool_wf (pool.inner p) -> op_ok op -> ids (pool.inner p) + 1 <= u64_max ->
  exists p', run_op p op = Val p' /\ pool_wf (pool.inner p') /\
    ids (pool.inner p') <= ids (pool.inner p) + 1.
Proof.
  intros Hp Hop Hid. destruct op as [tx|outcome|tx|]; simpl in *.
  - destruct (add_spec _ tx Hp Hop Hid) as (out & i & E & Hi & Hids & _).
    unfold pool.Pool_add_transaction. rewrite E. cbn [mbind rust_bind]. eexists. split; [done|].
    enough (forall q l, pool.inner (foldl pool.notify_listener q l) = pool.inner q) as Hl.
    { destruct out as [[rd|h]|e]; rewrite ?Hl; done. }
    intros q l. revert q. induction l as [|h l IH]; intros q; [done|]. cbn [foldl]. by rewrite IH.
  - unfold pool.on_mined_block, pool.Pool_remove_invalid, pool.Pool_prune_markers.
    destruct (remove_invalid_spec _ (hash <$> pool.invalid outcome) Hp) as (l & i & -> & Hi & Hids & _).
    cbn [mbind rust_bind pool.inner].
    destruct (prune_spec i (mjoin (provides <$> pool.included outcome)) Hi) as (res & i' & -> & Hi' & Hids'); [lia|].
    cbn [mbind rust_bind]. eexists. split; [done|]. simpl. split; [done|lia].
  - unfold pool.drop_transaction.
    destruct (ready_remove_spec _ [tx] _ Hp (po_pending _ Hp)) as (r & l & -> & Hi & Hids & _); [done|].
    cbn [mbind rust_bind]. eexists. split; [done|]. simpl. split; [done|lia].
  - eexists. split; [done|]. unfold pool.add_ready_listener. destruct (pool.channel 2048). simpl. split; [done|lia].
Qed.

Lemma run_ops_spec ops p : pool_wf (pool.inner p) -> Forall op_ok ops ->
  ids (pool.inner p) + zlen ops <= u64_max ->
  exists p', run_ops p ops = Val p' /\ pool_wf (pool.inner p') /\
    ids (pool.inner p') <= ids (pool.inner p) + zlen ops.
Proof.
  unfold run_ops. revert p. induction ops as [|op ops IH]; intros p Hp Hops Hid; cbn [foldl].
  { exists p. split; [done|]. split; [done|]. unfold zlen. simpl. lia. }
  apply Forall_cons in Hops as [Hop Hops]. unfold zlen in *. simpl in Hid.
  destruct (run_op_spec p op Hp Hop) as (p1 & E & Hp1 & Hids); [lia|]. cbn [mbind rust_bind]. rewrite E.
  destruct (IH p1 Hp1 Hops) as (p2 & E2 & Hp2 & Hids2); [lia|]. exists p2. split_and!; [done..|simpl; lia].
Qed.
End operations.
End spec.
