(* ===== verification/NodePool.v ===== *)
(** * The transaction pool on what the node submits

    [send_transaction] and its like give the pool transactions made by
    [pool_transaction].  They fit the assumptions of [TxPoolSpec], as long as
    a transaction that is submitted again requires what it did before: no
    sequence of submissions, blocks and drops makes the pool panic, and the
    block builder gets every ready transaction once.  Without that proviso
    it may get one twice ([stale_unlock_yields_twice]). *)

From stdpp Require Import base option list gmap sets sorting.
From Stdlib Require Import ZArith Lia.
From S2P Require Import Prelude EthTransaction TxPool TxReady TxPoolSpec.

(** ** Submitted transactions *)

Definition submitted (t : PoolTransaction) : Prop :=
  exists order pending nonce, 0 <= TypedTransaction.nonce (pt_transaction pending) /\
    0 <= nonce /\ pool_transaction order pending nonce = Val t.

(** The same transaction always requires and provides the same. *)
Definition consistent (ts : list PoolTransaction) : Prop :=
  forall t t', t ∈ ts -> t' ∈ ts -> hash t = hash t' ->
    requires t = requires t' /\ provides t = provides t'.

(** The nonce of a marker ranks it. *)
Definition marker_nonce (m : TxMarker) : Z := from_be_bytes (reverse (take 8 m)).

Lemma marker_nonce_to n from : 0 <= n < u64_modulus -> marker_nonce (to_marker n from) = n.
Proof.
  intros Hn. unfold marker_nonce, to_marker.
  rewrite take_app_length' by (by rewrite length_reverse, length_to_be).
  rewrite reverse_involutive, from_to_be. apply Z.mod_small. exact Hn.
Qed.

Definition node_shape (ts : list PoolTransaction) : TxShape := {|
  rank m := Z.to_nat (marker_nonce m);
  shape h := match list_find (fun t => hash t = h) ts with
             | Some (_, t) => (requires t, provides t)
             | None => ([], [])
             end;
  admissible t := submitted t;
|}.

(** A submitted transaction provides the marker of its sender and nonce, and
    requires that of the nonce before or nothing. *)
Lemma submitted_markers t : submitted t ->
  exists x from, 0 <= x < u64_modulus /\ provides t = [to_marker x from] /\
    (requires t = [] \/ requires t = [to_marker (x - 1) from] /\ 1 <= x).
Proof.
  intros (order & pending & n & Hn & Hon & E). unfold pool_transaction, required_marker, as_u64 in E.
  set (x := TypedTransaction.nonce (pt_transaction pending)) in *. exists x, (pt_sender pending).
  unfold u256_saturating_sub in E.
  destruct (Z.eqb_spec x n) as [_|En]; simpl in E;
    [|destruct (Z.leb_spec n (Z.max (x - 1) 0)) as [Hle|_]; simpl in E;
      [destruct (Z.max (x - 1) 0 <? u64_modulus); [|done]; simpl in E|]];
    (destruct (Z.ltb_spec x u64_modulus) as [Hlt|]; [|done]); injection E as <-; simpl;
    (split; [done|]; split; [done|]); [by left| |by left].
  assert (1 <= x) by lia. right. rewrite Z.max_l by lia. done.
Qed.

Lemma submitted_single ts t : submitted t -> single (TS := node_shape ts) t.
Proof.
  intros (x & from & Hx & Hp & Hq)%submitted_markers. eexists. split; [exact Hp|].
  destruct Hq as [Hq|[Hq Hx1]]; [by left|right]. eexists. split; [exact Hq|]. simpl.
  rewrite !marker_nonce_to by lia. lia.
Qed.

Lemma submitted_ok ts t : consistent ts -> t ∈ ts -> submitted t -> tx_ok (TS := node_shape ts) t.
Proof.
  intros Hc Ht Hs. split; [by apply submitted_single| |done]. simpl.
  destruct (list_find (fun t' => hash t' = hash t) ts) as [[i t']|] eqn:E.
  - apply list_find_Some in E as (Hi & Hh & _). apply list_elem_of_lookup_2 in Hi.
    destruct (Hc t t' Ht Hi) as [-> ->]; done.
  - apply list_find_None in E. rewrite Forall_forall in E. by destruct (E t Ht).
Qed.

(** ** The pool of a node *)
Section node.
Context {HC : pool.Channel}.

Definition added (ops : list pool_op) : list PoolTransaction :=
  omap (fun op => match op with AddTransaction t => Some t | _ => None end) ops.

Definition node_ops (ops : list pool_op) : Prop :=
  Forall submitted (added ops) /\ consistent (added ops) /\ zlen ops <= u64_max.

Lemma node_ops_ok ops : Forall submitted (added ops) -> consistent (added ops) ->
  Forall (op_ok (TS := node_shape (added ops))) ops.
Proof.
  intros Hs Hc. apply Forall_forall. intros op Hop. destruct op as [t|o|h|]; [|done..]. simpl.
  assert (Ht : t ∈ added ops) by (apply list_elem_of_omap; by exists (AddTransaction t)).
  apply submitted_ok; [done|done|]. by eapply Forall_forall in Hs.
Qed.

Lemma empty_ids listeners : ids (pool.inner (pool.mkPool pool.PoolInner_default listeners)) = 0.
Proof. unfold ids. simpl. by rewrite map_size_empty. Qed.

Lemma node_ops_run ops listeners : node_ops ops ->
  exists p, run_ops (pool.mkPool pool.PoolInner_default listeners) ops = Val p /\
    pool_wf (TS := node_shape (added ops)) (pool.inner p).
Proof.
  intros (Hs & Hc & Hn).
  destruct (run_ops_spec (TS := node_shape (added ops)) ops (pool.mkPool pool.PoolInner_default listeners))
    as (p & E & Hp & _); [apply pool_wf_default|by apply node_ops_ok|by rewrite empty_ids|].
  by exists p.
Qed.

(** The pool before a last submission. *)
Lemma node_ops_last ops t listeners : node_ops (ops ++ [AddTransaction t]) ->
  exists p, run_ops (pool.mkPool pool.PoolInner_default listeners) ops = Val p /\
    pool_wf (TS := node_shape (added (ops ++ [AddTransaction t]))) (pool.inner p) /\
    tx_ok (TS := node_shape (added (ops ++ [AddTransaction t]))) t /\
    ids (pool.inner p) + 1 <= u64_max.
Proof.
  intros (Hs & Hc & Hn). pose proof (node_ops_ok _ Hs Hc) as [Hok Hl]%Forall_app.
  apply Forall_cons in Hl as [Hl _]. unfold zlen in Hn. rewrite length_app in Hn. simpl in Hn.
  destruct (run_ops_spec (TS := node_shape (added (ops ++ [AddTransaction t]))) ops
    (pool.mkPool pool.PoolInner_default listeners))
    as (p & E & Hp & Hids); [apply pool_wf_default|done|rewrite empty_ids; unfold zlen; lia|].
  exists p. rewrite empty_ids in Hids. unfold zlen in Hids. split; [done|]. split; [done|]. split; [exact Hl|lia].
Qed.

Lemma inner_notify l p : pool.inner (foldl pool.notify_listener p l) = pool.inner p.
Proof. revert p. induction l as [|h l IH]; intros p; [done|]. cbn [foldl]. by rewrite IH. Qed.
End node.

Lemma consistent_nodup ts : NoDup (hash <$> ts) -> consistent ts.
Proof.
  intros Hnd t t' Ht Ht' Eh. enough (t = t') as -> by done.
  apply list_elem_of_lookup in Ht as [i Hi]. apply list_elem_of_lookup in Ht' as [j Hj].
  assert (i = j) as ->; [|congruence]. eapply NoDup_lookup; [exact Hnd| |];
    rewrite list_lookup_fmap; [by rewrite Hi|by rewrite Hj, Eh].
Qed.

(** What the waiting queue holds waits for what the ready queue lacks, and
    the two have nothing in common. *)
Definition queues_ok (p : pool.PoolInner) : Prop :=
  (forall h, ReadyTransactions.contains (pool.ready_transactions p) h = false \/
     PendingTransactions.contains (pool.pending_transactions p) h = false) /\
  (forall h pp, PendingTransactions.get (pool.pending_transactions p) h = Some pp ->
     hash (pp_transaction pp) = h /\ is_ready pp = false /\
     forall m, m ∈ requires (pp_transaction pp) -> ReadyTransactions.provided_markers (pool.ready_transactions p) !! m = None) /\
  (forall m h, ReadyTransactions.provided_markers (pool.ready_transactions p) !! m = Some h <->
     exists x, ReadyTransactions.get (pool.ready_transactions p) h = Some x /\
       hash (rt_transaction x) = h /\ m ∈ rt_provides x).

Lemma pool_wf_queues {TS : TxShape} p : pool_wf p -> queues_ok p.
Proof.
  intros Hp. split; [|split].
  - intros h. unfold ReadyTransactions.contains, PendingTransactions.contains.
    case_bool_decide as Hr; [right|by left]. apply bool_decide_eq_false. by rewrite (po_disjoint p Hp).
  - intros h pp Hpp. destruct (pw_tx _ (po_pending p Hp) h pp Hpp) as (Hh & _ & m & Hw).
    split; [done|]. split.
    + apply bool_decide_eq_false. destruct Hw as [_ ->]. set_solver.
    + intros n Hn. pose proof Hw as [Hq _]. rewrite Hq in Hn. apply list_elem_of_singleton in Hn as ->.
      by eapply po_waits.
  - intros m h. rewrite (rw_provided _ _ (po_ready p Hp)). unfold ReadyTransactions.get. split.
    + intros (x & Hx & Px). exists x. split; [done|]. split; [by apply (rw_tx _ _ (po_ready p Hp))|].
      rewrite Px. by left.
    + intros (x & Hx & _ & Hin). exists x. split; [done|].
      destruct (ready_single _ (po_ready p Hp) h x Hx) as (n & Hn & _). unfold rt_provides in *.
      rewrite Hn in *. by apply list_elem_of_singleton in Hin as ->.
Qed.

Abbreviation empty_pool := (pool.mkPool pool.PoolInner_default).

(** C9: whatever the node does with its pool, submitting transactions,
    mining blocks and dropping transactions, in any order, if a hash always
    comes with the same required and provided markers (a transaction is not
    submitted again after the nonce of its sender has changed), no operation
    panics or runs forever, and afterwards no transaction is in both queues,
    every waiting one waits only for markers that no ready one provides, and
    the provided markers are those of the ready transactions. *)
Theorem node_pool_keeps_running {HC : pool.Channel} listeners ops : node_ops ops ->
  exists p, run_ops (empty_pool listeners) ops = Val p /\ queues_ok (pool.inner p).
Proof.
  intros Hops. destruct (node_ops_run ops listeners Hops) as (p & E & Hp). exists p.
  split; [done|]. by eapply pool_wf_queues.
Qed.

(** C10: a transaction that is submitted to such a pool is refused, and then
    nothing changes; or it is ready, and so is what provides each marker it
    requires; or it waits, and the ready queue is as it was. *)
Theorem node_pool_add {HC : pool.Channel} listeners ops t : node_ops (ops ++ [AddTransaction t]) ->
  exists p out p', run_ops (empty_pool listeners) ops = Val p /\
    pool.Pool_add_transaction p t = Val (out, p') /\
  match out with
  | inl (pool.Ready rd) => pool.ro_hash rd = hash t /\
      ReadyTransactions.contains (pool.ready_transactions (pool.inner p')) (hash t) = true /\
      Forall (fun m => is_Some (ReadyTransactions.provided_markers
        (pool.ready_transactions (pool.inner p)) !! m)) (requires t)
  | inl (pool.Pending h) => h = hash t /\
      PendingTransactions.get (pool.pending_transactions (pool.inner p')) h =
        Some (PendingPoolTransaction_new t
          (ReadyTransactions.provided_markers (pool.ready_transactions (pool.inner p)))) /\
      pool.ready_transactions (pool.inner p') = pool.ready_transactions (pool.inner p)
  | inr e => p' = p
  end.
Proof.
  intros Hops. destruct (node_ops_last ops t listeners Hops) as (p & E & Hp & Hok & Hids).
  destruct (add_spec _ t Hp Hok Hids) as (out & i & Ea & _ & _ & Hout). exists p.
  unfold pool.Pool_add_transaction. rewrite Ea. cbn [mbind rust_bind]. eexists _, _. split; [done|]. split; [done|].
  destruct out as [[rd|h]|e].
  - destruct Hout as (Hh & Hin & Hreq). split; [done|]. rewrite inner_notify. split; [|done].
    by apply bool_decide_eq_true.
  - destruct Hout as (-> & m & _ & _ & Hw & Hr). split; [done|]. split; [|done].
    unfold PendingTransactions.get. simpl. rewrite Hw. by rewrite lookup_insert_eq.
  - rewrite Hout. by destruct p.
Qed.

(** C8: after submissions, blocks and drops, in which a hash always comes
    with the same required and provided markers (a transaction is not
    submitted again after the nonce of its sender has changed, see
    [stale_unlock_yields_twice]), the block builder is given every ready
    transaction once, each one after what provides the marker it requires,
    and each the best, by priority and then by age, of those that could come
    next. *)
Theorem node_pool_iterates {HC : pool.Channel} listeners ops : node_ops ops ->
  exists p l, run_ops (empty_pool listeners) ops = Val p /\
    TransactionsIterator.collect (size (ReadyTransactions.ready_tx (pool.ready_transactions (pool.inner p))))
      (pool.iter_ready (pool.inner p)) = Val l /\
    greedy (ReadyTransactions.ready_tx (pool.ready_transactions (pool.inner p))) [] l /\
    l ≡ₚ (fun hx => rt_transaction hx.2) <$>
      map_to_list (ReadyTransactions.ready_tx (pool.ready_transactions (pool.inner p))).
Proof.
  intros Hops. destruct (node_ops_run ops listeners Hops) as (p & E & Hp).
  destruct (iterator_yields _ (po_ready _ Hp) (pool.inner p)) as (l & El & Hg & Hl); [done|].
  by exists p, l.
Qed.

(** ** Examples *)
Section examples.
#[local] Instance log_channel : pool.Channel :=
  {| pool.Sender := list Z; pool.Receiver := unit; pool.channel _ := ([], tt); pool.try_send s h := (pool.Sent, s ++ [h]) |}.

Definition example_listeners : list pool.Sender := [@nil Z].

(** Three transactions of one account and one of another. *)
Definition example_legacy (nonce price : Z) : LegacyTransaction :=
  mkLegacyTransaction nonce price 21000 (TransactionKind.Call 7) 0 [] (mkSignature 1 1 27).
Definition example_tx (nonce price sender h on_chain : Z) : PoolTransaction :=
  match pool_transaction Fees (mkPendingTransaction (Legacy (example_legacy nonce price)) sender h) on_chain with
  | Val t => t
  | _ => mkPoolTransaction (mkPendingTransaction (Legacy (example_legacy nonce price)) sender h) [] [] 0
  end.
Definition tx_a := example_tx 0 1 5 100 0.
Definition tx_b := example_tx 1 9 5 101 0.
Definition tx_c := example_tx 2 4 5 102 0.
Definition tx_d := example_tx 7 3 6 200 7.
Definition example_ops : list pool_op :=
  [AddListener; AddTransaction tx_b; AddTransaction tx_c; AddTransaction tx_d; AddTransaction tx_a;
   MinedBlock (pool.mkMinedBlockOutcome 1 [tx_a] [])].

Lemma example_submitted nonce price sender h on_chain : 0 <= nonce -> 0 <= on_chain ->
  (if pool_transaction Fees (mkPendingTransaction (Legacy (example_legacy nonce price)) sender h) on_chain
   is Val _ then True else False) -> submitted (example_tx nonce price sender h on_chain).
Proof.
  intros Hn Ho. unfold example_tx. destruct (pool_transaction _ _ _) as [t| | |] eqn:E; [|done..].
  intros _. by exists Fees, (mkPendingTransaction (Legacy (example_legacy nonce price)) sender h), on_chain.
Qed.

Lemma example_node_ops : node_ops example_ops.
Proof.
  split; [|split].
  - repeat constructor; (apply example_submitted; [lia|lia|vm_compute; exact I]).
  - apply consistent_nodup. vm_compute. repeat constructor; set_solver.
  - done.
Qed.

Lemma node_pool_keeps_running_witness : exists p,
  run_ops (empty_pool example_listeners) example_ops = Val p /\ queues_ok (pool.inner p).
Proof. exact (node_pool_keeps_running example_listeners example_ops example_node_ops). Defined.

Lemma node_pool_add_witness : exists p out p',
  run_ops (empty_pool example_listeners) (take 4 example_ops) = Val p /\
  pool.Pool_add_transaction p tx_a = Val (out, p') /\
  match out with
  | inl (pool.Ready rd) => pool.ro_hash rd = hash tx_a /\
      ReadyTransactions.contains (pool.ready_transactions (pool.inner p')) (hash tx_a) = true /\
      Forall (fun m => is_Some (ReadyTransactions.provided_markers
        (pool.ready_transactions (pool.inner p)) !! m)) (requires tx_a)
  | inl (pool.Pending h) => h = hash tx_a /\
      PendingTransactions.get (pool.pending_transactions (pool.inner p')) h =
        Some (PendingPoolTransaction_new tx_a
          (ReadyTransactions.provided_markers (pool.ready_transactions (pool.inner p)))) /\
      pool.ready_transactions (pool.inner p') = pool.ready_transactions (pool.inner p)
  | inr e => p' = p
  end.
Proof.
  apply (node_pool_add example_listeners (take 4 example_ops) tx_a).
  destruct example_node_ops as (Hs & Hc & _). split; [exact Hs|]. split; [exact Hc|]. done.
Defined.

Lemma node_pool_iterates_witness : exists p l,
  run_ops (empty_pool example_listeners) example_ops = Val p /\
  TransactionsIterator.collect (size (ReadyTransactions.ready_tx (pool.ready_transactions (pool.inner p))))
    (pool.iter_ready (pool.inner p)) = Val l /\
  greedy (ReadyTransactions.ready_tx (pool.ready_transactions (pool.inner p))) [] l /\
  l ≡ₚ (fun hx => rt_transaction hx.2) <$>
    map_to_list (ReadyTransactions.ready_tx (pool.ready_transactions (pool.inner p))).
Proof. exact (node_pool_iterates example_listeners example_ops example_node_ops). Defined.

(** The example's transactions reach the block builder by price, and each
    after the nonce before it. *)
Lemma example_order :
  (p ← run_ops (empty_pool example_listeners) (take 5 example_ops);
   TransactionsIterator.collect 4 (pool.iter_ready (pool.inner p))) = Val [tx_d; tx_a; tx_b; tx_c].
Proof. vm_compute. reflexivity. Qed.

(** [remove_with_markers] leaves the hash of the removed transaction in
    the [unlocks] of the one that provides its marker, where the loop that is
    to remove it looks for the provider's own hash.  When the transaction is
    submitted again, now that its sender's nonce has been set to its own, the
    block builder gets it twice. *)
Theorem stale_unlock_yields_twice : exists ops, Forall submitted (added ops) /\
  exists p1 p2 l,
    run_ops (empty_pool example_listeners) (take 3 ops) = Val p1 /\
    (ReadyTransactions.contains (pool.ready_transactions (pool.inner p1)) 101 = false /\
     unlocks <$> ReadyTransactions.get (pool.ready_transactions (pool.inner p1)) 100 = Some [101]) /\
    run_ops (empty_pool example_listeners) ops = Val p2 /\
    TransactionsIterator.collect 3 (pool.iter_ready (pool.inner p2)) = Val l /\
    hash <$> l = [101; 100; 101].
Proof.
  exists [AddTransaction tx_a; AddTransaction tx_b; DropTransaction 101;
          AddTransaction (example_tx 1 9 5 101 1)]. split.
  - repeat constructor; (apply example_submitted; [lia|lia|vm_compute; exact I]).
  - eexists _, _, _. split; [vm_compute; reflexivity|]. split; [split; vm_compute; reflexivity|].
    split; [vm_compute; reflexivity|]. split; vm_compute; reflexivity.
Qed.
End examples.
