(* ===== verification/MinerSpec.v ===== *)
(** * Building a block

    What the executor of a block does with the transactions it is given, and
    what mining a block does to the node: the block carries exactly the
    transactions that ran, with their receipts, and extends the chain; the
    backend is fit for the next one.  The EVM is known by an interface
    ([EvmSpec]), which the model of revm with the tables of the program
    implements; transactions are [minable] if it returns on them, as it does
    on transfers. *)

From stdpp Require Import base option list gmap.
From Stdlib Require Import ZArith Lia.
From S2P Require Import Prelude Primitives Gas EvmMemory Analysis Interpreter Safety Execution Precompile PrecompileSpec Journal JournalRevert JournalSafe EvmImpl CacheDB EvmSafety TransactSpec CacheDBSpec EvmTable ChainSpec NodeDb BlockStates BlockStatesSpec NodeDbSpec EthTransaction Fees FeesSpec TxPool Miner.

(** ** Environments *)

(** The fields of a transaction are within their types, and its numbers fit
    the 64 bits that the EVM takes. *)
Record fields_ok (p : PendingTransaction) : Prop := mkFieldsOk {
  fo_sender : is_b160 (pt_sender p);
  fo_nonce : is_u64 (TypedTransaction.nonce (pt_transaction p));
  fo_gas_limit : is_u64 (TypedTransaction.gas_limit (pt_transaction p));
  fo_gas_price : is_u256 (TypedTransaction.gas_price (pt_transaction p));
  fo_value : is_u256 (TypedTransaction.value (pt_transaction p));
  fo_data : Forall is_u8 (TypedTransaction.data (pt_transaction p)) /\
    zlen (TypedTransaction.data (pt_transaction p)) <= mem_max;
  fo_to a : TypedTransaction.to (pt_transaction p) = Some a -> is_b160 a;
}.

Abbreviation spec_of cfg := (evm_inner_spec (cfg_spec_id cfg)).

(** The part of a well-formed environment that is the same for all
    transactions of a block. *)
Record block_wf (cfg : CfgEnv) (blk : BlockEnv) : Prop := mkBlockWf {
  bw_chain_id : is_u256 (cfg_chain_id cfg);
  bw_code_size l : cfg_limit_contract_code_size cfg = Some l -> is_u64 l;
  bw_memory_limit : 0 <= cfg_memory_limit cfg <= mem_max;
  bw_number : is_u256 (block_number blk);
  bw_coinbase : is_b160 (block_coinbase blk);
  bw_timestamp : is_u64 (block_timestamp blk);
  bw_difficulty : is_u256 (block_difficulty blk);
  bw_prevrandao : enabled (spec_of cfg) MERGE = true ->
    exists r, block_prevrandao blk = Some r /\ is_u256 r;
  bw_basefee : is_u64 (block_basefee blk);
  bw_gas_limit : is_u64 (block_gas_limit blk);
}.

Lemma to_revm_tx_env_ok p : fields_ok p -> exists te, to_revm_tx_env p = Val te /\
  tx_caller te = pt_sender p /\
  tx_gas_limit te = TypedTransaction.gas_limit (pt_transaction p) /\
  tx_gas_price te = TypedTransaction.gas_price (pt_transaction p) /\
  tx_value te = TypedTransaction.value (pt_transaction p) /\
  tx_data te = TypedTransaction.data (pt_transaction p) /\
  tx_transact_to te = transact_to (TypedTransaction.kind (pt_transaction p)).
Proof.
  intros [_ Hn Hg _ _ _ _]. unfold to_revm_tx_env, as_u64 in *.
  destruct (pt_transaction p); simpl in *;
    (rewrite (proj2 (Z.ltb_lt _ _)) by rlia; cbn [mbind rust_bind];
     rewrite (proj2 (Z.ltb_lt _ _)) by rlia; cbn [mbind rust_bind]; by eexists).
Qed.

(** ** The EVM of the block builder

    Whatever it returns is in order; that it returns is a matter of the
    transaction. *)
Class EvmSpec {DB : Type} {HDB : Database DB} {HEV : Evm DB} (ok : DB -> Prop) : Prop := {
  inspect_commit_ok e db st out db' st' :
    tx_wf (spec_of (env_cfg e)) e -> coinbase_answers ok (spec_of (env_cfg e)) e -> ok db ->
    inspect_commit e db st = Val (out, db', st') -> ok db' /\ within_limit e out;
}.

Section evm.
Context {DB : Type} {HDB : Database DB} {HEV : Evm DB} (ok : DB -> Prop).

(** The EVM returns on the transaction, from any state. *)
Definition evm_returns (te : TxEnv) : Prop := forall e db st, env_tx e = te ->
  tx_wf (spec_of (env_cfg e)) e -> coinbase_answers ok (spec_of (env_cfg e)) e -> ok db ->
  returns (inspect_commit e db st).

(** What may go into a block. *)
Record minable (t : PoolTransaction) : Prop := mkMinable {
  mn_fields : fields_ok (pending_transaction t);
  mn_returns te : to_revm_tx_env (pending_transaction t) = Val te -> evm_returns te;
}.
End evm.

(** revm with a table of precompiles. *)
Definition table_evm {DB : Type} {HDB : Database DB} {HCO : DatabaseCommit DB} {HC : Crypto}
  (pcs : Precompiles) : Evm DB :=
  {| inspect_commit e db st := run_commit (spec_of (env_cfg e)) pcs db st e |}.

(** The EVM of the node is that with the table of its fork. *)
Lemma node_evm_table {DB : Type} {HDB : Database DB} {HCO : DatabaseCommit DB} {HC : Crypto}
  {HX : HashCrates} {HB : Bn} {HO : Os} e (db : DB) st :
  inspect_commit (Evm := node_evm) e db st =
  inspect_commit (Evm := table_evm (Precompiles_new (to_precompile_id (spec_of (env_cfg e))))) e db st.
Proof.
  cbn [inspect_commit node_evm table_evm]. pose proof (run_commit_evm e db st) as H. cbv zeta in H.
  unfold EVM.database, EVM.with_env. cbn [EVM.env].
  destruct (EVM.transact_commit (EVM.mk e (Some db)) st) as [[[out evm] st']| | |];
    destruct (run_commit _ _ db st e) as [[[out' db'] st'']| | |]; try discriminate H; [|done..].
  cbn [mbind rust_bind] in *. injection H as -> -> ->. done.
Qed.

Section tables.
Context {DB : Type} {HDB : Database DB} {HCO : DatabaseCommit DB} {HC : Crypto} {HCS : CryptoSpec}.
Context (ok : DB -> Prop) {HS : CommitSpec ok}.

(** With precompiles that return, so does the EVM. *)
Lemma table_evm_returns (pcs : Precompiles) te : map_Forall (fun _ => precompile_ok) pcs ->
  evm_returns (HEV := table_evm pcs) ok te.
Proof.
  intros Hp e db st _ HT Hcb Hdb. destruct (run_commit_returns ok _ pcs db st e HT Hcb Hdb Hp) as (out & db' & st' & E & _).
  exists (out, db', st'). exact E.
Qed.
Lemma table_minable (pcs : Precompiles) t : map_Forall (fun _ => precompile_ok) pcs ->
  fields_ok (pending_transaction t) -> minable (HEV := table_evm pcs) ok t.
Proof. intros Hp Ht. split; [done|]. intros te _. by apply table_evm_returns. Qed.

Lemma table_evm_spec (pcs : Precompiles) : map_Forall (fun _ => precompile_ok) (tame <$> pcs) ->
  EvmSpec (HEV := table_evm pcs) ok.
Proof. intros Hp. split. intros e db st out db' st' HT Hcb Hdb E. exact (run_commit_answer ok _ pcs Hp db st e out db' st' HT Hcb Hdb E). Qed.
Lemma tame_tame (pcs : Precompiles) : map_Forall (fun _ => precompile_ok) pcs ->
  map_Forall (fun _ => precompile_ok) (tame <$> pcs).
Proof.
  intros Hp. apply map_Forall_fmap. intros a p Ha. specialize (Hp a p Ha). destruct p as [f|f|f]; [exact Hp..|].
  intros input gas_limit context st Hi Hl Hg. cbn. specialize (Hp input gas_limit context st Hi Hl Hg).
  destruct input; [exact Hp|]. by destruct (f _ _ _ _) as [[r st']| | |].
Qed.

(** The EVM of the node. *)
Context {HX : HashCrates} {HXS : HashCratesSpec} {HB : Bn} {HBS : BnSpec} {HO : Os}.
#[export] Instance node_evm_spec : EvmSpec (HEV := node_evm) ok.
Proof.
  split. intros e db st out db' st' HT Hcb Hdb E. rewrite node_evm_table in E.
  exact (run_commit_answer ok _ _ (tame_table_ok _) db st e out db' st' HT Hcb Hdb E).
Qed.
(** A transfer of a block: it carries no data and its gas is that of a
    transfer. *)
Record transfer (t : PoolTransaction) : Prop := mkTransfer {
  tf_kind : exists a, TypedTransaction.kind (pt_transaction (pending_transaction t)) = TransactionKind.Call a;
  tf_data : TypedTransaction.data (pt_transaction (pending_transaction t)) = [];
  tf_access_list : te_access_list (essentials (pt_transaction (pending_transaction t))) = [];
  tf_gas : TypedTransaction.gas_limit (pt_transaction (pending_transaction t)) <= 21000;
}.
Lemma transfer_env t te : transfer t -> to_revm_tx_env (pending_transaction t) = Val te -> transfer_tx te.
Proof.
  intros [[a Ha] Hd Hl Hg]. unfold to_revm_tx_env, as_u64.
  destruct (pt_transaction (pending_transaction t)) as [tx|tx|tx]; cbn in *.
  - destruct (lt_nonce tx <? _); [|done]. destruct (lt_gas_limit tx <? _); [|done]. intros [= <-].
    split; cbn; rewrite ?Ha; by eauto.
  - destruct (at_nonce tx <? _); [|done]. destruct (at_gas_limit tx <? _); [|done]. intros [= <-].
    split; cbn; rewrite ?Ha, ?Hl; by eauto.
  - destruct (ft_nonce tx <? _); [|done]. destruct (ft_gas_limit tx <? _); [|done]. intros [= <-].
    split; cbn; rewrite ?Ha, ?Hl; by eauto.
Qed.
Lemma transfer_minable t : fields_ok (pending_transaction t) -> transfer t -> minable (HEV := node_evm) ok t.
Proof.
  intros Hf Ht. split; [done|]. intros te Ete e db st Ee HT Hcb Hdb. rewrite node_evm_table.
  apply (transfer_returns ok _ _ (tame_table_ok _)); [done..|]. rewrite Ee. by apply (transfer_env t).
Qed.
End tables.

(** ** The executor *)
Section executor.
Context {DB : Type} {HDB : Database DB} {HR : DatabaseRef DB} {HEV : Evm DB} {HD : Db DB}.
Context {HBL : Blooms} {HBH : BlockHashing} {HTC : Chrono}.
Context (ok : DB -> Prop) {HS : DatabaseSpec ok} {HES : EvmSpec ok}.
Import TransactionExecutor.

(** A coinbase the database can answer for, when the fork leaves it cold. *)
Definition coinbase_known (cfg : CfgEnv) (blk : BlockEnv) : Prop :=
  enabled (spec_of cfg) SHANGHAI = true \/ db_answers ok (block_coinbase blk).

Record executor_ok (x : TransactionExecutor.t (DB := DB)) : Prop := mkExecutorOk {
  xo_db : ok (db x);
  xo_block : block_wf (cfg_env x) (block_env x);
  xo_coinbase : coinbase_known (cfg_env x) (block_env x);
  xo_gas_used : 0 <= gas_used x;
}.

Lemma env_for_ok (x : TransactionExecutor.t (DB := DB)) p : block_wf (cfg_env x) (block_env x) -> fields_ok p ->
  exists e, env_for x p = Val e /\ env_cfg e = cfg_env x /\ env_block e = block_env x /\
    tx_gas_limit (env_tx e) = TypedTransaction.gas_limit (pt_transaction p) /\
    tx_wf (spec_of (cfg_env x)) e /\ to_revm_tx_env p = Val (env_tx e).
Proof.
  intros [] Hp. destruct (to_revm_tx_env_ok p Hp) as (te & E & Hc & Hg & Hgp & Hv & Hd & Ht).
  destruct Hp. unfold env_for. rewrite E. eexists. split; [done|]. cbn [env_cfg env_block env_tx].
  split; [done|]. split; [done|]. split; [done|]. split; [|done].
  constructor; cbn [env_cfg env_block env_tx]; [constructor; cbn [env_cfg env_block env_tx]| | | | |];
    rewrite ?Hc, ?Hg, ?Hgp, ?Hv, ?Hd, ?Ht; first [done|rlia|idtac].
  unfold TypedTransaction.to in *. destruct (TypedTransaction.kind _); simpl; [by apply fo_to0|done].
Qed.

(** The executor keeps its settings; its gas stays what it was. *)
Definition same_settings (x y : TransactionExecutor.t (DB := DB)) : Prop :=
  chain_id y = chain_id x /\ block_env y = block_env x /\ cfg_env y = cfg_env x /\
  parent_hash y = parent_hash x /\ gas_used y = gas_used x.

(** What an outcome says of the transaction it is that of. *)
Definition outcome_of (gas_limit : Z) (t : PoolTransaction) (o : Outcome) : Prop :=
  let tx_gas_limit := TypedTransaction.gas_limit (pt_transaction (pending_transaction t)) in
  match o with
  | Executed tx =>
      ex_transaction tx = t /\ 0 <= ex_gas_used tx <= tx_gas_limit /\ tx_gas_limit <= gas_limit
  | Invalid t' _ | DatabaseFailed t' _ => t' = t
  | Exhausted t' => t' = t /\ gas_limit < tx_gas_limit
  end.

Lemma gas_used_conclude r : (conclude r).1.1.2 = ExecutionResult.gas_used r.
Proof. by destruct r. Qed.

Lemma executor_next_spec (x : TransactionExecutor.t (DB := DB)) t : executor_ok x -> gas_used x = 0 -> minable ok t ->
  exists o y, next x t = Val (o, y) /\ executor_ok y /\ same_settings x y /\
    outcome_of (block_gas_limit (block_env x)) t o.
Proof.
  intros [Hdb Hb Hcb Hg0] Hg [Hp Hret]. unfold next.
  destruct (db_basic_ok (db x) (pt_sender (pending_transaction t)) Hdb) as [Hd' _].
  destruct (db_basic (db x) _) as [[acc|err] d]; simpl in Hd'; cbv beta zeta iota.
  2:{ eexists _, _. split; [done|]. by split. }
  destruct (env_for_ok (set_db x d) _ Hb Hp) as (e & -> & Ecfg & Eblk & Eg & HT & Etx).
  cbn [mbind rust_bind]. cbn [gas_used set_db block_env cfg_env] in *. rewrite Hg, Eg, Eblk.
  unfold u256_saturating_add. pose proof (fo_gas_limit _ Hp) as Hgl. pose proof (bw_gas_limit _ _ Hb) as Hbl.
  rewrite Z.add_0_l, Z.min_l by rlia. case_if.
  { eexists _, _. split; [done|]. split; [by split|]. split; [done|]. split; [done|lia]. }
  case_match. { eexists _, _. split; [done|]. by split. }
  rewrite <- Ecfg in HT. assert (Hcb' : coinbase_answers ok (spec_of (env_cfg e)) e)
    by (unfold coinbase_answers; by rewrite Ecfg, Eblk).
  destruct (Hret _ Etx e d (statics x) eq_refl HT Hcb' Hd') as [[[out db'] st'] Ei].
  destruct (inspect_commit_ok (DB := DB) (ok := ok) e d (statics x) out db' st' HT Hcb' Hd' Ei) as [Hdb' Hw].
  cbn [db statics set_db]. rewrite Ei. cbn [mbind rust_bind].
  assert (Hx : executor_ok (mk db' (chain_id x) (block_env x) (cfg_env x) (parent_hash x) (gas_used x) st'))
    by by split.
  cbn [chain_id parent_hash]. rewrite Hg in Hx.
  destruct out as [r|[err| |err]]; simpl in Hw; [|by eexists _, _|done|by eexists _, _].
  pose proof (gas_used_conclude r) as Hr. destruct (conclude r) as [[[reason gu] out] logs]. simpl in Hr. subst gu.
  eexists _, _. split; [done|]. split; [done|]. split; [by unfold same_settings; rewrite Hg|]. simpl.
  split; [done|]. rewrite Eg in Hw. lia.
Qed.

(** The outcomes of the transactions, in order, and the executor after. *)
Inductive runs : t (DB := DB) -> list PoolTransaction -> list Outcome -> t (DB := DB) -> Prop :=
| runs_nil x : runs x [] [] x
| runs_cons x y z t ts o os : next x t = Val (o, y) -> runs y ts os z -> runs x (t :: ts) (o :: os) z.

Lemma run_runs x y ts os : runs x ts os y -> forall a, run x a ts = Val (foldl collect a os, y).
Proof. induction 1 as [|x y z t ts o os E _ IH]; intros a; [done|]. simpl. rewrite E. simpl. apply IH. Qed.

Lemma runs_total ts x : executor_ok x -> gas_used x = 0 ->
  Forall (minable ok) ts ->
  exists os y, runs x ts os y /\ executor_ok y /\ same_settings x y /\
    Forall2 (outcome_of (block_gas_limit (block_env x))) ts os.
Proof.
  intros Hx Hg Hts. revert x Hx Hg. induction Hts as [|t ts Ht _ IH]; intros x Hx Hg.
  { exists [], x. split; [constructor|by split]. }
  destruct (executor_next_spec x t Hx Hg Ht) as (o & y & E & Hy & Hs & Ho). pose proof Hs as (E1 & E2 & E3 & E4 & E5).
  destruct (IH y Hy) as (os & z & Hr & Hz & (F1 & F2 & F3 & F4 & F5) & Hos); [congruence|].
  exists (o :: os), z. split; [by econstructor|]. split; [done|].
  split; [unfold same_settings; split_and!; congruence|]. constructor; [done|]. by rewrite <- E2.
Qed.

(** As a function. *)
Fixpoint outcomes (x : t (DB := DB)) (ts : list PoolTransaction) : list Outcome :=
  match ts with
  | [] => []
  | t :: ts => match next x t with Val (o, y) => o :: outcomes y ts | _ => [] end
  end.
Lemma runs_outcomes x ts os y : runs x ts os y -> outcomes x ts = os.
Proof. induction 1 as [|x y z t ts o os E _ IH]; [done|]. cbn [outcomes]. by rewrite E, IH. Qed.

(** What the block is made of. *)
Definition executed (os : list Outcome) : list ExecutedTransaction :=
  omap (fun o => match o with Executed tx => Some tx | _ => None end) os.
Definition rejected (os : list Outcome) : list PoolTransaction :=
  omap (fun o => match o with Invalid tx _ => Some tx | _ => None end) os.
Definition total_gas (done : list ExecutedTransaction) : Z :=
  foldr (fun tx n => ex_gas_used tx + n) 0 done.

Definition pending_of (tx : ExecutedTransaction) : PendingTransaction :=
  pending_transaction (ex_transaction tx).
Definition info_at (i : nat) (tx : ExecutedTransaction) : TransactionInfo :=
  mkTransactionInfo (hash (ex_transaction tx)) (Z.of_nat i mod 2 ^ 32) (pt_sender (pending_of tx))
    (TypedTransaction.to (pt_transaction (pending_of tx)))
    (match ex_out tx with Some (OutputCreate _ a) => a | _ => None end)
    (ex_logs tx) (logs_bloom (ex_logs tx) Bloom_default) (ex_exit_reason tx) (Output_into_data <$> ex_out tx).

Lemma receipt_fields tx :
  TypedReceipt_gas_used (create_receipt tx) = ex_gas_used tx /\
  TypedReceipt_logs_bloom (create_receipt tx) = logs_bloom (ex_logs tx) Bloom_default /\
  receipt_logs (TypedReceipt_receipt (create_receipt tx)) = ex_logs tx.
Proof. unfold create_receipt. by destruct (pt_transaction _). Qed.

(** The loop adds what ran to what it has. *)
Lemma collect_all os a :
  Forall (fun tx => 0 <= ex_gas_used tx) (executed os) -> cumulative_gas_used a < u256_modulus ->
  foldl collect a os = mkTotals (transactions a ++ (pending_of <$> executed os))
    (transaction_infos a ++ imap (fun i => info_at (length (transaction_infos a) + i)) (executed os))
    (receipts a ++ (create_receipt <$> executed os))
    (logs_bloom (mjoin (ex_logs <$> executed os)) (bloom a))
    (Z.min (cumulative_gas_used a + total_gas (executed os)) (u256_modulus - 1))
    (invalid a ++ rejected os) (included a ++ (ex_transaction <$> executed os)).
Proof.
  revert a. induction os as [|o os IH]; intros a Hos Ha.
  { destruct a. simpl in *. rewrite !app_nil_r. f_equal. lia. }
  cbn [foldl]. destruct o as [tx|t e|t|t e]; simpl in Hos.
  - apply Forall_cons in Hos as [Htx Hos]. destruct (receipt_fields tx) as (Eg & Eb & _).
    assert (0 <= total_gas (executed os)).
    { clear -Hos. induction Hos as [|y l Hy _ IH]; simpl; [lia|]. unfold total_gas in *. simpl. lia. }
    rewrite IH; [|done|simpl; unfold u256_saturating_add; lia]. simpl. rewrite Eg, Eb, <- !app_assoc. simpl. f_equal.
    + f_equal. f_equal; [unfold info_at, zlen; rewrite Nat.add_0_r; done|].
      apply imap_ext. intros i y _. simpl. rewrite length_app. simpl. f_equal. lia.
    + unfold logs_bloom. by rewrite <- foldl_app.
    + unfold u256_saturating_add, total_gas in *. simpl. lia.
  - rewrite IH by done. simpl. by rewrite <- app_assoc.
  - by rewrite IH.
  - by rewrite IH.
Qed.

(** The header of a block with these transactions. *)
Definition header_of (x y : TransactionExecutor.t (DB := DB)) (done : list ExecutedTransaction) : Header :=
  let blk := block_env x in
  Header_new (mkPartialHeader (parent_hash x) (block_coinbase blk) (default 0 (maybe_state_root (db y)))
    (receipts_root_of (create_receipt <$> done)) (logs_bloom (mjoin (ex_logs <$> done)) Bloom_default)
    (block_difficulty blk) (block_number blk) (block_gas_limit blk)
    (Z.min (total_gas done) (u256_modulus - 1)) (block_timestamp blk) [] 0 0
    (if enabled (cfg_spec_id (cfg_env x)) LONDON then Some (block_basefee blk) else None))
    (ommers_hash_of []) (transactions_root_of (pending_of <$> done)).

Lemma executed_gas gl ts os : Forall2 (outcome_of gl) ts os ->
  Forall (fun tx => 0 <= ex_gas_used tx <= gl) (executed os).
Proof.
  induction 1 as [|t o ts os Ho _ IH]; [constructor|]. destruct o as [tx|t' e|t'|t' e]; simpl; [|done..].
  destruct Ho as (_ & Hg & Hl). constructor; [lia|exact IH].
Qed.

Lemma execute_runs x ts : executor_ok x -> gas_used x = 0 ->
  Forall (minable ok) ts ->
  exists os y, runs x ts os y /\ executor_ok y /\ Forall2 (outcome_of (block_gas_limit (block_env x))) ts os /\
  execute x ts = Val (mkExecutedTransactions
    (mkBlockInfo (mkBlock (header_of x y (executed os)) (pending_of <$> executed os) [])
      (imap info_at (executed os)) (create_receipt <$> executed os))
    (ex_transaction <$> executed os) (rejected os), y).
Proof.
  intros Hx Hg Hts. destruct (runs_total ts x Hx Hg Hts) as (os & y & Hr & Hy & (E1 & E2 & E3 & E4 & E5) & Hos).
  exists os, y. split; [done|]. split; [done|]. split; [done|]. unfold execute, as_u64.
  rewrite (proj2 (Z.ltb_lt _ _)) by apply (bw_timestamp _ _ (xo_block _ Hx)). cbn [mbind rust_bind].
  rewrite (run_runs _ _ _ _ Hr). cbn [mbind rust_bind].
  rewrite collect_all; [|eapply Forall_impl; [by eapply executed_gas|]; simpl; lia|by vm_compute].
  simpl. unfold header_of. by rewrite E2, E4.
Qed.
End executor.

(** ** Blocks *)
Section blocks.
Context {DB : Type} {HDB : Database DB} {HR : DatabaseRef DB} {HEV : Evm DB} {HD : Db DB}.
Context {HBL : Blooms} {HBH : BlockHashing} {HTC : Chrono}.
Context (ok : DB -> Prop) {HS : DatabaseSpec ok} {HES : EvmSpec ok}.
Import TransactionExecutor.

Lemma total_gas_receipts done :
  total_gas done = foldr Z.add 0 (TypedReceipt_gas_used <$> (create_receipt <$> done)).
Proof.
  induction done as [|tx l IH]; [done|]. cbn [fmap list_fmap foldr total_gas]. destruct (receipt_fields tx) as (-> & _).
  unfold total_gas in IH. by rewrite IH.
Qed.

Lemma total_gas_bound gl done : Forall (fun tx => 0 <= ex_gas_used tx <= gl) done ->
  0 <= total_gas done <= gl * zlen done.
Proof.
  induction 1 as [|tx l Htx _ IH]; unfold zlen, total_gas in *; simpl; lia.
Qed.

Lemma executed_length gl ts os : Forall2 (outcome_of gl) ts os -> (length (executed os) <= length ts)%nat.
Proof. induction 1 as [|t o ts os _ _ IH]; [simpl; lia|]. destruct o; simpl in *; lia. Qed.

End blocks.

(** ** Mining *)

(** What the block builder takes for granted of hashes and of [Db]. *)
Class BlockHashingSpec {HBL : Blooms} {HBH : BlockHashing} : Prop := {
  header_hash_range h : is_u256 (header_hash h);
}.
Class DbSpec {DB : Type} {HDB : Database DB} {HR : DatabaseRef DB} {HD : Db DB} (ok : DB -> Prop) : Prop := {
  insert_block_hash_ok db n h : ok db -> is_u256 n -> is_u256 h -> ok (insert_block_hash db n h);
}.

#[export] Instance memdb_db_spec {HC : Crypto} {HT : Tries} S : DbSpec (memdb_ok S).
Proof. split. intros db n h Hdb _ Hh. by apply memdb_block_hash_ok. Qed.

Section mining.
Context {DB : Type} {HDB : Database DB} {HR : DatabaseRef DB} {HEV : Evm DB} {HD : Db DB}.
Context {StateDb : Type} {HM : MaybeHashDatabase StateDb} {HCS : CurrentState DB StateDb} {HFI : FileSystem}.
Context {HBL : Blooms} {HBH : BlockHashing} {HTC : Chrono} {HBS : BlockHashingSpec} {HTS : ChronoSpec}.
Context (ok : DB -> Prop) {HS : DatabaseSpec ok} {HES : EvmSpec ok} {HDS : DbSpec ok}.
Abbreviation backend := (Backend (DB := DB) (StateDb := StateDb)).

(** A node between two blocks. *)
Record backend_ok (b : backend) : Prop := mkBackendOk {
  bo_db : ok (b_db b);
  bo_block : block_wf (env_cfg (b_env b)) (env_block (b_env b));
  bo_coinbase : coinbase_known ok (env_cfg (b_env b)) (env_block (b_env b));
  bo_gas_limit : 2 <= block_gas_limit (env_block (b_env b));
  bo_number : block_number (env_block (b_env b)) = st_best_number (b_storage b) /\ 0 <= st_best_number (b_storage b);
  bo_tip : st_hashes (b_storage b) !! st_best_number (b_storage b) = Some (st_best_hash (b_storage b));
  bo_fees : is_u64 (FeeManager.base_fee_ (b_fees b));
  bo_time : time_ok (b_time b);
  bo_states : states_ok (b_states b);
}.

(** What stays from block to block. *)
Definition same_chain (b b' : backend) : Prop :=
  block_gas_limit (env_block (b_env b')) = block_gas_limit (env_block (b_env b)) /\
  block_coinbase (env_block (b_env b')) = block_coinbase (env_block (b_env b)) /\
  cfg_chain_id (env_cfg (b_env b')) = cfg_chain_id (env_cfg (b_env b)) /\
  b_active_snapshots b' = b_active_snapshots b /\
  b_transaction_block_keeper b' = b_transaction_block_keeper b.

(** The executor for the block after [b]. *)
Definition executor_for (b : backend) (now : Z) : TransactionExecutor.t :=
  let env := next_block_env (b_env b) (FeeManager.base_fee (b_fees b)) (TimeManager.next_timestamp (b_time b) now).1 in
  TransactionExecutor.mk (b_db b) (cfg_chain_id (env_cfg (b_env b))) (env_block env) (env_cfg env)
    (st_best_hash (b_storage b)) 0 (b_statics b).

Lemma executor_for_ok b now : backend_ok b -> st_best_number (b_storage b) < u64_max ->
  executor_ok ok (executor_for b now) /\
  block_number (TransactionExecutor.block_env (executor_for b now)) = st_best_number (b_storage b) + 1 /\
  block_gas_limit (TransactionExecutor.block_env (executor_for b now)) = block_gas_limit (env_block (b_env b)).
Proof.
  intros [Hdb [] Hcb Hgl [Hn Hn0] _ Hf Ht _] Hmax. unfold executor_for, next_block_env.
  pose proof (next_timestamp_spec (b_time b) now Ht) as Hts.
  destruct (TimeManager.next_timestamp (b_time b) now) as [t tm]. destruct Hts as (Hts & _).
  assert (Hfee : is_u64 (FeeManager.base_fee (b_fees b))) by (unfold FeeManager.base_fee; case_if; [done|rlia]).
  simpl. rewrite Hn. unfold u256_saturating_add. rewrite Z.min_l by rlia. split; [|done].
  split; simpl; [done| | |lia].
  - split; simpl; first [done|by case_if|rlia].
  - unfold coinbase_known in *. simpl. by case_if.
Qed.

(** The date of the block after [b] is in the calendar. *)
Definition dated_block (b : backend) (now : Z) : bool :=
  (TimeManager.next_timestamp (b_time b) now).1 <=? calendar_end.

Lemma block_date b now : backend_ok b -> dated_block b now = true ->
  exists d line, utc_from_secs (block_timestamp (TransactionExecutor.block_env (executor_for b now))) = Val d /\
    to_rfc2822 d = Val line.
Proof.
  intros Hb Hd%Z.leb_le. apply dated. pose proof (next_timestamp_spec (b_time b) now (bo_time b Hb)) as Hts.
  unfold executor_for, next_block_env. cbn [TransactionExecutor.block_env env_block block_timestamp].
  destruct (TimeManager.next_timestamp (b_time b) now) as [t tm]. destruct Hts as ([Ht _] & _). by split.
Qed.

Definition final_env (x : TransactionExecutor.t (DB := DB)) (tx : TxEnv) : Env :=
  let blk := TransactionExecutor.block_env x in
  mkEnv (TransactionExecutor.cfg_env x)
    (mkBlockEnv (block_number blk) (block_coinbase blk) (block_timestamp blk) 0 (block_prevrandao blk)
      (block_basefee blk) (block_gas_limit blk)) tx.

(** The block that [do_mine_block] makes of the outcomes [os]. *)
Definition info_of (x y : TransactionExecutor.t (DB := DB)) (os : list TransactionExecutor.Outcome) : BlockInfo :=
  mkBlockInfo (mkBlock (header_of x y (executed os)) (pending_of <$> executed os) [])
    (imap info_at (executed os)) (create_receipt <$> executed os).

Lemma do_mine_block_eq b now ts :
  let x := executor_for b now in
  do_mine_block b now ts =
    (states ← (if is_state_history_supported (b_prune_config b)
       then InMemoryBlockStates.insert (b_states b) (st_best_hash (b_storage b)) (current_state (b_db b))
       else Val (b_states b));
     '(executed, y) ← TransactionExecutor.execute x ts;
     let header := bl_header (bi_block (et_block executed)) in
     n ← as_u64 (block_number (TransactionExecutor.block_env x));
     timestamp ← utc_from_secs (hd_timestamp header);
     _ ← to_rfc2822 timestamp;
     fee ← FeeManager.get_next_block_base_fee_per_gas (b_fees b) (hd_gas_used header)
       (hd_gas_limit header) (default 0 (hd_base_fee_per_gas header));
     Val (pool.mkMinedBlockOutcome n (et_included executed) (et_invalid executed),
       mkBackend (final_env x (env_tx (b_env b)))
         (insert_block_hash (TransactionExecutor.db y) (hd_number header) (header_hash header))
         (FeeManager.set_base_fee (b_fees b) fee) (TimeManager.next_timestamp (b_time b) now).2
         (store_block (b_transaction_block_keeper b) (enabled (cfg_spec_id (env_cfg (b_env b))) MERGE)
           (b_storage b) (et_block executed) n (header_hash header))
         states (b_prune_config b) (b_active_snapshots b) (b_transaction_block_keeper b)
         (TransactionExecutor.statics y))).
Proof.
  unfold do_mine_block, executor_for. by destruct (TimeManager.next_timestamp (b_time b) now).
Qed.

(** Everything [do_mine_block] does. *)
Lemma mine_runs b now ts : backend_ok b -> st_best_number (b_storage b) < u64_max ->
  Forall (minable ok) ts ->
  block_gas_limit (env_block (b_env b)) * zlen ts <= u64_max -> dated_block b now = true ->
  let x := executor_for b now in
  exists os y b' fee, runs x ts os y /\ executor_ok ok y /\
  Forall2 (outcome_of (block_gas_limit (env_block (b_env b)))) ts os /\
  do_mine_block b now ts = Val (pool.mkMinedBlockOutcome (st_best_number (b_storage b) + 1)
    (ex_transaction <$> executed os) (rejected os), b') /\
  b_env b' = final_env x (env_tx (b_env b)) /\
  b_db b' = insert_block_hash (TransactionExecutor.db y) (st_best_number (b_storage b) + 1)
    (header_hash (header_of x y (executed os))) /\
  b_fees b' = FeeManager.set_base_fee (b_fees b) fee /\ is_u64 fee /\
  b_time b' = (TimeManager.next_timestamp (b_time b) now).2 /\
  b_storage b' = store_block (b_transaction_block_keeper b) (enabled (cfg_spec_id (env_cfg (b_env b))) MERGE)
    (b_storage b) (info_of x y os) (st_best_number (b_storage b) + 1) (header_hash (header_of x y (executed os))) /\
  states_ok (b_states b') /\ b_active_snapshots b' = b_active_snapshots b /\
  b_transaction_block_keeper b' = b_transaction_block_keeper b.
Proof.
  intros Hb Hmax Hts Hgas Hdate x. destruct (executor_for_ok b now Hb Hmax) as (Hx & Enum & Egl). fold x in Hx, Enum, Egl.
  destruct (block_date b now Hb Hdate) as (day & line & Eday & Eline). fold x in Eday.
  destruct (execute_runs ok x ts Hx eq_refl Hts) as (os & y & Hr & Hy & Hos & E). rewrite Egl in Hos.
  pose proof (executed_length _ _ _ Hos) as Hlen. pose proof (total_gas_bound _ _ (executed_gas _ _ _ Hos)) as Htot.
  destruct (insert_returns (b_states b) (st_best_hash (b_storage b)) (current_state (b_db b)) (bo_states b Hb))
    as (st' & Est & Hst').
  assert (Htot' : is_u64 (Z.min (total_gas (executed os)) (u256_modulus - 1))).
  { assert (block_gas_limit (env_block (b_env b)) * zlen (executed os) <= block_gas_limit (env_block (b_env b)) * zlen ts).
    { apply Z.mul_le_mono_nonneg_l; [pose proof (bo_gas_limit b Hb); lia|unfold zlen; lia]. }
    rlia. }
  assert (Hbase : is_u64 (default 0 (hd_base_fee_per_gas (header_of x y (executed os))))).
  { pose proof (bw_basefee _ _ (xo_block _ _ Hx)) as Hbf. unfold header_of, Header_new.
    cbn [hd_base_fee_per_gas ph_base_fee]. case_if; [exact Hbf|by split]. }
  destruct (next_base_fee_returns (b_fees b) (Z.min (total_gas (executed os)) (u256_modulus - 1))
    (block_gas_limit (TransactionExecutor.block_env x))
    (default 0 (hd_base_fee_per_gas (header_of x y (executed os)))) Htot') as (fee & Efee & Hfee);
    [rewrite Egl; apply Hb|apply (bw_gas_limit _ _ (xo_block _ _ Hx))|exact Hbase|].
  pose proof (do_mine_block_eq b now ts) as Eq. cbv zeta in Eq. fold x in Eq. rewrite Eq. clear Eq.
  set (states := if is_state_history_supported (b_prune_config b) then _ else _).
  assert (Hstates : exists s', states = Val s' /\ states_ok s').
  { unfold states. case_if; [by exists st'|]. exists (b_states b). split; [done|]. apply Hb. }
  destruct Hstates as (s' & -> & Hs'). cbn [mbind rust_bind]. rewrite E. cbn [mbind rust_bind].
  rewrite Enum. unfold as_u64. clearbody x. pose proof (proj2 (bo_number b Hb)).
  rewrite (proj2 (Z.ltb_lt _ _)) by rlia. cbn [mbind rust_bind]. cbn [et_block bi_block bl_header et_included et_invalid].
  change (hd_timestamp (header_of x y (executed os))) with (block_timestamp (TransactionExecutor.block_env x)).
  rewrite Eday. cbn [mbind rust_bind]. rewrite Eline. cbn [mbind rust_bind].
  change (hd_gas_used (header_of x y (executed os))) with (Z.min (total_gas (executed os)) (u256_modulus - 1)).
  change (hd_gas_limit (header_of x y (executed os))) with (block_gas_limit (TransactionExecutor.block_env x)).
  rewrite Efee. cbn [mbind rust_bind]. exists os, y. eexists _, fee. split; [done|]. split; [done|]. split; [done|].
  split; [reflexivity|]. cbn [b_env b_db b_fees b_time b_storage b_states b_active_snapshots b_transaction_block_keeper].
  split; [done|]. split; [simpl; by rewrite Enum|]. by split_and!.
Qed.

Lemma mine_ok b now ts : backend_ok b -> st_best_number (b_storage b) < u64_max ->
  Forall (minable ok) ts ->
  block_gas_limit (env_block (b_env b)) * zlen ts <= u64_max -> dated_block b now = true ->
  exists out b', do_mine_block b now ts = Val (out, b') /\ backend_ok b' /\ same_chain b b' /\
    st_best_number (b_storage b') = st_best_number (b_storage b) + 1.
Proof.
  intros Hb Hmax Hts Hgas Hdate. destruct (executor_for_ok b now Hb Hmax) as (Hx & Enum & Egl).
  destruct (mine_runs b now ts Hb Hmax Hts Hgas Hdate) as (os & y & b' & fee & _ & Hy & _ & E & Eenv & Edb & Efee & Hfee &
    Etm & Est & Hst & Ea & Ek).
  eexists _, b'. split; [exact E|]. pose proof (bo_number b Hb) as [_ Hn].
  pose proof (next_timestamp_spec (b_time b) now (bo_time b Hb)) as Htm.
  pose proof Hx as [_ Hblk Hcb _].
  split; [|split; [|by rewrite Est]].
  - split; rewrite ?Eenv, ?Edb, ?Efee, ?Etm, ?Est; cbn [final_env env_cfg env_block].
    + apply insert_block_hash_ok; [apply Hy|rlia|apply header_hash_range].
    + destruct Hblk. by split.
    + exact Hcb.
    + apply Hb.
    + simpl. simpl in Enum. rewrite Enum. lia.
    + simpl. by rewrite lookup_insert_eq.
    + exact Hfee.
    + destruct (TimeManager.next_timestamp (b_time b) now) as [t tm]. by destruct Htm as (_ & _ & ? & _).
    + exact Hst.
  - unfold same_chain. rewrite Eenv. simpl. split; [done|]. split; [done|]. split; [|done]. by case_if.
Qed.

Lemma store_other bh n l m h : h ∉ (ti_transaction_hash ∘ fst) <$> l ->
  store_transactions bh n l m !! h = m !! h.
Proof.
  unfold store_transactions. revert m. induction l as [|[info receipt] l IH]; intros m Hh; [done|].
  simpl in Hh. apply not_elem_of_cons in Hh as [Hne Hh]. cbn [foldl]. rewrite IH by done.
  by rewrite lookup_insert_ne.
Qed.

Lemma store_found bh n l m info receipt : NoDup ((ti_transaction_hash ∘ fst) <$> l) -> (info, receipt) ∈ l ->
  store_transactions bh n l m !! ti_transaction_hash info = Some (mkMinedTransaction info receipt bh n).
Proof.
  revert m. induction l as [|[i r] l IH]; intros m Hnd Hin; [by apply elem_of_nil in Hin|].
  apply NoDup_cons in Hnd as [Hi Hnd]. change (store_transactions bh n ((i, r) :: l) m) with
    (store_transactions bh n l (<[ti_transaction_hash i := mkMinedTransaction i r bh n]> m)).
  apply elem_of_cons in Hin as [[= -> ->]|Hin]; [|by apply IH].
  rewrite store_other by done. by rewrite lookup_insert_eq.
Qed.

(** The transactions of a block, with what it stores of each. *)
Definition mined_list (done : list ExecutedTransaction) : list (TransactionInfo * TypedReceipt) :=
  zip (imap info_at done) (create_receipt <$> done).

Lemma mined_list_hashes done :
  (ti_transaction_hash ∘ fst) <$> mined_list done = (hash ∘ ex_transaction) <$> done.
Proof.
  unfold mined_list. apply list_eq. intros i. rewrite !list_lookup_fmap, lookup_zip_with, list_lookup_imap, list_lookup_fmap.
  by destruct (done !! i).
Qed.

Lemma mined_list_in done i tx : done !! i = Some tx -> (info_at i tx, create_receipt tx) ∈ mined_list done.
Proof.
  intros Hi. apply list_elem_of_lookup. exists i. unfold mined_list.
  by rewrite lookup_zip_with, list_lookup_imap, list_lookup_fmap, Hi.
Qed.

(** *** Many blocks, each at its time *)

Fixpoint mine_blocks (b : backend) (l : list (Z * list PoolTransaction)) : rust backend :=
  match l with
  | [] => Val b
  | (now, ts) :: l => '(_, b) ← do_mine_block b now ts; mine_blocks b l
  end.

(** Each block, and each transaction in it, has a hash that is not stored. *)
Definition absent {A : Type} (m : gmap Z A) (h : Z) : bool := match m !! h with None => true | Some _ => false end.
Fixpoint fresh_blocks (b : backend) (l : list (Z * list PoolTransaction)) : bool :=
  match l with
  | [] => true
  | (now, ts) :: l =>
      match do_mine_block b now ts with
      | Val (out, b') =>
          absent (st_blocks (b_storage b)) (st_best_hash (b_storage b')) &&
          forallb (fun t => absent (st_transactions (b_storage b)) (hash t)) (pool.included out) &&
          fresh_blocks b' l
      | _ => true
      end
  end.

Lemma absent_spec {A : Type} (m : gmap Z A) h : absent m h = true <-> m !! h = None.
Proof. unfold absent. by destruct (m !! h). Qed.
Lemma fresh_blocks_cons b now ts l out b' : do_mine_block b now ts = Val (out, b') ->
  fresh_blocks b ((now, ts) :: l) = true ->
  st_blocks (b_storage b) !! st_best_hash (b_storage b') = None /\
  Forall (fun t => st_transactions (b_storage b) !! hash t = None) (pool.included out) /\
  fresh_blocks b' l = true.
Proof.
  intros E H. cbn [fresh_blocks] in H. rewrite E in H. apply andb_true_iff in H as [[H1 H2]%andb_true_iff H3].
  split; [by apply absent_spec|]. split; [|done]. apply Forall_forall. intros t Ht. apply absent_spec.
  rewrite forallb_forall in H2. apply H2. by apply list_elem_of_In.
Qed.

(** Each block has its date. *)
Fixpoint dated_blocks (b : backend) (l : list (Z * list PoolTransaction)) : bool :=
  match l with
  | [] => true
  | (now, ts) :: l =>
      dated_block b now && match do_mine_block b now ts with Val (_, b') => dated_blocks b' l | _ => true end
  end.
Lemma dated_blocks_cons b now ts l : dated_blocks b ((now, ts) :: l) = true ->
  dated_block b now = true /\
  forall out b', do_mine_block b now ts = Val (out, b') -> dated_blocks b' l = true.
Proof. cbn [dated_blocks]. intros [H1 H2]%andb_true_iff. split; [done|]. intros out b' E. by rewrite E in H2. Qed.

Definition batches_ok (b : backend) (l : list (Z * list PoolTransaction)) : Prop :=
  Forall (fun nt => Forall (minable ok) nt.2 /\
    block_gas_limit (env_block (b_env b)) * zlen nt.2 <= u64_max) l.

Lemma same_chain_trans (b1 b2 b3 : backend) : same_chain b1 b2 -> same_chain b2 b3 -> same_chain b1 b3.
Proof. unfold same_chain. intros (E1 & E2 & E3 & E4 & E5) (F1 & F2 & F3 & F4 & F5). split_and!; congruence. Qed.

End mining.

(** ** Examples *)
Section examples.
#[local] Instance no_tries : Tries := { state_merkle_trie_root _ := 0 }.
#[local] Existing Instances zero_hashes zero_hashes_spec point_bn point_bn_spec willing_os map_disk.
#[local] Instance example_evm : Evm MemDb := node_evm.
#[local] Instance example_chrono : Chrono := chrono_calendar.
#[local] Instance example_chrono_spec : ChronoSpec := chrono_calendar_spec.
#[local] Instance example_blooms : Blooms := { Bloom := Z; Bloom_default := 0; accrue b _ := b }.
#[local] Instance example_hashing : BlockHashing := {
  header_hash h := wrap256 (hd_number h + 1000);
  ommers_hash_of _ := 0;
  transactions_root_of l := zlen l;
  receipts_root_of l := zlen l;
}.
#[local] Instance example_hashing_spec : BlockHashingSpec.
Proof. split. intros h. apply wrap256_range. Qed.

Abbreviation example_ok := (memdb_ok Snapshots.t_default).
#[local] Instance example_evm_spec : EvmSpec (HEV := example_evm) example_ok.
Proof. apply (node_evm_spec example_ok). Qed.

(** Account 100 is rich; 700 fails with whatever gas it is given. *)
Definition example_rich : AccountInfo := mkAccountInfo (10 ^ 18) 0 KECCAK_EMPTY None.
Definition example_burner : AccountInfo :=
  mkAccountInfo 0 1 5 (Some (mkBytecode [0xfe] 5 Raw)).
Definition example_node_db : MemDb :=
  insert_account (insert_account MemDb_default 100 example_rich) 700 example_burner.
Lemma example_node_db_ok : example_ok example_node_db.
Proof.
  apply memdb_insert_ok; [apply memdb_insert_ok; [apply MemDb_default_ok|]|].
  - split_and!; [by vm_compute..|]. intros c [=].
  - split_and!; [by vm_compute..|]. intros c [= <-]. by apply raw_fit.
Qed.

Definition example_legacy (nonce : Z) : LegacyTransaction :=
  mkLegacyTransaction nonce 100 21000 (TransactionKind.Call 700) 0 [] (mkSignature 1 1 27).
Definition example_pool_tx (nonce : Z) : PoolTransaction :=
  mkPoolTransaction (mkPendingTransaction (Legacy (example_legacy nonce)) 100 (500 + nonce)) [] [] 0.
(** The last one's nonce has been used. *)
Definition example_txs : list PoolTransaction := example_pool_tx <$> [0; 1; 2; 3; 4; 5; 0].

Lemma example_fields nonce : is_u64 nonce -> fields_ok (pending_transaction (example_pool_tx nonce)).
Proof.
  intros Hn. split; simpl; try rlia; [split; [constructor|by vm_compute]|].
  intros a [= <-]. rlia.
Qed.
Lemma example_transfer nonce : transfer (example_pool_tx nonce).
Proof. split; [by eexists|done|done|done]. Qed.
Lemma example_txs_minable : Forall (minable example_ok) example_txs.
Proof.
  apply Forall_fmap, Forall_forall. intros nonce Hn.
  apply (transfer_minable example_ok); [|apply example_transfer]. apply example_fields. assert (Hall : Forall is_u64 [0; 1; 2; 3; 4; 5; 0]) by (by repeat constructor).
  rewrite Forall_forall in Hall. by apply Hall.
Qed.

Definition example_block_env : BlockEnv := mkBlockEnv 0 0 1 0 (Some 0) 64 100000.
Lemma example_block_wf : block_wf CfgEnv_default example_block_env.
Proof.
  assert (Hz : forall n, 0 <= n <= 2 ^ 32 -> 0 <= n <= mem_max /\ is_u64 n /\ is_b160 n /\ is_u256 n).
  { intros n Hn. assert (2 ^ 32 <= mem_max) by (by vm_compute). split; [lia|]. split; [rlia|]. split; rlia. }
  split; try (apply Hz; by vm_compute).
  - intros l [=].
  - intros _. exists 0. split; [done|]. by apply Hz.
Qed.

Definition example_executor : TransactionExecutor.t :=
  TransactionExecutor.mk example_node_db 1 example_block_env CfgEnv_default 1000 0 admin.Statics_init.
Lemma example_executor_ok : executor_ok example_ok example_executor.
Proof. split; [apply example_node_db_ok|apply example_block_wf|by left|done]. Qed.


(** The gas a block has used is never counted while it is built (the
    sum is computed and dropped), so each transaction is only compared with
    the whole limit: a well-formed block of 100000 gas takes six transfers
    of 21000 each, and the base fee then rises by more than the eighth that
    EIP-1559 allows. *)
Theorem block_exceeds_gas_limit : exists (x : TransactionExecutor.t (DB := MemDb)) ts r y,
  executor_ok example_ok x /\ TransactionExecutor.gas_used x = 0 /\
  Forall (minable example_ok) ts /\
  TransactionExecutor.execute x ts = Val (r, y) /\
  let header := bl_header (bi_block (et_block r)) in
  let fee := default 0 (hd_base_fee_per_gas header) in
  hd_gas_limit header < hd_gas_used header /\
  exists fee', calculate_next_block_base_fee (hd_gas_used header) (hd_gas_limit header) fee = Val fee' /\
    fee + (fee + fee / (hd_gas_limit header / 2)) / 8 < fee'.
Proof.
  exists example_executor, example_txs. eexists _, _. split; [apply example_executor_ok|]. split; [done|].
  split; [apply example_txs_minable|]. split; [vm_compute; reflexivity|]. cbv zeta.
  split; [by vm_compute|]. eexists. split; [vm_compute; reflexivity|by vm_compute].
Qed.

(** A new node on that database. *)
Definition example_env : Env :=
  mkEnv CfgEnv_default (mkBlockEnv 0 0 0 0 (Some 0) 64 100000) TxEnv_default.
Definition example_backend : Backend (DB := MemDb) (StateDb := MemDb) :=
  mkBackend example_env example_node_db (FeeManager.new LATEST 64 100) (TimeManager.new 1000 0)
    (BlockchainStorage_new example_env (Some 64) 0) (InMemoryBlockStates.new 10)
    (mkPruneStateHistoryConfig false None) ∅ None admin.Statics_init.

Lemma example_backend_ok : backend_ok example_ok example_backend.
Proof.
  split; [exact example_node_db_ok|destruct example_block_wf; by split|by left|done|done|by vm_compute|done| |done].
  split; simpl; [by split|done|done].
Qed.

End examples.
