(* ===== verification/CallsSpec.v ===== *)
(** * What calls and gas estimation promise

    A call returns for every well-formed request, and uses at least half of
    the intrinsic gas; the search of [eth_estimateGas] ends, and what it
    returns is a gas limit with which the call went through while it lacked
    gas with one unit less, or the floor of its kind.  A request about an old
    block reads the state as it was before the next one was mined. *)

From stdpp Require Import base option list gmap.
From Stdlib Require Import ZArith Lia.
From S2P Require Import Prelude Primitives Safety Execution Precompile PrecompileSpec Journal JournalRevert EvmImpl CacheDB EvmSafety TransactSpec CacheDBSpec EvmTable ChainSpec NodeDb BlockStates BlockStatesSpec NodeDbSpec EthTransaction EthRequest Fees TxPool Miner Calls MinerSpec.

(** ** The search *)
Section search.
Context {D : Type} {HR : DatabaseRef D} {HEV : EvmRef D}.
Context (env : Env) (current_gas_price : Z) (state : D) (block_env : BlockEnv).
Context (request : EthTransactionRequest) (fees : FeeDetails).
Abbreviation outcome := ((InstructionResult * option Output * Z * gmap Z Account) + BlockchainError ref_error)%type.

(** The call of the request with gas limit [g]. *)
Definition call_at (st : admin.Statics) (g : Z) : rust (outcome * admin.Statics) :=
  call_with_state env current_gas_price st state (set_request_gas request g) fees block_env.

Definition went_through (r : outcome) : Prop :=
  match r with inl (exit, _, _, _) => return_ok exit = true | inr _ => False end.
Definition lacked_gas (r : outcome) : Prop :=
  is_gas_too_high r = true \/
  match r with inl (exit, _, _, _) => lacks_gas exit = true | inr _ => False end.

(** Calls made one after another: the gas limit and the result of each. *)
Inductive calls : admin.Statics -> list (Z * outcome) -> admin.Statics -> Prop :=
| calls_nil st : calls st [] st
| calls_cons st g r st1 l st2 :
    call_at st g = Val (r, st1) -> calls st1 l st2 -> calls st ((g, r) :: l) st2.

Lemma calls_snoc st l st1 g r st2 : calls st l st1 -> call_at st1 g = Val (r, st2) ->
  calls st (l ++ [(g, r)]) st2.
Proof. induction 1; intros E; simpl; econstructor; eauto using calls. Qed.

(** [h] is the best limit there is to tell from the calls [l]. *)
Definition best_limit (l : list (Z * outcome)) (base h : Z) : Prop :=
  (exists r, (h, r) ∈ l /\ went_through r) /\
  (base <= h <= base + 1 \/ exists r, (h - 1, r) ∈ l /\ lacked_gas r).

(** The loop: [highest] went through; [lowest] is the base or lacked gas. *)
Record search_inv (l : list (Z * outcome)) (base highest lowest mid : Z) : Prop := mkSearchInv {
  si_high : exists r, (highest, r) ∈ l /\ went_through r;
  si_mid : highest - lowest >= 2 -> mid < highest;
  si_low : lowest = base \/ (exists r, (lowest, r) ∈ l /\ lacked_gas r) /\ lowest < highest /\
    (highest - lowest >= 2 -> lowest < mid);
}.

Lemma snoc_in (l : list (Z * outcome)) x : x ∈ l ++ [x].
Proof. apply elem_of_app. right. by left. Qed.
Lemma weaken_in (l : list (Z * outcome)) g x (P : outcome -> Prop) :
  (exists r, (g, r) ∈ l /\ P r) -> exists r, (g, r) ∈ l ++ [x] /\ P r.
Proof. intros (r & Hr & HP). exists r. split; [|done]. apply elem_of_app. by left. Qed.

Lemma midpoint_spec hi lo m : midpoint hi lo = Val m -> m = (hi + lo) / 2.
Proof.
  unfold midpoint, u256_checked_add. case_match; [|done]. by intros [= <-].
Qed.

(** The two ways a round goes on. *)
Lemma inv_raise l base hi lo mid r m : search_inv l base hi lo mid -> 2 <= hi - lo -> lacked_gas r ->
  midpoint hi mid = Val m -> search_inv (l ++ [(mid, r)]) base hi mid m.
Proof.
  intros [Hh Hm Hl] Hgap Hr ->%midpoint_spec. specialize (Hm ltac:(lia)).
  split; [by apply weaken_in|zlia|]. right. split; [exists r; split; [apply snoc_in|done]|]. zlia.
Qed.
Lemma inv_lower l base hi lo mid r m : search_inv l base hi lo mid -> 2 <= hi - lo -> went_through r ->
  midpoint mid lo = Val m -> search_inv (l ++ [(mid, r)]) base mid lo m.
Proof.
  intros [Hh Hm Hl] Hgap Hr ->%midpoint_spec. specialize (Hm ltac:(lia)).
  split; [exists r; split; [apply snoc_in|done]|zlia|].
  destruct Hl as [Hl|(Hl & Hlt & Hmid)]; [by left|right]. specialize (Hmid ltac:(lia)).
  split; [by apply weaken_in|]. zlia.
Qed.

Lemma best_limit_exit l base hi lo mid : search_inv l base hi lo mid -> lo <= hi -> hi - lo <= 1 ->
  best_limit l base hi.
Proof.
  intros [Hh _ Hl] Hle Hg. split; [done|]. destruct Hl as [->|(Hl & Hlt & _)]; [left; lia|right].
  by replace (hi - 1) with lo by lia.
Qed.

(** [rq] is the request with the gas of the last round. *)
Lemma search_sound fuel rq st0 st l base hi lo mid h st' :
  (forall g, set_request_gas rq g = set_request_gas request g) ->
  calls st0 l st -> search_inv l base hi lo mid ->
  search env current_gas_price state block_env fuel st rq fees hi lo mid = Val (inl h, st') ->
  exists l', calls st0 (l ++ l') st' /\ best_limit (l ++ l') base h /\ h <= hi.
Proof.
  revert rq st l hi lo mid. induction fuel as [|fuel IH]; intros rq st l hi lo mid Hrq Hl Hi; simpl; unfold u256_checked_sub;
    (destruct (Z.leb_spec lo hi) as [Hle|]; [|done]); cbn [unwrap mbind rust_bind];
    (destruct (Z.leb_spec (hi - lo) 1) as [Hg|Hg];
      [intros [= <- <-]; exists []; rewrite app_nil_r; split; [done|]; split; [by eapply best_limit_exit|lia]|]); [done|].
  rewrite Hrq. fold (call_at st mid). destruct (call_at st mid) as [[r st1]| | |] eqn:Ec; try done. cbn [mbind rust_bind].
  pose proof (si_mid _ _ _ _ _ Hi ltac:(lia)) as Hmid.
  assert (Hnext : forall hi' lo' m, hi' <= hi -> search_inv (l ++ [(mid, r)]) base hi' lo' m ->
    search env current_gas_price state block_env fuel st1 (set_request_gas request mid) fees hi' lo' m = Val (inl h, st') ->
    exists l', calls st0 (l ++ l') st' /\ best_limit (l ++ l') base h /\ h <= hi).
  { intros hi' lo' m Hle' Hi' E. destruct (IH (set_request_gas request mid) st1 (l ++ [(mid, r)]) hi' lo' m) as (l' & Hl' & Hb & Hh);
      [done|by eapply calls_snoc|done|exact E|].
    exists ((mid, r) :: l'). rewrite <- app_assoc in Hl', Hb. split; [done|]. split; [done|lia]. }
  destruct (is_gas_too_high r) eqn:Hr.
  { destruct (midpoint hi mid) as [m| | |] eqn:Em; try done. cbn [mbind rust_bind]. apply Hnext; [lia|].
    eapply inv_raise; eauto; [lia|by left]. }
  destruct r as [[[[exit out] g] s]|e]; [|done].
  destruct (return_ok exit) eqn:Hok; [|destruct (lacks_gas exit) eqn:Hlk; [|done]].
  - destruct (midpoint mid lo) as [m| | |] eqn:Em; try done. cbn [mbind rust_bind]. apply Hnext; [lia|].
    eapply inv_lower; eauto; lia.
  - destruct (midpoint hi mid) as [m| | |] eqn:Em; try done. cbn [mbind rust_bind]. apply Hnext; [lia|].
    eapply inv_raise; eauto; [lia|by right].
Qed.
End search.

(** The first call: highest limit the request and the funds of its sender
    allow. *)
Lemma highest_affordable_le {D : Type} {HR : DatabaseRef D} (state : D) request fees top hi :
  highest_affordable state request fees top = inl hi -> hi <= top.
Proof.
  unfold highest_affordable. destruct (rq_from request) as [from|]; [|intros [= <-]; lia].
  case_match; [|intros [= <-]; lia]. destruct (get_balance_with_state state from); [|done].
  case_match; [done|]. intros [= <-]. case_match; lia.
Qed.

(** The sender has the funds for the gas at the price of the request. *)
Definition paid_for {D : Type} {HR : DatabaseRef D} (state : D) (request : EthTransactionRequest) (fees : FeeDetails)
  (gas : Z) : Prop := forall from price, rq_from request = Some from -> fd_gas_price fees = Some price -> 0 < price ->
  exists funds, get_balance_with_state state from = inl funds /\ default 0 (rq_value request) + gas * price <= funds.
Lemma highest_affordable_paid {D : Type} {HR : DatabaseRef D} (state : D) request fees top hi gas :
  highest_affordable state request fees top = inl hi -> gas <= hi -> paid_for state request fees gas.
Proof.
  intros E Hg from price Hfrom Hprice Hp. revert E. unfold highest_affordable. rewrite Hfrom, Hprice.
  change (default 0 (Some price)) with price. rewrite (proj2 (Z.ltb_lt 0 price) Hp). set (value := default 0 (rq_value request)).
  destruct (get_balance_with_state state from) as [funds|]; [|done]. intros E. exists funds. split; [done|]. revert E.
  pose proof (Z.mul_div_le (funds - value) price Hp). destruct (Z.ltb_spec funds value); [done|]. intros [= Eh].
  assert (gas <= (funds - value) / price) by (destruct (Z.ltb_spec ((funds - value) / price) top); lia). nia.
Qed.

Lemma out_of_gas_errs {D : Type} {HR : DatabaseRef D} {HEV : EvmRef D} env p (state : D) blk st request fees gl h st' :
  out_of_gas env p state blk st request fees gl <> Val (inl h, st').
Proof. unfold out_of_gas. by destruct (map_out_of_gas_err _ _ _ _ _ _ _ _) as [[]| | |]. Qed.

(** C28: what [eth_estimateGas] answers, unless the request is a simple
    transfer that is not executed at all.  The calls it made, one after the
    other, tell that the request went through with the limit [h], and that
    it lacked gas with one unit less (it reverted, ran out of gas or out of
    funds, or did not have the intrinsic gas) or that [h] is the floor of
    its kind, or one more; and it is no more than what was asked for, or the
    limit of the block, and no more than what the sender has the funds for,
    if the request names a sender and a price. *)
Theorem estimate_gas_best {D : Type} {HR : DatabaseRef D} {HEV : EvmRef D} (env : Env)
  (current_gas_price : Z) (state : D) (block_env : BlockEnv) (st st' : admin.Statics)
  (request : EthTransactionRequest) (h : Z) :
  do_estimate_gas_with_state env current_gas_price state block_env st request = Val (inl h, st') ->
  is_simple_transfer state request = Val true /\ h = MIN_TRANSACTION_GAS /\ st' = st \/
  exists fees base l,
    FeeDetails_new (rq_gas_price request) (rq_max_fee_per_gas request)
      (rq_max_priority_fee_per_gas request) = Some fees /\
    determine_base_gas_by_kind request = Val base /\
    calls env current_gas_price state block_env request (or_zero_fees fees) st l st' /\
    best_limit l base h /\
    h <= default (block_gas_limit block_env) (rq_gas request) /\ paid_for state request (or_zero_fees fees) h.
Proof.
  unfold do_estimate_gas_with_state. destruct (is_simple_transfer state request) as [[|]| | |]; try done;
    cbn [mbind rust_bind]; [intros [= <- <-]; by left|].
  destruct (FeeDetails_new _ _ _) as [fees|]; [|done].
  destruct (highest_affordable _ _ _ _) as [hi|] eqn:Eh; [|done]. pose proof (highest_affordable_paid _ _ _ _ _ h Eh) as Hpaid. apply highest_affordable_le in Eh.
  replace (Z.min (default hi (rq_gas request)) hi) with hi
    by (destruct (rq_gas request); simpl in *; lia). cbv zeta.
  fold (call_at env current_gas_price state block_env request (or_zero_fees fees) st hi).
  destruct (call_at _ _ _ _ _ _ st hi) as [[r st1]| | |] eqn:Ec; try done. cbn [mbind rust_bind].
  intros E. destruct (_ && _); [by apply out_of_gas_errs in E|]. destruct r as [[[[exit out] gas] s]|e]; [|done].
  destruct (return_ok exit) eqn:Hok.
  2:{ destruct exit; try done; case_match; first [done|by apply out_of_gas_errs in E]. }
  unfold estimate_from in E. revert E. generalize search_fuel as n. intros n E. right.
  destruct (determine_base_gas_by_kind request) as [base| | |]; try done. cbn [mbind rust_bind] in E.
  destruct (unwrap (u256_checked_mul gas 3)) as [triple| | |]; try done. cbn [mbind rust_bind] in E.
  destruct (midpoint hi base) as [m| | |] eqn:Em; try done. cbn [mbind rust_bind] in E.
  apply midpoint_spec in Em as ->.
  destruct (search_sound env current_gas_price state block_env request (or_zero_fees fees) n request
    st st1 [(hi, inl (exit, out, gas, s))] base hi base (Z.min triple ((hi + base) / 2)) h st')
    as (l & Hl & Hb & Hh); [done|by repeat econstructor| |exact E|].
  - split; [|intros Hgap; zlia|by left]. eexists. split; [by left|done].
  - eexists _, base, _. split; [done|]. split; [done|]. split; [exact Hl|]. split; [exact Hb|]. split; [lia|apply Hpaid; lia].
Qed.

(** ** Calls return *)

(** What is relied on of the EVM over a database that is only read, when it
    returns: a transaction that ran had the intrinsic gas and, as refunds
    are capped, used at least half of it. *)
Class EvmRefSpec {D : Type} {HR : DatabaseRef D} {HEV : EvmRef D} (ok : D -> Prop) : Prop := {
  inspect_ref_ok e d st out st' :
    tx_wf (spec_of (env_cfg e)) e ->
    enabled (spec_of (env_cfg e)) SHANGHAI = true \/
      (forall d, ok d -> exists o, ref_basic d (block_coinbase (env_block e)) = inl o) ->
    ok d -> inspect_ref e d st = Val (out, st') ->
    match out with
    | inl rs =>
        let gas_used := ExecutionResult.gas_used (rs_result rs) in
        0 <= gas_used <= tx_gas_limit (env_tx e) /\
        (intrinsic_fits (env_tx e) ->
         intrinsic_floor (spec_of (env_cfg e)) (env_tx e) <= 2 * gas_used /\
         intrinsic_floor (spec_of (env_cfg e)) (env_tx e) <= tx_gas_limit (env_tx e))
    | inr x => x <> PrevrandaoNotSet
    end;
}.

(** revm with a table of precompiles; that of the node has the table of its
    fork. *)
Definition table_evm_ref {D : Type} {HR : DatabaseRef D} {HC : Crypto} (pcs : SpecId -> Precompiles) : EvmRef D :=
  {| inspect_ref e d st :=
       let SPEC := spec_of (env_cfg e) in
       '(out, d) ← EVMImpl.transact (HDB := RefDBWrapper_Database D) SPEC
         (EVMImpl.new SPEC (mkRefDBWrapper d) e (pcs SPEC) st);
       Val (out, EVMImpl.d_statics d) |}.

Lemma node_evm_ref_table {D : Type} {HR : DatabaseRef D} {HC : Crypto} {HX : HashCrates} {HB : Bn} {HO : Os}
  (e : Env) (d : D) (st : admin.Statics) :
  @inspect_ref D HR node_evm_ref e d st =
  @inspect_ref D HR (table_evm_ref (fun SPEC => Precompiles_new (to_precompile_id SPEC))) e d st.
Proof.
  cbn [inspect_ref node_evm_ref table_evm_ref]. unfold EVM_transact_ref, EVM.evm_inner, EVM.database, EVM.with_env.
  cbn [EVM.db EVM.env]. reflexivity.
Qed.

Section table_ref.
Context {D : Type} {HR : DatabaseRef D} {HC : Crypto} {HCS : CryptoSpec} (ok : D -> Prop) {HS : DatabaseRefSpec ok}.
(** The coinbase can be read, if the fork leaves it cold. *)
Definition coinbase_read (e : Env) : Prop := enabled (spec_of (env_cfg e)) SHANGHAI = true \/
  (forall d, ok d -> exists o, ref_basic d (block_coinbase (env_block e)) = inl o).

Lemma table_ref_safe (pcs : SpecId -> Precompiles) e d st : map_Forall (fun _ => precompile_ok) (pcs (spec_of (env_cfg e))) ->
  tx_wf (spec_of (env_cfg e)) e -> coinbase_read e -> ok d ->
  exists out st', inspect_ref (EvmRef := table_evm_ref pcs) e d st = Val (out, st') /\
    match out with
    | inl rs =>
        let gas_used := ExecutionResult.gas_used (rs_result rs) in
        0 <= gas_used <= tx_gas_limit (env_tx e) /\
        (intrinsic_fits (env_tx e) ->
         intrinsic_floor (spec_of (env_cfg e)) (env_tx e) <= 2 * gas_used /\
         intrinsic_floor (spec_of (env_cfg e)) (env_tx e) <= tx_gas_limit (env_tx e))
    | inr x => x <> PrevrandaoNotSet
    end.
Proof.
  intros Hp HT Hcb Hd. cbn [inspect_ref table_evm_ref]. cbv zeta.
  set (SPEC := spec_of (env_cfg e)) in *. set (wok := fun w : RefDBWrapper D => ok (wrapped w)).
  assert (Hcb' : enabled SPEC SHANGHAI = true \/ db_answers wok (block_coinbase (env_block e))).
  { destruct Hcb as [Hcb|Hcb]; [by left|right]. intros [db] Hdb. by apply Hcb. }
  pose proof (transact_safe wok SPEC e HT (negb (enabled SPEC SPURIOUS_DRAGON))
    (EVMImpl.new (HDB := RefDBWrapper_Database D) SPEC (mkRefDBWrapper d) e (pcs SPEC) st)
    (new_inv wok SPEC e _ (mkRefDBWrapper d) (pcs SPEC) st Hd Hp eq_refl) Hcb') as Hs.
  unfold rwp, ewp in Hs. destruct (EVMImpl.transact SPEC _) as [[out d']| | |]; [|done..].
  eexists _, _. split; [done|]. destruct out as [rs|x].
  - by destruct Hs as (Hg & _ & _ & Hf).
  - by destruct Hs.
Qed.
Lemma table_ref_tame (pcs : SpecId -> Precompiles) e d st r :
  inspect_ref (EvmRef := table_evm_ref pcs) e d st = Val r ->
  inspect_ref (EvmRef := table_evm_ref (fun SPEC => tame <$> pcs SPEC)) e d st = Val r.
Proof.
  cbn [inspect_ref table_evm_ref]. cbv zeta. intros E.
  destruct (EVMImpl.transact _ (EVMImpl.new _ _ e (pcs _) st)) as [[out d']| | |] eqn:Et; [|done..].
  by rewrite (transact_tame _ _ _ _ _ _ _ Et).
Qed.

(** So the tables of the program will do. *)
Lemma table_evm_ref_spec (pcs : SpecId -> Precompiles) :
  (forall SPEC, map_Forall (fun _ => precompile_ok) (tame <$> pcs SPEC)) -> EvmRefSpec (HEV := table_evm_ref pcs) ok.
Proof.
  intros Hp. split. intros e d st out st' HT Hcb Hd E%table_ref_tame.
  destruct (table_ref_safe (fun SPEC => tame <$> pcs SPEC) e d st (Hp _) HT Hcb Hd) as (out1 & st1 & E1 & H).
  rewrite E in E1. by injection E1 as <- <-.
Qed.
Lemma node_evm_ref_spec {HX : HashCrates} {HXS : HashCratesSpec} {HB : Bn} {HBS : BnSpec} {HO : Os} :
  EvmRefSpec (HEV := node_evm_ref) ok.
Proof.
  split. intros e d st out st' HT Hcb Hd E. rewrite node_evm_ref_table in E.
  pose proof (table_evm_ref_spec (fun SPEC => Precompiles_new (to_precompile_id SPEC))
    (fun SPEC => tame_table_ok (to_precompile_id SPEC))) as HT'.
  by apply (inspect_ref_ok (HEV := table_evm_ref _) (ok := ok)) with d st st'.
Qed.
End table_ref.

(** The fields of a request are within their types; its gas, its nonce and
    its type fit 64 bits, where the code would panic. *)
Record request_ok (r : EthTransactionRequest) : Prop := mkRequestOk {
  rk_from a : rq_from r = Some a -> is_b160 a;
  rk_to a : rq_to r = Some a -> is_b160 a;
  rk_fees p : rq_gas_price r = Some p \/ rq_max_fee_per_gas r = Some p \/
    rq_max_priority_fee_per_gas r = Some p -> is_u256 p;
  rk_gas g : rq_gas r = Some g -> is_u64 g;
  rk_value v : rq_value r = Some v -> is_u256 v;
  rk_data : Forall is_u8 (default [] (rq_data r)) /\ zlen (default [] (rq_data r)) <= 2 ^ 56;
  rk_nonce n : rq_nonce r = Some n -> is_u64 n;
  rk_access_list : zlen (default [] (rq_access_list r)) <= 2 ^ 32 /\
    slots_of (default [] (rq_access_list r)) <= 2 ^ 32;
}.
Definition fees_ok (f : FeeDetails) : Prop := forall p,
  fd_gas_price f = Some p \/ fd_max_fee_per_gas f = Some p -> is_u256 p.

Lemma as_u64_ok n : is_u64 n -> as_u64 n = Val n.
Proof. intros Hn. unfold as_u64. destruct (Z.ltb_spec n u64_modulus); [done|rlia]. Qed.

Lemma request_fees_ok r fees : request_ok r ->
  FeeDetails_new (rq_gas_price r) (rq_max_fee_per_gas r) (rq_max_priority_fee_per_gas r) = Some fees ->
  fees_ok (or_zero_fees fees).
Proof.
  intros Hr. assert (H0 : is_u256 0) by rlia. unfold FeeDetails_new, or_zero_fees.
  destruct (rq_max_fee_per_gas r) as [f|] eqn:Ef, (rq_max_priority_fee_per_gas r) as [q|] eqn:Eq;
    cbn [default]; try (destruct (_ <? q)); intros [= <-] p; cbn;
    try (destruct (rq_gas_price r) as [gp|] eqn:Eg; cbn); intros [[= <-]|[= <-]]; try done; eapply rk_fees; eauto.
Qed.

(** The floor of the kind of a request. *)
Definition kind_floor (r : EthTransactionRequest) : Z :=
  match rq_to r with Some _ => MIN_TRANSACTION_GAS | None => MIN_CREATE_GAS end.

Section returns.
Context {D : Type} {HR : DatabaseRef D} {HEV : EvmRef D} (ok : D -> Prop).
Context {HS : DatabaseRefSpec ok} {HES : EvmRefSpec ok}.
Context (env : Env) (current_gas_price : Z) (state : D) (block_env : BlockEnv).
Context (Hstate : ok state) (Hblock : block_wf (env_cfg env) block_env).
Context (Hprice : is_u256 current_gas_price).
Context (Hcoinbase : enabled (spec_of (env_cfg env)) SHANGHAI = true \/
  (forall d, ok d -> exists o, ref_basic d (block_coinbase block_env) = inl o)).

Lemma build_call_env_ok r fees g : request_ok r -> fees_ok fees -> is_u64 g ->
  exists e, build_call_env env current_gas_price (set_request_gas r g) fees block_env = Val e /\
    spec_of (env_cfg e) = spec_of (env_cfg env) /\ tx_wf (spec_of (env_cfg e)) e /\
    block_coinbase (env_block e) = block_coinbase block_env /\
    tx_gas_limit (env_tx e) = g /\ intrinsic_fits (env_tx e) /\
    TransactTo_is_create (tx_transact_to (env_tx e)) = bool_decide (rq_to r = None).
Proof.
  intros Hr Hf Hg. destruct Hr as [Hfrom Hto _ _ Hv [Hd Hdl] Hn [Hal Hsl]]. destruct Hblock.
  unfold build_call_env. cbn [set_request_gas rq_from rq_to rq_gas rq_value rq_data rq_nonce rq_access_list].
  change (default (block_gas_limit block_env) (Some g)) with g. cbv zeta.
  rewrite (as_u64_ok g Hg). cbn [mbind rust_bind].
  assert (En : exists n, match rq_nonce r with Some n => n ← as_u64 n; Val (Some n) | None => Val None end = Val n).
  { destruct (rq_nonce r) as [n|]; [|by eexists]. rewrite as_u64_ok by auto. by eexists. }
  destruct En as [n ->]. cbn [mbind rust_bind]. eexists. split; [done|]. split; [done|].
  assert (Hal' : to_revm_access_list (default [] (rq_access_list r)) = default [] (rq_access_list r)).
  { unfold to_revm_access_list. rewrite <- (list_fmap_id (default [] (rq_access_list r))) at 2.
    apply list_fmap_ext. by intros ? []. }
  assert (Hfee : is_u256 (default (block_basefee block_env) (fd_max_fee_per_gas fees))).
  { destruct (fd_max_fee_per_gas fees) as [p|] eqn:E; [apply (Hf p); auto|simpl; rlia]. }
  split; [|split; [done|]; split; [done|]; split].
  - assert (is_u256 (match fd_gas_price fees with Some p => p | None => default current_gas_price (fd_max_fee_per_gas fees) end)).
    { destruct (fd_gas_price fees) as [p|] eqn:E; [apply (Hf p); auto|].
      destruct (fd_max_fee_per_gas fees) as [p|] eqn:E'; [apply (Hf p); auto|done]. }
    constructor; cbn [env_cfg env_block env_tx]; [constructor; cbn; try first [done|rlia]| | | | |]; cbn; try first [done|rlia].
    + destruct (rq_from r) as [a|]; [by apply Hfrom|simpl; rlia].
    + destruct (rq_value r) as [v|]; [by apply Hv|simpl; rlia].
    + split; [done|]. rlia.
    + destruct (rq_to r) as [a|]; [by apply Hto|done].
  - split; [done|]. cbn. by rewrite Hal'.
  - cbn. by destruct (rq_to r).
Qed.
Abbreviation SPEC := (spec_of (env_cfg env)).
Context (Hhomestead : enabled SPEC HOMESTEAD = true).

(** The EVM returns on the calls of a request, whatever gas they are given. *)
Definition calls_return (r : EthTransactionRequest) (fees : FeeDetails) : Prop := forall st g, is_u64 g ->
  returns (call_at env current_gas_price state block_env r fees st g).

Lemma call_at_ok r fees st g : request_ok r -> fees_ok fees -> calls_return r fees -> is_u64 g ->
  exists res st', call_at env current_gas_price state block_env r fees st g = Val (res, st') /\
    match res with
    | inl (_, _, gas, _) => is_u64 gas /\ kind_floor r <= 2 * gas /\ kind_floor r <= g
    | inr _ => True
    end.
Proof.
  intros Hr Hf Hret Hg. destruct (build_call_env_ok r fees g Hr Hf Hg) as (e & E & Es & Hw & Ec & Eg & Hi & Et).
  destruct (Hret st g Hg) as [out0 Hout0]. revert Hout0.
  unfold call_at, call_with_state. rewrite E. cbn [mbind rust_bind].
  destruct (inspect_ref e state st) as [[out st']| | |] eqn:Ei; [intros _|done..].
  assert (Hcb : enabled (spec_of (env_cfg e)) SHANGHAI = true \/
    (forall d, ok d -> exists o, ref_basic d (block_coinbase (env_block e)) = inl o)) by (by rewrite Es, Ec).
  pose proof (inspect_ref_ok (ok := ok) e state st out st' Hw Hcb Hstate Ei) as Hout.
  cbn [mbind rust_bind]. eexists _, st'. split; [done|]. destruct out as [rs|x]; [|done].
  rewrite Eg, Es in Hout. destruct Hout as (Hgas & Hfl). specialize (Hfl Hi). unfold intrinsic_floor in Hfl.
  rewrite Et, Hhomestead, andb_true_r in Hfl.
  assert (Ek : (if bool_decide (rq_to r = None) then 53000 else 21000) = kind_floor r)
    by (unfold kind_floor; by destruct (rq_to r)).
  rewrite Ek in Hfl. unfold call_result. destruct rs as [res s]. cbn [rs_result rs_state] in *.
  destruct res; simpl in *; (split; [rlia|done]).
Qed.

Lemma midpoint_val hi lo : is_u64 hi -> is_u64 lo -> midpoint hi lo = Val ((hi + lo) / 2).
Proof.
  intros Hh Hl. unfold midpoint, u256_checked_add. destruct (Z.ltb_spec (hi + lo) u256_modulus); [done|rlia].
Qed.

(** Each round halves what is left. *)
Lemma halves n hi lo : 2 <= hi - lo -> hi - lo <= 2 ^ Z.of_nat n -> exists n', n = S n' /\
  lo <= (hi + lo) / 2 < hi /\ (hi + lo) / 2 - lo <= 2 ^ Z.of_nat n' /\ hi - (hi + lo) / 2 <= 2 ^ Z.of_nat n'.
Proof.
  intros H2 Hn. destruct n as [|n']; [simpl in Hn; lia|]. exists n'. split; [done|].
  rewrite Nat2Z.inj_succ, Z.pow_succ_r in Hn by lia. zlia.
Qed.

Lemma search_returns r fees fuel n rq st hi lo mid : request_ok r -> fees_ok fees -> calls_return r fees ->
  (forall g, set_request_gas rq g = set_request_gas r g) -> (n <= fuel)%nat -> is_u64 hi -> 0 <= lo <= hi ->
  (2 <= hi - lo -> exists n', n = S n' /\
    lo <= mid < hi /\ mid - lo <= 2 ^ Z.of_nat n' /\ hi - mid <= 2 ^ Z.of_nat n') ->
  exists res st', search env current_gas_price state block_env fuel st rq fees hi lo mid = Val (res, st').
Proof.
  intros Hr Hf Hret. revert n rq st hi lo mid. induction fuel as [|fuel IH]; intros n rq st hi lo mid Hrq Hn Hhi Hlo Hgap;
    simpl; unfold u256_checked_sub; (destruct (Z.leb_spec lo hi) as [_|]; [|lia]); cbn [unwrap mbind rust_bind];
    (destruct (Z.leb_spec (hi - lo) 1) as [H1|H1]; [by eexists _, _|]);
    (destruct Hgap as (n' & -> & Hmid & Hl & Hh); [lia|]); [lia|].
  rewrite Hrq. fold (call_at env current_gas_price state block_env r fees st mid).
  destruct (call_at_ok r fees st mid Hr Hf Hret) as (res & st1 & -> & _); [rlia|]. cbn [mbind rust_bind].
  rewrite !midpoint_val by rlia. cbn [mbind rust_bind].
  assert (Hup : exists res' st', search env current_gas_price state block_env fuel st1 (set_request_gas r mid) fees
    hi mid ((hi + mid) / 2) = Val (res', st')).
  { apply (IH n'); [done|lia|done|lia|]. intros H2. by apply halves. }
  assert (Hdown : exists res' st', search env current_gas_price state block_env fuel st1 (set_request_gas r mid) fees
    mid lo ((mid + lo) / 2) = Val (res', st')).
  { apply (IH n'); [done|lia|rlia|lia|]. intros H2. by apply halves. }
  destruct (is_gas_too_high res); [done|]. destruct res as [[[[exit out] gas] s]|e]; [|by eexists _, _].
  destruct (return_ok exit); [done|]. destruct (lacks_gas exit); [done|]. by eexists _, _.
Qed.

Lemma get_code_returns a : exists r, get_code_with_state state a = Val r.
Proof.
  unfold get_code_with_state. destruct (ref_basic state a) as [info|err] eqn:Ei; [|by eexists].
  set (acc := default _ info). destruct (code_hash acc =? KECCAK_EMPTY); [by eexists|].
  assert (Hcode : forall b, Primitives.code acc = Some b \/ ref_code_by_hash state (code_hash acc) = inl b -> fit_bytecode b).
  { intros b [Hb|Hb]; [|by eapply ref_code_ok]. destruct info as [info|]; [|injection Hb as <-; apply bytecode_new_wf].
    destruct (ref_basic_ok _ _ _ Hstate Ei) as (_ & _ & _ & Hc). by apply Hc. }
  assert (Hslice : forall b, fit_bytecode b -> exists l, slice (bc_bytecode b) 0 (Bytecode_len b) = Val l).
  { intros b [[[_ Hb] _] _]. exists (take (Z.to_nat (Bytecode_len b - 0)) (drop 0 (bc_bytecode b))).
    pose proof (zlen_nonneg (bc_bytecode b)). apply slice_val; unfold Bytecode_len; destruct (bc_state b); lia. }
  destruct (Primitives.code acc) as [b|] eqn:Eb.
  - destruct (Hslice b) as [l ->]; [by apply Hcode; left|]. by eexists.
  - destruct (ref_code_by_hash state (code_hash acc)) as [b|err] eqn:Er; [|by eexists].
    destruct (Hslice b) as [l ->]; [by apply Hcode; right|]. by eexists.
Qed.

Lemma simple_transfer_returns r : exists b, is_simple_transfer state r = Val b.
Proof.
  unfold is_simple_transfer. case_match; [|by eexists]. destruct (rq_to r) as [a|]; [|by eexists].
  destruct (get_code_returns a) as [x ->]. by eexists.
Qed.

Lemma highest_affordable_range r fees top hi : is_u64 top -> highest_affordable state r fees top = inl hi ->
  is_u64 hi.
Proof.
  intros Ht E. pose proof (highest_affordable_le _ _ _ _ _ E) as Hle. split; [|rlia]. revert E.
  unfold highest_affordable. destruct (rq_from r) as [from|]; [|intros [= <-]; rlia].
  destruct (Z.ltb_spec 0 (default 0 (fd_gas_price fees))) as [Hp|]; [|intros [= <-]; rlia].
  destruct (get_balance_with_state state from) as [funds|]; [|done].
  destruct (Z.ltb_spec funds (default 0 (rq_value r))) as [|Hv]; [done|]. intros [= <-].
  assert (0 <= (funds - default 0 (rq_value r)) / default 0 (fd_gas_price fees)) by (apply Z.div_pos; lia).
  case_match; rlia.
Qed.
End returns.

(** With precompiles that return, calls do. *)
Lemma table_calls_return {D : Type} {HR : DatabaseRef D} {HC : Crypto} {HCS : CryptoSpec} (ok : D -> Prop)
  {HS : DatabaseRefSpec ok} (pcs : SpecId -> Precompiles) env current_gas_price state block_env r fees :
  (forall SPEC, map_Forall (fun _ => precompile_ok) (pcs SPEC)) -> ok state -> block_wf (env_cfg env) block_env ->
  is_u256 current_gas_price ->
  enabled (spec_of (env_cfg env)) SHANGHAI = true \/
    (forall d, ok d -> exists o, ref_basic d (block_coinbase block_env) = inl o) ->
  request_ok r -> fees_ok fees ->
  calls_return (HEV := table_evm_ref pcs) env current_gas_price state block_env r fees.
Proof.
  intros Hp Hst Hblk Hprice Hcb Hr Hf st g Hg.
  destruct (build_call_env_ok env current_gas_price block_env Hblk Hprice r fees g Hr Hf Hg) as (e & E & Es & Hw & Ec & _).
  unfold call_at, call_with_state. rewrite E. cbn [mbind rust_bind].
  destruct (table_ref_safe ok pcs e state st (Hp _) Hw) as (out & st' & -> & _); [|done|].
  - unfold coinbase_read. by rewrite Es, Ec.
  - cbn [mbind rust_bind]. unfold returns. eexists. reflexivity.
Qed.

(** A request whose type goes with its fees has the floor of its kind. *)
Lemma base_of_known r t : into_typed_request r = Val (Some t) ->
  determine_base_gas_by_kind r = Val (kind_floor r).
Proof.
  intros E. unfold determine_base_gas_by_kind. rewrite E. cbn [mbind rust_bind]. f_equal. revert E.
  unfold into_typed_request, kind_of_to, kind_floor.
  destruct (match rq_transaction_type r with Some id => id ← as_u64 id; Val (Some id) | None => Val None end)
    as [tt| | |]; try done. cbn [mbind rust_bind]. cbv zeta. intros [= E]. revert E.
  destruct tt as [id|].
  - repeat (case_match; try done); intros [= <-]; simpl; by destruct (rq_to r).
  - destruct (rq_gas_price r), (rq_max_fee_per_gas r), (rq_max_priority_fee_per_gas r), (rq_access_list r);
      try done; intros [= <-]; simpl; by destruct (rq_to r).
Qed.


(** ** Examples *)
Section examples.
#[local] Instance no_tries_here : Tries := { state_merkle_trie_root _ := 0 }.
#[local] Existing Instances zero_hashes zero_hashes_spec point_bn point_bn_spec willing_os.
(** The tables of the program, with an administrator's precompile that
    reports an error where it would not return. *)
Definition tame_tables (SPEC : SpecId) : Precompiles := tame <$> Precompiles_new (to_precompile_id SPEC).
#[local] Instance bare_evm_ref {D : Type} {HR : DatabaseRef D} : EvmRef D := table_evm_ref tame_tables.

(** Account 800 reverts unless more than 10000 gas are left. *)
Definition example_gatekeeper : AccountInfo :=
  mkAccountInfo 0 1 7 (Some (mkBytecode
    [0x61; 0x27; 0x10; 0x5a; 0x11; 0x60; 13; 0x57; 0x60; 0; 0x60; 0; 0xfd; 0x5b; 0x00] 7 Raw)).
Definition example_call_db : MemDb :=
  insert_account (insert_account MemDb_default 100 (mkAccountInfo (10 ^ 18) 0 KECCAK_EMPTY None)) 800 example_gatekeeper.
Definition example_call_block : BlockEnv := mkBlockEnv 0 0 1 0 (Some 0) 64 100000.
Definition example_call_env : Env := mkEnv CfgEnv_default example_call_block TxEnv_default.
Definition empty_request : EthTransactionRequest :=
  mkEthTransactionRequest None None None None None None None None None None None None.
Definition example_request : EthTransactionRequest :=
  mkEthTransactionRequest (Some 100) (Some 800) None None None None None None None None None None.

(** 21000 for the transaction, five for the two instructions before the
    test, and 10001. *)
Lemma estimate_gas_best_witness : exists base l st',
  calls example_call_env 5 example_call_db example_call_block example_request
    (mkFeeDetails (Some 0) (Some 0) None) admin.Statics_init l st' /\
  base = 21000 /\ best_limit l base 31006.
Proof.
  destruct (estimate_gas_best example_call_env 5 example_call_db example_call_block admin.Statics_init admin.Statics_init
    example_request 31006) as [(H & _)|(fees & base & l & Hf & Hb & Hc & Hbest & _)].
  - vm_compute. reflexivity.
  - exfalso. revert H. vm_compute. discriminate.
  - vm_compute in Hf. injection Hf as <-. vm_compute in Hb. injection Hb as <-. eexists _, l, _.
    split; [exact Hc|]. split; [reflexivity|exact Hbest].
Defined.

Lemma example_request_ok : request_ok example_request.
Proof.
  split; simpl; try (intros ? [=]; fail).
  - intros a [= <-]. rlia.
  - intros a [= <-]. rlia.
  - by intros p [[=]|[[=]|[=]]].
  - split; [constructor|by vm_compute].
  - by split; vm_compute.
Qed.
Lemma example_call_db_ok : memdb_ok Snapshots.t_default example_call_db.
Proof.
  apply memdb_insert_ok; [apply memdb_insert_ok; [apply MemDb_default_ok|]|].
  - split_and!; [by vm_compute..|]. intros c [=].
  - split_and!; [by vm_compute..|]. intros c [= <-]. by apply raw_fit.
Qed.


(** A request that has both kinds of price, with the gas its call needs: its
    type is not known, the floor is taken to be that of a creation, and the
    bounds of the search cross. *)
Theorem estimate_of_unknown_type_panics :
  let request := mkEthTransactionRequest (Some 100) (Some 800) (Some 64) (Some 64) None (Some 40000) None None None
    None None None in
  into_typed_request request = Val None /\
  do_estimate_gas_with_state example_call_env 5 example_call_db example_call_block admin.Statics_init request = Panic /\
  exists r st, call_with_state example_call_env 5 admin.Statics_init example_call_db request
    (mkFeeDetails (Some 64) (Some 64) None) example_call_block = Val (inl r, st) /\ return_ok r.1.1.1 = true.
Proof.
  split; [vm_compute; reflexivity|]. split; [vm_compute; reflexivity|].
  eexists _, _. split; [vm_compute; reflexivity|done].
Qed.
End examples.

(** The typed request never has the access list of the request: the
    scrutinee of the match has taken it. *)
Theorem typed_request_drops_access_list (r : EthTransactionRequest) :
  match into_typed_request r with
  | Val (Some (EIP2930Request t)) => ar_access_list t = []
  | Val (Some (EIP1559Request t)) => fr_access_list t = []
  | _ => True
  end.
Proof.
  unfold into_typed_request.
  destruct (match rq_transaction_type r with Some id => id ← as_u64 id; Val (Some id) | None => Val None end)
    as [tt| | |]; try done. cbn [mbind rust_bind]. cbv zeta. destruct tt as [id|].
  - by repeat case_match; simplify_eq.
  - by destruct (rq_gas_price r), (rq_max_fee_per_gas r), (rq_max_priority_fee_per_gas r), (rq_access_list r).
Qed.

(** ** State overrides and the administrator *)
Section takeover.
Context {HX : HashCrates} {HB : Bn} {HO : Os}.
#[local] Existing Instances no_tries zero_hashes zero_hashes_spec point_bn point_bn_spec willing_os example_evm example_chrono example_chrono_spec example_blooms example_hashing map_disk.
#[local] Instance pending_evm : Evm (CacheDB MemDb) := table_evm ∅.
#[local] Instance full_evm_ref (D : Type) (HR : DatabaseRef D) : EvmRef D := node_evm_ref.

(** Code that sends [input], of 22 bytes, to the administrator's precompile
    as its callers must: statically, with the required gas. *)
Definition call_admin (input : list Z) : list Z :=
  [0x75] ++ input ++ [0x60; 0; 0x52; 0x60; 0; 0x60; 0; 0x60; 22; 0x60; 10; 0x61; 5; 0x39; 0x61; 7; 0xd0; 0xfa; 0x00].
(** The request: the account of the administrator is overridden to hold that
    code, and called. *)
Definition forged_call (input : list Z) :=
  eth_call boxed example_backend 0 []
    (mkEthTransactionRequest None (Some 0x31337) None None None None None None None None None None) None
    (Some [(0x31337, mkAccountOverride None (Some (call_admin input)) None None None)]).

(** The caller of an [eth_call] needs no authority to be the
    administrator.  The settings of the precompile are global and are not
    undone after a call, which otherwise writes nothing: with a state override
    that puts code at the administrator's address, anyone can make [0xbad]
    the administrator, and anyone can have the node write past the end of an
    allocation (the dump command). *)
Theorem override_forges_admin :
  (exists b, forged_call ([2; 1] ++ replicate 18 0 ++ [0x0b; 0xad]) = Val (inl [], b) /\
    b_db b = b_db example_backend /\ b_storage b = b_storage example_backend /\
    admin.MULTISIG (b_statics example_backend) = 0x31337 /\ admin.MULTISIG (b_statics b) = 0xbad) /\
  forged_call ([2; 4] ++ replicate 20 0) = Undef.
Proof.
  split; [|vm_compute; reflexivity]. eexists. split; [vm_compute; reflexivity|]. by split_and!.
Qed.
End takeover.
