(* ===== verification/NodeSpec.v ===== *)
(** * The node keeps running

    The pool, the miner and the block producer together: whatever is
    submitted, if the EVM returns on it, and dropped, and however the steps
    of the node's service fall between, nothing panics or runs forever, the
    pool and the backend stay fit, and the chain grows by linked blocks.  A snapshot of the node undoes
    the blocks mined after it. *)

From stdpp Require Import base option list gmap sets.
From Stdlib Require Import ZArith Lia.
From S2P Require Import Prelude Primitives Safety Execution Precompile PrecompileSpec Journal JournalRevert EvmImpl CacheDB EvmSafety TransactSpec CacheDBSpec EvmTable ChainSpec NodeDb BlockStates BlockStatesSpec NodeDbSpec EthTransaction Fees FeesSpec TxPool Miner TxReady TxPoolSpec NodePool MinerSpec.

(** ** What the miner takes from the pool *)

Lemma take_collect fuel n it l : TransactionsIterator.collect fuel it = Val l ->
  TransactionsIterator.take n it = take n l.
Proof.
  revert n it l. induction fuel as [|fuel IH]; intros n it l E; simpl in E;
    destruct (TransactionsIterator.next it) as [[t|] it'] eqn:En; try done.
  - injection E as <-. destruct n as [|n]; simpl; [done|by rewrite En].
  - destruct (TransactionsIterator.collect fuel it') as [l'| | |] eqn:E'; try done. injection E as <-.
    destruct n as [|n]; simpl; [done|]. rewrite En. by rewrite (IH n it' l').
  - injection E as <-. destruct n as [|n]; simpl; [done|by rewrite En].
Qed.

Section pool.
Context {TS : TxShape}.

(** Each ready transaction has had an id of its own. *)
Lemma ready_size orphans r : ready_wf orphans r ->
  Z.of_nat (size (ReadyTransactions.ready_tx r)) <= ReadyTransactions.id r.
Proof.
  intros Hr. pose proof (rw_id_range _ _ Hr) as H0.
  set (l := (fun hx => rf_id (transaction hx.2)) <$> map_to_list (ReadyTransactions.ready_tx r)).
  assert (Hl : length l = size (ReadyTransactions.ready_tx r)) by (unfold l; by rewrite length_fmap, length_map_to_list).
  assert (Hnd : NoDup l).
  { apply NoDup_fmap_2_strong; [|apply NoDup_map_to_list].
    intros [h x] [k y] Hx%elem_of_map_to_list Hy%elem_of_map_to_list E. simpl in *.
    pose proof (rw_id_inj _ _ Hr _ _ _ _ Hx Hy E) as ->. congruence. }
  assert (Hin : l ⊆ seqZ 0 (ReadyTransactions.id r)).
  { intros i ([h x] & -> & Hx%elem_of_map_to_list)%list_elem_of_fmap. apply elem_of_seqZ.
    pose proof (rw_id _ _ Hr h x Hx). simpl. lia. }
  apply NoDup_submseteq in Hin; [|done]. apply submseteq_length in Hin. rewrite length_seqZ, Hl in Hin. lia.
Qed.

(** What a block takes: transactions the node was given, no more than the
    pool has. *)
Lemma poll_takes mode event p : pool_wf p ->
  exists r mode', MiningMode_poll mode (size (ReadyTransactions.ready_tx (pool.ready_transactions p))) event p =
    Val (r, mode') /\
  forall ts, r = Some ts -> Forall tx_ok ts /\ zlen ts <= ids p.
Proof.
  intros Hp. destruct (iterator_yields _ (po_ready _ Hp) p eq_refl) as (l & El & _ & Hl).
  assert (Hall : Forall tx_ok l /\ zlen l <= ids p).
  { split.
    - apply Forall_forall. intros t Ht. rewrite Hl in Ht.
      apply list_elem_of_fmap in Ht as ([h x] & -> & Hx%elem_of_map_to_list).
      by destruct (rw_tx _ _ (po_ready _ Hp) h x Hx) as (_ & Hok & _).
    - unfold zlen. rewrite Hl, length_fmap, length_map_to_list. pose proof (ready_size _ _ (po_ready _ Hp)).
      unfold ids. lia. }
  destruct mode as [|m|]; simpl.
  - by eexists _, _.
  - unfold ReadyTransactionMiner_poll. cbv zeta. rewrite (take_collect _ _ _ _ El).
    case_bool_decide; [by eexists _, _|]. eexists _, _. split; [done|]. intros ts Hts.
    case_bool_decide; [done|]. injection Hts as <-. split; [apply Forall_take, Hall|].
    destruct Hall as [_ Hall]. unfold zlen in *. rewrite length_take. lia.
  - unfold FixedBlockTimeMiner_poll. destruct event; [|by eexists _, _].
    rewrite El. eexists _, _. split; [done|]. by intros ts [= <-].
Qed.
End pool.

(** The node is given transactions that may be mined. *)
Definition service_shape {DB : Type} {HDB : Database DB} {HEV : Evm DB} (ok : DB -> Prop) (ts : list PoolTransaction) : TxShape := {|
  rank := @rank (node_shape ts);
  shape := @shape (node_shape ts);
  admissible t := submitted t /\ minable ok t;
|}.

Lemma service_tx_ok {DB : Type} {HDB : Database DB} {HEV : Evm DB} (ok : DB -> Prop) ts t :
  consistent ts -> t ∈ ts -> submitted t -> minable ok t -> tx_ok (TS := service_shape ok ts) t.
Proof. intros Hc Ht Hs Hf. destruct (submitted_ok ts t Hc Ht Hs) as [H1 H2 _]. by split. Qed.

(** ** The chain *)
Section chain.
Context {HBL : Blooms} {HBH : BlockHashing} {HTC : Chrono}.

(** Block [k] is there and names the one before it. *)
Definition linked (s : BlockchainStorage) (k : Z) : Prop := exists h parent block,
  st_hashes s !! k = Some h /\ st_hashes s !! (k - 1) = Some parent /\ st_blocks s !! h = Some block /\
  header_hash (bl_header block) = h /\ hd_parent_hash (bl_header block) = parent /\
  hd_number (bl_header block) = k.

(** No two blocks have the same hash. *)
Definition distinct (s : BlockchainStorage) : Prop := forall i j h,
  st_hashes s !! i = Some h -> st_hashes s !! j = Some h -> i = j.

(** The chain from block [start]; as the hash is any function, its blocks
    are linked unless two of them collide. *)
Record chain_ok (start : Z) (s : BlockchainStorage) : Prop := mkChainOk {
  co_height : start <= st_best_number s;
  co_numbers k : is_Some (st_hashes s !! k) <-> start <= k <= st_best_number s;
  co_linked : distinct s -> forall k, start < k <= st_best_number s -> linked s k;
}.

Lemma store_block_chain keeper e start s info h : chain_ok start s ->
  st_hashes s !! st_best_number s = Some (st_best_hash s) ->
  let header := bl_header (bi_block info) in
  h = header_hash header -> hd_parent_hash header = st_best_hash s ->
  hd_number header = st_best_number s + 1 ->
  chain_ok start (store_block keeper e s info (st_best_number s + 1) h).
Proof.
  intros [Hh Hn Hl] Ht header -> Hp Hnum. set (n := st_best_number s + 1).
  assert (Hnew : st_hashes s !! n = None) by (apply eq_None_not_Some; rewrite Hn; lia).
  split; unfold linked, distinct; cbn [store_block st_best_number st_hashes st_blocks]; [lia| |].
  - intros k. rewrite lookup_insert_is_Some', Hn. lia.
  - intros Hd k Hk. destruct (decide (k = n)) as [->|Hne].
    + exists (header_hash header), (st_best_hash s), (bi_block info). rewrite !lookup_insert_eq, lookup_insert_ne by lia.
      split; [done|]. split; [by replace (n - 1) with (st_best_number s) by lia|]. by split_and!.
    + destruct (Hl) with (k := k) as (hk & parent & block & E1 & E2 & E3 & E4); [|lia|].
      { intros i j x Hi Hj. apply (Hd i j x); (rewrite lookup_insert_ne; [done|]); congruence. }
      assert (header_hash header <> hk).
      { intros <-. apply Hne. symmetry. apply (Hd n k (header_hash header)); [apply lookup_insert_eq|].
        by rewrite lookup_insert_ne by congruence. }
      exists hk, parent, block. rewrite !lookup_insert_ne by (done || lia). destruct E4 as (? & ? & ?). by split_and!.
Qed.

Lemma new_chain env base_fee timestamp : chain_ok 0 (BlockchainStorage_new env base_fee timestamp).
Proof.
  split; simpl; [lia| |lia]. intros k. rewrite lookup_singleton_is_Some. lia.
Qed.
Lemma forked_chain n h d : chain_ok n (BlockchainStorage_forked n h d).
Proof. split; simpl; [lia| |lia]. intros k. rewrite lookup_singleton_is_Some. lia. Qed.
End chain.

(** ** The service *)
Section service.
Context {DB : Type} {HDB : Database DB} {HR : DatabaseRef DB} {HEV : Evm DB} {HD : Db DB}.
Context {StateDb : Type} {HM : MaybeHashDatabase StateDb} {HCS : CurrentState DB StateDb} {HFI : FileSystem}.
Context {HBL : Blooms} {HBH : BlockHashing} {HTC : Chrono} {HBS : BlockHashingSpec} {HTS : ChronoSpec} {HCH : pool.Channel}.
Context (ok : DB -> Prop) {HS : DatabaseSpec ok} {HES : EvmSpec ok} {HDS : DbSpec ok}.
Abbreviation backend := (Backend (DB := DB) (StateDb := StateDb)).
Abbreviation node := (NodeService (DB := DB) (StateDb := StateDb)).

Lemma mine_chain start (b : backend) now ts : backend_ok ok b -> st_best_number (b_storage b) < u64_max ->
  Forall (minable ok) ts ->
  block_gas_limit (env_block (b_env b)) * zlen ts <= u64_max -> dated_block b now = true ->
  chain_ok start (b_storage b) ->
  exists out b', do_mine_block b now ts = Val (out, b') /\ backend_ok ok b' /\ same_chain b b' /\
    st_best_number (b_storage b') = st_best_number (b_storage b) + 1 /\ chain_ok start (b_storage b').
Proof.
  intros Hb Hmax Hts Hgas Hdate Hc. destruct (executor_for_ok ok b now Hb Hmax) as (_ & Enum & _).
  destruct (mine_ok ok b now ts Hb Hmax Hts Hgas Hdate) as (out & b' & E & Hb' & Hs & Hn).
  destruct (mine_runs ok b now ts Hb Hmax Hts Hgas Hdate) as (os & y & b2 & fee & _ & _ & _ & E2 & _ & _ & _ & _ & _ & Est & _).
  assert (b2 = b') as -> by congruence. exists out, b'. split; [done|]. split; [done|]. split; [done|].
  split; [done|]. rewrite Est. apply store_block_chain; [done|apply Hb|done|done|exact Enum].
Qed.

(** The node runs [events] that submit [given]. *)
Context (given : list PoolTransaction) (start top n_events gas_limit : Z).
#[local] Instance given_shape : TxShape := service_shape ok given.

Definition batch (ts : list PoolTransaction) : Prop :=
  Forall (minable ok) ts /\ zlen ts <= n_events.

(** After [i] events. *)
Record node_inv (i : Z) (n : node) : Prop := mkNodeInv {
  ni_pool : pool_wf (pool.inner (ns_pool n));
  ni_ids : ids (pool.inner (ns_pool n)) <= i;
  ni_backend : backend_ok ok (ns_backend n);
  ni_chain : chain_ok start (b_storage (ns_backend n));
  ni_gas : block_gas_limit (env_block (b_env (ns_backend n))) <= gas_limit;
  ni_number : st_best_number (b_storage (ns_backend n)) <= top + i;
  ni_mining ts : ns_block_mining n = Some ts -> batch ts;
  ni_queued : Forall batch (ns_queued n);
}.

Definition event_ok (e : node_event) : Prop := match e with Submit t => tx_ok t | _ => True end.

Lemma node_pool_step i n op : node_inv i n -> i + 1 <= u64_max -> op_ok op ->
  exists p, run_op (ns_pool n) op = Val p /\ node_inv (i + 1) (set_pool n p).
Proof.
  intros [Hp Hi Hb Hc Hg Hn Hm Hq] Hmax Hop.
  destruct (run_op_spec (ns_pool n) op Hp Hop) as (p & E & Hp' & Hi'); [lia|].
  exists p. split; [done|]. split; simpl; [done|lia|done|done|done|lia|done|done].
Qed.

Lemma node_inv_next i n : node_inv i n -> node_inv (i + 1) n.
Proof. intros []. split; try done; lia. Qed.

Lemma run_op_bind {R} (r : rust (R * pool.Pool)) p (n : node) : ('(_, p) ← r; Val p) = Val p ->
  ('(_, p) ← r; Val (set_pool n p)) = Val (set_pool n p).
Proof. destruct r as [[x q]| | |]; [|done..]. by intros [= ->]. Qed.

(** The block that is finished has its date. *)
Definition dated_event (n : node) (e : node_event) : bool :=
  match e, ns_block_mining n with FinishBlock now, Some _ => dated_block (ns_backend n) now | _, _ => true end.
Fixpoint dated_events (n : node) (events : list node_event) : bool :=
  match events with
  | [] => true
  | e :: events => dated_event n e && match handle n e with Val n => dated_events n events | _ => true end
  end.

Lemma finish_ok i n now : node_inv i n -> dated_event n (FinishBlock now) = true -> i + 1 <= n_events -> top + n_events <= u64_max -> n_events <= u64_max ->
  gas_limit * n_events <= u64_max ->
  exists n', finish_block n now = Val n' /\ node_inv (i + 1) n'.
Proof.
  intros Hn Hdate Hi Htop Hmax Hgas. unfold finish_block. cbn [dated_event] in Hdate. destruct (ns_block_mining n) as [ts|] eqn:Em;
    [|exists n; split; [done|by apply node_inv_next]].
  destruct (ni_mining _ _ Hn ts Em) as [Hts Hlen]. pose proof (ni_number _ _ Hn).
  pose proof (bo_gas_limit ok _ (ni_backend _ _ Hn)) as Hgl. pose proof (ni_gas _ _ Hn) as Hle.
  destruct (mine_chain start (ns_backend n) now ts) as (out & b & -> & Hb & Hs & Hnum & Hc);
    [apply Hn|lia|done|unfold zlen in *; nia|done|apply Hn|]. cbn [mbind rust_bind].
  destruct (node_pool_step i n (MinedBlock out) Hn) as (p & E & Hp); [lia|done|]. simpl in E.
  destruct (pool.on_mined_block (ns_pool n) out) as [[x q]| | |]; [|done..]. injection E as ->.
  cbn [mbind rust_bind]. eexists. split; [done|]. destruct Hp. destruct Hs as (Hg & _).
  split; simpl; [done|done|done|done|by rewrite Hg|lia|done|done].
Qed.

Lemma poll_ok i n event : node_inv i n -> i <= n_events ->
  exists n', poll_miner n event = Val n' /\ node_inv i n'.
Proof.
  intros Hn Hi. unfold poll_miner.
  destruct (poll_takes (ns_miner n) event _ (ni_pool _ _ Hn)) as (r & mode & -> & Hr). cbn [mbind rust_bind].
  eexists. split; [done|]. destruct Hn. split; simpl; [done..|].
  destruct r as [ts|]; [|done]. destruct (Hr ts eq_refl) as [Hts Hlen]. apply Forall_app. split; [done|].
  constructor; [|done]. split; [|lia]. eapply Forall_impl; [exact Hts|]. by intros t [_ _ [_ Hf]].
Qed.

Lemma start_ok i n : node_inv i n -> node_inv i (start_block n).
Proof.
  intros Hn. unfold start_block. destruct (ns_block_mining n) as [ts|] eqn:Em; [done|].
  destruct (ns_queued n) as [|ts queued] eqn:Eq; [done|]. destruct Hn as [? ? ? ? ? ? ? Hq]. rewrite Eq in Hq.
  apply Forall_cons in Hq as [Hts Hq]. split; simpl; [done..| |done]. by intros ? [= <-].
Qed.

Lemma handle_ok i n e : node_inv i n -> event_ok e -> dated_event n e = true -> i + 1 <= n_events -> top + n_events <= u64_max ->
  n_events <= u64_max -> gas_limit * n_events <= u64_max ->
  exists n', handle n e = Val n' /\ node_inv (i + 1) n'.
Proof.
  intros Hn He Hdate Hi Htop Hmax Hgas. destruct e as [t|h|event| |now]; cbn [handle].
  - destruct (node_pool_step i n (AddTransaction t) Hn) as (p & E & Hp); [lia|done|].
    exists (set_pool n p). split; [by apply run_op_bind|done].
  - destruct (node_pool_step i n (DropTransaction h) Hn) as (p & E & Hp); [lia|done|].
    exists (set_pool n p). split; [by apply run_op_bind|done].
  - destruct (poll_ok i n event Hn) as (n' & E & Hn'); [lia|]. exists n'. split; [done|by apply node_inv_next].
  - eexists. split; [done|]. by apply node_inv_next, start_ok.
  - by apply finish_ok.
Qed.

Lemma run_node_inv events i n : node_inv i n -> Forall event_ok events -> dated_events n events = true -> i + zlen events <= n_events ->
  top + n_events <= u64_max -> n_events <= u64_max -> gas_limit * n_events <= u64_max ->
  exists n', run_node n events = Val n' /\ node_inv (i + zlen events) n'.
Proof.
  unfold run_node, zlen. intros Hn He Hdate Hi Htop Hmax Hgas. revert i n Hn Hdate Hi.
  induction He as [|e events He _ IH]; intros i n Hn Hdate Hi; cbn [foldl].
  { exists n. split; [done|]. by rewrite Z.add_0_r. }
  cbn [dated_events] in Hdate. apply andb_true_iff in Hdate as [Hde Hdate].
  simpl in Hi. destruct (handle_ok i n e Hn He Hde) as (n1 & E & Hn1); [lia..|].
  cbn [mbind rust_bind]. rewrite E in Hdate |- *. destruct (IH (i + 1) n1 Hn1 Hdate) as (n2 & E2 & Hn2); [lia|].
  exists n2. split; [done|].
  replace (i + Z.of_nat (length (e :: events))) with (i + 1 + Z.of_nat (length events)) by (simpl; lia). done.
Qed.
End service.

(** ** What a node does *)
Section node.
Context {DB : Type} {HDB : Database DB} {HR : DatabaseRef DB} {HEV : Evm DB} {HD : Db DB}.
Context {StateDb : Type} {HM : MaybeHashDatabase StateDb} {HCS : CurrentState DB StateDb} {HFI : FileSystem}.
Context {HBL : Blooms} {HBH : BlockHashing} {HTC : Chrono} {HBS : BlockHashingSpec} {HTS : ChronoSpec} {HCH : pool.Channel}.
Context (ok : DB -> Prop) {HS : DatabaseSpec ok} {HES : EvmSpec ok} {HDS : DbSpec ok}.

(** What the events submit. *)
Definition submissions (events : list node_event) : list PoolTransaction :=
  omap (fun e => match e with Submit t => Some t | _ => None end) events.

(** A node that starts on a backend, with nothing in its pool. *)
Definition idle_node (listeners : list pool.Sender) (b : Backend (DB := DB) (StateDb := StateDb))
  (mode : MiningMode) : NodeService := mkNodeService (empty_pool listeners) b None [] mode.

(** A node never stops: whatever is submitted to it, if the EVM returns on
    it, and dropped, and however the polls of its miner and the beginnings
    and ends of its blocks, each with its date, fall between, nothing panics or runs forever; afterwards the queues of
    its pool are consistent, its backend is fit for the next block, and its
    chain has every number from its first block to the last, each block
    naming the one before unless two of their hashes collide. *)
Theorem node_keeps_running listeners (b : Backend (DB := DB) (StateDb := StateDb)) mode events start :
  backend_ok ok b -> chain_ok start (b_storage b) ->
  Forall submitted (submissions events) ->
  Forall (minable ok) (submissions events) ->
  consistent (submissions events) -> dated_events (idle_node listeners b mode) events = true ->
  block_gas_limit (env_block (b_env b)) * zlen events <= u64_max ->
  st_best_number (b_storage b) + zlen events <= u64_max ->
  exists n, run_node (idle_node listeners b mode) events = Val n /\
    queues_ok (pool.inner (ns_pool n)) /\ backend_ok ok (ns_backend n) /\
    chain_ok start (b_storage (ns_backend n)).
Proof.
  intros Hb Hc Hs Hf Hcons Hdate Hgas Hmax. pose proof (proj2 (bo_number ok _ Hb)) as H0.
  destruct (run_node_inv ok (submissions events) start (st_best_number (b_storage b)) (zlen events)
    (block_gas_limit (env_block (b_env b))) events 0 (idle_node listeners b mode)) as (n & E & []); [| |done|lia..|].
  - split; simpl; try done; [apply pool_wf_default|lia].
  - apply Forall_forall. intros e He. destruct e as [t|h|event| |now]; [|done..].
    assert (Ht : t ∈ submissions events) by (apply list_elem_of_omap; by exists (Submit t)).
    rewrite Forall_forall in Hs, Hf. by apply (service_tx_ok ok); auto.
  - exists n. split; [done|]. split; [by eapply pool_wf_queues|by split].
Qed.
End node.

(** ** Snapshots of the node *)
Section snapshots.
Context {HC : Crypto} {HCS : CryptoSpec} {HT : Tries} {HEV : Evm MemDb} {HES : forall S, EvmSpec (memdb_ok S)}.
Context {HFI : FileSystem} {HBL : Blooms} {HBH : BlockHashing} {HTC : Chrono} {HBS : BlockHashingSpec} {HTS : ChronoSpec}.
Abbreviation backend := (Backend (DB := MemDb) (StateDb := MemDb)).
Abbreviation backend_fit b := (backend_ok (memdb_ok (snapshots (b_db b))) b).

(** What a chain stores, but for its tip and its difficulty. *)
Definition contents (s : BlockchainStorage) : gmap Z Block * gmap Z Z * gmap Z MinedTransaction * Z :=
  (st_blocks s, st_hashes s, st_transactions s, st_genesis_hash s).

Lemma revert_block_contents s t n : contents s = contents t ->
  contents (revert_block s n) = contents (revert_block t n).
Proof.
  unfold contents, revert_block. intros [= E1 E2 E3 E4]. rewrite E2, E1.
  destruct (st_hashes t !! n) as [h|]; [|by rewrite E1, E2, E3, E4].
  destruct (st_blocks t !! h) as [block|]; simpl; by rewrite ?E1, ?E3, ?E4.
Qed.
Lemma revert_blocks_contents l s t : contents s = contents t ->
  contents (foldl revert_block s l) = contents (foldl revert_block t l).
Proof. revert s t. induction l as [|n l IH]; intros s t E; [done|]. cbn [foldl]. by apply IH, revert_block_contents. Qed.

Lemma delete_keys {A : Type} (l : list PendingTransaction) (m : gmap Z A) h :
  foldl (fun m tx => delete (pt_hash tx) m) m l !! h =
  if decide (h ∈ pt_hash <$> l) then None else m !! h.
Proof.
  revert m. induction l as [|tx l IH]; intros m; cbn [foldl fmap list_fmap].
  { rewrite decide_False; [done|apply not_elem_of_nil]. }
  rewrite IH. destruct (decide (h = pt_hash tx)) as [->|Hne].
  - rewrite lookup_delete_eq, (decide_True (P := _ ∈ _ :: _)) by apply elem_of_cons, or_introl, eq_refl. by case_decide.
  - rewrite lookup_delete_ne by done. case_decide as H1; case_decide as H2; [done| | |done]; exfalso;
      [by apply H2, elem_of_cons; right|by apply elem_of_cons in H2 as [|]].
Qed.

(** A block that is forgotten leaves what was there before it. *)
Lemma revert_stored e s header executed infos receipts ommers n h : st_hashes s !! n = None -> st_blocks s !! h = None ->
  Forall (fun tx => st_transactions s !! hash (ex_transaction tx) = None) executed ->
  zip infos receipts = mined_list executed ->
  contents (revert_block (store_block None e s
    (mkBlockInfo (mkBlock header (pending_of <$> executed) ommers) infos receipts) n h) n) = contents s.
Proof.
  intros Hn Hh Hts Ez. unfold revert_block, contents, store_block, forget_transactions.
  cbn [st_hashes st_blocks st_transactions st_genesis_hash bi_block bi_transactions bi_receipts].
  rewrite lookup_insert_eq, lookup_insert_eq. cbn [st_hashes st_blocks st_transactions st_genesis_hash bl_transactions].
  rewrite !delete_insert_id by done. f_equal. f_equal. apply map_eq. intros k. rewrite delete_keys, Ez.
  rewrite <- list_fmap_compose. change (pt_hash ∘ pending_of) with (hash ∘ ex_transaction).
  case_decide as Hk.
  - symmetry. apply list_elem_of_fmap in Hk as (tx & -> & Htx). by apply (proj1 (Forall_forall _ _) Hts).
  - apply store_other. by rewrite mined_list_hashes.
Qed.

Lemma mine_undo S start (b : backend) now ts : backend_ok (memdb_ok S) b -> st_best_number (b_storage b) < u64_max ->
  Forall (minable (memdb_ok S)) ts ->
  block_gas_limit (env_block (b_env b)) * zlen ts <= u64_max -> dated_block b now = true ->
  chain_ok start (b_storage b) -> b_transaction_block_keeper b = None ->
  exists out b', do_mine_block b now ts = Val (out, b') /\ backend_ok (memdb_ok S) b' /\ same_chain b b' /\
    st_best_number (b_storage b') = st_best_number (b_storage b) + 1 /\ chain_ok start (b_storage b') /\
    (st_blocks (b_storage b) !! st_best_hash (b_storage b') = None ->
     Forall (fun t => st_transactions (b_storage b) !! hash t = None) (pool.included out) ->
     contents (revert_block (b_storage b') (st_best_number (b_storage b) + 1)) = contents (b_storage b)).
Proof.
  intros Hb Hmax Hts Hgas Hdate Hc Hk.
  destruct (mine_chain (memdb_ok S) start b now ts Hb Hmax Hts Hgas Hdate Hc) as (out & b' & E & Hb' & Hs & Hn & Hc').
  destruct (mine_runs (memdb_ok S) b now ts Hb Hmax Hts Hgas Hdate) as (os & y & b2 & fee & _ & _ & _ & E2 & _ & _ & _ & _ & _ & Est & _).
  rewrite E in E2. injection E2 as -> <-. exists (pool.mkMinedBlockOutcome (st_best_number (b_storage b) + 1)
    (ex_transaction <$> executed os) (rejected os)), b'. split; [done|]. split; [done|]. split; [done|].
  split; [done|]. split; [done|]. rewrite Est, Hk. cbn [store_block st_best_hash pool.included].
  intros Hh Hf. apply revert_stored; [|done| |done].
  - apply eq_None_not_Some. rewrite (co_numbers _ _ Hc). lia.
  - by apply Forall_fmap in Hf.
Qed.

Lemma mine_blocks_undo S start l (b : backend) : backend_ok (memdb_ok S) b ->
  st_best_number (b_storage b) + zlen l <= u64_max -> batches_ok (memdb_ok S) b l -> dated_blocks b l = true ->
  fresh_blocks b l = true -> chain_ok start (b_storage b) -> b_transaction_block_keeper b = None ->
  exists b', mine_blocks b l = Val b' /\ backend_ok (memdb_ok S) b' /\ same_chain b b' /\
    st_best_number (b_storage b') = st_best_number (b_storage b) + zlen l /\
    contents (foldl revert_block (b_storage b') (reverse (seqZ (st_best_number (b_storage b) + 1) (zlen l)))) =
      contents (b_storage b).
Proof.
  revert b. induction l as [|[now ts] l IH]; intros b Hb Hmax Hl Hd Hf Hc Hk.
  { exists b. unfold zlen. simpl. split; [done|]. split; [done|]. split; [by split_and!|]. split; [lia|done]. }
  unfold zlen in *. cbn [length] in *. rewrite Nat2Z.inj_succ in *. apply Forall_cons in Hl as [[Hts Hgas] Hl].
  apply dated_blocks_cons in Hd as [Hd Hd1].
  destruct (mine_undo S start b now ts Hb) as (out & b1 & E & Hb1 & Hs & Hn & Hc1 & Hu); [lia|done..|].
  destruct (fresh_blocks_cons _ _ _ _ _ _ E Hf) as (Hh & Hfr & Hf1). pose proof Hs as (Hg & _ & _ & _ & Hk1).
  destruct (IH b1 Hb1) as (b2 & E2 & Hb2 & Hs2 & Hn2 & Hu2); [lia| |by eapply Hd1|done|done|congruence|].
  { unfold batches_ok. by rewrite Hg. }
  exists b2. cbn [mine_blocks]. rewrite E. cbn [mbind rust_bind]. split; [done|]. split; [done|].
  split; [by eapply same_chain_trans|]. split; [lia|].
  rewrite seqZ_cons, reverse_cons, foldl_app by lia. cbn [foldl].
  rewrite Z.pred_succ. replace (Z.succ (st_best_number (b_storage b) + 1)) with (st_best_number (b_storage b1) + 1) by lia.
  rewrite <- (Hu Hh Hfr). by apply revert_block_contents.
Qed.

(** The database never fails. *)
Lemma memdb_answers S a : db_answers (memdb_ok S) a.
Proof. intros m _. destruct ((db_basic m a).1) as [o|[]]. by exists o. Qed.
Lemma memdb_coinbase S cfg blk : coinbase_known (memdb_ok S) cfg blk.
Proof. right. apply memdb_answers. Qed.

(** The backend is fit with another database of well-formed contents. *)
Lemma refit (b b' : backend) : backend_fit b -> inner (b_db b') = inner (b_db b) ->
  b_env b' = b_env b -> b_storage b' = b_storage b -> b_fees b' = b_fees b -> b_time b' = b_time b ->
  b_states b' = b_states b -> backend_fit b'.
Proof.
  intros [[Hd _] Hbl _ Hg Hn Ht Hf Htm Hst] E1 E2 E3 E4 E5 E6. split; rewrite ?E2, ?E3, ?E4, ?E5, ?E6; try done.
  - split; [by rewrite E1|done].
  - apply memdb_coinbase.
Qed.

Lemma create_snapshot_spec (b : backend) : backend_fit b -> snapshots_wf (b_db b) ->
  Snapshots.id (snapshots (b_db b)) + 1 < u256_modulus ->
  let '(id, b1) := create_snapshot b in
  backend_fit b1 /\ b_storage b1 = b_storage b /\ b_env b1 = b_env b /\
  b_transaction_block_keeper b1 = b_transaction_block_keeper b /\
  b_active_snapshots b1 !! id = Some (best_number b, st_best_hash (b_storage b)) /\
  0 <= id < u256_modulus - 1 /\ Snapshots.snapshots (snapshots (b_db b1)) !! id = Some (inner (b_db b)).
Proof.
  intros Hb [Hid _] Hmax. unfold create_snapshot. simpl. unfold MemDb_snapshot. simpl.
  split; [exact (refit b (create_snapshot b).2 Hb eq_refl eq_refl eq_refl eq_refl eq_refl eq_refl)|].
  split; [done|]. split; [done|]. split; [done|].
  split; [by rewrite lookup_insert_eq|]. split; [lia|]. by rewrite lookup_insert_eq.
Qed.

(** C17: reverting to a snapshot of the node undoes the blocks mined after
    it, however many, of transactions on which the EVM returns and each with
    its date: its blocks, their transactions and the state are those of the
    snapshot, and the node is fit for the next block.  The node is one that
    keeps its transactions, and the blocks and transactions that are undone
    have hashes that are not stored yet.  What is not undone: the base fee
    of the next block and the total difficulty stay those of the blocks that
    are gone. *)
Theorem node_snapshot_restores (b : backend) l now block start :
  backend_fit b -> snapshots_wf (b_db b) -> Snapshots.id (snapshots (b_db b)) + 1 < u256_modulus ->
  chain_ok start (b_storage b) -> b_transaction_block_keeper b = None ->
  st_blocks (b_storage b) !! st_best_hash (b_storage b) = Some block -> is_u64 (hd_timestamp (bl_header block)) ->
  st_best_number (b_storage b) + zlen l <= u64_max ->
  let '(id, b1) := create_snapshot b in
  batches_ok (memdb_ok (snapshots (b_db b1))) b1 l -> dated_blocks b1 l = true -> fresh_blocks b1 l = true ->
  exists b2 b3, mine_blocks b1 l = Val b2 /\
    st_best_number (b_storage b2) = st_best_number (b_storage b) + zlen l /\
    revert_snapshot b2 now id = Val (Some true, b3) /\
    contents (b_storage b3) = contents (b_storage b) /\
    st_best_hash (b_storage b3) = st_best_hash (b_storage b) /\
    st_best_number (b_storage b3) = st_best_number (b_storage b) /\
    block_number (env_block (b_env b3)) = block_number (env_block (b_env b)) /\
    inner (b_db b3) = inner (b_db b) /\ backend_fit b3 /\
    b_fees b3 = b_fees b2 /\ st_total_difficulty (b_storage b3) = st_total_difficulty (b_storage b2).
Proof.
  intros Hb Hw Hid Hc Hk Hblock Htime Hmax. pose proof (create_snapshot_spec b Hb Hw Hid) as H.
  destruct (create_snapshot b) as [id b1]. destruct H as (Hb1 & Es & Ee & Ek & Ea & Hidr & Esn). intros Hl Hd Hf.
  destruct (mine_blocks_undo (snapshots (b_db b1)) start l b1 Hb1) as (b2 & E & Hb2 & Hs & Hn & Hu);
    [by rewrite Es|done|done|done|by rewrite Es|congruence|]. destruct Hs as (_ & _ & _ & Eact & _).
  assert (Hheight : best_number b2 = st_best_number (b_storage b) + zlen l).
  { unfold best_number. rewrite (proj1 (bo_number _ _ Hb2)), Hn, Es. lia. }
  assert (Hbest : best_number b = st_best_number (b_storage b)).
  { unfold best_number. rewrite (proj1 (bo_number _ _ Hb)). pose proof (zlen_nonneg l). lia. }
  rewrite Es in Hu, Hn. exists b2. unfold revert_snapshot. rewrite Eact, Ea, Hheight, Hbest.
  set (s := revert_blocks _ _ _ _).
  assert (Hcont : contents s = contents (b_storage b)).
  { rewrite <- Hu. unfold s, revert_blocks, contents. simpl.
    by replace (st_best_number (b_storage b) + zlen l - st_best_number (b_storage b)) with (zlen l) by lia. }
  assert (Ebl : st_blocks s = st_blocks (b_storage b)) by exact (f_equal (fun c => c.1.1.1) Hcont).
  assert (Eh : st_hashes s = st_hashes (b_storage b)) by exact (f_equal (fun c => c.1.1.2) Hcont).
  rewrite Ebl, Hblock. cbn [b_db].
  assert (Hsnap : snapshots (b_db b2) = snapshots (b_db b1)) by apply (bo_db _ _ Hb2).
  simpl. unfold MemDb_revert.
  destruct (remove_spec (snapshots (b_db b2)) id Hidr) as (s' & -> & _ & _). rewrite Hsnap, Esn.
  cbn [mbind rust_bind]. eexists. split; [done|]. split; [done|]. split; [done|].
  cbn [b_storage b_env b_db b_fees inner]. split; [done|]. split; [done|]. split; [done|].
  split; [simpl; symmetry; apply Hb|]. split; [done|]. split; [|split; [done|]].
  - destruct Hb2 as [_ [] _ Hg _ _ Hfee Ht Hst]. split; cbn [b_env b_storage b_fees b_time b_states b_db].
    + split; [apply Hb|done].
    + split; simpl; try done. pose proof (bo_number _ _ Hb). pose proof (zlen_nonneg l). rlia.
    + apply memdb_coinbase.
    + exact Hg.
    + split; [done|]. apply (bo_number _ _ Hb).
    + rewrite Eh. apply (bo_tip _ _ Hb).
    + exact Hfee.
    + split; simpl; [rlia|done|apply Ht].
    + exact Hst.
  - unfold s, revert_blocks. cbn [st_total_difficulty].
    generalize (reverse (seqZ (st_best_number (b_storage b) + 1)
      (st_best_number (b_storage b) + zlen l - st_best_number (b_storage b)))) as ns. intros ns.
    generalize (b_storage b2) as t. induction ns as [|n ns IH]; intros t; [done|]. cbn [foldl]. rewrite IH.
    unfold revert_block. destruct (st_hashes t !! n) as [h|]; [|done]. by destruct (st_blocks t !! h).
Qed.
End snapshots.

(** ** Examples *)
Section examples.
#[local] Existing Instances no_tries zero_hashes zero_hashes_spec point_bn point_bn_spec willing_os example_evm example_chrono example_chrono_spec example_blooms example_hashing example_hashing_spec
  example_evm_spec map_disk.
#[local] Instance quiet_channel : pool.Channel :=
  {| pool.Sender := unit; pool.Receiver := unit; pool.channel _ := (tt, tt); pool.try_send _ _ := (pool.Sent, tt) |}.

Abbreviation example_ok := (memdb_ok Snapshots.t_default).

(** Two transactions of the rich account, the second one first. *)
Definition tx_first := NodePool.example_tx 0 100 100 900 0.
Definition tx_second := NodePool.example_tx 1 100 100 901 0.
Definition example_events : list node_event :=
  [Submit tx_second; PollMiner true; Submit tx_first; PollMiner true; StartBlock; Drop 7;
   FinishBlock 2000; PollMiner false; StartBlock; FinishBlock 2005].

Lemma example_submissions : Forall submitted (submissions example_events) /\ consistent (submissions example_events).
Proof.
  split.
  - repeat constructor; (apply NodePool.example_submitted; [lia|lia|vm_compute; exact I]).
  - apply consistent_nodup. vm_compute. repeat constructor; set_solver.
Qed.
Lemma example_minable (ok : MemDb -> Prop) {HS : CommitSpec ok} : minable ok tx_first /\ minable ok tx_second.
Proof.
  assert (H : forall n, is_u64 n -> fields_ok (mkPendingTransaction (Legacy (NodePool.example_legacy n 100)) 100 (900 + n))).
  { intros n Hn. split; simpl; try rlia; [split; [constructor|by vm_compute]|]. intros a [= <-]. rlia. }
  split; (apply (transfer_minable ok); [apply (H 0) || apply (H 1); by vm_compute|]);
    (split; [by exists 7|done|done|by vm_compute]).
Qed.

Lemma node_keeps_running_witness : exists n,
  run_node (idle_node [] example_backend (instant 10)) example_events = Val n /\
  queues_ok (pool.inner (ns_pool n)) /\ backend_ok example_ok (ns_backend n) /\
  chain_ok 0 (b_storage (ns_backend n)).
Proof.
  destruct example_submissions as (H1 & H3). destruct (example_minable example_ok) as [Hm1 Hm2].
  apply (node_keeps_running example_ok [] example_backend (instant 10) example_events 0);
    [exact example_backend_ok|apply new_chain|exact H1|exact (Forall_cons_2 _ _ _ Hm2 (Forall_cons_2 _ _ _ Hm1 (Forall_nil_2 _)))|exact H3|by vm_compute..].
Defined.

(** Both are mined, in the order of their nonces, and leave the pool. *)
Lemma example_events_mine :
  (n ← run_node (idle_node [] example_backend (instant 10)) example_events;
   let s := b_storage (ns_backend n) in
   Val (st_best_number s, (fun block => pt_hash <$> bl_transactions block) <$> (st_blocks s !! st_best_hash s),
        size (ReadyTransactions.ready_tx (pool.ready_transactions (pool.inner (ns_pool n)))))) =
  Val (1, Some [900; 901], 0%nat).
Proof. vm_compute. reflexivity. Qed.

(** Two blocks after a snapshot, and back. *)
Definition example_batches : list (Z * list PoolTransaction) := [(2000, [tx_first]); (2005, [tx_second])].

Lemma node_snapshot_restores_witness :
  let '(id, b1) := create_snapshot example_backend in
  exists b2 b3, mine_blocks b1 example_batches = Val b2 /\ st_best_number (b_storage b2) = 2 /\
    revert_snapshot b2 3000 id = Val (Some true, b3) /\ contents (b_storage b3) = contents (b_storage example_backend).
Proof.
  assert (HES : forall S, EvmSpec (HEV := example_evm) (memdb_ok S)) by (intros S; apply (node_evm_spec (memdb_ok S))).
  pose proof (fun block => node_snapshot_restores example_backend example_batches 3000 block 0 example_backend_ok) as H.
  destruct (create_snapshot example_backend) as [id b1] eqn:E.
  destruct (H (mkBlock (bl_header (mkBlock (Header_new (mkPartialHeader 0 0 0 0 Bloom_default 0 0 100000 0 0 [] 0 0 (Some 64)) 0 0) [] [])) [] []))
    as (b2 & b3 & H1 & H2 & H3 & H4 & _).
  - split; [done|]. intros j [x Hx]. done.
  - by vm_compute.
  - apply new_chain.
  - done.
  - vm_compute. reflexivity.
  - done.
  - by vm_compute.
  - injection E as <- <-. destruct (example_minable (memdb_ok (snapshots (snapshot (b_db example_backend)).2))) as [Hm1 Hm2].
    apply Forall_cons. split; [split; [|by vm_compute]; by apply Forall_singleton|].
    apply Forall_singleton. split; [|by vm_compute]. by apply Forall_singleton.
  - injection E as <- <-. by vm_compute.
  - injection E as <- <-. by vm_compute.
  - exists b2, b3. split; [exact H1|]. split; [exact H2|]. split; [exact H3|exact H4].
Defined.

(** [revert_snapshot] keeps the records of later snapshots, whose states are
    gone.  Reverting to one of them finds no block; by then the chain ends
    in a block that is not stored. *)
Theorem stale_snapshot_breaks_chain :
  (let '(first, b) := create_snapshot example_backend in
   b ← mine_blocks b [(2000, [])];
   let '(second, b) := create_snapshot b in
   '(r1, b) ← revert_snapshot b 3000 first;
   '(r2, b) ← revert_snapshot b 3000 second;
   let s := b_storage b in
   Val (r1, r2, st_best_number s, absent (st_hashes s) (st_best_number s), absent (st_blocks s) (st_best_hash s))) =
  Val (Some true, None, 1, true, true).
Proof. vm_compute. reflexivity. Qed.
End examples.
