(* ===== verification/HistorySpec.v ===== *)
(** * Requests about old blocks

    What a node answers about a block it has mined, however many were mined
    since: the closure of the request is given the state as it was after that
    block, or as it was read back from disk, and the block's own environment,
    or, when the history of states has let the state go or its file cannot be
    read, the request fails. *)

From stdpp Require Import base option list gmap.
From Stdlib Require Import ZArith Lia.
From S2P Require Import Prelude Primitives Safety Execution Precompile PrecompileSpec Journal JournalRevert EvmImpl CacheDB EvmSafety TransactSpec CacheDBSpec EvmTable ChainSpec NodeDb BlockStates BlockStatesSpec NodeDbSpec EthTransaction EthRequest Fees FeesSpec TxPool Miner Calls TxPoolSpec NodePool MinerSpec NodeSpec.

Section history.
Context {HC : Crypto} {HCS : CryptoSpec} {HT : Tries} {HEV : Evm MemDb} {HES : forall S, EvmSpec (memdb_ok S)}.
Context {HEC : Evm (CacheDB MemDb)}.
Context {HFI : FileSystem} {HFP : FileSystemSpec} {HBL : Blooms} {HBH : BlockHashing} {HTC : Chrono} {HBS : BlockHashingSpec} {HTS : ChronoSpec}.
Abbreviation backend := (Backend (DB := MemDb) (StateDb := MemDb)).
Abbreviation entries := (list (Z * MemDb)).
Context (limit : Z) (memory : bool) (Hlimit : 1 <= limit).

(** The tips of the chain before each of the blocks, and their states. *)
Fixpoint states_before (b : backend) (l : list (Z * list PoolTransaction)) : entries :=
  match l with
  | [] => []
  | (now, ts) :: l =>
      (st_best_hash (b_storage b), current_state (b_db b)) ::
      match do_mine_block b now ts with Val (_, b') => states_before b' l | _ => [] end
  end.

Definition stored (s : BlockchainStorage) (n h : Z) : Prop := exists block,
  st_hashes s !! n = Some h /\ st_blocks s !! h = Some block /\ header_hash (bl_header block) = h.

(** [l] has been archived: its entries are those of the blocks before the
    tip, all of them stored, with different hashes. *)
Record archive (l : entries) (b : backend) : Prop := mkArchive {
  ar_kept : exists old D M, kept limit memory l (b_states b) old D M;
  ar_nodup : NoDup (l.*1 ++ [st_best_hash (b_storage b)]);
  ar_stored i h : l.*1 !! i = Some h ->
    stored (b_storage b) (st_best_number (b_storage b) - zlen l + Z.of_nat i) h;
  ar_tip : stored (b_storage b) (st_best_number (b_storage b)) (st_best_hash (b_storage b));
  ar_supported : is_state_history_supported (b_prune_config b) = true;
}.

Lemma mined_states (b b' : backend) now ts out : do_mine_block b now ts = Val (out, b') ->
  is_state_history_supported (b_prune_config b) = true ->
  InMemoryBlockStates.insert (b_states b) (st_best_hash (b_storage b)) (current_state (b_db b)) = Val (b_states b') /\
  b_prune_config b' = b_prune_config b.
Proof.
  intros E Hs. pose proof (do_mine_block_eq b now ts) as Eq. cbv zeta in Eq. rewrite E, Hs in Eq. clear E.
  destruct (InMemoryBlockStates.insert _ _ _) as [states| | |]; try discriminate Eq. cbn [mbind rust_bind] in Eq.
  destruct (TransactionExecutor.execute _ _) as [[r y]| | |]; try discriminate Eq. cbn [mbind rust_bind] in Eq.
  destruct (as_u64 _) as [n| | |]; try discriminate Eq. cbn [mbind rust_bind] in Eq.
  destruct (utc_from_secs _) as [day| | |]; try discriminate Eq. cbn [mbind rust_bind] in Eq.
  destruct (to_rfc2822 _) as [line| | |]; try discriminate Eq. cbn [mbind rust_bind] in Eq.
  destruct (FeeManager.get_next_block_base_fee_per_gas _ _ _ _) as [fee| | |]; try discriminate Eq.
  cbn [mbind rust_bind] in Eq. by injection Eq as -> ->.
Qed.

(** What a new block leaves where it was. *)
Lemma stored_after keeper e s info n m h h' : stored s n h -> n <> m -> h <> h' ->
  stored (store_block keeper e s info m h') n h.
Proof.
  intros (block & E1 & E2 & E3) Hn Hh. exists block. cbn [store_block st_hashes st_blocks].
  by rewrite !lookup_insert_ne by done.
Qed.

Lemma archive_step S l b now ts : archive l b -> backend_ok (memdb_ok S) b ->
  st_best_number (b_storage b) < u64_max ->
  Forall (minable (memdb_ok S)) ts ->
  block_gas_limit (env_block (b_env b)) * zlen ts <= u64_max -> dated_block b now = true ->
  exists out b', do_mine_block b now ts = Val (out, b') /\ backend_ok (memdb_ok S) b' /\
    block_gas_limit (env_block (b_env b')) = block_gas_limit (env_block (b_env b)) /\
    st_best_number (b_storage b') = st_best_number (b_storage b) + 1 /\
    (st_blocks (b_storage b) !! st_best_hash (b_storage b') = None ->
     archive (l ++ [(st_best_hash (b_storage b), current_state (b_db b))]) b').
Proof.
  intros Ha Hb Hmax Hts Hgas Hdate. destruct (mine_ok (memdb_ok S) b now ts Hb Hmax Hts Hgas Hdate) as (out & b' & E & Hb' & Hs & Hn).
  destruct (mine_runs (memdb_ok S) b now ts Hb Hmax Hts Hgas Hdate) as (os & y & b2 & fee & _ & _ & _ & E2 & _ & _ & _ & _ & _ & Est & _).
  rewrite E in E2. injection E2 as -> <-. exists (pool.mkMinedBlockOutcome (st_best_number (b_storage b) + 1)
    (ex_transaction <$> executed os) (rejected os)), b'. split; [done|]. split; [done|]. split; [apply Hs|]. split; [done|].
  destruct Ha as [(old & D & M & Hk) Hnd Hst Htip Hsup]. destruct (mined_states _ _ _ _ _ E Hsup) as (Eins & Epr).
  remember (st_best_hash (b_storage b')) as h' eqn:Et. intros Hfresh.
  assert (Eh : header_hash (header_of (executor_for b now) y (executed os)) = h') by (rewrite Et; by rewrite Est).
  rewrite Eh in Est.
  assert (Enew : forall n h, stored (b_storage b) n h -> h <> h').
  { intros n h (block & _ & Hb1 & _) ->. congruence. }
  assert (Hh : st_best_hash (b_storage b) ∉ l.*1).
  { apply NoDup_app in Hnd as (_ & Hnd & _). intros Hin. apply (Hnd _ Hin). by left. }
  destruct (insert_kept limit memory Hlimit l (b_states b) _ (current_state (b_db b)) old D M Hk Hh)
    as (s' & old' & D' & M' & Ei & Hk').
  assert (s' = b_states b') as -> by congruence.
  split; [by eexists _, _, _| | | |by rewrite Epr].
  - rewrite fmap_app, <- Et. apply NoDup_app. split; [done|]. split; [|apply NoDup_singleton].
    intros h Hin ->%list_elem_of_singleton. apply elem_of_app in Hin as [Hin|Hin%list_elem_of_singleton].
    + apply list_elem_of_lookup in Hin as [i Hi]. by apply (Enew _ _ (Hst i h' Hi)).
    + by apply (Enew _ _ Htip).
  - intros i h. rewrite fmap_app, Hn. unfold zlen. rewrite length_app. cbn [length fmap list_fmap].
    intros [Hi|[Hi Hi2]]%lookup_app_Some.
    + rewrite Est. apply lookup_lt_Some in Hi as Hlt. rewrite length_fmap in Hlt.
      apply stored_after; [|unfold zlen; lia|by apply (Enew _ _ (Hst i h Hi))].
      specialize (Hst i h Hi). unfold zlen in Hst.
      by replace (st_best_number (b_storage b) + 1 - Z.of_nat (length l + 1) + Z.of_nat i)
        with (st_best_number (b_storage b) - Z.of_nat (length l) + Z.of_nat i) by lia.
    + rewrite length_fmap in *. destruct (i - length l)%nat as [|k] eqn:Ek; [|done]. injection Hi2 as <-.
      rewrite Est. replace (st_best_number (b_storage b) + 1 - Z.of_nat (length l + 1) + Z.of_nat i)
        with (st_best_number (b_storage b)) by lia.
      apply stored_after; [done|lia|by apply (Enew _ _ Htip)].
  - rewrite Hn. unfold stored. rewrite Est. cbn [store_block st_best_hash st_hashes st_blocks].
    rewrite !lookup_insert_eq. by eexists.
Qed.
Lemma mine_blocks_archive S batches l b : archive l b -> backend_ok (memdb_ok S) b ->
  st_best_number (b_storage b) + zlen batches <= u64_max -> batches_ok (memdb_ok S) b batches ->
  dated_blocks b batches = true -> fresh_blocks b batches = true ->
  exists b', mine_blocks b batches = Val b' /\ archive (l ++ states_before b batches) b' /\
    backend_ok (memdb_ok S) b' /\ st_best_number (b_storage b') = st_best_number (b_storage b) + zlen batches /\
    length (states_before b batches) = length batches.
Proof.
  revert l b. induction batches as [|[now ts] batches IH]; intros l b Ha Hb Hmax Hts Hd Hf.
  { exists b. unfold zlen. simpl. rewrite app_nil_r. split_and!; done || lia. }
  unfold zlen in *. cbn [length] in *. rewrite Nat2Z.inj_succ in *. apply Forall_cons in Hts as [[Ht Hg] Hts].
  apply dated_blocks_cons in Hd as [Hd Hd1].
  destruct (archive_step S l b now ts Ha Hb) as (out & b1 & E & Hb1 & Hgl & Hn & Ha1); [lia|done..|].
  destruct (fresh_blocks_cons _ _ _ _ _ _ E Hf) as (Hh & _ & Hf1). specialize (Ha1 Hh).
  destruct (IH _ b1 Ha1 Hb1) as (b2 & E2 & Ha2 & Hb2 & Hn2 & Hlen); [lia|by unfold batches_ok; rewrite Hgl|by eapply Hd1|done|].
  exists b2. cbn [mine_blocks states_before]. rewrite E. cbn [mbind rust_bind length]. rewrite <- app_assoc in Ha2.
  split; [done|]. split; [done|]. split; [done|]. split; lia.
Qed.

(** Where an entry is in the list tells what is remembered of it. *)
Lemma recall_at (s : InMemoryBlockStates.t MemDb) (old D M : entries) i h st : NoDup ((old ++ D ++ M).*1) -> (old ++ D ++ M) !! i = Some (h, st) ->
  recall s D M h = if decide (i < length old)%nat then None
    else if decide (i < length (old ++ D))%nat then if readable s h then Some (restored st) else None else Some st.
Proof.
  rewrite !fmap_app. intros (Ho & Hod & (HD & HDM & HM)%NoDup_app)%NoDup_app Hi. unfold recall.
  apply lookup_app_Some in Hi as [Hi|[Hge Hi]].
  - rewrite decide_True by (by eapply lookup_lt_Some). apply list_elem_of_lookup_2 in Hi.
    assert (Hh : h ∈ old.*1) by (apply list_elem_of_fmap; by exists (h, st)). destruct (proj1 (not_elem_of_app _ _ _) (Hod h Hh)).
    rewrite !(not_elem_of_list_to_map_1 (M := gmap Z)) by done. by case_match.
  - rewrite decide_False by lia. rewrite length_app. apply lookup_app_Some in Hi as [Hi|[Hge2 Hi]].
    + rewrite decide_True by (apply lookup_lt_Some in Hi; lia). apply list_elem_of_lookup_2 in Hi.
      assert (Hh : h ∈ D.*1) by (apply list_elem_of_fmap; by exists (h, st)). specialize (HDM h Hh).
      rewrite (not_elem_of_list_to_map_1 (M := gmap Z) M) by done.
      by rewrite (elem_of_list_to_map_1 (M := gmap Z) D h st) by done.
    + rewrite decide_False by lia. apply list_elem_of_lookup_2 in Hi.
      by rewrite (elem_of_list_to_map_1 (M := gmap Z) M h st) by done.
Qed.

(** A request about an archived block. *)
Lemma archive_read {T : Type} (f : DynDatabase (ref_error (DB := MemDb)) -> BlockEnv -> admin.Statics -> rust (T * admin.Statics))
  S l b now i h st : archive l b -> backend_ok (memdb_ok S) b -> st_best_number (b_storage b) <= u64_max ->
  l !! i = Some (h, st) ->
  let n := st_best_number (b_storage b) - zlen l + Z.of_nat i in
  exists block, get_block b (IdNumber (Number n)) = Some block /\ header_hash (bl_header block) = h /\
    let '(state, states) := InMemoryBlockStates.get (b_states b) h in
    with_database_at boxed f b now (Some (RequestNumber n)) =
      match state with
      | Some state =>
          '(t, stx) ← f (boxed state) (block_env_of (bl_header block)) (b_statics b);
          Val (inl t, set_states b states stx)
      | None => Val (inr (BlockOutOfRange (st_best_number (b_storage b)) n), set_states b states (b_statics b))
      end.
Proof.
  intros Ha Hb Hmax Hi n. destruct (ar_stored _ _ Ha i h) as (block & E1 & E2 & E3).
  { by rewrite list_lookup_fmap, Hi. }
  fold n in E1. exists block. assert (Eg : get_block b (IdNumber (Number n)) = Some block).
  { unfold get_block. cbn [storage_hash]. rewrite E1. cbn [mbind option_bind]. done. }
  split; [done|]. split; [done|]. cbn [with_database_at]. change (convert_block_number b (Some (Number n))) with n.
  pose proof (bo_number _ _ Hb) as [Hn Hn0]. unfold with_database_at_number. rewrite Hn.
  assert (Hlt : n < st_best_number (b_storage b)) by (apply lookup_lt_Some in Hi; unfold n, zlen; lia).
  rewrite (proj2 (Z.ltb_lt _ _) Hlt). unfold historic_state. rewrite Eg, E3.
  destruct (InMemoryBlockStates.get (b_states b) h) as [[state|] states]; [done|].
  unfold as_u64. rewrite (proj2 (Z.ltb_lt _ _)) by rlia. done.
Qed.
(** C30: what a node answers about the blocks it has mined.  Whatever blocks
    are mined on a new history, of transactions on which the EVM returns,
    each with its date and with hashes that are new, a request about any of
    those before the tip is given the environment of that block and the state
    as it was when the next one was mined: as it was, when the history still
    has it in memory, or, when it was moved to disk, as its snapshot restores
    it (which takes destroyed accounts for existing ones), if its file can be
    read by now.  About the others (those whose file cannot be read, and the
    first ones, once memory and disk are full) it fails with the height of
    the chain.  The latest block is answered from the database. *)
Theorem old_blocks_answer {T : Type}
  (f : DynDatabase (ref_error (DB := MemDb)) -> BlockEnv -> admin.Statics -> rust (T * admin.Statics))
  (S : Snapshots.t FoundryEvmInMemoryDB) (b : backend) batches now :
  backend_ok (memdb_ok S) b -> b_states b = start limit memory ->
  is_state_history_supported (b_prune_config b) = true ->
  stored (b_storage b) (st_best_number (b_storage b)) (st_best_hash (b_storage b)) ->
  st_best_number (b_storage b) + zlen batches <= u64_max -> batches_ok (memdb_ok S) b batches ->
  dated_blocks b batches = true -> fresh_blocks b batches = true ->
  exists b' old D M, mine_blocks b batches = Val b' /\ states_before b batches = old ++ D ++ M /\
    length (states_before b batches) = length batches /\
    (old ++ D <> [] -> Z.min limit MIN_HISTORY_LIMIT <= zlen M) /\
    (if memory then D = [] else old <> [] -> zlen D = MAX_ON_DISK_HISTORY_LIMIT - 1) /\
    (forall i h st, states_before b batches !! i = Some (h, st) ->
     let n := st_best_number (b_storage b) + Z.of_nat i in
     exists block states, get_block b' (IdNumber (Number n)) = Some block /\ header_hash (bl_header block) = h /\
     let answer (state : MemDb) :=
       '(t, stx) ← f (boxed state) (block_env_of (bl_header block)) (b_statics b');
       Val (inl t, set_states b' states stx) in
     with_database_at boxed f b' now (Some (RequestNumber n)) =
       if decide (i < length old)%nat then
         Val (inr (BlockOutOfRange (st_best_number (b_storage b')) n), set_states b' states (b_statics b'))
       else if decide (i < length (old ++ D))%nat then
         if readable (b_states b') h then answer (restored st)
         else Val (inr (BlockOutOfRange (st_best_number (b_storage b')) n), set_states b' states (b_statics b'))
       else answer st) /\
    with_database_at boxed f b' now None =
      '(t, stx) ← f (boxed (b_db b')) (env_block (b_env b')) (b_statics b');
      Val (inl t, set_states b' (b_states b') stx).
Proof.
  intros Hb Hst Hsup Htip Hmax Hbs Hd Hf.
  assert (Ha : archive [] b).
  { split; [|by apply NoDup_singleton|done|done|done]. exists [], [], []. rewrite Hst. by apply start_kept. }
  destruct (mine_blocks_archive S batches [] b Ha Hb Hmax Hbs Hd Hf) as (b' & E & Ha' & Hb' & Hn & Hlen).
  cbn [app] in Ha'. destruct (ar_kept _ _ Ha') as (old & D & M & Hk). pose proof Hk as [[El _ Hmo Hdk _ _] _ _ _ Hm [Emin Emax]].
  rewrite Emin in Hm. rewrite Emax in Hdk.
  assert (Eo : InMemoryBlockStates.is_memory_only (b_states b') = memory) by (unfold InMemoryBlockStates.is_memory_only; rewrite Emax; by destruct memory).
  exists b', old, D, M. split; [done|]. split; [done|]. split; [done|]. split; [done|].
  split; [destruct memory; [by apply Hmo|intros Hold; specialize (Hdk Eo Hold); pose proof (ke_disk_full _ _ _ _ _ _ _ Hk Eo); lia]|].
  split.
  - intros i h st Hi n. destruct (archive_read f S _ b' now i h st Ha' Hb') as (block & Eg & Eh & Ew); [lia|done|].
    assert (En : st_best_number (b_storage b') - zlen (states_before b batches) + Z.of_nat i = n)
      by (unfold n, zlen in *; lia).
    rewrite En in Eg, Ew. destruct (get_kept limit memory _ (b_states b') h _ _ _ Hk) as [Hget _].
    assert (Hnd : NoDup (old ++ D ++ M).*1).
    { rewrite <- El. pose proof (ar_nodup _ _ Ha') as Hnd. by apply NoDup_app in Hnd as [Hnd _]. }
    rewrite (recall_at _ old D M i h st Hnd) in Hget by (by rewrite <- El).
    destruct (InMemoryBlockStates.get (b_states b') h) as [state states]. exists block, states. split; [done|].
    split; [done|]. cbv zeta. rewrite Ew. cbn [fst] in Hget. rewrite Hget. repeat case_decide; [done| |done]. by destruct (readable _ h).
  - pose proof (bo_number _ _ Hb') as [Hnum _]. cbn [with_database_at].
    unfold with_database_at_number, convert_block_number, best_number. rewrite Hnum. cbn [default].
    destruct (Z.ltb_spec (Z.min (st_best_number (b_storage b')) u64_max) (st_best_number (b_storage b'))); [lia|done].
Qed.
End history.

(** ** Examples *)
Section examples.
#[local] Existing Instances no_tries zero_hashes zero_hashes_spec point_bn point_bn_spec willing_os example_evm example_chrono example_chrono_spec example_blooms example_hashing example_hashing_spec
  example_evm_spec map_disk map_disk_spec.
#[local] Instance cache_evm : Evm (CacheDB MemDb) := node_evm.

(** Two blocks on the genesis, and the balance of the sender in each. *)
Lemma old_blocks_answer_witness : exists b', mine_blocks example_backend example_batches = Val b' /\
  with_database_at boxed (balance_on (DB := MemDb) 100) b' 3000 None =
    Val (inl (inl (10 ^ 18 - 2 * 21000 * 100)), set_states b' (b_states b') (b_statics b')).
Proof.
  assert (HES : forall S, EvmSpec (HEV := example_evm) (memdb_ok S)) by (intros S; apply (node_evm_spec (memdb_ok S))).
  destruct (example_minable (memdb_ok Snapshots.t_default)) as [Hf1 Hf2].
  destruct (old_blocks_answer 10 false ltac:(lia) (balance_on (DB := MemDb) 100) _ example_backend example_batches 3000 example_backend_ok
    eq_refl eq_refl) as (b' & old & D & M & E & _ & _ & _ & _ & _ & Elast).
  - eexists. split; [by vm_compute|]. split; [reflexivity|by vm_compute].
  - by vm_compute.
  - apply Forall_cons. split; [split; [|by vm_compute]; by apply Forall_singleton|].
    apply Forall_singleton. split; [|by vm_compute]. by apply Forall_singleton.
  - by vm_compute.
  - by vm_compute.
  - exists b'. split; [exact E|]. rewrite Elast. clear Elast.
    assert (Hbal : (b ← mine_blocks example_backend example_batches;
        '(t, _) ← balance_on (DB := MemDb) 100 (boxed (b_db b)) (env_block (b_env b)) (b_statics b); Val t) =
      Val (inl (10 ^ 18 - 2 * 21000 * 100))) by (vm_compute; reflexivity).
    rewrite E in Hbal. unfold balance_on in *. cbn [mbind rust_bind] in *. injection Hbal as Hbal.
    exact (f_equal (fun r => Val (inl r, _)) Hbal).
Defined.
End examples.
