(* ===== verification/CodecSpec.v ===== *)
(** * Encodings are read back: properties of [Codec]

    Transactions, receipts and headers survive being encoded and decoded, the
    bytes of a signed transaction are what [eth_sendRawTransaction] decodes
    and what its hash is taken of, and the sender that is recovered is the
    one whose key signed the request. *)

From stdpp Require Import base option list gmap.
From Stdlib Require Import ZArith Lia.
From S2P Require Import Prelude Primitives Journal EvmImpl CacheDB NodeDb BlockStates EthTransaction EthRequest Fees TxPool Miner Codec RlpCrate.

Definition kind_ok (k : TransactionKind.t) : Prop :=
  match k with TransactionKind.Call a => is_b160 a | TransactionKind.Create => True end.
Definition signature_ok (s : Signature) : Prop := is_u256 (sig_r s) /\ is_u256 (sig_s s) /\ is_u64 (sig_v s).
Definition legacy_ok (t : LegacyTransaction) : Prop :=
  is_u256 (lt_nonce t) /\ is_u256 (lt_gas_price t) /\ is_u256 (lt_gas_limit t) /\ kind_ok (lt_kind t) /\
  is_u256 (lt_value t) /\ Forall is_u8 (lt_input t) /\ signature_ok (lt_signature t).
Definition eip2930_ok (t : EIP2930Transaction) : Prop :=
  is_u64 (at_chain_id t) /\ is_u256 (at_nonce t) /\ is_u256 (at_gas_price t) /\ is_u256 (at_gas_limit t) /\
  kind_ok (at_kind t) /\ is_u256 (at_value t) /\ Forall is_u8 (at_input t) /\
  Forall access_item_ok (at_access_list t) /\ is_u256 (at_r t) /\ is_u256 (at_s t).
Definition eip1559_ok (t : EIP1559Transaction) : Prop :=
  is_u64 (ft_chain_id t) /\ is_u256 (ft_nonce t) /\ is_u256 (ft_max_priority_fee_per_gas t) /\
  is_u256 (ft_max_fee_per_gas t) /\ is_u256 (ft_gas_limit t) /\ kind_ok (ft_kind t) /\
  is_u256 (ft_value t) /\ Forall is_u8 (ft_input t) /\ Forall access_item_ok (ft_access_list t) /\
  is_u256 (ft_r t) /\ is_u256 (ft_s t).
Definition typed_ok (tx : TypedTransaction) : Prop :=
  match tx with Legacy t => legacy_ok t | EIP2930 t => eip2930_ok t | EIP1559 t => eip1559_ok t end.

Section codec.
Context {HRL : Rlp} {HRS : RlpSpec}.

(** The bytes of EIP-2718: a type and a body, or the list of a legacy
    transaction. *)
Definition raw_transaction (tx : TypedTransaction) : list Z :=
  match tx with
  | Legacy t => LegacyTransaction_encode t
  | EIP2930 t => 1 :: EIP2930Transaction_encode t
  | EIP1559 t => 2 :: EIP1559Transaction_encode t
  end.

Lemma member_length (l : list (list Z)) (x : list Z) : x ∈ l -> zlen x <= zlen (encode_list l).
Proof. intros H. etrans; [by apply join_member|apply list_length]. Qed.
Lemma val_at_list {A : Type} (f : list Z -> option A) (l : list (list Z)) (i : nat) :
  list_fits l -> val_at f (encode_list l) i = (l !! i) ≫= f.
Proof. intros H. unfold val_at. by rewrite list_nth. Qed.

(** What an encoder wrote is an item that is read back. *)
Definition back {A : Type} (decode : list Z -> option A) (x : list Z) (a : A) : Prop :=
  rlp_item x /\ decode x = Some a.
Lemma back_u256 (z : Z) : is_u256 z -> back (decode_uint 256) (encode_uint z) z.
Proof. intros H. split; [by apply uint_item|by apply uint_decode]. Qed.
Lemma back_u64 (z : Z) : is_u64 z -> back (decode_uint 64) (encode_uint z) z.
Proof. intros H. split; [apply uint_item; range_unfold; lia|by apply uint_decode]. Qed.
Lemma back_u8 (z : Z) : is_u8 z -> back (decode_uint 8) (encode_uint z) z.
Proof. intros H. split; [apply uint_item; range_unfold; lia|by apply uint_decode]. Qed.
Lemma back_bool (b : bool) : back decode_bool (encode_bool b) b.
Proof. split; [apply bool_item|apply bool_decode_encode]. Qed.
Lemma back_fixed (n : nat) (z : Z) :
  (n <= 32)%nat -> 0 <= z < 256 ^ Z.of_nat n -> back (decode_fixed n) (encode_fixed n z) z.
Proof.
  intros Hn Hz. rewrite fixed_value. split; [|by apply fixed_decode].
  apply value_item. split; [apply to_be_u8|rewrite zlen_to_be; lia].
Qed.
Lemma back_address (a : Z) : is_b160 a -> back (decode_fixed 20) (encode_fixed 20 a) a.
Proof. intros H. apply back_fixed; [lia|exact H]. Qed.
Lemma back_hash (h : Z) : is_u256 h -> back (decode_fixed 32) (encode_fixed 32 h) h.
Proof. intros H. apply back_fixed; [lia|exact H]. Qed.
Lemma back_kind (k : TransactionKind.t) :
  kind_ok k -> back TransactionKind_decode (TransactionKind_encode k) k.
Proof.
  unfold TransactionKind_decode, back. destruct k as [a|]; cbn [kind_ok TransactionKind_encode]; intros Ha.
  - destruct (back_address a Ha) as [Hi Hd]. rewrite fixed_value in Hi, Hd. split; [done|].
    rewrite value_empty by (split; [apply to_be_u8|rewrite zlen_to_be; lia]).
    rewrite bool_decide_eq_false_2 by done. by rewrite Hd.
  - assert (H : value_fits []) by (split; [done|by vm_compute]).
    split; [by apply value_item|]. rewrite value_empty, value_is_data by done. done.
Qed.
(** Inputs and lists of addresses are bounded by what they are part of. *)
Lemma back_bytes (l : list (list Z)) (b : list Z) :
  Forall is_u8 b -> zlen (encode_list l) < 2 ^ 64 -> encode_value b ∈ l ->
  back decode_bytes (encode_value b) b.
Proof.
  intros Hb Hn Hin. apply member_length in Hin. pose proof (value_length b).
  split; [apply value_item|apply value_bytes]; (split; [done|lia]).
Qed.
Lemma back_access_list (l : list (list Z)) (a : AccessList) :
  Forall access_item_ok a -> zlen (encode_list l) < 2 ^ 64 -> encode_access_list a ∈ l ->
  back decode_access_list (encode_access_list a) a.
Proof.
  intros Ha Hn Hin. apply member_length in Hin.
  split; [apply access_list_fits|apply access_list_decode]; (done || lia).
Qed.
End codec.

Create HintDb codec.
#[export] Hint Resolve back_u256 back_u64 back_u8 back_bool back_address back_hash back_kind : codec.
#[export] Hint Extern 4 (back _ (encode_value _) _) =>
  eapply back_bytes; [eassumption|eassumption|solve [repeat constructor]] : codec.
#[export] Hint Extern 4 (back _ (encode_access_list _) _) =>
  eapply back_access_list; [eassumption|eassumption|solve [repeat constructor]] : codec.

Lemma back_item {HRL : Rlp} {HRS : RlpSpec} {A : Type} (d : list Z -> option A) (x : list Z) (a : A) : back d x a -> rlp_item x.
Proof. by intros [H _]. Qed.
Lemma back_decode {HRL : Rlp} {HRS : RlpSpec} {A : Type} (d : list Z -> option A) (x : list Z) (a : A) : back d x a -> d x = Some a.
Proof. by intros [_ H]. Qed.

(** The fields of an encoded list are items, and decode in turn. *)
Ltac field_items :=
  split; [|assumption];
  repeat (apply Forall_cons_2; [eapply back_item; solve [eauto with codec]|]); apply Forall_nil_2.
Ltac decode_fields :=
  repeat (rewrite val_at_list by assumption;
    match goal with |- context [?l !! ?i ≫= ?f] =>
      let x := eval cbv [lookup list_lookup] in (l !! i) in change (l !! i) with x
    end; cbn [mbind option_bind];
    first [erewrite back_decode by (solve [eauto with codec])
          |match goal with H : mapM _ _ = Some _ |- _ => rewrite H end];
    cbn [mbind option_bind]).

Section transactions.
Context {HRL : Rlp} {HRS : RlpSpec}.

Definition some_list (x : list Z) : Prop := exists l, x = encode_list l /\ list_fits l /\ l <> [].
Lemma some_list_item (x : list Z) : some_list x -> rlp_item x.
Proof. intros (l & -> & Hl & _). by apply list_item. Qed.
(** A list that is an item has a first byte, and is told from a string. *)
Lemma some_list_data (x : list Z) :
  some_list x -> exists h t, rlp_data x = Some (h :: t) /\ rlp_is_list x = true.
Proof.
  intros (l & -> & Hf & Hl). destruct l as [|x l]; [done|]. rewrite list_data, list_is_list by done.
  destruct x as [|h t]; [|exists h, (t ++ mjoin l); done].
  destruct Hf as [Hf _]. by apply Forall_cons in Hf as [H%item_nonempty _].
Qed.

Lemma legacy_back (t : LegacyTransaction) :
  legacy_ok t -> zlen (LegacyTransaction_encode t) < 2 ^ 64 ->
  some_list (LegacyTransaction_encode t) /\
  LegacyTransaction_decode (LegacyTransaction_encode t) = Some t.
Proof.
  destruct t as [n gp gl k v i [r s sv]]. unfold legacy_ok, signature_ok, LegacyTransaction_encode.
  cbn [lt_nonce lt_gas_price lt_gas_limit lt_kind lt_value lt_input lt_signature sig_r sig_s sig_v].
  intros (? & ? & ? & ? & ? & ? & ? & ? & ?) Hn.
  match type of Hn with zlen (encode_list ?l) < _ => assert (Hf : list_fits l) by field_items end.
  split; [by eexists|]. unfold LegacyTransaction_decode.
  rewrite list_count by done. cbn [mbind option_bind length Nat.eqb negb]. by decode_fields.
Qed.
Lemma eip2930_back (t : EIP2930Transaction) :
  eip2930_ok t -> zlen (EIP2930Transaction_encode t) < 2 ^ 64 ->
  back EIP2930Transaction_decode (EIP2930Transaction_encode t) t.
Proof.
  destruct t as [c n gp gl k v i al p r s]. unfold eip2930_ok, EIP2930Transaction_encode.
  cbn [at_chain_id at_nonce at_gas_price at_gas_limit at_kind at_value at_input at_access_list
    at_odd_y_parity at_r at_s].
  intros (? & ? & ? & ? & ? & ? & ? & ? & ? & ?) Hn.
  match type of Hn with zlen (encode_list ?l) < _ => assert (Hf : list_fits l) by field_items end.
  split; [by apply list_item|]. unfold EIP2930Transaction_decode.
  rewrite list_count by done. cbn [mbind option_bind length Nat.eqb negb]. by decode_fields.
Qed.
Lemma eip1559_back (t : EIP1559Transaction) :
  eip1559_ok t -> zlen (EIP1559Transaction_encode t) < 2 ^ 64 ->
  back EIP1559Transaction_decode (EIP1559Transaction_encode t) t.
Proof.
  destruct t as [c n mp mf gl k v i al p r s]. unfold eip1559_ok, EIP1559Transaction_encode.
  cbn [ft_chain_id ft_nonce ft_max_priority_fee_per_gas ft_max_fee_per_gas ft_gas_limit ft_kind ft_value
    ft_input ft_access_list ft_odd_y_parity ft_r ft_s].
  intros (? & ? & ? & ? & ? & ? & ? & ? & ? & ? & ?) Hn.
  match type of Hn with zlen (encode_list ?l) < _ => assert (Hf : list_fits l) by field_items end.
  split; [by apply list_item|]. unfold EIP1559Transaction_decode.
  rewrite list_count by done. cbn [mbind option_bind length Nat.eqb negb]. by decode_fields.
Qed.

(** The contents of an envelope. *)
Lemma enveloped_data (id : Z) (x : list Z) :
  is_u8 id -> Forall is_u8 x -> zlen (enveloped id x) < 2 ^ 64 ->
  rlp_data (enveloped id x) = Some (id :: x) /\ rlp_is_list (enveloped id x) = false /\
  rlp_item (enveloped id x).
Proof.
  unfold enveloped. intros Hid Hx Hn. pose proof (value_length (id :: x)).
  assert (value_fits (id :: x)) by (split; [by constructor|lia]).
  split; [by apply value_data|]. split; [by apply value_not_list|by apply value_item].
Qed.
Lemma enveloped_length (id : Z) (x : list Z) : zlen x <= zlen (enveloped id x).
Proof. unfold enveloped. pose proof (value_length (id :: x)) as H. rewrite zlen_cons in H. lia. Qed.

(** A type before the encoding of a body. *)
Lemma enveloped_back {A : Type} (d : list Z -> option A) (id : Z) (x : list Z) (a : A) :
  is_u8 id -> back d x a -> zlen (enveloped id x) < 2 ^ 64 ->
  rlp_item (enveloped id x) /\ rlp_data (enveloped id x) = Some (id :: x) /\
  rlp_is_list (enveloped id x) = false /\ d x = Some a.
Proof.
  intros Hid [Hi%item_bytes Hd] Hn. by destruct (enveloped_data id x Hid Hi Hn) as (? & ? & ?).
Qed.

Lemma typed_back (tx : TypedTransaction) :
  typed_ok tx -> zlen (TypedTransaction_encode tx) < 2 ^ 64 ->
  back TypedTransaction_decode (TypedTransaction_encode tx) tx.
Proof.
  unfold TypedTransaction_decode. destruct tx as [t|t|t]; cbn [typed_ok TypedTransaction_encode]; intros Hok Hn.
  - destruct (legacy_back t Hok Hn) as [Hl Hd]. split; [by apply some_list_item|].
    destruct (some_list_data _ Hl) as (h & s & -> & ->). cbn [mbind option_bind]. by rewrite Hd.
  - pose proof (enveloped_length 1 (EIP2930Transaction_encode t)).
    destruct (enveloped_back EIP2930Transaction_decode 1 (EIP2930Transaction_encode t) t) as (Hi & Hx & Hl & Hd);
      [done|apply eip2930_back; [done|lia]|done|].
    split; [done|]. rewrite Hx, Hl. cbn [mbind option_bind]. by rewrite Hd.
  - pose proof (enveloped_length 2 (EIP1559Transaction_encode t)).
    destruct (enveloped_back EIP1559Transaction_decode 2 (EIP1559Transaction_encode t) t) as (Hi & Hx & Hl & Hd);
      [done|apply eip1559_back; [done|lia]|done|].
    split; [done|]. rewrite Hx, Hl. cbn [mbind option_bind]. by rewrite Hd.
Qed.
End transactions.

(** ** Receipts and headers *)
Class BloomRlpSpec {HRL : Rlp} {HRS : RlpSpec} {HBL : Blooms} {HBR : BloomRlp} : Prop := {
  bloom_back : forall b, back decode_bloom (encode_bloom b) b;
}.
#[export] Hint Resolve bloom_back : codec.

Section receipts.
Context {HRL : Rlp} {HRS : RlpSpec} {HBL : Blooms} {HBR : BloomRlp} {HBS : BloomRlpSpec}.

Lemma list_at_val {A : Type} (d : list Z -> option A) (x : list Z) (i : nat) :
  list_at d x i = val_at (fun x => mapM d (rlp_iter x)) x i.
Proof. done. Qed.
Lemma back_list {A : Type} (e : A -> list Z) (d : list Z -> option A) (l : list (list Z)) (la : list A) :
  zlen (encode_list l) < 2 ^ 64 -> append_list e la ∈ l ->
  (forall a, a ∈ la -> zlen (e a) < 2 ^ 64 -> back d (e a) a) ->
  back (fun x => mapM d (rlp_iter x)) (append_list e la) la.
Proof.
  intros Hn Hin%member_length Hd. unfold append_list in *.
  assert (H : forall a, a ∈ la -> back d (e a) a).
  { intros a Ha. apply Hd; [done|].
    assert (He : e a ∈ e <$> la) by (apply list_elem_of_fmap; by exists a).
    apply member_length in He. lia. }
  assert (Hf : list_fits (e <$> la)).
  { split; [|lia]. apply Forall_fmap, Forall_forall. intros a Ha. by eapply back_item, H. }
  split; [by apply list_item|]. rewrite list_iter by done.
  apply mapM_fmap_Forall_Some, Forall_forall. intros a Ha. by eapply back_decode, H.
Qed.

Definition log_ok (l : Log) : Prop :=
  is_b160 (log_address l) /\ Forall is_u256 (log_topics l) /\ Forall is_u8 (log_data l).
Definition receipt_ok (r : EIP658Receipt) : Prop :=
  is_u8 (status_code r) /\ is_u256 (receipt_gas_used r) /\ Forall log_ok (receipt_logs r).
Definition typed_receipt_ok (r : TypedReceipt) : Prop :=
  match r with LegacyReceipt r | EIP2930Receipt r | EIP1559Receipt r => receipt_ok r end.
Definition header_ok (h : Header) : Prop :=
  is_u256 (hd_parent_hash h) /\ is_u256 (hd_ommers_hash h) /\ is_b160 (hd_beneficiary h) /\
  is_u256 (hd_state_root h) /\ is_u256 (hd_transactions_root h) /\ is_u256 (hd_receipts_root h) /\
  is_u256 (hd_difficulty h) /\ is_u256 (hd_number h) /\ is_u256 (hd_gas_limit h) /\
  is_u256 (hd_gas_used h) /\ is_u64 (hd_timestamp h) /\ Forall is_u8 (hd_extra_data h) /\
  is_u256 (hd_mix_hash h) /\ is_u64 (hd_nonce h) /\
  match hd_base_fee_per_gas h with Some fee => is_u256 fee | None => True end.

Lemma log_back (l : Log) : log_ok l -> zlen (Log_encode l) < 2 ^ 64 -> back Log_decode (Log_encode l) l.
Proof.
  destruct l as [a ts d]. unfold log_ok, Log_encode. cbn [log_address log_topics log_data].
  intros (Ha & Ht & Hd) Hn.
  match type of Hn with zlen (encode_list ?l) < _ =>
    assert (Htb : back (fun x => mapM (decode_fixed 32) (rlp_iter x)) (append_list (encode_fixed 32) ts) ts)
  end.
  { eapply back_list; [exact Hn|by repeat constructor|]. intros t Hin _. rewrite Forall_forall in Ht.
    by apply back_hash, Ht. }
  match type of Hn with zlen (encode_list ?l) < _ => assert (Hf : list_fits l) by field_items end.
  split; [by apply list_item|]. unfold Log_decode.
  rewrite list_at_val.
  apply back_decode in Htb. by decode_fields.
Qed.
Lemma receipt_back (r : EIP658Receipt) : receipt_ok r -> zlen (EIP658Receipt_encode r) < 2 ^ 64 ->
  some_list (EIP658Receipt_encode r) /\ EIP658Receipt_decode (EIP658Receipt_encode r) = Some r.
Proof.
  destruct r as [c g b ls]. unfold receipt_ok, EIP658Receipt_encode.
  cbn [status_code receipt_gas_used receipt_logs_bloom receipt_logs]. intros (Hc & Hg & Hl) Hn.
  assert (Hlb : back (fun x => mapM Log_decode (rlp_iter x)) (append_list Log_encode ls) ls).
  { eapply back_list; [exact Hn|by repeat constructor|]. intros t Hin Ht. rewrite Forall_forall in Hl.
    by apply log_back; [apply Hl|]. }
  match type of Hn with zlen (encode_list ?l) < _ => assert (Hf : list_fits l) by field_items end.
  split; [by eexists|]. unfold EIP658Receipt_decode.
  rewrite list_at_val.
  apply back_decode in Hlb. by decode_fields.
Qed.
Lemma typed_receipt_back (r : TypedReceipt) :
  typed_receipt_ok r -> zlen (TypedReceipt_encode r) < 2 ^ 64 ->
  TypedReceipt_decode (TypedReceipt_encode r) = Some r.
Proof.
  unfold TypedReceipt_decode. destruct r as [r|r|r]; cbn [typed_receipt_ok TypedReceipt_encode]; intros Hok Hn.
  - destruct (receipt_back r Hok Hn) as [Hl Hd].
    destruct (some_list_data _ Hl) as (h & s & -> & ->). cbn [mbind option_bind]. by rewrite Hd.
  - pose proof (enveloped_length 1 (EIP658Receipt_encode r)).
    destruct (receipt_back r Hok) as [Hi Hr]; [lia|].
    destruct (enveloped_back EIP658Receipt_decode 1 (EIP658Receipt_encode r) r) as (_ & Hx & Hl & Hd);
      [done|split; [by apply some_list_item|done]|done|].
    rewrite Hx, Hl. cbn [mbind option_bind]. by rewrite Hd.
  - pose proof (enveloped_length 2 (EIP658Receipt_encode r)).
    destruct (receipt_back r Hok) as [Hi Hr]; [lia|].
    destruct (enveloped_back EIP658Receipt_decode 2 (EIP658Receipt_encode r) r) as (_ & Hx & Hl & Hd);
      [done|split; [by apply some_list_item|done]|done|].
    rewrite Hx, Hl. cbn [mbind option_bind]. by rewrite Hd.
Qed.
Lemma back_nonce (z : Z) : is_u64 z -> back (decode_fixed 8) (encode_fixed 8 z) z.
Proof. intros H. apply back_fixed; [lia|exact H]. Qed.
#[local] Hint Resolve back_nonce : codec.
Lemma header_back (h : Header) :
  header_ok h -> zlen (Header_encode h) < 2 ^ 64 -> back Header_decode (Header_encode h) h.
Proof.
  destruct h as [ph oh be sr tr rr lb df nu gl gu ts ed mh no bf]. unfold header_ok, Header_encode.
  cbn [hd_parent_hash hd_ommers_hash hd_beneficiary hd_state_root hd_transactions_root hd_receipts_root
    hd_logs_bloom hd_difficulty hd_number hd_gas_limit hd_gas_used hd_timestamp hd_extra_data hd_mix_hash
    hd_nonce hd_base_fee_per_gas].
  intros (? & ? & ? & ? & ? & ? & ? & ? & ? & ? & ? & ? & ? & ? & Hb) Hn.
  destruct bf as [fee|]; cbn [app] in *;
    match type of Hn with zlen (encode_list ?l) < _ => assert (Hf : list_fits l) by field_items end;
    (split; [by apply list_item|]); unfold Header_decode; decode_fields; rewrite list_nth by done;
    cbn [lookup list_lookup fmap option_fmap option_map mbind option_bind]; [|done].
  by erewrite back_decode by eauto with codec.
Qed.

(** C33: the header of a block and the receipts of its transactions are read
    back from their encodings, whatever the kind of each receipt and with or
    without a base fee; so two headers whose hashes are taken of the same
    bytes are the same header. *)
Theorem block_data_roundtrip (h : Header) (rs : list TypedReceipt) :
  header_ok h -> zlen (Header_encode h) < 2 ^ 64 ->
  Forall (fun r => typed_receipt_ok r /\ zlen (TypedReceipt_encode r) < 2 ^ 64) rs ->
  Header_decode (Header_encode h) = Some h /\
  mapM TypedReceipt_decode (TypedReceipt_encode <$> rs) = Some rs /\
  forall h', header_ok h' -> Header_encode h' = Header_encode h -> h' = h.
Proof.
  intros Hh Hn Hrs. split; [by apply header_back|]. split.
  - apply mapM_fmap_Forall_Some. eapply Forall_impl; [exact Hrs|]. intros r [Hok Hr].
    by apply typed_receipt_back.
  - intros h' Hh' He. assert (Hn' : zlen (Header_encode h') < 2 ^ 64) by (by rewrite He).
    apply header_back in Hh' as [_ Hd']; [|done]. apply header_back in Hh as [_ Hd]; [|done].
    rewrite He in Hd'. congruence.
Qed.
End receipts.

(** ** Examples *)
Section examples.
#[local] Existing Instance yellow_rlp.
#[local] Instance bit_blooms : Blooms := { Bloom := bool; Bloom_default := false; accrue _ _ := true }.
#[local] Instance bit_bloom_rlp : BloomRlp := { encode_bloom b := encode_bool b; decode_bloom x := decode_bool x }.
#[local] Instance bit_bloom_spec : BloomRlpSpec.
Proof. split. intros b. apply (back_bool (b : bool)). Qed.

Definition example_header (fee : option Z) : Header :=
  mkHeader (2 ^ 255) 0 5 6 7 8 true 0 12 30000000 21000 1700000000 [1; 200] 9 10 fee.
Definition example_receipt : EIP658Receipt :=
  mkEIP658Receipt 1 21000 true [mkLog 700 [1; 2 ^ 200] (replicate 60 255)].

Lemma block_data_roundtrip_witness :
  Header_decode (Header_encode (example_header (Some 7))) = Some (example_header (Some 7)) /\
  mapM TypedReceipt_decode (TypedReceipt_encode <$> [LegacyReceipt example_receipt; EIP1559Receipt example_receipt]) =
    Some [LegacyReceipt example_receipt; EIP1559Receipt example_receipt].
Proof.
  destruct (block_data_roundtrip (example_header (Some 7)) [LegacyReceipt example_receipt; EIP1559Receipt example_receipt])
    as (H1 & H2 & _); [|vm_compute; reflexivity| |by split].
  - unfold header_ok. split_and!;
      lazymatch goal with |- Forall _ _ => by repeat constructor | |- _ => by vm_compute end.
  - assert (Hok : receipt_ok example_receipt).
    { split_and!; [by vm_compute..|]. repeat constructor; by vm_compute. }
    apply Forall_cons. split; [split; [exact Hok|vm_compute; reflexivity]|].
    apply Forall_singleton. split; [exact Hok|vm_compute; reflexivity].
Defined.
End examples.
