(* ===== verification/ApiSpec.v ===== *)
(** * Properties of sending transactions: [Api]

    What a signed transaction's bytes are decoded to, and whom a transaction
    that a developer account signed is recorded as being from. *)

From stdpp Require Import base option list gmap sets.
From Stdlib Require Import ZArith Lia.
From S2P Require Import Prelude Primitives Execution Precompile PrecompileSpec Journal EvmImpl CacheDB EvmTable ChainSpec NodeDb BlockStates NodeDbSpec EthTransaction EthRequest Fees TxPool Miner Codec RlpCrate Calls Api CodecSpec NodePool MinerSpec.

(** The documented behaviour of [Signature::recover]: it normalises [v] to
    the recovery id, which [0] and [1] stand for themselves. *)
Class SignaturesSpec {HSG : Signatures} : Prop := {
  recover_has_id : forall s h a, signature_recover s h = Some a -> is_Some (recovery_id s);
  recover_normalised : forall s id h, recovery_id s = Some id ->
    signature_recover (mkSignature (sig_r s) (sig_s s) (Z.b2z (negb (id =? 0)))) h = signature_recover s h;
}.

Definition request_hash {HRL : Rlp} {HCR : Crypto} (r : TypedTransactionRequest) : Z :=
  match r with
  | LegacyRequest r => LegacyTransactionRequest_hash r
  | EIP2930Request r => EIP2930TransactionRequest_hash r
  | EIP1559Request r => EIP1559TransactionRequest_hash r
  end.
(** EIP-155: the [v] of a legacy transaction with a chain id is
    [35 + 2 * chain_id] plus the parity, and 27 or 28 without. *)
Definition v_fits (r : TypedTransactionRequest) (s : Signature) : Prop :=
  match r with
  | LegacyRequest r =>
      match lr_chain_id r with
      | Some c => sig_v s = 35 + 2 * c \/ sig_v s = 36 + 2 * c
      | None => sig_v s = 27 \/ sig_v s = 28
      end
  | _ => True
  end.
Definition request_chain_id (r : TypedTransactionRequest) : option Z :=
  match r with
  | LegacyRequest r => lr_chain_id r
  | EIP2930Request r => Some (ar_chain_id r)
  | EIP1559Request r => Some (fr_chain_id r)
  end.
Definition active (spec_id : SpecId) (r : TypedTransactionRequest) : Prop :=
  match r with
  | LegacyRequest _ => True
  | EIP2930Request _ => enabled spec_id BERLIN = true
  | EIP1559Request _ => enabled spec_id LONDON = true
  end.

Section api_spec.
Context {DB : Type} {HDB : Database DB} {HR : DatabaseRef DB} {HEV : Evm (CacheDB DB)} {HEM : Evm DB} {HD : Db DB}.
Context {StateDb : Type} {HM : MaybeHashDatabase StateDb} {HFI : FileSystem} {HCS : CurrentState DB StateDb}.
Context {HBL : Blooms} {HBH : BlockHashing} {HTC : Chrono} {HCH : pool.Channel}.
Context {HRL : Rlp} {HRS : RlpSpec} {HCR : Crypto} {HSG : Signatures} {HSS : SignaturesSpec}.
Abbreviation backend := (Backend (DB := DB) (StateDb := StateDb)).
Abbreviation err := (BlockchainError (ref_error (DB := DB))).
Abbreviation api := (EthApi (DB := DB) (StateDb := StateDb)).

(** C32: the bytes of a signed transaction, in the form of EIP-2718, are
    decoded to that transaction when the fork has its type, and its hash is
    the hash of those bytes. *)
Theorem raw_transaction_accepted (b : backend) (tx : TypedTransaction) :
  typed_ok tx -> zlen (TypedTransaction_encode tx) < 2 ^ 64 ->
  ensure_typed_transaction_supported b tx = None ->
  decode_raw b (raw_transaction tx) = inl tx /\ TypedTransaction_hash tx = keccak256 (raw_transaction tx).
Proof.
  intros Hok Hn Hs. split; [|by destruct tx]. pose proof (typed_back tx Hok Hn) as [_ Hd].
  destruct tx as [t|t|t]; cbn [raw_transaction TypedTransaction_encode] in *.
  - destruct (legacy_back t Hok Hn) as [(l & Hl & _) Ht].
    destruct (list_head l) as (h & s & Hh & H7). rewrite <- Hl in Hh. unfold decode_raw.
    rewrite Hh, (proj2 (Z.ltb_lt _ _)) by done. by rewrite <- Hh, Ht.
  - unfold decode_raw. cbn [Z.ltb]. fold (enveloped 1 (EIP2930Transaction_encode t)). by rewrite Hd, Hs.
  - unfold decode_raw. cbn [Z.ltb]. fold (enveloped 2 (EIP1559Transaction_encode t)). by rewrite Hd, Hs.
Qed.

(** Signing a request and taking the request of the transaction is the
    identity, so what the sender is recovered from is what was signed. *)
Lemma signed_request_back (r : TypedTransactionRequest) (s : Signature) (a : Z) :
  v_fits r s -> (forall c, request_chain_id r = Some c -> 1 <= c) ->
  signature_recover s (request_hash r) = Some a ->
  exists tx, build_typed_transaction recovery_id r s = Some tx /\ TypedTransaction_recover tx = Some a.
Proof.
  intros Hv Hc Ha. destruct (recover_has_id _ _ _ Ha) as [id Hid].
  destruct r as [r|r|r]; cbn [build_typed_transaction]; rewrite ?Hid; cbn [mbind option_bind];
    (eexists; split; [reflexivity|]); cbn [TypedTransaction_recover].
  - unfold LegacyTransaction_recover. cbn [lt_signature]. rewrite <- Ha. f_equal. cbn [request_hash]. f_equal.
    destruct r as [n gp gl k v i c]. unfold LegacyTransactionRequest_from, LegacyTransaction_chain_id.
    cbn [lt_nonce lt_gas_price lt_gas_limit lt_kind lt_value lt_input lt_signature v_fits lr_chain_id] in *.
    f_equal. destruct c as [c|].
    + specialize (Hc c eq_refl). rewrite (proj2 (Z.ltb_lt _ _)) by lia. f_equal.
      destruct Hv as [-> | ->]; Z.to_euclidean_division_equations; lia.
    + by rewrite (proj2 (Z.ltb_ge _ _)) by lia.
  - unfold EIP2930Transaction_recover. cbn [at_r at_s at_odd_y_parity]. rewrite recover_normalised by done.
    rewrite <- Ha. by destruct r.
  - unfold EIP1559Transaction_recover. cbn [ft_r ft_s ft_odd_y_parity]. rewrite recover_normalised by done.
    rewrite <- Ha. by destruct r.
Qed.

Section wallets.
Context {Wallet : Type} (wallet_address : Wallet -> Z).
Context (sign_transaction_sync : Wallet -> TypedTransactionRequest -> Signature + err).

(** The documented behaviour of a wallet: it signs the hash of a request. *)
Definition wallets_sign : Prop := forall w r, (forall c, request_chain_id r = Some c -> 0 <= c < 2 ^ 62) ->
  exists s, sign_transaction_sync w r = inl s /\ v_fits r s /\
    signature_recover s (request_hash r) = Some (wallet_address w).

Lemma DevSigner_new_wallets (ws : list Wallet) (from : Z) :
  from ∈ addresses (DevSigner_new wallet_address ws) ->
  exists w, wallets (DevSigner_new wallet_address ws) !! from = Some w /\ wallet_address w = from.
Proof.
  cbn [addresses wallets DevSigner_new]. intros (w & Hf & Hw)%list_elem_of_fmap.
  assert (H : forall m : gmap Z Wallet, (exists v, m !! from = Some v /\ wallet_address v = from) \/ (exists w, w ∈ ws /\ from = wallet_address w) ->
    exists v, foldl (fun m w => <[wallet_address w := w]> m) m ws !! from = Some v /\ wallet_address v = from);
    [|apply H; right; by exists w].
  clear w Hf Hw. induction ws as [|w ws IH]; intros m Hm; cbn [foldl].
  - destruct Hm as [Hm|(w & Hw & _)]; [done|by apply not_elem_of_nil in Hw].
  - apply IH. destruct (decide (wallet_address w = from)) as [E|E].
    + left. exists w. by rewrite E, lookup_insert_eq.
    + rewrite lookup_insert_ne by done. destruct Hm as [Hm|(v & Hv & Hf)]; [by left|right].
      apply elem_of_cons in Hv as [->|Hv]; [done|by exists v].
Qed.

(** A request for one of the node's accounts, with a chain id from 1 on,
    becomes a pending transaction of that account: it carries what was
    requested with the wallet's signature, and its hash is that of the bytes
    that stand for it. *)
Theorem dev_transaction_has_sender (a : api) (ws : list Wallet) (from : Z) (r : TypedTransactionRequest) :
  wallets_sign ->
  api_signers a = [DevSigner_Signer sign_transaction_sync NoSignerAvailable (DevSigner_new wallet_address ws)] ->
  from ∈ accounts a ->
  (forall c, request_chain_id r = Some c -> 1 <= c < 2 ^ 62) ->
  active (cfg_spec_id (env_cfg (b_env (api_backend a)))) r ->
  exists p s, pending_for a from false r = inl p /\ pt_sender p = from /\
    build_typed_transaction recovery_id r s = Some (pt_transaction p) /\
    TypedTransaction.chain_id (pt_transaction p) = request_chain_id r /\
    pt_hash p = keccak256 (raw_transaction (pt_transaction p)).
Proof.
  intros Hsign Hsg Hfrom Hc Hact. unfold accounts in Hfrom. rewrite Hsg in Hfrom.
  assert (Hin : from ∈ addresses (DevSigner_new wallet_address ws)).
  { cbn in Hfrom. by rewrite app_nil_r in Hfrom. }
  destruct (DevSigner_new_wallets ws from Hin) as (w & Hw & Ha).
  destruct (Hsign w r) as (s & Hs & Hv & Hr); [intros c Hcc; specialize (Hc c Hcc); lia|]. rewrite Ha in Hr.
  destruct (signed_request_back r s from Hv) as (tx & Hb & Hrec); [intros c Hcc; by apply Hc|done|].
  exists (mkPendingTransaction tx from (TypedTransaction_hash tx)), s.
  unfold pending_for, sign_request. rewrite Hsg. cbn [list_find DevSigner_Signer signer_accounts].
  rewrite decide_True by done. unfold DevSigner_Signer, DevSigner_sign_transaction. cbn [sign_transaction_with].
  rewrite Hw, Hs, Hb. cbn [pt_sender pt_transaction pt_hash]. split_and!; [|done|done| |by destruct tx].
  - unfold ensure_typed_transaction_supported, PendingTransaction_new. rewrite Hrec.
    destruct r as [r|r|r]; cbn [build_typed_transaction] in Hb; cbn [active] in Hact;
      [injection Hb as <-|destruct (recovery_id s); [|done]; injection Hb as <-..]; rewrite ?Hact; done.
  - destruct r as [r|r|r]; cbn [build_typed_transaction] in Hb;
      [injection Hb as <-|destruct (recovery_id s); [|done]; injection Hb as <-; done..].
    cbn [TypedTransaction.chain_id request_chain_id v_fits] in *. unfold LegacyTransaction_chain_id.
    cbn [lt_signature]. destruct (lr_chain_id r) as [c|].
    + specialize (Hc c eq_refl). rewrite (proj2 (Z.ltb_lt _ _)) by lia. f_equal.
      destruct Hv as [-> | ->]; Z.to_euclidean_division_equations; lia.
    + by rewrite (proj2 (Z.ltb_ge _ _)) by lia.
Qed.
End wallets.

(** With chain id 0 the [v] of a legacy transaction is 35 or 36, which the
    node takes for no chain id: what it recovers the sender from is not what
    the wallet signed. *)
Theorem chain_id_zero_is_lost (r : LegacyTransactionRequest) (s : Signature) (tx : TypedTransaction) :
  lr_chain_id r = Some 0 -> v_fits (LegacyRequest r) s ->
  build_typed_transaction recovery_id (LegacyRequest r) s = Some tx ->
  TypedTransaction.chain_id tx = None /\
  TypedTransaction_recover tx = signature_recover s (LegacyTransactionRequest_hash
    (mkLegacyTransactionRequest (lr_nonce r) (lr_gas_price r) (lr_gas_limit r) (lr_kind r) (lr_value r)
      (lr_input r) None)).
Proof.
  intros Hc Hv. cbn [v_fits] in Hv. rewrite Hc in Hv. intros [= <-].
  assert (Hn : LegacyTransaction_chain_id (mkLegacyTransaction (lr_nonce r) (lr_gas_price r) (lr_gas_limit r)
    (lr_kind r) (lr_value r) (lr_input r) s) = None).
  { unfold LegacyTransaction_chain_id. cbn [lt_signature]. by rewrite (proj2 (Z.ltb_ge _ _)) by lia. }
  split; [exact Hn|]. cbn [TypedTransaction_recover]. unfold LegacyTransaction_recover, LegacyTransactionRequest_from.
  by rewrite Hn.
Qed.
End api_spec.

(** ** Examples *)
Section examples.
#[local] Existing Instances no_tries zero_hashes zero_hashes_spec point_bn point_bn_spec willing_os example_evm example_chrono example_chrono_spec example_blooms example_hashing map_disk log_channel yellow_rlp.
#[local] Instance cache_evm_here : Evm (CacheDB MemDb) := node_evm.
(** A signature that names its signer and what was signed. *)
#[local] Instance named_signatures : Signatures := {
  recovery_id s := Some 0;
  signature_recover s h := if sig_s s =? h then Some (sig_r s) else None;
}.
#[local] Instance named_signatures_spec : SignaturesSpec.
Proof. split; [by eexists|by intros]. Qed.
Definition named_sign (w : Z) (r : TypedTransactionRequest) : Signature + BlockchainError (ref_error (DB := MemDb)) :=
  inl (mkSignature w (request_hash r)
    (match r with LegacyRequest r => match lr_chain_id r with Some c => 35 + 2 * c | None => 27 end | _ => 0 end)).
Lemma named_wallets_sign : wallets_sign (fun w : Z => w) named_sign.
Proof.
  intros w r _. eexists. split; [reflexivity|]. cbn [signature_recover named_signatures sig_s sig_r].
  rewrite Z.eqb_refl. split; [|done]. destruct r as [r|r|r]; cbn; [destruct (lr_chain_id r); auto|done..].
Qed.

Definition example_api : EthApi (DB := MemDb) (StateDb := MemDb) :=
  mkEthApi example_backend (pool.mkPool pool.PoolInner_default [])
    [DevSigner_Signer named_sign NoSignerAvailable (DevSigner_new (fun w : Z => w) [100; 200])]
    CheatsState_default Fees NoMining.

Definition example_typed : EIP1559Transaction :=
  mkEIP1559Transaction 31337 7 2 300 21000 (TransactionKind.Call 700) (10 ^ 18) [1; 2; 255]
    [(700, [0; 2 ^ 255])] true (2 ^ 200) 5.
Lemma raw_transaction_accepted_witness :
  decode_raw example_backend (raw_transaction (EIP1559 example_typed)) = inl (EIP1559 example_typed).
Proof.
  refine (proj1 (raw_transaction_accepted example_backend (EIP1559 example_typed) _ _ _));
    [|vm_compute; reflexivity|reflexivity].
  cbn [typed_ok]. unfold eip1559_ok. split_and!;
    lazymatch goal with |- Forall _ _ => by repeat constructor | |- _ => by vm_compute end.
Defined.

Lemma dev_transaction_has_sender_witness : exists p,
  pending_for example_api 200 false
    (LegacyRequest (mkLegacyTransactionRequest 0 100 21000 (TransactionKind.Call 700) 5 [] (Some 31337))) = inl p /\
  pt_sender p = 200 /\ TypedTransaction.chain_id (pt_transaction p) = Some 31337.
Proof.
  destruct (dev_transaction_has_sender (fun w : Z => w) named_sign example_api [100; 200] 200
    (LegacyRequest (mkLegacyTransactionRequest 0 100 21000 (TransactionKind.Call 700) 5 [] (Some 31337)))
    named_wallets_sign eq_refl) as (p & s & Hp & Hs & _ & Hc & _).
  - right. left.
  - intros c [= <-]. by vm_compute.
  - exact I.
  - exists p. split; [exact Hp|]. split; [exact Hs|exact Hc].
Defined.
End examples.
