(* ===== verification/QueriesSpec.v ===== *)
(** * What the queries answer

    Every transaction that was mined is found, with the block and the place
    in it, however many blocks follow; the logs of a range of blocks are
    those that match, in order, each with its place; and subscriptions are
    told the same logs. *)

From stdpp Require Import base option list gmap.
From Stdlib Require Import ZArith Lia.
From S2P Require Import Prelude Primitives Safety Execution Precompile PrecompileSpec Journal JournalRevert EvmImpl CacheDB EvmSafety TransactSpec CacheDBSpec EvmTable ChainSpec NodeDb BlockStates BlockStatesSpec NodeDbSpec EthTransaction Fees FeesSpec TxPool Miner TxReady TxPoolSpec NodePool MinerSpec NodeSpec EthRequest Codec RlpCrate Calls CallsSpec Queries.

(** ** Lists *)

(** A lookup that always finds what is at the position. *)
Lemma omap_positions {A B : Type} (f : A -> option B) (g : nat -> A -> B) l :
  (forall i x, l !! i = Some x -> f x = Some (g i x)) -> omap f l = imap g l.
Proof.
  revert g. induction l as [|x l IH]; intros g H; [done|]. simpl. rewrite (H 0%nat x eq_refl). f_equal.
  apply (IH (g ∘ S)). intros i y Hy. by apply (H (S i)).
Qed.
Lemma omap_fmap {A B C : Type} (f : B -> option C) (g : A -> B) (l : list A) : omap f (g <$> l) = omap (f ∘ g) l.
Proof.
  induction l as [|x l IH]; [done|]. change (omap f (g <$> x :: l)) with
    (match f (g x) with Some y => y :: omap f (g <$> l) | None => omap f (g <$> l) end). by rewrite IH.
Qed.
(** A loop that cannot go on. *)
Lemma foldl_stuck {A B : Type} (f : A -> B -> A) a l : (forall x, f a x = a) -> foldl f a l = a.
Proof. intros H. induction l as [|x l IH]; simpl; by rewrite ?H. Qed.
Lemma mapM_positions {A B : Type} (f : A -> option B) (g : nat -> A -> B) l :
  (forall i x, l !! i = Some x -> f x = Some (g i x)) -> mapM f l = Some (imap g l).
Proof.
  revert g. induction l as [|x l IH]; intros g H; [done|]. simpl. rewrite (H 0%nat x eq_refl). simpl.
  rewrite (IH (g ∘ S)); [done|]. intros i y Hy. by apply (H (S i)).
Qed.
Lemma imap_pairs {A B : Type} (g : nat -> A -> B) l : imap g l = (fun p => g p.1 p.2) <$> imap pair l.
Proof. rewrite fmap_imap. by apply imap_ext. Qed.

(** A loop over [l] that counts, and keeps what is selected. *)
Section scan.
Context {E L : Type} (sel : E -> bool) (mk : Z -> E -> L).

Fixpoint scanned (pos : Z) (l : list E) : list L :=
  match l with
  | [] => []
  | e :: l => (if sel e then [mk pos e] else []) ++ scanned ((pos + 1) mod 2 ^ 32) l
  end.

Lemma scan_fold (step : rust (Z * list L) -> E -> rust (Z * list L)) l pos acc :
  (forall pos acc e, e ∈ l -> step (Val (pos, acc)) e =
     Val ((pos + 1) mod 2 ^ 32, acc ++ if sel e then [mk pos e] else [])) ->
  exists pos', foldl step (Val (pos, acc)) l = Val (pos', acc ++ scanned pos l).
Proof.
  revert pos acc. induction l as [|e l IH]; intros pos acc H; simpl.
  { exists pos. by rewrite app_nil_r. }
  rewrite (H pos acc e) by (by left).
  destruct (IH ((pos + 1) mod 2 ^ 32) (acc ++ if sel e then [mk pos e] else [])) as [pos' ->].
  { intros p a x Hx. apply H. by right. }
  exists pos'. by rewrite <- app_assoc.
Qed.
End scan.
Lemma scanned_ext {E L : Type} (sel sel' : E -> bool) (mk : Z -> E -> L) pos l :
  (forall e, e ∈ l -> sel e = sel' e) -> scanned sel mk pos l = scanned sel' mk pos l.
Proof.
  revert pos. induction l as [|e l IH]; intros pos H; [done|]. simpl. rewrite (H e) by (by left). f_equal.
  apply IH. intros x Hx. apply H. by right.
Qed.

(** ** The logs of a block *)

(** One log with the place of its transaction and its own in it. *)
Record entry := mkEntry {
  en_index : nat;
  en_transaction : ExecutedTransaction;
  en_log_index : nat;
  en_log : Log;
}.
Definition transaction_entries (p : nat * ExecutedTransaction) : list entry :=
  imap (fun j log => mkEntry p.1 p.2 j log) (ex_logs p.2).
Definition block_entries (done : list ExecutedTransaction) : list entry :=
  mjoin (transaction_entries <$> imap pair done).

(** The answer about an entry that is at [pos] in its block. *)
Definition entry_log (h k pos : Z) (e : entry) : EthersLog :=
  placed h k (hash (ex_transaction (en_transaction e))) (Z.of_nat (en_index e)) pos
    (Z.of_nat (en_log_index e)) (en_log e).
(** The logs of a block that are selected. *)
Definition block_logs (sel : EthersLog -> bool) (h k : Z) (done : list ExecutedTransaction) : list EthersLog :=
  scanned (fun e => sel (unplaced (en_log e))) (entry_log h k) 0 (block_entries done).

(** A loop over transactions, and in it over their logs, is one over entries. *)
Lemma foldl_entries {A : Type} (step : A -> entry -> A) (outer : A -> nat * ExecutedTransaction -> A) acc ps :
  (forall acc p, p ∈ ps -> outer acc p = foldl step acc (transaction_entries p)) ->
  foldl outer acc ps = foldl step acc (mjoin (transaction_entries <$> ps)).
Proof.
  revert acc. induction ps as [|p ps IH]; intros acc H; [done|]. cbn [foldl fmap list_fmap mjoin list_join].
  rewrite foldl_app, (H acc p) by (by left). apply IH. intros a x Hx. apply H. by right.
Qed.

Lemma foldl_logs {A : Type} (g : nat -> ExecutedTransaction -> A -> nat * Log -> A) acc i tx :
  foldl (fun acc e => g (en_index e) (en_transaction e) acc (en_log_index e, en_log e)) acc
    (transaction_entries (i, tx)) = foldl (g i tx) acc (imap pair (ex_logs tx)).
Proof.
  unfold transaction_entries. rewrite (imap_pairs (fun j log => mkEntry _ _ j log)), foldl_fmap. simpl.
  generalize (imap pair (ex_logs tx)). intros l. revert acc. induction l as [|[j log] l IH]; intros acc; [done|]. apply IH.
Qed.

Lemma entry_position done e : e ∈ block_entries done ->
  done !! en_index e = Some (en_transaction e) /\ ex_logs (en_transaction e) !! en_log_index e = Some (en_log e).
Proof.
  unfold block_entries. intros Hin. apply list_elem_of_join in Hin as (l & He & Hl).
  apply list_elem_of_fmap in Hl as ([i tx] & -> & Hp). apply list_elem_of_lookup in Hp as [n Hn].
  rewrite list_lookup_imap in Hn. destruct (done !! n) as [x|] eqn:Ex; [|done]. injection Hn as -> ->.
  unfold transaction_entries in He. apply list_elem_of_lookup in He as [m Hm]. rewrite list_lookup_imap in Hm. simpl in Hm.
  destruct (ex_logs tx !! m) as [log|] eqn:El; [|done]. injection Hm as <-. done.
Qed.

(** ** What a block leaves in the storage *)
Section stored.
Context {DB : Type} {HDB : Database DB} {HR : DatabaseRef DB}.
Context {StateDb : Type} {HM : MaybeHashDatabase StateDb} {HFI : FileSystem}.
Context {HBL : Blooms} {HBH : BlockHashing} {HTC : Chrono} {HRL : Rlp} {HBR : BloomRlp} {HCR : Crypto} {HSG : Signatures}.
Abbreviation backend := (Backend (DB := DB) (StateDb := StateDb)).

(** Block [k], with hash [h], is that of the transactions [done]. *)
Record block_stored (s : BlockchainStorage) (k h : Z) (block : Block) (done : list ExecutedTransaction) : Prop :=
  mkBlockStored {
  bs_hash : st_hashes s !! k = Some h;
  bs_block : st_blocks s !! h = Some block;
  bs_header : header_hash (bl_header block) = h;
  bs_number : hd_number (bl_header block) = k;
  bs_range : is_u64 k /\ zlen done <= 2 ^ 32;
  bs_transactions : bl_transactions block = pending_of <$> done;
  bs_found i tx : done !! i = Some tx ->
    st_transactions s !! hash (ex_transaction tx) = Some (mkMinedTransaction (info_at i tx) (create_receipt tx) h k);
}.

Context (b : backend) (k h : Z) (block : Block) (done : list ExecutedTransaction).
Context (Hst : block_stored (b_storage b) k h block done).

Lemma stored_number : as_u64 (hd_number (bl_header block)) = Val k.
Proof. unfold as_u64. rewrite (bs_number _ _ _ _ _ Hst). by rewrite (proj2 (Z.ltb_lt _ _)) by apply Hst. Qed.

Lemma stored_index i tx : done !! i = Some tx -> ti_transaction_index (info_at i tx) = Z.of_nat i.
Proof.
  intros Hi%lookup_lt_Some. simpl. apply Z.mod_small. pose proof (proj2 (bs_range _ _ _ _ _ Hst)). unfold zlen in *. lia.
Qed.

Lemma stored_transaction i tx : done !! i = Some tx -> bl_transactions block !! i = Some (pending_of tx).
Proof. intros Hi. by rewrite (bs_transactions _ _ _ _ _ Hst), list_lookup_fmap, Hi. Qed.

Lemma stored_infos :
  omap (fun tx => mt_info <$> st_transactions (b_storage b) !! pt_hash tx) (bl_transactions block) =
  imap info_at done.
Proof.
  rewrite (bs_transactions _ _ _ _ _ Hst), omap_fmap. apply omap_positions. intros i tx Hi. simpl.
  change (pt_hash (pending_of tx)) with (hash (ex_transaction tx)). by rewrite (bs_found _ _ _ _ _ Hst i tx Hi).
Qed.

Lemma stored_receipts : get_receipts b (pt_hash <$> bl_transactions block) = create_receipt <$> done.
Proof.
  unfold get_receipts. rewrite (bs_transactions _ _ _ _ _ Hst), !omap_fmap.
  rewrite (omap_positions _ (fun _ => create_receipt)); [by rewrite <- (imap_const create_receipt)|].
  intros i tx Hi. simpl. change (pt_hash (pending_of tx)) with (hash (ex_transaction tx)).
  by rewrite (bs_found _ _ _ _ _ Hst i tx Hi).
Qed.

Lemma stored_block : get_block b (IdNumber (Number k)) = Some block.
Proof. unfold get_block. simpl. rewrite (bs_hash _ _ _ _ _ Hst). simpl. apply Hst. Qed.

(** *** Its transactions *)

(** The sender of the transaction can be told again. *)
Definition sender_known (p : PendingTransaction) : Prop :=
  TypedTransaction_is_impersonated (pt_transaction p) = true \/
  TypedTransaction_recover (pt_transaction p) = Some (pt_sender p).

(** What the API says of transaction [i] of the block. *)
Record describes (t : EthersTransaction) (p : PendingTransaction) (i : nat) : Prop := mkDescribes {
  ds_hash : etx_hash t = pt_hash p;
  ds_block_hash : etx_block_hash t = Some h;
  ds_block_number : etx_block_number t = Some k;
  ds_index : etx_transaction_index t = Some (Z.of_nat i);
  ds_from : etx_from t = pt_sender p;
  ds_to : etx_to t = TypedTransaction.to (pt_transaction p);
  ds_nonce : etx_nonce t = TypedTransaction.nonce (pt_transaction p);
  ds_value : etx_value t = TypedTransaction.value (pt_transaction p);
  ds_gas : etx_gas t = TypedTransaction.gas_limit (pt_transaction p);
  ds_input : etx_input t = TypedTransaction.data (pt_transaction p);
  ds_type : etx_transaction_type t = TypedTransaction.type (pt_transaction p);
}.

Lemma wrapped_recover p : sender_known p -> MaybeImpersonatedTransaction_recover (wrapped p) = Some (pt_sender p).
Proof.
  unfold MaybeImpersonatedTransaction_recover, wrapped. cbn [mi_impersonated_sender mi_transaction].
  intros [H|H]; rewrite H; [done|by destruct (TypedTransaction_is_impersonated _)].
Qed.

(** The prices are set on a transaction with the other fields of [tx]. *)
Lemma set_prices_fields mined base_fee (t : MaybeImpersonatedTransaction) :
  let tx := mi_transaction t in
  let e := set_prices true mined base_fee tx (EthersTransaction_from t) in
  etx_nonce e = TypedTransaction.nonce tx /\ etx_value e = TypedTransaction.value tx /\
  etx_gas e = TypedTransaction.gas_limit tx /\ etx_input e = TypedTransaction.data tx /\
  etx_transaction_type e = TypedTransaction.type tx.
Proof. unfold EthersTransaction_from. destruct (mi_transaction t); by simpl. Qed.

Lemma build_stored i tx base_fee : done !! i = Some tx -> sender_known (pending_of tx) ->
  exists t, transaction_build (Some (hash (ex_transaction tx))) (wrapped (pending_of tx)) (Some block)
    (Some (info_at i tx)) true base_fee = Val t /\ describes t (pending_of tx) i.
Proof.
  intros Hi Hk. pose proof (stored_index _ _ Hi) as Ei. pose proof (wrapped_recover _ Hk) as Er.
  pose proof (fun m => set_prices_fields m base_fee (wrapped (pending_of tx))) as Hp. unfold transaction_build.
  rewrite stored_number, Er. cbn [mbind rust_bind unwrap]. cbv zeta in Hp |- *.
  change (mi_transaction (wrapped (pending_of tx))) with (pt_transaction (pending_of tx)) in Hp |- *.
  specialize (Hp (bool_decide (is_Some (Some block)) || bool_decide (is_Some (Some (info_at i tx))))).
  destruct Hp as (-> & -> & -> & -> & ->).
  destruct (TypedTransaction_is_impersonated _); cbn [mbind rust_bind];
    (eexists; split; [reflexivity|]); split; cbn [etx_hash etx_block_hash etx_block_number
      etx_transaction_index etx_from etx_to etx_nonce etx_value etx_gas etx_input etx_transaction_type]; try done;
    cbn [fmap option_fmap option_map compose]; by rewrite ?Ei, ?(bs_header _ _ _ _ _ Hst).
Qed.

Lemma stored_by_hash i tx : done !! i = Some tx -> sender_known (pending_of tx) ->
  exists t, mined_transaction_by_hash b (hash (ex_transaction tx)) = Val (Some t) /\
    mined_transaction_by_block_hash_and_index b h (Z.of_nat i) = Val (Some t) /\ describes t (pending_of tx) i.
Proof.
  intros Hi Hk. pose proof (stored_index _ _ Hi) as Ei. pose proof (bs_found _ _ _ _ _ Hst i tx Hi) as Em.
  pose proof (stored_transaction _ _ Hi) as Et.
  destruct (build_stored i tx (hd_base_fee_per_gas (bl_header block)) Hi Hk) as (t & E & Ht). exists t.
  unfold mined_transaction_by_hash, mined_transaction_by_block_hash_and_index.
  rewrite Em. cbn [mbind option_bind mt_block_hash mt_info]. rewrite (bs_block _ _ _ _ _ Hst). cbn [mbind option_bind].
  rewrite Ei, Nat2Z.id, Et. cbn [mbind option_bind].
  change (pt_hash (pending_of tx)) with (hash (ex_transaction tx)). rewrite Em. cbn [mbind option_bind mt_info].
  change (ti_transaction_hash (info_at i tx)) with (hash (ex_transaction tx)). by rewrite E.
Qed.

Lemma stored_by_number : exists eb, mined_block_by_number b (Number k) = Val (Some eb) /\
  mined_block_by_hash b h = Val (Some eb) /\ eb_hash eb = Some h /\ eb_number eb = Some k /\
  eb_transactions eb = (hash ∘ ex_transaction) <$> done /\ eb_timestamp eb = hd_timestamp (bl_header block) /\
  eb_parent_hash eb = hd_parent_hash (bl_header block) /\ eb_gas_used eb = hd_gas_used (bl_header block).
Proof.
  unfold mined_block_by_number, mined_block_by_hash, get_block_by_hash. rewrite stored_block, (bs_block _ _ _ _ _ Hst).
  cbn [converted]. unfold convert_block. rewrite stored_number. cbn [mbind rust_bind].
  eexists. split; [done|]. split; [done|]. cbn [eb_hash eb_number eb_transactions eb_timestamp eb_parent_hash eb_gas_used].
  rewrite (bs_header _ _ _ _ _ Hst), (bs_transactions _ _ _ _ _ Hst), <- list_fmap_compose. by split_and!.
Qed.

(** The sum of the gas of receipts does not saturate. *)
Lemma receipts_gas l n : Forall (fun tx => 0 <= ex_gas_used tx) l -> n + total_gas l < u256_modulus ->
  foldl (fun n r => u256_saturating_add n (TypedReceipt_gas_used r)) n (create_receipt <$> l) = n + total_gas l.
Proof.
  intros Hl. revert n. induction Hl as [|tx l Htx Hl IH]; intros n Hn; [simpl; lia|].
  assert (0 <= total_gas l) by (clear -Hl; induction Hl; unfold total_gas in *; simpl; lia).
  change (total_gas (tx :: l)) with (ex_gas_used tx + total_gas l) in *. cbn [fmap list_fmap foldl].
  destruct (receipt_fields tx) as (-> & _). unfold u256_saturating_add at 2. rewrite Z.min_l by lia.
  rewrite IH by lia. lia.
Qed.

(** What the API says of its receipt, but for the index of its logs in the
    block and for the price of its gas. *)
Record receipt_describes (r : TransactionReceipt) (tx : ExecutedTransaction) (i : nat) : Prop :=
  mkReceiptDescribes {
  rd_hash : tr_transaction_hash r = hash (ex_transaction tx);
  rd_index : tr_transaction_index r = Z.of_nat i;
  rd_block_hash : tr_block_hash r = Some h;
  rd_block_number : tr_block_number r = Some k;
  rd_from : tr_from r = pt_sender (pending_of tx);
  rd_to : tr_to r = TypedTransaction.to (pt_transaction (pending_of tx));
  rd_gas_used : tr_gas_used r = Some (ex_gas_used tx);
  rd_cumulative : tr_cumulative_gas_used r = total_gas (take (S i) done);
  rd_contract : tr_contract_address r =
    match ex_out tx with Some (OutputCreate _ a) => a | _ => None end;
  rd_status : tr_status r = Some (if is_success_code (ex_exit_reason tx) then 1 else 0);
  rd_type : tr_transaction_type r = TypedTransaction.type (pt_transaction (pending_of tx));
  rd_logs : exists first, tr_logs r = imap (fun j log =>
    placed h k (hash (ex_transaction tx)) (Z.of_nat i) ((first + Z.of_nat j mod 2 ^ 32) mod 2 ^ 32) (Z.of_nat j) log)
    (ex_logs tx);
}.

Lemma stored_receipt i tx gl : done !! i = Some tx ->
  Forall (fun tx => 0 <= ex_gas_used tx <= gl) done -> is_u64 gl ->
  exists r, transaction_receipt b (hash (ex_transaction tx)) = Val (Some r) /\ receipt_describes r tx i.
Proof.
  intros Hi Hgas Hgl. pose proof (stored_index _ _ Hi) as Ei. unfold transaction_receipt, mined_transaction_receipt.
  rewrite (bs_found _ _ _ _ _ Hst i tx Hi). cbn [mbind option_bind mt_block_hash mt_info mt_receipt].
  rewrite (bs_block _ _ _ _ _ Hst). cbn [mbind option_bind mt_block_hash mt_info mt_receipt]. rewrite Ei, Nat2Z.id, (stored_transaction _ _ Hi).
  cbn [mbind rust_bind unwrap mt_receipt mt_block_hash mt_info]. rewrite stored_number, stored_receipts. cbn [mbind rust_bind mr_inner].
  rewrite <- fmap_take, Nat.add_1_r. eexists. split; [done|].
  destruct (receipt_fields tx) as (Eg & _ & El). unfold TypedReceipt_gas_used in Eg.
  split; cbn [tr_transaction_hash tr_transaction_index tr_block_hash tr_block_number tr_from tr_to tr_gas_used
    tr_cumulative_gas_used tr_contract_address tr_status tr_transaction_type tr_logs]; try done.
  - by rewrite Eg.
  - assert (Ht : Forall (fun tx => 0 <= ex_gas_used tx <= gl) (take (S i) done)) by by apply Forall_take.
    apply receipts_gas; [eapply Forall_impl; [exact Ht|]; simpl; lia|].
    pose proof (total_gas_bound _ _ Ht) as Hb. pose proof (proj2 (bs_range _ _ _ _ _ Hst)) as Hlen.
    assert (zlen (take (S i) done) <= 2 ^ 32) by (unfold zlen in *; rewrite length_take; lia).
    assert (gl * zlen (take (S i) done) <= u64_modulus * 2 ^ 32) by (apply Z.mul_le_mono_nonneg; rlia).
    assert (u64_modulus * 2 ^ 32 < u256_modulus) by (by vm_compute). lia.
  - unfold create_receipt. by destruct (pt_transaction _).
  - rewrite El. by eexists.
Qed.

Lemma stored_mined_receipts : mined_receipts b h = Val (Some (create_receipt <$> done)).
Proof.
  destruct stored_by_number as (eb & _ & E & _ & _ & Et & _). unfold mined_receipts. rewrite E. cbn [mbind rust_bind].
  f_equal. rewrite Et. rewrite (mapM_positions _ (fun i _ => default (LegacyReceipt (mkEIP658Receipt 0 0 Bloom_default []))
    (create_receipt <$> done !! i))).
  - f_equal. rewrite imap_fmap. apply list_eq. intros i. rewrite list_lookup_imap, list_lookup_fmap.
    by destruct (done !! i) eqn:Ei; simpl; rewrite ?Ei.
  - intros i x Hx. rewrite list_lookup_fmap in Hx. destruct (done !! i) as [tx|] eqn:Ei; [|done]. injection Hx as <-.
    simpl. by rewrite (bs_found _ _ _ _ _ Hst i tx Ei).
Qed.

(** *** Its logs *)
Context {HF : LogFilters}.

Lemma stored_logs filter :
  mined_logs_for_block b filter block = Val (block_logs (is_match filter) h k done).
Proof.
  unfold mined_logs_for_block. rewrite stored_infos, imap_pairs, foldl_fmap.
  rewrite (foldl_entries (fun acc e => push_log filter block (info_at (en_index e) (en_transaction e)) acc
    (en_log_index e, en_log e))).
  2:{ intros acc [i tx] _. symmetry. apply (foldl_logs (fun i tx => push_log filter block (info_at i tx))). }
  destruct (scan_fold (fun e => is_match filter (unplaced (en_log e))) (entry_log h k)
    (fun acc e => push_log filter block (info_at (en_index e) (en_transaction e)) acc (en_log_index e, en_log e))
    (block_entries done) 0 []) as [pos E]; [|unfold block_entries in E; rewrite E; done].
  intros p a e He. apply entry_position in He as [Hi _]. unfold push_log. cbn [mbind rust_bind].
  rewrite stored_number. rewrite (stored_index _ _ Hi). cbn [mbind rust_bind].
  rewrite (bs_header _ _ _ _ _ Hst). case_match; cbn [mbind rust_bind]; [done|by rewrite app_nil_r].
Qed.

Lemma filter_logs_stored params :
  let sel log := match params with
    | None => true
    | Some f => params_filter_block_range f k && params_filter_block_hash f h &&
        params_filter_address f log && params_filter_topics f log
    end in
  filter_logs block (create_receipt <$> done) params = Val (block_logs sel h k done).
Proof.
  intros sel. unfold filter_logs. rewrite imap_fmap, imap_pairs, foldl_fmap.
  rewrite (foldl_entries (fun acc e => filter_log block params (en_index e)
    (hash (ex_transaction (en_transaction e))) acc (en_log_index e, en_log e))).
  2:{ intros acc [i tx] Hp. apply list_elem_of_lookup in Hp as [n Hn]. rewrite list_lookup_imap in Hn.
      destruct (done !! n) as [x|] eqn:Ex; [|done]. injection Hn as -> ->.
      rewrite (foldl_logs (fun i tx => filter_log block params i (hash (ex_transaction tx)))).
      unfold filter_receipt. simpl. destruct (receipt_fields tx) as (_ & _ & ->). rewrite (stored_transaction _ _ Ex).
      destruct acc as [[idx acc]| | |]; [|by rewrite foldl_stuck..].
      cbn [mbind rust_bind unwrap]. by destruct (ex_logs tx). }
  destruct (scan_fold (fun e => sel (unplaced (en_log e))) (entry_log h k)
    (fun acc e => filter_log block params (en_index e) (hash (ex_transaction (en_transaction e))) acc
      (en_log_index e, en_log e)) (block_entries done) 0 []) as [pos E]; [|unfold block_entries in E; rewrite E; done].
  intros p a e He. unfold filter_log, add_log. cbn [mbind rust_bind].
  rewrite (bs_header _ _ _ _ _ Hst), stored_number. unfold sel. destruct params as [f|]; cbn [mbind rust_bind]; [|done].
  destruct (params_filter_block_range f k), (params_filter_block_hash f h), (params_filter_address f _),
    (params_filter_topics f _); cbn [negb orb andb mbind rust_bind]; by rewrite ?app_nil_r.
Qed.
End stored.

(** ** Blocks one after the other *)
Section chain.
Context {DB : Type} {HDB : Database DB} {HR : DatabaseRef DB} {HEV : Evm DB} {HD : Db DB}.
Context {StateDb : Type} {HM : MaybeHashDatabase StateDb} {HCS : CurrentState DB StateDb} {HFI : FileSystem}.
Context {HBL : Blooms} {HBH : BlockHashing} {HTC : Chrono} {HBS : BlockHashingSpec} {HTS : ChronoSpec}.
Context (ok : DB -> Prop) {HS : DatabaseSpec ok} {HES : EvmSpec ok} {HDS : DbSpec ok}.
Abbreviation backend := (Backend (DB := DB) (StateDb := StateDb)).

Lemma executed_sublist gl ts os : Forall2 (outcome_of gl) ts os ->
  ex_transaction <$> executed os `sublist_of` ts.
Proof.
  induction 1 as [|t o ts os Ho _ IH]; [constructor|].
  destruct o as [tx|t' e|t'|t' e]; simpl; [|by apply sublist_cons..].
  destruct Ho as (-> & _). by apply sublist_skip.
Qed.

(** What a block of [ts] has run, and how much gas it used. *)
Definition ran (gas_limit : Z) (ts : list PoolTransaction) (done : list ExecutedTransaction) : Prop :=
  ex_transaction <$> done `sublist_of` ts /\ Forall (fun tx => 0 <= ex_gas_used tx <= gas_limit) done.

Lemma stored_stays keeper e s k h block d info n h' : keeper = None -> block_stored s k h block d -> k <> n ->
  st_blocks s !! h' = None ->
  Forall (fun tx => st_transactions s !! ti_transaction_hash tx = None) (zip (bi_transactions info) (bi_receipts info)).*1 ->
  block_stored (store_block keeper e s info n h') k h block d.
Proof.
  intros -> [E1 E2 E3 E4 E5 E6 E7] Hk Hh Hf. split; try done; cbn [store_block st_hashes st_blocks st_transactions].
  - by rewrite lookup_insert_ne.
  - rewrite lookup_insert_ne; [done|]. congruence.
  - intros i tx Hi. simpl. rewrite store_other; [by apply E7|]. intros Hin.
    rewrite list_fmap_compose in Hin. apply list_elem_of_fmap in Hin as (x & Ex & Hx).
    rewrite Forall_forall in Hf. specialize (Hf x Hx). rewrite <- Ex, (E7 i tx Hi) in Hf. done.
Qed.

(** What a block of [ts] after [b] runs: the outcomes of its executor, with
    the results of the EVM. *)
Definition executions (b : backend) (now : Z) (ts : list PoolTransaction) : list ExecutedTransaction :=
  executed (outcomes (executor_for b now) ts).
Fixpoint executed_blocks (b : backend) (l : list (Z * list PoolTransaction)) : list (list ExecutedTransaction) :=
  match l with
  | [] => []
  | (now, ts) :: l =>
      executions b now ts :: match do_mine_block b now ts with Val (_, b') => executed_blocks b' l | _ => [] end
  end.

Lemma mine_stored (b : backend) now ts : backend_ok ok b -> st_best_number (b_storage b) < u64_max ->
  Forall (minable ok) ts ->
  block_gas_limit (env_block (b_env b)) * zlen ts <= u64_max -> dated_block b now = true ->
  b_transaction_block_keeper b = None ->
  NoDup (hash <$> ts) -> zlen ts <= 2 ^ 32 ->
  let done := executions b now ts in
  exists out b', do_mine_block b now ts = Val (out, b') /\ backend_ok ok b' /\ same_chain b b' /\
    pool.included out = ex_transaction <$> done /\
    st_best_number (b_storage b') = st_best_number (b_storage b) + 1 /\
    ran (block_gas_limit (env_block (b_env b))) ts done /\
    (exists h block, block_stored (b_storage b') (st_best_number (b_storage b) + 1) h block done) /\
    (st_blocks (b_storage b) !! st_best_hash (b_storage b') = None ->
     Forall (fun t => st_transactions (b_storage b) !! hash t = None) (pool.included out) ->
     forall k h block d, k <> st_best_number (b_storage b) + 1 -> block_stored (b_storage b) k h block d ->
       block_stored (b_storage b') k h block d).
Proof.
  intros Hb Hmax Hts Hgas Hdate Hk Hnd Hlen txs. destruct (executor_for_ok ok b now Hb Hmax) as (_ & Enum & _).
  destruct (mine_ok ok b now ts Hb Hmax Hts Hgas Hdate) as (out & b' & E & Hb' & Hs & Hn).
  destruct (mine_runs ok b now ts Hb Hmax Hts Hgas Hdate) as (os & y & b2 & fee & Hruns & _ & Hos & E2 & _ & _ & _ & _ & _ & Est & _).
  rewrite E in E2. injection E2 as -> <-. pose proof (executed_sublist _ _ _ Hos) as Hsub.
  assert (Etxs : txs = executed os) by (unfold txs, executions; by rewrite (runs_outcomes _ _ _ _ Hruns)).
  clearbody txs. subst txs.
  exists (pool.mkMinedBlockOutcome (st_best_number (b_storage b) + 1) (ex_transaction <$> executed os) (rejected os)), b'.
  split; [done|]. split; [done|]. split; [done|]. split; [done|]. split; [done|]. split.
  { split; [done|]. by eapply executed_gas. }
  rewrite Est. split.
  - eexists _, _. split; cbn [store_block st_hashes st_blocks st_transactions]; [by rewrite lookup_insert_eq..|done|exact Enum| |done|].
    + pose proof (proj2 (bo_number ok b Hb)). split; [rlia|]. apply sublist_length in Hsub. rewrite length_fmap in Hsub.
      unfold zlen in *. lia.
    + intros i tx Hi. rewrite Hk. simpl. change (zip _ _) with (mined_list (executed os)).
      apply (store_found _ _ _ _ (info_at i tx)); [|by apply mined_list_in]. rewrite mined_list_hashes.
      rewrite list_fmap_compose. eapply sublist_NoDup; [exact Hnd|]. by apply fmap_sublist.
  - intros Hh Hf k h block d Hkn Hd. apply stored_stays; [done|done|done|exact Hh|]. simpl pool.included in Hf.
    change (zip _ _) with (mined_list (executed os)). apply Forall_forall. intros info Hin.
    apply (list_elem_of_fmap_2 ti_transaction_hash) in Hin. rewrite <- list_fmap_compose, mined_list_hashes in Hin.
    rewrite list_fmap_compose in Hin. apply list_elem_of_fmap in Hin as (t & -> & Ht).
    by rewrite Forall_forall in Hf; apply Hf.
Qed.

(** Transactions have hashes of their own, and are not too many. *)
Definition countable_batches (l : list (Z * list PoolTransaction)) : Prop :=
  Forall (fun nt => NoDup (hash <$> nt.2) /\ zlen nt.2 <= 2 ^ 32) l.

(** The blocks of the batches are stored, and those from before stay. *)
Lemma mines_stored l (b : backend) : backend_ok ok b ->
  st_best_number (b_storage b) + zlen l <= u64_max -> batches_ok ok b l -> dated_blocks b l = true ->
  fresh_blocks b l = true -> b_transaction_block_keeper b = None -> countable_batches l ->
  let dones := executed_blocks b l in
  exists b', mine_blocks b l = Val b' /\ backend_ok ok b' /\
    st_best_number (b_storage b') = st_best_number (b_storage b) + zlen l /\
    Forall2 (fun nt => ran (block_gas_limit (env_block (b_env b))) nt.2) l dones /\
    (forall k h block d, k <= st_best_number (b_storage b) -> block_stored (b_storage b) k h block d ->
       block_stored (b_storage b') k h block d) /\
    (forall j done, dones !! j = Some done -> exists h block,
       block_stored (b_storage b') (st_best_number (b_storage b) + 1 + Z.of_nat j) h block done).
Proof.
  revert b. induction l as [|[now ts] l IH]; intros b Hb Hmax Hl Hdt Hf Hk Hc; cbv zeta.
  { exists b. unfold zlen. simpl. split; [done|]. split; [done|]. split; [lia|]. split; [constructor|]. done. }
  rewrite zlen_cons in Hmax |- *. pose proof (zlen_nonneg l).
  apply Forall_cons in Hl as [[Hts Hgas] Hl]. apply Forall_cons in Hc as [[Hnd Hlen] Hc].
  apply dated_blocks_cons in Hdt as [Hdt Hd1].
  destruct (mine_stored b now ts Hb) as (out & b1 & E & Hb1 & Hs & _ & Hn & Hr & Hst & Hold); [lia|done..|].
  destruct (fresh_blocks_cons _ _ _ _ _ _ E Hf) as (Hh & Hfr & Hf1). pose proof Hs as (Hg & _ & _ & _ & Hk1).
  destruct (IH b1 Hb1) as (b2 & E2 & Hb2 & Hn2 & Hr2 & Ho2 & Hst2);
    [lia|unfold batches_ok; by rewrite Hg|by eapply Hd1|done|congruence|done|].
  rewrite Hg in Hr2. rewrite Hn in Ho2, Hst2. exists b2. cbn [mine_blocks executed_blocks]. rewrite E. cbn [mbind rust_bind].
  split; [done|]. split; [done|]. split; [lia|]. split; [by constructor|]. split.
  - intros k h block d Hkn Hd. apply Ho2; [lia|]. apply Hold; [done|done|lia|done].
  - intros [|j] d Hj; simpl in Hj.
    + injection Hj as <-. destruct Hst as (h & block & Hst). exists h, block. apply Ho2; [lia|].
      by rewrite Z.add_0_r.
    + destruct (Hst2 j d Hj) as (h & block & Hd). exists h, block. rewrite Nat2Z.inj_succ.
      by replace (st_best_number (b_storage b) + 1 + Z.succ (Z.of_nat j))
        with (st_best_number (b_storage b) + 1 + 1 + Z.of_nat j) by lia.
Qed.

Lemma best_number_ok (b : backend) : backend_ok ok b -> st_best_number (b_storage b) <= u64_max ->
  best_number b = st_best_number (b_storage b).
Proof. intros Hb Hm. unfold best_number. rewrite (proj1 (bo_number _ _ Hb)). lia. Qed.

(** *** Logs *)
Context {HRL : Rlp} {HBR : BloomRlp} {HCR : Crypto} {HSG : Signatures} {HF : LogFilters}.

(** What the block with number [k] ran, and its hash, when the blocks after
    [start] ran [dones]. *)
Definition done_at (start : Z) (dones : list (list ExecutedTransaction)) (k : Z) : list ExecutedTransaction :=
  default [] (dones !! Z.to_nat (k - start - 1)).
Definition hash_at (b : backend) (k : Z) : Z := default 0 (st_hashes (b_storage b) !! k).

Lemma range_logs (b : backend) start dones filter acc from m : start < from ->
  (forall j done, dones !! j = Some done -> exists h block,
     block_stored (b_storage b) (start + 1 + Z.of_nat j) h block done) ->
  from + Z.of_nat m <= start + 1 + zlen dones ->
  foldl (push_block_logs b filter) (Val acc) (seqZ from (Z.of_nat m)) =
  Val (acc ++ mjoin ((fun k => block_logs (is_match filter) (hash_at b k) k (done_at start dones k)) <$>
    seqZ from (Z.of_nat m))).
Proof.
  intros Hs Hd. revert from acc Hs. induction m as [|m IH]; intros from acc Hs Hm.
  { simpl. by rewrite app_nil_r. }
  rewrite seqZ_cons by lia. rewrite Nat2Z.inj_succ, Z.pred_succ in *. cbn [foldl fmap list_fmap mjoin list_join].
  destruct (lookup_lt_is_Some_2 dones (Z.to_nat (from - start - 1))) as [txs Hj]; [unfold zlen in *; lia|].
  destruct (Hd _ _ Hj) as (h & block & Hst).
  replace (start + 1 + Z.of_nat (Z.to_nat (from - start - 1))) with from in Hst by lia.
  unfold push_block_logs at 2. cbn [mbind rust_bind]. rewrite (stored_block _ _ _ _ _ Hst).
  rewrite (stored_logs _ _ _ _ _ Hst). cbn [mbind rust_bind].
  rewrite IH by lia. rewrite <- app_assoc. f_equal. f_equal. f_equal.
  unfold hash_at, done_at. by rewrite (bs_hash _ _ _ _ _ Hst), Hj.
Qed.

(** C37: eth_getLogs over a range of blocks, by number, answers with the logs
    of the transactions that ran in them, as the EVM gave them: all that
    match and no others, in the order of blocks, transactions and logs, each
    with the hash and number of its block, the hash and index of its
    transaction and its index in the transaction and (modulo 2^32) in the
    block.  Blocks that are not mined yet have none.  The node keeps its
    transactions; the blocks are of transactions on which the EVM returns,
    each with its date, and have new and distinct hashes. *)
Theorem logs_of_chain (b : backend) (l : list (Z * list PoolTransaction)) :
  backend_ok ok b -> st_best_number (b_storage b) + zlen l <= u64_max -> batches_ok ok b l ->
  dated_blocks b l = true -> fresh_blocks b l = true -> b_transaction_block_keeper b = None -> countable_batches l ->
  exists b', mine_blocks b l = Val b' /\
  let start := st_best_number (b_storage b) in
  let best := st_best_number (b_storage b') in
  best = start + zlen l /\
  forall filter from to, filter_get_block_hash filter = None ->
    filter_get_from_block filter = Some (Number from) -> filter_get_to_block filter = Some (Number to) ->
    start < from ->
    logs b' filter = Val (mjoin
      ((fun k => block_logs (is_match filter) (hash_at b' k) k (done_at start (executed_blocks b l) k)) <$>
       seqZ from (Z.min to best - from + 1))).
Proof.
  intros Hb Hmax Hl Hd Hf Hk Hc. destruct (mines_stored l b Hb Hmax Hl Hd Hf Hk Hc) as (b' & E & Hb' & Hn & Hr & _ & Hst).
  exists b'. split; [done|]. cbv zeta. split; [done|]. intros filter from to E1 E2 E3 Hs.
  unfold logs. rewrite E1, E2, E3. unfold convert_block_number. cbv [default from_option id].
  rewrite (best_number_ok b' Hb') by lia. destruct (Z.ltb_spec (st_best_number (b_storage b')) from) as [Hlt|Hlt].
  { rewrite (seqZ_nil from) by lia. reflexivity. } unfold logs_for_range. set (m := Z.min to (st_best_number (b_storage b')) - from + 1).
  destruct (decide (0 <= m)) as [Hm|Hm]; [|rewrite seqZ_nil by lia; done].
  replace m with (Z.of_nat (Z.to_nat m)) by lia. apply (range_logs b' _ (executed_blocks b l) filter []); [done|done|].
  apply Forall2_length in Hr. unfold zlen in *. lia.
Qed.

(** C38: a transaction that was mined is found for good, however many blocks
    follow: by its hash, and by its place in its block, with the number and
    the hash of the block, its sender (if it can be recovered from the
    signature, or the transaction is an impersonated one), nonce, value,
    input, gas limit and recipient; the block lists all that ran in it, in order; and its receipt
    has the gas it used and that of the transactions up to it, whether it
    succeeded, the contract it created and its logs, as the EVM gave them.
    The node keeps its transactions; the blocks are of transactions on which
    the EVM returns, each with its date, and have new and distinct hashes. *)
Theorem mined_transactions_found (b : backend) (l : list (Z * list PoolTransaction)) :
  backend_ok ok b -> st_best_number (b_storage b) + zlen l <= u64_max -> batches_ok ok b l ->
  dated_blocks b l = true -> fresh_blocks b l = true -> b_transaction_block_keeper b = None -> countable_batches l ->
  exists b', mine_blocks b l = Val b' /\ length (executed_blocks b l) = length l /\
  forall j done i tx, executed_blocks b l !! j = Some done -> done !! i = Some tx ->
  let k := st_best_number (b_storage b) + 1 + Z.of_nat j in
  exists h eb r,
    block_by_number b' (Number k) = Val (Some eb) /\ block_by_hash b' h = Val (Some eb) /\
    eb_hash eb = Some h /\ eb_number eb = Some k /\ eb_transactions eb = (hash ∘ ex_transaction) <$> done /\
    transaction_receipt b' (hash (ex_transaction tx)) = Val (Some r) /\ receipt_describes k h done r tx i /\
    (sender_known (pending_of tx) -> exists t,
       mined_transaction_by_hash b' (hash (ex_transaction tx)) = Val (Some t) /\
       mined_transaction_by_block_hash_and_index b' h (Z.of_nat i) = Val (Some t) /\
       describes k h t (pending_of tx) i).
Proof.
  intros Hb Hmax Hl Hd Hf Hk Hc. destruct (mines_stored l b Hb Hmax Hl Hd Hf Hk Hc) as (b' & E & Hb' & Hn & Hr & _ & Hst).
  exists b'. split; [done|]. split; [symmetry; exact (Forall2_length _ _ _ Hr)|]. intros j txs i tx Hj Hi. cbv zeta.
  destruct (Hst j txs Hj) as (h & block & H).
  destruct (Forall2_lookup_r _ _ _ _ _ Hr Hj) as (nt & _ & _ & Hgas).
  destruct (stored_by_number b' _ h block txs H) as (eb & E1 & E2 & E3 & E4 & E5 & _).
  destruct (stored_receipt b' _ h block txs H i tx _ Hi Hgas) as (r & Er & Hrd); [apply (bw_gas_limit _ _ (bo_block ok b Hb))|].
  exists h, eb, r. do 7 (split; [done|]). intros Hs. exact (stored_by_hash b' _ h block txs H i tx Hi Hs).
Qed.

(** The conditions of a filter that it does not have are met. *)
Class LogFiltersSpec : Prop := {
  filter_any_address f log : filter_has_address f = false -> params_filter_address f log = true;
  filter_any_topics f log : filter_has_topics f = false -> params_filter_topics f log = true;
}.
Context {HFS : LogFiltersSpec}.

Lemma is_match_params f log :
  is_match f log = params_filter_address f log && params_filter_topics f log.
Proof.
  unfold is_match. pose proof (filter_any_address f log). pose proof (filter_any_topics f log).
  destruct (filter_has_address f), (filter_has_topics f), (params_filter_address f log), (params_filter_topics f log);
    naive_solver.
Qed.

(** C39: subscriptions and filters, which match the logs of a new block from
    its receipts, are told what eth_getLogs answers about that block, from
    the infos of its transactions: the same logs with the same places, in the
    same order, for any filter whose range of blocks the block is in.  The
    node and its blocks are as for eth_getLogs. *)
Theorem subscription_agrees (b : backend) (l : list (Z * list PoolTransaction)) :
  backend_ok ok b -> st_best_number (b_storage b) + zlen l <= u64_max -> batches_ok ok b l ->
  dated_blocks b l = true -> fresh_blocks b l = true -> b_transaction_block_keeper b = None -> countable_batches l ->
  exists b', mine_blocks b l = Val b' /\
  forall k, st_best_number (b_storage b) < k <= st_best_number (b_storage b) + zlen l ->
  exists h block receipts, st_hashes (b_storage b') !! k = Some h /\ get_block_by_hash b' h = Some block /\
    mined_receipts b' h = Val (Some receipts) /\
    forall f, params_filter_block_range f k = true -> params_filter_block_hash f h = true ->
    filter_logs block receipts (Some f) = logs_for_block b' f h.
Proof.
  intros Hb Hmax Hl Hd Hf Hk Hc. destruct (mines_stored l b Hb Hmax Hl Hd Hf Hk Hc) as (b' & E & Hb' & Hn & Hr & _ & Hst).
  exists b'. split; [done|]. intros k Hk'. apply Forall2_length in Hr.
  destruct (lookup_lt_is_Some_2 (executed_blocks b l) (Z.to_nat (k - st_best_number (b_storage b) - 1))) as [txs Hj]; [unfold zlen in *; lia|].
  destruct (Hst _ _ Hj) as (h & block & H).
  replace (st_best_number (b_storage b) + 1 + Z.of_nat (Z.to_nat (k - st_best_number (b_storage b) - 1))) with k in H by lia.
  exists h, block, (create_receipt <$> txs). split; [apply H|]. split; [apply H|].
  split; [by apply (stored_mined_receipts b' k h block)|]. intros f Hrange Hhash.
  rewrite (filter_logs_stored b' k h block txs H). unfold logs_for_block. rewrite (bs_block _ _ _ _ _ H).
  rewrite (stored_logs b' k h block txs H). f_equal. apply scanned_ext. intros e _.
  by rewrite Hrange, Hhash, is_match_params.
Qed.
End chain.

(** ** Examples *)
Section examples.
#[local] Existing Instances no_tries zero_hashes zero_hashes_spec point_bn point_bn_spec willing_os example_chrono example_chrono_spec example_blooms example_hashing
  example_hashing_spec map_disk yellow_rlp.
(** The table of the program, with an administrator's precompile that reports
    an error where it would not return. *)
#[local] Instance logging_evm : Evm MemDb := table_evm (tame_tables LATEST).
#[local] Instance logging_evm_spec : EvmSpec (memdb_ok Snapshots.t_default).
Proof. apply (table_evm_spec _), tame_tame, tame_table_ok. Qed.
#[local] Instance number_bloom_rlp : BloomRlp := {
  encode_bloom b := encode_uint b; decode_bloom x := decode_uint 256 x;
}.
(** All transactions are those of account 100. *)
#[local] Instance one_signer : Signatures := { recovery_id _ := Some 0; signature_recover _ _ := Some 100 }.

(** A filter for an address and for a first topic. *)
Record TestFilter := mkTestFilter {
  tf_address : option Z;
  tf_topic : option Z;
  tf_from : option BlockNumber;
  tf_to : option BlockNumber;
  tf_hash : option Z;
}.
#[local] Instance test_filters : LogFilters := {
  Filter := TestFilter;
  filter_has_address f := bool_decide (is_Some (tf_address f));
  filter_has_topics f := bool_decide (is_Some (tf_topic f));
  filter_get_block_hash := tf_hash;
  filter_get_from_block := tf_from;
  filter_get_to_block := tf_to;
  params_filter_address f log := match tf_address f with Some a => el_address log =? a | None => true end;
  params_filter_topics f log :=
    match tf_topic f with Some t => bool_decide (head (el_topics log) = Some t) | None => true end;
  params_filter_block_range f n :=
    (match tf_from f with Some (Number m) => m <=? n | _ => true end) &&
    (match tf_to f with Some (Number m) => n <=? m | _ => true end);
  params_filter_block_hash f h := match tf_hash f with Some h' => h =? h' | None => true end;
}.
#[local] Instance test_filters_spec : LogFiltersSpec.
Proof. split; intros f log; simpl; [by destruct (tf_address f)|by destruct (tf_topic f)]. Qed.

(** Contract 700 logs twice, contract 800 once. *)
Definition logger (n : nat) : Bytecode :=
  mkBytecode (mjoin (replicate n [0x60; 0; 0x60; 0; 0xa0])) (Z.of_nat (5 * n)) Raw.
Definition logging_db : MemDb :=
  insert_account (insert_account (insert_account MemDb_default 100 example_rich)
    700 (mkAccountInfo 0 1 7 (Some (logger 2)))) 800 (mkAccountInfo 0 1 8 (Some (logger 1))).
Lemma logging_db_ok : memdb_ok Snapshots.t_default logging_db.
Proof.
  repeat apply memdb_insert_ok; [apply MemDb_default_ok|..];
    (split_and!; [by vm_compute..|]; intros c [=]; subst c; by apply raw_fit).
Qed.

Definition logging_backend : Backend (DB := MemDb) (StateDb := MemDb) :=
  mkBackend example_env logging_db (FeeManager.new LATEST 64 100) (TimeManager.new 1000 0)
    (BlockchainStorage_new example_env (Some 64) 0) (InMemoryBlockStates.new 10)
    (mkPruneStateHistoryConfig false None) ∅ None admin.Statics_init.
Lemma logging_backend_ok : backend_ok (memdb_ok Snapshots.t_default) logging_backend.
Proof. destruct example_backend_ok. split; try done. exact logging_db_ok. Qed.

Definition call_tx (n to : Z) : PoolTransaction :=
  mkPoolTransaction (mkPendingTransaction (Legacy (mkLegacyTransaction n 100 60000 (TransactionKind.Call to) 0 []
    (mkSignature 1 1 27))) 100 (500 + n)) [] [] 0.
Lemma call_fields n to : is_u64 n -> is_b160 to -> fields_ok (pending_transaction (call_tx n to)).
Proof.
  intros Hn Hto. split; simpl; try rlia; [split; [constructor|by vm_compute]|]. by intros a [= <-].
Qed.
Definition logging_batches : list (Z * list PoolTransaction) :=
  [(2000, [call_tx 0 700; call_tx 1 800]); (2005, [call_tx 2 700])].

Lemma call_minable n to : is_u64 n -> is_b160 to -> minable (memdb_ok Snapshots.t_default) (call_tx n to).
Proof. intros Hn Hto. apply (table_minable _); [apply tame_table_ok|by apply call_fields]. Qed.
Lemma logging_batches_ok : batches_ok (memdb_ok Snapshots.t_default) logging_backend logging_batches /\
  countable_batches logging_batches /\ dated_blocks logging_backend logging_batches = true /\
  fresh_blocks logging_backend logging_batches = true.
Proof.
  split; [|split; [|split; vm_compute; reflexivity]].
  - apply Forall_cons. split; [|apply Forall_singleton]; (split; [|by vm_compute]).
    + apply Forall_cons. split; [apply call_minable; rlia|]. apply Forall_singleton, call_minable; rlia.
    + apply Forall_singleton, call_minable; rlia.
  - apply Forall_cons. split; [|apply Forall_singleton]; (split; [|by vm_compute]); simpl.
    + repeat constructor; set_solver.
    + apply NoDup_singleton.
Qed.

Definition of_700 : TestFilter := mkTestFilter (Some 700) None (Some (Number 1)) (Some (Number 7)) None.

Lemma logs_of_chain_witness : exists b', mine_blocks logging_backend logging_batches = Val b' /\
  logs b' of_700 = Val (mjoin ((fun k =>
    block_logs (is_match of_700) (hash_at b' k) k (done_at 0 (executed_blocks logging_backend logging_batches) k)) <$>
    seqZ 1 2)).
Proof.
  destruct logging_batches_ok as (H1 & H2 & H3 & H4).
  destruct (logs_of_chain (memdb_ok Snapshots.t_default) logging_backend logging_batches logging_backend_ok)
    as (b' & E & Hn & H); [by vm_compute|done|done|done|done|done|].
  exists b'. split; [exact E|].
  specialize (H of_700 1 7 eq_refl eq_refl eq_refl). rewrite Hn in H. apply H. reflexivity.
Defined.

Lemma logging_executed : fmap (M := list) pending_of <$> executed_blocks logging_backend logging_batches =
  [[pending_transaction (call_tx 0 700); pending_transaction (call_tx 1 800)]; [pending_transaction (call_tx 2 700)]].
Proof. vm_compute. reflexivity. Qed.
Lemma mined_transactions_found_witness : exists b' done tx h r t,
  mine_blocks logging_backend logging_batches = Val b' /\
  executed_blocks logging_backend logging_batches !! 0%nat = Some done /\ done !! 1%nat = Some tx /\
  pending_of tx = pending_transaction (call_tx 1 800) /\
  transaction_receipt b' (hash (ex_transaction tx)) = Val (Some r) /\ receipt_describes 1 h done r tx 1 /\
  mined_transaction_by_hash b' (hash (ex_transaction tx)) = Val (Some t) /\ describes 1 h t (pending_of tx) 1.
Proof.
  destruct logging_batches_ok as (H1 & H2 & H3 & H4).
  destruct (mined_transactions_found (memdb_ok Snapshots.t_default) logging_backend logging_batches logging_backend_ok)
    as (b' & E & _ & H); [by vm_compute|done|done|done|done|done|].
  pose proof logging_executed as Hx. destruct (executed_blocks _ _) as [|[|tx0 [|tx [|]]] l] eqn:Eb; try discriminate Hx.
  pose proof (f_equal (fun l => l !! 0%nat ≫= (fun d => d !! 1%nat)) Hx) as Hp. cbn in Hp. injection Hp as Hp.
  destruct (H 0%nat [tx0; tx] 1%nat tx eq_refl eq_refl) as (h & eb & r & _ & _ & _ & _ & _ & Er & Hd & Ht).
  destruct Ht as (t & Et & _ & Hdt); [rewrite Hp; right; vm_compute; reflexivity|].
  exists b', [tx0; tx], tx, h, r, t. split; [exact E|]. split; [reflexivity|]. split; [reflexivity|]. split; [exact Hp|].
  split; [exact Er|]. split; [exact Hd|]. split; [exact Et|exact Hdt].
Defined.

Lemma subscription_agrees_witness : exists b', mine_blocks logging_backend logging_batches = Val b' /\
  exists h block receipts, get_block_by_hash b' h = Some block /\ mined_receipts b' h = Val (Some receipts) /\
    filter_logs block receipts (Some of_700) = logs_for_block b' of_700 h.
Proof.
  destruct logging_batches_ok as (H1 & H2 & H3 & H4).
  destruct (subscription_agrees (memdb_ok Snapshots.t_default) logging_backend logging_batches logging_backend_ok)
    as (b' & E & H); [by vm_compute|done|done|done|done|done|].
  exists b'. split; [exact E|]. destruct (H 2) as (h & block & receipts & _ & Eb & Er & Hf); [split; [reflexivity|vm_compute; discriminate]|].
  exists h, block, receipts. split; [exact Eb|]. split; [exact Er|]. apply Hf; reflexivity.
Defined.

(** What the node says after these blocks: the hashes in block 1, the
    positions of the logs of contract 700 by eth_getLogs, and what it paid. *)
Lemma logging_answers :
  (b ← mine_blocks logging_backend logging_batches;
   ls ← logs b of_700;
   let spots := (fun l => (el_block_number l, el_transaction_hash l, el_log_index l)) <$> ls in
   eb ← block_by_number b (Number 1);
   let hashes := match eb with Some eb => eb_transactions eb | None => [] end in
   Val (hashes, spots)) =
  Val ([500; 501], [(Some 1, Some 500, Some 0); (Some 1, Some 500, Some 1);
    (Some 2, Some 502, Some 0); (Some 2, Some 502, Some 1)]).
Proof. vm_compute. reflexivity. Qed.

(** The index of a log in its block, in the receipt, counts for each
    transaction before it as many logs as the transaction itself has: the
    only log of the second transaction is the third of its block, at 2, as
    eth_getLogs answers, and its receipt says 1, which is the place of the
    last log of the first transaction. *)
Theorem receipt_log_index_wrong :
  (b ← mine_blocks logging_backend logging_batches;
   r1 ← transaction_receipt b 500;
   r2 ← transaction_receipt b 501;
   ls ← logs b (mkTestFilter (Some 800) None (Some (Number 1)) (Some (Number 1)) None);
   let places (r : option TransactionReceipt) := match r with
     | Some r => el_log_index <$> tr_logs r | None => [] end in
   Val (places r1, places r2, (fun l => (el_transaction_hash l, el_log_index l)) <$> ls)) =
  Val ([Some 0; Some 1], [Some 1], [(Some 501, Some 2)]).
Proof. vm_compute. reflexivity. Qed.

(** A transaction of EIP-1559 with a fee cap below base fee and tip: what it
    paid for each unit of gas is the cap, 100, and the receipt and the
    transaction say 114. *)
Definition capped_tx : PoolTransaction :=
  mkPoolTransaction (mkPendingTransaction (EIP1559 (mkEIP1559Transaction 1 0 50 100 60000
    (TransactionKind.Call 700) 0 [] [] false 1 1)) 100 500) [] [] 0.
Theorem effective_price_exceeds_cap :
  (b ← mine_blocks logging_backend [(2000, [capped_tx])];
   r ← transaction_receipt b 500;
   t ← mined_transaction_by_hash b 500;
   let paid := balance example_rich - match (db_basic (b_db b) 100).1 with inl (Some i) => balance i | _ => 0 end in
   let gas := match r with Some r => default 0 (tr_gas_used r) | None => 0 end in
   Val (paid / gas, paid mod gas, match r with Some r => tr_effective_gas_price r | None => None end,
     match t with Some t => (etx_gas_price t, etx_max_fee_per_gas t) | None => (None, None) end)) =
  Val (100, 0, Some 114, (Some 114, Some 100)).
Proof. vm_compute. reflexivity. Qed.
End examples.
