(* ===== verification/FiltersSpec.v ===== *)
(** * What a polling filter tells

    However blocks are mined, filters polled, installed, removed and evicted,
    a log filter that is polled in time tells each matching log of each block
    once, in order, after those that were there when it was installed. *)

From stdpp Require Import base option list gmap strings.
From Stdlib Require Import ZArith Lia.
From S2P Require Import Prelude Primitives Safety Execution Precompile PrecompileSpec Journal JournalRevert EvmImpl CacheDB EvmSafety TransactSpec CacheDBSpec EvmTable ChainSpec NodeDb BlockStates BlockStatesSpec NodeDbSpec EthTransaction Fees FeesSpec TxPool Miner TxReady TxPoolSpec NodePool MinerSpec NodeSpec EthRequest Codec RlpCrate Calls Queries Filters QueriesSpec.

Section filters.
Context {DB : Type} {HDB : Database DB} {HR : DatabaseRef DB} {HEV : Evm DB} {HD : Db DB}.
Context {StateDb : Type} {HM : MaybeHashDatabase StateDb} {HCS : CurrentState DB StateDb} {HFI : FileSystem}.
Context {HBL : Blooms} {HBH : BlockHashing} {HTC : Chrono} {HBS : BlockHashingSpec} {HTS : ChronoSpec} {HRL : Rlp} {HBR : BloomRlp} {HF : LogFilters}.
Context (ok : DB -> Prop) {HS : DatabaseSpec ok} {HES : EvmSpec ok} {HDS : DbSpec ok}.
Abbreviation backend := (Backend (DB := DB) (StateDb := StateDb)).

(** ** What happens to the filters of a node *)
Inductive filter_event :=
| Mine (now : Z) (ts : list PoolTransaction)
| Poll (now : Z) (id : string)
| Evict (now : Z)
| Install (now : Z) (id : string) (filter : EthFilter)
| Uninstall (id : string)
| NewTransaction (hash : Z).

(** The logs that the polls of [id] are answered with. *)
Definition told_to (id i : string) (r : FilterChanges) : list EthersLog :=
  match r with LogChanges l => if bool_decide (i = id) then l else [] | HashChanges _ => [] end.
Definition filter_step (id : string) (b : backend) (fs : Filters) (e : filter_event) :
  rust (list EthersLog * backend * Filters) :=
  match e with
  | Mine now ts =>
      '(_, b) ← do_mine_block b now ts;
      Val ([], b, notify_filters (announce_block (st_best_hash (b_storage b))) fs)
  | Poll now i => '(r, fs) ← get_filter_changes fs b now i; Val (told_to id i r, b, fs)
  | Evict now => Val ([], b, evict fs now)
  | Install now i filter => Val ([], b, (add_filter fs now i filter).2)
  | Uninstall i => Val ([], b, (uninstall_filter fs i).2)
  | NewTransaction hash => Val ([], b, notify_filters (announce_transaction hash) fs)
  end.
Fixpoint run_filters (id : string) (b : backend) (fs : Filters) (events : list filter_event) :
  rust (list EthersLog * backend * Filters) :=
  match events with
  | [] => Val ([], b, fs)
  | e :: events =>
      '(told, b, fs) ← filter_step id b fs e;
      '(more, b, fs) ← run_filters id b fs events;
      Val (told ++ more, b, fs)
  end.

Definition batch_of (e : filter_event) : option (Z * list PoolTransaction) :=
  match e with Mine now ts => Some (now, ts) | _ => None end.

(** Nobody else uses the id, and between two polls at most [keepalive]
    seconds pass before the next eviction. *)
Fixpoint kept_alive (id : string) (keepalive deadline : Z) (events : list filter_event) : bool :=
  match events with
  | [] => true
  | Poll now i :: events =>
      kept_alive id keepalive (if bool_decide (i = id) then now + keepalive else deadline) events
  | Evict now :: events => (now <=? deadline) && kept_alive id keepalive deadline events
  | Install _ i _ :: events | Uninstall i :: events =>
      negb (bool_decide (i = id)) && kept_alive id keepalive deadline events
  | _ :: events => kept_alive id keepalive deadline events
  end.

(** ** What is told *)

(** A block that was mined: its number, its hash and what it ran. *)
Definition mined_block : Type := Z * Z * list ExecutedTransaction.
Definition block_known (b : backend) (m : mined_block) : Prop :=
  m.1.1 <= st_best_number (b_storage b) /\
  exists block, block_stored (b_storage b) m.1.1 m.1.2 block m.2.
(** Its logs, as the filter, if any, matches them. *)
Definition matching_logs (params : option Filter) (m : mined_block) : list EthersLog :=
  block_logs (fun log => match params with
    | None => true
    | Some f => params_filter_block_range f m.1.1 && params_filter_block_hash f m.1.2 &&
        params_filter_address f log && params_filter_topics f log
    end) m.1.2 m.1.1 m.2.

Lemma drain_known (b : backend) params ms acc : Forall (block_known b) ms ->
  drain_blocks b params ((fun m => m.1.2) <$> ms) acc = Val (acc ++ mjoin (matching_logs params <$> ms)).
Proof.
  intros H. revert acc. induction H as [|[[k h] txs] ms [_ [block Hm]] _ IH]; intros acc; simpl.
  { by rewrite app_nil_r. }
  simpl in Hm. rewrite (stored_mined_receipts b k h block txs Hm). cbn [mbind rust_bind].
  unfold get_block_by_hash. rewrite (bs_block _ _ _ _ _ Hm), (filter_logs_stored b k h block txs Hm params).
  cbn [mbind rust_bind]. rewrite IH, <- app_assoc. done.
Qed.

(** A log filter that has still to tell of [ms]. *)
Definition owes (ms : list mined_block) (l : LogsFilter) : Prop := lf_blocks l = (fun m => m.1.2) <$> ms.

Lemma poll_known b l ms : owes ms l -> Forall (block_known b) ms ->
  LogsFilter_poll b l = Val (default [] (lf_historic l) ++ mjoin (matching_logs (lf_filter l) <$> ms),
    mkLogsFilter [] (lf_filter l) None).
Proof. intros Ho Hms. unfold LogsFilter_poll. by rewrite Ho, drain_known. Qed.

(** All that the filters still have to tell of is there. *)
Definition all_known (b : backend) (fs : Filters) : Prop := forall i l d,
  active_filters fs !! i = Some (FilterLogs l, d) -> exists ms, owes ms l /\ Forall (block_known b) ms.

(** The filter [id], when [first] is what it found when it was installed. *)
Context (id : string) (f : Filter).
Record holds (b : backend) (fs : Filters) (deadline : Z) (first : list EthersLog) (ms : list mined_block) : Prop :=
  mkHolds {
  ho_backend : backend_ok ok b;
  ho_keeper : b_transaction_block_keeper b = None;
  ho_all : all_known b fs;
  ho_filter : exists l, active_filters fs !! id = Some (FilterLogs l, deadline) /\ lf_filter l = Some f /\
    default [] (lf_historic l) = first /\ owes ms l;
  ho_known : Forall (block_known b) ms;
}.

Definition installs_fresh (e : filter_event) : Prop :=
  match e with Install _ _ (FilterLogs l) => lf_blocks l = [] | _ => True end.

(** What is told now and what is still to be told. *)
Definition accounted (told first : list EthersLog) (ms : list mined_block) : list EthersLog :=
  told ++ first ++ mjoin (matching_logs (Some f) <$> ms).

Lemma other_filters b fs fs' d first ms : holds b fs d first ms ->
  active_filters fs' !! id = active_filters fs !! id -> all_known b fs' -> holds b fs' d first ms.
Proof. intros [H1 H2 H3 (l & El & H4) H5] E Hall. split; try done. exists l. by rewrite E. Qed.

Lemma poll_step b fs now i d first ms : holds b fs d first ms ->
  exists told fs' first' ms', filter_step id b fs (Poll now i) = Val (told, b, fs') /\
    holds b fs' (if bool_decide (i = id) then now + keepalive fs else d) first' ms' /\
    keepalive fs' = keepalive fs /\ accounted told first' ms' = accounted [] first ms.
Proof.
  intros Hh. pose proof Hh as [H1 H2 H3 (l & El & Ef & Eh & Ho) H5]. cbn [filter_step]. unfold get_filter_changes.
  case_bool_decide as Hi.
  - subst i. rewrite El. cbn [EthFilter_next]. rewrite (poll_known b l ms Ho H5), Ef, Eh. cbn [mbind rust_bind].
    eexists _, _, [], []. split; [reflexivity|]. split; [|split; [done|]].
    + split; try done.
      * intros j l' d' Hj. simpl in Hj. destruct (decide (j = id)) as [->|Hne].
        -- rewrite lookup_insert_eq in Hj. injection Hj as <- <-. by exists [].
        -- rewrite lookup_insert_ne in Hj by done. by apply (H3 j l' d').
      * eexists. split; [apply lookup_insert_eq|done].
    + unfold accounted, told_to. rewrite bool_decide_eq_true_2 by done. simpl. by rewrite app_nil_r.
  - destruct (active_filters fs !! i) as [[filter d']|] eqn:Ei.
    2:{ eexists _, _, _, _. split; [reflexivity|]. by split. }
    assert (Hn : exists r filter', EthFilter_next b filter = Val (r, filter') /\
      match filter' with FilterLogs l => lf_blocks l = [] | _ => True end).
    { destruct filter as [l'|bs|txs]; [|by eexists _, _..]. destruct (H3 i l' d' Ei) as (ms' & Ho' & Hm').
      simpl. rewrite (poll_known b l' ms' Ho' Hm'). by eexists _, _. }
    destruct Hn as (r & filter' & -> & Hf'). cbn [mbind rust_bind]. eexists _, _, first, ms. split; [reflexivity|].
    split; [|split; [done|]].
    + eapply other_filters; [exact Hh|by apply lookup_insert_ne|]. intros j l' d'' Hj. simpl in Hj.
      destruct (decide (j = i)) as [->|Hne].
      * rewrite lookup_insert_eq in Hj. injection Hj as -> <-. by exists [].
      * rewrite lookup_insert_ne in Hj by done. by apply (H3 j l' d'').
    + unfold accounted, told_to. destruct r; [by rewrite bool_decide_eq_false_2|done].
Qed.

(** Announcements put nothing but what they announce into the queues. *)
Lemma announced_transaction fs h i l d :
  active_filters (notify_filters (announce_transaction h) fs) !! i = Some (FilterLogs l, d) <->
  active_filters fs !! i = Some (FilterLogs l, d).
Proof.
  simpl. rewrite lookup_fmap. destruct (active_filters fs !! i) as [[[x|x|x] d']|]; simpl; naive_solver.
Qed.
Lemma announced_block fs h i l' d :
  active_filters (notify_filters (announce_block h) fs) !! i = Some (FilterLogs l', d) ->
  exists l, active_filters fs !! i = Some (FilterLogs l, d) /\ lf_blocks l' = lf_blocks l ++ [h].
Proof.
  simpl. rewrite lookup_fmap. destruct (active_filters fs !! i) as [[[x|x|x] d']|]; simpl; [|done..].
  intros [= <- <-]. by exists x.
Qed.

Lemma quiet_step b fs e es d first ms : holds b fs d first ms -> batch_of e = None ->
  kept_alive id (keepalive fs) d (e :: es) = true -> installs_fresh e ->
  exists told fs' d' first' ms', filter_step id b fs e = Val (told, b, fs') /\ holds b fs' d' first' ms' /\
    keepalive fs' = keepalive fs /\ kept_alive id (keepalive fs) d' es = true /\
    accounted told first' ms' = accounted [] first ms.
Proof.
  intros Hh He Hk Hi. pose proof Hh as [H1 H2 H3 (l & El & Hl) H5].
  destruct e as [now ts|now i|now|now i filter|i|h]; [done| | | | |]; cbn [kept_alive] in Hk.
  - destruct (poll_step b fs now i d first ms Hh) as (told & fs' & first' & ms' & E & Hh' & Ek & Ea).
    by exists told, fs', (if bool_decide (i = id) then now + keepalive fs else d), first', ms'.
  - apply andb_true_iff in Hk as [Hd%Z.leb_le Hk]. eexists [], _, d, first, ms. split; [reflexivity|].
    split; [|by split_and!]. eapply other_filters; [exact Hh| |].
    + simpl. rewrite El. apply map_lookup_filter_Some. split; [done|]. simpl. lia.
    + intros j l' d' Hj. simpl in Hj. apply map_lookup_filter_Some in Hj as [Hj _]. by apply (H3 j l' d').
  - apply andb_true_iff in Hk as [Hne%negb_true_iff%bool_decide_eq_false Hk].
    eexists [], _, d, first, ms. split; [reflexivity|]. split; [|by split_and!].
    eapply other_filters; [exact Hh|by apply lookup_insert_ne|]. intros j l' d' Hj. simpl in Hj.
    destruct (decide (j = i)) as [->|Hji].
    + rewrite lookup_insert_eq in Hj. injection Hj as -> <-. by exists [].
    + rewrite lookup_insert_ne in Hj by done. by apply (H3 j l' d').
  - apply andb_true_iff in Hk as [Hne%negb_true_iff%bool_decide_eq_false Hk].
    eexists [], _, d, first, ms. split; [reflexivity|]. split; [|by split_and!].
    eapply other_filters; [exact Hh|by apply lookup_delete_ne|]. intros j l' d' Hj. simpl in Hj.
    apply lookup_delete_Some in Hj as [_ Hj]. by apply (H3 j l' d').
  - eexists [], _, d, first, ms. split; [reflexivity|]. split; [|by split_and!].
    split; [done|done| |exists l; by rewrite announced_transaction|done].
    intros j l' d' Hj. apply announced_transaction in Hj. by apply (H3 j l' d').
Qed.

Lemma mine_step b fs now ts d first ms : holds b fs d first ms -> st_best_number (b_storage b) < u64_max ->
  Forall (minable ok) ts ->
  block_gas_limit (env_block (b_env b)) * zlen ts <= u64_max -> dated_block b now = true ->
  NoDup (hash <$> ts) -> zlen ts <= 2 ^ 32 ->
  (forall out b', do_mine_block b now ts = Val (out, b') ->
     st_blocks (b_storage b) !! st_best_hash (b_storage b') = None /\
     Forall (fun t => st_transactions (b_storage b) !! hash t = None) (pool.included out)) ->
  exists out b' fs' m, do_mine_block b now ts = Val (out, b') /\
    filter_step id b fs (Mine now ts) = Val ([], b', fs') /\ holds b' fs' d first (ms ++ [m]) /\
    keepalive fs' = keepalive fs /\ m.1.1 = st_best_number (b_storage b) + 1 /\ m.2 = executions b now ts /\
    ran (block_gas_limit (env_block (b_env b))) ts m.2 /\
    st_best_number (b_storage b') = st_best_number (b_storage b) + 1 /\ same_chain b b' /\
    (forall m', block_known b m' -> block_known b' m') /\ block_known b' m.
Proof.
  intros Hh Hmax Hts Hgas Hdate Hnd Hlen Hfr. pose proof Hh as [Hb Hkeep Hall (l & El & Ef & Ehi & Ho) Hms].
  destruct (mine_stored ok b now ts Hb Hmax Hts Hgas Hdate Hkeep Hnd Hlen) as (out & b' & E & Hb' & Hs & _ & Hn & Hr & Hst & Hold).
  set (txs := executions b now ts) in *.
  destruct (Hfr out b' E) as [Hf1 Hf2]. destruct Hst as (h & block & Hst).
  assert (Eh : h = st_best_hash (b_storage b')).
  { pose proof (bo_tip ok b' Hb') as Htip. rewrite Hn, (bs_hash _ _ _ _ _ Hst) in Htip. congruence. }
  assert (Hm : block_known b' (st_best_number (b_storage b) + 1, h, txs)) by (split; [simpl; lia|by exists block]).
  assert (Hold' : forall m', block_known b m' -> block_known b' m').
  { intros [[k h'] d'] [Hk [bl Hbl]]. simpl in *. split; simpl; [lia|]. exists bl. apply Hold; [done|done|lia|done]. }
  exists out, b'. eexists _, (st_best_number (b_storage b) + 1, h, txs). split; [done|]. cbn [filter_step]. rewrite E.
  cbn [mbind rust_bind]. split; [reflexivity|]. split; [|by split_and!].
  split; [done|destruct Hs as (_ & _ & _ & _ & Hs); congruence| | |].
  - intros j l' d' Hj. apply announced_block in Hj as (l0 & Hj & Eb). destruct (Hall j l0 d' Hj) as (ms' & Ho' & Hms').
    exists (ms' ++ [(st_best_number (b_storage b) + 1, h, txs)]). split.
    + unfold owes in *. rewrite Eb, Ho', fmap_app. simpl. by rewrite Eh.
    + apply Forall_app. split; [by eapply Forall_impl; [exact Hms'|]|by apply Forall_singleton].
  - eexists. split; [|split; [|split]].
    + simpl. rewrite lookup_fmap, El. reflexivity.
    + done.
    + done.
    + unfold owes in *. simpl. rewrite Ho, fmap_app. simpl. by rewrite Eh.
  - apply Forall_app. split; [by eapply Forall_impl; [exact Hms|]|by apply Forall_singleton].
Qed.

(** The blocks [new], numbered from the next one on, are those of the batches,
    with what ran in them. *)
Definition new_blocks (b b' : backend) (l : list (Z * list PoolTransaction)) (new : list mined_block) : Prop :=
  Forall2 (fun nt m => ran (block_gas_limit (env_block (b_env b))) nt.2 m.2) l new /\ Forall (block_known b') new /\
  snd <$> new = executed_blocks b l /\
  forall j m, new !! j = Some m -> m.1.1 = st_best_number (b_storage b) + 1 + Z.of_nat j.

Lemma run_holds events b fs d first ms : holds b fs d first ms -> Forall installs_fresh events ->
  kept_alive id (keepalive fs) d events = true -> let l := omap batch_of events in
  st_best_number (b_storage b) + zlen l <= u64_max -> batches_ok ok b l -> dated_blocks b l = true ->
  fresh_blocks b l = true -> countable_batches l ->
  exists told b' fs' d' first' ms' new, run_filters id b fs events = Val (told, b', fs') /\
    holds b' fs' d' first' ms' /\ mine_blocks b l = Val b' /\
    new_blocks b b' l new /\
    (forall m, block_known b m -> block_known b' m) /\
    accounted told first' ms' = accounted [] first (ms ++ new).
Proof.
  intros Hh Hi. revert b fs d first ms Hh.
  induction Hi as [|e events He _ IH]; intros b fs d first ms Hh Hk l Hmax Hb Hdt Hf Hc.
  { exists [], b, fs, d, first, ms, []. rewrite app_nil_r. by split_and!. }
  destruct (batch_of e) as [[now ts]|] eqn:Ee.
  - destruct e as [now' ts'|now' i|now'|now' i filter|i|h]; try done. injection Ee as -> ->.
    subst l. change (omap batch_of (Mine now ts :: events)) with ((now, ts) :: omap batch_of events) in *.
    rewrite zlen_cons in Hmax. pose proof (zlen_nonneg (omap batch_of events)).
    apply dated_blocks_cons in Hdt as [Hdt Hd1].
    apply Forall_cons in Hb as [[Hts Hgas] Hb]. apply Forall_cons in Hc as [[Hnd Hlen] Hc].
    destruct (mine_step b fs now ts d first ms Hh) as (out & b1 & fs1 & m & E & Es & Hh1 & Ek & Em & Emt & Hr & Hn & Hs & Hold & Hm);
      [lia|done..| |].
    { intros out b1 E. by destruct (fresh_blocks_cons _ _ _ _ _ _ E Hf) as (? & ? & _). }
    destruct (fresh_blocks_cons _ _ _ _ _ _ E Hf) as (_ & _ & Hf1). destruct Hs as (Hg & _).
    cbn [kept_alive] in Hk. rewrite <- Ek in Hk.
    destruct (IH b1 fs1 d first (ms ++ [m]) Hh1 Hk) as (told & b2 & fs2 & d2 & first2 & ms2 & new & E2 & Hh2 & E3 & (Hr2 & Hk2 & Hx & Hj) & Ho2 & Ea);
      [lia|unfold batches_ok; by rewrite Hg|by eapply Hd1|done|done|].
    exists told, b2, fs2, d2, first2, ms2, (m :: new). cbn [run_filters mine_blocks]. rewrite Es, E. cbn [mbind rust_bind].
    rewrite E2. cbn [mbind rust_bind]. split; [done|]. split; [done|]. split; [done|].
    split; [|split; [auto|by rewrite Ea, <- app_assoc]].
    rewrite Hg in Hr2. split; [by constructor|]. split; [constructor; [by apply Ho2|done]|].
    split; [cbn [fmap list_fmap executed_blocks]; by rewrite E, Emt, Hx|].
    intros [|j] m' Hj'; simpl in Hj'; [injection Hj' as <-; lia|]. rewrite (Hj j m' Hj'), Hn. lia.
  - destruct (quiet_step b fs e events d first ms Hh Ee Hk He) as (told & fs1 & d1 & first1 & ms1 & Es & Hh1 & Ek & Hk1 & Ea).
    assert (El : l = omap batch_of events) by (subst l; simpl; by rewrite Ee). rewrite El in *. rewrite <- Ek in Hk1.
    destruct (IH b fs1 d1 first1 ms1 Hh1 Hk1 Hmax Hb Hdt Hf Hc) as (more & b2 & fs2 & d2 & first2 & ms2 & new & E2 & Hh2 & E3 & Hnew & Ho2 & Ea2).
    exists (told ++ more), b2, fs2, d2, first2, ms2, new. cbn [run_filters]. rewrite Es. cbn [mbind rust_bind]. rewrite E2.
    cbn [mbind rust_bind]. split; [done|]. split; [done|]. split; [done|]. split; [done|]. split; [done|].
    unfold accounted in *. simpl in *. rewrite <- !app_assoc, Ea2, !fmap_app, !join_app in *.
    rewrite (app_assoc first), <- Ea. by rewrite <- !app_assoc.
Qed.

(** C40: a filter for logs that is polled in time tells everything once:
    what was there when it was installed, then the matching logs of each
    block mined since, in the order of blocks and of logs, whatever happens
    to other filters and between the polls; what the polls have not told is
    what the next one answers.  In time: no eviction comes more than the
    time to keep alive after its last poll.  The node and its blocks are as
    for eth_getLogs. *)
Theorem filter_tells_all (b : backend) (fs : Filters) (now : Z) (historic : list EthersLog)
  (events : list filter_event) :
  backend_ok ok b -> b_transaction_block_keeper b = None ->
  (forall i l d, active_filters fs !! i = Some (FilterLogs l, d) -> lf_blocks l = []) ->
  match filter_get_from_block f with Some _ => logs b f | None => Val [] end = Val historic ->
  Forall installs_fresh events -> kept_alive id (keepalive fs) (now + keepalive fs) events = true ->
  let l := omap batch_of events in
  st_best_number (b_storage b) + zlen l <= u64_max -> batches_ok ok b l -> dated_blocks b l = true ->
  fresh_blocks b l = true -> countable_batches l ->
  exists fs0 told b' fs' l' d rest new,
    new_filter b fs now id f = Val (id, fs0) /\ run_filters id b fs0 events = Val (told, b', fs') /\
    mine_blocks b l = Val b' /\
    new_blocks b b' l new /\
    active_filters fs' !! id = Some (FilterLogs l', d) /\
    LogsFilter_poll b' l' = Val (rest, mkLogsFilter [] (Some f) None) /\
    told ++ rest = historic ++ mjoin (matching_logs (Some f) <$> new).
Proof.
  intros Hb Hkeep Hq Hhist Hi Hk l Hmax Hbs Hdt Hf Hc. unfold new_filter. rewrite Hhist. cbn [mbind rust_bind].
  set (fs0 := (add_filter fs now id (FilterLogs (mkLogsFilter [] (Some f) (Some historic)))).2).
  assert (Hh : holds b fs0 (now + keepalive fs) historic []).
  { split; [done|done| | |done].
    - intros j l' d' Hj. exists []. split; [|done]. simpl in Hj. destruct (decide (j = id)) as [->|Hne].
      + rewrite lookup_insert_eq in Hj. by injection Hj as <- <-.
      + rewrite lookup_insert_ne in Hj by done. by apply (Hq j l' d').
    - eexists. split; [apply lookup_insert_eq|done]. }
  destruct (run_holds events b fs0 _ _ _ Hh Hi Hk Hmax Hbs Hdt Hf Hc)
    as (told & b' & fs' & d & first & ms & new & E & Hh' & Em & Hnew & _ & Ea).
  pose proof Hh' as [_ _ _ (l' & El & Ef & Eh & Ho) Hms].
  exists fs0, told, b', fs', l', d, (first ++ mjoin (matching_logs (Some f) <$> ms)), new.
  split; [done|]. split; [done|]. split; [done|]. split; [done|]. split; [done|].
  split; [by rewrite (poll_known b' l' ms Ho Hms), Ef, Eh|exact Ea].
Qed.

(** A filter whose time has run out is gone, and its polls answer nothing. *)
Lemma evicted (b : backend) fs now later i filter d : active_filters fs !! i = Some (filter, d) -> d < now ->
  get_filter_changes (evict fs now) b later i = Val (HashChanges [], evict fs now).
Proof.
  intros E Hd. unfold get_filter_changes.
  assert (active_filters (evict fs now) !! i = None) as ->; [|done].
  simpl. apply map_lookup_filter_None. right. intros x Hx. rewrite E in Hx. injection Hx as <-. simpl. lia.
Qed.
End filters.

(** ** Examples *)
Section examples.
#[local] Existing Instances no_tries zero_hashes zero_hashes_spec point_bn point_bn_spec willing_os logging_evm logging_evm_spec example_chrono example_chrono_spec example_blooms
  example_hashing example_hashing_spec map_disk yellow_rlp number_bloom_rlp test_filters.

(** Two blocks, a poll after the first, and another filter that is not
    polled and evicted. *)
Definition example_filter_events : list filter_event :=
  [Install 5 "other" (FilterBlocks []); Mine 2000 [call_tx 0 700; call_tx 1 800]; Poll 200 "mine"; Evict 400;
   Mine 2005 [call_tx 2 700]; NewTransaction 7; Poll 450 "other"].

Lemma filter_tells_all_witness : exists fs0 told b' fs',
  new_filter logging_backend Filters_default 0 "mine" of_700 = Val ("mine"%string, fs0) /\
  run_filters "mine" logging_backend fs0 example_filter_events = Val (told, b', fs') /\
  exists l d rest, active_filters fs' !! "mine"%string = Some (FilterLogs l, d) /\
    LogsFilter_poll b' l = Val (rest, mkLogsFilter [] (Some of_700) None).
Proof.
  destruct logging_batches_ok as (H1 & H2 & H3 & H4).
  destruct (filter_tells_all (HF := test_filters) (memdb_ok Snapshots.t_default) "mine" of_700 logging_backend Filters_default 0 []
    example_filter_events logging_backend_ok) as (fs0 & told & b' & fs' & l & d & rest & new & E1 & E2 & _ & _ & E3 & E4 & _);
    [done|intros i l d Hi; vm_compute in Hi; discriminate Hi|vm_compute; reflexivity|by repeat constructor|by vm_compute|
     by vm_compute|exact H1|exact H3|exact H4|exact H2|].
  exists fs0, told, b', fs'. split; [exact E1|]. split; [exact E2|]. exists l, d, rest. split; [exact E3|exact E4].
Defined.

(** The poll has told the logs of the first block; those of the second are
    still to be told. *)
Lemma example_filter_tells :
  ('(_, fs) ← new_filter logging_backend Filters_default 0 "mine" of_700;
   '(told, b, fs) ← run_filters "mine" logging_backend fs example_filter_events;
   '(r, _) ← get_filter_changes fs b 460 "mine";
   let places := fmap (fun l => (el_block_number l, el_log_index l)) in
   Val (places told, match r with LogChanges l => places l | HashChanges _ => [] end,
     bool_decide (is_Some (active_filters fs !! "other"%string)))) =
  Val ([(Some 1, Some 0); (Some 1, Some 1)], [(Some 2, Some 0); (Some 2, Some 1)], false).
Proof. vm_compute. reflexivity. Qed.

(** The poll of a subscription ends at a block that is no longer stored, as
    one that was reverted is not, although other blocks are waiting: it has
    not polled its listener until that was empty, so nothing wakes it for
    them.  The next poll, if there is one, answers. *)
Theorem subscription_stalls :
  (b ← mine_blocks logging_backend logging_batches;
   let h := hash_at b 2 in
   '(r1, s) ← LogsSubscription_poll b (mkLogsSubscription [5; h] (Some of_700) []);
   '(r2, _) ← LogsSubscription_poll b s;
   let number := match r2 with Some l => el_block_number l | None => None end in
   let waiting := bool_decide (ls_blocks s = [h]) in
   Val (r1, waiting, number)) = Val (None, true, Some 2).
Proof. vm_compute. reflexivity. Qed.
End examples.
