(* ===== verification/NodeApiSpec.v ===== *)
(** * Properties of the node under control: [NodeApi]

    A node keeps running while it is controlled, whatever the order of its
    requests and of the steps of its service, if the EVM returns on what is
    submitted and the blocks have dates; the block it mines next is the one
    that was set up; and what is written to an account is what is read.
    Examples show settings that a node does not survive. *)

From stdpp Require Import base option list gmap sets strings sorting.
From Stdlib Require Import ZArith Lia.
From S2P Require Import Prelude Primitives Analysis Safety Execution Precompile PrecompileSpec Journal JournalRevert EvmImpl CacheDB EvmSafety TransactSpec CacheDBSpec EvmTable ChainSpec NodeDb BlockStates BlockStatesSpec NodeDbSpec EthTransaction EthRequest Fees FeesSpec TxPool Miner Codec Calls Api Queries NodeApi TxReady TxPoolSpec NodePool MinerSpec CallsSpec RlpCrate CodecSpec NodeSpec.

(** What the control of a node takes for granted of its database. *)
Class ControlSpec {DB : Type} {HDB : Database DB} {HR : DatabaseRef DB} {HD : Db DB} (ok : DB -> Prop) : Prop := {
  insert_account_ok db a i : ok db -> info_wf i -> ok (insert_account db a i);
  set_storage_ok db a k v : ok db -> is_u256 v -> ok (set_storage_at db a k v).2;
  snapshot_ok db : ok db -> ok (snapshot db).2;
  always_answers a : db_answers ok a;
}.

Lemma btree_entries_Forall {A : Type} (P : A -> Prop) (M : gmap Z A) : map_Forall (fun _ => P) M ->
  Forall (fun kv => P kv.2) (btree_entries M).
Proof.
  intros HM. unfold btree_entries. rewrite merge_sort_Permutation. apply Forall_forall.
  intros [k v] Hkv%elem_of_map_to_list. by apply (HM k v).
Qed.

(** A record that may be loaded. *)
Definition record_ok (r : SerializableAccountRecord) : Prop :=
  is_u64 (sr_nonce r) /\ is_u256 (sr_balance r) /\ Forall is_u8 (sr_code r) /\ zlen (sr_code r) <= mem_max /\
  map_Forall (fun _ => is_u256) (sr_storage r).

Section setters.
Context {DB : Type} {HDB : Database DB} {HR : DatabaseRef DB} {HD : Db DB} {HC : Crypto} {HCS : CryptoSpec}.
Context (ok : DB -> Prop) {HS : DatabaseSpec ok} {HRS : DatabaseRefSpec ok} {HCO : ControlSpec ok}.

Lemma change_account_ok f db a : ok db -> (forall i, info_wf i -> info_wf (f i)) -> ok (change_account f db a).2.
Proof.
  intros Hdb Hf. unfold change_account. destruct (db_basic_ok db a Hdb) as [H1 H2].
  destruct (db_basic db a) as [[info|e] db']; simpl in *; [|done]. apply insert_account_ok; [done|]. apply Hf.
  destruct info as [i|]; [by apply H2|apply info_default_wf].
Qed.
Lemma set_nonce_ok db a n : ok db -> is_u64 n -> ok (set_nonce db a n).2.
Proof. intros Hdb Hn. apply change_account_ok; [done|]. intros i (H1 & H2 & H3 & H4). by split_and!. Qed.
Lemma set_balance_ok db a v : ok db -> is_u256 v -> ok (NodeDb.set_balance db a v).2.
Proof. intros Hdb Hn. apply change_account_ok; [done|]. intros i (H1 & H2 & H3 & H4). by split_and!. Qed.

Lemma checked_fit c : Forall is_u8 c -> zlen c <= mem_max -> fit_bytecode (Bytecode_to_checked (Bytecode_new_raw c)).
Proof.
  intros Hu Hl. destruct (new_raw_fit c Hu Hl) as [[Hw _] Hh]. split; [split|done]; [by apply to_checked_wf|].
  simpl. pose proof (zlen_nonneg c). unfold zlen in *. rewrite length_resize. lia.
Qed.
Lemma set_code_ok db a c : ok db -> Forall is_u8 c -> zlen c <= mem_max -> ok (set_code db a c).2.
Proof.
  intros Hdb Hu Hl. apply change_account_ok; [done|]. intros i (H1 & H2 & _ & _). split_and!; [done|done| |].
  - simpl. case_if; [by vm_compute|apply keccak_range].
  - intros b [= <-]. by apply checked_fit.
Qed.

Lemma set_slots_ok a l : forall db, ok db -> Forall (fun kv => is_u256 kv.2) l -> ok (set_slots db a l).2.
Proof.
  induction l as [|[k v] l IH]; intros db Hdb Hl; cbn [set_slots]; [done|].
  apply Forall_cons in Hl as [Hv Hl]. pose proof (set_storage_ok db a k v Hdb Hv) as H1.
  destruct (set_storage_at db a k v) as [[[]|e] db']; [by apply IH|done].
Qed.
Lemma loaded_account_ok db a r : ok db -> record_ok r -> info_wf (loaded_account db a r).
Proof.
  intros Hdb (Hn & Hb & Hu & Hl & _). unfold loaded_account. split_and!; cbn [balance nonce code_hash Primitives.code];
    [done| |by vm_compute|].
  - pose proof (ref_basic_ok db a) as H. destruct (ref_basic db a) as [[i|]|e]; [|rlia..].
    destruct (H i Hdb eq_refl) as (_ & Hi & _). rlia.
  - intros b. case_if; [done|]. intros [= <-]. by apply checked_fit.
Qed.
Lemma load_accounts_ok l : forall db, ok db -> Forall (fun ar => record_ok ar.2) l -> ok (load_accounts db l).2.
Proof.
  induction l as [|[a r] l IH]; intros db Hdb Hl; cbn [load_accounts]; [done|].
  apply Forall_cons in Hl as [Hr Hl]. simpl in Hr.
  set (db1 := insert_account db a (loaded_account db a r)).
  assert (H1 : ok (set_slots db1 a (btree_entries (sr_storage r))).2).
  { apply set_slots_ok; [by apply insert_account_ok; [|apply loaded_account_ok]|].
    by apply btree_entries_Forall, Hr. }
  destruct (set_slots db1 a _) as [[[]|e] db2]; [by apply IH|done].
Qed.
Lemma load_state_ok db st : ok db -> map_Forall (fun _ => record_ok) st -> ok (load_state db st).2.
Proof.
  intros Hdb Hst. apply load_accounts_ok; [done|]. by apply btree_entries_Forall.
Qed.
End setters.

(** ** A node under control *)
Section control.
Context {DB : Type} {HDB : Database DB} {HR : DatabaseRef DB} {HEV : Evm (CacheDB DB)} {HEM : Evm DB} {HD : Db DB}.
Context {StateDb : Type} {HM : MaybeHashDatabase StateDb} {HFI : FileSystem} {HCS : CurrentState DB StateDb}.
Context {HBL : Blooms} {HBH : BlockHashing} {HTC : Chrono} {HBS : BlockHashingSpec} {HTS : ChronoSpec} {HCH : pool.Channel}.
Context {HRL : Rlp} {HBR : BloomRlp} {HCR : Crypto} {HCY : CryptoSpec} {HSG : Signatures}.
Context {HER : forall D (R : DatabaseRef D), EvmRef D} {HF : LogFilters}.
Context (boxed_state : StateDb -> DynDatabase (ref_error (DB := DB))) (as_ref_error : db_error (DB := DB) -> ref_error (DB := DB)).
Context (ok : DB -> Prop) {HS : DatabaseSpec ok} {HRS : DatabaseRefSpec ok} {HES : EvmSpec ok} {HDS : DbSpec ok} {HCO : ControlSpec ok}.
Abbreviation backend := (Backend (DB := DB) (StateDb := StateDb)).
Abbreviation api := (EthApi (DB := DB) (StateDb := StateDb)).
Abbreviation exec := (execute boxed_state as_ref_error).

(** *** The backend stays fit *)

Lemma coinbase_always cfg blk : coinbase_known ok cfg blk.
Proof. right. apply always_answers. Qed.
Lemma with_db_ok (b : backend) db : backend_ok ok b -> ok db -> backend_ok ok (with_db b db).
Proof. intros []. by split. Qed.
Lemma with_fees_ok (b : backend) fees : backend_ok ok b -> is_u64 (FeeManager.base_fee_ fees) -> backend_ok ok (with_fees b fees).
Proof. intros []. by split. Qed.
Lemma with_time_ok (b : backend) time : backend_ok ok b -> time_ok time -> backend_ok ok (with_time b time).
Proof. intros []. by split. Qed.
Lemma with_states_ok (b : backend) states : backend_ok ok b -> states_ok states -> backend_ok ok (with_block_states b states).
Proof. intros []. by split. Qed.
Lemma coinbase_ok (b : backend) c : backend_ok ok b -> is_b160 c -> backend_ok ok (backend_set_coinbase b c).
Proof. intros [? [] ? ? ? ? ? ? ?] Hc. split; simpl; try done; first [by split|apply coinbase_always]. Qed.
Lemma gas_limit_ok (b : backend) g : backend_ok ok b -> 2 <= g <= u64_max -> backend_ok ok (backend_set_gas_limit b g).
Proof. intros [? [] ? ? ? ? ? ? ?] Hg. split; simpl; try done; [split; try done; simpl; rlia|lia]. Qed.
Lemma eip3607_ok (b : backend) : backend_ok ok b -> backend_ok ok (disable_eip3607 b).
Proof. intros [? [] ? ? ? ? ? ? ?]. by split. Qed.
Lemma create_snapshot_ok (b : backend) : backend_ok ok b -> backend_ok ok (create_snapshot b).2.
Proof.
  intros []. unfold create_snapshot. pose proof (snapshot_ok (b_db b) bo_db) as H.
  destruct (snapshot (b_db b)) as [id db]. by split.
Qed.

Lemma set_time_ok m now t : time_ok m -> is_u64 t -> time_ok (TimeManager.reset m now t).
Proof. intros [] Ht. by split. Qed.
Lemma increase_time_ok m s : time_ok m -> time_ok (TimeManager.increase_time m s).2.
Proof. intros []. by split. Qed.
Lemma interval_ok m s : time_ok m -> is_u64 s -> time_ok (TimeManager.set_block_timestamp_interval m s).
Proof. intros [] Hs. split; simpl; try done. by intros ? [= <-]. Qed.
Lemma no_interval_ok m : time_ok m -> time_ok (TimeManager.remove_block_timestamp_interval m).2.
Proof. intros []. by split. Qed.
Lemma next_exact_ok m t m' : time_ok m -> is_u64 t -> TimeManager.set_next_block_timestamp m t = Some m' -> time_ok m'.
Proof.
  intros [] Ht. unfold TimeManager.set_next_block_timestamp. case_if; [done|]. intros [= <-]. split; simpl; try done.
  by intros ? [= <-].
Qed.

(** *** Requests *)

(** Settings within their bounds; the rest of the requests either ask for
    nothing or are not among those considered. *)
Definition request_ok (gas_limit : Z) (r : EthRequest) : Prop :=
  match r with
  | SetBalance _ v | SetStorageAt _ _ v => is_u256 v
  | SetNonce _ n => 0 <= n
  | SetCode _ c => Forall is_u8 c /\ zlen c <= mem_max
  | SetCoinbase c => is_b160 c
  | SetNextBlockBaseFeePerGas f => is_u64 f
  | EvmSetBlockGasLimit g => 2 <= g <= gas_limit
  | LoadState st => forall s, st = Some s -> map_Forall (fun _ => record_ok) s
  | EvmSetNextBlockTimeStamp t | EvmSetTime t | EvmIncreaseTime t | SetIntervalMining t => 0 <= t
  | EvmSetBlockTimeStampInterval s => is_u64 s
  | Mine blocks interval => (forall n, blocks = Some n -> is_u64 n) /\ forall n, interval = Some n -> is_u64 n
  | EvmMine opts =>
      match opts with
      | None => True
      | Some (MineTimestamp t) => forall n, t = Some n -> is_u64 n
      | Some (MineOptions t blocks) => (forall n, t = Some n -> is_u64 n) /\ forall n, blocks = Some n -> is_u64 n
      end
  | ImpersonateAccount _ | StopImpersonatingAccount _ | AutoImpersonateAccount _ | GetAutoMine | SetAutomine _
  | NodeApi.DropTransaction _ | Reset _ | SetMinGasPrice _ | EvmSnapshot | EvmRemoveBlockTimeStampInterval
  | EthGasPrice | EthAccounts | EthBlockNumber | EthSyncing | EthGetWork | EthSubmitWork | EthSubmitHashRate
  | EthSignTypedData | EthSignTypedDataV3 | EnableTraces => True
  | _ => False
  end.

(** How many blocks a request mines, or one. *)
Definition cost (r : EthRequest) : Z :=
  match r with
  | Mine blocks _ => Z.max 1 (default 1 blocks)
  | EvmMine (Some (MineOptions _ blocks)) => Z.max 1 (default 1 blocks)
  | _ => 1
  end.
Definition step_ok (gas_limit : Z) (s : node_step) : Prop :=
  match s with Service _ => True | Request r _ => request_ok gas_limit r end.
Definition step_cost (s : node_step) : Z := match s with Service _ => 1 | Request r _ => cost r end.
Definition total_cost (steps : list node_step) : Z := foldr (fun s n => step_cost s + n) 0 steps.

(** Each block that is mined has its date. *)
Fixpoint dated_mines (a : api) (clock : nat -> Z) (j n : nat) : bool :=
  match n with
  | O => true
  | S n => dated_block (api_backend a) (clock j) &&
      match mine_one a (clock j) with Val a => dated_mines a clock (S j) n | _ => true end
  end.
Definition dated_request (a : api) (clock : nat -> Z) (r : EthRequest) : bool :=
  match r with
  | Mine blocks _ => dated_mines a clock 0 (Z.to_nat (default 1 blocks))
  | EvmMine opts =>
      let '(timestamp, blocks) := match opts with
        | None => (None, 1)
        | Some (MineTimestamp timestamp) => (timestamp, 1)
        | Some (MineOptions timestamp blocks) => (timestamp, default 1 blocks)
        end in
      match timestamp with
      | None => dated_mines a clock 0 (Z.to_nat blocks)
      | Some t =>
          let '(set, a) := evm_set_next_block_timestamp a t in
          match set with inl _ => dated_mines a clock 0 (Z.to_nat blocks) | inr _ => true end
      end
  | _ => true
  end.
Definition dated_step (n : Node) (s : node_step) : bool :=
  match s with
  | Service e => dated_event (service_of n) e
  | Request r clock => dated_request (nd_api n) clock r
  end.
Fixpoint dated_steps (n : Node) (steps : list node_step) : bool :=
  match steps with
  | [] => true
  | s :: steps => dated_step n s &&
      match node_handle boxed_state as_ref_error n s with Val n => dated_steps n steps | _ => true end
  end.

(** *** Running *)
Context (given : list PoolTransaction) (start top n_events gas_limit : Z).
#[local] Instance control_shape : TxShape := service_shape ok given.
Context (Htop : top + n_events <= u64_max) (Hmax : n_events <= u64_max) (Hgas : gas_limit * n_events <= u64_max).
(** The service of the node is as after [i] events. *)
Definition inv (i : Z) (a : api) (m : option (list PoolTransaction)) (q : list (list PoolTransaction)) : Prop :=
  node_inv ok given start top n_events gas_limit i (service_of (mkNode a m q)).

Lemma set_backend_inv i a m q b : inv i a m q -> backend_ok ok b -> b_storage b = b_storage (api_backend a) ->
  block_gas_limit (env_block (b_env b)) <= gas_limit -> inv (i + 1) (set_api_backend a b) m q.
Proof. intros [] Hb Es Hg. split; simpl in *; try done; rewrite ?Es; [lia|done|lia]. Qed.

Lemma ready_batch i a m q : inv i a m q -> i <= n_events -> exists ts, ready_list a = Val ts /\ batch ok n_events ts.
Proof.
  intros Hn Hi. pose proof (poll_takes FixedBlockTime true _ (ni_pool _ _ _ _ _ _ _ _ Hn)) as (r & md & E & Hr).
  cbn [MiningMode_poll FixedBlockTimeMiner_poll] in E. unfold ready_list. cbn [service_of nd_api ns_pool] in E, Hr.
  destruct (TransactionsIterator.collect _ _) as [ts| | |]; [|done..]. cbn [mbind rust_bind] in E.
  injection E as <- <-. destruct (Hr ts eq_refl) as [Hts Hlen]. exists ts. split; [done|].
  split; [eapply Forall_impl; [exact Hts|]; by intros t [_ _ [_ Hf]]|].
  pose proof (ni_ids _ _ _ _ _ _ _ _ Hn) as Hids. cbn in Hids. lia.
Qed.

Lemma mine_one_inv i a m q now : inv i a m q -> dated_block (api_backend a) now = true -> i + 1 <= n_events ->
  exists a' ts out, mine_one a now = Val a' /\ inv (i + 1) a' m q /\
    batch ok n_events ts /\ do_mine_block (api_backend a) now ts = Val (out, api_backend a').
Proof.
  intros Hn Hd Hi. destruct (ready_batch i a m q Hn) as (ts & Er & Hb); [lia|]. unfold mine_one. rewrite Er.
  assert (Hn' : node_inv ok given start top n_events gas_limit i
    (mkNodeService (api_pool a) (api_backend a) (Some ts) q (api_miner a))).
  { destruct Hn. split; simpl in *; try done. by intros ? [= <-]. }
  destruct (finish_ok ok given start top n_events gas_limit i _ now Hn' Hd Hi Htop Hmax Hgas) as (n' & E & Hinv).
  unfold finish_block in E. cbn [ns_block_mining ns_backend ns_pool ns_queued ns_miner] in E. cbn [mbind rust_bind].
  destruct (do_mine_block (api_backend a) now ts) as [[out b]| | |] eqn:Em; [|done..]. cbn [mbind rust_bind] in E |- *.
  destruct (pool.on_mined_block (api_pool a) out) as [[pr p]| | |]; [|done..]. cbn [mbind rust_bind] in E |- *.
  injection E as <-. eexists _, ts, out. split; [done|]. split; [|by split]. destruct Hinv. destruct Hn. by split.
Qed.

Lemma mine_many_inv n : forall i a m q clock j, inv i a m q -> dated_mines a clock j n = true -> i + Z.of_nat n <= n_events ->
  exists a', mine_many a clock j n = Val a' /\ inv (i + Z.of_nat n) a' m q.
Proof.
  induction n as [|n IH]; intros i a m q clock j Hn Hd Hi; cbn [mine_many dated_mines] in *.
  { exists a. split; [done|]. by rewrite Z.add_0_r. }
  apply andb_true_iff in Hd as [Hd Hds].
  destruct (mine_one_inv i a m q (clock j) Hn Hd) as (a1 & _ & _ & E1 & H1 & _); [lia|]. rewrite E1 in Hds |- *. cbn [mbind rust_bind].
  destruct (IH (i + 1) a1 m q clock (S j) H1 Hds) as (a2 & E & H2); [lia|]. exists a2. split; [exact E|].
  by replace (i + Z.of_nat (S n)) with (i + 1 + Z.of_nat n) by lia.
Qed.

Lemma pool_inv i a m q op : inv i a m q -> i + 1 <= n_events -> op_ok op ->
  exists p, run_op (api_pool a) op = Val p /\ inv (i + 1) (set_api_pool a p) m q.
Proof.
  intros Hn Hi Hop. destruct (node_pool_step ok given start top n_events gas_limit i _ op Hn) as (p & E & H);
    [lia|done|]. by exists p.
Qed.
(** What else the service has no part in. *)
Lemma miner_inv i a m q mode : inv i a m q -> inv i (set_mining_mode a mode) m q.
Proof. intros []. by split. Qed.
Lemma cheats_inv i a m q cheats : inv i a m q -> inv i (set_api_cheats a cheats) m q.
Proof. intros []. by split. Qed.
Lemma inv_next i a m q : inv i a m q -> inv (i + 1) a m q.
Proof. apply node_inv_next. Qed.
Lemma inv_after i j a m q : inv i a m q -> i <= j -> inv j a m q.
Proof. intros [] Hj. split; try done; lia. Qed.
Lemma inv_backend i a m q : inv i a m q -> backend_ok ok (api_backend a).
Proof. by intros []. Qed.
Lemma inv_gas i a m q : inv i a m q -> block_gas_limit (env_block (b_env (api_backend a))) <= gas_limit.
Proof. by intros []. Qed.

Lemma automine_inv i a m q enable : inv i a m q -> inv i (anvil_set_auto_mine a enable) m q.
Proof.
  intros Hn. unfold anvil_set_auto_mine. repeat case_if; [done|by apply miner_inv| |done].
  destruct (pool.add_ready_listener (api_pool a)) as [rx p] eqn:Er. apply miner_inv.
  unfold pool.add_ready_listener in Er. destruct (pool.channel 2048). injection Er as <- <-. destruct Hn. by split.
Qed.
Lemma interval_inv i a m q secs : inv i a m q ->
  exists a', anvil_set_interval_mining a secs = Val a' /\ inv (i + 1) a' m q.
Proof.
  intros Hn. unfold anvil_set_interval_mining. case_if; [eexists; split; [done|]; by apply inv_next, miner_inv|].
  pose proof (inv_backend _ _ _ _ Hn) as Hb.
  destruct (update_interval_returns (b_states (api_backend a)) secs (bo_states _ _ Hb)) as (s & -> & Hs).
  cbn [mbind rust_bind]. eexists. split; [done|]. apply miner_inv.
  apply set_backend_inv; [done|by apply with_states_ok|done|by eapply inv_gas].
Qed.
Lemma impersonate_inv i a m q addr : inv i a m q -> inv (i + 1) (anvil_impersonate_account a addr) m q.
Proof.
  intros Hn. unfold anvil_impersonate_account, backend_impersonate. case_if.
  - apply cheats_inv, set_backend_inv; [done|by eapply inv_backend|done|by eapply inv_gas].
  - destruct (impersonate (api_cheats a) addr) as [r c]. apply cheats_inv, set_backend_inv; [done| |done|by eapply inv_gas].
    by eapply eip3607_ok, inv_backend.
Qed.
Lemma timestamp_inv i a m q t : inv i a m q -> is_u64 t -> inv (i + 1) (evm_set_next_block_timestamp a t).2 m q.
Proof.
  intros Hn Ht. unfold evm_set_next_block_timestamp. pose proof (inv_backend _ _ _ _ Hn) as Hb.
  destruct (TimeManager.set_next_block_timestamp _ t) as [tm|] eqn:Et; [|by apply inv_next].
  apply set_backend_inv; [done| |done|by eapply inv_gas]. apply with_time_ok; [done|].
  eapply next_exact_ok; [apply Hb|done|exact Et].
Qed.
Lemma drop_inv i a m q h : inv i a m q -> i + 1 <= n_events ->
  exists r a', anvil_drop_transaction a h = Val (r, a') /\ inv (i + 1) a' m q.
Proof.
  intros Hn Hi. destruct (pool_inv i a m q (DropTransaction h) Hn Hi I) as (p & E & H).
  unfold anvil_drop_transaction. simpl in E. destruct (pool.drop_transaction (api_pool a) h) as [[x p']| | |]; [|done..].
  injection E as ->. cbn [mbind rust_bind]. by eexists _, _.
Qed.
Lemma setter_inv i a m q r resp : inv i a m q -> backend_ok ok r.2 -> b_storage r.2 = b_storage (api_backend a) ->
  b_env r.2 = b_env (api_backend a) ->
  exists resp' a', setter as_ref_error a r resp = Val (resp', a') /\ inv (i + 1) a' m q.
Proof.
  intros Hn Hb Es Ee. unfold setter. eexists _, _. split; [done|]. apply set_backend_inv; [done|done|done|].
  rewrite Ee. by eapply inv_gas.
Qed.
Lemma mine_inv i a m q clock blocks interval : inv i a m q ->
  (forall n, blocks = Some n -> is_u64 n) -> (forall n, interval = Some n -> is_u64 n) ->
  dated_request a clock (Mine blocks interval) = true -> i + default 1 blocks <= n_events ->
  exists a', anvil_mine a clock blocks interval = Val a' /\ inv (i + Z.max 1 (default 1 blocks)) a' m q.
Proof.
  intros Hn Hb Hiv Hd Hi. unfold anvil_mine.
  assert (E : exists x, match interval with Some i => n ← as_u64 i; Val (Some n) | None => Val None end = Val x).
  { destruct interval as [n|]; [|by eexists]. specialize (Hiv n eq_refl). unfold as_u64.
    rewrite (proj2 (Z.ltb_lt _ _)) by rlia. by eexists. }
  destruct E as [x ->]. cbn [mbind rust_bind].
  assert (Hu : is_u64 (default 1 blocks)) by (destruct blocks as [n|]; [by apply Hb|by split]).
  destruct (Z.eqb_spec (default 1 blocks) 0) as [E|E]; [exists a; split; [done|]; rewrite E; by apply inv_next|].
  unfold as_u64. rewrite (proj2 (Z.ltb_lt _ _)) by rlia. cbn [mbind rust_bind].
  destruct (mine_many_inv (Z.to_nat (default 1 blocks)) i a m q clock 0 Hn Hd) as (a' & Ea & Ha); [rlia|].
  exists a'. split; [exact Ea|]. by replace (i + Z.max 1 (default 1 blocks)) with (i + Z.of_nat (Z.to_nat (default 1 blocks))) by rlia.
Qed.

Lemma mine_blocks_inv i a m q clock n : inv i a m q -> dated_mines a clock 0 (Z.to_nat n) = true -> 0 <= n -> i + n <= n_events ->
  exists a', mine_many a clock 0 (Z.to_nat n) = Val a' /\ inv (i + Z.max 1 n) a' m q.
Proof.
  intros Hn Hd H0 Hi. destruct (mine_many_inv (Z.to_nat n) i a m q clock 0 Hn Hd) as (a' & E & H); [lia|].
  exists a'. split; [done|]. eapply inv_after; [exact H|lia].
Qed.
Lemma evm_mine_inv i a m q clock opts : inv i a m q -> request_ok gas_limit (EvmMine opts) ->
  dated_request a clock (EvmMine opts) = true -> i + cost (EvmMine opts) <= n_events ->
  exists r a', do_evm_mine a clock opts = Val (r, a') /\ inv (i + cost (EvmMine opts)) a' m q.
Proof.
  intros Hn Hr Hd Hi. unfold do_evm_mine.
  assert (H : forall t n, (forall x, t = Some x -> is_u64 x) -> 0 <= n -> i + Z.max 1 n <= n_events ->
    match t with
    | None => dated_mines a clock 0 (Z.to_nat n)
    | Some t => let '(set, a) := evm_set_next_block_timestamp a t in
        match set with inl _ => dated_mines a clock 0 (Z.to_nat n) | inr _ => true end
    end = true -> exists r a',
    (let '(set, a) := match t with Some t => evm_set_next_block_timestamp a t | None => (inl tt, a) end in
     match set with
     | inr e => Val (inr e, a)
     | inl _ => a ← mine_many a clock 0 (Z.to_nat n); Val (inl n, a)
     end) = Val (r, a') /\ inv (i + Z.max 1 n) a' m q).
  { intros t n Ht H0 Hle Hd'.
    assert (Hset : forall x, t = Some x -> inv i (evm_set_next_block_timestamp a x).2 m q).
    { intros x Hx. pose proof (inv_backend _ _ _ _ Hn) as Hb. unfold evm_set_next_block_timestamp.
      destruct (TimeManager.set_next_block_timestamp _ x) as [tm|] eqn:Et; [|done].
      assert (Hb' : backend_ok ok (with_time (api_backend a) tm))
        by (apply with_time_ok; [done|]; eapply next_exact_ok; [apply Hb|by apply Ht|exact Et]).
      destruct Hn. by split. }
    destruct t as [x|].
    - specialize (Hset x eq_refl). destruct (evm_set_next_block_timestamp a x) as [[u|e] a1]; simpl in Hset, Hd'.
      + destruct (mine_blocks_inv i a1 m q clock n Hset Hd') as (a2 & E & H2); [lia..|]. rewrite E.
        cbn [mbind rust_bind]. by eexists _, _.
      + eexists _, _. split; [done|]. eapply inv_after; [done|lia].
    - destruct (mine_blocks_inv i a m q clock n Hn Hd') as (a2 & E & H2); [lia..|]. rewrite E.
      cbn [mbind rust_bind]. by eexists _, _. }
  destruct opts as [[t|t blocks]|]; cbn [cost request_ok dated_request] in *.
  - apply (H t 1); [exact Hr|lia|lia|exact Hd].
  - destruct Hr as [Ht Hb]. apply (H t (default 1 blocks)); [exact Ht| |lia|exact Hd].
    destruct blocks as [n|]; [|done]. specialize (Hb n eq_refl). simpl; rlia.
  - apply (H None 1); [done|lia|lia|exact Hd].
Qed.

Lemma load_inv i a m q buf : inv i a m q -> request_ok gas_limit (LoadState buf) ->
  exists x a', anvil_load_state as_ref_error a buf = (x, a') /\ inv (i + 1) a' m q.
Proof.
  intros Hn Hr. pose proof (inv_backend _ _ _ _ Hn) as Hb. pose proof (inv_gas _ _ _ _ Hn) as Hg.
  unfold anvil_load_state, backend_load_state. destruct buf as [st|]; cbn [on_db]; eexists _, _; (split; [reflexivity|]);
    apply set_backend_inv; try done.
  apply with_db_ok; [done|]. apply (load_state_ok ok); [apply Hb|by apply Hr].
Qed.

(** Every request that is considered is answered, and the node stays fit. *)
Lemma control_spec_ok i a m q r clock : inv i a m q -> 0 <= i -> request_ok gas_limit r ->
  dated_request a clock r = true -> i + cost r <= n_events ->
  exists resp a', exec a clock r = Val (resp, a') /\ inv (i + cost r) a' m q.
Proof.
  intros Hn H0 Hr Hd Hi. pose proof (inv_backend _ _ _ _ Hn) as Hb. pose proof (inv_gas _ _ _ _ Hn) as Hg.
  pose proof (bo_time _ _ Hb) as Ht. pose proof (bo_db _ _ Hb) as Hdb. pose proof (bo_gas_limit _ _ Hb) as Hg2.
  destruct r; cbn [request_ok] in Hr; try done; cbn [cost execute] in *;
    lazymatch goal with
    | |- exists _ _, answer_pure a _ = _ /\ _ => eexists _, _; split; [done|by apply inv_next]
    | |- exists _ _, answer_refused a _ = _ /\ _ => eexists _, _; split; [done|by apply inv_next]
    | |- _ => idtac
    end.
  - eexists _, _. split; [done|by apply impersonate_inv].
  - eexists _, _. split; [done|]. by apply inv_next, cheats_inv.
  - eexists _, _. split; [done|]. by apply inv_next, cheats_inv.
  - destruct (mine_inv i a m q clock blocks interval Hn) as (a' & -> & Ha); [apply Hr|apply Hr|exact Hd|lia|].
    by eexists _, _.
  - eexists _, _. split; [done|]. by apply inv_next, automine_inv.
  - destruct (interval_inv i a m q interval Hn) as (a' & -> & Ha). by eexists _, _.
  - destruct (drop_inv i a m q tx Hn) as (x & a' & -> & Ha); [lia|]. by eexists _, _.
  - apply setter_inv; [done|apply with_db_ok; [done|by apply (set_balance_ok ok)]|done|done].
  - destruct Hr as [Hu Hl]. apply setter_inv; [done|apply with_db_ok; [done|by apply (set_code_ok ok)]|done|done].
  - apply setter_inv; [done| |done|done]. apply with_db_ok; [done|]. apply (set_nonce_ok ok); [done|rlia].
  - apply setter_inv; [done|apply with_db_ok; [done|by apply set_storage_ok]|done|done].
  - eexists _, _. split; [done|]. by apply set_backend_inv; [|apply coinbase_ok| |].
  - unfold anvil_set_min_gas_price. case_if; (eexists _, _; split; [done|]); [by apply inv_next|].
    apply set_backend_inv; [done|apply with_fees_ok; [done|exact (bo_fees _ _ Hb)]|done|done].
  - unfold anvil_set_next_block_base_fee_per_gas. case_if; (eexists _, _; split; [done|]); [by apply inv_next|].
    by apply set_backend_inv; [|apply with_fees_ok| |].
  - destruct (load_inv i a m q buf Hn Hr) as (x & a' & E & Ha). cbn. rewrite E. by eexists _, _.
  - unfold evm_snapshot. pose proof (create_snapshot_ok _ Hb) as Hs.
    assert (E : b_storage (create_snapshot (api_backend a)).2 = b_storage (api_backend a) /\
      b_env (create_snapshot (api_backend a)).2 = b_env (api_backend a))
      by (unfold create_snapshot; by destruct (snapshot (b_db (api_backend a)))).
    destruct (create_snapshot (api_backend a)) as [id b]. simpl in Hs, E. eexists _, _. split; [done|].
    apply set_backend_inv; [done|done|apply E|]. by rewrite (proj2 E).
  - unfold evm_increase_time. pose proof (increase_time_ok _ (Z.min time u64_max) Ht) as Htm.
    destruct (TimeManager.increase_time _ _) as [o tm]. simpl in Htm. eexists _, _. split; [done|].
    by apply set_backend_inv; [|apply with_time_ok| |].
  - unfold with_u64. destruct (Z.leb_spec time u64_max) as [Hle|Hle]; [|eexists _, _; split; [done|by apply inv_next]].
    assert (Hu : is_u64 time) by rlia. pose proof (timestamp_inv i a m q time Hn Hu) as Hts.
    destruct (evm_set_next_block_timestamp a time) as [x a']. by eexists _, _.
  - unfold with_u64. destruct (Z.leb_spec timestamp u64_max) as [Hle|Hle]; [|eexists _, _; split; [done|by apply inv_next]].
    eexists _, _. split; [done|]. apply set_backend_inv; [done| |done|done].
    apply with_time_ok; [done|]. apply set_time_ok; [done|rlia].
  - eexists _, _. split; [done|]. apply set_backend_inv; [done|apply gas_limit_ok; [done|]|done|cbn; lia].
    split; [lia|]. nia.
  - eexists _, _. split; [done|]. apply set_backend_inv; [done| |done|done].
    apply with_time_ok; [done|by apply interval_ok].
  - unfold evm_remove_block_timestamp_interval. pose proof (no_interval_ok _ Ht) as Htm.
    destruct (TimeManager.remove_block_timestamp_interval _) as [o tm]. simpl in Htm. eexists _, _. split; [done|].
    by apply set_backend_inv; [|apply with_time_ok| |].
  - destruct (evm_mine_inv i a m q clock mine Hn Hr Hd Hi) as (x & a' & -> & Ha). by eexists _, _.
Qed.

Lemma cost_positive r : 1 <= cost r.
Proof. destruct r; cbn [cost]; repeat case_match; lia. Qed.

Lemma node_step_ok i n s : inv i (nd_api n) (nd_block_mining n) (nd_queued n) -> 0 <= i ->
  (forall e, s = Service e -> event_ok ok given e) -> step_ok gas_limit s -> dated_step n s = true ->
  i + step_cost s <= n_events ->
  exists n', node_handle boxed_state as_ref_error n s = Val n' /\
    inv (i + step_cost s) (nd_api n') (nd_block_mining n') (nd_queued n').
Proof.
  intros Hn H0 He Hs Hd Hi. destruct s as [e|r clock]; cbn [node_handle step_cost step_ok dated_step] in *.
  - destruct (handle_ok ok given start top n_events gas_limit i (service_of n) e) as (s & -> & Hinv);
      [by destruct n|by apply He|done|lia|done..|]. cbn [mbind rust_bind]. eexists. split; [done|].
    destruct Hinv. by split.
  - destruct (control_spec_ok i (nd_api n) _ _ r clock Hn H0 Hs Hd Hi) as (resp & a' & -> & Ha). cbn [mbind rust_bind].
    by eexists.
Qed.

Lemma total_cost_nonneg steps : 0 <= total_cost steps.
Proof.
  induction steps as [|s steps IH]; [done|]. cbn [total_cost foldr]. fold (total_cost steps).
  destruct s as [e|r clock]; cbn [step_cost]; [lia|pose proof (cost_positive r); lia].
Qed.

Lemma node_run_ok steps : forall i n, inv i (nd_api n) (nd_block_mining n) (nd_queued n) -> 0 <= i ->
  Forall (fun s => forall e, s = Service e -> event_ok ok given e) steps -> Forall (step_ok gas_limit) steps ->
  dated_steps n steps = true -> i + total_cost steps <= n_events ->
  exists n', node_run boxed_state as_ref_error n steps = Val n' /\
    inv (i + total_cost steps) (nd_api n') (nd_block_mining n') (nd_queued n').
Proof.
  unfold node_run. induction steps as [|s steps IH]; intros i n Hn H0 He Hs Hd Hi; cbn [foldl dated_steps] in *.
  { exists n. split; [done|]. cbn. by rewrite Z.add_0_r. }
  apply Forall_cons in He as [He Hes]. apply Forall_cons in Hs as [Hs Hss]. cbn [total_cost foldr] in Hi.
  fold (total_cost steps) in Hi.
  assert (Hc : 1 <= step_cost s) by (destruct s; [done|apply cost_positive]).
  pose proof (total_cost_nonneg steps) as Ht.
  apply andb_true_iff in Hd as [Hd Hds].
  destruct (node_step_ok i n s Hn H0 He Hs Hd) as (n1 & E & H1); [lia|]. cbn [mbind rust_bind]. rewrite E in Hds |- *.
  destruct (IH (i + step_cost s) n1 H1) as (n2 & E2 & H2); [lia|done|done|done|lia|]. exists n2. split; [exact E2|].
  cbn [total_cost foldr]. fold (total_cost steps). by replace (i + (step_cost s + total_cost steps)) with (i + step_cost s + total_cost steps) by lia.
Qed.
End control.

(** *** The node keeps running *)
Section running.
Context {DB : Type} {HDB : Database DB} {HR : DatabaseRef DB} {HEV : Evm (CacheDB DB)} {HEM : Evm DB} {HD : Db DB}.
Context {StateDb : Type} {HM : MaybeHashDatabase StateDb} {HFI : FileSystem} {HCS : CurrentState DB StateDb}.
Context {HBL : Blooms} {HBH : BlockHashing} {HTC : Chrono} {HBS : BlockHashingSpec} {HTS : ChronoSpec} {HCH : pool.Channel}.
Context {HRL : Rlp} {HBR : BloomRlp} {HCR : Crypto} {HCY : CryptoSpec} {HSG : Signatures}.
Context {HER : forall D (R : DatabaseRef D), EvmRef D} {HF : LogFilters}.
Context (boxed_state : StateDb -> DynDatabase (ref_error (DB := DB))) (as_ref_error : db_error (DB := DB) -> ref_error (DB := DB)).
Context (ok : DB -> Prop) {HS : DatabaseSpec ok} {HRS : DatabaseRefSpec ok} {HES : EvmSpec ok} {HDS : DbSpec ok} {HCO : ControlSpec ok}.
Abbreviation api := (EthApi (DB := DB) (StateDb := StateDb)).

(** The events of the service among the steps. *)
Definition service_events (steps : list node_step) : list node_event :=
  omap (fun s => match s with Service e => Some e | _ => None end) steps.

(** A node with an empty pool, and steps within their bounds: what is
    submitted is within its types, the EVM returns on it and the same hash
    always comes with the same markers, and [budget] blocks fit in the height
    and in the gas that is counted. *)
Record session_ok (a : api) (listeners : list pool.Sender) (steps : list node_step) (start gas_limit budget : Z) : Prop := mkSessionOk {
  so_pool : api_pool a = empty_pool listeners;
  so_backend : backend_ok ok (api_backend a);
  so_chain : chain_ok start (b_storage (api_backend a));
  so_gas_limit : block_gas_limit (env_block (b_env (api_backend a))) <= gas_limit;
  so_submitted : Forall submitted (submissions (service_events steps));
  so_minable : Forall (minable ok) (submissions (service_events steps));
  so_consistent : consistent (submissions (service_events steps));
  so_steps : Forall (step_ok gas_limit) steps;
  so_gas : gas_limit * budget <= u64_max;
  so_height : st_best_number (b_storage (api_backend a)) + budget <= u64_max;
}.

Lemma session_runs (a : api) listeners steps start gas_limit budget :
  session_ok a listeners steps start gas_limit budget ->
  dated_steps boxed_state as_ref_error (mkNode a None []) steps = true -> total_cost steps <= budget ->
  let top := st_best_number (b_storage (api_backend a)) in
  exists n, node_run boxed_state as_ref_error (mkNode a None []) steps = Val n /\
    top + budget <= u64_max /\ budget <= u64_max /\
    inv ok (submissions (service_events steps)) start top budget gas_limit (total_cost steps)
      (nd_api n) (nd_block_mining n) (nd_queued n).
Proof.
  intros [Hp Hb Hc Hg Hs Hf Hcons Hsteps Hgas Hmax] Hd Hle top. pose proof (proj2 (bo_number ok _ Hb)) as H0. fold top in H0, Hmax.
  destruct (node_run_ok boxed_state as_ref_error ok (submissions (service_events steps)) start
    top budget gas_limit) with (steps := steps) (i := 0) (n := mkNode a None [])
    as (n & E & Hn); [lia|lia|lia| |lia| |done|done|lia|].
  - split; cbn; try done; rewrite ?Hp; [apply pool_wf_default|done|unfold top; lia].
  - apply Forall_forall. intros s Hin e ->. destruct e as [t|h|event| |now]; [|done..].
    assert (Ht : t ∈ submissions (service_events steps)).
    { apply list_elem_of_omap. exists (Submit t). split; [|done]. apply list_elem_of_omap. by exists (Service (Submit t)). }
    rewrite Forall_forall in Hs, Hf. apply (service_tx_ok ok); auto.
  - exists n. split; [done|]. split; [lia|]. split; [lia|]. exact Hn.
Qed.

End running.

(** ** The block that was set up *)

(** What is to be of the next block. *)
Record Plan := mkPlan {
  pl_gas_limit : Z;
  pl_coinbase : Z;
  pl_base_fee : Z;
  pl_timestamp : option Z;
  pl_last_timestamp : Z;
}.
(** Each setting changes one thing, and any other request nothing. *)
Definition plan_step {HF : LogFilters} (london : bool) (p : Plan) (r : EthRequest) : Plan :=
  let '(mkPlan gas_limit coinbase base_fee timestamp last) := p in
  match r with
  | EvmSetBlockGasLimit g => mkPlan g coinbase base_fee timestamp last
  | SetCoinbase c => mkPlan gas_limit c base_fee timestamp last
  | SetNextBlockBaseFeePerGas f => if london then mkPlan gas_limit coinbase f timestamp last else p
  | EvmSetNextBlockTimeStamp t =>
      if bool_decide (last < t <= u64_max) then mkPlan gas_limit coinbase base_fee (Some t) last else p
  | EvmSetTime t => if bool_decide (t <= u64_max) then mkPlan gas_limit coinbase base_fee None t else p
  | _ => p
  end.
Definition mines {HF : LogFilters} (r : EthRequest) : bool := match r with Mine _ _ | EvmMine _ => true | _ => false end.

Section plan.
Context {DB : Type} {HDB : Database DB} {HR : DatabaseRef DB} {HEV : Evm (CacheDB DB)} {HEM : Evm DB} {HD : Db DB}.
Context {StateDb : Type} {HM : MaybeHashDatabase StateDb} {HFI : FileSystem} {HCS : CurrentState DB StateDb}.
Context {HBL : Blooms} {HBH : BlockHashing} {HTC : Chrono} {HBS : BlockHashingSpec} {HTS : ChronoSpec} {HCH : pool.Channel}.
Context {HRL : Rlp} {HBR : BloomRlp} {HCR : Crypto} {HCY : CryptoSpec} {HSG : Signatures}.
Context {HER : forall D (R : DatabaseRef D), EvmRef D} {HF : LogFilters}.
Context (boxed_state : StateDb -> DynDatabase (ref_error (DB := DB))) (as_ref_error : db_error (DB := DB) -> ref_error (DB := DB)).
Context (ok : DB -> Prop) {HS : DatabaseSpec ok} {HRS : DatabaseRefSpec ok} {HES : EvmSpec ok} {HDS : DbSpec ok} {HCO : ControlSpec ok}.
Abbreviation backend := (Backend (DB := DB) (StateDb := StateDb)).
Abbreviation api := (EthApi (DB := DB) (StateDb := StateDb)).
Abbreviation exec := (execute boxed_state as_ref_error).

Definition plan_of (b : backend) : Plan :=
  mkPlan (block_gas_limit (env_block (b_env b))) (block_coinbase (env_block (b_env b)))
    (FeeManager.base_fee_ (b_fees b)) (TimeManager.next_exact_timestamp (b_time b)) (TimeManager.last_timestamp (b_time b)).
(** What settings have no part in. *)
Definition fixed (b : backend) : BlockchainStorage * SpecId * SpecId :=
  (b_storage b, cfg_spec_id (env_cfg (b_env b)), FeeManager.spec_id (b_fees b)).
Definition obeys (b : backend) (plan : Plan) (header : Header) : Prop :=
  hd_gas_limit header = pl_gas_limit plan /\ hd_beneficiary header = pl_coinbase plan /\
  hd_base_fee_per_gas header = (if backend_is_eip1559 b then Some (pl_base_fee plan) else None) /\
  (forall t, pl_timestamp plan = Some t -> pl_last_timestamp plan < t -> hd_timestamp header = t) /\
  (pl_last_timestamp plan < u64_max -> pl_last_timestamp plan < hd_timestamp header).

Lemma setting_plan gas_limit (a : api) r clock resp a' : request_ok gas_limit r -> mines r = false ->
  exec a clock r = Val (resp, a') ->
  plan_of (api_backend a') = plan_step (backend_is_eip1559 (api_backend a)) (plan_of (api_backend a)) r /\
  fixed (api_backend a') = fixed (api_backend a).
Proof.
  intros Hr Hm. destruct r; cbn [request_ok mines] in *; try done; cbn [execute].
  all: try (intros [= _ <-]; by split).
  - unfold anvil_impersonate_account, backend_impersonate. repeat case_match; intros [= _ <-]; by simplify_eq.
  - unfold anvil_set_auto_mine. repeat case_match; intros [= _ <-]; by simplify_eq.
  - unfold anvil_set_interval_mining. case_match; [by intros [= _ <-]|].
    destruct (InMemoryBlockStates.update_interval_mine_block_time _ _); [|done..]. by intros [= _ <-].
  - unfold anvil_drop_transaction. destruct (pool.drop_transaction _ _) as [[x p]| | |]; [|done..]. by intros [= _ <-].
  - unfold anvil_set_min_gas_price. case_match; by intros [= _ <-].
  - unfold anvil_set_next_block_base_fee_per_gas, plan_step. cbn [plan_of]. unfold plan_of.
    destruct (backend_is_eip1559 _); by intros [= _ <-].
  - unfold anvil_load_state, backend_load_state. destruct buf; by intros [= _ <-].
  - unfold evm_snapshot, create_snapshot. destruct (snapshot _). by intros [= _ <-].
  - unfold with_u64, evm_set_next_block_timestamp, TimeManager.set_next_block_timestamp. unfold plan_of, plan_step.
    destruct (Z.leb_spec time u64_max); [|rewrite bool_decide_eq_false_2 by lia; by intros [= _ <-]].
    destruct (Z.leb_spec time (TimeManager.last_timestamp (b_time (api_backend a))));
      [rewrite bool_decide_eq_false_2 by lia|rewrite bool_decide_eq_true_2 by lia]; by intros [= _ <-].
  - unfold with_u64, plan_of, plan_step. destruct (Z.leb_spec timestamp u64_max);
      [rewrite bool_decide_eq_true_2 by done|rewrite bool_decide_eq_false_2 by lia]; by intros [= _ <-].
Qed.

Lemma next_timestamp_plan m now : time_ok m ->
  (forall t, TimeManager.next_exact_timestamp m = Some t -> TimeManager.last_timestamp m < t ->
    (TimeManager.next_timestamp m now).1 = t) /\
  (TimeManager.last_timestamp m < u64_max -> TimeManager.last_timestamp m < (TimeManager.next_timestamp m now).1).
Proof.
  intros Hm. pose proof (next_timestamp_spec m now Hm) as H. split.
  - intros t Et Hlt. unfold TimeManager.next_timestamp, TimeManager.compute_next_timestamp. rewrite Et. cbv zeta beta iota.
    rewrite (proj2 (Z.leb_gt _ _)) by done. done.
  - destruct (TimeManager.next_timestamp m now) as [t m']. by destruct H as (_ & H & _).
Qed.

(** A mined block has what was planned. *)
Lemma mined_obeys (b : backend) now ts out b' : backend_ok ok b -> st_best_number (b_storage b) < u64_max ->
  Forall (minable ok) ts ->
  block_gas_limit (env_block (b_env b)) * zlen ts <= u64_max -> dated_block b now = true ->
  FeeManager.spec_id (b_fees b) = cfg_spec_id (env_cfg (b_env b)) ->
  do_mine_block b now ts = Val (out, b') ->
  exists block, get_block b' (IdNumber Latest) = Some block /\ obeys b (plan_of b) (bl_header block) /\
    hd_number (bl_header block) = st_best_number (b_storage b) + 1 /\
    hd_parent_hash (bl_header block) = st_best_hash (b_storage b).
Proof.
  intros Hb Hmax Hts Hgas Hd Hspec E. destruct (executor_for_ok ok b now Hb Hmax) as (_ & Enum & Egl).
  destruct (mine_runs ok b now ts Hb Hmax Hts Hgas Hd) as (os & y & b2 & fee & _ & _ & _ & E2 & _ & _ & _ & _ & _ & Est & _).
  rewrite E in E2. injection E2 as -> <-. eexists. unfold get_block, storage_hash. rewrite Est. cbn [store_block st_best_hash st_blocks].
  split; [cbn; by rewrite lookup_insert_eq|]. cbn [info_of bi_block bl_header]. split; [|split; [exact Enum|done]].
  destruct (next_timestamp_plan (b_time b) now (bo_time _ _ Hb)) as [H1 H2].
  unfold obeys, header_of, executor_for, next_block_env, plan_of, Header_new, backend_is_eip1559.
  cbn [hd_gas_limit hd_beneficiary hd_base_fee_per_gas hd_timestamp ph_gas_limit ph_beneficiary ph_base_fee ph_timestamp
    TransactionExecutor.block_env TransactionExecutor.cfg_env env_block env_cfg block_gas_limit block_coinbase
    block_basefee block_timestamp pl_gas_limit pl_coinbase pl_base_fee pl_timestamp pl_last_timestamp].
  split; [done|]. split; [done|]. split; [|by split].
  assert (Ecfg : forall c : bool, cfg_spec_id (if c then mkCfgEnv (cfg_chain_id (env_cfg (b_env b))) (cfg_spec_id (env_cfg (b_env b)))
     (cfg_perf_all_precompiles_have_balance (env_cfg (b_env b))) (cfg_perf_analyse_created_bytecodes (env_cfg (b_env b)))
     (cfg_limit_contract_code_size (env_cfg (b_env b))) (cfg_memory_limit (env_cfg (b_env b)))
     (cfg_disable_block_gas_limit (env_cfg (b_env b))) (cfg_disable_eip3607 (env_cfg (b_env b))) true
     else env_cfg (b_env b)) = cfg_spec_id (env_cfg (b_env b))) by (intros []; done).
  rewrite Ecfg. unfold FeeManager.base_fee, FeeManager.is_eip1559. rewrite Hspec. by destruct (enabled _ LONDON).
Qed.

Lemma dated_app (n n1 : Node) l1 l2 : node_run boxed_state as_ref_error n l1 = Val n1 ->
  dated_steps boxed_state as_ref_error n (l1 ++ l2) =
  dated_steps boxed_state as_ref_error n l1 && dated_steps boxed_state as_ref_error n1 l2.
Proof.
  unfold node_run. revert n. induction l1 as [|s l1 IH]; intros n; cbn [foldl app dated_steps]; [by intros [= ->]|].
  cbn [mbind rust_bind]. intros E. rewrite <- andb_assoc. f_equal.
  destruct (node_handle boxed_state as_ref_error n s) as [n2| | |]; [by apply IH|exfalso..];
    clear -E; induction l1 as [|? ? IH]; cbn in E; (done || by apply IH).
Qed.
Lemma mine_default (a : api) clock : anvil_mine a clock None None = mine_one a (clock 0%nat).
Proof. by change (anvil_mine a clock None None) with (mine_many a clock 0 1); cbn [mine_many]; destruct (mine_one a (clock 0%nat)). Qed.

(** Requests, one after the other. *)
Definition requests (rs : list (EthRequest * (nat -> Z))) : list node_step := (fun rc => Request rc.1 rc.2) <$> rs.
Definition planned (b : backend) (rs : list (EthRequest * (nat -> Z))) : Plan :=
  foldl (plan_step (backend_is_eip1559 b)) (plan_of b) rs.*1.

Lemma fixed_eip1559 (b b' : backend) : fixed b' = fixed b -> backend_is_eip1559 b' = backend_is_eip1559 b.
Proof. unfold backend_is_eip1559. by intros [= _ -> _]. Qed.

Section settings.
Context (given : list PoolTransaction) (start top n_events gas_limit : Z).
Context (Htop : top + n_events <= u64_max) (Hmax : n_events <= u64_max) (Hgas : gas_limit * n_events <= u64_max).
Abbreviation inv i a m q := (NodeApiSpec.inv ok given start top n_events gas_limit i a m q).

Lemma settings_run rs : forall i (a : api) m q, inv i a m q -> 0 <= i ->
  Forall (fun rc => request_ok gas_limit rc.1 /\ mines rc.1 = false) rs -> i + zlen rs <= n_events ->
  exists a', node_run boxed_state as_ref_error (mkNode a m q) (requests rs) = Val (mkNode a' m q) /\
    inv (i + zlen rs) a' m q /\ plan_of (api_backend a') = planned (api_backend a) rs /\
    fixed (api_backend a') = fixed (api_backend a).
Proof.
  unfold zlen, node_run. induction rs as [|[r clock] rs IH]; intros i a m q Hn H0 Hrs Hi; cbn [foldl requests fmap list_fmap length] in *.
  { exists a. split; [done|]. split; [by rewrite Z.add_0_r|done]. }
  apply Forall_cons in Hrs as [[Hr Hm] Hrs]. cbn [fst snd] in *.
  assert (Hc : cost r = 1) by (destruct r; done). assert (Hd : dated_request a clock r = true) by (destruct r; done).
  destruct (control_spec_ok boxed_state as_ref_error ok given start top n_events gas_limit Htop Hmax Hgas i a m q r clock Hn H0 Hr Hd)
    as (resp & a1 & E & H1); [lia|].
  destruct (setting_plan gas_limit a r clock resp a1 Hr Hm E) as [Hp Hf].
  rewrite Hc in H1. cbn [mbind rust_bind node_handle nd_api nd_block_mining nd_queued]. rewrite E. cbn [mbind rust_bind].
  destruct (IH (i + 1) a1 m q H1) as (a2 & E2 & H2 & Hp2 & Hf2); [lia|done|lia|]. exists a2.
  split; [exact E2|]. split; [by replace (i + Z.of_nat (S (length rs))) with (i + 1 + Z.of_nat (length rs)) by lia|].
  split; [|by rewrite Hf2]. rewrite Hp2. unfold planned. cbn [fmap list_fmap foldl fst].
  by rewrite Hp, (fixed_eip1559 _ _ Hf).
Qed.
Lemma mine_one_obeys i (a : api) m q now : inv i a m q -> i + 1 <= n_events -> dated_block (api_backend a) now = true ->
  FeeManager.spec_id (b_fees (api_backend a)) = cfg_spec_id (env_cfg (b_env (api_backend a))) ->
  exists a' block, mine_one a now = Val a' /\ get_block (api_backend a') (IdNumber Latest) = Some block /\
    obeys (api_backend a) (plan_of (api_backend a)) (bl_header block) /\
    hd_number (bl_header block) = st_best_number (b_storage (api_backend a)) + 1 /\
    hd_parent_hash (bl_header block) = st_best_hash (b_storage (api_backend a)).
Proof.
  intros Hn Hi Hd Hs. destruct (mine_one_inv ok given start top n_events gas_limit Htop Hmax Hgas i a m q now Hn Hd Hi)
    as (a' & ts & out & E & _ & [Hts Hlen] & Em).
  pose proof (inv_backend _ _ _ _ _ _ _ _ _ _ Hn) as Hb. pose proof (inv_gas _ _ _ _ _ _ _ _ _ _ Hn) as Hg.
  pose proof (bo_gas_limit _ _ Hb) as H2. pose proof (ni_number _ _ _ _ _ _ _ _ Hn) as Hnum. cbn in Hnum.
  destruct (mined_obeys (api_backend a) now ts out (api_backend a') Hb) as (block & H); [lia|done|unfold zlen in *; nia|done|done|done|].
  by exists a', block.
Qed.
End settings.

(** C34: the next block is the one that was set up: after any requests that
    set the node up (those of the session that mine nothing), with settings
    in their bounds, the block mined on request has the gas limit, the
    coinbase, the base fee and the timestamp that the settings say one after
    the other, the last one of each kind winning and the ones that are
    refused or meant for other things changing nothing, and it follows the
    last block; without a timestamp of its own it is later than the last one.
    The EVM returns on what was submitted, and the timestamps of the blocks
    are in the calendar: a later one is accepted and then kills the node. *)
Theorem next_block_as_planned (a : api) listeners steps n rs clock start gas_limit :
  session_ok ok a listeners steps start gas_limit (total_cost steps + zlen rs + 1) ->
  dated_steps boxed_state as_ref_error (mkNode a None []) steps = true ->
  node_run boxed_state as_ref_error (mkNode a None []) steps = Val n ->
  Forall (fun rc => request_ok gas_limit rc.1 /\ mines rc.1 = false) rs ->
  let b := api_backend (nd_api n) in
  FeeManager.spec_id (b_fees b) = cfg_spec_id (env_cfg (b_env b)) ->
  dated_steps boxed_state as_ref_error n (requests (rs ++ [(Mine None None, clock)])) = true ->
  exists n' block, node_run boxed_state as_ref_error n (requests (rs ++ [(Mine None None, clock)])) = Val n' /\
    get_block (api_backend (nd_api n')) (IdNumber Latest) = Some block /\
    obeys b (planned b rs) (bl_header block) /\
    hd_number (bl_header block) = st_best_number (b_storage b) + 1 /\
    hd_parent_hash (bl_header block) = st_best_hash (b_storage b).
Proof.
  intros Hs Hd E Hrs b Hspec Hdate. pose proof (zlen_nonneg rs) as Hz. pose proof (total_cost_nonneg steps) as Hc0.
  destruct (session_runs boxed_state as_ref_error ok a listeners steps start gas_limit _ Hs Hd) as (n1 & E1 & Htop & Hmax & Hn); [lia|].
  rewrite E in E1. injection E1 as <-. destruct n as [an m q]. cbn [nd_api nd_block_mining nd_queued] in *.
  pose proof (so_gas _ _ _ _ _ _ _ Hs) as Hgas.
  destruct (settings_run _ start _ _ gas_limit Htop Hmax Hgas rs _ an m q Hn) as (a1 & Er & H1 & Hp & Hf); [lia|done|lia|].
  assert (Hd1 : dated_block (api_backend a1) (clock 0%nat) = true).
  { unfold requests in Hdate, Er. rewrite fmap_app in Hdate. rewrite (dated_app _ _ _ _ Er) in Hdate.
    apply andb_true_iff in Hdate as [_ Hdate]. cbn in Hdate. by repeat apply andb_true_iff in Hdate as [Hdate _]. }
  assert (Hs1 : FeeManager.spec_id (b_fees (api_backend a1)) = cfg_spec_id (env_cfg (b_env (api_backend a1)))).
  { injection Hf as _ -> ->. exact Hspec. }
  destruct (mine_one_obeys _ start _ _ gas_limit Htop Hmax Hgas _ a1 m q (clock 0%nat) H1) as (a2 & block & Em & Hbl & Ho & Hnum & Hpar); [lia|done|done|].
  exists (mkNode a2 m q), block.
  assert (Est : b_storage (api_backend a1) = b_storage b) by (by injection Hf as ->).
  rewrite Hp in Ho. rewrite Est in Hnum, Hpar. split; [|split; [done|]; split; [|done]].
  - unfold requests, node_run in *. rewrite fmap_app, foldl_app, Er. cbn [foldl fmap list_fmap mbind rust_bind node_handle nd_api execute fst snd].
    rewrite mine_default, Em. done.
  - destruct Ho as (H2 & H3 & H4 & H5). split; [done|]. split; [done|]. split; [|done].
    by rewrite H4, (fixed_eip1559 _ _ Hf).
Qed.
End plan.

(** ** The database of the node *)
Section memdb.
Context {HC : Crypto} {HCS : CryptoSpec} {HT : Tries}.

(** Its cache is well-formed, whatever its snapshots. *)
Definition memdb_fit (m : MemDb) : Prop := cache_ok (fun _ => True) (inner m).

Lemma memdb_fit_ok m : memdb_fit m -> memdb_ok (snapshots m) m.
Proof. by split. Qed.
#[export] Instance memdb_fit_commit : CommitSpec memdb_fit.
Proof.
  split; [split|]; intros m; [intros a|intros h|intros a k|intros n|intros s]; intros H%memdb_fit_ok.
  - destruct (db_basic_ok m a H) as [[H1 _] H2]. by split.
  - destruct (db_code_ok m h H) as [[H1 _] H2]. by split.
  - destruct (db_storage_ok m a k H) as [[H1 _] H2]. by split.
  - destruct (db_block_hash_ok m n H) as [[H1 _] H2]. by split.
  - intros Hs. by destruct (db_commit_ok m s H Hs).
Qed.
#[export] Instance memdb_fit_ref : DatabaseRefSpec memdb_fit.
Proof.
  split; intros m *; intros H%memdb_fit_ok; [by apply (ref_basic_ok m)|by apply (ref_code_ok m)|by apply (ref_storage_ok m)|by apply (ref_block_hash_ok m)].
Qed.
#[export] Instance memdb_fit_db : DbSpec memdb_fit.
Proof. split. intros m n h H%memdb_fit_ok _ Hh. by destruct (memdb_block_hash_ok _ m n h H Hh). Qed.
#[export] Instance memdb_control : ControlSpec memdb_fit.
Proof.
  split.
  - intros m a i H%memdb_fit_ok Hi. by destruct (memdb_insert_ok _ m a i H Hi).
  - intros m a k v H Hv. cbn [set_storage_at MemDb_Db on_inner snd]. unfold memdb_fit, insert_account_storage, load_account.
    cbn [inner]. destruct (cd_accounts (inner m) !! a) as [x|] eqn:Ex.
    + destruct (co_accounts _ _ H a x Ex) as [Hi Hs]. apply set_account_ok; [done|]. split; [done|].
      by apply map_Forall_insert_2.
    + destruct (ref_basic (cd_db (inner m)) a) as [o|[]] eqn:Eb.
      assert (Ho : account_ok (DbAccount_from o)).
      { apply DbAccount_from_ok. intros i ->. by eapply (ref_basic_ok (ok := fun _ => True)). }
      destruct Ho as [Hi Hs]. apply set_account_ok; [by apply set_account_ok|]. split; [done|].
      by apply map_Forall_insert_2.
  - intros m H. exact H.
  - intros a m _. destruct ((db_basic m a).1) as [o|[]]. by exists o.
Qed.

(** ** What is written is read *)
Context {HEV : Evm (CacheDB MemDb)} {HEM : Evm MemDb} {HFI : FileSystem}.
Context {HBL : Blooms} {HBH : BlockHashing} {HTC : Chrono} {HCH : pool.Channel}.
Context {HRL : Rlp} {HBR : BloomRlp} {HSG : Signatures} {HER : forall D (R : DatabaseRef D), EvmRef D} {HF : LogFilters}.
Context (boxed_state : MemDb -> DynDatabase (ref_error (DB := MemDb))) (as_ref_error : db_error (DB := MemDb) -> ref_error (DB := MemDb)).
Abbreviation api := (EthApi (DB := MemDb) (StateDb := MemDb)).
Abbreviation backend := (Backend (DB := MemDb) (StateDb := MemDb)).
Abbreviation exec := (execute boxed_state as_ref_error).

(** The height is that of the chain, in 64 bits. *)
Definition at_height (b : backend) : Prop := 0 <= block_number (env_block (b_env b)) <= u64_max.

(** A query without a block is about the database itself. *)
Lemma latest_query {T : Type} (f : DynDatabase (ref_error (DB := MemDb)) -> BlockEnv -> admin.Statics -> rust (T * admin.Statics))
  (b : backend) now v : at_height b ->
  (forall st, f (boxed (b_db b)) (env_block (b_env b)) st = Val (v, st)) ->
  with_database_at boxed_state f b now (Some (RequestNumber (best_number b))) =
    Val (inl v, set_states b (b_states b) (b_statics b)).
Proof.
  intros Hh Hf. unfold with_database_at, convert_block_number, with_database_at_number, best_number. cbn [default].
  unfold at_height in Hh. rewrite Z.min_l by lia. rewrite Z.ltb_irrefl, Hf. done.
Qed.
Lemma latest_request (a : api) ts : ready_list a = Val ts ->
  requested_block a None = Val (inl (RequestNumber (best_number (api_backend a)))).
Proof.
  intros E. unfold requested_block. rewrite E. cbn [mbind rust_bind block_request]. unfold ensure_block_number. cbn [default].
  cbn [mbind rust_bind]. by rewrite Z.ltb_irrefl.
Qed.

Lemma ref_basic_known m addr : ref_basic m addr = inl (known m addr).
Proof. cbn. unfold known. destruct (cd_accounts (inner m) !! addr); [done|]. by destruct (cd_db (inner m)). Qed.

(** A setter, then a query that reads what it wrote. *)
Lemma set_then_ask {T : Type} (a : api) ts db resp f v now : ready_list a = Val ts -> at_height (api_backend a) ->
  db.1 = inl tt ->
  (forall st, f (boxed db.2) (env_block (b_env (api_backend a))) st = Val (inl v, st)) ->
  exists a1 a2, setter as_ref_error a (on_db (api_backend a) db) resp = Val (inl resp, a1) /\
    at_block a1 None (fun request => r ← with_database_at boxed_state f (api_backend a1) now request; Val (flatten r)) =
      Val (@inl T _ v, a2).
Proof.
  intros Er Hh Hdb Hf. destruct db as [r db]. cbn [fst snd] in *. subst r.
  set (b1 := with_db (api_backend a) db). exists (set_api_backend a b1).
  exists (set_api_backend a (set_states b1 (b_states b1) (b_statics b1))). split; [done|].
  unfold at_block. rewrite (latest_request _ ts) by exact Er. cbn [mbind rust_bind].
  change (api_backend (set_api_backend a b1)) with b1. rewrite (latest_query f b1 now (inl v)) by done. done.
Qed.

Lemma account_written f (m : MemDb) addr : known m addr <> None ->
  exists i, (change_account f m addr).1 = inl tt /\
    ref_basic (boxed (change_account f m addr).2) addr = inl (Some (committed_info (f i))).
Proof.
  intros Hk. destruct (change_account_known f m addr) as (H1 & H2 & _).
  exists (default AccountInfo_default (known m addr)). split; [exact H1|].
  change (ref_basic (boxed ?m) addr) with (ref_basic m addr). rewrite ref_basic_known, H2.
  by rewrite bool_decide_eq_false_2.
Qed.

Lemma slot_written (m : MemDb) addr slot v : ref_storage (boxed (set_storage_at m addr slot v).2) addr slot = inl v.
Proof.
  cbn. unfold insert_account_storage, load_account.
  destruct (cd_accounts (inner m) !! addr) as [x|] eqn:Ex; cbn; [by rewrite lookup_insert_eq; cbn; rewrite lookup_insert_eq|].
  destruct (cd_db (inner m)). cbn. by rewrite lookup_insert_eq; cbn; rewrite lookup_insert_eq.
Qed.
(** The bytes of the code that was set, unless its hash says that there is none. *)
Lemma written_code (db : DynDatabase (ref_error (DB := MemDb))) addr (c : list Z) (i : AccountInfo) :
  c = [] \/ keccak256 c <> 0 /\ keccak256 c <> KECCAK_EMPTY ->
  ref_basic db addr = inl (Some (committed_info (mkAccountInfo (balance i) (nonce i)
    (if zlen c =? 0 then KECCAK_EMPTY else keccak256 c) (Some (Bytecode_to_checked (Bytecode_new_raw c)))))) ->
  get_code_with_state db addr = Val (inl c).
Proof.
  intros Hc E. unfold get_code_with_state. rewrite E.
  destruct (checked_bytes (Bytecode_new_raw c) I) as [Hs _]. destruct c as [|x c]; [by vm_compute|].
  destruct Hc as [|[H0 H1]]; [done|].
  assert (Hz : (zlen (x :: c) =? 0) = false) by (apply Z.eqb_neq; unfold zlen; simpl; lia).
  rewrite Hz. set (info := committed_info _). assert (Eh : code_hash info = keccak256 (x :: c)).
  { unfold info, committed_info. cbn [code_hash Primitives.code]. unfold Bytecode_is_empty, Bytecode_to_checked, Bytecode_new_raw.
    cbn [bc_state bc_hash bc_bytecode]. rewrite Hz. by rewrite (proj2 (Z.eqb_neq _ _)). }
  change (default AccountInfo_default (Some info)) with info. rewrite Eh, (proj2 (Z.eqb_neq _ _)) by done. unfold info. cbn [committed_info Primitives.code]. by rewrite Hs.
Qed.

(** C35: what a setter writes to an account is what the next query answers:
    balance, nonce, code and any slot of the storage.  The account must not
    be one that was destroyed and left as missing; the nonce is cut to 64
    bits; code whose hash collides with that of empty code is taken for it. *)
Theorem written_is_read (a : api) ts (addr v : Z) clock clock' :
  ready_list a = Val ts -> at_height (api_backend a) -> known (b_db (api_backend a)) addr <> None ->
  (exists a1 a2, exec a clock (SetBalance addr v) = Val (inl RNull, a1) /\
    exec a1 clock' (EthGetBalance addr None) = Val (inl (RNumber v), a2)) /\
  (exists a1 a2, exec a clock (SetNonce addr v) = Val (inl RNull, a1) /\
    exec a1 clock' (EthGetTransactionCount addr None) = Val (inl (RNumber (Z.min v u64_max)), a2)) /\
  (forall c, c = [] \/ keccak256 c <> 0 /\ keccak256 c <> KECCAK_EMPTY ->
    exists a1 a2, exec a clock (SetCode addr c) = Val (inl RNull, a1) /\
    exec a1 clock' (EthGetCodeAt addr None) = Val (inl (RBytes c), a2)) /\
  (forall slot, exists a1 a2, exec a clock (SetStorageAt addr slot v) = Val (inl (RBool true), a1) /\
    exec a1 clock' (EthGetStorageAt addr slot None) = Val (inl (RNumber v), a2)).
Proof.
  intros Er Hh Hk. split; [|split; [|split]].
  - destruct (account_written (fun info => mkAccountInfo v (nonce info) (code_hash info) (Primitives.code info)) _ addr Hk)
      as (i & H1 & H2).
    destruct (set_then_ask a ts (NodeDb.set_balance (b_db (api_backend a)) addr v) RNull (balance_on addr) v (clock' 0%nat)
      Er Hh H1) as (a1 & a2 & E1 & E2).
    + intros st. unfold balance_on, get_balance_with_state. unfold NodeDb.set_balance. by rewrite H2.
    + exists a1, a2. split; [exact E1|]. cbn [execute]. unfold balance_at, get_balance. rewrite E2. done.
  - destruct (account_written (fun info => mkAccountInfo (balance info) (Z.min v u64_max) (code_hash info) (Primitives.code info))
      _ addr Hk) as (i & H1 & H2).
    destruct (set_then_ask a ts (set_nonce (b_db (api_backend a)) addr (Z.min v u64_max)) RNull (nonce_on addr)
      (Z.min v u64_max) (clock' 0%nat) Er Hh H1) as (a1 & a2 & E1 & E2).
    + intros st. unfold nonce_on. unfold set_nonce. by rewrite H2.
    + exists a1, a2. split; [exact E1|]. cbn [execute]. unfold transaction_count, get_nonce.
      unfold at_block in *. destruct (requested_block a1 None) as [[[txs|n]|e]| | |] eqn:Eq; cbn [mbind rust_bind] in *;
        try done; [|by rewrite E2].
      exfalso. revert Eq. unfold requested_block. destruct (ready_list a1); [|done..]. cbn [mbind rust_bind block_request].
      by destruct (ensure_block_number (api_backend a1) None) as [[]| | |].
  - intros c Hc.
    destruct (account_written (fun info => mkAccountInfo (balance info) (nonce info)
      (if zlen c =? 0 then KECCAK_EMPTY else keccak256 c) (Some (Bytecode_to_checked (Bytecode_new_raw c)))) _ addr Hk)
      as (i & H1 & H2).
    destruct (set_then_ask a ts (set_code (b_db (api_backend a)) addr c) RNull (code_on addr) c (clock' 0%nat)
      Er Hh H1) as (a1 & a2 & E1 & E2).
    + intros st. unfold code_on, set_code. by rewrite (written_code _ _ c i Hc H2).
    + exists a1, a2. split; [exact E1|]. cbn [execute]. unfold code_at, get_code. rewrite E2. done.
  - intros slot.
    destruct (set_then_ask a ts (set_storage_at (b_db (api_backend a)) addr slot v) (RBool true) (backend_storage_on slot addr) v
      (clock' 0%nat) Er Hh) as (a1 & a2 & E1 & E2).
    + cbn. unfold insert_account_storage, load_account. destruct (cd_accounts _ !! addr); [done|]. by destruct (cd_db _).
    + intros st. unfold backend_storage_on. by rewrite slot_written.
    + exists a1, a2. split; [exact E1|]. cbn [execute]. unfold storage_at, get_storage_at. rewrite E2. done.
Qed.
End memdb.

(** ** Examples *)
Section examples.
#[local] Existing Instances no_tries zero_hashes zero_hashes_spec point_bn point_bn_spec willing_os example_evm example_chrono example_chrono_spec example_blooms example_hashing example_hashing_spec map_disk log_channel yellow_rlp.
#[local] Existing Instance bare_evm_ref.
#[local] Instance control_evm : Evm (CacheDB MemDb) := node_evm.
#[local] Instance control_bloom_rlp : BloomRlp := { encode_bloom b := encode_uint b; decode_bloom x := decode_uint 256 x }.
#[local] Instance control_signatures : Signatures := { recovery_id _ := Some 0; signature_recover _ _ := Some 100 }.
(** Filters that let everything through. *)
#[local] Instance no_filters : LogFilters := {
  Filter := unit;
  filter_has_address _ := false;
  filter_has_topics _ := false;
  filter_get_block_hash _ := None;
  filter_get_from_block _ := None;
  filter_get_to_block _ := None;
  params_filter_address _ _ := true;
  params_filter_topics _ _ := true;
  params_filter_block_range _ _ := true;
  params_filter_block_hash _ _ := true;
}.
#[local] Instance control_evm_spec : EvmSpec (HEV := example_evm) memdb_fit.
Proof. apply (node_evm_spec memdb_fit). Qed.

Lemma fit_backend S (b : Backend (DB := MemDb) (StateDb := MemDb)) : backend_ok (memdb_ok S) b -> backend_ok memdb_fit b.
Proof. intros [[Hd _]]. split; try done. right. intros m _. destruct ((db_basic m _).1) as [o|[]]. by exists o. Qed.

Definition controlled_api : EthApi (DB := MemDb) (StateDb := MemDb) :=
  mkEthApi example_backend (empty_pool []) [] CheatsState_default Fees NoMining.
Definition boxed_memdb (m : MemDb) : DynDatabase (@ref_error MemDb MemDb_DatabaseRef) := boxed m.
Definition same_error (e : @db_error MemDb MemDb_Database) : @ref_error MemDb MemDb_DatabaseRef := e.
Definition at_time (t : Z) (_ : nat) : Z := t.

(** Transactions come in while the node is set up and mines on request. *)
Definition control_steps : list node_step :=
  [Request (SetAutomine true) (at_time 2000); Service (Submit tx_second); Request (SetBalance 100 (10 ^ 19)) (at_time 2000);
   Service (Submit tx_first); Service (PollMiner true); Request EvmSnapshot (at_time 2001);
   Request (Mine (Some 2) None) (at_time 2002); Service StartBlock; Request (EvmIncreaseTime 60) (at_time 2002);
   Service (FinishBlock 2003)].
Lemma control_session budget : 0 <= budget <= 2 ^ 40 -> session_ok memdb_fit controlled_api [] control_steps 0 200000 budget.
Proof.
  intros Hb. destruct example_submissions as (H1 & H3). destruct (example_minable memdb_fit) as [Hm1 Hm2].
  split; [done|exact (fit_backend _ _ example_backend_ok)|apply new_chain|by vm_compute|exact H1| |exact H3| | |].
  - exact (Forall_cons_2 _ _ _ Hm2 (Forall_cons_2 _ _ _ Hm1 (Forall_nil_2 _))).
  - unfold control_steps. rewrite !Forall_cons. cbn [step_ok request_ok].
    assert (Hv : is_u256 (10 ^ 19)) by (by vm_compute). assert (H60 : 0 <= 60) by lia.
    split_and!; try exact I; [exact Hv|intros n [= <-]; by vm_compute|intros n [=]|exact H60|constructor].
  - assert (200000 * 2 ^ 40 <= u64_max) by (by vm_compute). lia.
  - cbn. assert (2 ^ 40 <= u64_max) by (by vm_compute). lia.
Qed.

Lemma control_dated : dated_steps boxed_memdb same_error (mkNode controlled_api None []) control_steps = true.
Proof. vm_compute. reflexivity. Qed.


(** Two blocks are mined on request, with both transactions in the first, and
    one by the service, which took its transactions before. *)
Lemma control_mines :
  (n ← node_run boxed_memdb same_error (mkNode controlled_api None []) control_steps;
   let s := b_storage (api_backend (nd_api n)) in
   let number_of k := (fun block => pt_hash <$> bl_transactions block) <$> (h ← st_hashes s !! k; st_blocks s !! h) in
   Val (st_best_number s, number_of 1, number_of 2, number_of 3)) =
  Val (3, Some [900; 901], Some [], Some []).
Proof. vm_compute. reflexivity. Qed.

(** A block set up while the node runs; the second timestamp is refused. *)
Definition settings : list (EthRequest * (nat -> Z)) :=
  [(EvmSetBlockGasLimit 90000, at_time 2004); (SetNextBlockBaseFeePerGas 7, at_time 2004);
   (EvmSetNextBlockTimeStamp 5000, at_time 2004); (EvmSetNextBlockTimeStamp 1, at_time 2004);
   (SetCoinbase 77, at_time 2004); (EvmSetBlockGasLimit 150000, at_time 2004)].
Lemma control_state :
  (n ← node_run boxed_memdb same_error (mkNode controlled_api None []) control_steps;
   let b := api_backend (nd_api n) in
   Val (FeeManager.spec_id (b_fees b), cfg_spec_id (env_cfg (b_env b)), TimeManager.last_timestamp (b_time b),
     dated_steps boxed_memdb same_error n (requests (settings ++ [(Mine None None, at_time 2005)])))) =
  Val (LATEST, LATEST, 1063, true).
Proof. vm_compute. reflexivity. Qed.
Lemma settings_plan london p : 1 <= pl_last_timestamp p < 5000 ->
  foldl (plan_step london) p settings.*1 =
    mkPlan 150000 77 (if london then 7 else pl_base_fee p) (Some 5000) (pl_last_timestamp p).
Proof.
  destruct p as [g c f t l]. intros Hl. cbn [pl_last_timestamp pl_base_fee] in *.
  assert (Hu : 5000 <= u64_max) by (by vm_compute). unfold settings. cbn [fmap list_fmap foldl fst plan_step].
  destruct london; cbn [plan_step]; rewrite (bool_decide_eq_true_2 (l < 5000 <= _)) by lia; cbn [plan_step];
    rewrite (bool_decide_eq_false_2 (l < 1 <= _)) by lia; reflexivity.
Qed.
Lemma next_block_as_planned_witness : exists n n' block,
  node_run boxed_memdb same_error (mkNode controlled_api None []) control_steps = Val n /\
  node_run boxed_memdb same_error n (requests (settings ++ [(Mine None None, at_time 2005)])) = Val n' /\
  get_block (api_backend (nd_api n')) (IdNumber Latest) = Some block /\
  hd_gas_limit (bl_header block) = 150000 /\ hd_beneficiary (bl_header block) = 77 /\
  hd_timestamp (bl_header block) = 5000.
Proof.
  destruct (session_runs boxed_memdb same_error memdb_fit controlled_api [] control_steps 0 200000 (2 ^ 40))
    as (n & E & _); [apply control_session; by vm_compute|exact control_dated|by vm_compute|].
  pose proof control_state as Hn. rewrite E in Hn. injection Hn as Hs1 Hs2 Hlast1 Hdate.
  assert (Hs : FeeManager.spec_id (b_fees (api_backend (nd_api n))) = cfg_spec_id (env_cfg (b_env (api_backend (nd_api n)))))
    by congruence.
  assert (Hlast : 1 <= TimeManager.last_timestamp (b_time (api_backend (nd_api n))) < 5000) by (rewrite Hlast1; lia).
  destruct (next_block_as_planned boxed_memdb same_error memdb_fit controlled_api [] control_steps n settings (at_time 2005) 0 200000)
    as (n' & block & E2 & Hbl & (H1 & H2 & _ & H3 & _) & _).
  - apply control_session. split; apply Z.leb_le; vm_compute; reflexivity.
  - exact control_dated.
  - exact E.
  - unfold settings. rewrite !Forall_cons. cbn [fst request_ok mines]. split_and!; try reflexivity; try rlia; constructor.
  - exact Hs.
  - exact Hdate.
  - exists n, n', block. unfold planned in *. rewrite settings_plan in H1, H2, H3 by exact Hlast.
    split; [exact E|]. split; [exact E2|]. split; [exact Hbl|]. split; [exact H1|]. split; [exact H2|].
    apply H3; [reflexivity|apply Hlast].
Defined.

Lemma written_is_read_witness :
  (exists a1 a2, execute boxed_memdb same_error controlled_api (at_time 2000) (SetNonce 100 5) = Val (inl RNull, a1) /\
    execute boxed_memdb same_error a1 (at_time 2001) (EthGetTransactionCount 100 None) = Val (inl (RNumber 5), a2)) /\
  exists a1 a2, execute boxed_memdb same_error controlled_api (at_time 2000) (SetStorageAt 100 3 5) = Val (inl (RBool true), a1) /\
    execute boxed_memdb same_error a1 (at_time 2001) (EthGetStorageAt 100 3 None) = Val (inl (RNumber 5), a2).
Proof.
  destruct (written_is_read boxed_memdb same_error controlled_api [] 100 5 (at_time 2000) (at_time 2001))
    as (_ & H1 & _ & H2); [reflexivity|split; apply Z.leb_le; reflexivity|vm_compute; discriminate|].
  split; [exact H1|exact (H2 3)].
Defined.

(** ** Settings that a node does not survive *)

(** Any base fee of 256 bits is accepted, but the next block takes it for one
    of 64 bits. *)
Theorem huge_base_fee_stops_mining :
  node_run boxed_memdb same_error (mkNode controlled_api None [])
    [Request (SetNextBlockBaseFeePerGas (2 ^ 64)) (at_time 2000); Request (Mine None None) (at_time 2000)] = Panic.
Proof. vm_compute. reflexivity. Qed.

(** Any timestamp of 64 bits is accepted, but the block has no date. *)
Theorem huge_timestamp_stops_mining :
  ('(r, _) ← execute boxed_memdb same_error controlled_api (at_time 2000) (EvmSetNextBlockTimeStamp (2 ^ 63)); Val r) = Val (inl RNull) /\
  node_run boxed_memdb same_error (mkNode controlled_api None [])
    [Request (EvmSetNextBlockTimeStamp (2 ^ 63)) (at_time 2000); Request (Mine None None) (at_time 2000)] = Panic.
Proof. split; vm_compute; reflexivity. Qed.

(** The number of blocks and the interval are numbers of 256 bits that are
    taken for ones of 64 bits; [0] blocks are no excuse for the interval. *)
Theorem huge_numbers_panic :
  execute boxed_memdb same_error controlled_api (at_time 2000) (Mine (Some (2 ^ 64)) None) = Panic /\
  execute boxed_memdb same_error controlled_api (at_time 2000) (Mine (Some 0) (Some (2 ^ 64))) = Panic.
Proof. split; vm_compute; reflexivity. Qed.

(** A jump of 999 seconds is answered with 0. *)
Theorem set_time_answers_milliseconds :
  (let a := controlled_api in
   let before := TimeManager.current_call_timestamp (b_time (api_backend a)) 2000 in
   '(r, _) ← execute boxed_memdb same_error a (at_time 2000) (EvmSetTime (before + 999)); Val r) = Val (inl (RNumber 0)).
Proof. vm_compute. reflexivity. Qed.

(** A transaction whose nonce is not next is counted as queued, and shown
    among the pending ones. *)
Theorem queued_shown_as_pending :
  (n ← node_run boxed_memdb same_error (mkNode controlled_api None []) [Service (Submit tx_second)];
   '(status, _) ← execute boxed_memdb same_error (nd_api n) (at_time 2000) TxPoolStatus;
   inspect ← txpool_inspect (nd_api n);
   Val (status, size (tp_pending inspect), size (tp_queued inspect))) =
  Val (inl (RStatus 0 1), 1%nat, 0%nat).
Proof. vm_compute. reflexivity. Qed.
End examples.
