(* ===== verification/NodeConfigSpec.v ===== *)
(** * Properties of starting a node: [NodeConfig]

    From any configuration within its bounds the node starts with the state
    the configuration says, and then keeps running.  Examples show where the
    settings of a genesis file and of the command line disagree, and the
    table of hard forks with itself. *)

From stdpp Require Import base option list gmap sets strings sorting pretty.
From Stdlib Require Import ZArith Lia.
From coqutil Require Import Datatypes.RecordSetters.
From S2P Require Import Prelude Primitives Analysis Safety Execution Precompile PrecompileSpec Journal JournalRevert EvmImpl CacheDB EvmSafety TransactSpec CacheDBSpec EvmTable ChainSpec NodeDb BlockStates BlockStatesSpec NodeDbSpec EthTransaction EthRequest Fees FeesSpec TxPool Miner Codec Calls Api Queries NodeApi NodeConfig TxReady TxPoolSpec NodePool MinerSpec CallsSpec RlpCrate CodecSpec NodeSpec NodeApiSpec.

Import DoubleBraceUpdate.

Section start.
Context {HCR : Crypto} {HCY : CryptoSpec} {HT : Tries} {HFI : FileSystem} {HBL : Blooms} {HBH : BlockHashing} {HTC : Chrono} {HCH : pool.Channel}.
Context {HW : Wallets (BlockchainError (ref_error (DB := MemDb)))}.
Abbreviation config := (NodeConfig (err := BlockchainError (ref_error (DB := MemDb)))).
Abbreviation genesis_account := (GenesisAccount (err := BlockchainError (ref_error (DB := MemDb)))).
Abbreviation genesis_json := (Genesis (err := BlockchainError (ref_error (DB := MemDb)))).
Abbreviation backend := (Backend (DB := MemDb) (StateDb := MemDb)).

(** ** Configurations within their bounds *)

Record account_fits (acc : genesis_account) : Prop := mkAccountFits {
  af_code c : ga_code acc = Some c -> Forall is_u8 c /\ zlen c <= mem_max;
  af_storage : map_Forall (fun _ => is_u256) (ga_storage acc);
  af_balance : is_u256 (ga_balance acc);
  af_nonce n : ga_nonce acc = Some n -> is_u64 n;
}.
(** The types of the fields, a base fee of 64 bits, room for a block, and
    the number of the genesis block is 0. *)
Record genesis_ok (g : genesis_json) : Prop := mkGenesisOk {
  go_chain_id i : Genesis_chain_id g = Some i -> is_u64 i;
  go_timestamp t : gn_timestamp g = Some t -> is_u64 t;
  go_base_fee f : gn_base_fee_per_gas g = Some f -> is_u64 f;
  go_number n : gn_number g = Some n -> n = 0;
  go_coinbase a : gn_coinbase g = Some a -> is_b160 a;
  go_difficulty : is_u64 (gn_difficulty g);
  go_gas_limit : 2 <= gn_gas_limit g <= u64_max;
  go_alloc : map_Forall (fun _ => account_fits) (gn_alloc g);
}.
Record config_ok (c : config) : Prop := mkConfigOk {
  cf_chain_id i : nc_chain_id c = Some i -> is_u64 i;
  cf_gas_limit : 2 <= nc_gas_limit c <= u64_max;
  cf_base_fee f : nc_base_fee c = Some f -> is_u64 f;
  cf_genesis_balance : is_u256 (nc_genesis_balance c);
  cf_genesis_timestamp t : nc_genesis_timestamp c = Some t -> is_u64 t;
  cf_block_time d : nc_block_time c = Some d -> d <> 0;
  cf_code_size_limit l : nc_code_size_limit c = Some l -> is_u64 l;
  cf_prune_history n : max_memory_history (nc_prune_history c) = Some n -> 1 <= n;
  cf_genesis g : nc_genesis c = Some g -> genesis_ok g;
  cf_init_state s : nc_init_state c = Some s -> map_Forall (fun _ => record_ok) s;
}.

(** The gas limit of blocks: that of the genesis file counts. *)
Definition block_limit (c : config) : Z :=
  match nc_genesis c with Some g => gn_gas_limit g | None => nc_gas_limit c end.

(** ** The database *)

Lemma genesis_info_wf acc : account_fits acc -> info_wf (AccountInfo_of_genesis acc).
Proof.
  intros [Hc _ Hb Hn]. unfold AccountInfo_of_genesis. split_and!; cbn [balance nonce code_hash Primitives.code].
  - done.
  - destruct (ga_nonce acc); [by apply Hn|done].
  - destruct (ga_code acc) as [c|]; [|by vm_compute]. destruct (Hc c eq_refl). by apply new_raw_fit.
  - destruct (ga_code acc) as [c|]; [|done]. intros b [= <-]. destruct (Hc c eq_refl). by apply new_raw_fit.
Qed.
Lemma dev_info_wf (v : Z) : is_u256 v -> info_wf (mkAccountInfo v 0 KECCAK_EMPTY (Some Bytecode_new)).
Proof. intros Hv. split_and!; [done|by vm_compute|by vm_compute|]. intros b [= <-]. apply bytecode_new_wf. Qed.

Lemma slots_never_fail (m : MemDb) a l : (set_slots m a l).1 = inl tt.
Proof.
  revert m. induction l as [|[k v] l IH]; intros m; cbn [set_slots]; [done|].
  destruct (set_storage_at m a k v) as [[[]|[]] m']. apply IH.
Qed.
Lemma load_never_fails (m : MemDb) s : exists b m', load_state m s = (inl b, m').
Proof.
  unfold load_state. generalize (btree_entries s). intros l. revert m.
  induction l as [|[a r] l IH]; intros m; cbn [load_accounts]; [by eexists _, _|].
  pose proof (slots_never_fail (insert_account m a (loaded_account m a r)) a (btree_entries (sr_storage r))) as H.
  destruct (set_slots _ _ _) as [[]]; [apply IH|done].
Qed.

(** The entries of the accounts at genesis. *)
Definition genesis_entry (acc : genesis_account) : DbAccount :=
  mkDbAccount (committed_info (AccountInfo_of_genesis acc)) StateNone (ga_storage acc).
Definition dev_entry (v : Z) : DbAccount :=
  mkDbAccount (committed_info (mkAccountInfo v 0 KECCAK_EMPTY (Some Bytecode_new))) StateNone ∅.
Definition blank (m : MemDb) : Prop :=
  map_Forall (fun _ x => da_account_state x = StateNone /\ da_storage x = ∅) (cd_accounts (inner m)).

Lemma dev_accounts_spec v l (m : MemDb) : blank m ->
  let m' := foldl (fun db '(account, info) => insert_account db account info) m
    ((fun a => (a, mkAccountInfo v 0 KECCAK_EMPTY (Some Bytecode_new))) <$> l) in
  blank m' /\ forall a, cd_accounts (inner m') !! a = if decide (a ∈ l) then Some (dev_entry v) else cd_accounts (inner m) !! a.
Proof.
  revert m. induction l as [|b l IH]; intros m Hm; cbn [fmap list_fmap foldl].
  { split; [done|]. intros a. by rewrite decide_False by apply not_elem_of_nil. }
  set (m1 := insert_account m b _).
  assert (H1 : cd_accounts (inner m1) = <[b := dev_entry v]> (cd_accounts (inner m))).
  { unfold m1. cbn [insert_account MemDb_Db]. rewrite insert_account_info_eq. cbn [inner cd_accounts]. unfold entry_or_default.
    destruct (cd_accounts (inner m) !! b) as [x|] eqn:Ex; simpl; [|done]. destruct (Hm b x Ex) as [-> ->]. done. }
  destruct (IH m1) as [H2 H3]. { unfold blank. rewrite H1. by apply map_Forall_insert_2. }
  split; [done|]. intros a. rewrite H3, H1, lookup_insert.
  destruct (decide (a ∈ l)), (decide (b = a)), (decide (a ∈ b :: l)); set_solver.
Qed.

Lemma apply_alloc_spec l : forall (m : MemDb), NoDup l.*1 ->
  (forall a x, a ∈ l.*1 -> cd_accounts (inner m) !! a = Some x -> da_account_state x = StateNone /\ da_storage x = ∅) ->
  exists m', apply_alloc m l = (inl tt, m') /\
    forall a, cd_accounts (inner m') !! a =
      match list_to_map (M := gmap Z genesis_account) l !! a with
      | Some acc => Some (genesis_entry acc)
      | None => cd_accounts (inner m) !! a
      end.
Proof.
  induction l as [|[b acc] l IH]; intros m Hnd Hm; [by exists m|].
  cbn [fmap list_fmap fst] in *. apply NoDup_cons in Hnd as [Hb Hnd]. cbn [apply_alloc].
  set (m1 := insert_account m b _).
  assert (H1 : cd_accounts (inner m1) =
    <[b := mkDbAccount (committed_info (AccountInfo_of_genesis acc)) StateNone ∅]> (cd_accounts (inner m))).
  { unfold m1. cbn [insert_account MemDb_Db]. rewrite insert_account_info_eq. cbn [inner cd_accounts]. unfold entry_or_default.
    destruct (cd_accounts (inner m) !! b) as [x|] eqn:Ex; simpl; [|done]. destruct (Hm b x) as [-> ->]; [left|done|done]. }
  rewrite (set_slots_eq (map_to_list (ga_storage acc)) m1 b
    (mkDbAccount (committed_info (AccountInfo_of_genesis acc)) StateNone ∅)) by (by rewrite H1, lookup_insert_eq).
  rewrite insert_all by apply NoDup_fst_map_to_list. cbn [da_info da_account_state da_storage].
  rewrite list_to_map_to_list, (right_id_L ∅ (∪)).
  set (m2 := mkMemDb _ _).
  assert (H2 : cd_accounts (inner m2) = <[b := genesis_entry acc]> (cd_accounts (inner m))).
  { unfold m2, set_account, set_accounts. cbn [inner cd_accounts]. by rewrite H1, insert_insert_eq. }
  destruct (IH m2 Hnd) as (m' & E & H3).
  { intros a x Ha. rewrite H2, lookup_insert_ne by congruence. intros Hx. by apply (Hm a x); [right|]. }
  exists m'. split; [exact E|]. intros a. rewrite H3, H2, list_to_map_cons, !lookup_insert.
  case_decide as Ea; [|done]. subst. by rewrite not_elem_of_list_to_map_1.
Qed.

Lemma apply_alloc_ok l : forall (m : MemDb), memdb_fit m -> Forall (fun ka => account_fits ka.2) l ->
  memdb_fit (apply_alloc m l).2.
Proof.
  induction l as [|[a acc] l IH]; intros m Hm Hl; cbn [apply_alloc]; [done|].
  apply Forall_cons in Hl as [Hacc Hl]. cbn [snd] in Hacc.
  pose proof (slots_never_fail (insert_account m a (AccountInfo_of_genesis acc)) a (map_to_list (ga_storage acc))) as Hf.
  assert (H : memdb_fit (set_slots (insert_account m a (AccountInfo_of_genesis acc)) a (map_to_list (ga_storage acc))).2).
  { apply (set_slots_ok memdb_fit); [by apply insert_account_ok; [|apply genesis_info_wf]|].
    apply Forall_forall. intros [k v] Hkv%elem_of_map_to_list. by apply (af_storage acc Hacc k). }
  destruct (set_slots _ _ _) as [[]]; [by apply IH|done].
Qed.
Lemma dev_accounts_ok v l : is_u256 v -> forall (m : MemDb), memdb_fit m ->
  memdb_fit (foldl (fun db '(account, info) => insert_account db account info) m
    ((fun a => (a, mkAccountInfo v 0 KECCAK_EMPTY (Some Bytecode_new))) <$> l)).
Proof.
  intros Hv. induction l as [|a l IH]; intros m Hm; cbn [fmap list_fmap foldl]; [done|].
  apply IH. apply insert_account_ok; [done|by apply dev_info_wf].
Qed.

(** What the configuration says of an account, and of a slot. *)
Definition account_at_genesis (c : config) (a : Z) : AccountInfo :=
  match nc_genesis c ≫= (fun g => gn_alloc g !! a) with
  | Some acc => committed_info (AccountInfo_of_genesis acc)
  | None => if bool_decide (a ∈ genesis_accounts c) then AccountInfo_from_balance (nc_genesis_balance c) else AccountInfo_default
  end.
Definition slot_at_genesis (c : config) (a k : Z) : Z :=
  default 0 (g ← nc_genesis c; acc ← gn_alloc g !! a; ga_storage acc !! k).

Lemma ref_storage_known (m : MemDb) a k :
  ref_storage m a k = inl (default 0 (x ← cd_accounts (inner m) !! a; da_storage x !! k)).
Proof.
  cbn. destruct (cd_accounts (inner m) !! a) as [x|]; cbn; [|by destruct (cd_db _)].
  destruct (da_storage x !! k); [done|]. destruct (cd_db _). by destruct (da_account_state x).
Qed.

Lemma genesis_database (c : config) timestamp : config_ok c ->
  let gc := mkGenesisConfig timestamp (nc_genesis_balance c) (genesis_accounts c) [] (nc_genesis c) in
  exists m, apply_genesis gc MemDb_default = (inl tt, m) /\ memdb_fit m /\
    (forall a, ref_basic m a = inl (Some (account_at_genesis c a))) /\
    forall a k, ref_storage m a k = inl (slot_at_genesis c a k).
Proof.
  intros Hc gc. unfold apply_genesis, account_infos. cbn [gc gc_balance gc_accounts].
  set (m1 := foldl _ _ _).
  destruct (dev_accounts_spec (nc_genesis_balance c) (genesis_accounts c) MemDb_default) as [Hblank H1]; [apply map_Forall_empty|].
  fold m1 in Hblank, H1.
  assert (Hfit : memdb_fit m1) by (apply dev_accounts_ok; [apply Hc|apply MemDb_default_ok]).
  unfold apply_genesis_json_alloc. cbn [gc gc_genesis_init].
  destruct (nc_genesis c) as [g|] eqn:Eg.
  - destruct (btree_entries_map (gn_alloc g)) as [Hnd Hm].
    destruct (apply_alloc_spec (btree_entries (gn_alloc g)) m1 Hnd) as (m & E & H2); [intros a x _; apply Hblank|].
    exists m. split; [exact E|]. split; [|split].
    + pose proof (apply_alloc_ok (btree_entries (gn_alloc g)) m1 Hfit) as H. rewrite E in H. apply H.
      apply btree_entries_Forall. by apply (cf_genesis c Hc).
    + intros a. rewrite ref_basic_known. unfold known, account_at_genesis. rewrite H2, Hm, Eg. cbn [mbind option_bind].
      destruct (gn_alloc g !! a); [done|]. rewrite H1. case_decide; [by rewrite bool_decide_eq_true_2|by rewrite bool_decide_eq_false_2].
    + intros a k. rewrite ref_storage_known, H2, Hm. unfold slot_at_genesis. rewrite Eg. cbn [mbind option_bind].
      destruct (gn_alloc g !! a) as [acc|]; [done|]. rewrite H1. by case_decide.
  - exists m1. split; [done|]. split; [done|]. split.
    + intros a. rewrite ref_basic_known. unfold known, account_at_genesis. rewrite H1, Eg. cbn [mbind option_bind].
      case_decide; [by rewrite bool_decide_eq_true_2|by rewrite bool_decide_eq_false_2].
    + intros a k. rewrite ref_storage_known. unfold slot_at_genesis. rewrite Eg. cbn [mbind option_bind]. rewrite H1. by case_decide.
Qed.

(** ** The node *)

Lemma CHAIN_ID_ok : is_u64 CHAIN_ID.
Proof. by vm_compute. Qed.
Lemma INITIAL_BASE_FEE_ok : is_u64 INITIAL_BASE_FEE.
Proof. by vm_compute. Qed.
Lemma get_chain_id_ok c : config_ok c -> is_u64 (get_chain_id c).
Proof.
  intros Hc. unfold get_chain_id. destruct (nc_chain_id c) as [i|] eqn:E; [by apply (cf_chain_id c Hc)|].
  destruct (nc_genesis c) as [g|] eqn:Eg; cbn [mbind option_bind default]; [|apply CHAIN_ID_ok]. destruct (Genesis_chain_id g) as [i|] eqn:Ei; [|apply CHAIN_ID_ok].
  by apply (go_chain_id g (cf_genesis c Hc g Eg)).
Qed.
Lemma get_base_fee_ok c : config_ok c -> is_u64 (get_base_fee c).
Proof.
  intros Hc. unfold get_base_fee. destruct (nc_base_fee c) as [f|] eqn:E; [by apply (cf_base_fee c Hc)|].
  destruct (nc_genesis c) as [g|] eqn:Eg; cbn [mbind option_bind default]; [|apply INITIAL_BASE_FEE_ok]. destruct (gn_base_fee_per_gas g) as [i|] eqn:Ei; [|apply INITIAL_BASE_FEE_ok].
  by apply (go_base_fee g (cf_genesis c Hc g Eg)).
Qed.
Lemma get_genesis_timestamp_ok c now : config_ok c -> is_u64 now -> is_u64 (get_genesis_timestamp c now).
Proof.
  intros Hc Hn. unfold get_genesis_timestamp. destruct (nc_genesis_timestamp c) as [t|] eqn:E; [by apply (cf_genesis_timestamp c Hc)|].
  destruct (nc_genesis c) as [g|] eqn:Eg; cbn [mbind option_bind default]; [|exact Hn].
  destruct (gn_timestamp g) as [i|] eqn:Ei; [|exact Hn].
  by apply (go_timestamp g (cf_genesis c Hc g Eg)).
Qed.

(** The environment of the node. *)
Definition configured_env (c : config) : Env :=
  match nc_genesis c with Some genesis => Genesis_apply genesis (setup_env c) | None => setup_env c end.
Lemma default_holds {A : Type} (P : A -> Prop) (d : A) (o : option A) : P d -> (forall x, o = Some x -> P x) -> P (default d o).
Proof. intros Hd Ho. destruct o as [x|]; [by apply Ho|done]. Qed.
Lemma Genesis_apply_fields g env :
  let cfg := env_cfg (Genesis_apply g env) in let block := env_block (Genesis_apply g env) in
  (cfg_chain_id cfg = default (cfg_chain_id (env_cfg env)) (Genesis_chain_id g) /\
   cfg_spec_id cfg = cfg_spec_id (env_cfg env) /\
   cfg_limit_contract_code_size cfg = cfg_limit_contract_code_size (env_cfg env) /\
   cfg_memory_limit cfg = cfg_memory_limit (env_cfg env)) /\
  (block_number block = default (block_number (env_block env)) (gn_number g) /\
   block_coinbase block = default (block_coinbase (env_block env)) (gn_coinbase g) /\
   block_timestamp block = default (block_timestamp (env_block env)) (gn_timestamp g) /\
   block_difficulty block = gn_difficulty g /\ block_prevrandao block = block_prevrandao (env_block env) /\
   block_basefee block = default (block_basefee (env_block env)) (gn_base_fee_per_gas g) /\
   block_gas_limit block = gn_gas_limit g).
Proof.
  unfold Genesis_apply. split.
  - by destruct (Genesis_chain_id g).
  - by destruct (gn_coinbase g), (gn_number g), (gn_base_fee_per_gas g), (gn_timestamp g).
Qed.
Lemma configured_env_ok c : config_ok c ->
  block_wf (env_cfg (configured_env c)) (env_block (configured_env c)) /\
  block_gas_limit (env_block (configured_env c)) = block_limit c /\
  block_number (env_block (configured_env c)) = 0 /\
  cfg_spec_id (env_cfg (configured_env c)) = Hardfork.into_spec_id (get_hardfork c).
Proof.
  intros Hc. pose proof (u64_u256 _ (get_chain_id_ok c Hc)) as Hid. pose proof (get_base_fee_ok c Hc) as Hf.
  assert (Hg : is_u64 (nc_gas_limit c)) by (pose proof (cf_gas_limit c Hc); rlia). unfold configured_env, block_limit.
  assert (H : block_wf (env_cfg (setup_env c)) (env_block (setup_env c))).
  { split; cbn; unfold constant; try done; [apply (cf_code_size_limit c Hc)|by exists 0]. }
  destruct (nc_genesis c) as [g|] eqn:Eg; [|by split_and!].
  pose proof (cf_genesis c Hc g Eg) as [G1 G2 G3 G4 G5 G6 G7 _].
  destruct (Genesis_apply_fields g (setup_env c)) as [(F1 & F2 & F3 & F4) (F5 & F6 & F7 & F8 & F9 & F10 & F11)].
  destruct H as [H1 H2 H3 H4 H5 H6 H7 H8 H9 H10].
  split; [|split; [exact F11|split; [|exact F2]]].
  - split; rewrite ?F1, ?F2, ?F3, ?F4, ?F5, ?F6, ?F7, ?F8, ?F9, ?F10, ?F11; try assumption.
    + apply default_holds; [exact H1|]. intros i Hi. by apply u64_u256, G1.
    + apply default_holds; [exact H4|]. intros n Hn. by rewrite (G4 n Hn).
    + by apply default_holds.
    + by apply default_holds.
    + rlia.
    + by apply default_holds.
    + rlia.
  - rewrite F5. apply (default_holds (fun n => n = 0)); [reflexivity|exact G4].
Qed.

Lemma states_of_config_ok (p : PruneStateHistoryConfig) : (forall n, max_memory_history p = Some n -> 1 <= n) ->
  states_ok (states_of_config (StateDb := MemDb) p).
Proof.
  intros Hp. unfold states_of_config. case_match; [|by split_and!].
  assert (1 <= default DEFAULT_HISTORY_LIMIT (max_memory_history p)) by (by apply default_holds).
  split_and!; cbn; [done| |done]. unfold MIN_HISTORY_LIMIT. lia.
Qed.

(** The node that starts. *)
Record started (c : config) (now : Z) (b : backend) : Prop := mkStarted {
  sn_backend : backend_ok memdb_fit b;
  sn_chain : chain_ok 0 (b_storage b);
  sn_storage : b_storage b = BlockchainStorage_new (configured_env c)
    (if enabled (Hardfork.into_spec_id (get_hardfork c)) LONDON then Some (get_base_fee c) else None) (get_genesis_timestamp c now);
  sn_env : b_env b = configured_env c;
  sn_gas_limit : block_gas_limit (env_block (b_env b)) = block_limit c;
  sn_forks : FeeManager.spec_id (b_fees b) = cfg_spec_id (env_cfg (b_env b));
  sn_accounts : nc_init_state c = None -> forall a, ref_basic (b_db b) a = inl (Some (account_at_genesis c a));
  sn_slots : nc_init_state c = None -> forall a k, ref_storage (b_db b) a k = inl (slot_at_genesis c a k);
}.
Lemma setup_starts c clock statics : config_ok c -> is_u64 (clock 0%nat) -> 2 <= block_limit c ->
  exists b, setup c clock statics = Val b /\ started c (clock 0%nat) b.
Proof.
  intros Hc Hclock Hlimit. unfold setup, with_genesis. fold (configured_env c).
  set (timestamp := get_genesis_timestamp c (clock 0%nat)).
  assert (Ht : is_u64 timestamp) by (by apply get_genesis_timestamp_ok).
  cbn zeta. cbn [gc_timestamp].
  set (base_fee := if FeeManager.is_eip1559 _ then _ else _).
  set (b0 := mkBackend (configured_env c) _ _ _ _ _ _ _ _ _).
  pose proof (states_of_config_ok (nc_prune_history c) (cf_prune_history c Hc)) as Hs0.
  assert (Hstates : exists s, (match nc_block_time c with
    | Some t => states ← InMemoryBlockStates.update_interval_mine_block_time (b_states b0) (as_secs t);
                Val (with_block_states b0 states)
    | None => Val b0 end) = Val (with_block_states b0 s) /\ states_ok s).
  { destruct (nc_block_time c) as [t|].
    - destruct (update_interval_returns (b_states b0) (as_secs t) Hs0) as (s & -> & Hs). by exists s.
    - by exists (b_states b0). }
  destruct Hstates as (s & -> & Hs). cbn [mbind rust_bind].
  destruct (genesis_database c timestamp Hc) as (m & Em & Hm & Hacc & Hslots). cbn [with_block_states b_db b0].
  unfold genesis_accounts in Em. rewrite Em. destruct (configured_env_ok c Hc) as (Hwf & Hlim & Hnum & Hspec).
  assert (Hfit : forall db, memdb_fit db -> backend_ok memdb_fit (with_db (with_block_states b0 s) db)).
  { intros db Hdb. split; cbn; [exact Hdb|exact Hwf|apply coinbase_always, memdb_control|lia|by rewrite Hnum|done|by apply get_base_fee_ok| |exact Hs].
    by split. }
  assert (Hstore : b_storage b0 = BlockchainStorage_new (configured_env c)
    (if enabled (Hardfork.into_spec_id (get_hardfork c)) LONDON then Some (get_base_fee c) else None) timestamp).
  { change (b_storage b0) with (BlockchainStorage_new (configured_env c) base_fee timestamp). f_equal.
    unfold base_fee, FeeManager.base_fee, FeeManager.is_eip1559, FeeManager.new. cbn [FeeManager.spec_id FeeManager.base_fee_].
    change (cfg_spec_id (env_cfg (setup_env c))) with (Hardfork.into_spec_id (get_hardfork c)).
    by destruct (enabled (Hardfork.into_spec_id (get_hardfork c)) LONDON). }
  destruct (nc_init_state c) as [st|] eqn:Ei.
  - cbn [mbind rust_bind]. match goal with |- context [load_state ?x st] => change x with m end. destruct (load_never_fails m st) as (r & m' & El).
    pose proof (load_state_ok memdb_fit m st Hm (cf_init_state c Hc st Ei)) as Hm'.
    rewrite El in Hm' |- *. cbn [snd] in Hm'.
    eexists. split; [reflexivity|]. split; [exact (Hfit m' Hm')|apply new_chain|exact Hstore|done|exact Hlim|exact (eq_sym Hspec)|by rewrite Ei..].
  - eexists. split; [reflexivity|]. split; [exact (Hfit m Hm)|apply new_chain|exact Hstore|done|exact Hlim|exact (eq_sym Hspec)|by intros _..].
Qed.

Lemma spawn_starts c clock statics : config_ok c -> is_u64 (clock 0%nat) ->
  exists a listeners, spawn c clock statics = Val (mkNode a None []) /\
    api_pool a = empty_pool listeners /\ started c (clock 0%nat) (api_backend a) /\
    accounts a = dev_accounts c ++ match nc_genesis c with Some g => wallet_address <$> private_keys g | None => [] end.
Proof.
  intros Hc Hclock.
  assert (Hlimit : 2 <= block_limit c).
  { unfold block_limit. destruct (nc_genesis c) as [g|] eqn:Eg; [apply (cf_genesis c Hc g Eg)|apply (cf_gas_limit c Hc)]. }
  destruct (setup_starts c clock statics Hc Hclock Hlimit) as (b & Eb & Hb). unfold spawn. rewrite Eb. cbn [mbind rust_bind].
  match goal with |- context [mkEthApi b _ ?x _ _ _] => set (signers := x) end.
  assert (Hsigners : mjoin (signer_accounts <$> signers) =
    dev_accounts c ++ match nc_genesis c with Some g => wallet_address <$> private_keys g | None => [] end).
  { unfold signers, dev_accounts. destruct (nc_genesis c) as [g|]; [|cbn [fmap list_fmap mjoin list_join]; by rewrite ?app_nil_r].
    destruct (private_keys g) as [|w ws] eqn:Ek; cbn [fmap list_fmap app mjoin list_join]; by rewrite ?app_nil_r. }
  destruct (nc_block_time c) as [t|] eqn:Et; [|destruct (nc_no_mining c)].
  - unfold interval. rewrite (proj2 (Z.eqb_neq t 0) (cf_block_time c Hc t Et)). cbn [mbind rust_bind].
    eexists _, []. split; [reflexivity|]. by split_and!.
  - cbn [mbind rust_bind]. eexists _, []. split; [reflexivity|]. by split_and!.
  - unfold pool.add_ready_listener. destruct (pool.channel 2048) as [tx rx]. cbn [mbind rust_bind].
    eexists _, _. split; [reflexivity|]. by split_and!.
Qed.

(** C36: a node that starts without a state to load has the state its
    configuration says: every account of the genesis file has its balance,
    nonce, code and storage, the other accounts of the node have the genesis
    balance, and all else is empty; its chain is a genesis block with the
    configured time, gas limit and base fee; and it signs for its accounts
    and those whose keys the genesis file has. *)
Theorem genesis_state c clock statics : config_ok c -> is_u64 (clock 0%nat) -> nc_init_state c = None ->
  exists n, spawn c clock statics = Val n /\
    let b := api_backend (nd_api n) in
    (forall a, ref_basic (b_db b) a = inl (Some (account_at_genesis c a))) /\
    (forall a k, ref_storage (b_db b) a k = inl (slot_at_genesis c a k)) /\
    (exists block, st_blocks (b_storage b) !! st_best_hash (b_storage b) = Some block /\
       st_best_number (b_storage b) = 0 /\ hd_number (bl_header block) = 0 /\
       hd_timestamp (bl_header block) = get_genesis_timestamp c (clock 0%nat) /\
       hd_gas_limit (bl_header block) = block_limit c /\
       hd_base_fee_per_gas (bl_header block) =
         (if enabled (Hardfork.into_spec_id (get_hardfork c)) LONDON then Some (get_base_fee c) else None)) /\
    accounts (nd_api n) = dev_accounts c ++ match nc_genesis c with Some g => wallet_address <$> private_keys g | None => [] end.
Proof.
  intros Hc Hclock Hi. destruct (spawn_starts c clock statics Hc Hclock) as (a & listeners & Ea & _ & Hs & Hacc).
  exists (mkNode a None []). split; [exact Ea|]. cbn [nd_api]. split; [by apply (sn_accounts _ _ _ Hs)|].
  split; [by apply (sn_slots _ _ _ Hs)|]. split; [|exact Hacc].
  destruct (configured_env_ok c Hc) as (_ & Hlim & _ & _). rewrite (sn_storage _ _ _ Hs).
  eexists. cbn. rewrite lookup_singleton_eq. split; [reflexivity|]. by split_and!.
Qed.

(** ** From the command line *)

Abbreviation args := (NodeArgs (err := BlockchainError (ref_error (DB := MemDb)))).
(** Arguments within their types, with room for a block, a time between
    blocks and a state to keep. *)
Record args_ok (a : args) : Prop := mkArgsOk {
  ar_balance : 0 <= na_balance a;
  ar_timestamp t : na_timestamp a = Some t -> is_u64 t;
  ar_block_time t : na_block_time a = Some t -> 0 < t;
  ar_prune_history n : na_prune_history a = Some (Some n) -> 1 <= n;
  ar_gas_limit g : ea_gas_limit (na_evm_opts a) = Some g -> 2 <= g <= u64_max;
  ar_code_size_limit l : ea_code_size_limit (na_evm_opts a) = Some l -> is_u64 l;
  ar_base_fee f : ea_block_base_fee_per_gas (na_evm_opts a) = Some f -> is_u64 f;
  ar_chain_id i : ea_chain_id (na_evm_opts a) = Some i -> is_u64 i;
  ar_init g : na_init a = Some g -> genesis_ok g;
  ar_load_state s : na_load_state a = Some s -> map_Forall (fun _ => record_ok) s;
  ar_state s : na_state a ≫= sf_state = Some s -> map_Forall (fun _ => record_ok) s;
}.
Definition args_limit (a : args) : Z :=
  match na_init a with Some g => gn_gas_limit g | None => default 30000000 (ea_gas_limit (na_evm_opts a)) end.
(** The phrases and paths give wallets. *)
Definition wallets_found (a : args) (random : string) : Prop :=
  (exists ws, gen (HW := HW) (AccountGenerator_phrase (AccountGenerator_new random 10) DEFAULT_MNEMONIC) = Val ws) /\
  (exists ws, gen (HW := HW) (account_generator a random) = Val ws).

Lemma pick_some {A : Type} (o d : option A) (P : A -> Prop) x : (forall y, o = Some y -> P y) -> (forall y, d = Some y -> P y) ->
  match o with Some y => Some y | None => d end = Some x -> P x.
Proof. intros Ho Hd. destruct o as [y|]; [intros [= <-]; by apply Ho|by apply Hd]. Qed.

(** An optional setting keeps what there was. *)
Lemma with_gas_limit_eq (c : config) o : with_gas_limit c o = c {{ nc_gas_limit := default (nc_gas_limit c) o }}.
Proof. by destruct o, c. Qed.
Lemma with_genesis_timestamp_eq (c : config) o : with_genesis_timestamp c o =
  c {{ nc_genesis_timestamp := match o with Some t => Some t | None => nc_genesis_timestamp c end }}.
Proof. by destruct o, c. Qed.
Lemma timeout_eq (c : config) o : fork_request_timeout c o = c {{ nc_fork_request_timeout := default (nc_fork_request_timeout c) o }}.
Proof. by destruct o, c. Qed.
Lemma retries_eq (c : config) o : fork_request_retries c o = c {{ nc_fork_request_retries := default (nc_fork_request_retries c) o }}.
Proof. by destruct o, c. Qed.
Lemma backoff_eq (c : config) o : fork_retry_backoff c o = c {{ nc_fork_retry_backoff := default (nc_fork_retry_backoff c) o }}.
Proof. by destruct o, c. Qed.
Lemma cups_eq (c : config) o :
  fork_compute_units_per_second c o = c {{ nc_compute_units_per_second := default (nc_compute_units_per_second c) o }}.
Proof. by destruct o, c. Qed.

(** What becomes of the arguments. *)
Lemma into_node_config_fields a random : wallets_found a random -> exists c, into_node_config a random = Val c /\
  nc_chain_id c = ea_chain_id (na_evm_opts a) /\
  nc_gas_limit c = default 30000000 (ea_gas_limit (na_evm_opts a)) /\
  nc_base_fee c = ea_block_base_fee_per_gas (na_evm_opts a) /\
  nc_genesis_balance c = u256_saturating_mul WEI_IN_ETHER (na_balance a) /\
  nc_genesis_timestamp c = na_timestamp a /\
  nc_block_time c = from_secs <$> na_block_time a /\
  nc_code_size_limit c = ea_code_size_limit (na_evm_opts a) /\
  nc_prune_history c = PruneStateHistoryConfig_from_args (na_prune_history a) /\
  nc_genesis c = na_init a /\
  nc_init_state c = (match na_load_state a with Some s => Some s | None => na_state a ≫= sf_state end).
Proof.
  intros [[ws0 H0] [ws H1]]. unfold into_node_config, NodeConfig_default, with_account_generator.
  rewrite H0. cbn [mbind rust_bind]. rewrite H1. cbn [mbind rust_bind].
  destruct a as [port accounts balance timestamp mnemonic path silent hardfork block_time out no_mining host order init state
    interval dump load ipc prune keeper [url timeout retries number backoff fork_id cups unlimited caching gas_limit disable size
    price fee chain steps auto]].
  rewrite with_gas_limit_eq, with_genesis_timestamp_eq, timeout_eq, retries_eq, backoff_eq, cups_eq.
  eexists. split; [reflexivity|]. clear. split_and!; try reflexivity. by destruct timestamp.
Qed.
Lemma default_gas_limit_ok (o : option Z) : (forall g, o = Some g -> 2 <= g <= u64_max) -> 2 <= default 30000000 o <= u64_max.
Proof. intros Ho. destruct o as [g|]; [by apply Ho|]. simpl. lia. Qed.
Lemma into_node_config_ok a random : args_ok a -> wallets_found a random ->
  exists c, into_node_config a random = Val c /\ config_ok c /\ block_limit c = args_limit a.
Proof.
  intros Ha Hw. destruct (into_node_config_fields a random Hw) as (c & E & F1 & F2 & F3 & F4 & F5 & F6 & F7 & F8 & F9 & F10).
  exists c. split; [exact E|]. split; [|unfold block_limit, args_limit; by rewrite F2, F9].
  split; rewrite ?F1, ?F2, ?F3, ?F4, ?F5, ?F6, ?F7, ?F8, ?F9, ?F10;
    [apply (ar_chain_id a Ha)| |apply (ar_base_fee a Ha)| |apply (ar_timestamp a Ha)| |apply (ar_code_size_limit a Ha)| |apply (ar_init a Ha)|].
  - apply default_gas_limit_ok, Ha.
  - pose proof (ar_balance a Ha). unfold u256_saturating_mul, WEI_IN_ETHER. rlia.
  - intros d. destruct (na_block_time a) as [t|] eqn:Et; [|done]. intros [= <-]. pose proof (ar_block_time a Ha t Et).
    unfold from_secs. lia.
  - intros n. destruct (na_prune_history a) as [[m|]|] eqn:Ep; try done. intros [= <-]. by apply (ar_prune_history a Ha).
  - intros st. destruct (na_load_state a) as [l|] eqn:El; [intros [= <-]; by apply (ar_load_state a Ha)|by apply Ha].
Qed.

(** ** It keeps running *)
Context {HBS : BlockHashingSpec} {HTS : ChronoSpec} {HEV : Evm (CacheDB MemDb)} {HEM : Evm MemDb} {HES : EvmSpec memdb_fit}.
Context {HRL : Rlp} {HBR : BloomRlp} {HSG : Signatures} {HER : forall D (R : DatabaseRef D), EvmRef D} {HF : LogFilters}.
Context (boxed_state : MemDb -> DynDatabase (ref_error (DB := MemDb))) (as_ref_error : db_error (DB := MemDb) -> ref_error (DB := MemDb)).

End start.

(** ** Examples *)
Section examples.
#[local] Existing Instances no_tries zero_hashes zero_hashes_spec point_bn point_bn_spec willing_os example_evm example_chrono example_chrono_spec example_blooms example_hashing example_hashing_spec map_disk log_channel yellow_rlp.
#[local] Existing Instances bare_evm_ref control_evm control_bloom_rlp control_signatures no_filters control_evm_spec.

(** Wallets are an address, computed from phrase and path, and a chain id. *)
Fixpoint text_number (acc : Z) (s : string) : Z :=
  match s with
  | EmptyString => acc
  | String c s => text_number ((acc * 31 + Z.of_nat (Ascii.nat_of_ascii c)) mod 2 ^ 64) s
  end.
#[local] Instance text_wallets : Wallets (BlockchainError (ref_error (DB := MemDb))) := {
  Wallet := Z * Z;
  wallet_address := fst;
  wallet_with_chain_id w i := (w.1, i);
  sign_transaction_sync w _ := inl (mkSignature w.1 1 37);
  build_wallet phrase path := Some (text_number (text_number 7 phrase) path, 1);
}.

(** A genesis file for chain [chain_id] with one account, whose key it has. *)
Definition example_genesis (chain_id number : option Z) : Genesis :=
  mkGenesis ((fun i => mkConfig (Some i) None None None None None None None None None None None None None None None None None None
      None None None None None) <$> chain_id)
    (Some 66) (Some 1700000000) None 90000 1 None None
    {[500 := mkGenesisAccount (Some [0x60; 1; 0x00]) {[3 := 7]} 5 (Some 2) (Some (500, 1))]}
    number None None (Some 1000).
Definition example_args (init : option Genesis) (block_time : option Z) (prune : option (option Z)) (chain_id : option Z) : NodeArgs :=
  mkNodeArgs 8545 2 10000 None None None false None block_time None false [] Fees init None None None None None prune None
    (mkAnvilEvmArgs None None None None None None None false false None false None None None chain_id false false).

Lemma example_genesis_ok : genesis_ok (example_genesis (Some 5) (Some 0)).
Proof.
  split; try done.
  - intros i [= <-]. by vm_compute.
  - intros t [= <-]. by vm_compute.
  - intros f [= <-]. by vm_compute.
  - by intros n [= <-].
  - apply map_Forall_singleton. split; [|by apply map_Forall_singleton|done|by intros n [= <-]].
    intros c [= <-]. split; [by repeat constructor|by vm_compute].
Qed.
Lemma example_args_ok t : 0 < t -> args_ok (example_args (Some (example_genesis (Some 5) (Some 0))) (Some t) (Some (Some 3)) None).
Proof.
  intros Ht. split; try done; [by intros t' [= <-]|by intros n [= <-]|]. intros g [= <-]. apply example_genesis_ok.
Qed.
Lemma example_wallets init t prune i : wallets_found (example_args init t prune i) "random".
Proof. split; eexists; vm_compute; reflexivity. Qed.
Lemma started_dated :
  (c ← into_node_config (example_args (Some (example_genesis (Some 5) (Some 0))) (Some 1) (Some (Some 3)) None) "random";
   n ← spawn c (at_time 1700000001) admin.Statics_init; Val (dated_steps boxed_memdb same_error n control_steps)) = Val true.
Proof. vm_compute. reflexivity. Qed.
Lemma genesis_state_witness : exists c n,
  into_node_config (example_args (Some (example_genesis (Some 5) (Some 0))) None None None) "random" = Val c /\
  spawn c (at_time 1700000001) admin.Statics_init = Val n /\
  (balance <$> known (b_db (api_backend (nd_api n))) 500) = Some 5 /\
  ref_storage (b_db (api_backend (nd_api n))) 500 3 = inl 7 /\
  st_best_number (b_storage (api_backend (nd_api n))) = 0.
Proof.
  destruct (into_node_config_ok (example_args (Some (example_genesis (Some 5) (Some 0))) None None None) "random")
    as (c & Ec & Hc & _); [|apply example_wallets|].
  { split; try done. intros g [= <-]. apply example_genesis_ok. }
  destruct (into_node_config_fields (example_args (Some (example_genesis (Some 5) (Some 0))) None None None) "random")
    as (c' & Ec' & _ & _ & _ & _ & _ & _ & _ & _ & Fg & Fi); [apply example_wallets|].
  assert (c' = c) as -> by congruence.
  destruct (genesis_state c (at_time 1700000001) admin.Statics_init Hc) as (n & En & Hacc & Hslots & (block & _ & Hb & _) & _);
    [by vm_compute|by rewrite Fi|].
  exists c, n. split; [exact Ec|]. split; [exact En|]. split; [|split; [|exact Hb]].
  - specialize (Hacc 500). rewrite ref_basic_known in Hacc. injection Hacc as ->. unfold account_at_genesis. by rewrite Fg.
  - rewrite Hslots. unfold slot_at_genesis. by rewrite Fg.
Defined.

(** *** Settings that disagree *)
Definition started_with (a : NodeArgs) (steps : list (@node_step _)) : rust (NodeConfig * Node (DB := MemDb) (StateDb := MemDb)) :=
  c ← into_node_config a "random"; n ← spawn c (at_time 1700000001) admin.Statics_init;
  n ← node_run boxed_memdb same_error n steps; Val (c, n).

(** The chain id of the command line is that of the configuration, which is
    printed, and of the wallets; the node has the one of the genesis file. *)
Theorem chain_ids_disagree :
  ('(c, n) ← started_with (example_args (Some (example_genesis (Some 5) None)) None None (Some 31)) [];
   Val (get_chain_id c, snd <$> nc_signer_accounts c, cfg_chain_id (env_cfg (b_env (api_backend (nd_api n)))))) =
  Val (31, [31; 31], 5).
Proof. vm_compute. reflexivity. Qed.
(** Without one on the command line the wallets get the default, as they are
    updated before the genesis file is known. *)
Theorem wallets_miss_chain_id :
  ('(c, n) ← started_with (example_args (Some (example_genesis (Some 5) None)) None None None) [];
   Val (get_chain_id c, snd <$> nc_signer_accounts c)) = Val (5, [31337; 31337]).
Proof. vm_compute. reflexivity. Qed.
(** A genesis file with a block number, 7: the node says that it is at 7,
    but its genesis block is number 0, and number 7 is not found, neither
    then nor when block 8 has been mined on it. *)
Theorem genesis_number_leaves_gap :
  let numbers b := (fun k => (fun block => hd_number (bl_header block)) <$> get_block b (IdNumber (Number k))) <$> [0; 7; 8] in
  let reported steps :=
    '(_, n) ← started_with (example_args (Some (example_genesis None (Some 7))) None None None) steps;
    let b := api_backend (nd_api n) in Val (best_number b, numbers b) in
  reported [] = Val (7, [Some 0; None; None]) /\
  reported [Request (Mine None None) (at_time 1700000002)] = Val (8, [Some 0; None; Some 8]).
Proof. split; vm_compute; reflexivity. Qed.
(** States in memory are limited to 3 on the command line, but a block time
    of two seconds or less raises the limit to 1500. *)
Theorem fast_blocks_lift_pruning :
  ('(c, n) ← started_with (example_args None (Some 2) (Some (Some 3)) None) [];
   Val (InMemoryBlockStates.in_memory_limit (b_states (api_backend (nd_api n))))) = Val 1500 /\
  ('(c, n) ← started_with (example_args None (Some 3) (Some (Some 3)) None) [];
   Val (InMemoryBlockStates.in_memory_limit (b_states (api_backend (nd_api n))))) = Val 3.
Proof. split; vm_compute; reflexivity. Qed.
(** A block time of zero is accepted, and takes the node down. *)
Theorem zero_block_time_panics : ('(c, _) ← started_with (example_args None (Some 0) None None) []; Val (get_chain_id c)) = Panic.
Proof. vm_compute. reflexivity. Qed.
End examples.

(** ** Hard forks *)
Section hardforks.
Import Hardfork.

(** In the order of the chain; of two at the same block the later holds. *)
Definition all_forks : list Hardfork.t :=
  [Frontier; Homestead; Dao; Tangerine; SpuriousDragon; Byzantium; Constantinople; Petersburg; Istanbul; Muirglacier;
   Berlin; London; ArrowGlacier; GrayGlacier; Paris; Shanghai; Hardfork.Latest].
Definition newest_fork (n : Z) : Hardfork.t :=
  foldl (fun acc f => if fork_block f <=? n then f else acc) Frontier all_forks.

(** The rules taken for a block are those of the newest fork that has begun
    by it, but for two ranges: where Constantinople is taken for Petersburg,
    which began at the same block, and where the merge is taken to begin with
    Gray Glacier. *)
Theorem hardfork_of_block n : 0 <= n ->
  into_spec_id (of_block (Number n)) = into_spec_id (newest_fork n) <->
  ~ (7280000 <= n < 9069000 \/ 15050000 <= n < 15537394).
Proof.
  intros Hn. unfold newest_fork, of_block, all_forks. cbn [foldl fork_block].
  repeat match goal with |- context [?a <=? n] => destruct (Z.leb_spec a n); try lia end;
    repeat match goal with |- context [n <? ?a] => destruct (Z.ltb_spec n a); try lia end; cbn [into_spec_id];
    (split; [intros E; try discriminate E; lia|intros E; try reflexivity; exfalso; lia]).
Qed.

(** The names of the command line, in any case. *)
Theorem fork_names :
  from_str "merge" = inl Paris /\ from_str "GrayGlacier" = inl GrayGlacier /\ from_str "12" = inl London /\
  from_str "Cancun" = inr "Unknown hardfork cancun"%string.
Proof. by vm_compute. Qed.

(** The checksum of EIP-2124, over bytes, with the polynomial reversed. *)
Definition crc32_bit (c : Z) : Z :=
  let shifted := Z.shiftr c 1 in if Z.odd c then Z.lxor shifted 0xedb88320 else shifted.
Definition crc32_byte (c byte : Z) : Z :=
  Nat.iter 8 crc32_bit (Z.lxor c byte).
Definition crc32 (bytes : list Z) : Z := Z.lxor (foldl crc32_byte (2 ^ 32 - 1) bytes) (2 ^ 32 - 1).
Definition mainnet_genesis : Z := 0xd4e56740f876aef8c010b86a40d5f56745a118d0906a34e69aec8c0db1cb8fa3.
Definition fork_checksum (forks : list Hardfork.t) : list Z :=
  to_be_bytes 4 (crc32 (to_be_bytes 32 mainnet_genesis ++ mjoin ((fun f => to_be_bytes 8 (fork_block f)) <$> forks))).
(** The forks that changed the chain at a block of their own. *)
Definition forks_until (f : Hardfork.t) : list Hardfork.t :=
  let l := [Homestead; Dao; Tangerine; SpuriousDragon; Byzantium; Constantinople; Istanbul; Muirglacier;
            Berlin; London; ArrowGlacier; GrayGlacier; Paris; Shanghai] in
  take (match list_find (fun g => g = f) l with Some (i, _) => S i | None => 0 end) l.

(** The hash of a fork is the checksum of the genesis hash and of all fork
    blocks until it, as documented, and what it names as next is the block of
    the next one; but the hashes of the last two are others, whether or not
    the merge is counted. *)
Theorem fork_ids_checksums :
  Forall (fun f => fork_hash (fork_id f) = fork_checksum (forks_until f))
    [Frontier; Homestead; Dao; Tangerine; SpuriousDragon; Byzantium; Constantinople; Istanbul; Muirglacier;
     Berlin; London; ArrowGlacier; GrayGlacier] /\
  fork_hash (fork_id Paris) <> fork_checksum (forks_until Paris) /\
  fork_hash (fork_id Shanghai) <> fork_checksum (forks_until Shanghai) /\
  fork_hash (fork_id Shanghai) <> fork_checksum (forks_until GrayGlacier ++ [Shanghai]).
Proof. repeat constructor; vm_compute; congruence. Qed.
End hardforks.
