(* ===== verification/ForkSpec.v ===== *)
(** * What the handler of a fork promises

    For any sequence of requests and polls: for each account, slot and block
    hash there is at most one request to the provider at a time; nobody's
    request is lost or answered twice; and as long as the fork stays at one
    block, every answer is what the remote chain has at that block.  What
    happens when the block changes is shown at the end. *)

From stdpp Require Import base option list gmap sets strings.
From Stdlib Require Import ZArith Lia.
From coqutil Require Import Datatypes.RecordSetters.
From S2P Require Import Prelude Primitives Precompile Journal EvmImpl Execution CacheDB NodeDb BlockStates EthTransaction Fees TxPool Miner Calls NodeDbSpec Fork.
Import DoubleBraceUpdate.

(** ** Keys, listeners and those who wait *)
Inductive Key := KAccount (a : Z) | KSlot (a i : Z) | KBlock (n : Z).
#[export] Instance Key_eq_dec : EqDecision Key.
Proof. solve_decision. Defined.

Section spec.
Context {HC : Crypto} {Err FullBlock RemoteTransaction : Type}.
Abbreviation Handler := (@BackendHandler Err FullBlock RemoteTransaction).
Abbreviation Prov := (@Provider Err FullBlock RemoteTransaction).
Abbreviation Resp := (@Response Err FullBlock RemoteTransaction).

Definition key_of (r : ProviderRequest) : option Key :=
  match r with
  | AccountFuture a _ => Some (KAccount a)
  | StorageFuture a i _ => Some (KSlot a i)
  | BlockHashFuture n => Some (KBlock n)
  | _ => None
  end.
Definition listeners_of (h : Handler) (k : Key) : option (list Z) :=
  match k with
  | KAccount a => account_requests h !! a
  | KSlot a i => storage_requests h !! (a, i)
  | KBlock n => block_requests h !! n
  end.
Definition sender_of (r : BackendRequest) : option Z :=
  match r with
  | Basic _ s | Storage _ _ s | BlockHash _ s | FullBlockOf _ s | TransactionOf _ s => Some s
  | SetPinnedBlock _ => None
  end.
(** Who waits for a future. *)
Definition waiters (h : Handler) (r : ProviderRequest) : list Z :=
  match r with
  | FullBlockFuture _ s | TransactionFuture _ s => [s]
  | _ => default [] (key_of r ≫= listeners_of h)
  end.
Definition waiting (h : Handler) : list Z := pending_requests h ≫= waiters h.

(** There is one future for each key that someone waits for, and no other. *)
Definition one_in_flight (h : Handler) : Prop :=
  NoDup (omap key_of (pending_requests h)) /\
  (forall k, k ∈ omap key_of (pending_requests h) <-> is_Some (listeners_of h k)).
(** Every sender there is: in a request not read yet, behind a future, or answered. *)
Definition accounted (h : Handler) : list Z :=
  omap sender_of (queued_requests h) ++ omap sender_of (incoming h) ++ waiting h ++ (sent h).*1.

(** ** The events a handler sees *)
Inductive Event := Ask (r : BackendRequest) | Poll (p : Prov).
Definition event (h : Handler) (e : Event) : rust Handler :=
  match e with
  | Ask r => Val (try_send h r)
  | Poll p => '(_, h) ← poll_handler 2 p h; Val h
  end.
Fixpoint run (evs : list Event) (h : Handler) : rust Handler :=
  match evs with [] => Val h | e :: evs => h ← event h e; run evs h end.
Definition asks (evs : list Event) : list BackendRequest :=
  omap (fun e => match e with Ask r => Some r | Poll _ => None end) evs.

(** ** The vector of futures *)
Lemma swap_remove_perm {A} (l : list A) i x rest :
  vec_swap_remove l i = Val (x, rest) -> l ≡ₚ x :: rest /\ length rest = (length l - 1)%nat.
Proof.
  unfold vec_swap_remove. destruct (l !! i) as [x'|] eqn:Hi; [|done].
  destruct (last l) as [y|] eqn:Hy; [|done]. intros [= -> <-].
  apply last_Some in Hy as [l' ->]. rewrite length_app, take_app_length'; [|simpl; lia].
  case_bool_decide as Hc.
  - rewrite Hc, list_lookup_middle in Hi by done. injection Hi as ->.
    split; [by rewrite Permutation_app_comm | simpl; lia].
  - assert (i < length l')%nat as Hl.
    { apply lookup_lt_Some in Hi. rewrite length_app in Hi. simpl in Hi. lia. }
    rewrite lookup_app_l in Hi by done. split; [|rewrite length_insert; simpl; lia].
    rewrite <- (take_drop_middle l' i x Hi) at 1. rewrite insert_take_drop by done.
    rewrite <- !app_assoc. simpl. rewrite (Permutation_app_comm _ [y]). solve_Permutation.
Qed.
Lemma swap_remove_ok {A} (l : list A) i :
  (i < length l)%nat -> exists x rest, vec_swap_remove l i = Val (x, rest).
Proof.
  intros Hi. unfold vec_swap_remove. destruct (lookup_lt_is_Some_2 l i Hi) as [x ->].
  destruct (last l) eqn:Hy; [eauto|]. apply last_None in Hy. subst. simpl in Hi. lia.
Qed.

(** ** The remote chain at one block, and what is true of it *)
Record World := mkWorld {
  w_balance : Z -> Z;
  w_nonce : Z -> Z;
  w_code : Z -> list Z;
  w_slot : Z -> Z -> Z;
  w_hash : Z -> option Z;
  w_block : BlockId -> option FullBlock;
  w_transaction : Z -> option RemoteTransaction;
}.
Definition w_account (w : World) (a : Z) : AccountInfo := fetched_account (w_balance w a) (w_nonce w a) (w_code w a).
(** The provider may answer late, or with an error, but not with anything else;
    what depends on a block it is asked at block [b]. *)
Record faithful (w : World) (b : option BlockId) (p : Prov) : Prop := mkFaithful {
  faithful_balance : forall a x, get_balance p a b = Some (inl x) -> x = w_balance w a;
  faithful_nonce : forall a x, get_transaction_count p a b = Some (inl x) -> x = w_nonce w a;
  faithful_code : forall a x, get_code p a b = Some (inl x) -> x = w_code w a;
  faithful_slot : forall a i x, get_storage_at p a i b = Some (inl x) -> x = w_slot w a i;
  faithful_hash : forall n x, get_block p n = Some (inl x) -> x = Some <$> w_hash w n;
  faithful_block : forall id x, get_block_with_txs p id = Some (inl x) -> x = w_block w id;
  faithful_tx : forall t x, get_transaction p t = Some (inl x) -> x = w_transaction w t;
}.
Definition answers (w : World) (req : BackendRequest) (resp : Resp) : Prop :=
  match req, resp with
  | Basic a _, AccountResponse (inl i) => i = w_account w a
  | Basic a _, AccountResponse (inr e) => exists err, e = GetAccount a err
  | Storage a i _, StorageResponse (inl v) => v = w_slot w a i
  | Storage a i _, StorageResponse (inr e) => exists err, e = GetStorage a i err
  | BlockHash n _, BlockHashResponse (inl v) => v = default KECCAK_EMPTY (w_hash w n)
  | BlockHash n _, BlockHashResponse (inr e) => exists err, e = GetBlockHash n err
  | FullBlockOf id _, FullBlockResponse (inl v) => w_block w id = Some v
  | FullBlockOf id _, FullBlockResponse (inr e) =>
      e = BlockNotFound id /\ w_block w id = None \/ exists err, e = GetFullBlock id err
  | TransactionOf t _, TransactionResponse (inl v) => w_transaction w t = Some v
  | TransactionOf t _, TransactionResponse (inr e) =>
      e = TransactionNotFound t /\ w_transaction w t = None \/ exists err, e = GetTransaction t err
  | _, _ => False
  end.
(** The cache holds nothing else either. *)
Record cache_true (w : World) (m : ForkMemDb) : Prop := mkCacheTrue {
  true_accounts : forall a i, sn_accounts m !! a = Some i -> i = w_account w a;
  true_storage : forall a s i v, sn_storage m !! a = Some s -> s !! i = Some v -> v = w_slot w a i;
  true_hashes : forall n v, sn_block_hashes m !! n = Some v -> v = default KECCAK_EMPTY (w_hash w n);
}.
(** The request that a future is there for. *)
Definition request_for (r : ProviderRequest) (s : Z) : BackendRequest :=
  match r with
  | AccountFuture a _ => Basic a s
  | StorageFuture a i _ => Storage a i s
  | BlockHashFuture n => BlockHash n s
  | FullBlockFuture id _ => FullBlockOf id s
  | TransactionFuture t _ => TransactionOf t s
  end.
Definition at_block (b : option BlockId) (r : ProviderRequest) : Prop :=
  match r with AccountFuture _ id | StorageFuture _ _ id => id = b | _ => True end.

(** ** One future that is done *)
Record resolved (h : Handler) (r : ProviderRequest) (resp : Resp) (h' : Handler) : Prop := mkResolved {
  res_sent : sent h' = sent h ++ ((fun s => (s, resp)) <$> waiters h r);
  res_listeners : forall k, listeners_of h' k = if decide (key_of r = Some k) then None else listeners_of h k;
  res_pending : pending_requests h' = pending_requests h;
  res_queued : queued_requests h' = queued_requests h;
  res_incoming : incoming h' = incoming h;
  res_block : block_id h' = block_id h;
  res_alive : senders_alive h' = senders_alive h;
}.

Lemma foldl_send (h : Handler) (resp : Resp) ls :
  foldl (fun h l => send h l resp) h ls = h {{ sent := sent h ++ ((fun s => (s, resp)) <$> ls) }}.
Proof.
  revert h. induction ls as [|l ls IH]; intros h; simpl.
  - rewrite app_nil_r. by destruct h.
  - rewrite IH. unfold send, constant. simpl. by rewrite <- app_assoc.
Qed.
Lemma send_resolved (h : Handler) r s resp :
  key_of r = None -> waiters h r = [s] -> resolved h r resp (send h s resp).
Proof.
  intros Hk Hw. unfold send, constant. constructor; simpl; try done.
  - by rewrite Hw.
  - intros k. rewrite decide_False by congruence. by destruct k.
Qed.

Ltac resolve_cases H :=
  unfold constant; rewrite ?foldl_send; constructor; simpl; rewrite ?H; simpl; rewrite ?app_nil_r; try done;
  intros []; case_decide; simplify_eq; simpl in *;
  rewrite ?lookup_delete_eq; try done; rewrite ?lookup_delete_ne by congruence; done.

Lemma notify_account_resolved (h : Handler) m a id r :
  resolved h (AccountFuture a id) (AccountResponse r) (notify_account (h {{ bh_db := m }}) a r).
Proof.
  unfold notify_account. destruct h as [????????? ?]. simpl. destruct (_ !! a) as [ls|] eqn:H; resolve_cases H.
Qed.
Lemma notify_storage_resolved (h : Handler) m a i id r :
  resolved h (StorageFuture a i id) (StorageResponse r) (notify_storage (h {{ bh_db := m }}) (a, i) r).
Proof.
  unfold notify_storage. destruct h as [????????? ?]. simpl. destruct (_ !! (a, i)) as [ls|] eqn:H; resolve_cases H.
Qed.
Lemma notify_block_resolved (h : Handler) m n r :
  resolved h (BlockHashFuture n) (BlockHashResponse r) (notify_block (h {{ bh_db := m }}) n r).
Proof.
  unfold notify_block. destruct h as [????????? ?]. simpl. destruct (_ !! n) as [ls|] eqn:H; resolve_cases H.
Qed.
Lemma notify_account_db (h : Handler) a r : bh_db (notify_account h a r) = bh_db h.
Proof. unfold notify_account. case_match; rewrite ?foldl_send; done. Qed.
Lemma notify_storage_db (h : Handler) k r : bh_db (notify_storage h k r) = bh_db h.
Proof. unfold notify_storage. case_match; rewrite ?foldl_send; done. Qed.
Lemma notify_block_db (h : Handler) n r : bh_db (notify_block h n r) = bh_db h.
Proof. unfold notify_block. case_match; rewrite ?foldl_send; done. Qed.
Lemma same_db (h : Handler) : h = h {{ bh_db := bh_db h }}.
Proof. by destruct h. Qed.

Lemma fetched_slot_true w m a i v : v = w_slot w a i -> cache_true w m -> cache_true w (fetched_slot m a i v).
Proof.
  intros -> [Ha Hs Hh]. unfold fetched_slot, constant. constructor; simpl; try done.
  intros a' s i' v' Ha' Hi'. destruct (decide (a' = a)) as [->|Hn].
  - rewrite lookup_insert_eq in Ha'. injection Ha' as <-. destruct (decide (i' = i)) as [->|Hi].
    + rewrite lookup_insert_eq in Hi'. congruence.
    + rewrite lookup_insert_ne in Hi' by congruence.
      destruct (sn_storage m !! a) as [s|] eqn:E; simpl in Hi'; [by eapply Hs|done].
  - rewrite lookup_insert_ne in Ha' by congruence. by eapply Hs.
Qed.
Lemma insert_account_true w m a : cache_true w m -> cache_true w (do_insert_account m a (w_account w a)).
Proof.
  intros [Ha Hs Hh]. unfold do_insert_account, constant. constructor; simpl; try done.
  intros a' i. destruct (decide (a' = a)) as [->|Hn].
  - rewrite lookup_insert_eq. congruence.
  - rewrite lookup_insert_ne by congruence. apply Ha.
Qed.
Lemma insert_hash_true w m n v :
  v = default KECCAK_EMPTY (w_hash w n) -> cache_true w m ->
  cache_true w (m {{ sn_block_hashes := <[n := v]> (sn_block_hashes m) }}).
Proof.
  intros -> [Ha Hs Hh]. unfold constant. constructor; simpl; try done.
  intros n' v'. destruct (decide (n' = n)) as [->|Hn].
  - rewrite lookup_insert_eq. congruence.
  - rewrite lookup_insert_ne by congruence. apply Hh.
Qed.
Lemma try_join_inl {A B C} (a : option (A + Err)) (b : option (B + Err)) (c : option (C + Err)) x y z :
  try_join a b c = Some (inl (x, y, z)) -> a = Some (inl x) /\ b = Some (inl y) /\ c = Some (inl z).
Proof. unfold try_join. intros H. repeat (case_match; simplify_eq); done. Qed.
Lemma hash_of_block_inl (r : option (option Z) + Err) w n v :
  (forall x, r = inl x -> x = Some <$> w_hash w n) -> hash_of_block r = Val (inl v) ->
  v = default KECCAK_EMPTY (w_hash w n).
Proof.
  intros Hx H. destruct r as [x|e]; [|done]. specialize (Hx x eq_refl).
  destruct (w_hash w n) as [hash|]; simpl in Hx; subst; by injection H as <-.
Qed.

(** What a future tells, and what it leaves in the cache. *)
Definition tells_truth (w : World) (b : option BlockId) (p : Prov) (h : Handler) (r : ProviderRequest) (resp : Resp) (h' : Handler) :=
  faithful w b p -> at_block b r -> cache_true w (bh_db h) ->
  cache_true w (bh_db h') /\ forall s, answers w (request_for r s) resp.
Lemma poll_account_resolved p (h h' : Handler) a id :
  poll_request p h (AccountFuture a id) = Val (Some h') ->
  exists resp, resolved h (AccountFuture a id) resp h' /\ forall w b, tells_truth w b p h (AccountFuture a id) resp h'.
Proof.
  unfold tells_truth. cbn [poll_request]. destruct (try_join _ _ _) as [[[[bal n] c]|e]|] eqn:E; [| |done].
  - apply try_join_inl in E as (Eb & En & Ec).
    destruct (as_u64 n) as [n'| | |] eqn:Hn; try done. intros [= <-].
    exists (AccountResponse (inl (fetched_account bal n' c))). split; [apply notify_account_resolved|].
    intros w b F Hat HT. simpl in Hat. subst id.
    rewrite notify_account_db.
    apply (faithful_balance _ _ _ F) in Eb as ->. apply (faithful_nonce _ _ _ F) in En as ->.
    apply (faithful_code _ _ _ F) in Ec as ->.
    assert (n' = w_nonce w a) as -> by (revert Hn; unfold as_u64; case_match; by intros [= <-]).
    split; [by apply insert_account_true | done].
  - intros [= <-]. exists (AccountResponse (inr (GetAccount a e))).
    rewrite (same_db h) at 2. split; [apply notify_account_resolved|].
    intros w b F Hat HT. rewrite notify_account_db. simpl. eauto.
Qed.
Lemma poll_storage_resolved p (h h' : Handler) a i id :
  poll_request p h (StorageFuture a i id) = Val (Some h') ->
  exists resp, resolved h (StorageFuture a i id) resp h' /\ forall w b, tells_truth w b p h (StorageFuture a i id) resp h'.
Proof.
  unfold tells_truth. cbn [poll_request]. destruct (get_storage_at p a i id) as [[v|e]|] eqn:E; [| |done]; intros [= <-].
  - exists (StorageResponse (inl v)). split; [apply notify_storage_resolved|].
    intros w b F Hat HT. simpl in Hat. subst id. rewrite notify_storage_db.
    apply (faithful_slot _ _ _ F) in E. split; [by apply fetched_slot_true | done].
  - exists (StorageResponse (inr (GetStorage a i e))).
    rewrite (same_db h) at 2. split; [apply notify_storage_resolved|].
    intros w b F Hat HT. rewrite notify_storage_db. simpl. eauto.
Qed.
Lemma poll_hash_resolved p (h h' : Handler) n :
  poll_request p h (BlockHashFuture n) = Val (Some h') ->
  exists resp, resolved h (BlockHashFuture n) resp h' /\ forall w b, tells_truth w b p h (BlockHashFuture n) resp h'.
Proof.
  unfold tells_truth. cbn [poll_request]. destruct (get_block p n) as [answer|] eqn:E; [|done].
  destruct (hash_of_block answer) as [[v|e]| | |] eqn:Hv; try done; intros [= <-].
  - exists (BlockHashResponse (inl v)). split; [apply notify_block_resolved|].
    intros w b F Hat HT. rewrite notify_block_db.
    assert (v = default KECCAK_EMPTY (w_hash w n)) as Hw.
    { eapply hash_of_block_inl; [|exact Hv]. intros x ->. by apply (faithful_hash _ _ _ F). }
    split; [by apply insert_hash_true | done].
  - exists (BlockHashResponse (inr (GetBlockHash n e))).
    rewrite (same_db h) at 2. split; [apply notify_block_resolved|].
    intros w b F Hat HT. rewrite notify_block_db. simpl. eauto.
Qed.
Lemma poll_request_resolved p (h h' : Handler) r :
  poll_request p h r = Val (Some h') ->
  exists resp, resolved h r resp h' /\ forall w b, tells_truth w b p h r resp h'.
Proof.
  destruct r as [a id|a i id|n|id s|t s].
  - apply poll_account_resolved.
  - apply poll_storage_resolved.
  - apply poll_hash_resolved.
  - simpl. destruct (get_block_with_txs p id) as [answer|] eqn:E; [|done]. intros [= <-].
    eexists. split; [by apply send_resolved|]. intros w b F _ HT. split; [done|]. intros s'. simpl.
    destruct answer as [[v|]|e]; simpl; [| |eauto]; apply (faithful_block _ _ _ F) in E; eauto.
  - simpl. destruct (get_transaction p t) as [answer|] eqn:E; [|done]. intros [= <-].
    eexists. split; [by apply send_resolved|]. intros w b F _ HT. split; [done|]. intros s'. simpl.
    destruct answer as [[v|]|e]; simpl; [| |eauto]; apply (faithful_tx _ _ _ F) in E; eauto.
Qed.

(** ** Listeners and futures, as functions and lists *)
Definition waiters_of (f : Key -> option (list Z)) (r : ProviderRequest) : list Z :=
  match r with
  | FullBlockFuture _ s | TransactionFuture _ s => [s]
  | _ => default [] (key_of r ≫= f)
  end.
Lemma waiters_eq h : waiters h = waiters_of (listeners_of h).
Proof. done. Qed.
Definition keyed (f : Key -> option (list Z)) (P : list ProviderRequest) : Prop :=
  NoDup (omap key_of P) /\ (forall k, k ∈ omap key_of P <-> is_Some (f k)).
Lemma one_in_flight_keyed h : one_in_flight h <-> keyed (listeners_of h) (pending_requests h).
Proof. done. Qed.

Lemma waiters_of_ext f g r : (forall k, key_of r = Some k -> f k = g k) -> waiters_of f r = waiters_of g r.
Proof. destruct r; simpl; intros H; try done; by rewrite (H _ eq_refl). Qed.
Lemma waiting_ext f g P :
  (forall k, k ∈ omap key_of P -> f k = g k) -> P ≫= waiters_of f = P ≫= waiters_of g.
Proof.
  induction P as [|r P IH]; intros H; [done|]. rewrite !bind_cons. f_equal.
  - apply waiters_of_ext. intros k Hk. apply H. simpl. rewrite Hk. by left.
  - apply IH. intros k Hk. apply H. simpl. destruct (key_of r); [by right|done].
Qed.
Lemma keyed_perm f P Q : P ≡ₚ Q -> keyed f P -> keyed f Q.
Proof. unfold keyed. intros HP [Hn Hk]. rewrite HP in Hn. split; [done|]. intros k. by rewrite <- HP. Qed.
Lemma keyed_ext f g P : (forall k, f k = g k) -> keyed f P -> keyed g P.
Proof. intros E [Hn Hk]. split; [done|]. intros k. by rewrite <- E. Qed.
Lemma waiting_perm f P Q : P ≡ₚ Q -> P ≫= waiters_of f ≡ₚ Q ≫= waiters_of f.
Proof. intros HP. by rewrite HP. Qed.

(** A future that is done goes, and its listeners with it. *)
Lemma keyed_resolved f g r P :
  keyed f (r :: P) -> (forall k, g k = if decide (key_of r = Some k) then None else f k) ->
  keyed g P /\ P ≫= waiters_of g = P ≫= waiters_of f.
Proof.
  unfold keyed. simpl. intros [Hn Hk] Hg. destruct (key_of r) as [k0|] eqn:Hr.
  - apply NoDup_cons in Hn as [Hnot Hn]. repeat split; try done.
    + intros Hin. rewrite Hg, decide_False by (by intros [= ->]). apply Hk. by right.
    + rewrite Hg. case_decide as Hd; [by intros []|]. intros Hs.
      apply Hk in Hs. apply elem_of_cons in Hs as [->|]; [done|done].
    + apply waiting_ext. intros k Hin. rewrite Hg, decide_False; [done|by intros [= ->]].
  - repeat split; try done.
    + intros Hin. rewrite Hg, decide_False by done. by apply Hk.
    + rewrite Hg, decide_False by done. apply Hk.
    + apply waiting_ext. intros k _. rewrite Hg, decide_False; done.
Qed.
Lemma waiters_of_key f r k : key_of r = Some k -> waiters_of f r = default [] (f k).
Proof. destruct r; intros [= <-]; done. Qed.
(** One more listener for a key, with a future if it is the first. *)
Lemma keyed_join f g k l ls P :
  keyed f P -> f k = Some ls -> (forall k', g k' = if decide (k' = k) then Some (ls ++ [l]) else f k') ->
  keyed g P /\ P ≫= waiters_of g ≡ₚ l :: (P ≫= waiters_of f).
Proof.
  intros HK Hf Hg. split.
  { destruct HK as [Hn Hk]. split; [done|]. intros k'. rewrite Hg. case_decide as Hd; [|apply Hk].
    subst. rewrite Hk, Hf. by split. }
  assert (k ∈ omap key_of P) as (r & Hr & Hrk)%list_elem_of_omap by (apply HK; eauto).
  apply elem_of_Permutation in Hr as [P' HP]. pose proof (keyed_perm _ _ _ HP HK) as [Hn _].
  simpl in Hn. rewrite Hrk in Hn. apply NoDup_cons in Hn as [Hnot _].
  rewrite (waiting_perm g _ _ HP), (waiting_perm f _ _ HP), !bind_cons.
  rewrite !(waiters_of_key _ _ _ Hrk), Hf, Hg, decide_True by done. simpl.
  rewrite (waiting_ext g f P'); [|intros k' Hin; rewrite Hg, decide_False; [done|by intros ->]].
  rewrite <- app_assoc. symmetry. by rewrite (Permutation_middle ls _ l).
Qed.
Lemma keyed_first f g k l r P :
  keyed f P -> f k = None -> key_of r = Some k ->
  (forall k', g k' = if decide (k' = k) then Some [l] else f k') ->
  keyed g (P ++ [r]) /\ (P ++ [r]) ≫= waiters_of g ≡ₚ l :: (P ≫= waiters_of f).
Proof.
  intros [Hn Hk] Hf Hr Hg. assert (k ∉ omap key_of P) as Hnot by (rewrite Hk, Hf; by intros []).
  assert (P ++ [r] ≡ₚ r :: P) as HP by apply Permutation_app_comm. split.
  - apply (keyed_perm _ (r :: P)); [by symmetry|]. unfold keyed. simpl. rewrite Hr.
    split; [by apply NoDup_cons|]. intros k'. rewrite elem_of_cons, Hg. case_decide as Hd; [|rewrite <- Hk; tauto].
    subst. split; [eauto|by left].
  - rewrite (waiting_perm g _ _ HP), bind_cons. rewrite (waiters_of_key _ _ _ Hr), Hg, decide_True by done. simpl.
    by rewrite (waiting_ext g f P) by (intros k' Hin; rewrite Hg, decide_False; [done|by intros ->]).
Qed.

(** ** One request *)
Definition key_request (k : Key) (s : Z) : BackendRequest :=
  match k with KAccount a => Basic a s | KSlot a i => Storage a i s | KBlock n => BlockHash n s end.
Record joined (h : Handler) (k : Key) (l : Z) (r : ProviderRequest) (h' : Handler) : Prop := mkJoined {
  join_listeners : forall k', listeners_of h' k' =
    if decide (k' = k) then Some (default [] (listeners_of h k) ++ [l]) else listeners_of h k';
  join_pending : pending_requests h' =
    match listeners_of h k with Some _ => pending_requests h | None => pending_requests h ++ [r] end;
  join_sent : sent h' = sent h;
  join_queued : queued_requests h' = queued_requests h;
  join_incoming : incoming h' = incoming h;
  join_block : block_id h' = block_id h;
  join_db : bh_db h' = bh_db h;
}.
Ltac join_cases H :=
  unfold push_pending, constant; constructor; simpl; rewrite ?H; simpl; try done;
  intros []; case_decide; simplify_eq; simpl; rewrite ?H; rewrite ?lookup_insert_eq; try done;
  rewrite ?lookup_insert_ne by congruence; done.
Lemma request_account_joined h a l :
  joined h (KAccount a) l (AccountFuture a (block_id h)) (request_account h a l).
Proof.
  unfold request_account, get_account_req. destruct h. simpl.
  destruct (_ !! a) as [ls|] eqn:H; join_cases H.
Qed.
Lemma request_storage_joined h a i l :
  joined h (KSlot a i) l (StorageFuture a i (block_id h)) (request_account_storage h a i l).
Proof.
  unfold request_account_storage. destruct h. simpl. destruct (_ !! (a, i)) as [ls|] eqn:H; join_cases H.
Qed.
Lemma request_hash_joined h n l : joined h (KBlock n) l (BlockHashFuture n) (request_hash h n l).
Proof. unfold request_hash. destruct h. simpl. destruct (_ !! n) as [ls|] eqn:H; join_cases H. Qed.

(** What a request does: it is answered from the cache, joins or starts a
    request to the provider, or moves the fork. *)
Inductive handled (h : Handler) (req : BackendRequest) : Handler -> Prop :=
| handled_cached s resp :
    sender_of req = Some s -> (forall w, cache_true w (bh_db h) -> answers w req resp) ->
    handled h req (send h s resp)
| handled_joined k s r h' :
    req = key_request k s -> key_of r = Some k -> at_block (block_id h) r -> joined h k s r h' -> handled h req h'
| handled_alone s r :
    sender_of req = Some s -> key_of r = None -> waiters_of (listeners_of h) r = [s] -> req = request_for r s ->
    handled h req (push_pending h r)
| handled_pin id : req = SetPinnedBlock id -> handled h req (h {{ block_id := Some id }}).
Lemma on_request_handled h req : handled h req (on_request h req).
Proof.
  destruct req as [a s|a i s|n s|id s|t s|id]; simpl.
  - destruct (sn_accounts _ !! a) as [basic|] eqn:E.
    + apply handled_cached; [done|]. intros w HT. simpl. by apply (true_accounts _ _ HT).
    + eapply (handled_joined _ _ (KAccount a)); [| | |apply request_account_joined]; done.
  - destruct (sn_storage _ !! a ≫= _) as [v|] eqn:E.
    + apply handled_cached; [done|]. intros w HT. simpl.
      apply bind_Some in E as (st & Ea & Ei). by eapply (true_storage _ _ HT).
    + eapply (handled_joined _ _ (KSlot a i)); [| | |apply request_storage_joined]; done.
  - destruct (sn_block_hashes _ !! n) as [v|] eqn:E.
    + apply handled_cached; [done|]. intros w HT. simpl. by apply (true_hashes _ _ HT).
    + eapply (handled_joined _ _ (KBlock n)); [| | |apply request_hash_joined]; done.
  - by eapply handled_alone.
  - by eapply handled_alone.
  - by apply handled_pin.
Qed.
Lemma sender_key_request k s : sender_of (key_request k s) = Some s.
Proof. by destruct k. Qed.

(** ** Counting *)
Definition same_queues (h h' : Handler) : Prop :=
  queued_requests h' = queued_requests h /\ incoming h' = incoming h.
Lemma accounted_waiting_sent h h' (new : list Z) :
  same_queues h h' -> waiting h' ++ (sent h').*1 ≡ₚ new ++ waiting h ++ (sent h).*1 ->
  accounted h' ≡ₚ new ++ accounted h.
Proof.
  intros [Hq Hi] H. unfold accounted. rewrite Hq, Hi, H.
  rewrite !(app_assoc _ _ (new ++ _)), (Permutation_app_comm _ (new ++ _)), <- app_assoc.
  apply Permutation_app_head. by rewrite Permutation_app_comm, <- app_assoc.
Qed.
Lemma handled_counts h req h' :
  handled h req h' -> one_in_flight h ->
  one_in_flight h' /\ same_queues h h' /\
  accounted h' ≡ₚ option_list (sender_of req) ++ accounted h.
Proof.
  intros Hh HI. rewrite one_in_flight_keyed in HI |- *.
  destruct Hh as [s resp Hs _|k s r h' -> Hk _ J|s r Hs Hk Hw _|id ->].
  - repeat split; try apply HI. apply accounted_waiting_sent; [done|]. rewrite Hs.
    change (waiting (send h s resp)) with (waiting h). change (sent (send h s resp)) with (sent h ++ [(s, resp)]).
    rewrite fmap_app. simpl. by rewrite app_assoc, Permutation_app_comm.
  - destruct J as [Jl Jp Js Jq Ji _ _].
    assert (keyed (listeners_of h') (pending_requests h') /\
      pending_requests h' ≫= waiters_of (listeners_of h') ≡ₚ s :: waiting h) as [HK HW].
    { rewrite Jp. destruct (listeners_of h k) as [ls|] eqn:E; simpl in Jl.
      - by eapply keyed_join. - by eapply keyed_first. }
    repeat split; try done; try apply HK. apply accounted_waiting_sent; [done|].
    rewrite sender_key_request, Js. unfold waiting. rewrite (waiters_eq h'), HW. done.
  - assert (keyed (listeners_of h) (pending_requests h ++ [r])) as HK.
    { destruct HI as [Hn Hl]. unfold keyed. rewrite omap_app. simpl. by rewrite Hk, app_nil_r. }
    repeat split; try apply HK. apply accounted_waiting_sent; [done|]. rewrite Hs.
    change (waiting (push_pending h r)) with ((pending_requests h ++ [r]) ≫= waiters_of (listeners_of h)).
    change (sent (push_pending h r)) with (sent h).
    rewrite bind_app, bind_singleton, Hw, (Permutation_app_comm _ [s]). done.
  - repeat split; try apply HI. by apply (accounted_waiting_sent _ _ []).
Qed.

(** ** Rule induction on a poll

    What every request handled, every future done and every reordering of the
    futures keeps, a poll keeps. *)
Definition reordered (h : Handler) (l : list ProviderRequest) : Handler := h {{ pending_requests := l }}.
Definition dequeued (h : Handler) (l : list BackendRequest) : Handler := h {{ queued_requests := l }}.
Definition received (h : Handler) : Handler := h {{ queued_requests := incoming h; incoming := [] }}.
Record kept_by_poll (p : Prov) (Q : Handler -> Prop) : Prop := mkKept {
  kept_reordered : forall h l, l ≡ₚ pending_requests h -> Q h -> Q (reordered h l);
  kept_resolved : forall h r resp h', Q (push_pending h r) -> resolved h r resp h' ->
    (forall w b, tells_truth w b p h r resp h') -> Q h';
  kept_handled : forall h req l, queued_requests h = req :: l -> Q h ->
    forall h', handled (dequeued h l) req h' -> Q h';
  kept_received : forall h, queued_requests h = [] -> Q h -> Q (received h);
}.
Lemma pending_same h : reordered h (pending_requests h) = h.
Proof. by destruct h. Qed.
Lemma poll_pending_S p n h h' :
  poll_pending p (S n) h = Val h' ->
  exists r rest o, vec_swap_remove (pending_requests h) n = Val (r, rest) /\
    poll_request p (reordered h rest) r = Val o /\
    poll_pending p n (match o with Some h => h | None => push_pending (reordered h rest) r end) = Val h'.
Proof.
  cbn [poll_pending]. destruct (vec_swap_remove _ n) as [[r rest]| | |]; try done.
  intros H. exists r, rest. change (Val (r, rest) ≫= ?f) with (f (r, rest)) in H. cbv beta iota zeta in H.
  change (h {{ pending_requests := rest }}) with (reordered h rest) in H.
  destruct (poll_request p _ r) as [o| | |]; try done. by exists o.
Qed.
Lemma kept_poll_pending p Q n h h' :
  kept_by_poll p Q -> poll_pending p n h = Val h' -> Q h -> Q h'.
Proof.
  intros K. revert h. induction n as [|n IH]; intros h; [by intros [= <-]|].
  intros (r & rest & o & HP & E & H)%poll_pending_S HQ. apply swap_remove_perm in HP as [HP _].
  eapply IH; [exact H|]. clear H IH.
  assert (Q (push_pending (reordered h rest) r)) as HQ'.
  { change (push_pending (reordered h rest) r) with (reordered h (rest ++ [r])).
    apply (kept_reordered _ _ K h); [|exact HQ]. by rewrite HP, Permutation_app_comm. }
  destruct o as [h1|]; [|done]. apply poll_request_resolved in E as (resp & HR & HT).
  exact (kept_resolved _ _ K _ _ _ _ HQ' HR HT).
Qed.

Lemma handled_queues h req h' : handled h req h' -> same_queues h h'.
Proof. destruct 1 as [|???? -> _ _ J| |? ->]; try by split. by destruct J. Qed.
Lemma kept_drain p Q l h :
  kept_by_poll p Q -> queued_requests h = l -> Q h ->
  Q (foldl on_request (dequeued h []) l) /\ queued_requests (foldl on_request (dequeued h []) l) = [].
Proof.
  intros K. revert h. induction l as [|req l IH]; intros h Hl HQ.
  { simpl. replace (dequeued h []) with h; [done|]. destruct h. simpl in Hl. by subst. }
  assert (forall h q r, dequeued (on_request (dequeued h q) r) [] = on_request (dequeued h []) r) as Hd.
  { clear. intros [] q []; simpl; unfold request_account, request_account_storage, request_hash, dequeued; simpl; try done.
    - do 2 (destruct (_ !! address); [done|]). done.
    - destruct (_ !! address ≫= _); [done|]. simpl. by destruct (_ !! (address, index)).
    - do 2 (destruct (_ !! number); [done|]). done. }
  simpl. rewrite <- (Hd h l). apply IH.
  - by destruct (handled_queues _ _ _ (on_request_handled (dequeued h l) req)).
  - eapply (kept_handled _ _ K h req l); [done..|]. apply on_request_handled.
Qed.
Lemma kept_poll_handler p Q fuel h b h' :
  kept_by_poll p Q -> poll_handler fuel p h = Val (b, h') -> Q h -> Q h'.
Proof.
  intros K. revert h. induction fuel as [|fuel IH]; intros h; [done|]. cbn [poll_handler]. cbv zeta.
  intros H HQ. destruct (kept_drain p Q _ h K eq_refl HQ) as [HQ1 Hq1].
  change (h {{ queued_requests := [] }}) with (dequeued h []) in H.
  set (h1 := foldl _ _ _) in *. change (h1 {{ queued_requests := incoming h1; incoming := [] }}) with (received h1) in H.
  pose proof (kept_received _ _ K _ Hq1 HQ1) as HQ2.
  destruct (negb _); [by injection H as <- <-|].
  destruct (poll_pending p _ _) as [h3| | |] eqn:E; try done. cbn -[poll_handler] in H.
  apply (kept_poll_pending _ Q) in E; [|done..].
  destruct (queued_requests h3); [by injection H as <- <- | by eapply IH].
Qed.

(** ** Nobody is forgotten, nobody is answered twice *)
Lemma resolved_counts h r resp h' :
  resolved h r resp h' -> one_in_flight (push_pending h r) ->
  one_in_flight h' /\ accounted h' ≡ₚ accounted (push_pending h r).
Proof.
  intros [Rs Rl Rp Rq Ri _ _] HI. rewrite one_in_flight_keyed in HI |- *.
  change (listeners_of (push_pending h r)) with (listeners_of h) in HI.
  change (pending_requests (push_pending h r)) with (pending_requests h ++ [r]) in HI.
  apply (keyed_perm _ _ (r :: pending_requests h)) in HI; [|by rewrite Permutation_app_comm].
  destruct (keyed_resolved _ _ _ _ HI Rl) as [HK HW]. rewrite Rp. split; [done|].
  apply (accounted_waiting_sent _ _ []); [by split|]. simpl.
  change (waiting (push_pending h r)) with ((pending_requests h ++ [r]) ≫= waiters_of (listeners_of h)).
  change (sent (push_pending h r)) with (sent h). unfold waiting.
  rewrite Rp, (waiters_eq h'), HW, Rs, bind_app, bind_singleton, fmap_app, <- list_fmap_compose, list_fmap_id.
  rewrite <- !app_assoc. apply Permutation_app_head, Permutation_app_comm.
Qed.
Definition counts (L : list Z) (h : Handler) : Prop := one_in_flight h /\ accounted h ≡ₚ L.
Lemma counts_kept p L : kept_by_poll p (counts L).
Proof.
  constructor.
  - intros h l Hl [HI HA]. split.
    + apply (keyed_perm _ (pending_requests h)); [by symmetry|done].
    + rewrite <- HA. apply (accounted_waiting_sent _ _ []); [done|]. simpl. apply Permutation_app_tail.
      by apply (waiting_perm (listeners_of h)).
  - intros h r resp h' [HI HA] HR _. destruct (resolved_counts _ _ _ _ HR HI) as [HI' HA'].
    split; [done|]. by rewrite HA'.
  - intros h req l Hl [HI HA] h' HH. destruct (handled_counts _ _ _ HH HI) as (HI' & Hq & HA').
    split; [done|]. rewrite HA', <- HA. unfold accounted.
    change (queued_requests (dequeued h l)) with l. rewrite Hl. simpl. by destruct (sender_of req).
  - intros h Hq [HI HA]. split; [done|]. rewrite <- HA. unfold accounted.
    change (queued_requests (received h)) with (incoming h). change (incoming (received h)) with (@nil BackendRequest).
    by rewrite Hq.
Qed.
Lemma ask_counts h r L :
  counts L h -> counts (L ++ option_list (sender_of r)) (try_send h r).
Proof.
  intros [HI HA]. split; [done|]. rewrite <- HA. unfold accounted.
  change (incoming (try_send h r)) with (incoming h ++ [r]). rewrite omap_app.
  change (waiting (try_send h r)) with (waiting h).
  change (queued_requests (try_send h r)) with (queued_requests h). change (sent (try_send h r)) with (sent h).
  simpl. destruct (sender_of r); simpl; rewrite ?app_nil_r; [|done]. solve_Permutation.
Qed.
Lemma run_cons e evs h h' :
  run (e :: evs) h = Val h' -> exists h1, event h e = Val h1 /\ run evs h1 = Val h'.
Proof. simpl. destruct (event h e) as [h1| | |]; try done. by exists h1. Qed.
Lemma event_poll p h h' : event h (Poll p) = Val h' -> exists b, poll_handler 2 p h = Val (b, h').
Proof. unfold event. destruct (poll_handler 2 p h) as [[b h1]| | |]; try done. intros [= <-]. by exists b. Qed.
Lemma run_counts evs h L h' :
  run evs h = Val h' -> counts L h -> counts (L ++ omap sender_of (asks evs)) h'.
Proof.
  revert h L. induction evs as [|[r|p] evs IH]; intros h L.
  - intros [= <-]. simpl. by rewrite app_nil_r.
  - intros (h1 & [= <-] & H)%run_cons HC'. apply (ask_counts _ r) in HC'. apply (IH _ _ H) in HC'.
    rewrite <- app_assoc in HC'. simpl. by destruct (sender_of r).
  - intros (h1 & [b E]%event_poll & H)%run_cons HC'.
    apply (IH h1); [done|]. by apply (kept_poll_handler _ _ _ _ _ _ (counts_kept p L) E).
Qed.
Lemma new_counts db b : counts [] (BackendHandler_new db b : Handler).
Proof.
  split; [|done]. split; [constructor|]. intros k. split; [by intros ?%elem_of_nil|]. by destruct k; intros [].
Qed.

(** ** Answers are true while the fork stays at one block *)
Definition alone_ok (asked : BackendRequest -> Prop) (r : ProviderRequest) : Prop :=
  match r with
  | FullBlockFuture id s => asked (FullBlockOf id s)
  | TransactionFuture t s => asked (TransactionOf t s)
  | _ => True
  end.
(** A sender was told something true of what it asked. *)
Definition told_truth (w : World) (asked : BackendRequest -> Prop) (m : Z * Resp) : Prop :=
  exists req, asked req /\ sender_of req = Some m.1 /\ answers w req m.2.
Record sound (w : World) (b : option BlockId) (asked : BackendRequest -> Prop) (h : Handler) : Prop := mkSound {
  sound_block : block_id h = b;
  sound_cache : cache_true w (bh_db h);
  sound_futures : Forall (fun r => at_block b r /\ alone_ok asked r) (pending_requests h);
  sound_listeners : forall k ls, listeners_of h k = Some ls -> Forall (fun l => asked (key_request k l)) ls;
  sound_queued : Forall asked (queued_requests h);
  sound_incoming : Forall asked (incoming h);
  sound_sent : Forall (told_truth w asked) (sent h);
}.
Lemma request_for_key r k s : key_of r = Some k -> request_for r s = key_request k s.
Proof. by destruct r; intros [= <-]. Qed.
Lemma sender_request_for r s : sender_of (request_for r s) = Some s.
Proof. by destruct r. Qed.
Lemma waiters_asked w b asked h r :
  sound w b asked h -> alone_ok asked r -> Forall (fun s => asked (request_for r s)) (waiters h r).
Proof.
  intros HS Ha. rewrite waiters_eq. destruct (key_of r) as [k|] eqn:E.
  - rewrite (waiters_of_key _ _ _ E). destruct (listeners_of h k) as [ls|] eqn:El; simpl; [|constructor].
    eapply Forall_impl; [by eapply (sound_listeners _ _ _ _ HS)|]. intros s. by rewrite (request_for_key _ _ _ E).
  - destruct r; try done; simpl in *; auto.
Qed.
Lemma handled_sound w b asked h req h' :
  sound w b asked h -> asked req -> (forall id, req <> SetPinnedBlock id) -> handled h req h' -> sound w b asked h'.
Proof.
  intros HS Hreq Hpin Hh. destruct HS as [S1 S2 S3 S4 S5 S6 S7].
  destruct Hh as [s resp Hs HA|k s r h' -> Hk Hat J|s r Hs Hk Hw ->|id ->].
  - constructor; try done. change (sent (send h s resp)) with (sent h ++ [(s, resp)]).
    apply Forall_app. split; [done|]. repeat constructor. exists req. auto.
  - destruct J as [Jl Jp Js Jq Ji Jb Jd]. constructor; try congruence.
    + rewrite Jp. destruct (listeners_of h k); [done|]. apply Forall_app. split; [done|].
      repeat constructor; [by rewrite <- S1|]. by destruct r.
    + intros k' ls. rewrite Jl. case_decide as Hd; [|apply S4]. subst. intros [= <-].
      apply Forall_app. split; [|by repeat constructor]. destruct (listeners_of h k) eqn:E; [by apply S4|constructor].
  - constructor; try done. change (pending_requests (push_pending h r)) with (pending_requests h ++ [r]).
    apply Forall_app. split; [done|]. repeat constructor; destruct r; try done; simpl in *; congruence.
  - by destruct (Hpin id).
Qed.
Lemma resolved_sound w b asked p h r resp h' :
  faithful w b p -> sound w b asked (push_pending h r) -> resolved h r resp h' ->
  tells_truth w b p h r resp h' -> sound w b asked h'.
Proof.
  intros F HS [Rs Rl Rp Rq Ri Rb _] HT. destruct HS as [S1 S2 S3 S4 S5 S6 S7].
  change (pending_requests (push_pending h r)) with (pending_requests h ++ [r]) in S3.
  apply Forall_app in S3 as [S3 [[Hat Hal] _]%Forall_cons].
  assert (sound w b asked h) as HS by (constructor; done).
  clear S1 S2 S4 S5 S6 S7. destruct HS as [S1 S2 S3' S4 S5 S6 S7] eqn:E. clear E.
  destruct (HT F Hat S2) as [HC' HA]. constructor; try congruence.
  - intros k ls. rewrite Rl. case_decide; [done|]. apply S4.
  - rewrite Rs. apply Forall_app. split; [done|]. apply Forall_fmap.
    eapply Forall_impl; [by eapply waiters_asked|]. intros s Hs. exists (request_for r s).
    split; [done|]. split; [apply sender_request_for | apply HA].
Qed.
Lemma sound_kept w b asked p :
  faithful w b p -> (forall id, ~ asked (SetPinnedBlock id)) -> kept_by_poll p (sound w b asked).
Proof.
  intros F Hpin. constructor.
  - intros h l Hl [S1 S2 S3 S4 S5 S6 S7]. constructor; try done.
    change (pending_requests (reordered h l)) with l. by rewrite Hl.
  - intros h r resp h' HS HR HT. by eapply resolved_sound.
  - intros h req l Hl [S1 S2 S3 S4 S5 S6 S7] h' HH. rewrite Hl in S5. apply Forall_cons in S5 as [Hreq S5].
    eapply handled_sound; [|done| |done]; [by constructor|]. intros id ->. by apply (Hpin id).
  - intros h Hq [S1 S2 S3 S4 S5 S6 S7]. by constructor.
Qed.
Lemma run_sound w b asked evs h h' :
  (forall p, Poll p ∈ evs -> faithful w b p) -> (forall r, Ask r ∈ evs -> asked r) ->
  (forall id, ~ asked (SetPinnedBlock id)) ->
  run evs h = Val h' -> sound w b asked h -> sound w b asked h'.
Proof.
  intros HF HA Hpin. revert h. induction evs as [|e evs IH]; intros h; [by intros [= <-]|].
  intros (h1 & He & H)%run_cons HS.
  eapply IH; [intros p Hp; apply HF; by right | intros r Hr; apply HA; by right | exact H |].
  destruct e as [r|p].
  - injection He as <-. destruct HS as [S1 S2 S3 S4 S5 S6 S7]. constructor; try done.
    change (incoming (try_send h r)) with (incoming h ++ [r]). apply Forall_app. split; [done|].
    repeat constructor. apply HA. by left.
  - apply event_poll in He as [b' E]. eapply kept_poll_handler; [|exact E|done].
    apply sound_kept; [|done]. apply HF. by left.
Qed.

(** ** A poll ends, and a provider that is ready answers everyone *)
Definition frame (h h' : Handler) : Prop :=
  queued_requests h' = queued_requests h /\ incoming h' = incoming h /\ senders_alive h' = senders_alive h.
Lemma on_request_frame h r : frame h (on_request h r).
Proof.
  destruct (handled_queues _ _ _ (on_request_handled h r)) as [Hq Hi]. repeat split; try done. clear Hq Hi.
  destruct r; simpl; try done; unfold request_account, request_account_storage, request_hash.
  - do 2 (destruct (_ !! address); [done|]). done.
  - destruct (_ !! address ≫= _); [done|]. by destruct (_ !! (address, index)).
  - do 2 (destruct (_ !! number); [done|]). done.
Qed.
Lemma frame_trans h1 h2 h3 : frame h1 h2 -> frame h2 h3 -> frame h1 h3.
Proof. intros (? & ? & ?) (? & ? & ?). repeat split; congruence. Qed.
Lemma drain_frame l h : frame h (foldl on_request h l).
Proof.
  revert h. induction l as [|r l IH]; intros h; [done|].
  exact (frame_trans _ _ _ (on_request_frame h r) (IH (on_request h r))).
Qed.
Lemma poll_pending_frame p n h h' : poll_pending p n h = Val h' -> frame h h'.
Proof.
  revert h. induction n as [|n IH]; intros h; [by intros [= <-]|].
  intros (r & rest & o & _ & E & H)%poll_pending_S. destruct (IH _ H) as (Hq & Hi & Ha). clear IH H.
  unfold frame. rewrite Hq, Hi, Ha. destruct o as [h1|]; [|done].
  apply poll_request_resolved in E as (resp & [_ _ _ Rq Ri _ Ra] & _). by rewrite Rq, Ri, Ra.
Qed.
(** One round of the loop, its end told from another round. *)
Definition round_start (h : Handler) : Handler := received (foldl on_request (dequeued h []) (queued_requests h)).
Lemma round_start_frame h :
  queued_requests (round_start h) = incoming h /\ incoming (round_start h) = [] /\
  senders_alive (round_start h) = senders_alive h.
Proof. unfold round_start. by destruct (drain_frame (queued_requests h) (dequeued h [])) as (_ & Hi & Ha). Qed.
Lemma poll_handler_S fuel p h :
  poll_handler (S fuel) p h =
    if negb (senders_alive h) then Val (true, round_start h)
    else match poll_pending p (length (pending_requests (round_start h))) (round_start h) with
         | Val h' => match incoming h with [] => Val (false, h') | _ => poll_handler fuel p h' end
         | Panic => Panic | Undef => Undef | Diverge => Diverge
         end.
Proof.
  cbn [poll_handler]. cbv zeta. change (h {{ queued_requests := [] }}) with (dequeued h []).
  change (?h1 {{ queued_requests := incoming ?h1; incoming := [] }}) with (received h1).
  fold (round_start h). destruct (round_start_frame h) as (Hq & Hi & Ha). rewrite Ha. case_match; [done|].
  destruct (poll_pending _ _ _) as [h'| | |] eqn:E; try done.
  apply poll_pending_frame in E as (Hq' & _). cbn -[poll_handler]. by rewrite Hq', Hq.
Qed.

Lemma poll_request_returns (p : Prov) (h : Handler) r : poll_request p h r <> Diverge.
Proof.
  destruct r as [a b|a i b|n|id s|t s]; cbn [poll_request].
  - destruct (try_join _ _ _) as [[[[bal n] c]|e]|]; try done. unfold as_u64. by destruct (n <? _).
  - by destruct (get_storage_at p a i b) as [[v|e]|].
  - by destruct (get_block p n) as [[[[hash|]|]|e]|].
  - by destruct (get_block_with_txs p id).
  - by destruct (get_transaction p t).
Qed.
Lemma poll_pending_returns (p : Prov) n (h : Handler) : poll_pending p n h <> Diverge.
Proof.
  revert h. induction n as [|n IH]; intros h; [done|]. cbn [poll_pending].
  destruct (vec_swap_remove _ n) as [[r rest]| | |] eqn:E; try done.
  - change (Val (r, rest) ≫= ?f) with (f (r, rest)). cbv beta iota zeta.
    pose proof (poll_request_returns p (h {{ pending_requests := rest }}) r).
    destruct (poll_request p _ r) as [o| | |]; try done. apply IH.
  - revert E. unfold vec_swap_remove. repeat case_match; done.
Qed.
(** Two rounds are enough: what has arrived is read in the first, handled in the second. *)
Lemma poll_returns (p : Prov) (h : Handler) : poll_handler 2 p h <> Diverge.
Proof.
  rewrite poll_handler_S. case_match; [done|].
  pose proof (poll_pending_returns p (length (pending_requests (round_start h))) (round_start h)) as H1.
  destruct (poll_pending _ _ _) as [h1| | |] eqn:E; try done.
  destruct (incoming h); [done|]. rewrite poll_handler_S. case_match; [done|].
  apply poll_pending_frame in E as (_ & Hi & _). rewrite Hi, (proj1 (proj2 (round_start_frame h))).
  pose proof (poll_pending_returns p (length (pending_requests (round_start h1))) (round_start h1)) as H2.
  by destruct (poll_pending _ _ _).
Qed.

(** The provider has answered everything, with nonces of 64 bits and blocks that have a hash. *)
Record ready (p : Prov) : Prop := mkReady {
  ready_account : forall a b, is_Some (try_join (get_balance p a b) (get_transaction_count p a b) (get_code p a b));
  ready_nonce : forall a b n, get_transaction_count p a b = Some (inl n) -> n < u64_modulus;
  ready_slot : forall a i b, is_Some (get_storage_at p a i b);
  ready_hash : forall n, exists r, get_block p n = Some r /\ r <> inl (Some None);
  ready_block : forall id, is_Some (get_block_with_txs p id);
  ready_tx : forall t, is_Some (get_transaction p t);
}.
Lemma ready_poll p h r : ready p -> exists h', poll_request p h r = Val (Some h').
Proof.
  intros [R1 R2 R3 R4 R5 R6]. destruct r as [a b|a i b|n|id s|t s]; cbn [poll_request].
  - destruct (R1 a b) as [x Hx]. rewrite Hx. destruct x as [[[bal n] c]|e]; [|eauto].
    apply try_join_inl in Hx as (_ & Hn & _). apply R2 in Hn. unfold as_u64.
    replace (n <? u64_modulus) with true by (symmetry; by apply Z.ltb_lt). eexists. reflexivity.
  - destruct (R3 a i b) as [[v|e] ->]; eauto.
  - destruct (R4 n) as (x & -> & Hx). destruct x as [[[hash|]|]|e]; try done; eexists; reflexivity.
  - destruct (R5 id) as [x ->]. eauto.
  - destruct (R6 t) as [x ->]. eauto.
Qed.
Lemma poll_pending_ready p n h :
  ready p -> length (pending_requests h) = n ->
  exists h', poll_pending p n h = Val h' /\ pending_requests h' = [].
Proof.
  intros R. revert h. induction n as [|n IH]; intros h Hl; [by apply length_zero_iff_nil in Hl; eauto|].
  destruct (swap_remove_ok (pending_requests h) n) as (r & rest & E); [lia|].
  destruct (swap_remove_perm _ _ _ _ E) as [_ Hrest].
  destruct (ready_poll p (reordered h rest) r R) as [h1 H1].
  destruct (poll_request_resolved _ _ _ _ H1) as (resp & [_ _ Rp _ _ _ _] & _).
  destruct (IH h1) as (h' & H & Hp); [rewrite Rp; change (pending_requests (reordered h rest)) with rest; lia|].
  exists h'. split; [|done]. cbn [poll_pending]. rewrite E.
  change (Val (r, rest) ≫= ?f) with (f (r, rest)). cbv beta iota zeta.
  change (h {{ pending_requests := rest }}) with (reordered h rest). rewrite H1. exact H.
Qed.
Lemma poll_ready p h :
  ready p -> senders_alive h = true ->
  exists h', poll_handler 2 p h = Val (false, h') /\
    pending_requests h' = [] /\ queued_requests h' = [] /\ incoming h' = [].
Proof.
  intros R Ha. rewrite poll_handler_S, Ha. cbn [negb].
  destruct (poll_pending_ready p _ (round_start h) R eq_refl) as (h1 & E1 & P1). rewrite E1.
  apply poll_pending_frame in E1 as (Q1 & I1 & A1). destruct (round_start_frame h) as (Q0 & I0 & A0).
  destruct (incoming h) as [|x l]; [exists h1; by rewrite Q1, I1|].
  rewrite poll_handler_S. rewrite A1, A0, Ha, I1, I0. cbn [negb].
  destruct (poll_pending_ready p _ (round_start h1) R eq_refl) as (h2 & E2 & P2). rewrite E2.
  apply poll_pending_frame in E2 as (Q2 & I2 & _). destruct (round_start_frame h1) as (Q3 & I3 & _).
  exists h2. repeat split; congruence.
Qed.

(** Any handler that has run is sound and has everyone in its books. *)
Lemma new_sound w b asked db : cache_true w db -> sound w b asked (BackendHandler_new db b).
Proof. intros HC'. constructor; try done; try constructor. intros [] ls; done. Qed.
Lemma poll_alive fuel (p : Prov) (h : Handler) b h' : poll_handler fuel p h = Val (b, h') -> senders_alive h' = senders_alive h.
Proof.
  revert h. induction fuel as [|fuel IH]; intros h; [done|]. rewrite poll_handler_S.
  destruct (round_start_frame h) as (_ & _ & Ha). case_match; [intros [= <- <-]; done|].
  destruct (poll_pending _ _ _) as [h1| | |] eqn:E; try done. apply poll_pending_frame in E as (_ & _ & Ha').
  destruct (incoming h); [intros [= <- <-]; congruence|]. intros HP. rewrite (IH _ HP). congruence.
Qed.
Lemma run_alive evs (h : Handler) h' : run evs h = Val h' -> senders_alive h' = senders_alive h.
Proof.
  revert h. induction evs as [|[r|p] evs IH]; intros h; [by intros [= <-]| |].
  - intros (h1 & [= <-] & H)%run_cons. by rewrite (IH _ H).
  - intros (h1 & [b E]%event_poll & H)%run_cons. rewrite (IH _ H). by eapply poll_alive.
Qed.

(** C14: whatever is asked and however the provider delays or fails, as long as
    nobody moves the fork each answer is true of the remote chain at the
    block of the fork: who gets one asked for it, and what it says, from the
    cache or from the provider, is what the chain has there. *)
Theorem fork_answers_true w b evs db h :
  cache_true w db -> (forall p, Poll p ∈ evs -> faithful w b p) ->
  (forall id, Ask (SetPinnedBlock id) ∉ evs) ->
  run evs (BackendHandler_new db b) = Val h ->
  Forall (told_truth w (fun r => Ask r ∈ evs)) (sent h) /\ cache_true w (bh_db h).
Proof.
  intros HC' HF Hpin H.
  destruct (run_sound w b (fun r => Ask r ∈ evs) evs _ _ HF (fun r Hr => Hr) Hpin H (new_sound _ _ _ _ HC')); auto.
Qed.

(** C13: after any requests and polls there is one future for each account,
    slot or block hash that is waited for, and no other; everyone who asked is
    in the books once; and a poll that finds the provider ready answers each
    of them, exactly once, and leaves nothing in progress. *)
Theorem every_request_answered evs db b h p :
  run evs (BackendHandler_new db b) = Val h -> ready p ->
  one_in_flight h /\ accounted h ≡ₚ omap sender_of (asks evs) /\
  exists h', poll_handler 2 p h = Val (false, h') /\
    (sent h').*1 ≡ₚ omap sender_of (asks evs) /\ pending_requests h' = [] /\ forall k, listeners_of h' k = None.
Proof.
  intros H R. pose proof (run_counts _ _ [] _ H (new_counts db b)) as [HI HA]. do 2 (split; [done|]).
  destruct (poll_ready p h R) as (h' & E & Hp & Hq & Hi); [by rewrite (run_alive _ _ _ H)|].
  destruct (kept_poll_handler _ _ _ _ _ _ (counts_kept p _) E (conj HI HA)) as [[Hn Hk] HA'].
  exists h'. split; [done|]. unfold accounted, waiting in HA'. rewrite Hp, Hq, Hi in HA'. repeat split; try done.
  intros k. apply eq_None_not_Some. rewrite <- Hk, Hp. apply not_elem_of_nil.
Qed.
End spec.

(** ** Snapshots of a forked database *)
Section database.
Context {HC : Crypto} {Err FullBlock RemoteTransaction T : Type}.
Abbreviation Handler := (@BackendHandler Err FullBlock RemoteTransaction).

(** Reverting to a snapshot brings back the remote data and the local changes
    of when it was taken, whatever has happened to both since; it goes with
    those taken after it. *)
Lemma forked_snapshot_restores (h : Handler) (d : ForkedDatabase T) id d1 (h2 : Handler) (d2 : ForkedDatabase T) :
  0 <= Snapshots.id (fd_snapshots d) < u256_modulus - 1 ->
  insert_snapshot h d = (id, d1) -> fd_snapshots d2 = fd_snapshots d1 ->
  exists d3, revert_snapshot h2 d2 id = Val (true, (with_store h2 (bh_db h), d3)) /\
    fd_cache_db d3 = fd_cache_db d /\ fd_backend d3 = fd_backend d2 /\
    Snapshots.snapshots (fd_snapshots d3) !! id = None.
Proof.
  intros Hid [= <- <-] Hs. simpl in Hs.
  destruct (remove_spec (fd_snapshots d2) (Snapshots.id (fd_snapshots d)) Hid) as (s & E & _ & Hrem).
  unfold revert_snapshot. rewrite E, Hs. cbn. rewrite lookup_insert_eq. cbn. destruct (bh_db h). eexists. split; [reflexivity|].
  repeat split; try done. cbn. rewrite Hrem, decide_True; [done|lia].
Qed.

(** So does one taken before the fork is moved: the data of the old block is
    back, while what is fetched from then on is of the new one. *)
Lemma revert_undoes_reset (h : Handler) (d : ForkedDatabase T) id d1 block :
  0 <= Snapshots.id (fd_snapshots d) < u256_modulus - 1 -> insert_snapshot h d = (id, d1) ->
  exists d3, let '(h2, d2) := reset h d1 block in
    bh_db h2 = ForkMemDb_default /\ incoming h2 = incoming h ++ [SetPinnedBlock block] /\
    revert_snapshot h2 d2 id = Val (true, (with_store h2 (bh_db h), d3)) /\ fd_cache_db d3 = fd_cache_db d.
Proof.
  intros Hid Hins. unfold reset.
  edestruct (forked_snapshot_restores h d id d1) as (d3 & H & Hc & _); [exact Hid|exact Hins| |].
  2: { exists d3. split; [done|]. split; [done|]. split; [exact H|exact Hc]. }
  done.
Qed.
End database.

(** ** On a small chain *)
Section examples.
Abbreviation Handler := (@BackendHandler string unit unit).
Abbreviation Prov := (@Provider string unit unit).
(** Accounts have the number of the block as their balance. *)
Definition example_world (n : Z) : @World unit unit := mkWorld (fun _ => n) (fun _ => 5) (fun _ => []) (fun a i => a + i)
  (fun k => if k <=? n then Some (k + 1000) else None) (fun _ => Some tt) (fun _ => None).
Definition at_number (n : Z) : option BlockId := Some (IdNumber (Number n)).
Definition balance_at (b : option BlockId) : Z :=
  match b with Some (IdNumber (Number n)) => n | _ => 0 end.
Definition example_provider (late : bool) : Prov :=
  let answer {A : Type} (x : A + string) := if late then None else Some x in
  mkProvider (fun _ b => answer (inl (balance_at b))) (fun _ _ => answer (inl 5)) (fun _ _ => answer (inl []))
    (fun a i _ => answer (inl (a + i))) (fun k => answer (inl (if k <=? 1 then Some (Some (k + 1000)) else None)))
    (fun _ => answer (inl (Some tt))) (fun _ => answer (inr "no such method"%string)).
Lemma example_faithful late : faithful (example_world 1) (at_number 1) (example_provider late).
Proof.
  destruct late; constructor; try done; simpl.
  - by intros _ x [= <-]. - by intros _ x [= <-]. - by intros _ x [= <-]. - by intros a i x [= <-].
  - intros k x [= <-]. by destruct (k <=? 1). - by intros _ x [= <-].
Qed.
Lemma example_ready : ready (example_provider false).
Proof.
  constructor; simpl; try (intros; by eexists).
  - by intros _ _ n [= <-].
  - intros n. eexists. split; [done|]. by destruct (n <=? 1).
Qed.
Definition example_events : list (@Event string unit unit) :=
  [Ask (Basic 7 0); Ask (Basic 7 1); Ask (TransactionOf 9 2); Poll (example_provider true); Ask (BlockHash 8 3);
   Poll (example_provider false); Ask (Basic 7 4); Ask (Storage 7 3 5); Poll (example_provider true)].
Definition example_handler : rust Handler :=
  run example_events (BackendHandler_new ForkMemDb_default (at_number 1)).
Lemma example_runs : exists h, example_handler = Val h.
Proof. unfold example_handler. eexists. vm_compute. reflexivity. Qed.
(** Four are answered from two requests to the provider; the slot is not there yet. *)
Example example_answers :
  (h ← example_handler; Val ((sent h).*1, pending_requests h)) =
  Val ([0; 1; 2; 3; 4], [StorageFuture 7 3 (at_number 1)]).
Proof. by vm_compute. Qed.

Lemma example_events_ok :
  Forall (fun e => match e with
    | Poll p => faithful (example_world 1) (at_number 1) p
    | Ask (SetPinnedBlock _) => False
    | Ask _ => True
    end) example_events.
Proof. unfold example_events. repeat (apply Forall_cons; split; [exact I || apply example_faithful|]). apply Forall_nil_2. Qed.
Lemma fork_answers_true_witness : exists h,
  example_handler = Val h /\
  (Forall (told_truth (example_world 1) (fun r => Ask r ∈ example_events)) (sent h) /\
   cache_true (example_world 1) (bh_db h)).
Proof.
  destruct example_runs as [h Hh]. exists h. split; [exact Hh|].
  apply (fork_answers_true (example_world 1) (at_number 1) example_events ForkMemDb_default h).
  - by constructor.
  - intros p Hp. pose proof example_events_ok as Hok. rewrite Forall_forall in Hok. exact (Hok _ Hp).
  - intros id Hp. pose proof example_events_ok as Hok. rewrite Forall_forall in Hok. exact (Hok _ Hp).
  - exact Hh.
Defined.
Lemma every_request_answered_witness : exists h h',
  example_handler = Val h /\ poll_handler 2 (example_provider false) h = Val (false, h') /\
  (sent h').*1 ≡ₚ [0; 1; 2; 3; 4; 5].
Proof.
  destruct example_runs as [h Hh]. exists h. unfold example_handler in Hh |- *.
  destruct (every_request_answered example_events ForkMemDb_default (at_number 1) h (example_provider false) Hh example_ready)
    as (_ & _ & h' & E & Hs & _).
  exists h'. split; [exact Hh|]. split; [exact E|exact Hs].
Defined.

(** Moving the fork clears the cache at once but not what is in flight: the
    account that was asked for at block 1 fills the new cache, and everyone
    who asks for it at block 2 is told what it was at block 1. *)
Definition told_balances (h : Handler) : list (Z * Z) :=
  omap (fun m => match m.2 with AccountResponse (inl i) => Some (m.1, balance i) | _ => None end) (sent h).
Theorem moved_fork_keeps_old_account :
  (h ← run [Ask (Basic 7 0); Poll (example_provider true)] (BackendHandler_new ForkMemDb_default (at_number 1));
   let h := (reset h (ForkedDatabase_new mkEmptyDB) (IdNumber (Number 2))).1 in
   h ← run [Poll (example_provider true); Ask (Basic 7 1); Poll (example_provider false);
            Ask (Basic 7 2); Poll (example_provider false); Ask (Basic 8 3); Poll (example_provider false)] h;
   Val (block_id h, told_balances h)) = Val (at_number 2, [(0, 1); (1, 1); (2, 1); (3, 2)]).
Proof. by vm_compute. Qed.

(** A nonce of more than 64 bits ends the handler. *)
Lemma huge_nonce_panics :
  poll_request (mkProvider (fun _ _ => Some (inl 0)) (fun _ _ => Some (inl u64_modulus)) (fun _ _ => Some (inl []))
      (fun _ _ _ => None) (fun _ => None) (fun _ => None) (fun _ => None) : Prov)
    (BackendHandler_new ForkMemDb_default None) (AccountFuture 7 None) = Panic.
Proof. by vm_compute. Qed.
(** The storage that a snapshot holds is not read from it, though its accounts are. *)
Lemma snapshot_storage_unread :
  let s := mkForkDbSnapshot (CacheDB_new mkEmptyDB)
    (mkStateSnapshot {[7 := AccountInfo_default]} {[7 := {[3 := 1]}]} ∅) in
  snapshot_storage s 7 3 = inl 0 /\ snapshot_basic s 7 = inl (Some AccountInfo_default).
Proof. by vm_compute. Qed.
End examples.
